(* ===== verification/_CoqProject ===== *)
-Q . S2P
Prelude.v
Floats.v
Utility.v
IopOrder.v
IopModules.v
Undo.v
PixelpipeCache.v
Cache.v
CacheSpec.v
Jobs.v
Calculator.v
Variables.v
Conf.v
History.v
HistorySpec.v
Mipmap.v
Netpbm.v
Rows.v
Pixelpipe.v
PixelpipeSpec.v
PixelpipeProcess.v
Tiling.v
Library.v
Attributes.v
ColorLabels.v
Metadata.v
Tags.v
TagLists.v
TagFiles.v
Images.v
ImageCache.v
ImageStore.v
Grouping.v
Ratings.v
Flip.v
StoredHistory.v
Snapshots.v
Compress.v
Collection.v
Selection.v
