(* ===== verification/Prelude.v ===== *)
(** * A verification library for DT-lite

    DT-lite is a photo workflow program and raw developer in C, a reduced
    darktable. A library (an SQLite database) holds images with their tags, labels,
    ratings and groups, and the history of edits of each. Images are developed by a
    pipe of processing modules whose order is stored per image; edits can be undone;
    image records, processed and scaled buffers are kept in caches; everything slow
    runs as jobs on worker threads; file names and overlays are built from texts with
    $(VARIABLES), and numeric input fields take formulas. This library models the
    parts of that program that carry its own logic, as executable Rocq functions
    translated from the C code, and proves what makes them correct.

    ** The files

    Shared definitions:

    - [Prelude] (this file): the result type of C code that may be undefined and
      its monad, the class [Machine] of transition systems over shared state with
      their inductive invariants, machine integers, C strings and number texts, GLib's
      stable list sort, and the list and string lemmas that the components share, with
      the hint database [dtlite].
    - [Floats]: IEEE binary32 and binary64 numbers, their conversions and texts.
    - [Rows]: copying rectangles between buffers of pixels.
    - [Library]: the tables of tags, labels and metadata in the database, and the
      SQLite and GLib functions that the files on them share.

    The pipe and its history:

    - [IopOrder]: common/iop_order.c, the iop-order list: the built-in table, the
      two serialisations, the table main.module_order, look-ups. Uses [Utility].
    - [IopModules]: the rest of common/iop_order.c, which keeps the modules of a
      develop state in the order of that list and checks them. Uses [IopOrder].
    - [History] and [HistorySpec]: the history of edits, develop/develop.c with
      parts of libs/history.c, common/history.c and develop/masks/masks.c: adding,
      going back, removing, writing to the database, undo. Uses [IopModules], [Undo].
    - [Pixelpipe] and [PixelpipeSpec]: develop/pixelpipe_hb.c, the nodes of the pipe
      and how they follow the history, with the hashes of parameters and masks.
    - [PixelpipeCache]: develop/pixelpipe_cache.c, the cache of the pixel pipe and
      the hashes that address it.
    - [PixelpipeProcess]: the recursive processing of develop/pixelpipe_hb.c on top
      of [PixelpipeCache] and [Pixelpipe].
    - [Tiling]: develop/tiling.c for modules that map pixels to pixels.
    - [Flip]: orientation, the module iop/flip.c with the flips of buffers in
      common/imageio.c. Uses [Rows].

    Caches and jobs:

    - [Cache]: common/cache.c, the concurrent lru cache below the mipmap and image
      caches, as a transition system of threads that get, release, remove, collect
      and demote.
    - [CacheSpec]: what the cache promises, a lossy map with read and write leases,
      and the refinement of that promise by [Cache].
    - [Mipmap]: common/mipmap_cache.c, thumbnails, on that map and the disk.
    - [Images], [ImageCache], [ImageStore]: the image record and its row in
      main.images; common/image_cache.c on top of [Cache], as a transition system;
      and the interface [ImageStore] that other components use it by.
    - [Jobs]: control/jobs.c, the job queues, the scheduler and the workers, as a
      transition system of clients and workers.

    The library of images:

    - [Undo]: common/undo.c, the undo and redo lists with groups, time periods
      and callbacks on an arbitrary application state.
    - [Attributes]: the interface [Attribute] of what is kept per image and changed
      with undo, with the functions that common/tags.c, common/metadata.c and
      common/colorlabels.c share. Uses [Undo].
    - [ColorLabels], [Metadata], [Tags], [TagLists]: those three files; the lists of
      tags for display and export are in [TagLists]. Keyword files are in
      [TagFiles].
    - [Grouping], [Ratings]: common/grouping.c and common/ratings.c against
      [ImageStore].
    - [StoredHistory], [Snapshots], [Compress]: the history of edits as the database
      keeps it, with the hashes of common/history.c; its snapshots in memory,
      common/history_snapshot.c, with the deletion of histories and dt_image_flip of
      common/image.c; compression, truncation and copying. Uses [Undo], [Flip].
    - [Collection]: common/collection.c, the rules, filters and sort orders of the user
      as a query on the database, its update, and rules as text. Uses [Conf].
    - [Selection]: common/selection.c, the selected images, on a copy of the collection
      and [ImageStore].

    Texts and files:

    - [Utility]: the string and list helpers of common/utility.c that other parts
      call.
    - [Calculator]: common/calculator.c, scanner and parser of formulas on IEEE
      numbers.
    - [Conf]: control/conf.c, the configuration file and typed access to it. Uses
      [Calculator].
    - [Variables]: common/variables.c, the substitution of variables with its
      bash-style operations. Uses [Utility].
    - [Netpbm]: readers and writers of portable bitmap and float map files.

    Definitions have the names of the C functions and types they translate; a
    loop or a part of a long function has a name of its own next to it. Each file
    opens with a note on how its data correspond to the C data.

    ** How C is modelled

    Integers are [Z] (or [nat] for lengths) with [wrap_s32], [wrap_u64] and the
    like where the code can overflow; a union keeps the bits of the member stored
    last. NULL is [None] or the empty list. A pointer into a string is the offset
    or the rest of the string. Where clients keep pointers to shared objects
    (cache entries, images, jobs), the objects live in a map from addresses, so that a
    stale pointer is visible. What C leaves undefined (a write behind an array, a
    negative length, a freed object) is the value [Undefined] or [Bad], and the
    theorems show when it cannot occur. GList is a list with the order of its
    links. A function that runs under a mutex from beginning to end is one step;
    threads are interleavings of such steps. A function that waits for a lock gives
    [Restart] in a state where it cannot proceed ([blocking]). A table is a list of
    rows with its unique keys; the order in which SQLite returns rows without an
    ORDER BY is arbitrary ([RowOrder]); statements are functions on the table.

    ** What the theorems show

    - Order of modules: an order survives its text form, its binary form and the
      database ([text_round_trip], [binary_round_trip], [db_round_trip]); the
      built-in order is recognised exactly ([list_kind_spec]); after a
      resynchronisation the pipe is sorted as the list says
      ([resync_orders_pipe]); rules are checked exactly ([rule_check_exact]);
      duplicate orders are removed in one pass on the inputs described
      ([check_duplicate_one_pass]) but not on all ([check_duplicate_diverges]).
    - History: an invariant on modules and items that all operations keep
      ([history_well_typed]); going to a place of the history gives the modules the
      settings of the items below it ([pop_replays_history]); what an edit records
      ([edit_is_recorded]); what undo restores, and in which order
      ([undo_reverses_history]).
    - Pixel pipe: the nodes hold what the history says ([synch_all_follows_history],
      [synch_top_is_synch_all]); processing with the cache gives what the modules
      compute one after the other ([process_renders]), tile by tile or at once
      ([tiling_is_process]); every run leaves the cache sound
      ([process_leaves_idle]); the buffer of the mask hash is large enough
      ([hash_buffer_fits]).
    - Pixel cache: hits, misses and evictions ([cache_miss], [cache_miss_then_hit],
      [important_line_survives]); a change of one module's
      parameters always changes the hash ([basichash_separates_one_change]).
    - Concurrent cache: an invariant of all interleavings gives memory safety,
      exclusion of writers and the accounting of the cost
      ([concurrent_use_is_safe]); the behaviour of get, remove and the garbage
      collection on all branches; the protection of entries during a demotion
      ([demoting_entry_survives]) and its limit
      ([overlapping_demotions_lose_entry]). The whole system refines a lossy map
      with leases ([cache_refines_lossy_map]), so that the data under a held key
      stay ([leased_data_is_stable]).
    - Thumbnails: the best effort finds the best size there is
      ([best_effort_spec]); a thumbnail survives its eviction on the disk
      ([thumbnail_survives_eviction]).
    - Images: the record survives its row ([image_round_trip]); in all interleavings
      the cached images that nobody writes agree with their rows
      ([image_cache_coherent]), so that every reader sees what was written last
      ([reader_sees_last_write]); an image that does not exist locks its entry for
      good ([missing_image_locks_for_good]).
    - Groups and ratings: groups are always led by one of their images
      ([groups_stay_led]); leaving, joining and leading ([leaving_a_group],
      [joining_a_group], [changing_the_leader]); ratings and their undo
      ([ratings_undo_redo]).
    - Tags, metadata and labels: what each action does to the images, and that undo
      and redo restore it ([tags_undo_redo], [metadata_undo_redo],
      [labels_undo_redo], all by the interface's [attribute_undo_redo]); where a
      value is taken for a key ([numeral_value_undefined]); sort orders in the flags
      of a tag ([tag_order_round_trip]). Keyword files are read back as they
      were written ([keyword_file_round_trip]).
    - Orientation: a flip puts every pixel to its place ([flip_buffers_turn]); the
      module flip may be applied to a region instead of the whole image
      ([flip_region]); EXIF orientations come out upright ([exif_upright]).
    - Stored histories: deleting, pasting and turning are undone and redone
      ([deleting_undo_redo], [paste_undo_redo], [flip_turns]), but an undo is lost when
      the database is closed next ([undo_lost_on_close]); compression keeps the last
      edit of every module instance ([compress_list]).
    - Collections: no text of a rule gets out of its literal ([queries_closed],
      [literal_rules]); an update keeps the selection inside of the collection and finds
      the image to go on with ([update_query_spec]); rules are read back from their text
      ([rules_round_trip]); ranges of times lose their last day
      ([range_loses_last_day]).
    - Selection: what holds after any operations ([selection_stays_ok]); toggling with
      groups, ranges and inversion ([toggle_spec], [range_spec], [invert_twice]); a range
      without a first image takes one too many ([range_one_too_many]).
    - Undo: nothing is lost ([undo_redo_conserves]); a group, or the edits of half
      a second, are undone and redone as a whole and the redo restores the state
      ([group_undo_redo], [period_undo_redo]); nesting of groups and the lock are
      kept right over all reachable states ([reachable_group_inv]).
    - Jobs: an invariant of all interleavings gives ownership of every job,
      correct counters and the exclusion of exports ([job_system_safe]); the
      scheduler picks what it promises ([scheduler_picks_best]) and starves no
      job ([waiting_is_bounded]); the foreground queue is a bounded stack without
      duplicates ([system_fg_is_bounded_stack]).
    - Calculator: it ends on every text ([solve_total]) and computes the value of
      every formula ([solve_formula], against an independent syntax, printer and
      evaluator).
    - Configuration: a file that was written is read back
      ([conf_file_round_trip]); reading ends unless the file starts with an empty
      line ([conf_read_ends]).
    - Variables: expansion ends on every text and stays in its buffer
      ([expansion_ends]); each operation does what it documents
      ([operations_spec]); no name hides another ([every_name_reached]).
    - Files and texts: [pfm_round_trip], [ppm_read_shifted], [str_to_glist_join],
      [str_replace_correct].

    Some theorems state a defect of the code as it is: names of twenty bytes, a
    clear of the undo lists that ignores its filter, priorities that wrap,
    operations on too short values, and the others named above.

    ** Fuel

    Loops that are not structural take fuel: the length of the text (splitting,
    counting, replacing, expanding, the path of a tag), the number of list links
    (garbage collection, walking the undo lists, the duplicate check), the size of the
    parser state (calculator), the number of lines of a file (configuration), the
    depth of the groups of masks (hashes), the smaller number (greatest common
    divisor of tile alignments). No theorem assumes that the fuel suffices:
    [str_to_glist_join], [str_replace_correct], [undo_redo_conserves],
    [gc_frees_oldest_unused], [solve_total], [expansion_ends], [conf_read_ends],
    [hash_buffer_fits] and [tiling_is_process] prove that the result is reached.
    [check_duplicate_diverges] holds for every fuel.

    ** Parameters

    Code outside the repository is an argument: g_ascii_strtod, g_ascii_dtostr, fmodf
    and powf; the allocator of the caches and of tiles; the execution callback of a
    job; the undo callbacks; the functions of a module ([iop_api]) and loading it;
    MD5 digests; JPEG coding; ROUND of SQLite and its order of rows; what malloc leaves in memory;
    the size of a struct; the images to act on, which the views choose; what SQLite
    finds for the query of a collection, GRegex, strptime, strftime, gettext, and (not modelled
    yet) the names of cameras and the aspect ratio of raw images in [Collection]; database,
    image cache, file system and GLib text functions in the environment record of the
    variables. What a theorem needs of them is a named hypothesis
    ([strtod_forward], [good_literals], [reversible], [scan_Permutation], [regex_groups],
    [limit_rows]), and its
    witness gives a concrete function for which it holds.

    ** What is not modelled, and the plan

    GTK code, drawing, pixel processing in floating point, OpenCL, file formats
    through third-party libraries, Lua, and most statements on the database (films,
    styles, the migration of schemas). Within the files above: reading
    of a history with presets and merging, the blocking get of thumbnails, progress
    bars of jobs, colour pickers and histograms of the pipe, tiling of modules that
    change the region of interest. Next: the tiling of
    modules that change the region, films, and the operations on images of common/image.c. *)

From Stdlib Require Import Ascii String DecimalString DecimalZ DecimalN.
From stdpp Require Export base list strings gmap sorting.

(** ** C results

    [Done a] is a normal return of the C function; [Undefined] stands for an
    execution in which the C code has undefined behaviour (an access outside an
    object, a dereferenced NULL, an overflow of a library contract). *)

Inductive c_result (A : Type) : Type :=
  | Done (a : A)
  | Undefined.
Arguments Done {A} a.
Arguments Undefined {A}.

Definition c_bind {A B} (m : c_result A) (f : A -> c_result B) : c_result B :=
  match m with
  | Done a => f a
  | Undefined => Undefined
  end.

Declare Scope c_scope.
Delimit Scope c_scope with c.
Notation "'let*' x ':=' m 'in' k" := (c_bind m (fun x => k))
  (at level 10, x pattern, m at level 100, k at level 200) : c_scope.
Open Scope c_scope.

Lemma c_bind_Done {A B} (m : c_result A) (f : A -> c_result B) b :
  c_bind m f = Done b <-> exists a, m = Done a /\ f a = Done b.
Proof.
  destruct m; cbn; split; [eauto| |done|];
    intros (? & E & ?); by simplify_eq.
Qed.

(** ** Development-wide automation *)

Create HintDb dtlite.

(** Case analysis on every boolean test in sight, with the arithmetic tests
    turned into propositions. *)
Ltac split_ifs :=
  repeat match goal with
    | |- context [if ?b then _ else _] => destruct b eqn:?
    end.

Ltac bool_to_prop :=
  repeat match goal with
    | H : (_ =? _)%Z = true |- _ => apply Z.eqb_eq in H
    | H : (_ =? _)%Z = false |- _ => apply Z.eqb_neq in H
    | H : (_ <? _)%Z = true |- _ => apply Z.ltb_lt in H
    | H : (_ <? _)%Z = false |- _ => apply Z.ltb_ge in H
    | H : (_ <=? _)%Z = true |- _ => apply Z.leb_le in H
    | H : (_ <=? _)%Z = false |- _ => apply Z.leb_gt in H
    | H : (_ >? _)%Z = _ |- _ => rewrite Z.gtb_ltb in H
    | H : (_ >=? _)%Z = _ |- _ => rewrite Z.geb_leb in H
    | H : String.eqb _ _ = true |- _ => apply String.eqb_eq in H
    | H : String.eqb _ _ = false |- _ => apply String.eqb_neq in H
    | H : _ && _ = true |- _ => apply andb_prop in H; destruct H
    | H : negb _ = true |- _ => apply negb_true_iff in H
    | H : negb _ = false |- _ => apply negb_false_iff in H
    end.

(** ** Programs that share state, as transition systems

    The threads of a component act one step at a time on a common state. An
    action is one step of some thread; [m_allowed] is what the rest of the program
    keeps to when it calls the component, and [m_perform] is the component's
    code. *)

Class Machine (St Act : Type) := {
  m_allowed : St -> Act -> Prop;
  m_decide :: forall s act, Decision (m_allowed s act);
  m_perform : St -> Act -> c_result St;
}.

Section machine.
Context {St Act : Type} {M : Machine St Act}.

Definition m_step (s s' : St) : Prop :=
  exists act, m_allowed s act /\ m_perform s act = Done s'.

(** A sequence of actions, checked as it runs. *)
Fixpoint m_run (s : St) (acts : list Act) : c_result St :=
  match acts with
  | [] => Done s
  | act :: acts =>
      if decide (m_allowed s act) then let* s' := m_perform s act in m_run s' acts else Undefined
  end.

Definition m_run_or (s : St) (acts : list Act) : St :=
  match m_run s acts with Done s' => s' | Undefined => s end.

(** An inductive invariant: where it holds every allowed action is defined, and it
    holds again afterwards. *)
Class Invariant (Inv : St -> Prop) : Prop :=
  m_preserve s act : Inv s -> m_allowed s act -> exists s', m_perform s act = Done s' /\ Inv s'.

Lemma m_preserve_Done {Inv} `{!Invariant Inv} s act s' :
  Inv s -> m_allowed s act -> m_perform s act = Done s' -> Inv s'.
Proof. intros Hi Hal Hp. destruct (m_preserve s act Hi Hal) as (s'' & Hp' & ?). congruence. Qed.

Lemma m_reachable {Inv} `{!Invariant Inv} s s' : Inv s -> rtc m_step s s' -> Inv s'.
Proof.
  intros Hi Hr. induction Hr as [|s s1 s2 (act & Hal & Hp) _ IH]; [done|].
  by eapply IH, m_preserve_Done.
Qed.

Lemma m_run_reachable acts s s' : m_run s acts = Done s' -> rtc m_step s s'.
Proof.
  revert s. induction acts as [|act acts IH]; intros s H; cbn in H.
  { simplify_eq. constructor. }
  destruct (decide (m_allowed s act)); [|done]. apply c_bind_Done in H as (s1 & Hp & Hr).
  eapply rtc_l; [|by apply IH]. by exists act.
Qed.

End machine.

(** ** Machine integers *)

Section integers.
Local Open Scope Z_scope.

Definition INT_MAX : Z := 2147483647.

Definition wrap_u8 (z : Z) : Z := z mod 2 ^ 8.
Definition wrap_u32 (z : Z) : Z := z mod 2 ^ 32.
Definition wrap_u64 (z : Z) : Z := z mod 2 ^ 64.
Definition wrap_s8 (z : Z) : Z := (z + 2 ^ 7) mod 2 ^ 8 - 2 ^ 7.
Definition wrap_s32 (z : Z) : Z := (z + 2 ^ 31) mod 2 ^ 32 - 2 ^ 31.

Definition is_s32 (z : Z) : bool := (- 2 ^ 31 <=? z) && (z <? 2 ^ 31).

Lemma wrap_s32_id z : - 2 ^ 31 <= z < 2 ^ 31 -> wrap_s32 z = z.
Proof. intros ?. unfold wrap_s32. rewrite Z.mod_small; lia. Qed.

Lemma wrap_u32_id z : 0 <= z < 2 ^ 32 -> wrap_u32 z = z.
Proof. apply Z.mod_small. Qed.

Lemma wrap_u64_id z : 0 <= z < 2 ^ 64 -> wrap_u64 z = z.
Proof. apply Z.mod_small. Qed.

Lemma wrap_u64_range z : 0 <= wrap_u64 z < 2 ^ 64.
Proof. apply Z.mod_pos_bound. lia. Qed.

Lemma wrap_u32_testbit z n : 0 <= n -> Z.testbit (wrap_u32 z) n = (n <? 32) && Z.testbit z n.
Proof.
  intros Hn. unfold wrap_u32. destruct (Z.ltb_spec n 32); [by rewrite Z.mod_pow2_bits_low by lia|].
  by rewrite Z.mod_pow2_bits_high by lia.
Qed.

Lemma wrap_u32_s32 z : wrap_u32 (wrap_s32 z) = wrap_u32 z.
Proof.
  unfold wrap_u32, wrap_s32. rewrite Zminus_mod_idemp_l. f_equal. lia.
Qed.

Lemma wrap_u32_lor a b : wrap_u32 (Z.lor a b) = Z.lor (wrap_u32 a) (wrap_u32 b).
Proof.
  apply Z.bits_inj'. intros n Hn. rewrite Z.lor_spec, !wrap_u32_testbit, Z.lor_spec by done. by destruct (n <? 32).
Qed.

Lemma wrap_s32_mod z : wrap_s32 (z mod 2 ^ 32) = wrap_s32 z.
Proof. unfold wrap_s32. by rewrite Zplus_mod_idemp_l. Qed.

End integers.

(** ** Bytes in memory: a C [char] is an [ascii] *)

Section bytes.
Local Open Scope Z_scope.

Definition byte_of_Z (z : Z) : ascii := ascii_of_N (Z.to_N (z mod 256)).
Definition Z_of_byte (c : ascii) : Z := Z.of_N (N_of_ascii c).

(** The value of a [char] on the platforms the program supports: signed. *)
Definition Z_of_char (c : ascii) : Z := wrap_s8 (Z_of_byte c).

Lemma Z_of_byte_of_Z z : Z_of_byte (byte_of_Z z) = z mod 256.
Proof.
  unfold Z_of_byte, byte_of_Z.
  pose proof (Z.mod_pos_bound z 256 ltac:(lia)).
  rewrite N_ascii_embedding; lia.
Qed.

(** Little-endian store and load of an [n]-byte integer. *)
Fixpoint le_split (n : nat) (z : Z) : list ascii :=
  match n with
  | O => []
  | S n => byte_of_Z z :: le_split n (z / 256)
  end.

Fixpoint le_combine (bs : list ascii) : Z :=
  match bs with
  | [] => 0
  | b :: bs => Z_of_byte b + 256 * le_combine bs
  end.

Lemma length_le_split n z : length (le_split n z) = n.
Proof. revert z. induction n; intros; cbn; auto. Qed.

Lemma le_combine_split n z : le_combine (le_split n z) = z mod 256 ^ Z.of_nat n.
Proof.
  revert z. induction n as [|n IH]; intros z; cbn [le_split le_combine].
  { by rewrite Z.mod_1_r. }
  rewrite IH, Z_of_byte_of_Z, Nat2Z.inj_succ, Z.pow_succ_r by lia.
  rewrite Z.rem_mul_r by lia. done.
Qed.

(** The bytes of a C [int32_t] and back. *)
Definition store_s32 (z : Z) : list ascii := le_split 4 z.
Definition load_s32 (bs : list ascii) : Z := wrap_s32 (le_combine bs).

Lemma length_store_s32 z : length (store_s32 z) = 4%nat.
Proof. apply length_le_split. Qed.

Lemma load_store_s32 z : - 2 ^ 31 <= z < 2 ^ 31 -> load_s32 (store_s32 z) = z.
Proof.
  intros Hz. unfold load_s32, store_s32. rewrite le_combine_split.
  change (256 ^ Z.of_nat 4) with (2 ^ 32).
  by rewrite wrap_s32_mod, wrap_s32_id.
Qed.

End bytes.

(** ** C strings

    A NUL-terminated string is its content; [c_string] reads the content back
    from raw memory. *)

#[global] Arguments String.append : simpl nomatch.

Section strings.

Definition NUL : ascii := Ascii.zero.

Fixpoint c_string (bs : list ascii) : string :=
  match bs with
  | [] => ""
  | b :: bs => if Ascii.eqb b NUL then "" else String b (c_string bs)
  end.

Fixpoint str_take (n : nat) (s : string) : string :=
  match n, s with
  | S n, String c s => String c (str_take n s)
  | _, _ => ""
  end.

Fixpoint str_drop (n : nat) (s : string) : string :=
  match n, s with
  | S n, String _ s => str_drop n s
  | _, s => s
  end.

(** [g_strlcpy] into a buffer of [n] bytes keeps at most [n - 1] characters. *)
Definition g_strlcpy (n : nat) (s : string) : string := str_take (n - 1) s.

Fixpoint str_forall (P : ascii -> bool) (s : string) : bool :=
  match s with
  | "" => true
  | String c s => P c && str_forall P s
  end.

Definition not_char (c : ascii) (d : ascii) : bool := negb (Ascii.eqb d c).

(** First occurrence of [needle]: the text before it and the text from it on
    ([g_strstr_len], with an empty needle matching at once). *)
Fixpoint strstr (needle hay : string) : option (string * string) :=
  if String.prefix needle hay then Some ("", hay)
  else match hay with
       | "" => None
       | String c hay' => prod_map (String c) id <$> strstr needle hay'
       end.

Lemma str_length_app s t : String.length (s +:+ t) = String.length s + String.length t.
Proof. induction s as [|c s IH]; [done|]. simpl. by rewrite IH. Qed.

Lemma str_app_nil_r s : s +:+ "" = s.
Proof. induction s as [|c s IH]; [done|]. simpl. by rewrite IH. Qed.

Lemma str_app_assoc s t u : (s +:+ t) +:+ u = s +:+ (t +:+ u).
Proof. induction s as [|c s IH]; [done|]. simpl. by rewrite IH. Qed.

Lemma str_app_nil s t : s +:+ t = "" <-> s = "" /\ t = "".
Proof. destruct s; [tauto|]. by split; [|intros []]. Qed.

Lemma str_take_all n s : String.length s <= n -> str_take n s = s.
Proof.
  revert n. induction s as [|c s IH]; intros [|n] ?; cbn in *; try done; [lia|].
  f_equal. apply IH. lia.
Qed.

Lemma str_take_length n s : String.length (str_take n s) <= n.
Proof.
  revert s. induction n as [|n IH]; intros [|c s]; cbn; try lia.
  specialize (IH s). lia.
Qed.

Lemma str_drop_app n s t : n = String.length s -> str_drop n (s +:+ t) = t.
Proof. intros ->. induction s; [by destruct t|done]. Qed.

Lemma str_drop_length n s : String.length (str_drop n s) = String.length s - n.
Proof. revert s. induction n; intros [|??]; cbn; auto. Qed.

Lemma str_prefix_drop p s :
  String.prefix p s = true -> s = p +:+ str_drop (String.length p) s.
Proof.
  revert s. induction p as [|c p IH]; intros [|d s]; cbn; try done.
  destruct (ascii_dec c d) as [->|]; [|done]. intros ?%IH.
  by f_equal.
Qed.

Lemma str_prefix_app p s : String.prefix p (p +:+ s) = true.
Proof.
  induction p as [|c p IH]; [by destruct s|].
  cbn. by destruct (ascii_dec c c).
Qed.

Lemma str_forall_app P s t : str_forall P (s +:+ t) = str_forall P s && str_forall P t.
Proof.
  induction s as [|c s IH]; [done|].
  cbn. by rewrite IH, andb_assoc.
Qed.

Lemma c_string_list s :
  str_forall (not_char NUL) s = true -> c_string (String.list_ascii_of_string s) = s.
Proof.
  induction s as [|c s IH]; cbn; [done|]. unfold not_char.
  intros [Hc Hs]%andb_prop. apply negb_true_iff in Hc. by rewrite Hc, IH.
Qed.

Lemma list_ascii_app s t :
  String.list_ascii_of_string (s +:+ t) = String.list_ascii_of_string s ++ String.list_ascii_of_string t.
Proof. induction s as [|c s IH]; [done|]. simpl. by rewrite IH. Qed.

Lemma length_list_ascii s : length (String.list_ascii_of_string s) = String.length s.
Proof. induction s; cbn; auto. Qed.

Lemma strstr_Some needle hay b m :
  strstr needle hay = Some (b, m) ->
  hay = b +:+ m /\ String.prefix needle m = true.
Proof.
  revert b m. induction hay as [|c hay IH]; intros b m;
    cbn [strstr]; destruct (String.prefix needle _) eqn:E; intros H.
  1,3: by simplify_eq.
  1: done.
  destruct (strstr needle hay) as [[b' m']|] eqn:E'; [|done].
  cbn in H. simplify_eq. destruct (IH b' m eq_refl) as [-> ?]. done.
Qed.

(** Single-character separators: the text before the separator is skipped. *)
Lemma strstr_char c s t :
  str_forall (not_char c) s = true ->
  strstr (String c "") (s +:+ String c t) = Some (s, String c t).
Proof.
  induction s as [|d s IH].
  - intros _. cbn. destruct (ascii_dec c c); [|done]. by destruct t.
  - cbn. intros [Hd Hs]%andb_prop. apply negb_true_iff, Ascii.eqb_neq in Hd.
    destruct (ascii_dec c d); [congruence|]. rewrite IH by done. cbn. done.
Qed.

Lemma strstr_char_None c s :
  str_forall (not_char c) s = true -> strstr (String c "") s = None.
Proof.
  induction s as [|d s IH]; cbn; [done|].
  intros [Hd Hs]%andb_prop. apply negb_true_iff, Ascii.eqb_neq in Hd.
  destruct (ascii_dec c d); [congruence|]. rewrite IH by done. cbn. done.
Qed.

End strings.
#[export] Hint Rewrite str_length_app str_app_nil_r str_app_assoc : dtlite.

(** ** Formatted integers: [printf("%d")] and [sscanf("%d")] *)

Section decimal.
Local Open Scope Z_scope.

Definition c_show_int (z : Z) : string := NilZero.string_of_int (Z.to_int z).

Definition is_digit (c : ascii) : bool :=
  (48 <=? Z_of_byte c) && (Z_of_byte c <=? 57).
Definition is_space (c : ascii) : bool :=
  (Z_of_byte c =? 32) || ((9 <=? Z_of_byte c) && (Z_of_byte c <=? 13)).

Fixpoint skip_spaces (s : string) : string :=
  match s with
  | String c s' => if is_space c then skip_spaces s' else s
  | "" => ""
  end.

Fixpoint digit_prefix (s : string) : string :=
  match s with
  | String c s' => if is_digit c then String c (digit_prefix s') else ""
  | "" => ""
  end.

(** The digits at the head of [s] as a number, [None] if there are none. *)
Definition scan_digits (s : string) : option Z :=
  match digit_prefix s with
  | "" => None
  | ds => (fun u => Z.of_N (N.of_uint u)) <$> NilEmpty.uint_of_string ds
  end.

(** [sscanf(s, "%d", &v)]: white space, an optional sign, digits. [Done None]
    is a matching failure, which leaves [v] alone; a number that does not fit
    an [int] is undefined behaviour. *)
Definition sscanf_int (s : string) : c_result (option Z) :=
  let s := skip_spaces s in
  let v :=
    match s with
    | String "-" s' => Z.opp <$> scan_digits s'
    | String "+" s' => scan_digits s'
    | _ => scan_digits s
    end in
  match v with
  | Some z => if is_s32 z then Done (Some z) else Undefined
  | None => Done None
  end.

(** The digits at the head of [s], and what is behind them. *)
Definition scan_number (s : string) : option (Z * string) :=
  match scan_digits s with
  | Some z => Some (z, str_drop (String.length (digit_prefix s)) s)
  | None => None
  end.

(** [%d] and what is behind it; a number that does not fit is undefined. *)
Definition scan_int (s : string) : c_result (option (Z * string)) :=
  let s := skip_spaces s in
  let r :=
    match s with
    | String "-" s => '(z, rest) ← scan_number s; Some (- z, rest)
    | String "+" s => scan_number s
    | _ => scan_number s
    end in
  match r with
  | Some (z, rest) => if is_s32 z then Done (Some (z, rest)) else Undefined
  | None => Done None
  end.

Lemma digit_prefix_uint u :
  digit_prefix (NilEmpty.string_of_uint u) = NilEmpty.string_of_uint u.
Proof. by induction u as [|u IH|u IH|u IH|u IH|u IH|u IH|u IH|u IH|u IH|u IH]; [done|cbn -[digit_prefix]; cbn [digit_prefix]; rewrite IH..]. Qed.

Lemma skip_spaces_length s : (String.length (skip_spaces s) <= String.length s)%nat.
Proof. induction s as [|c s IH]; [done|]. cbn [skip_spaces]. destruct (is_space c); cbn; lia. Qed.

Lemma scan_digits_uint u :
  u <> Decimal.Nil ->
  scan_digits (NilEmpty.string_of_uint u) = Some (Z.of_N (N.of_uint u)).
Proof.
  intros Hu. unfold scan_digits. rewrite digit_prefix_uint.
  destruct (NilEmpty.string_of_uint u) eqn:E.
  - by destruct u.
  - by rewrite <- E, NilEmpty.usu.
Qed.

Lemma show_nonneg z :
  0 <= z -> exists u, u <> Decimal.Nil /\ c_show_int z = NilEmpty.string_of_uint u
                  /\ Z.of_N (N.of_uint u) = z.
Proof.
  intros Hz. exists (N.to_uint (Z.to_N z)).
  rewrite DecimalN.Unsigned.of_to, Z2N.id by done. unfold c_show_int.
  destruct z as [|p|p]; [done| |done]. cbn.
  pose proof (DecimalPos.Unsigned.to_uint_nonnil p).
  repeat split; [done|]. unfold NilZero.string_of_uint. by destruct (Pos.to_uint p).
Qed.

Lemma scan_first_digit u :
  u <> Decimal.Nil ->
  exists c s, NilEmpty.string_of_uint u = String c s /\ is_digit c = true.
Proof. destruct u; [done|..]; intros _; cbn; eauto. Qed.

Lemma digit_prefix_app u s :
  digit_prefix s = "" -> digit_prefix (NilEmpty.string_of_uint u +:+ s) = NilEmpty.string_of_uint u.
Proof.
  intros Hs. induction u; cbn [NilEmpty.string_of_uint]; [done|..];
    change (String ?c ?x +:+ s) with (String c (x +:+ s)); cbn [digit_prefix];
    change (is_digit _) with true; cbv iota; by f_equal.
Qed.

Lemma scan_number_show z s :
  0 <= z -> digit_prefix s = "" -> scan_number (c_show_int z +:+ s) = Some (z, s).
Proof.
  intros Hz Hs. destruct (show_nonneg z Hz) as (u & Hu & -> & Hv).
  unfold scan_number, scan_digits. rewrite digit_prefix_app by done.
  pose proof (scan_digits_uint u Hu) as Hd. unfold scan_digits in Hd. rewrite digit_prefix_uint in Hd.
  destruct (NilEmpty.string_of_uint u) as [|c t] eqn:E; [done|]. rewrite Hd, Hv.
  by rewrite str_drop_app.
Qed.

Lemma show_starts_digit z s :
  0 <= z -> exists c t, c_show_int z +:+ s = String c t /\ is_digit c = true.
Proof.
  intros Hz. destruct (show_nonneg z Hz) as (u & Hu & -> & _).
  destruct (scan_first_digit u Hu) as (c & t & -> & Hc). by exists c, (t +:+ s).
Qed.

Lemma digit_not_special c :
  is_digit c = true -> is_space c = false /\ c <> "-"%char /\ c <> "+"%char.
Proof. intros H. repeat split; [|by intros ->..]. unfold is_digit, is_space in *. bool_to_prop. lia. Qed.

Lemma scan_int_show z s :
  0 <= z < 2 ^ 31 -> digit_prefix s = "" -> scan_int (c_show_int z +:+ s) = Done (Some (z, s)).
Proof.
  intros Hz Hs. pose proof (scan_number_show z s ltac:(lia) Hs) as Hn.
  destruct (show_starts_digit z s ltac:(lia)) as (c & t & E & Hc). rewrite E in *.
  destruct (digit_not_special c Hc) as (Hsp & Hm & Hp). unfold scan_int. cbn [skip_spaces]. rewrite Hsp.
  assert (match String c t with
          | String "-" s => '(z, rest) ← scan_number s; Some (- z, rest)
          | String "+" s => scan_number s
          | _ => scan_number (String c t)
          end = scan_number (String c t)) as ->.
  { destruct c as [[] [] [] [] [] [] [] []]; done. }
  rewrite Hn. unfold is_s32. destruct (Z.leb_spec (- 2 ^ 31) z), (Z.ltb_spec z (2 ^ 31)); try lia. done.
Qed.

Lemma skip_spaces_show z s : 0 <= z -> skip_spaces (c_show_int z +:+ s) = c_show_int z +:+ s.
Proof.
  intros Hz. destruct (show_starts_digit z s Hz) as (c & t & -> & Hc). cbn [skip_spaces].
  by destruct (digit_not_special c Hc) as (-> & _).
Qed.

Lemma sscanf_show_app z s : 0 <= z < 2 ^ 31 -> digit_prefix s = "" -> sscanf_int (c_show_int z +:+ s) = Done (Some z).
Proof.
  intros Hz Hs. unfold sscanf_int. rewrite skip_spaces_show by lia. pose proof (scan_number_show z s ltac:(lia) Hs) as Hn.
  destruct (show_starts_digit z s ltac:(lia)) as (c & t & E & Hc). rewrite E in *.
  assert (scan_digits (String c t) = Some z) as Hd by (unfold scan_number in Hn; destruct (scan_digits (String c t)); congruence).
  assert (match String c t with
          | String "-" s => Z.opp <$> scan_digits s
          | String "+" s => scan_digits s
          | _ => scan_digits (String c t)
          end = scan_digits (String c t)) as ->.
  { destruct (digit_not_special c Hc) as (_ & Hm & Hp). destruct c as [[] [] [] [] [] [] [] []]; done. }
  rewrite Hd. assert (is_s32 z = true) as -> by (unfold is_s32; lia). done.
Qed.

Lemma sscanf_show_int z :
  0 <= z < 2 ^ 31 -> sscanf_int (c_show_int z) = Done (Some z).
Proof.
  intros Hz. destruct (show_nonneg z) as (u & Hu & -> & Hv); [lia|].
  pose proof (scan_digits_uint u Hu) as Hs.
  unfold sscanf_int.
  assert (skip_spaces (NilEmpty.string_of_uint u) = NilEmpty.string_of_uint u) as ->
    by (destruct u; done).
  assert (is_s32 z = true) as Hz' by (unfold is_s32; lia).
  rewrite Hv in Hs.
  destruct u; [done|..]; cbn [NilEmpty.string_of_uint] in *; rewrite Hs; by rewrite Hz'.
Qed.

Lemma show_nonneg_no_comma z :
  0 <= z -> str_forall (not_char ",") (c_show_int z) = true.
Proof.
  intros Hz. destruct (show_nonneg z Hz) as (u & _ & -> & _).
  induction u; cbn [NilEmpty.string_of_uint str_forall]; auto.
Qed.

Lemma of_uint_acc_bound u acc :
  (Z.pos acc * 10 ^ Z.of_nat (String.length (NilEmpty.string_of_uint u))
   <= Z.pos (Pos.of_uint_acc u acc))%Z.
Proof.
  revert acc. induction u; intros acc; cbn [NilEmpty.string_of_uint String.length Pos.of_uint_acc];
    [lia|..]; rewrite Nat2Z.inj_succ, Z.pow_succ_r by lia;
    (etrans; [|apply IHu]); nia.
Qed.

Lemma unorm_to_uint n : Decimal.unorm (N.to_uint n) = N.to_uint n.
Proof. by rewrite <- DecimalN.Unsigned.to_of, DecimalN.Unsigned.of_to. Qed.

(** A number without leading zeros is at least 10 to the number of its other
    digits. *)
Lemma show_length z k :
  0 <= z < 10 ^ Z.of_nat (S k) -> (String.length (c_show_int z) <= S k)%nat.
Proof.
  intros Hz. destruct z as [|p|p]; [cbn; lia| |lia].
  unfold c_show_int, Z.to_int. cbn [NilZero.string_of_int].
  pose proof (unorm_to_uint (N.pos p)) as Hu.
  pose proof (DecimalN.Unsigned.of_to (N.pos p)) as Hv. cbn [N.to_uint] in *.
  assert (forall u', (Z.pos p >= 10 ^ Z.of_nat (String.length (NilEmpty.string_of_uint u')))%Z ->
    (S (String.length (NilEmpty.string_of_uint u')) <= S k)%nat) as Hlen.
  { intros u' Hge. assert (~ (k < String.length (NilEmpty.string_of_uint u'))%nat); [|lia].
    intros Hlt. pose proof (Z.pow_le_mono_r 10 (Z.of_nat (S k))
      (Z.of_nat (String.length (NilEmpty.string_of_uint u')))). lia. }
  destruct (Pos.to_uint p) as [|u|u|u|u|u|u|u|u|u|u] eqn:E;
    cbn [NilZero.string_of_uint NilEmpty.string_of_uint String.length]; [lia| |apply Hlen..].
  2-10: cbn in Hv; simplify_eq.
  2-10: match goal with |- context [Pos.of_uint_acc ?u ?a] => pose proof (of_uint_acc_bound u a) end; lia.
  exfalso. revert Hu. unfold Decimal.unorm. cbn [Decimal.nzhead].
  destruct (Decimal.nzhead u) eqn:En; try done.
  - intros [= <-]. cbn in Hv. done.
  - intros _. by apply DecimalFacts.nzhead_nonzero in En.
Qed.

Lemma show_nonneg_nonempty z : 0 <= z -> c_show_int z <> "".
Proof.
  intros Hz. destruct (show_nonneg z Hz) as (u & Hu & -> & _). by destruct u.
Qed.

End decimal.

(** ** GLib lists

    A [GList] is a Rocq list, [NULL] the empty one. [g_list_sort] is documented
    as a stable sort by a [GCompareFunc], which fixes its result
    ([g_list_sort_unique]). *)

Section sort.
Local Open Scope Z_scope.
Context {A : Type} (cmp : A -> A -> Z).

Fixpoint sort_insert (x : A) (l : list A) : list A :=
  match l with
  | [] => [x]
  | y :: l' => if cmp x y <=? 0 then x :: l else y :: sort_insert x l'
  end.

Definition g_list_sort (l : list A) : list A := foldr sort_insert [] l.

(** Neighbours are in order when one of them never compares greater both ways. *)
Lemma g_list_sort_adjacent l :
  (forall a b, 0 < cmp a b -> cmp b a <= 0) -> Sorted (fun a b => cmp a b <= 0) (g_list_sort l).
Proof.
  intros Htot. induction l as [|x l IH]; cbn; [constructor|]. change (foldr sort_insert [] l) with (g_list_sort l).
  induction IH as [|y l' Hl IH Hy]; cbn; [repeat constructor|]. destruct (Z.leb_spec (cmp x y) 0) as [Hxy|Hxy].
  - constructor; [by constructor|]. by constructor.
  - apply Htot in Hxy. constructor; [exact IH|]. destruct l' as [|z l']; cbn; [by constructor|].
    destruct (cmp x z <=? 0); constructor; [done|]. by inversion Hy.
Qed.

(** The comparison functions of the program decide a total preorder. *)
Context (R : A -> A -> Prop) `{!RelDecision R, !Transitive R, !Total R}.
Context (cmp_R : forall a b, cmp a b <= 0 <-> R a b).

(** Elements the comparison does not tell apart. *)
Definition same_rank (a b : A) : Prop := R a b /\ R b a.

#[global] Instance same_rank_dec a b : Decision (same_rank a b).
Proof using RelDecision0. unfold same_rank. apply _. Defined.

Lemma sort_insert_Permutation x l : sort_insert x l ≡ₚ x :: l.
Proof using Type.
  induction l as [|y l IH]; cbn; [done|]. destruct (cmp x y <=? 0); [done|].
  rewrite IH. constructor.
Qed.

Lemma g_list_sort_Permutation l : g_list_sort l ≡ₚ l.
Proof using Type.
  induction l as [|x l IH]; cbn; [done|]. by rewrite sort_insert_Permutation, IH.
Qed.

Lemma cmp_gt x y : cmp x y <=? 0 = false -> ~ R x y /\ R y x.
Proof using cmp_R Total0.
  intros E. bool_to_prop. assert (~ R x y) by (rewrite <- cmp_R; lia).
  by destruct (total R x y).
Qed.

Lemma sort_insert_Sorted x l :
  StronglySorted R l -> StronglySorted R (sort_insert x l).
Proof using cmp_R Transitive0 Total0.
  induction 1 as [|y l Hl IH Hy]; cbn; [repeat constructor|].
  destruct (cmp x y <=? 0) eqn:E.
  - bool_to_prop. apply cmp_R in E. constructor; [by constructor|].
    constructor; [done|]. eapply Forall_impl; [done|]. intros z. by transitivity y.
  - apply cmp_gt in E as [_ ?].
    constructor; [done|]. rewrite sort_insert_Permutation. by constructor.
Qed.

Lemma g_list_sort_Sorted l : StronglySorted R (g_list_sort l).
Proof using cmp_R Transitive0 Total0.
  induction l; cbn; [constructor|]. by apply sort_insert_Sorted.
Qed.

Lemma sort_insert_stable k x l :
  filter (same_rank k) (sort_insert x l) = filter (same_rank k) (x :: l).
Proof using cmp_R Transitive0 Total0.
  induction l as [|y l IH]; [done|]. cbn [sort_insert].
  destruct (cmp x y <=? 0) eqn:E; [done|]. apply cmp_gt in E as [Hn _].
  rewrite !filter_cons, IH, !filter_cons. unfold same_rank.
  repeat case_decide; try done. exfalso. apply Hn. transitivity k; tauto.
Qed.

Lemma g_list_sort_stable k l :
  filter (same_rank k) (g_list_sort l) = filter (same_rank k) l.
Proof using cmp_R Transitive0 Total0.
  induction l as [|x l IH]; [done|]. cbn [g_list_sort foldr].
  change (foldr sort_insert [] l) with (g_list_sort l).
  rewrite sort_insert_stable, !filter_cons. by rewrite IH.
Qed.

Lemma g_list_sort_id l : StronglySorted R l -> g_list_sort l = l.
Proof using cmp_R Total0.
  induction 1 as [|x l Hl IH Hx]; [done|]. cbn.
  change (foldr sort_insert [] l) with (g_list_sort l). rewrite IH.
  destruct l as [|y l]; [done|]. cbn. inversion Hx; subst.
  destruct (cmp x y <=? 0) eqn:E; [done|]. by apply cmp_gt in E as [??].
Qed.

Lemma same_rank_refl a : same_rank a a.
Proof using Total0. by destruct (total R a a). Qed.

Lemma sorted_same_ranks_eq l l' :
  StronglySorted R l -> StronglySorted R l' ->
  (forall k, filter (same_rank k) l = filter (same_rank k) l') -> l = l'.
Proof using Type*.
  pose proof same_rank_refl as Hrefl.
  intros Hl. revert l'. induction Hl as [|x l Hl IH Hx]; intros l' Hl' Hf.
  - destruct l' as [|y l']; [done|]. specialize (Hf y).
    rewrite filter_cons_True in Hf by auto. done.
  - destruct Hl' as [|y l' Hl' Hy].
    { specialize (Hf x). rewrite filter_cons_True in Hf by auto. done. }
    assert (same_rank x y) as Hxy.
    { assert (y ∈ x :: l) as Hin1.
      { assert (y ∈ filter (same_rank y) (x :: l)) as Hin
          by (rewrite Hf, filter_cons_True by auto; left).
        by apply list_elem_of_filter in Hin as [_ ?]. }
      assert (x ∈ y :: l') as Hin2.
      { assert (x ∈ filter (same_rank x) (y :: l')) as Hin
          by (rewrite <- Hf, filter_cons_True by auto; left).
        by apply list_elem_of_filter in Hin as [_ ?]. }
      rewrite Forall_forall in Hx, Hy.
      apply elem_of_cons in Hin1 as [->|?%Hx]; [done|].
      apply elem_of_cons in Hin2 as [->|?%Hy]; [done|]. done. }
    pose proof (Hf x) as Hfx.
    rewrite !filter_cons_True in Hfx by auto. simplify_eq.
    f_equal. apply IH; [done|]. intros k. specialize (Hf k).
    rewrite !filter_cons in Hf. case_decide; by simplify_eq.
Qed.

(** Any sorted list that keeps the order of undistinguished elements is the result. *)
Lemma g_list_sort_unique l l' :
  StronglySorted R l' ->
  (forall k, filter (same_rank k) l' = filter (same_rank k) l) ->
  g_list_sort l = l'.
Proof using Type*.
  intros Hs Hf. apply sorted_same_ranks_eq; [apply g_list_sort_Sorted|done|].
  intros k. by rewrite g_list_sort_stable, Hf.
Qed.

End sort.

(** Ordering by an integer key, the shape of every comparison of the modules. *)
Definition key_le {A} (key : A -> Z) (a b : A) : Prop := (key a <= key b)%Z.

#[export] Instance key_le_dec {A} (key : A -> Z) : RelDecision (key_le key).
Proof. intros ??. unfold key_le. apply _. Defined.
#[export] Instance key_le_trans {A} (key : A -> Z) : Transitive (key_le key).
Proof. unfold key_le. intros ???. lia. Qed.
#[export] Instance key_le_total {A} (key : A -> Z) : Total (key_le key).
Proof. unfold key_le. intros ??. lia. Qed.

(** Two comparisons that agree on the elements sort alike. *)
Lemma sort_insert_ext {A} (cmp cmp' : A -> A -> Z) x l :
  (forall y, y ∈ l -> cmp x y = cmp' x y) -> sort_insert cmp x l = sort_insert cmp' x l.
Proof.
  induction l as [|y l IH]; intros H; [done|]. cbn.
  rewrite (H y (list_elem_of_here _ _)), IH; [done|]. intros z Hz. apply H. by right.
Qed.

Lemma g_list_sort_ext {A} (cmp cmp' : A -> A -> Z) l :
  (forall x y, x ∈ l -> y ∈ l -> cmp x y = cmp' x y) -> g_list_sort cmp l = g_list_sort cmp' l.
Proof.
  induction l as [|x l IH]; intros H; [done|]. cbn.
  change (foldr (sort_insert cmp) [] l) with (g_list_sort cmp l).
  rewrite IH by (intros; apply H; by right). apply sort_insert_ext.
  intros y Hy. apply H; [left|]. change (y ∈ g_list_sort cmp' l) in Hy.
  rewrite g_list_sort_Permutation in Hy. by right.
Qed.

(** ** Filters *)

Section filters.
Context {A : Type} (P : A -> Prop) `{!forall x, Decision (P x)}.

Lemma filter_elem_ext (Q : A -> Prop) `{!forall x, Decision (Q x)} (l : list A) :
  (forall x, x ∈ l -> P x <-> Q x) -> filter P l = filter Q l.
Proof.
  induction l as [|x l IH]; intros HP; [done|]. rewrite !filter_cons, IH.
  - destruct (decide (P x)), (decide (Q x)); try done; exfalso;
      specialize (HP x ltac:(by left)); tauto.
  - intros y Hy. apply HP. by right.
Qed.

Lemma filter_all (l : list A) : (forall x, x ∈ l -> P x) -> filter P l = l.
Proof.
  induction l as [|x l IH]; intros HP; [done|].
  rewrite filter_cons_True by (apply HP; by left). f_equal. apply IH. intros y Hy. apply HP. by right.
Qed.

Lemma filter_length_mono (Q : A -> Prop) `{!forall x, Decision (Q x)} (l : list A) :
  (forall x, x ∈ l -> P x -> Q x) -> length (filter P l) <= length (filter Q l).
Proof.
  induction l as [|x l IH]; intros HP; [done|]. rewrite !filter_cons.
  assert (length (filter P l) <= length (filter Q l)) by (apply IH; intros; apply HP; [by right|done]).
  specialize (HP x ltac:(by left)). destruct (decide (P x)), (decide (Q x)); cbn; tauto || lia.
Qed.

End filters.
