(* ===== verification/Floats.v ===== *)
(** Exact results of the standard library's specification floats: what the C code
    computes on small integers and halves is not rounded.

    A mantissa shifted left by [k] bits is [shl u k]. [normalize_exact] is the one
    fact about rounding that the components use: a number whose odd part fits the
    precision is represented exactly, whatever mantissa and exponent it is given
    with. [ceil_quotient] is the one about division: the quotient of two small
    integers, rounded to a float and then up to an integer, is the exact quotient
    rounded up. *)

From Stdlib Require Import SpecFloat.
From S2P Require Import Prelude.
Local Open Scope Z_scope.

Definition shl (u : positive) (k : nat) : positive := Nat.iter k xO u.
Definition digits (u : positive) : Z := Zpos (digits2_pos u).

Lemma shl_succ u k : shl u (S k) = xO (shl u k).
Proof. reflexivity. Qed.

Lemma digits_shl u k : digits (shl u k) = digits u + Z.of_nat k.
Proof.
  unfold digits. induction k as [|k IH]; [cbn; lia|]. rewrite shl_succ. cbn [digits2_pos].
  rewrite Pos2Z.inj_succ, IH. lia.
Qed.

Lemma shl_shl u j k : shl (shl u j) k = shl u (k + j).
Proof. induction k as [|k IH]; [done|]. cbn. f_equal. exact IH. Qed.

Lemma shl_value u k : Zpos (shl u k) = Zpos u * 2 ^ Z.of_nat k.
Proof.
  induction k as [|k IH]; [cbn; lia|].
  rewrite shl_succ, Pos2Z.inj_xO, IH, Nat2Z.inj_succ, Z.pow_succ_r by lia. lia.
Qed.

Lemma digits_bounds u : 2 ^ (digits u - 1) <= Zpos u < 2 ^ digits u.
Proof.
  unfold digits. induction u as [u IH|u IH|]; cbn [digits2_pos]; [| |cbn; lia].
  all: rewrite Pos2Z.inj_succ.
  all: replace (Z.succ (Zpos (digits2_pos u)) - 1) with (Z.succ (Zpos (digits2_pos u) - 1)) by lia.
  all: rewrite (Z.pow_succ_r 2 (Zpos (digits2_pos u) - 1)), (Z.pow_succ_r 2 (Zpos (digits2_pos u))) by lia.
  all: revert IH; generalize (2 ^ (Zpos (digits2_pos u) - 1)), (2 ^ Zpos (digits2_pos u)); lia.
Qed.

Lemma digits_le u n : Zpos u < 2 ^ n -> 0 <= n -> digits u <= n.
Proof.
  intros Hu Hn. pose proof (digits_bounds u) as [Hlo _].
  assert (digits u - 1 < n) as ?; [|lia]. apply (Z.pow_lt_mono_r_iff 2); lia.
Qed.

Lemma digits_xI u : digits (xI u) = digits u + 1.
Proof. unfold digits. cbn [digits2_pos]. lia. Qed.

Lemma iter_pos_nat {A} (f : A -> A) n x : SpecFloat.iter_pos f n x = Nat.iter (Pos.to_nat n) f x.
Proof.
  revert x. induction n as [n IH|n IH|]; intros x; cbn [SpecFloat.iter_pos]; [| |done].
  - rewrite !IH, <- Nat.iter_add, Pos2Nat.inj_xI, Nat.iter_succ_r. f_equal. lia.
  - rewrite !IH, <- Nat.iter_add, Pos2Nat.inj_xO. f_equal. lia.
Qed.

Lemma shl_iter u d : Pos.iter xO u d = shl u (Pos.to_nat d).
Proof. unfold shl. apply Pos2Nat.inj_iter. Qed.

Lemma shl_align_shift u e k : shl_align u e (e - Z.of_nat k) = (shl u k, e - Z.of_nat k).
Proof.
  unfold shl_align. replace (e - Z.of_nat k - e) with (- Z.of_nat k) by lia.
  destruct k as [|k]; [cbn; f_equal; lia|].
  change (- Z.of_nat (S k)) with (Zneg (Pos.of_succ_nat k)). cbv iota.
  change (PosDef.Pos.iter xO u ?d) with (Pos.iter xO u d).
  by rewrite shl_iter, SuccNat2Pos.id_succ.
Qed.

Lemma shr_exact u k :
  Nat.iter k shr_1 {| shr_m := Zpos (shl u k); shr_r := false; shr_s := false |} =
  {| shr_m := Zpos u; shr_r := false; shr_s := false |}.
Proof. induction k as [|k IH]; [done|]. rewrite Nat.iter_succ_r. exact IH. Qed.

Section exact.
Context (prec emax : Z) (Hprec : 0 < prec).

(** The exponent in which [u * 2^e] is represented. *)
Abbreviation target u e := (digits u + e - prec).

Lemma fexp_normal n : emin prec emax <= n - prec -> fexp prec emax n = n - prec.
Proof. unfold fexp. lia. Qed.

(** Low zero bits are shifted out without loss. *)
Lemma shr_fexp_exact u j k e :
  digits u + Z.of_nat j = prec -> emin prec emax <= target u (e + Z.of_nat (k + j)) ->
  shr_fexp prec emax (Zpos (shl u (k + j))) e loc_Exact =
    ({| shr_m := Zpos (shl u j); shr_r := false; shr_s := false |}, e + Z.of_nat k).
Proof.
  intros Hj He. unfold shr_fexp. cbn [Zdigits2 shr_record_of_loc]. fold (digits (shl u (k + j))).
  rewrite digits_shl, fexp_normal by lia.
  replace (digits u + Z.of_nat (k + j) + e - prec - e) with (Z.of_nat k) by lia.
  unfold shr. destruct k as [|k]; [cbn; f_equal; lia|].
  change (Z.of_nat (S k)) with (Zpos (Pos.of_succ_nat k)). cbv iota.
  rewrite iter_pos_nat, SuccNat2Pos.id_succ, <- shl_shl. f_equal. apply shr_exact.
Qed.

Lemma round_aux_exact s u k e :
  digits u <= prec -> prec <= digits u + Z.of_nat k ->
  emin prec emax <= target u (e + Z.of_nat k) <= emax - prec ->
  binary_round_aux prec emax s (Zpos (shl u k)) e loc_Exact =
    S754_finite s (shl u (Z.to_nat (prec - digits u))) (target u (e + Z.of_nat k)).
Proof.
  intros Hd Hk He. set (j := Z.to_nat (prec - digits u)).
  replace k with (k - j + j)%nat at 1 by lia. unfold binary_round_aux.
  rewrite (shr_fexp_exact u j (k - j)%nat e) by lia. cbn [loc_of_shr_record round_nearest_even shr_m].
  rewrite (shr_fexp_exact u j 0%nat) by lia. cbn [shr_m].
  destruct (Z.leb_spec (e + Z.of_nat (k - j) + Z.of_nat 0) (emax - prec)); [|lia]. f_equal. lia.
Qed.

Lemma round_exact s u k e :
  digits u <= prec -> emin prec emax <= target u (e + Z.of_nat k) <= emax - prec ->
  binary_round prec emax s (shl u k) e =
    S754_finite s (shl u (Z.to_nat (prec - digits u))) (target u (e + Z.of_nat k)).
Proof.
  intros Hd He. unfold binary_round. fold (digits (shl u k)). rewrite digits_shl, fexp_normal by lia.
  destruct (Z.le_gt_cases prec (digits u + Z.of_nat k)) as [Hk|Hk].
  - unfold shl_align. replace (digits u + Z.of_nat k + e - prec - e) with (digits u + Z.of_nat k - prec) by lia.
    destruct (digits u + Z.of_nat k - prec) eqn:E; [| |lia]; by rewrite round_aux_exact by lia.
  - set (i := Z.to_nat (prec - (digits u + Z.of_nat k))).
    replace (digits u + Z.of_nat k + e - prec) with (e - Z.of_nat i) by lia.
    rewrite shl_align_shift, shl_shl, round_aux_exact by lia. f_equal. lia.
Qed.

Lemma normalize_exact (s : bool) u k e z :
  digits u <= prec -> emin prec emax <= target u (e + Z.of_nat k) <= emax - prec ->
  binary_normalize prec emax (if s then Zneg (shl u k) else Zpos (shl u k)) e z =
    S754_finite s (shl u (Z.to_nat (prec - digits u))) (target u (e + Z.of_nat k)).
Proof. intros. destruct s; by apply round_exact. Qed.

End exact.

(** ** Integers as floats *)

(** The integer [u], or [-u], in a format of [prec] digits. *)
Definition float_of (prec : Z) (s : bool) (u : positive) : spec_float :=
  S754_finite s (shl u (Z.to_nat (prec - digits u))) (digits u - prec).

(** Truncation towards zero, as in a conversion to an integer type. *)
Definition float_trunc (f : spec_float) : option Z :=
  match f with
  | S754_zero _ => Some 0
  | S754_finite s m e =>
      let a := if e <? 0 then Zpos m / 2 ^ (- e) else Zpos m * 2 ^ e in
      Some (if s then - a else a)
  | _ => None
  end.

(** The sum of the integer [u] and one half, in [prec] digits. *)
Definition plus_half (prec : Z) (s : bool) (u : positive) : spec_float :=
  S754_finite s (shl (xI u) (Z.to_nat (prec - digits u - 1))) (digits u - prec).

Lemma trunc_plus_half prec s u :
  digits u < prec -> float_trunc (plus_half prec s u) = Some (if s then Zneg u else Zpos u).
Proof.
  intros Hd. unfold plus_half, float_trunc. destruct (Z.ltb_spec (digits u - prec) 0); [|lia].
  rewrite shl_value. set (n := Z.to_nat (prec - digits u - 1)).
  replace (- (digits u - prec)) with (1 + Z.of_nat n) by lia. rewrite Z.pow_add_r, Z.pow_1_r by lia.
  rewrite Z.div_mul_cancel_r by lia. rewrite Pos2Z.inj_xI.
  replace (2 * Zpos u + 1) with (1 + Zpos u * 2) by lia. rewrite Z.div_add by lia.
  cbn. by destruct s.
Qed.

(** ** Integers and one half *)

Definition double_half : spec_float := S754_finite false (shl 1 52) (-53).

Lemma align_half u :
  digits u <= 52 ->
  fst (shl_align (shl u (Z.to_nat (53 - digits u))) (digits u - 53) (-53)) = shl u 53.
Proof.
  intros Hd. assert (0 < digits u) by (unfold digits; lia).
  replace (-53) with (digits u - 53 - Z.of_nat (Z.to_nat (digits u))) by lia.
  rewrite shl_align_shift. cbn [fst]. rewrite shl_shl. f_equal. lia.
Qed.

Lemma shl_plus_half u : Zpos (shl u 53) + Zpos (shl 1 52) = Zpos (shl (xI u) 52).
Proof. rewrite !shl_value, Pos2Z.inj_xI. change (Z.of_nat 53) with 53. change (Z.of_nat 52) with 52. lia. Qed.

Lemma min_half u : Z.min (digits u - 53) (-53) = -53.
Proof. unfold digits. lia. Qed.

Lemma normalize_half (s : bool) u z :
  digits u <= 52 ->
  binary_normalize 53 1024 (if s then Zneg (shl (xI u) 52) else Zpos (shl (xI u) 52)) (-53) z =
    plus_half 53 s u.
Proof.
  intros Hd. assert (0 < digits u) by (unfold digits; lia).
  rewrite normalize_exact by (rewrite ?digits_xI; unfold emin; lia).
  unfold plus_half. rewrite digits_xI. f_equal; [f_equal|]; lia.
Qed.

Lemma add_half u : digits u <= 52 -> SFadd 53 1024 (float_of 53 false u) double_half = plus_half 53 false u.
Proof.
  intros Hd. unfold float_of, double_half, SFadd. rewrite min_half, align_half by done.
  cbn [cond_Zopp]. change (fst (shl_align (shl 1 52) (-53) (-53))) with (shl 1 52).
  rewrite shl_plus_half. by apply (normalize_half false).
Qed.

Lemma sub_half u : digits u <= 52 -> SFsub 53 1024 (float_of 53 true u) double_half = plus_half 53 true u.
Proof.
  intros Hd. unfold float_of, double_half, SFsub. rewrite min_half, align_half by done.
  cbn [cond_Zopp]. change (fst (shl_align (shl 1 52) (-53) (-53))) with (shl 1 52).
  by rewrite <- (normalize_half true u false).
Qed.

(** The sign changes without rounding. *)
Lemma mul_minus_one u :
  digits u <= 53 -> SFmul 53 1024 (float_of 53 true 1) (float_of 53 false u) = float_of 53 true u.
Proof.
  intros Hd. assert (0 < digits u) by (unfold digits; lia). unfold float_of, SFmul.
  change (digits 1) with 1. change (Z.to_nat (53 - 1)) with 52%nat.
  assert (forall k, (shl 1 52 * shl u k)%positive = shl u (52 + k)) as ->.
  { intros k. apply Pos2Z.inj. rewrite Pos2Z.inj_mul, !shl_value, Nat2Z.inj_add, Z.pow_add_r by lia. lia. }
  cbn [xorb]. rewrite round_aux_exact by (unfold emin; lia). f_equal. lia.
Qed.

(** ** Quotients *)

Lemma digits_ge u n : 2 ^ n <= Zpos u -> n < digits u.
Proof.
  intros Hu. pose proof (digits_bounds u) as [_ Hhi]. destruct (Z.lt_ge_cases n (digits u)) as [|Hge]; [done|].
  pose proof (Z.pow_le_mono_r 2 (digits u) n ltac:(lia) Hge). lia.
Qed.


(** Where [num / den] lies between [m] and [m + 1]. *)
Definition loc_ok (num den m : Z) (l : location) : Prop :=
  let r := num - m * den in
  match l with
  | loc_Exact => r = 0
  | loc_Inexact Lt => 0 < 2 * r < den
  | loc_Inexact Eq => 2 * r = den
  | loc_Inexact Gt => den < 2 * r < 2 * den
  end.

Lemma new_location_ok num den :
  0 < den -> loc_ok num den (num / den) (new_location den (num mod den)).
Proof.
  intros Hd. unfold loc_ok.
  assert (num - num / den * den = num mod den) as -> by (rewrite Z.mod_eq by lia; lia).
  pose proof (Z.mod_pos_bound num den Hd) as Hr. set (r := num mod den) in *. clearbody r.
  unfold new_location, new_location_even, new_location_odd.
  pose proof (Z.even_spec den) as He. 
  destruct (Z.even den) eqn:E; destruct (Z.eqb_spec r 0) as [->|H0]; [lia| |lia|].
  - destruct (Z.compare_spec (2 * r) den); lia.
  - assert (2 * r <> den) by (intros Heq; rewrite <- Heq, Z.even_mul in E; done).
    destruct (Z.compare_spec (2 * r + 1) den); lia.
Qed.

Lemma record_of_loc m l : loc_of_shr_record (shr_record_of_loc m l) = l.
Proof. by destruct l as [|[]]. Qed.

Lemma shr_1_ok num den rec :
  0 < den -> 0 <= shr_m rec -> loc_ok num den (shr_m rec) (loc_of_shr_record rec) ->
  loc_ok num (2 * den) (shr_m (shr_1 rec)) (loc_of_shr_record (shr_1 rec)) /\ shr_m (shr_1 rec) = shr_m rec / 2.
Proof.
  destruct rec as [m r s]. cbn [shr_m]. intros Hd Hm Hl. rewrite <- Z.div2_div.
  destruct m as [|[p|p|]|p]; [| | | |lia]; (split; [|done]);
    destruct r, s; unfold loc_ok in *; cbn [shr_1 loc_of_shr_record orb shr_m] in *; lia.
Qed.

(** A quotient of 24 or 25 binary digits loses at most one of them. *)
Lemma first_shift num den u e l :
  0 < den -> 2 ^ 23 <= Zpos u < 2 ^ 25 -> -149 <= e -> loc_ok num den (Zpos u) l ->
  exists k rec, (k = 0 \/ k = 1) /\ shr_fexp 24 128 (Zpos u) e l = (rec, e + k) /\ 2 ^ 23 <= shr_m rec < 2 ^ 24 /\
    shr_m rec = Zpos u / 2 ^ k /\ loc_ok num (den * 2 ^ k) (shr_m rec) (loc_of_shr_record rec).
Proof.
  intros Hd Hu He Hl. pose proof (digits_bounds u) as Hb. pose proof (digits_le u 25 ltac:(lia) ltac:(lia)) as H25.
  pose proof (digits_ge u 23 ltac:(lia)) as H24.
  unfold shr_fexp. cbn [Zdigits2]. fold (digits u). unfold fexp, emin.
  assert (digits u = 24 \/ digits u = 25) as [Hdig|Hdig] by lia; rewrite Hdig in *.
  - exists 0, (shr_record_of_loc (Zpos u) l). rewrite record_of_loc, Z.max_l, Z.mul_1_r by lia.
    replace (24 + e - 24 - e) with 0 by lia. cbn [shr]. rewrite Z.add_0_r, Z.div_1_r.
    assert (shr_m (shr_record_of_loc (Zpos u) l) = Zpos u) as -> by (by destruct l as [|[]]).
    split_and!; [by left|done|lia|lia|done|done].
  - exists 1. rewrite Z.max_l by lia. replace (25 + e - 24 - e) with 1 by lia. cbn [shr SpecFloat.iter_pos].
    exists (shr_1 (shr_record_of_loc (Zpos u) l)).
    assert (shr_m (shr_record_of_loc (Zpos u) l) = Zpos u) as Hm by (by destruct l as [|[]]).
    destruct (shr_1_ok num den (shr_record_of_loc (Zpos u) l)) as [Hok Hm1]; [done|rewrite Hm; lia|by rewrite record_of_loc, Hm|].
    rewrite Hm in Hm1. rewrite Z.pow_1_r, (Z.mul_comm den). split_and!; [by right|done| | |done|done]; rewrite Hm1.
    + apply Z.div_le_lower_bound; lia.
    + apply Z.div_lt_upper_bound; lia.
Qed.

Lemma second_shift m e :
  2 ^ 23 <= m <= 2 ^ 24 -> -149 <= e <= 100 ->
  exists k v, 0 <= k /\ Zpos v * 2 ^ k = m /\
    (let '(rec, e') := shr_fexp 24 128 m e loc_Exact in
     match shr_m rec with
     | 0 => S754_zero false
     | Zpos m => if Z.leb e' (128 - 24) then S754_finite false m e' else S754_infinity false
     | _ => S754_nan
     end) = S754_finite false v (e + k).
Proof.
  intros Hm He. destruct (decide (m = 2 ^ 24)) as [->|Hne].
  - exists 1, 8388608%positive. split; [done|]. split; [done|]. unfold shr_fexp, fexp, emin.
    change (Zdigits2 (2 ^ 24)) with 25. rewrite Z.max_l by lia. replace (25 + e - 24 - e) with 1 by lia.
    cbn -[Z.leb Z.sub]. destruct (Z.leb_spec (e + 1) (128 - 24)); [done|lia].
  - destruct m as [|u|u]; [lia| |lia]. exists 0, u. split; [done|]. split; [lia|].
    pose proof (digits_bounds u) as Hb. pose proof (digits_le u 24 ltac:(lia) ltac:(lia)).
    pose proof (digits_ge u 23 ltac:(lia)).
    unfold shr_fexp, fexp, emin. cbn [Zdigits2]. fold (digits u). rewrite Z.max_l by lia.
    replace (digits u + e - 24 - e) with 0 by lia. cbn [shr shr_record_of_loc shr_m]. rewrite Z.add_0_r.
    destruct (Z.leb_spec e (128 - 24)); [done|lia].
Qed.

(** A quotient rounded to 24 digits: [k] digits are dropped, the rest is rounded up or
    down, up if more than half a unit is left, and exact if nothing is. *)
Lemma round_quotient num den e :
  0 < den -> 2 ^ 23 * den <= num < 2 ^ 25 * den -> -149 <= e <= 90 ->
  exists k j v, (k = 0 \/ k = 1) /\ 0 <= j /\
    binary_round_aux 24 128 false (num / den) e (new_location den (num mod den)) = S754_finite false v (e + k + j) /\
    let unit := den * 2 ^ k in
    let m := num / unit in
    (Zpos v * 2 ^ j = m \/ Zpos v * 2 ^ j = m + 1 /\ m * unit < num) /\
    (unit < 2 * (num - m * unit) -> Zpos v * 2 ^ j = m + 1).
Proof.
  intros Hd Hq He.
  assert (2 ^ 23 <= num / den < 2 ^ 25) as Hqb. { split; [apply Z.div_le_lower_bound; lia|apply Z.div_lt_upper_bound; lia]. }
  pose proof (new_location_ok num den Hd) as Hl. set (l := new_location den (num mod den)) in *. clearbody l.
  destruct (num / den) as [|u|u] eqn:Eq; [lia| |lia]. unfold binary_round_aux.
  destruct (first_shift num den u e l Hd Hqb ltac:(lia) Hl) as (k & rec & Hk & -> & Hb & Hm & Hloc).
  assert (shr_m rec = num / (den * 2 ^ k)) as Hm'. { rewrite Hm, <- Eq. rewrite Z.div_div; [done|lia|]. destruct Hk as [-> | ->]; lia. }
  set (m := shr_m rec) in *. set (M := round_nearest_even m (loc_of_shr_record rec)).
  assert (2 ^ 23 <= M <= 2 ^ 24 /\ (M = m \/ M = m + 1 /\ m * (den * 2 ^ k) < num) /\
          (den * 2 ^ k < 2 * (num - m * (den * 2 ^ k)) -> M = m + 1)) as (HM1 & HM2 & HM3).
  { unfold M, loc_ok in *. destruct (loc_of_shr_record rec) as [|[]]; cbn [round_nearest_even];
      [|destruct (Z.even m)| |]; split_and!; lia. }
  destruct (second_shift M (e + k)) as (j & v & Hj & Hv & Heq); [done|lia|].
  exists k, j, v. split_and!; [done|done|exact Heq| |].
  - rewrite <- Hm', Hv. exact HM2.
  - rewrite <- Hm', Hv. exact HM3.
Qed.

(** ** Conversions *)

(** float to double, which is exact, and double to float, which rounds. *)
Definition widen (f : spec_float) : spec_float :=
  match f with
  | S754_finite s m e => binary_normalize 53 1024 (if s then Zneg m else Zpos m) e s
  | _ => f
  end.

Definition narrow (f : spec_float) : spec_float :=
  match f with
  | S754_finite s m e => binary_normalize 24 128 (if s then Zneg m else Zpos m) e s
  | _ => f
  end.

Definition float_floor (f : spec_float) : option Z :=
  match f with
  | S754_zero _ => Some 0
  | S754_finite s m e =>
      let z := if s then Zneg m else Zpos m in
      Some (if e <? 0 then z / 2 ^ (- e) else z * 2 ^ e)
  | _ => None
  end.

Definition float_ceil (f : spec_float) : option Z :=
  match f with
  | S754_zero _ => Some 0
  | S754_finite s m e =>
      let z := if s then Zneg m else Zpos m in
      Some (if e <? 0 then - (- z / 2 ^ (- e)) else z * 2 ^ e)
  | _ => None
  end.

(** An int as a float, which rounds above 24 digits. *)
Definition float_of_int (z : Z) : spec_float := binary_normalize 24 128 z 0 false.

Lemma float_of_int_exact u : digits u <= 24 -> float_of_int (Zpos u) = float_of 24 false u.
Proof.
  intros Hd. assert (0 < digits u) by (unfold digits; lia). unfold float_of_int.
  change (Zpos u) with (Zpos (shl u 0)). etransitivity; [apply (normalize_exact 24 128 false u 0 0 false)|].
  - done.
  - unfold emin. lia.
  - unfold float_of. by rewrite Z.add_0_l, Z.add_0_r.
Qed.

Lemma ceil_shifted v j t :
  0 <= j -> 0 <= t ->
  float_ceil (S754_finite false v (j - t)) = Some (- (- (Zpos v * 2 ^ j) / 2 ^ t)).
Proof.
  intros Hj Ht. cbn [float_ceil]. f_equal. destruct (Z.ltb_spec (j - t) 0).
  - replace (2 ^ t) with (2 ^ (- (j - t)) * 2 ^ j) by (rewrite <- Z.pow_add_r by lia; f_equal; lia).
    assert (0 < 2 ^ j) by (apply Z.pow_pos_nonneg; lia). rewrite <- Z.mul_opp_l, Z.div_mul_cancel_r; lia.
  - replace (2 ^ j) with (2 ^ (j - t) * 2 ^ t) by (rewrite <- Z.pow_add_r by lia; f_equal; lia).
    assert (0 < 2 ^ t) by (apply Z.pow_pos_nonneg; lia). rewrite Z.mul_assoc, <- Z.mul_opp_l, Z.div_mul; lia.
Qed.

(** The quotient of two integers of at most 24 digits as exact fraction of what
    [SFdiv] divides. *)
Lemma quotient_parts a b :
  digits a <= 24 -> digits b <= 24 -> digits b <= digits a ->
  let num := Zpos (shl a (Z.to_nat (24 - digits a))) * 2 ^ 24 in
  let den := Zpos (shl b (Z.to_nat (24 - digits b))) in
  SFdiv 24 128 (float_of 24 false a) (float_of 24 false b) =
    binary_round_aux 24 128 false (num / den) (digits a - digits b - 24) (new_location den (num mod den)) /\
  2 ^ 23 * den <= num < 2 ^ 25 * den.
Proof.
  intros Ha Hb Hab num den. unfold float_of, SFdiv, SFdiv_core_binary. cbn [Zdigits2 xorb]. fold (digits (shl a (Z.to_nat (24 - digits a)))).
  fold (digits (shl b (Z.to_nat (24 - digits b)))). rewrite !digits_shl. unfold fexp, emin.
  pose proof (digits_bounds (shl a (Z.to_nat (24 - digits a)))) as Hm1. pose proof (digits_bounds (shl b (Z.to_nat (24 - digits b)))) as Hm2.
  rewrite digits_shl, Z2Nat.id in Hm1, Hm2 by lia. 
  replace (digits a + (24 - digits a)) with 24 in Hm1 by lia. replace (digits b + (24 - digits b)) with 24 in Hm2 by lia.
  split; [|lia]. rewrite !Z2Nat.id by lia. rewrite Z.max_l by lia.
  replace (digits a + (24 - digits a) + (digits a - 24) - (digits b + (24 - digits b) + (digits b - 24)) - 24) with (digits a - digits b - 24) by lia.
  rewrite Z.min_l by lia. replace (digits a - 24 - (digits b - 24) - (digits a - digits b - 24)) with 24 by lia. cbv iota.
  rewrite Z.shiftl_mul_pow2 by lia. fold num den. unfold Z.div, Z.modulo. by destruct (Z.div_eucl num den) as [q r].
Qed.

Lemma ceil_bounds a b c : 0 < b -> (c - 1) * b < a <= c * b -> - (- a / b) = c.
Proof. intros Hb Hc. assert (- a / b = - c) as ->; [|lia]. symmetry. apply (Z.div_unique (- a) b (- c) (c * b - a)); lia. Qed.

Lemma ceil_spec a b : 0 < b -> (- (- a / b) - 1) * b < a <= - (- a / b) * b.
Proof.
  intros Hb. pose proof (Z.div_mod (- a) b ltac:(lia)) as H. pose proof (Z.mod_pos_bound (- a) b Hb). nia.
Qed.

(** Rounding to nearest cannot reach down to an integer when the next multiple of
    [1 / T] is nearer. *)
Lemma ceil_core a b T m M :
  0 < b -> 0 < T -> m * b <= a * T < (m + 1) * b -> b < 2 * T ->
  (M = m \/ M = m + 1 /\ m * b < a * T) -> (b < 2 * (a * T - m * b) -> M = m + 1) ->
  - (- M / T) = - (- a / b).
Proof.
  intros Hb HT Hm HbT HM Hup. pose proof (ceil_spec a b Hb) as [Hlo Hhi]. set (c := - (- a / b)) in *. clearbody c.
  apply ceil_bounds; [done|]. split.
  - assert ((c - 1) * T <= m) as Hcm.
    { apply Z.lt_succ_r. apply (Z.mul_lt_mono_pos_r b); [done|]. nia. }
    destruct (Z.eq_dec m ((c - 1) * T)) as [Heq|]; [|lia]. rewrite Hup; [lia|]. nia.
  - assert (a * T <= c * T * b) as H by nia. destruct HM as [->|[-> Hlt]].
    + apply (Z.mul_le_mono_pos_r _ _ b); lia.
    + apply Z.le_succ_l. apply (Z.mul_lt_mono_pos_r b); lia.
Qed.

(** [ceilf(a / (float)b)] is the exact integer quotient rounded up. *)
Lemma ceil_quotient a b :
  0 < b <= a -> a < 2 ^ 24 ->
  float_ceil (SFdiv 24 128 (float_of_int a) (float_of_int b)) = Some (- (- a / b)).
Proof.
  intros Hb Ha. destruct a as [|a|a], b as [|b|b]; try lia.
  pose proof (digits_le a 24 ltac:(lia) ltac:(lia)) as Hda. pose proof (digits_le b 24 ltac:(lia) ltac:(lia)) as Hdb.
  pose proof (digits_bounds a) as Hba. pose proof (digits_bounds b) as Hbb.
  assert (0 < digits b) as H0 by (unfold digits; lia).
  assert (digits b <= digits a) as Hab by (pose proof (digits_ge a (digits b - 1) ltac:(lia)); lia).
  rewrite !float_of_int_exact by done. destruct (quotient_parts a b Hda Hdb Hab) as [-> Hq].
  set (num := Zpos (shl a _) * 2 ^ 24) in *. set (den := Zpos (shl b _)) in *.
  destruct (round_quotient num den (digits a - digits b - 24)) as (k & j & v & Hk & Hj & -> & HM & Hup); [lia|done|lia|].
  set (t := 24 - digits a + digits b - k).
  replace (digits a - digits b - 24 + k + j) with (j - t) by lia. rewrite ceil_shifted by lia. f_equal.
  set (M := Zpos v * 2 ^ j) in *. cbn zeta in HM, Hup. set (unit := den * 2 ^ k) in *. set (m := num / unit) in *.
  assert (0 < 2 ^ k) as Hk0 by (destruct Hk as [-> | ->]; lia).
  assert (0 < unit) as Hu by (unfold unit; lia). assert (0 <= t) as Ht by (unfold t; lia).
  assert (0 < 2 ^ t) as HT by (apply Z.pow_pos_nonneg; lia).
  assert (num * Zpos b = Zpos a * 2 ^ t * unit) as Hnum.
  { unfold num, unit, den. rewrite !shl_value, !Z2Nat.id by lia.
    replace (Zpos a * 2 ^ (24 - digits a) * 2 ^ 24 * Zpos b) with (Zpos a * Zpos b * (2 ^ (24 - digits a) * 2 ^ 24)) by ring.
    replace (Zpos a * 2 ^ t * (Zpos b * 2 ^ (24 - digits b) * 2 ^ k)) with (Zpos a * Zpos b * (2 ^ t * 2 ^ (24 - digits b) * 2 ^ k)) by ring.
    f_equal. rewrite <- !Z.pow_add_r by lia. f_equal. lia. }
  pose proof (Z.mul_div_le num unit Hu) as Hlo. pose proof (Z.mul_succ_div_gt num unit Hu) as Hhi. fold m in Hlo, Hhi.
  assert (Zpos b < 2 * 2 ^ t) as HbT.
  { rewrite <- Z.pow_succ_r by lia. pose proof (Z.pow_le_mono_r 2 (digits b) (Z.succ t) ltac:(lia) ltac:(lia)). lia. }
  apply (ceil_core _ _ _ m); [lia|done| |done| |].
  - split; [apply (Z.mul_le_mono_pos_r _ _ unit)|apply (Z.mul_lt_mono_pos_r unit)]; [done| |done|]; rewrite <- Hnum; nia.
  - destruct HM as [HM|[HM Hlt]]; [by left|right]. split; [done|]. apply (Z.mul_lt_mono_pos_r unit); [done|]. rewrite <- Hnum. nia.
  - intros Hb2. apply Hup. apply (Z.mul_lt_mono_pos_r (Zpos b)); [lia|].
    replace (2 * (num - m * unit) * Zpos b) with (2 * (num * Zpos b - m * Zpos b * unit)) by ring. rewrite Hnum. nia.
Qed.

(** ** Operations of the C code *)

Abbreviation fmul := (SFmul 24 128).
Abbreviation fsub := (SFsub 24 128).
Abbreviation fdiv := (SFdiv 24 128).
Abbreviation fadd := (SFadd 24 128).

(** fmax of two floats, computed in double and stored in a float again. *)
Definition fmax (a b : spec_float) : spec_float :=
  match a, b with
  | S754_nan, _ => b
  | _, S754_nan => a
  | _, _ => if SFltb a b then b else a
  end.

(** A float in an int. *)
Definition to_int (f : option Z) : c_result Z :=
  match f with
  | Some z => if is_s32 z then Done z else Undefined
  | None => Undefined
  end.

(** ** Lemmas: signs of floats *)

Definition nonneg (f : spec_float) : Prop :=
  match f with
  | S754_zero s | S754_finite s _ _ | S754_infinity s => s = false
  | S754_nan => True
  end.

(** A number above zero. *)
Definition positive (f : spec_float) : Prop :=
  match f with
  | S754_finite s _ _ | S754_infinity s => s = false
  | _ => False
  end.

Lemma round_aux_nonneg prec emax m e l : nonneg (binary_round_aux prec emax false m e l).
Proof.
  unfold binary_round_aux. destruct (shr_fexp _ _ _ _ _) as [r1 e1]. destruct (shr_fexp _ _ _ _ _) as [r2 e2].
  destruct (shr_m r2); [done| |done]. by destruct (e2 <=? emax - prec).
Qed.

Lemma round_nonneg prec emax m e : nonneg (binary_round prec emax false m e).
Proof. unfold binary_round. destruct (shl_align _ _ _). apply round_aux_nonneg. Qed.

Lemma normalize_nonneg prec emax z : 0 <= z -> nonneg (binary_normalize prec emax z 0 false).
Proof. intros Hz. destruct z; [done|apply round_nonneg|lia]. Qed.

Lemma of_int_nonneg z : 0 <= z -> nonneg (float_of_int z).
Proof. apply normalize_nonneg. Qed.

Lemma mul_nonneg prec emax a b : nonneg a -> nonneg b -> nonneg (SFmul prec emax a b).
Proof. destruct a, b; cbn; intros; subst; cbn; try done. apply round_aux_nonneg. Qed.

Lemma div_nonneg prec emax a b : nonneg a -> nonneg b -> nonneg (SFdiv prec emax a b).
Proof.
  destruct a, b; intros Ha Hb; cbn in Ha, Hb; subst; try (by cbn). cbn [SFdiv xorb].
  destruct (SFdiv_core_binary _ _ _ _ _ _) as [[q e'] l]. apply round_aux_nonneg.
Qed.

Lemma sqrt_nonneg prec emax a : nonneg a -> nonneg (SFsqrt prec emax a).
Proof.
  destruct a; intros Ha; cbn in Ha; subst; try (by cbn). cbn [SFsqrt].
  destruct (SFsqrt_core_binary _ _ _ _) as [[q e'] l]. apply round_aux_nonneg.
Qed.

Lemma narrow_nonneg a : nonneg a -> nonneg (narrow a).
Proof. destruct a; intros Ha; cbn in Ha; subst; try (by cbn). apply round_nonneg. Qed.

Lemma widen_nonneg a : nonneg a -> nonneg (widen a).
Proof. destruct a; intros Ha; cbn in Ha; subst; try (by cbn). apply round_nonneg. Qed.

Lemma fmax_positive a b : positive b -> positive (fmax a b).
Proof.
  destruct a as [s|s| |s m e], b as [s'|s'| |s' m' e']; try done; intros Hb; cbn in Hb; subst s'; try (by cbn);
    destruct s; try (by cbn); unfold fmax; by destruct (SFltb _ _).
Qed.

Lemma positive_nonneg a : positive a -> nonneg a.
Proof. by destruct a. Qed.

Lemma fmax_one_nonneg a : nonneg (fmax a (float_of_int 1)).
Proof. by apply positive_nonneg, fmax_positive. Qed.

Lemma floor_nonneg f z : nonneg f -> float_floor f = Some z -> 0 <= z.
Proof.
  destruct f as [| | |s m e]; cbn; intros Hf [= <-]; [lia|subst]. destruct (Z.ltb_spec e 0).
  - apply Z.div_pos; [lia|]. apply Z.pow_pos_nonneg; lia.
  - apply Z.mul_nonneg_nonneg; [lia|]. apply Z.pow_nonneg. lia.
Qed.

Lemma to_int_floor f z : nonneg f -> to_int (float_floor f) = Done z -> 0 <= z < 2 ^ 31.
Proof.
  intros Hf. unfold to_int. destruct (float_floor f) as [y|] eqn:E; [|done]. pose proof (floor_nonneg f y Hf E).
  unfold is_s32. destruct (Z.leb_spec (- 2 ^ 31) y), (Z.ltb_spec y (2 ^ 31)); cbn [andb]; intros [= <-]; lia.
Qed.

Create HintDb nonneg.
#[export] Hint Resolve of_int_nonneg mul_nonneg div_nonneg sqrt_nonneg narrow_nonneg widen_nonneg fmax_one_nonneg normalize_nonneg : nonneg.

(** ** Differences of integers *)

Lemma align_int u k : (Z.of_nat k <= 24) -> digits u <= 24 ->
  fst (shl_align (shl u (Z.to_nat (24 - digits u))) (digits u - 24) (Z.min (digits u - 24) (- Z.of_nat k))) =
  shl u (Z.to_nat (- Z.min (digits u - 24) (- Z.of_nat k))).
Proof.
  intros Hk Hd. set (e := Z.min _ _).
  replace e with (digits u - 24 - Z.of_nat (Z.to_nat (digits u - 24 - e))) at 1 by lia.
  rewrite shl_align_shift. cbn [fst]. rewrite shl_shl. f_equal. lia.
Qed.

(** Small integers are subtracted without rounding. *)
Lemma sub_int a b : 0 <= b <= a -> a < 2 ^ 24 -> fsub (float_of_int a) (float_of_int b) = float_of_int (a - b).
Proof.
  intros Hb Ha. destruct b as [|v|v]; [|..|lia].
  { rewrite Z.sub_0_r. destruct a as [|u|u]; [done| |lia]. rewrite float_of_int_exact by (apply digits_le; lia). done. }
  destruct a as [|u|u]; [lia| |lia].
  assert (digits u <= 24 /\ digits v <= 24) as [Hu Hv] by (split; apply digits_le; lia).
  rewrite !float_of_int_exact by done. unfold float_of. cbn [SFsub].
  set (e := Z.min (digits u - 24) (digits v - 24)).
  assert (0 < digits u /\ 0 < digits v) as [] by (unfold digits; lia).
  pose proof (align_int u (Z.to_nat (24 - digits v)) ltac:(lia) Hu) as Hau.
  pose proof (align_int v (Z.to_nat (24 - digits u)) ltac:(lia) Hv) as Hav.
  replace (- Z.of_nat (Z.to_nat (24 - digits v))) with (digits v - 24) in Hau by lia.
  replace (- Z.of_nat (Z.to_nat (24 - digits u))) with (digits u - 24) in Hav by lia.
  rewrite (Z.min_comm (digits v - 24)) in Hav. fold e in Hau, Hav. rewrite Hau, Hav. cbn [cond_Zopp].
  rewrite !shl_value. set (k := Z.to_nat (- e)). replace (Z.of_nat k) with (- e) by lia.
  rewrite <- Z.mul_sub_distr_r. destruct (Zpos u - Zpos v) as [|w|w] eqn:Ew; [done| |lia].
  replace (Zpos w * 2 ^ (- e)) with (Zpos (shl w k)) by (rewrite shl_value; f_equal; f_equal; lia).
  assert (digits w <= 24) as Hw by (apply digits_le; lia). assert (0 < digits w) by (unfold digits; lia).
  etransitivity; [apply (normalize_exact 24 128 false w k e false); [done|unfold emin; lia]|].
  rewrite float_of_int_exact by done. unfold float_of. f_equal. lia.
Qed.
