(* ===== verification/Utility.v ===== *)
(** String and list helpers of common/utility.c.

    Pointers into a string are byte offsets into it; a search that would start
    beyond the terminating NUL is [Undefined]. Loops run on fuel bounded by the
    length of the text; the theorems show that the bound is never reached for
    the inputs the helpers are meant for. *)

From Stdlib Require Import Ascii String.
From S2P Require Import Prelude.

Section search.

(** [g_strstr_len(hay + i, strlen(hay + i), needle)] as an offset into [hay]. *)
Definition g_strstr_from (needle hay : string) (i : nat) : c_result (option nat) :=
  if String.length hay <? i then Undefined
  else Done ((fun bm => i + String.length bm.1) <$> strstr needle (str_drop i hay)).

(** The [do ... while] loop of [dt_util_str_occurence]: [p] is the last match. *)
Fixpoint occurence_loop (fuel : nat) (needle hay : string) (p o : nat) : c_result nat :=
  match fuel with
  | O => Undefined
  | S fuel =>
      let* next := g_strstr_from needle hay (p + 1) in
      match next with
      | Some p' => occurence_loop fuel needle hay p' (o + 1)
      | None => Done (o + 1)
      end
  end.

Definition dt_util_str_occurence (haystack needle : option string) : c_result nat :=
  match haystack, needle with
  | Some hay, Some needle =>
      let* first := g_strstr_from needle hay 0 in
      match first with
      | Some p => occurence_loop (S (String.length hay)) needle hay p 0
      | None => Done 0
      end
  | _, _ => Done 0
  end.

(** [memcpy(np, string + p, s - p)]: a negative length becomes a huge
    [size_t]. *)
Definition copy_range (string : string) (p s : nat) : c_result String.string :=
  if s <? p then Undefined else Done (str_take (s - p) (str_drop p string)).

(** The copying loop of [dt_util_str_replace]: [s] is the current match, [p] the
    first byte not copied yet, [np] what has been written so far. *)
Fixpoint replace_loop (fuel : nat) (string pattern substitute : String.string)
    (s p : nat) (np : String.string) : c_result (String.string * nat) :=
  match fuel with
  | O => Undefined
  | S fuel =>
      let* chunk := copy_range string p s in
      let np := np +:+ chunk +:+ substitute in
      let p := s + String.length pattern in
      let* next := g_strstr_from pattern string (s + 1) in
      match next with
      | Some s' => replace_loop fuel string pattern substitute s' p np
      | None => Done (np, p)
      end
  end.

Definition dt_util_str_replace (string pattern substitute : String.string)
    : c_result String.string :=
  let* occurences := dt_util_str_occurence (Some string) (Some pattern) in
  if 0 <? occurences then
    let* first := g_strstr_from pattern string 0 in
    match first with
    | Some s =>
        let* (np, p) :=
          replace_loop (S (String.length string)) string pattern substitute s 0 "" in
        let* tail := copy_range string p (String.length string) in
        Done (np +:+ tail)
    | None => copy_range string 0 (String.length string)
    end
  else Done string.

(** [while(text[0]) { if(text[0] == needle) count++; text++; }] with a
    [guint] counter. *)
Fixpoint dt_util_string_count_char (text : string) (needle : ascii) : Z :=
  match text with
  | "" => 0
  | String c text' =>
      wrap_u32 ((if Ascii.eqb c needle then 1 else 0) + dt_util_string_count_char text' needle)
  end.

End search.

Section glists.

(** [NULL] for an empty list, otherwise [g_strjoinv]. *)
Definition dt_util_glist_to_str (separator : string) (items : list string) : option string :=
  match items with
  | [] => None
  | _ => Some (String.concat separator items)
  end.

(** The [while(len)] loop; [prev] is the text still to be split. *)
Fixpoint str_to_glist_loop (fuel : nat) (separator prev : string) : option (list string) :=
  match fuel with
  | O => None
  | S fuel =>
      if (String.length prev =? 0)%nat then Some []
      else match strstr separator prev with
           | Some (item, next) =>
               let prev := str_drop (String.length separator) next in
               rest ← str_to_glist_loop fuel separator prev;
               Some (item :: (if (String.length prev =? 0)%nat then [""] else []) ++ rest)
           | None => Some [prev]
           end
  end.

(** [None] stands for a loop that does not stop within the length of the text:
    an empty separator. *)
Definition dt_util_str_to_glist (separator : string) (text : option string)
    : option (list string) :=
  match text with
  | None => Some []
  | Some text => str_to_glist_loop (S (String.length text)) separator text
  end.

(** [g_strcmp0] on non-NULL strings: byte-wise comparison. *)
Definition g_strcmp0 (a b : string) : Z :=
  match String.compare a b with Lt => -1 | Eq => 0 | Gt => 1 end.

(** The walk over the sorted list; [last] is the last item kept. *)
Fixpoint uniq_loop (last : option string) (iter : list string) : list string :=
  match iter with
  | [] => []
  | value :: iter' =>
      if (match last with Some l => g_strcmp0 l value =? 0 | None => false end)%Z
      then uniq_loop last iter'
      else value :: uniq_loop (Some value) iter'
  end.

Definition dt_util_glist_uniq (items : list string) : list string :=
  uniq_loop None (g_list_sort g_strcmp0 items).

End glists.

(** ** Splitting and joining *)

Section split_join.

Lemma str_length_0 s : (String.length s =? 0)%nat = true <-> s = "".
Proof. by destruct s. Qed.

Lemma strstr_after_length sep text item next :
  sep <> "" -> strstr sep text = Some (item, next) ->
  text = item +:+ sep +:+ str_drop (String.length sep) next /\
  String.length (str_drop (String.length sep) next) < String.length text.
Proof.
  intros Hsep [-> Hp]%strstr_Some. pose proof (str_prefix_drop _ _ Hp) as Hn.
  split; [by f_equal|].
  rewrite str_drop_length. apply (f_equal String.length) in Hn.
  rewrite str_length_app in Hn. rewrite str_length_app.
  destruct sep; [done|]. cbn in *. lia.
Qed.

(** With a non-empty separator the loop ends within its fuel, and joining what
    it returns gives the text back. *)
Lemma str_to_glist_loop_concat sep fuel text :
  sep <> "" -> String.length text < fuel ->
  exists l, str_to_glist_loop fuel sep text = Some l /\
            String.concat sep l = text /\ (l = [] <-> text = "").
Proof.
  intros Hsep. revert text. induction fuel as [|fuel IH]; intros text Hf; [lia|].
  cbn [str_to_glist_loop]. destruct (String.length text =? 0)%nat eqn:E0.
  { apply str_length_0 in E0 as ->. by exists []. }
  assert (text <> "") as Hne by (intros ->; done).
  destruct (strstr sep text) as [[item next]|] eqn:Es; [|by exists [text]].
  destruct (strstr_after_length _ _ _ _ Hsep Es) as [Ht Hlt].
  set (prev := str_drop (String.length sep) next) in *.
  destruct (IH prev) as (l & -> & Hc & Hl); [lia|]. cbn.
  eexists. split; [done|]. split; [|done].
  destruct (String.length prev =? 0)%nat eqn:Ep; cbn [app].
  - apply str_length_0 in Ep. rewrite Ep in *. destruct Hl as [_ ->]; [|done].
    cbn. by rewrite Ht.
  - destruct l as [|x l]; [by rewrite <- Hc in Ep|].
    cbn -[String.concat]. rewrite Ht, <- Hc. done.
Qed.

Definition no_comma (s : string) : bool := str_forall (not_char ",") s.

Lemma str_to_glist_loop_split fuel l :
  Forall (fun s => no_comma s = true) l -> l <> [""] ->
  String.length (String.concat "," l) < fuel ->
  str_to_glist_loop fuel "," (String.concat "," l) = Some l.
Proof.
  intros Hl Hne. revert fuel. induction Hl as [|x l Hx Hl IH]; intros fuel Hf.
  { destruct fuel; [cbn in Hf; lia|done]. }
  destruct fuel as [|fuel]; [lia|]. destruct l as [|y l].
  - cbn [String.concat str_to_glist_loop] in *.
    destruct (String.length x =? 0)%nat eqn:E.
    { apply str_length_0 in E as ->. done. }
    by rewrite strstr_char_None.
  - change (String.concat "," (x :: y :: l)) with (x +:+ String "," (String.concat "," (y :: l))) in *.
    rewrite str_length_app in Hf. cbn [str_to_glist_loop].
    destruct (String.length _ =? 0)%nat eqn:E.
    { apply str_length_0, str_app_nil in E as [_ ?]. done. }
    rewrite strstr_char by done. cbn [String.length str_drop].
    cbn [String.length] in Hf.
    destruct (decide (y :: l = [""])) as [->|Hyl].
    { destruct fuel; [cbn in Hf; lia|done]. }
    rewrite IH by (done || lia).
    destruct (String.length (String.concat "," (y :: l)) =? 0)%nat eqn:E'; [|done].
    apply str_length_0 in E'. exfalso. apply Hyl.
    destruct l as [|z l]; [cbn in E'; by subst|].
    change (y +:+ String "," (String.concat "," (z :: l)) = "") in E'.
    by apply str_app_nil in E' as [_ ?].
Qed.

End split_join.

(** ** Sorting and removing duplicates *)

Section uniq.

Definition str_le (a b : string) : Prop := String.compare a b <> Gt.

#[export] Instance str_le_dec : RelDecision str_le.
Proof. intros ??. unfold str_le. destruct (String.compare _ _); [left..|right]; auto. Defined.

Lemma str_compare_cons c d s t :
  String.compare (String c s) (String d t) =
  match N.compare (N_of_ascii c) (N_of_ascii d) with
  | Eq => String.compare s t | Lt => Lt | Gt => Gt end.
Proof. done. Qed.

#[export] Instance str_le_trans : Transitive str_le.
Proof.
  unfold str_le. intros s. induction s as [|c s IH]; intros [|d t] [|e u]; try done.
  rewrite !str_compare_cons.
  destruct (N.compare_spec (N_of_ascii c) (N_of_ascii d)) as [E1|?|?];
  destruct (N.compare_spec (N_of_ascii d) (N_of_ascii e)) as [E2|?|?];
  destruct (N.compare_spec (N_of_ascii c) (N_of_ascii e)) as [E3|?|?];
  try done; try lia. apply IH.
Qed.

#[export] Instance str_le_total : Total str_le.
Proof.
  intros s t. unfold str_le. rewrite (String.compare_antisym t s).
  destruct (String.compare s t); cbn; auto.
Qed.

Lemma str_le_antisym s t : str_le s t -> str_le t s -> s = t.
Proof.
  unfold str_le. rewrite (String.compare_antisym t s).
  destruct (String.compare s t) eqn:E; cbn; try done.
  intros _ _. by apply String.compare_eq_iff.
Qed.

Lemma g_strcmp0_le a b : (g_strcmp0 a b <= 0)%Z <-> str_le a b.
Proof. unfold g_strcmp0, str_le. destruct (String.compare a b); split; done || lia. Qed.

Lemma g_strcmp0_eq a b : (g_strcmp0 a b =? 0)%Z = true <-> a = b.
Proof.
  unfold g_strcmp0. destruct (String.compare a b) eqn:E; cbn; split; try done.
  - intros _. by apply String.compare_eq_iff.
  - intros ->. assert (String.compare b b = Eq); [|congruence].
    pose proof (String.compare_antisym b b) as H. by destruct (String.compare b b).
  - intros ->. pose proof (String.compare_antisym b b) as H. by rewrite E in H.
Qed.

Lemma uniq_loop_spec last l :
  StronglySorted str_le l -> (forall x, last = Some x -> Forall (str_le x) l) ->
  NoDup (uniq_loop last l) /\
  StronglySorted str_le (uniq_loop last l) /\
  forall y, y ∈ uniq_loop last l <-> y ∈ l /\ last <> Some y.
Proof.
  intros Hl. revert last. induction Hl as [|x l Hl IH Hx]; intros last Hlast.
  { split; [constructor|]. split; [constructor|]. set_solver. }
  cbn [uniq_loop]. destruct (match last with Some _ => _ | None => _ end) eqn:E.
  - destruct last as [z|]; [|done]. apply g_strcmp0_eq in E as ->.
    destruct (IH (Some x)) as (? & ? & Hin); [by intros ? [= ->]|].
    split; [done|]. split; [done|]. intros y. rewrite Hin, elem_of_cons.
    split; [tauto|]. intros [[->|?] ?]; [done|]. done.
  - destruct (IH (Some x)) as (Hnd & Hs & Hin); [by intros ? [= ->]|].
    assert (last <> Some x) as Hlx.
    { intros ->. rewrite (proj2 (g_strcmp0_eq x x) eq_refl) in E. done. }
    split; [|split].
    + constructor; [|done]. rewrite Hin. by intros [_ ?].
    + constructor; [done|]. rewrite Forall_forall in Hx |- *.
      intros y [? _]%Hin. auto.
    + intros y. rewrite elem_of_cons, Hin, elem_of_cons.
      destruct (decide (y = x)) as [->|Hyx]; [naive_solver|].
      split; [|naive_solver]. intros [?|[Hy _]]; [done|].
      split; [by right|]. intros ->.
      specialize (Hlast y eq_refl). inversion Hlast as [|? ? Hyx' _]; subst.
      rewrite Forall_forall in Hx. apply Hx in Hy. by apply Hyx, str_le_antisym.
Qed.

End uniq.

(** ** Searching and replacing *)

Section replace.

(** Reference definitions: the number of offsets at which the needle stands, and
    the replacement of its occurrences from left to right. *)
Fixpoint count_matches (needle hay : string) : nat :=
  (if String.prefix needle hay then 1 else 0) +
  match hay with "" => 0 | String _ hay' => count_matches needle hay' end.

Fixpoint replace_all (fuel : nat) (pattern substitute text : string) : string :=
  match fuel with
  | O => text
  | S fuel =>
      match strstr pattern text with
      | Some (before, m) =>
          before +:+ substitute +:+
          replace_all fuel pattern substitute (str_drop (String.length pattern) m)
      | None => text
      end
  end.

(** No proper suffix of the pattern is also a prefix of it, so that two of its
    occurrences cannot overlap. *)
Definition borderless (pattern : string) : Prop :=
  forall a q, pattern = a +:+ q -> a <> "" -> q <> "" -> String.prefix q pattern = false.

Lemma strstr_None_count needle hay :
  strstr needle hay = None <-> count_matches needle hay = 0.
Proof.
  induction hay as [|c hay IH]; cbn [strstr count_matches];
    destruct (String.prefix needle _); [done..|done|].
  cbn. rewrite <- IH. by destruct (strstr needle hay) as [[??]|].
Qed.

Lemma strstr_Some_count needle hay b c m :
  strstr needle hay = Some (b, String c m) ->
  count_matches needle hay = S (count_matches needle m).
Proof.
  revert b. induction hay as [|d hay IH]; intros b; cbn [strstr count_matches];
    destruct (String.prefix needle _) eqn:E; intros H; simplify_eq; try done.
  destruct (strstr needle hay) as [[b' m']|] eqn:E'; [|done].
  cbn in H. simplify_eq. by apply (IH b').
Qed.

Lemma strstr_cons needle hay b m :
  needle <> "" -> strstr needle hay = Some (b, m) -> exists c m', m = String c m'.
Proof.
  intros Hn [_ Hp]%strstr_Some. destruct needle, m; try done. eauto.
Qed.

Lemma str_drop_drop n m s : str_drop n (str_drop m s) = str_drop (m + n) s.
Proof.
  revert s. induction m as [|m IH]; intros s; [done|]. destruct s; cbn; [by destruct n|auto].
Qed.

(** Offsets and suffixes: a search from offset [i] of [hay] and the suffix it
    finds. *)
Lemma g_strstr_from_suffix needle hay i :
  i <= String.length hay ->
  g_strstr_from needle hay i =
    Done ((fun bm => i + String.length bm.1) <$> strstr needle (str_drop i hay)).
Proof. intros. unfold g_strstr_from. by destruct (Nat.ltb_spec (String.length hay) i); [lia|]. Qed.

Lemma strstr_offset needle hay i b m :
  strstr needle (str_drop i hay) = Some (b, m) ->
  str_drop (i + String.length b) hay = m.
Proof.
  intros [Hd _]%strstr_Some. rewrite <- str_drop_drop, Hd. by apply str_drop_app.
Qed.

Lemma str_drop_cons_lt i hay c m :
  str_drop i hay = String c m -> i < String.length hay.
Proof.
  intros H. apply (f_equal String.length) in H. rewrite str_drop_length in H.
  cbn in H. lia.
Qed.

Lemma occurence_loop_spec needle hay fuel p c m o :
  needle <> "" -> str_drop p hay = String c m -> String.length hay < p + fuel ->
  occurence_loop fuel needle hay p o = Done (o + 1 + count_matches needle m).
Proof.
  intros Hn. revert p c m o. induction fuel as [|fuel IH]; intros p c m o Hp Hf;
    pose proof (str_drop_cons_lt _ _ _ _ Hp); [lia|].
  assert (str_drop (p + 1) hay = m) as Hm by (rewrite <- str_drop_drop, Hp; done).
  cbn [occurence_loop]. rewrite g_strstr_from_suffix by lia. rewrite Hm. cbn.
  destruct (strstr needle m) as [[b m']|] eqn:Es; cbn.
  - destruct (strstr_cons _ _ _ _ Hn Es) as (c' & m'' & ->).
    rewrite (strstr_Some_count _ _ _ _ _ Es).
    rewrite (IH _ c' m''); [f_equal; lia| |lia].
    apply strstr_offset with (needle := needle). by rewrite Hm.
  - apply strstr_None_count in Es. by rewrite Es, Nat.add_0_r.
Qed.

Lemma str_occurence_count hay needle :
  needle <> "" ->
  dt_util_str_occurence (Some hay) (Some needle) = Done (count_matches needle hay).
Proof.
  intros Hn. unfold dt_util_str_occurence.
  rewrite g_strstr_from_suffix by lia. cbn [str_drop c_bind].
  destruct (strstr needle hay) as [[b m]|] eqn:Es; cbn -[occurence_loop].
  - destruct (strstr_cons _ _ _ _ Hn Es) as (c & m' & ->).
    rewrite (strstr_Some_count _ _ _ _ _ Es).
    rewrite (occurence_loop_spec _ _ _ _ c m'); [done|done| |lia].
    by apply (strstr_offset needle hay 0 b).
  - apply strstr_None_count in Es. by rewrite Es.
Qed.

Lemma prefix_of_longer q r pattern :
  String.prefix pattern (q +:+ r) = true -> String.length q <= String.length pattern ->
  String.prefix q pattern = true.
Proof.
  revert q. induction pattern as [|c p IH]; intros [|d q]; cbn; try done; [lia|].
  destruct (ascii_dec c d) as [->|]; [|done]. intros ? ?.
  destruct (ascii_dec d d); [|done]. apply IH; [done|lia].
Qed.

(** Searching behind the first byte of an occurrence finds what a search behind
    the whole occurrence finds. *)
Lemma strstr_skip_tail pattern a q r :
  borderless pattern -> pattern = a +:+ q -> a <> "" ->
  strstr pattern (q +:+ r) = prod_map (String.append q) id <$> strstr pattern r.
Proof.
  intros Hb. revert a. induction q as [|c q IH]; intros a Hp Ha.
  { cbn. by destruct (strstr pattern r) as [[??]|]. }
  cbn [strstr String.append].
  destruct (String.prefix pattern (String c (q +:+ r))) eqn:E.
  - apply (prefix_of_longer (String c q)) in E.
    + by rewrite (Hb a (String c q)) in E.
    + rewrite Hp, str_length_app. lia.
  - rewrite (IH (a +:+ String c "")).
    + by destruct (strstr pattern r) as [[??]|].
    + by rewrite str_app_assoc.
    + by intros [_ ?]%str_app_nil.
Qed.

Lemma str_take_app s t : str_take (String.length s) (s +:+ t) = s.
Proof. induction s as [|c s IH]; cbn; [done|]. by rewrite IH. Qed.

Lemma replace_all_fuel pattern substitute fuel fuel' text :
  pattern <> "" -> String.length text < fuel -> String.length text < fuel' ->
  replace_all fuel pattern substitute text = replace_all fuel' pattern substitute text.
Proof.
  intros Hp. revert fuel' text. induction fuel as [|fuel IH]; intros [|fuel'] text ? ?;
    try lia. cbn. destruct (strstr pattern text) as [[b m]|] eqn:E; [|done].
  destruct (strstr_after_length _ _ _ _ Hp E). do 2 f_equal. apply IH; lia.
Qed.

(** The reference replacement, with fuel that suffices. *)
Definition replace_ref (pattern substitute text : string) : string :=
  replace_all (S (String.length text)) pattern substitute text.

Lemma replace_ref_Some pattern substitute text b m :
  pattern <> "" -> strstr pattern text = Some (b, m) ->
  replace_ref pattern substitute text =
    b +:+ substitute +:+ replace_ref pattern substitute (str_drop (String.length pattern) m).
Proof.
  intros Hp E. unfold replace_ref at 1. cbn [replace_all]. rewrite E. do 2 f_equal.
  destruct (strstr_after_length _ _ _ _ Hp E). apply replace_all_fuel; [done|lia..].
Qed.

Lemma replace_ref_None pattern substitute text :
  strstr pattern text = None -> replace_ref pattern substitute text = text.
Proof. intros E. unfold replace_ref. cbn [replace_all]. by rewrite E. Qed.

(** Where the two searches of one turn of the loop stand: behind the match and
    behind its first byte. *)
Lemma match_offsets pattern string p b m :
  pattern <> "" -> strstr pattern (str_drop p string) = Some (b, m) ->
  exists c q r, pattern = String c q /\ m = pattern +:+ r /\
    p + String.length b + String.length pattern <= String.length string /\
    str_drop (p + String.length b + String.length pattern) string = r /\
    str_drop (p + String.length b + 1) string = q +:+ r /\
    str_take (String.length b) (str_drop p string) = b /\
    str_drop (String.length pattern) m = r.
Proof.
  intros Hne Es. pose proof (strstr_offset _ _ _ _ _ Es) as Hm.
  destruct (strstr_after_length _ _ _ _ Hne Es) as [Ht _].
  apply strstr_Some in Es as [Hd Hpre].
  destruct pattern as [|c q] eqn:Epat; [done|]. rewrite <- Epat in *.
  set (r := str_drop (String.length pattern) m) in *.
  assert (m = pattern +:+ r) as Hmr by (by apply str_prefix_drop).
  pose proof (f_equal String.length Ht) as Hlen.
  rewrite str_drop_length, !str_length_app in Hlen.
  exists c, q, r. repeat split; try done.
  - rewrite Epat in Hlen |- *. cbn in *. lia.
  - by rewrite <- str_drop_drop, Hm.
  - rewrite <- str_drop_drop, Hm, Hmr, Epat. done.
  - by rewrite Hd, str_take_app.
Qed.

(** One turn of the loop per occurrence. *)
Lemma replace_loop_spec pattern substitute string fuel p b m np :
  pattern <> "" -> borderless pattern ->
  strstr pattern (str_drop p string) = Some (b, m) ->
  String.length string < p + String.length b + fuel ->
  exists np' p',
    replace_loop fuel string pattern substitute (p + String.length b) p np = Done (np', p') /\
    p' <= String.length string /\
    np' +:+ str_drop p' string = np +:+ replace_ref pattern substitute (str_drop p string).
Proof.
  intros Hne Hb. revert p b m np. induction fuel as [|fuel IH]; intros p b m np Es Hf.
  { destruct (match_offsets _ _ _ _ _ Hne Es) as (?&?&?&_&_&?&_). lia. }
  destruct (match_offsets _ _ _ _ _ Hne Es) as (c & q & r & Epat & _ & Hle & Hr & Hq & Hbt & Hm).
  assert (String.length pattern = S (String.length q)) as Hlq by (by rewrite Epat).
  cbn [replace_loop]. unfold copy_range.
  destruct (Nat.ltb_spec (p + String.length b) p); [lia|]. cbn [c_bind].
  replace (p + String.length b - p) with (String.length b) by lia.
  rewrite Hbt, g_strstr_from_suffix by lia.
  rewrite Hq, (strstr_skip_tail _ (String c "")) by done.
  rewrite (replace_ref_Some _ _ _ _ _ Hne Es), Hm.
  destruct (strstr pattern r) as [[b' m']|] eqn:Er; cbn -[replace_ref].
  - specialize (IH (p + String.length b + String.length pattern) b' m'
      (np +:+ b +:+ substitute)).
    rewrite Hr in IH. destruct IH as (np' & p' & Hl & Hp' & Heq); [done|lia|].
    exists np', p'. split; [|split; [done|]].
    + rewrite <- Hl. f_equal. rewrite str_length_app. lia.
    + rewrite Heq. by rewrite !str_app_assoc.
  - eexists _, _. split; [done|]. split; [lia|].
    rewrite Hr, (replace_ref_None _ _ r Er). by rewrite !str_app_assoc.
Qed.

End replace.

(** ** Properties *)

(** For every non-empty separator the splitting loop of
    [dt_util_str_to_glist] ends, and [dt_util_glist_to_str] with the same
    separator gives back the text that was split. *)
Theorem str_to_glist_join sep text (Hsep : sep <> "") (Htext : text <> "") :
  exists l, dt_util_str_to_glist sep (Some text) = Some l /\
            dt_util_glist_to_str sep l = Some text.
Proof.
  destruct (str_to_glist_loop_concat sep (S (String.length text)) text Hsep) as (l & Hl & Hc & Hn);
    [lia|].
  exists l. split; [done|]. destruct l; cbn [dt_util_glist_to_str]; [naive_solver|by rewrite Hc].
Qed.

Lemma str_to_glist_join_witness :
  exists l, dt_util_str_to_glist ", " (Some "a, b,c") = Some l /\
            dt_util_glist_to_str ", " l = Some "a, b,c".
Proof. apply (str_to_glist_join ", " "a, b,c"); discriminate. Defined.

(** A comma-separated text splits into exactly the items it was joined from,
    empty items included; only the single empty item is not told apart from an
    empty list. *)
Theorem glist_to_str_split l text
    (Hl : Forall (fun s => no_comma s = true) l) (Hne : l <> [""])
    (Ht : dt_util_glist_to_str "," l = Some text) :
  dt_util_str_to_glist "," (Some text) = Some l.
Proof.
  destruct l as [|x l]; [done|]. cbn [dt_util_glist_to_str] in Ht. simplify_eq.
  apply str_to_glist_loop_split; [done..|lia].
Qed.

Lemma glist_to_str_split_witness :
  dt_util_str_to_glist "," (Some "exposure,0,,1") = Some ["exposure"; "0"; ""; "1"].
Proof.
  apply (glist_to_str_split ["exposure"; "0"; ""; "1"]);
    [repeat constructor|discriminate|reflexivity].
Defined.

(** On patterns that cannot overlap themselves [dt_util_str_replace] never
    leaves its buffers and replaces every occurrence, from left to right. *)
Theorem str_replace_correct string pattern substitute
    (Hne : pattern <> "") (Hb : borderless pattern) :
  dt_util_str_replace string pattern substitute =
    Done (replace_ref pattern substitute string).
Proof.
  unfold dt_util_str_replace. rewrite str_occurence_count by done. cbn [c_bind].
  rewrite g_strstr_from_suffix by lia. cbn [c_bind].
  destruct (strstr pattern (str_drop 0 string)) as [[b m]|] eqn:Es; cbn [fmap option_fmap option_map].
  - destruct (replace_loop_spec pattern substitute string (S (String.length string)) 0 b m "")
      as (np & p & Hl & Hp & Heq); [done..|lia|].
    cbn [str_drop] in Es. destruct (strstr_cons _ _ _ _ Hne Es) as (c & m' & ->).
    rewrite (strstr_Some_count _ _ _ _ _ Es). cbn -[replace_loop copy_range replace_ref].
    cbn -[replace_loop copy_range replace_ref] in Hl. rewrite Hl. cbn [c_bind].
    unfold copy_range. destruct (Nat.ltb_spec (String.length string) p); [lia|]. cbn [c_bind].
    cbn [String.append str_drop] in Heq. rewrite <- Heq.
    do 2 f_equal. apply str_take_all. rewrite str_drop_length. lia.
  - cbn [str_drop] in Es. rewrite (replace_ref_None _ _ _ Es).
    apply strstr_None_count in Es. by rewrite Es.
Qed.

Lemma str_replace_correct_witness :
  dt_util_str_replace "1/250 s" "/" "_" = Done "1_250 s".
Proof.
  apply (str_replace_correct "1/250 s" "/" "_"); [discriminate|].
  intros a q Hp Ha Hq. destruct a as [|c [|d a]]; [done| |].
  - cbn in Hp. by simplify_eq.
  - cbn in Hp. by simplify_eq.
Defined.

(** On a pattern that overlaps itself [dt_util_str_replace] computes a
    negative length for [memcpy]: "aaa" with pattern "aa". *)
Theorem str_replace_overlap_undefined :
  dt_util_str_replace "aaa" "aa" "b" = Undefined.
Proof. reflexivity. Qed.

(** [dt_util_glist_uniq] returns the distinct strings of its argument, each
    once and in byte order. *)
Theorem glist_uniq_spec items :
  NoDup (dt_util_glist_uniq items) /\
  StronglySorted str_le (dt_util_glist_uniq items) /\
  forall y, y ∈ dt_util_glist_uniq items <-> y ∈ items.
Proof.
  destruct (uniq_loop_spec None (g_list_sort g_strcmp0 items)) as (? & ? & Hin).
  - apply g_list_sort_Sorted; [apply _..|]. apply g_strcmp0_le.
  - done.
  - repeat split; try done; intros Hy.
    + apply Hin in Hy as [Hy _]. by rewrite g_list_sort_Permutation in Hy.
    + apply Hin. by rewrite g_list_sort_Permutation.
Qed.
