(* ===== verification/IopOrder.v ===== *)
(** The iop-order list of common/iop_order.c and common/iop_order.h: the order in
    which the processing modules stand in the pipe.

    A list of [dt_iop_order_entry_t] is a Rocq list ([NULL] is the empty list).
    The table main.module_order of the database is a [gmap] from image id to the
    row (version, iop_list). The union [o] of an entry is the member stored last;
    reading the integer member of a stored double gives the low 32 bits of its
    IEEE representation. *)

From Stdlib Require Import Ascii String.
From S2P Require Import Prelude Utility.
Local Open Scope Z_scope.

(** ** Data *)

(** [dt_iop_order_t]: an unsigned C enumeration, also loaded from the database,
    where any integer may be found. *)
Definition DT_IOP_ORDER_CUSTOM : Z := 0.
Definition DT_IOP_ORDER_LEGACY : Z := 1.
Definition DT_IOP_ORDER_V30 : Z := 2.
Definition DT_IOP_ORDER_LAST : Z := 3.

(** The 64-bit representation of a small natural number as a C [double]. *)
Definition f64_of_Z (n : Z) : Z :=
  if n =? 0 then 0
  else let e := Z.log2 n in (1023 + e) * 2 ^ 52 + (n - 2 ^ e) * 2 ^ (52 - e).

Definition f64_is_nan (b : Z) : bool := 2047 * 2 ^ 52 <? b mod 2 ^ 63.
Definition f64_rank (b : Z) : Z := if b <? 2 ^ 63 then b else - (b - 2 ^ 63).
Definition f64_ltb (a b : Z) : bool :=
  negb (f64_is_nan a) && negb (f64_is_nan b) && (f64_rank a <? f64_rank b).

Inductive order_value : Type :=
  | Order_f (bits : Z)   (* iop_order_f was stored *)
  | Order_i (v : Z).     (* iop_order was stored *)

Record dt_iop_order_entry_t := Entry {
  o : order_value;
  operation : string;
  instance : Z;
}.

Definition o_iop_order (v : order_value) : Z :=
  match v with
  | Order_f bits => wrap_s32 (bits mod 2 ^ 32)
  | Order_i v => v
  end.

(** The double member is only meaningful after it was stored. *)
Definition o_iop_order_f (v : order_value) : option Z :=
  match v with
  | Order_f bits => Some bits
  | Order_i _ => None
  end.

Definition iop_order (e : dt_iop_order_entry_t) : Z := o_iop_order (o e).

(** The stable identity of an entry. *)
Definition entry_id (e : dt_iop_order_entry_t) : string * Z := (operation e, instance e).

Definition set_iop_order (v : Z) (e : dt_iop_order_entry_t) : dt_iop_order_entry_t :=
  Entry (Order_i v) (operation e) (instance e).

Record dt_iop_order_rule_t := Rule { op_prev : string; op_next : string }.

(** A row of main.module_order, keyed by imgid. *)
Record module_order_row := Row { version : Z; iop_list : option string }.

(** ** Built-in tables *)

Definition iop_order_string : list string := ["custom"; "legacy"; "v3.0"].

Definition dt_iop_order_string (order : Z) : string :=
  let order := wrap_u32 order in
  if DT_IOP_ORDER_LAST <=? order then "???"
  else default "???" (iop_order_string !! Z.to_nat order).

Definition v30_entry (f : Z) (op : string) : dt_iop_order_entry_t :=
  Entry (Order_f (f64_of_Z f)) op 0.

Definition v30_order : list dt_iop_order_entry_t :=
  [ v30_entry 1 "rawprepare"; v30_entry 2 "temperature"; v30_entry 3 "highlights";
    v30_entry 4 "hotpixels"; v30_entry 5 "demosaic"; v30_entry 6 "rotatepixels";
    v30_entry 7 "scalepixels"; v30_entry 8 "lens"; v30_entry 9 "hazeremoval";
    v30_entry 10 "flip"; v30_entry 11 "clipping"; v30_entry 12 "spots";
    v30_entry 13 "exposure"; v30_entry 14 "mask_manager"; v30_entry 15 "negadoctor";
    v30_entry 16 "colorin"; v30_entry 17 "channelmixer"; v30_entry 18 "basecurve";
    v30_entry 19 "tonecurve"; v30_entry 20 "colorcorrection"; v30_entry 21 "vibrance";
    v30_entry 22 "grain"; v30_entry 23 "splittoning"; v30_entry 24 "vignette";
    v30_entry 25 "colorout"; v30_entry 26 "finalscale"; v30_entry 27 "overexposed";
    v30_entry 28 "borders"; v30_entry 29 "gamma"; v30_entry 0 "" ].

Definition dt_ioppr_get_iop_order_rules : list dt_iop_order_rule_t :=
  [ Rule "rawprepare" "invert"; Rule "temperature" "highlights";
    Rule "hotpixels" "rawdenoise"; Rule "rawdenoise" "demosaic";
    Rule "demosaic" "colorin"; Rule "colorin" "colorout";
    Rule "colorout" "gamma"; Rule "flip" "clipping" ].

(** [while(entries[k].operation[0])]: running off the array is undefined. *)
Fixpoint _table_to_list (entries : list dt_iop_order_entry_t)
    : c_result (list dt_iop_order_entry_t) :=
  match entries with
  | [] => Undefined
  | e :: entries' =>
      if String.eqb (operation e) "" then Done []
      else let* rest := _table_to_list entries' in
           Done (Entry (o e) (g_strlcpy 20 (operation e)) 0 :: rest)
  end.

Definition dt_ioppr_get_iop_order_list_version (version : Z)
    : c_result (list dt_iop_order_entry_t) :=
  if version =? DT_IOP_ORDER_V30 then _table_to_list v30_order else Done [].

(** ** Lookup *)

(** The link found, as the sublist that starts there; [[]] is NULL. *)
Fixpoint dt_ioppr_get_iop_order_link (l : list dt_iop_order_entry_t)
    (op_name : string) (multi_priority : Z) : list dt_iop_order_entry_t :=
  match l with
  | [] => []
  | e :: l' =>
      if String.eqb (operation e) op_name &&
         ((instance e =? multi_priority) || (multi_priority =? -1))
      then l
      else dt_ioppr_get_iop_order_link l' op_name multi_priority
  end.

Definition dt_ioppr_get_iop_order_entry (l : list dt_iop_order_entry_t)
    (op_name : string) (multi_priority : Z) : option dt_iop_order_entry_t :=
  head (dt_ioppr_get_iop_order_link l op_name multi_priority).

Definition dt_ioppr_get_iop_order (l : list dt_iop_order_entry_t)
    (op_name : string) (multi_priority : Z) : Z :=
  match dt_ioppr_get_iop_order_entry l op_name multi_priority with
  | Some e => iop_order e
  | None => INT_MAX
  end.

Definition dt_ioppr_is_iop_before (l : list dt_iop_order_entry_t)
    (base_operation op : string) (multi_priority : Z) : bool :=
  let base_order := dt_ioppr_get_iop_order l base_operation (-1) in
  let op_order := dt_ioppr_get_iop_order l op multi_priority in
  op_order <? base_order.

(** ** Sorting and numbering *)

Definition dt_sort_iop_list_by_order (a b : dt_iop_order_entry_t) : Z :=
  if iop_order a >? iop_order b then 1
  else if iop_order a <? iop_order b then -1 else 0.

Definition dt_sort_iop_list_by_order_f (a b : dt_iop_order_entry_t) : option Z :=
  fa ← o_iop_order_f (o a); fb ← o_iop_order_f (o b);
  Some (if f64_ltb fb fa then 1 else if f64_ltb fa fb then -1 else 0).

Fixpoint reset_iop_order_from (iop_order : Z) (l : list dt_iop_order_entry_t)
    : list dt_iop_order_entry_t :=
  match l with
  | [] => []
  | e :: l' => set_iop_order iop_order e :: reset_iop_order_from (iop_order + 1) l'
  end.

Definition _ioppr_reset_iop_order (l : list dt_iop_order_entry_t) :=
  reset_iop_order_from 1 l.

(** [_dup_iop_order_entry] through [g_list_copy_deep]. *)
Definition _dup_iop_order_entry (e : dt_iop_order_entry_t) : dt_iop_order_entry_t :=
  Entry (o e) (operation e) (instance e).
Definition dt_ioppr_iop_order_copy_deep (l : list dt_iop_order_entry_t) :=
  map _dup_iop_order_entry l.

(** ** Classification *)

(** The outer [while]; [skip] is the operation whose further instances the inner
    [while] steps over, [k] the index into [v30_order]. *)
Fixpoint kind_loop (k : nat) (skip : option string) (l : list dt_iop_order_entry_t)
    : c_result bool :=
  match l with
  | [] => Done true
  | e :: l' =>
      if (match skip with Some op => String.eqb op (operation e) | None => false end)
      then kind_loop k skip l'
      else match v30_order !! k with
           | None => Undefined
           | Some v =>
               if negb (String.eqb (operation v) (operation e)) then Done false
               else kind_loop (S k) (Some (operation v)) l'
           end
  end.

Definition dt_ioppr_get_iop_order_list_kind (l : list dt_iop_order_entry_t) : c_result Z :=
  let* ok := kind_loop 0 None l in
  Done (if ok then DT_IOP_ORDER_V30 else DT_IOP_ORDER_CUSTOM).

Fixpoint dt_ioppr_has_multiple_instances (l : list dt_iop_order_entry_t) : bool :=
  match l with
  | e :: ((e' :: _) as next) =>
      if String.eqb (operation e) (operation e') then true
      else dt_ioppr_has_multiple_instances next
  | _ => false
  end.

(** Every module_so (by its operation name) must have a base entry. *)
Fixpoint dt_ioppr_check_so_iop_order (ops : list string) (l : list dt_iop_order_entry_t) : Z :=
  match ops with
  | [] => 0
  | op :: ops' =>
      let iop_order_missing := dt_ioppr_check_so_iop_order ops' l in
      match dt_ioppr_get_iop_order_entry l op 0 with
      | None => 1
      | Some _ => iop_order_missing
      end
  end.

(** ** Text form *)

Fixpoint dt_ioppr_serialize_text_iop_order_list (l : list dt_iop_order_entry_t) : string :=
  match l with
  | [] => ""
  | e :: l' =>
      g_strlcpy 64 (operation e +:+ "," +:+ c_show_int (instance e) +:+
                    (if l' is [] then "" else ",")) +:+
      dt_ioppr_serialize_text_iop_order_list l'
  end.

(** A dereferenced NULL link when the list is empty. *)
Definition _ioppr_sanity_check_iop_order (l : list dt_iop_order_entry_t) : c_result bool :=
  match head l, last l with
  | Some first, Some last =>
      Done (String.eqb (operation first) "rawprepare" && String.eqb (operation last) "gamma")
  | _, _ => Undefined
  end.

(** The pairing loop; [None] is the jump to the error label. *)
Fixpoint text_entries (items : list string)
    : c_result (option (list dt_iop_order_entry_t)) :=
  match items with
  | [] => Done (Some [])
  | [_] => Done None
  | name :: data :: items' =>
      let* inst := sscanf_int data in
      let e := Entry (Order_i 0) (g_strlcpy 20 name) (default 0 inst) in
      let* rest := text_entries items' in
      Done (cons e <$> rest)
  end.

Definition dt_ioppr_deserialize_text_iop_order_list (buf : string)
    : c_result (list dt_iop_order_entry_t) :=
  match dt_util_str_to_glist "," (Some buf) with
  | None => Undefined
  | Some items =>
      let* entries := text_entries items in
      match entries with
      | None => Done []
      | Some l =>
          let l := _ioppr_reset_iop_order l in
          let* ok := _ioppr_sanity_check_iop_order l in
          Done (if (ok : bool) then l else [])
      end
  end.

(** ** Binary form *)

Fixpoint dt_ioppr_serialize_iop_order_list (l : list dt_iop_order_entry_t) : list ascii :=
  match l with
  | [] => []
  | e :: l' =>
      let name := String.list_ascii_of_string (operation e) in
      store_s32 (Z.of_nat (length name)) ++ name ++ store_s32 (instance e) ++
      dt_ioppr_serialize_iop_order_list l'
  end.

(** [n] bytes at [buf]; reading past the buffer is undefined. *)
Definition read_bytes (n : nat) (buf : list ascii) : c_result (list ascii * list ascii) :=
  if (length buf <? n)%nat then Undefined else Done (take n buf, drop n buf).

(** The [while(size)] loop. [size] is a [size_t]: taking off more than is left
    wraps around. A name of 20 bytes passes the check and its terminator is
    written behind operation[20]. [Done None] is the error label. *)
Fixpoint deserialize_loop (fuel : nat) (buf : list ascii) (size : Z)
    : c_result (option (list dt_iop_order_entry_t)) :=
  match fuel with
  | O => Undefined
  | S fuel =>
      if size =? 0 then Done (Some [])
      else
        let* (lenb, buf) := read_bytes 4 buf in
        let len := load_s32 lenb in
        if (len <? 0) || (len >? 20) then Done None
        else
          let* (name, buf) := read_bytes (Z.to_nat len) buf in
          if len =? 20 then Undefined
          else
            let* (instb, buf) := read_bytes 4 buf in
            let inst := load_s32 instb in
            if (inst <? 0) || (inst >? 1000) then Done None
            else
              let* rest := deserialize_loop fuel buf (wrap_u64 (size - (8 + len))) in
              Done (cons (Entry (Order_i 0) (c_string name) inst) <$> rest)
  end.

(** Every turn reads at least 8 bytes, so the length of the buffer is enough
    fuel. *)
Definition dt_ioppr_deserialize_iop_order_list (buf : list ascii) (size : Z)
    : c_result (list dt_iop_order_entry_t) :=
  let* entries := deserialize_loop (S (length buf)) buf size in
  Done (match entries with Some l => _ioppr_reset_iop_order l | None => [] end).

(** ** The database *)

Abbreviation module_order := (gmap Z module_order_row).

Definition dt_ioppr_get_iop_order_version (db : module_order) (imgid : Z) : Z :=
  match db !! imgid with
  | Some row => wrap_u32 (version row)
  | None => DT_IOP_ORDER_V30
  end.

(** [step i] tells whether the [i]-th statement runs to SQLITE_DONE; a failed
    statement leaves the table alone. *)
Definition dt_ioppr_write_iop_order (step : nat -> bool) (kind : Z)
    (l : list dt_iop_order_entry_t) (imgid : Z) (db : module_order) : bool * module_order :=
  if negb (step 0%nat) then (false, db)
  else
    let db := <[imgid := Row 0 None]> db in
    let row :=
      if (kind =? DT_IOP_ORDER_CUSTOM) || dt_ioppr_has_multiple_instances l
      then Row kind (Some (dt_ioppr_serialize_text_iop_order_list l))
      else Row kind None in
    if negb (step 1%nat) then (false, db)
    else (true, <[imgid := row]> db).

Definition dt_ioppr_write_iop_order_list (step : nat -> bool)
    (l : list dt_iop_order_entry_t) (imgid : Z) (db : module_order)
    : c_result (bool * module_order) :=
  let* kind := dt_ioppr_get_iop_order_list_kind l in
  Done (dt_ioppr_write_iop_order step kind l imgid db).

(** The list built from a row of the table, before any fallback. *)
Definition list_of_row (row : module_order_row) : c_result (list dt_iop_order_entry_t) :=
  let version := wrap_u32 (version row) in
  let has_iop_list := if iop_list row is Some _ then true else false in
  let* l :=
    if (version =? DT_IOP_ORDER_CUSTOM) || has_iop_list then
      match iop_list row with
      | Some buf => dt_ioppr_deserialize_text_iop_order_list buf
      | None => Done []
      end
    else if version =? DT_IOP_ORDER_V30 then _table_to_list v30_order
    else Done [] in
  Done (if l is [] then [] else _ioppr_reset_iop_order l).

Definition dt_ioppr_get_iop_order_list (db : module_order) (imgid : Z) (sorted : bool)
    : c_result (list dt_iop_order_entry_t) :=
  let* l :=
    if imgid >? 0 then
      match db !! imgid with
      | Some row => list_of_row row
      | None => Done []
      end
    else Done [] in
  let* l := if l is [] then _table_to_list v30_order else Done l in
  Done (if sorted then g_list_sort dt_sort_iop_list_by_order l else l).

(** ** Lemmas: numbering *)

Section numbering.

Lemma reset_from_ids n l : map entry_id (reset_iop_order_from n l) = map entry_id l.
Proof. revert n. induction l; intros n; cbn; [done|]. by rewrite IHl. Qed.

Lemma reset_from_eq n l l' :
  map entry_id l = map entry_id l' -> reset_iop_order_from n l = reset_iop_order_from n l'.
Proof.
  revert n l'. induction l as [|e l IH]; intros n [|e' l'] H; cbn in *; try done.
  unfold entry_id in H. simplify_eq. f_equal; [|by apply IH].
  unfold set_iop_order. by f_equal.
Qed.

Lemma length_reset_from n l : length (reset_iop_order_from n l) = length l.
Proof. revert n. induction l; intros n; cbn; [done|]. by rewrite IHl. Qed.

Lemma reset_from_lookup n l i e :
  reset_iop_order_from n l !! i = Some e -> iop_order e = n + Z.of_nat i.
Proof.
  revert n i. induction l as [|x l IH]; intros n [|i] H; cbn in *; simplify_eq; [cbn; lia|].
  apply IH in H. lia.
Qed.

Lemma reset_from_Sorted n l : StronglySorted (key_le iop_order) (reset_iop_order_from n l).
Proof.
  revert n. induction l as [|e l IH]; intros n; cbn; constructor; [done|].
  apply Forall_lookup. intros i x Hx%reset_from_lookup. unfold key_le.
  rewrite Hx. cbn. lia.
Qed.

Lemma sort_by_order_le a b :
  dt_sort_iop_list_by_order a b <= 0 <-> key_le iop_order a b.
Proof.
  unfold dt_sort_iop_list_by_order, key_le. rewrite Z.gtb_ltb. split_ifs; bool_to_prop; lia.
Qed.

Lemma sort_reset l :
  g_list_sort dt_sort_iop_list_by_order (_ioppr_reset_iop_order l) = _ioppr_reset_iop_order l.
Proof.
  eapply g_list_sort_id; [apply _|apply sort_by_order_le|apply reset_from_Sorted].
Qed.

End numbering.

(** ** Lemmas: positions *)

Section positions.

(** Reference: the index of the first entry for an operation and instance. *)
Definition matches_id (op : string) (mp : Z) (e : dt_iop_order_entry_t) : Prop :=
  operation e = op /\ (instance e = mp \/ mp = -1).

#[export] Instance matches_id_dec op mp e : Decision (matches_id op mp e).
Proof. unfold matches_id. apply _. Defined.

Definition position (l : list dt_iop_order_entry_t) (op : string) (mp : Z) : option nat :=
  fst <$> list_find (matches_id op mp) l.

Lemma get_iop_order_position n l op mp :
  dt_ioppr_get_iop_order (reset_iop_order_from n l) op mp =
    match position l op mp with Some i => n + Z.of_nat i | None => INT_MAX end.
Proof.
  unfold position, dt_ioppr_get_iop_order, dt_ioppr_get_iop_order_entry.
  revert n. induction l as [|e l IH]; intros n; [done|].
  cbn [reset_iop_order_from dt_ioppr_get_iop_order_link list_find].
  change (operation (set_iop_order n e)) with (operation e).
  change (instance (set_iop_order n e)) with (instance e).
  destruct (decide (matches_id op mp e)) as [[Ho Hi]|Hn].
  - rewrite Ho, String.eqb_refl.
    assert ((instance e =? mp) || (mp =? -1) = true) as -> by lia. cbn. lia.
  - assert (String.eqb (operation e) op && ((instance e =? mp) || (mp =? -1)) = false) as ->.
    { destruct (String.eqb_spec (operation e) op); [|done]. cbn.
      apply not_true_is_false. intros [?|?]%orb_prop; apply Hn; split; auto; lia. }
    rewrite IH. destruct (list_find _ l) as [[i x]|]; cbn; [lia|done].
Qed.

Lemma position_lt l op mp i : position l op mp = Some i -> (i < length l)%nat.
Proof.
  unfold position. destruct (list_find _ l) as [[j x]|] eqn:E; cbn; [|done].
  intros [= <-]. apply list_find_Some in E as [E _]. by apply lookup_lt_Some in E.
Qed.

End positions.

(** ** Lemmas: the v3.0 table *)

Section v30.

Definition v30_names : list string := map operation (take 29 v30_order).

Definition v30_list : list dt_iop_order_entry_t := take 29 v30_order.

Lemma table_to_list_v30 : _table_to_list v30_order = Done v30_list.
Proof. reflexivity. Qed.

(** Reference: the runs of equal names, each once. *)
Fixpoint runs (skip : option string) (l : list string) : list string :=
  match l with
  | [] => []
  | x :: l' => if decide (skip = Some x) then runs skip l' else x :: runs (Some x) l'
  end.

Lemma v30_names_lookup k :
  (k <= 29)%nat ->
  exists v, v30_order !! k = Some v /\
    drop k v30_names = if decide (k = 29)%nat then [] else operation v :: drop (S k) v30_names.
Proof. intros Hk. do 30 (destruct k as [|k]; [by eexists|]). lia. Qed.

Lemma v30_terminator v : v30_order !! 29%nat = Some v -> operation v = "".
Proof. by intros [= <-]. Qed.

Lemma kind_loop_runs l k skip :
  (k <= 29)%nat -> Forall (fun e => operation e <> "") l ->
  kind_loop k skip l =
    Done (bool_decide (runs skip (map operation l) `prefix_of` drop k v30_names)).
Proof.
  revert k skip. induction l as [|e l IH]; intros k skip Hk Hl.
  { cbn. by rewrite bool_decide_eq_true_2 by apply prefix_nil. }
  inversion_clear Hl as [|? ? He Hl']. cbn [kind_loop map runs].
  destruct (match skip with Some _ => _ | None => _ end) eqn:Es.
  { destruct skip as [op|]; [|done]. apply String.eqb_eq in Es as ->.
    rewrite decide_True by done. by apply IH. }
  rewrite decide_False by (intros ->; by rewrite String.eqb_refl in Es).
  destruct (v30_names_lookup k Hk) as (v & Hv & Hd). rewrite Hv, Hd.
  destruct (decide (k = 29)%nat) as [->|Hk'].
  { rewrite (v30_terminator _ Hv). destruct (String.eqb_spec "" (operation e)); [congruence|].
    cbn. rewrite bool_decide_eq_false_2; [done|]. by intros ?%prefix_nil_inv. }
  destruct (String.eqb_spec (operation v) (operation e)) as [Heq|Hne]; cbn [negb].
  - rewrite Heq, IH by (done || lia). f_equal. apply bool_decide_ext. split.
    + apply prefix_cons.
    + apply prefix_cons_inv_2.
  - rewrite bool_decide_eq_false_2; [done|]. intros ?%prefix_cons_inv_1. congruence.
Qed.

Lemma runs_no_multiple skip l :
  dt_ioppr_has_multiple_instances l = false ->
  (forall e, head l = Some e -> skip <> Some (operation e)) ->
  runs skip (map operation l) = map operation l.
Proof.
  revert skip. induction l as [|e l IH]; intros skip Hm Hs; [done|]. cbn [map runs].
  rewrite decide_False by by apply Hs. f_equal. destruct l as [|e' l]; [done|].
  cbn [dt_ioppr_has_multiple_instances] in Hm.
  destruct (String.eqb_spec (operation e) (operation e')); [done|].
  apply IH; [done|]. intros ? [= <-]. congruence.
Qed.

Lemma v30_gamma i : v30_names !! i = Some "gamma" -> i = 28%nat.
Proof. do 29 (destruct i as [|i]; [done|]). done. Qed.

(** Only the whole table ends with gamma. *)
Lemma v30_prefix_gamma ops :
  ops `prefix_of` v30_names -> last ops = Some "gamma" -> ops = v30_names.
Proof.
  intros [k Hk] Hl. rewrite last_lookup in Hl.
  assert (v30_names !! pred (length ops) = Some "gamma") as Hg
    by (rewrite Hk; by apply lookup_app_l_Some).
  apply v30_gamma in Hg. assert (length ops = 29%nat) as Hlen by lia.
  assert (k = []) as ->; [|by rewrite app_nil_r in Hk].
  apply (f_equal length) in Hk. rewrite length_app, Hlen in Hk.
  cbn in Hk. destruct k; [done|cbn in Hk; lia].
Qed.

End v30.

(** ** Lemmas: the two serialised forms *)

Section serialise.

(** What the database can hold: a name that fits operation[20] and has neither
    the separator nor a NUL in it, and an instance number. *)
Definition wf_name (op : string) : bool :=
  negb (String.eqb op "") && (String.length op <=? 19)%nat && no_comma op
  && str_forall (not_char NUL) op.

Definition wf_entry (max_instance : Z) (e : dt_iop_order_entry_t) : bool :=
  wf_name (operation e) && (0 <=? instance e) && (instance e <=? max_instance).

Lemma wf_entry_spec mx e :
  wf_entry mx e = true ->
  operation e <> "" /\ (String.length (operation e) <= 19)%nat /\
  no_comma (operation e) = true /\ str_forall (not_char NUL) (operation e) = true /\
  0 <= instance e <= mx.
Proof.
  unfold wf_entry, wf_name. intros H. bool_to_prop.
  repeat split; try done. by apply Nat.leb_le.
Qed.

(** The items of the comma-separated text. *)
Definition text_items (l : list dt_iop_order_entry_t) : list string :=
  l ≫= fun e => [operation e; c_show_int (instance e)].

Lemma serialize_text_concat l :
  Forall (fun e => wf_entry INT_MAX e = true) l ->
  dt_ioppr_serialize_text_iop_order_list l = String.concat "," (text_items l).
Proof.
  induction 1 as [|e l He Hl IH]; [done|].
  apply wf_entry_spec in He as (_ & Hlen & _ & _ & Hi).
  pose proof (show_length (instance e) 9 ltac:(unfold INT_MAX in Hi; cbn; lia)).
  cbn [dt_ioppr_serialize_text_iop_order_list]. unfold g_strlcpy.
  rewrite str_take_all; [rewrite IH|].
  - destruct l as [|e' l]; [cbn; by rewrite !str_app_nil_r|].
    rewrite !str_app_assoc. reflexivity.
  - rewrite !str_length_app. cbn [String.length]. destruct l; cbn [String.length]; lia.
Qed.

Lemma text_entries_items l :
  Forall (fun e => wf_entry INT_MAX e = true) l ->
  text_entries (text_items l) = Done (Some (map (set_iop_order 0) l)).
Proof.
  induction 1 as [|e l He Hl IH]; [done|].
  apply wf_entry_spec in He as (_ & Hlen & _ & _ & Hi).
  change (text_items (e :: l)) with (operation e :: c_show_int (instance e) :: text_items l).
  cbn [text_entries]. rewrite sscanf_show_int by (unfold INT_MAX in *; lia). cbn [c_bind].
  rewrite IH. unfold g_strlcpy. rewrite str_take_all by (cbn; lia). done.
Qed.

Lemma text_items_no_comma l :
  Forall (fun e => wf_entry INT_MAX e = true) l ->
  Forall (fun s => no_comma s = true) (text_items l).
Proof.
  induction 1 as [|e l He Hl IH]; [constructor|].
  apply wf_entry_spec in He as (_ & _ & Hc & _ & Hi). cbn.
  constructor; [done|]. constructor; [|done]. apply show_nonneg_no_comma. lia.
Qed.

Lemma text_items_ne l : text_items l <> [""].
Proof. by destruct l as [|e l]. Qed.

Lemma deserialize_text_serialize l :
  Forall (fun e => wf_entry INT_MAX e = true) l ->
  dt_ioppr_deserialize_text_iop_order_list (dt_ioppr_serialize_text_iop_order_list l) =
    (let* ok := _ioppr_sanity_check_iop_order (_ioppr_reset_iop_order l) in
     Done (if (ok : bool) then _ioppr_reset_iop_order l else [])).
Proof.
  intros Hl. unfold dt_ioppr_deserialize_text_iop_order_list, dt_util_str_to_glist.
  rewrite serialize_text_concat by done.
  rewrite str_to_glist_loop_split;
    [|by apply text_items_no_comma|apply text_items_ne|lia].
  rewrite text_entries_items by done. cbn [c_bind].
  unfold _ioppr_reset_iop_order.
  by rewrite (reset_from_eq 1 (map (set_iop_order 0) l) l) by by rewrite map_map.
Qed.

Lemma read_bytes_app bs rest : read_bytes (length bs) (bs ++ rest) = Done (bs, rest).
Proof.
  unfold read_bytes. rewrite length_app.
  destruct (Nat.ltb_spec (length bs + length rest) (length bs)); [lia|].
  by rewrite take_app_length, drop_app_length.
Qed.

Lemma read_store z rest : read_bytes 4 (store_s32 z ++ rest) = Done (store_s32 z, rest).
Proof. apply (read_bytes_app (store_s32 z)). Qed.

Lemma length_serialize_cons e l :
  length (dt_ioppr_serialize_iop_order_list (e :: l)) =
    (8 + String.length (operation e) + length (dt_ioppr_serialize_iop_order_list l))%nat.
Proof.
  cbn [dt_ioppr_serialize_iop_order_list].
  rewrite !length_app, length_list_ascii. unfold store_s32. rewrite !length_le_split. lia.
Qed.

Lemma deserialize_loop_serialize l fuel :
  Forall (fun e => wf_entry 1000 e = true) l ->
  Z.of_nat (length (dt_ioppr_serialize_iop_order_list l)) < 2 ^ 64 ->
  (length (dt_ioppr_serialize_iop_order_list l) < fuel)%nat ->
  deserialize_loop fuel (dt_ioppr_serialize_iop_order_list l)
      (Z.of_nat (length (dt_ioppr_serialize_iop_order_list l))) =
    Done (Some (map (set_iop_order 0) l)).
Proof.
  intros Hl. revert fuel. induction Hl as [|e l He Hl IH]; intros fuel Hs Hf;
    (destruct fuel as [|fuel]; [lia|]); [done|].
  rewrite length_serialize_cons in *.
  apply wf_entry_spec in He as (_ & Hlen & _ & Hnul & Hi).
  cbn [deserialize_loop].
  destruct (Z.eqb_spec (Z.of_nat (8 + String.length (operation e) +
    length (dt_ioppr_serialize_iop_order_list l))) 0); [lia|].
  cbn [dt_ioppr_serialize_iop_order_list]. rewrite read_store. cbn [c_bind].
  rewrite load_store_s32 by (rewrite length_list_ascii; lia). rewrite Z.gtb_ltb.
  assert ((Z.of_nat (length (String.list_ascii_of_string (operation e))) <? 0) ||
    (20 <? Z.of_nat (length (String.list_ascii_of_string (operation e)))) = false) as ->
    by (rewrite length_list_ascii; lia).
  rewrite Nat2Z.id, read_bytes_app. cbn [c_bind].
  destruct (Z.eqb_spec (Z.of_nat (length (String.list_ascii_of_string (operation e)))) 20);
    [rewrite length_list_ascii in *; lia|].
  rewrite read_store. cbn [c_bind]. rewrite load_store_s32 by lia. rewrite Z.gtb_ltb.
  assert ((instance e <? 0) || (1000 <? instance e) = false) as -> by lia.
  rewrite length_list_ascii.
  replace (wrap_u64 _) with (Z.of_nat (length (dt_ioppr_serialize_iop_order_list l))).
  - rewrite IH by lia. cbn. by rewrite c_string_list.
  - rewrite wrap_u64_id; lia.
Qed.

End serialise.

Section database.

Lemma sanity_nonempty l : _ioppr_sanity_check_iop_order l = Done true -> l <> [].
Proof. by intros H ->. Qed.

Lemma deserialize_text_valid l :
  Forall (fun e => wf_entry INT_MAX e = true) l ->
  _ioppr_sanity_check_iop_order l = Done true ->
  dt_ioppr_deserialize_text_iop_order_list (dt_ioppr_serialize_text_iop_order_list l) =
    Done (_ioppr_reset_iop_order l).
Proof.
  intros Hwf Hok.   rewrite deserialize_text_serialize by done.
  assert (_ioppr_sanity_check_iop_order (_ioppr_reset_iop_order l) = Done true) as ->; [|done].
  rewrite <- Hok. unfold _ioppr_sanity_check_iop_order, _ioppr_reset_iop_order.
  assert (operation <$> head (reset_iop_order_from 1 l) = operation <$> head l) as Hh
    by (by destruct l).
  assert (operation <$> last (reset_iop_order_from 1 l) = operation <$> last l) as Hl.
  { rewrite <- !fmap_last. f_equal.
    pose proof (f_equal (map fst) (reset_from_ids 1 l)) as H. rewrite !map_map in H.
    exact H. }
  destruct (head l), (head _), (last l), (last _); cbn in *; congruence.
Qed.

Lemma reset_nonempty l :
  l <> [] -> (if _ioppr_reset_iop_order l is [] then [] else
    _ioppr_reset_iop_order (_ioppr_reset_iop_order l)) = _ioppr_reset_iop_order l.
Proof.
  intros Hl. assert (_ioppr_reset_iop_order (_ioppr_reset_iop_order l) = _ioppr_reset_iop_order l)
    as -> by (apply reset_from_eq, reset_from_ids).
  by destruct l.
Qed.

Lemma list_of_row_text l kind :
  Forall (fun e => wf_entry INT_MAX e = true) l ->
  _ioppr_sanity_check_iop_order l = Done true ->
  list_of_row (Row kind (Some (dt_ioppr_serialize_text_iop_order_list l))) =
    Done (_ioppr_reset_iop_order l).
Proof.
  intros Hwf Hok. unfold list_of_row. cbn [version iop_list]. rewrite orb_true_r.
  rewrite deserialize_text_valid by done. cbn [c_bind].
  by rewrite reset_nonempty by by apply sanity_nonempty.
Qed.

Lemma base_ids l :
  Forall (fun e => instance e = 0) l -> map entry_id l = map (fun op => (op, 0)) (map operation l).
Proof. induction 1 as [|e l He Hl IH]; [done|]. cbn [map]. rewrite IH. unfold entry_id at 1. by rewrite He. Qed.

Lemma list_of_row_v30 l :
  _ioppr_sanity_check_iop_order l = Done true ->
  runs None (map operation l) `prefix_of` v30_names ->
  dt_ioppr_has_multiple_instances l = false -> Forall (fun e => instance e = 0) l ->
  list_of_row (Row DT_IOP_ORDER_V30 None) = Done (_ioppr_reset_iop_order l).
Proof.
  intros Hok Hruns Hm Hinst. rewrite runs_no_multiple in Hruns by done.
  assert (map operation l = v30_names) as Hops.
  { apply v30_prefix_gamma; [done|]. unfold _ioppr_sanity_check_iop_order in Hok.
    change (map operation l) with (operation <$> l). rewrite fmap_last.
    destruct (head l), (last l); try done. cbn. injection Hok as Hok. bool_to_prop. congruence. }
  unfold list_of_row. cbn [version iop_list].
  change ((wrap_u32 DT_IOP_ORDER_V30 =? DT_IOP_ORDER_CUSTOM) || false) with false.
  change (wrap_u32 DT_IOP_ORDER_V30 =? DT_IOP_ORDER_V30) with true. cbv iota.
  rewrite table_to_list_v30. cbn [c_bind]. f_equal.
  change (if v30_list is [] then [] else _ioppr_reset_iop_order v30_list)
    with (_ioppr_reset_iop_order v30_list).
  apply reset_from_eq. rewrite (base_ids l), Hops by done. reflexivity.
Qed.

Lemma get_list_of_row db imgid sorted row l :
  0 < imgid -> l <> [] -> db !! imgid = Some row ->
  list_of_row row = Done (_ioppr_reset_iop_order l) ->
  dt_ioppr_get_iop_order_list db imgid sorted = Done (_ioppr_reset_iop_order l).
Proof.
  intros Himg Hl Hrow Hr. unfold dt_ioppr_get_iop_order_list.
  destruct (Z.gtb_spec imgid 0); [|lia]. rewrite Hrow, Hr. cbn [c_bind].
  assert (_ioppr_reset_iop_order l <> []) as Hl' by (by destruct l).
  destruct (_ioppr_reset_iop_order l) eqn:E; [done|]. cbn [c_bind]. rewrite <- E.
  by rewrite sort_reset; destruct sorted.
Qed.

End database.

(** ** Properties *)

(** C11: the text form loses nothing: for every list the database can hold that
    starts with rawprepare and ends with gamma, deserialising what
    [dt_ioppr_serialize_text_iop_order_list] wrote gives the same modules and
    instances in the same order, numbered from 1. *)
Theorem text_round_trip l
    (Hwf : Forall (fun e => wf_entry INT_MAX e = true) l)
    (Hok : _ioppr_sanity_check_iop_order l = Done true) :
  dt_ioppr_deserialize_text_iop_order_list (dt_ioppr_serialize_text_iop_order_list l) =
    Done (_ioppr_reset_iop_order l).
Proof. by apply deserialize_text_valid. Qed.

Definition round_trip_example : list dt_iop_order_entry_t :=
  [Entry (Order_i 7) "rawprepare" 0; Entry (Order_i 9) "exposure" 1;
   Entry (Order_i 3) "exposure" 0; Entry (Order_i 5) "gamma" 0].

Lemma text_round_trip_witness :
  dt_ioppr_deserialize_text_iop_order_list "rawprepare,0,exposure,1,exposure,0,gamma,0" =
    Done (_ioppr_reset_iop_order round_trip_example).
Proof.
  apply (text_round_trip round_trip_example); [repeat constructor|reflexivity].
Defined.

(** The binary form loses nothing: deserialising the blob that
    [dt_ioppr_serialize_iop_order_list] wrote reads it to its last byte and gives
    the same modules and instances in the same order, numbered from 1. *)
Theorem binary_round_trip l
    (Hwf : Forall (fun e => wf_entry 1000 e = true) l)
    (Hsize : Z.of_nat (length (dt_ioppr_serialize_iop_order_list l)) < 2 ^ 64) :
  dt_ioppr_deserialize_iop_order_list (dt_ioppr_serialize_iop_order_list l)
      (Z.of_nat (length (dt_ioppr_serialize_iop_order_list l))) =
    Done (_ioppr_reset_iop_order l).
Proof.
  unfold dt_ioppr_deserialize_iop_order_list.
  rewrite deserialize_loop_serialize by (done || lia). cbn [c_bind].
  f_equal. apply reset_from_eq. by rewrite map_map.
Qed.

Lemma binary_round_trip_witness :
  dt_ioppr_deserialize_iop_order_list
      (dt_ioppr_serialize_iop_order_list round_trip_example) 63 =
    Done (_ioppr_reset_iop_order round_trip_example).
Proof. apply (binary_round_trip round_trip_example); [repeat constructor|reflexivity]. Defined.

(** The length check of [dt_ioppr_deserialize_iop_order_list] admits names of
    20 bytes although operation[20] has no room for their terminator: whatever
    follows such a name, the function writes behind the array. *)
Theorem binary_name_of_20_overflows name rest size
    (Hname : length name = 20%nat) (Hsize : size <> 0) :
  dt_ioppr_deserialize_iop_order_list (store_s32 20 ++ name ++ rest) size = Undefined.
Proof.
  unfold dt_ioppr_deserialize_iop_order_list. cbn [deserialize_loop].
  destruct (Z.eqb_spec size 0); [done|]. rewrite read_store. cbn [c_bind].
  change (load_s32 (store_s32 20)) with 20. cbn [Z.ltb Z.gtb Z.compare Pos.compare orb].
  change (Z.to_nat 20) with 20%nat. rewrite <- Hname, read_bytes_app. done.
Qed.

Lemma binary_name_of_20_overflows_witness :
  dt_ioppr_deserialize_iop_order_list
    (store_s32 20 ++ String.list_ascii_of_string "twenty_letters_name_" ++ store_s32 0) 28
    = Undefined.
Proof. apply binary_name_of_20_overflows; [reflexivity|discriminate]. Defined.

(** A list is classified as the built-in v3.0 order exactly when its module
    names, with the adjacent instances of one module counted once, are an initial
    part of the v3.0 table; every other list is custom. *)
Theorem list_kind_spec l (Hl : Forall (fun e => operation e <> "") l) :
  dt_ioppr_get_iop_order_list_kind l =
    Done (if decide (runs None (map operation l) `prefix_of` v30_names)
          then DT_IOP_ORDER_V30 else DT_IOP_ORDER_CUSTOM).
Proof.
  unfold dt_ioppr_get_iop_order_list_kind.
  rewrite kind_loop_runs by (done || lia). cbn [c_bind drop].
  by case_bool_decide; case_decide.
Qed.

Lemma list_kind_spec_witness :
  dt_ioppr_get_iop_order_list_kind round_trip_example = Done DT_IOP_ORDER_CUSTOM.
Proof. apply (list_kind_spec round_trip_example). repeat constructor; discriminate. Defined.

(** What [dt_ioppr_write_iop_order_list] stores for an image is what
    [dt_ioppr_get_iop_order_list] reads back for it, sorted or not: the same
    modules and instances in the same order, numbered from 1. A list in plain
    v3.0 order is stored without its text, so its instances must be the base
    ones. *)
Theorem db_round_trip l imgid db sorted step
    (Hwf : Forall (fun e => wf_entry INT_MAX e = true) l)
    (Hok : _ioppr_sanity_check_iop_order l = Done true)
    (Himg : 0 < imgid)
    (Hstep : step 0%nat = true /\ step 1%nat = true)
    (Hbase : dt_ioppr_get_iop_order_list_kind l = Done DT_IOP_ORDER_CUSTOM \/
             dt_ioppr_has_multiple_instances l = true \/
             Forall (fun e => instance e = 0) l) :
  exists db', dt_ioppr_write_iop_order_list step l imgid db = Done (true, db') /\
    dt_ioppr_get_iop_order_list db' imgid sorted = Done (_ioppr_reset_iop_order l).
Proof.
  assert (Forall (fun e => operation e <> "") l) as Hne
    by (eapply Forall_impl; [exact Hwf|]; intros e He; by apply wf_entry_spec in He as [??]).
  destruct Hstep as [H0 H1].
  unfold dt_ioppr_write_iop_order_list, dt_ioppr_write_iop_order. rewrite H0, H1. cbn [negb].
  unfold dt_ioppr_get_iop_order_list_kind in *. rewrite kind_loop_runs in * by (done || lia).
  cbn [c_bind drop] in *. eexists. split; [done|]. rewrite insert_insert_eq.
  eapply get_list_of_row; [done|by apply sanity_nonempty|apply lookup_insert_eq|].
  case_bool_decide as Hruns; [|by apply list_of_row_text].
  destruct (dt_ioppr_has_multiple_instances l) eqn:Hm; [by apply list_of_row_text|].
  apply list_of_row_v30; [done..|]. by destruct Hbase as [?|[?|?]].
Qed.

Lemma db_round_trip_witness :
  exists db', dt_ioppr_write_iop_order_list (fun _ => true) round_trip_example 12 ∅ = Done (true, db') /\
    dt_ioppr_get_iop_order_list db' 12 true = Done (_ioppr_reset_iop_order round_trip_example).
Proof.
  apply (db_round_trip round_trip_example 12 ∅ true (fun _ => true));
    [repeat constructor|reflexivity|reflexivity|split; reflexivity|right; left; reflexivity].
Defined.

(** An iop-list of zero length in the database (or in a sidecar, which is
    read through the same function) makes the sanity check dereference a NULL
    list, before any fallback to the built-in order. *)
Theorem empty_text_undefined db imgid sorted v (Himg : 0 < imgid) :
  dt_ioppr_get_iop_order_list (<[imgid := Row v (Some "")]> db) imgid sorted = Undefined.
Proof.
  unfold dt_ioppr_get_iop_order_list. destruct (Z.gtb_spec imgid 0); [|lia].
  rewrite lookup_insert_eq. unfold list_of_row. cbn [version iop_list]. by rewrite orb_true_r.
Qed.

Lemma empty_text_undefined_witness :
  dt_ioppr_get_iop_order_list (<[3 := Row 0 (Some "")]> ∅) 3 false = Undefined.
Proof. apply (empty_text_undefined ∅ 3 false 0). reflexivity. Defined.

(** In a freshly numbered list [dt_ioppr_get_iop_order] is the place, counted
    from 1, of the first entry for the operation and instance (any instance for
    -1), and INT_MAX when there is none. *)
Theorem get_iop_order_is_place l op mp :
  dt_ioppr_get_iop_order (_ioppr_reset_iop_order l) op mp =
    match position l op mp with Some i => Z.of_nat i + 1 | None => INT_MAX end.
Proof.
  unfold _ioppr_reset_iop_order. rewrite get_iop_order_position.
  destruct (position l op mp); lia.
Qed.

(** [dt_ioppr_is_iop_before] compares places in the pipe: it holds exactly
    when the instance is in the list and stands before every instance of the base
    operation (trivially when there is none). *)
Theorem is_iop_before_spec l base op mp (Hlen : Z.of_nat (length l) < INT_MAX) :
  dt_ioppr_is_iop_before (_ioppr_reset_iop_order l) base op mp = true <->
  exists i, position l op mp = Some i /\
    forall j, position l base (-1) = Some j -> (i < j)%nat.
Proof.
  unfold dt_ioppr_is_iop_before, _ioppr_reset_iop_order. rewrite !get_iop_order_position, Z.ltb_lt.
  destruct (position l op mp) as [i|] eqn:Ei; destruct (position l base (-1)) as [j|] eqn:Ej;
    try pose proof (position_lt _ _ _ _ Ei); try pose proof (position_lt _ _ _ _ Ej);
    split; intros Hb; try (destruct Hb as (k & ? & Hb)); simplify_eq; try lia.
  - exists i. split; [done|]. intros ? [= <-]. lia.
  - specialize (Hb j eq_refl). lia.
  - by exists i.
Qed.

Lemma is_iop_before_spec_witness :
  dt_ioppr_is_iop_before (_ioppr_reset_iop_order v30_list) "colorin" "demosaic" 0 = true.
Proof.
  apply (is_iop_before_spec v30_list "colorin" "demosaic" 0); [reflexivity|].
  exists 4%nat. split; [reflexivity|]. intros j Hj. vm_compute in Hj. injection Hj as <-. lia.
Defined.
