(* ===== verification/IopModules.v ===== *)
(** The module instances of a develop state and the functions of
    common/iop_order.c that keep them in step with the iop-order list.

    A [dt_iop_module_t] is the part of the C structure these functions use, with
    [mod_ptr] for its address, which is how history items refer to it. The
    doubly linked list dev->iop is a Rocq list; a link into it is an index, so
    that [g_list_previous] can walk back past the start of a sublist. Messages
    printed by the checks are values. *)

From Stdlib Require Import Ascii String.
From S2P Require Import Prelude Utility IopOrder.
Local Open Scope Z_scope.

(** ** Data *)

Record dt_iop_module_t := Module_t {
  mod_ptr : nat;
  mod_op : string;
  mod_multi_priority : Z;
  mod_iop_order : Z;
  mod_enabled : bool;
  mod_default_enabled : bool;
  mod_flags : Z;
}.

#[export] Instance dt_iop_module_t_eq_dec : EqDecision dt_iop_module_t.
Proof. solve_decision. Defined.

Record dt_dev_history_item_t := History_item {
  hist_module : nat;
  hist_multi_priority : Z;
  hist_iop_order : Z;
  hist_enabled : bool;
}.

Record dt_develop_t := Develop {
  dev_iop : list dt_iop_module_t;
  dev_iop_order_list : list dt_iop_order_entry_t;
  dev_history : list dt_dev_history_item_t;
}.

Definition IOP_FLAGS_FENCE : Z := Z.shiftl 1 11.

Definition mod_set_order (v : Z) (m : dt_iop_module_t) : dt_iop_module_t :=
  Module_t (mod_ptr m) (mod_op m) (mod_multi_priority m) v
           (mod_enabled m) (mod_default_enabled m) (mod_flags m).

(** ** Lookups *)

Fixpoint dt_iop_get_module_by_op_priority (modules : list dt_iop_module_t)
    (operation : string) (multi_priority : Z) : option dt_iop_module_t :=
  match modules with
  | [] => None
  | m :: modules' =>
      if String.eqb (mod_op m) operation &&
         ((mod_multi_priority m =? multi_priority) || (multi_priority =? -1))
      then Some m
      else dt_iop_get_module_by_op_priority modules' operation multi_priority
  end.

Fixpoint _ioppr_search_history_by_module (history : list dt_dev_history_item_t)
    (m : dt_iop_module_t) : option dt_dev_history_item_t :=
  match history with
  | [] => None
  | hist :: history' =>
      if (hist_module hist =? mod_ptr m)%nat then Some hist
      else _ioppr_search_history_by_module history' m
  end.

Definition dt_sort_iop_by_order (a b : dt_iop_module_t) : Z :=
  if mod_iop_order a >? mod_iop_order b then 1
  else if mod_iop_order a <? mod_iop_order b then -1 else 0.

(** ** Keeping modules and list in step *)

Fixpoint resync_iop_list_loop (iop : list dt_iop_module_t) (l : list dt_iop_order_entry_t)
    : list dt_iop_order_entry_t :=
  match l with
  | [] => []
  | e :: next =>
      match dt_iop_get_module_by_op_priority iop (operation e) (instance e) with
      | None => resync_iop_list_loop iop next
      | Some _ => e :: resync_iop_list_loop iop next
      end
  end.

Definition dt_ioppr_resync_iop_list (dev : dt_develop_t) : dt_develop_t :=
  Develop (dev_iop dev) (resync_iop_list_loop (dev_iop dev) (dev_iop_order_list dev))
          (dev_history dev).

Definition resync_module (l : list dt_iop_order_entry_t) (m : dt_iop_module_t)
    : dt_iop_module_t :=
  if mod_iop_order m =? INT_MAX then m
  else mod_set_order (dt_ioppr_get_iop_order l (mod_op m) (mod_multi_priority m)) m.

Definition dt_ioppr_resync_modules_order (dev : dt_develop_t) : dt_develop_t :=
  let l := _ioppr_reset_iop_order (dev_iop_order_list dev) in
  Develop (g_list_sort dt_sort_iop_by_order (map (resync_module l) (dev_iop dev)))
          l (dev_history dev).

Definition dt_ioppr_set_default_iop_order (db : module_order) (dev : dt_develop_t)
    (imgid : Z) : c_result dt_develop_t :=
  let* l := dt_ioppr_get_iop_order_list db imgid false in
  let l := _ioppr_reset_iop_order l in
  Done (dt_ioppr_resync_modules_order (Develop (dev_iop dev) l (dev_history dev))).

(** ** Duplicate orders *)

(** The conversion of a [double] with a fraction of a half, given as twice its
    value, back to [int]: it drops the fraction. *)
Definition int_of_halves (twice : Z) : Z := Z.quot twice 2.

Definition movable (history : list dt_dev_history_item_t) (m : dt_iop_module_t) : bool :=
  negb (mod_enabled m) &&
  (if _ioppr_search_history_by_module history m is None then true else false).

Definition set_order_at (i : nat) (v : Z) (mods : list dt_iop_module_t) :=
  alter (mod_set_order v) i mods.

(** The [while(modules)] loop of the call that started at link [start], at link
    [i]; [mod_prev] is always the link before. [None] is a loop that has not
    ended within the fuel. *)
Fixpoint check_duplicate_loop (fuel : nat) (history : list dt_dev_history_item_t)
    (start i : nat) (mods : list dt_iop_module_t) : option (list dt_iop_module_t) :=
  match fuel with
  | O => None
  | S fuel =>
      match mods !! i, mods !! pred i with
      | Some m, Some prev =>
          let continue := check_duplicate_loop fuel history start (S i) in
          if (mod_iop_order m =? mod_iop_order prev) && negb (mod_iop_order m =? INT_MAX) then
            if movable history m then
              match mods !! S i with
              | Some next =>
                  if negb (mod_iop_order m =? mod_iop_order next) then
                    continue (set_order_at i (int_of_halves
                      (2 * mod_iop_order m + (mod_iop_order next - mod_iop_order m))) mods)
                  else
                    (* the recursive call on the sublist, then from the start again *)
                    mods' ← check_duplicate_loop fuel history i (S i) mods;
                    check_duplicate_loop fuel history start (S start) mods'
              | None => continue (set_order_at i (mod_iop_order m + 1) mods)
              end
            else if movable history prev then
              if (2 <=? i)%nat then
                match mods !! (i - 2)%nat with
                | Some next =>
                    if negb (mod_iop_order prev =? mod_iop_order next) then
                      continue (set_order_at (pred i) (int_of_halves
                        (2 * mod_iop_order prev - (mod_iop_order prev - mod_iop_order next))) mods)
                    else continue mods
                | None => continue mods
                end
              else continue (set_order_at (pred i) (int_of_halves (2 * mod_iop_order prev - 1)) mods)
            else continue mods
          else continue mods
      | _, _ => Some mods
      end
  end.

Definition dt_ioppr_check_duplicate_iop_order (fuel : nat) (iop_list : list dt_iop_module_t)
    (history_list : list dt_dev_history_item_t) : option (list dt_iop_module_t) :=
  check_duplicate_loop fuel history_list 0 1 iop_list.

(** ** Checks *)

Definition _get_fence_modules_list (iop_list : list dt_iop_module_t) : list dt_iop_module_t :=
  List.filter (fun m => negb (Z.land (mod_flags m) IOP_FLAGS_FENCE =? 0)) iop_list.

Inductive rule_message :=
  | Module_after_fence (m fence : dt_iop_module_t)
  | Module_before_fence (m fence : dt_iop_module_t)
  | Module_after_rule (rule : dt_iop_order_rule_t) (m other : dt_iop_module_t)
  | Module_before_rule (rule : dt_iop_order_rule_t) (m other : dt_iop_module_t).

(** The loop over the fences: the nearest fence behind and in front of [m]. *)
Fixpoint nearest_fences (m : dt_iop_module_t) (fences : list dt_iop_module_t)
    (fence_prev fence_next : option dt_iop_module_t)
    : option dt_iop_module_t * option dt_iop_module_t :=
  match fences with
  | [] => (fence_prev, fence_next)
  | f :: fences' =>
      if mod_iop_order m <? mod_iop_order f then
        let fence_next :=
          match fence_next with
          | None => Some f
          | Some n => if mod_iop_order f <? mod_iop_order n then Some f else fence_next
          end in
        nearest_fences m fences' fence_prev fence_next
      else if mod_iop_order m >? mod_iop_order f then
        let fence_prev :=
          match fence_prev with
          | None => Some f
          | Some p => if mod_iop_order f >? mod_iop_order p then Some f else fence_prev
          end in
        nearest_fences m fences' fence_prev fence_next
      else nearest_fences m fences' fence_prev fence_next
  end.

Definition check_fences (fences : list dt_iop_module_t) (m : dt_iop_module_t)
    : list rule_message :=
  if mod_iop_order m =? INT_MAX then []
  else
    let '(fence_prev, fence_next) := nearest_fences m fences None None in
    (match fence_next with
     | Some f => if mod_iop_order m >? mod_iop_order f then [Module_after_fence m f] else []
     | None => []
     end) ++
    (match fence_prev with
     | Some f => if mod_iop_order m <? mod_iop_order f then [Module_before_fence m f] else []
     | None => []
     end).

(** The modules [before] (nearest first) and [after] one module, against one
    rule. *)
Definition check_rule (before after : list dt_iop_module_t) (m : dt_iop_module_t)
    (rule : dt_iop_order_rule_t) : list rule_message :=
  if String.eqb (mod_op m) (op_prev rule) then
    map (Module_after_rule rule m)
        (List.filter (fun p => String.eqb (mod_op p) (op_next rule)) before)
  else if String.eqb (mod_op m) (op_next rule) then
    map (Module_before_rule rule m)
        (List.filter (fun n => String.eqb (mod_op n) (op_prev rule)) after)
  else [].

Fixpoint check_rules_loop (rules : list dt_iop_order_rule_t)
    (before modules : list dt_iop_module_t) : list rule_message :=
  match modules with
  | [] => []
  | m :: after =>
      (if mod_iop_order m =? INT_MAX then [] else rules ≫= check_rule before after m) ++
      check_rules_loop rules (m :: before) after
  end.

Definition _ioppr_check_rules (rules : list dt_iop_order_rule_t)
    (iop_list : list dt_iop_module_t) : list rule_message :=
  let fences := _get_fence_modules_list iop_list in
  (iop_list ≫= check_fences fences) ++ check_rules_loop rules [] iop_list.

(** The duplicate and out-of-order check; [mod_prev] also remembers unused
    modules. *)
Fixpoint orders_increase (mod_prev : option dt_iop_module_t)
    (modules : list dt_iop_module_t) : bool :=
  match modules with
  | [] => true
  | m :: modules' =>
      let ok :=
        match mod_prev with
        | Some p =>
            if mod_iop_order m =? INT_MAX then true
            else negb (mod_iop_order m <? mod_iop_order p)
                 && negb (mod_iop_order m =? mod_iop_order p)
        | None => true
        end in
      ok && orders_increase (Some m) modules'
  end.

Definition history_item_ok (hist : dt_dev_history_item_t) : bool :=
  if hist_iop_order hist =? INT_MAX
  then negb (hist_enabled hist) && negb (hist_multi_priority hist =? 0)
  else true.

(** Both walks "from the last module" step with g_list_previous(dev->iop), and
    nothing precedes the head of the list: they visit the last module only. *)
Definition check_last_is_gamma (iop : list dt_iop_module_t) : bool :=
  match last iop with
  | Some m => if mod_iop_order m =? INT_MAX then true else String.eqb (mod_op m) "gamma"
  | None => true
  end.

Definition check_last_unused (iop : list dt_iop_module_t) : bool :=
  match last iop with
  | Some m =>
      if negb (mod_default_enabled m) && negb (mod_iop_order m =? INT_MAX)
      then negb (mod_enabled m) && negb (mod_multi_priority m =? 0)
      else true
  | None => true
  end.

Definition dt_ioppr_check_iop_order (rules : list dt_iop_order_rule_t) (dev : dt_develop_t)
    : Z * list rule_message :=
  let ok := check_last_is_gamma (dev_iop dev) && check_last_unused (dev_iop dev)
            && orders_increase None (dev_iop dev)
            && forallb history_item_ok (dev_history dev) in
  (if ok then 1 else 0, _ioppr_check_rules rules (dev_iop dev)).

(** ** Lemmas: resynchronisation *)

Section resync.

Definition mod_id (m : dt_iop_module_t) : string * Z := (mod_op m, mod_multi_priority m).

Lemma sort_iop_by_order_le a b :
  dt_sort_iop_by_order a b <= 0 <-> key_le mod_iop_order a b.
Proof.
  unfold dt_sort_iop_by_order, key_le. rewrite Z.gtb_ltb. split_ifs; bool_to_prop; lia.
Qed.

Lemma resync_module_id l m : mod_id (resync_module l m) = mod_id m.
Proof. unfold resync_module. by destruct (_ =? _). Qed.

Lemma resync_module_order l m :
  mod_iop_order (resync_module (_ioppr_reset_iop_order l) m) =
    (if mod_iop_order m =? INT_MAX then INT_MAX
     else match position l (mod_op m) (mod_multi_priority m) with
          | Some i => Z.of_nat i + 1
          | None => INT_MAX
          end).
Proof.
  unfold resync_module. destruct (Z.eqb_spec (mod_iop_order m) INT_MAX); [done|].
  cbn [mod_iop_order mod_set_order]. unfold _ioppr_reset_iop_order.
  rewrite get_iop_order_position. destruct (position l _ _); lia.
Qed.

Lemma resync_iop_Sorted dev :
  StronglySorted (key_le mod_iop_order) (dev_iop (dt_ioppr_resync_modules_order dev)).
Proof. apply g_list_sort_Sorted; [apply _..|apply sort_iop_by_order_le]. Qed.

Lemma resync_iop_Permutation dev :
  dev_iop (dt_ioppr_resync_modules_order dev) ≡ₚ
  map (resync_module (_ioppr_reset_iop_order (dev_iop_order_list dev))) (dev_iop dev).
Proof. apply g_list_sort_Permutation. Qed.

Lemma position_same_entry l op mp op' mp' i :
  mp <> -1 -> mp' <> -1 ->
  position l op mp = Some i -> position l op' mp' = Some i -> op = op' /\ mp = mp'.
Proof.
  unfold position. intros Hm Hm' H1 H2.
  destruct (list_find (matches_id op mp) l) as [[i1 e1]|] eqn:E1; [|done].
  destruct (list_find (matches_id op' mp') l) as [[i2 e2]|] eqn:E2; [|done].
  cbn in *. simplify_eq.
  apply list_find_Some in E1 as (L1 & [? [?|?]] & _); [|done].
  apply list_find_Some in E2 as (L2 & [? [?|?]] & _); [|done].
  simplify_eq. done.
Qed.

(** Used modules of the resynchronised pipe stand at the place the list gives
    them; two of them never share a place. *)
Lemma resync_orders_distinct l m m' :
  mod_multi_priority m <> -1 -> mod_multi_priority m' <> -1 ->
  let r := resync_module (_ioppr_reset_iop_order l) in
  mod_iop_order (r m) = mod_iop_order (r m') -> mod_iop_order (r m) <> INT_MAX ->
  mod_id m = mod_id m'.
Proof.
  intros Hm Hm' r. unfold r. rewrite !resync_module_order.
  destruct (mod_iop_order m =? INT_MAX); [done|].
  destruct (position l (mod_op m) _) as [i|] eqn:E; [|done].
  destruct (mod_iop_order m' =? INT_MAX); [done|].
  destruct (position l (mod_op m') _) as [j|] eqn:E'; [|done].
  intros Hij _. assert (i = j) as -> by lia.
  destruct (position_same_entry _ _ _ _ _ _ Hm Hm' E E') as [H1 H2].
  unfold mod_id. by rewrite H1, H2.
Qed.

Lemma orders_increase_sorted prev mods :
  StronglySorted (key_le mod_iop_order) mods ->
  (forall p, prev = Some p -> Forall (key_le mod_iop_order p) mods) ->
  (forall p m, (prev = Some p /\ m ∈ mods) -> mod_iop_order m <> INT_MAX ->
     mod_iop_order m <> mod_iop_order p) ->
  ForallOrdPairs (fun p m => mod_iop_order m <> INT_MAX ->
     mod_iop_order m <> mod_iop_order p) mods ->
  orders_increase prev mods = true.
Proof.
  intros Hs. revert prev. induction Hs as [|m mods Hs IH Hm]; intros prev Hp Hd Hpair; [done|].
  inversion_clear Hpair as [|? ? Hmm Hpair']. cbn [orders_increase]. apply andb_true_intro. split.
  - destruct prev as [p|]; [|done]. specialize (Hp p eq_refl).
    inversion_clear Hp as [|? ? Hpm _]. unfold key_le in Hpm.
    specialize (Hd p m (conj eq_refl (list_elem_of_here _ _))).
    destruct (Z.eqb_spec (mod_iop_order m) INT_MAX); [done|]. specialize (Hd ltac:(done)). lia.
  - apply IH; [by intros ? [= <-]| |done].
    intros ? x [[= <-] Hx]. rewrite List.Forall_forall in Hmm. by apply Hmm, list_elem_of_In.
Qed.

Lemma NoDup_ordered_pairs mods (P : dt_iop_module_t -> dt_iop_module_t -> Prop) :
  NoDup (map mod_id mods) ->
  (forall a b, a ∈ mods -> b ∈ mods -> mod_id a <> mod_id b -> P a b) ->
  ForallOrdPairs P mods.
Proof.
  induction mods as [|m mods IH]; cbn; intros Hn HP; [constructor|].
  apply NoDup_cons in Hn as [Hm Hn]. constructor.
  - apply List.Forall_forall. intros x Hx. apply HP; [left|right; by apply list_elem_of_In|].
    intros Heq. apply Hm. rewrite Heq. by apply list_elem_of_In, in_map.
  - apply IH; [done|]. intros a b ? ?. apply HP; by right.
Qed.

Lemma resync_module_fixed l m :
  mod_iop_order m <> INT_MAX ->
  mod_iop_order m = dt_ioppr_get_iop_order l (mod_op m) (mod_multi_priority m) ->
  resync_module l m = m.
Proof.
  intros Hne Heq. unfold resync_module. destruct (Z.eqb_spec (mod_iop_order m) INT_MAX); [done|].
  rewrite <- Heq. by destruct m.
Qed.

Lemma resync_module_idem l m : resync_module l (resync_module l m) = resync_module l m.
Proof.
  destruct (Z.eqb_spec (mod_iop_order (resync_module l m)) INT_MAX) as [E|E].
  { unfold resync_module at 1. by rewrite E. }
  apply resync_module_fixed; [done|].
  unfold resync_module in *. by destruct (Z.eqb_spec (mod_iop_order m) INT_MAX).
Qed.

End resync.

(** ** Lemmas: fences and rules *)

Section checks.

Lemma nearest_fences_sides m fences p0 n0 p n :
  nearest_fences m fences p0 n0 = (p, n) ->
  (forall f, p0 = Some f -> mod_iop_order f < mod_iop_order m) ->
  (forall f, n0 = Some f -> mod_iop_order m < mod_iop_order f) ->
  (forall f, p = Some f -> mod_iop_order f < mod_iop_order m) /\
  (forall f, n = Some f -> mod_iop_order m < mod_iop_order f).
Proof.
  revert p0 n0. induction fences as [|f fences IH]; intros p0 n0 H Hp Hn; cbn in H.
  { by simplify_eq. }
  rewrite Z.gtb_ltb in H.
  destruct (mod_iop_order m <? mod_iop_order f) eqn:E1; bool_to_prop.
  { eapply IH; [exact H|done|]. intros g Hg. destruct n0 as [n'|]; [|by simplify_eq].
    destruct (mod_iop_order f <? mod_iop_order n'); simplify_eq; [done|by apply Hn]. }
  destruct (mod_iop_order f <? mod_iop_order m) eqn:E2; bool_to_prop.
  - eapply IH; [exact H| |done]. intros g Hg. destruct p0 as [p'|]; [|by simplify_eq].
    rewrite Z.gtb_ltb in Hg.
    destruct (mod_iop_order p' <? mod_iop_order f); simplify_eq; [done|by apply Hp].
  - by eapply IH.
Qed.

Lemma check_fences_silent fences m : check_fences fences m = [].
Proof.
  unfold check_fences. destruct (_ =? _); [done|].
  destruct (nearest_fences m fences None None) as [p n] eqn:E.
  destruct (nearest_fences_sides _ _ _ _ _ _ E) as [Hp Hn]; [done..|].
  destruct n as [f|]; [specialize (Hn f eq_refl)|];
    (destruct p as [g|]; [specialize (Hp g eq_refl)|]); cbn;
    rewrite ?Z.gtb_ltb; split_ifs; bool_to_prop; try done; lia.
Qed.

Lemma check_rules_silent_fences rules iop :
  _ioppr_check_rules rules iop = check_rules_loop rules [] iop.
Proof.
  unfold _ioppr_check_rules. generalize (_get_fence_modules_list iop) as fences. intros fences.
  assert (iop ≫= check_fences fences = []) as ->; [|done].
  induction iop as [|m iop IH]; [done|]. cbn. by rewrite check_fences_silent.
Qed.

(** What one module is reported for, by position. *)
Definition rule_broken_by (rules : list dt_iop_order_rule_t) (msg : rule_message)
    (before : list dt_iop_module_t) (m : dt_iop_module_t) (after : list dt_iop_module_t) : Prop :=
  mod_iop_order m <> INT_MAX /\
  ((exists rule p, msg = Module_after_rule rule m p /\ rule ∈ rules /\ p ∈ before /\
      mod_op m = op_prev rule /\ mod_op p = op_next rule) \/
   (exists rule n, msg = Module_before_rule rule m n /\ rule ∈ rules /\ n ∈ after /\
      mod_op m <> op_prev rule /\ mod_op m = op_next rule /\ mod_op n = op_prev rule)).

Lemma check_rule_spec before after m rule msg :
  msg ∈ check_rule before after m rule <->
  (exists p, msg = Module_after_rule rule m p /\ p ∈ before /\
      mod_op m = op_prev rule /\ mod_op p = op_next rule) \/
  (exists n, msg = Module_before_rule rule m n /\ n ∈ after /\
      mod_op m <> op_prev rule /\ mod_op m = op_next rule /\ mod_op n = op_prev rule).
Proof.
  unfold check_rule.
  destruct (String.eqb_spec (mod_op m) (op_prev rule)) as [E|E];
    [|destruct (String.eqb_spec (mod_op m) (op_next rule)) as [E'|E']];
    rewrite list_elem_of_In, ?in_map_iff; cbn [In].
  - split.
    + intros (p & <- & [Hp Hop]%List.filter_In). bool_to_prop. left.
      exists p. by rewrite list_elem_of_In.
    + intros [(p & -> & Hp & _ & Hop)|(n & _ & _ & ? & _)]; [|done].
      exists p. split; [done|]. apply List.filter_In. rewrite Hop, String.eqb_refl.
      by rewrite <- list_elem_of_In.
  - split.
    + intros (n & <- & [Hn Hop]%List.filter_In). bool_to_prop. right.
      exists n. by rewrite list_elem_of_In.
    + intros [(p & _ & _ & ? & _)|(n & -> & Hn & _ & _ & Hop)]; [done|].
      exists n. split; [done|]. apply List.filter_In. rewrite Hop, String.eqb_refl.
      by rewrite <- list_elem_of_In.
  - split; [done|]. intros [(p & _ & _ & ? & _)|(n & _ & _ & _ & ? & _)]; done.
Qed.

Lemma check_rules_loop_spec rules before iop msg :
  msg ∈ check_rules_loop rules before iop <->
  exists l1 m l2, iop = l1 ++ m :: l2 /\ rule_broken_by rules msg (reverse l1 ++ before) m l2.
Proof.
  revert before. induction iop as [|m iop IH]; intros before; cbn [check_rules_loop].
  { split; [by intros ?%elem_of_nil|]. intros ([|??] & ? & ? & ? & _); done. }
  rewrite elem_of_app, IH.
  assert (msg ∈ (if mod_iop_order m =? INT_MAX then [] else rules ≫= check_rule before iop m) <->
    rule_broken_by rules msg before m iop) as ->.
  { unfold rule_broken_by. destruct (Z.eqb_spec (mod_iop_order m) INT_MAX).
    { rewrite elem_of_nil. tauto. }
    rewrite list_elem_of_bind. setoid_rewrite check_rule_spec. naive_solver. }
  split.
  - intros [H|(l1 & m' & l2 & -> & H)].
    + by exists [], m, iop.
    + exists (m :: l1), m', l2. split; [done|]. by rewrite reverse_cons, <- app_assoc.
  - intros ([|x l1] & m' & l2 & E & H); cbn in E; simplify_eq; [by left|].
    right. exists l1, m', l2. split; [done|]. by rewrite reverse_cons, <- app_assoc in H.
Qed.

End checks.

(** ** Lemmas: the duplicate check *)

Section duplicates.
Context (history : list dt_dev_history_item_t).

(** Only the order of a module changes, and only if it is disabled and not in
    the history. *)
Definition only_movable_change (mods mods' : list dt_iop_module_t) : Prop :=
  Forall2 (fun m m' => m' = m \/
    (movable history m = true /\ exists v, m' = mod_set_order v m)) mods mods'.

#[export] Instance only_movable_change_refl : Reflexive only_movable_change.
Proof. intros mods. unfold only_movable_change. induction mods; constructor; auto. Qed.

#[export] Instance only_movable_change_trans : Transitive only_movable_change.
Proof.
  unfold only_movable_change. intros a b c Hab. revert c.
  induction Hab as [|x y a b Hxy Hab IH]; intros c Hbc; [done|].
  inversion_clear Hbc as [|? z ? c' Hyz Hbc']. constructor; [|by apply IH].
  destruct Hxy as [->|[Hx [v ->]]]; [done|].
  destruct Hyz as [->|[Hy [w ->]]]; right; eauto.
Qed.

Lemma only_movable_change_at i m v mods :
  mods !! i = Some m -> movable history m = true ->
  only_movable_change mods (set_order_at i v mods).
Proof.
  intros Hi Hm. unfold only_movable_change, set_order_at.
  apply Forall2_lookup. intros j. rewrite list_lookup_alter.
  destruct (decide (i = j)) as [<-|]; [|destruct (mods !! j); constructor; by left].
  rewrite Hi. constructor. right. eauto.
Qed.

(** Whatever the list and the fuel, a loop that ends respects this. *)
Lemma check_duplicate_frame fuel start i mods mods' :
  check_duplicate_loop fuel history start i mods = Some mods' ->
  only_movable_change mods mods'.
Proof.
  revert start i mods mods'. induction fuel as [|fuel IH]; intros start i mods mods' H; [done|].
  cbn [check_duplicate_loop] in H.
  destruct (mods !! i) as [m|] eqn:Hi; [|by simplify_eq].
  destruct (mods !! pred i) as [prev|] eqn:Hp; [|by simplify_eq].
  destruct ((mod_iop_order m =? mod_iop_order prev) && _); [|by eapply IH].
  destruct (movable history m) eqn:Hm.
  - destruct (mods !! S i) as [next|].
    + destruct (negb (mod_iop_order m =? mod_iop_order next)).
      * apply IH in H. etrans; [|exact H]. by eapply only_movable_change_at.
      * destruct (check_duplicate_loop fuel history i (S i) mods) as [mods1|] eqn:E; [|done].
        cbn in H. apply IH in H, E. by etrans.
    + apply IH in H. etrans; [|exact H]. by eapply only_movable_change_at.
  - destruct (movable history prev) eqn:Hpm; [|by eapply IH].
    destruct (2 <=? i)%nat.
    + destruct (mods !! (i - 2)%nat) as [next|]; [|by eapply IH].
      destruct (negb _); [|by eapply IH].
      apply IH in H. etrans; [|exact H]. by eapply only_movable_change_at.
    + apply IH in H. etrans; [|exact H]. by eapply only_movable_change_at.
Qed.

(** No three modules in a row share an order. *)
Definition no_triple (mods : list dt_iop_module_t) : Prop :=
  forall i a b c, mods !! i = Some a -> mods !! S i = Some b -> mods !! S (S i) = Some c ->
    mod_iop_order a = mod_iop_order b -> mod_iop_order b = mod_iop_order c -> False.

Lemma int_of_halves_between a b :
  0 <= a < b -> a <= int_of_halves (2 * a + (b - a)) < b.
Proof.
  intros H. unfold int_of_halves.
  rewrite Z.quot_div_nonneg by lia. split; [apply Z.div_le_lower_bound|apply Z.div_lt_upper_bound]; lia.
Qed.

Lemma set_order_at_lookup_gt i v mods j :
  (i < j)%nat -> set_order_at i v mods !! j = mods !! j.
Proof. intros. unfold set_order_at. apply list_lookup_alter_ne. lia. Qed.

Lemma length_set_order_at i v mods : length (set_order_at i v mods) = length mods.
Proof. apply length_alter. Qed.

(** The state of the loop at link [i]: the rest of the list is still as it was,
    and the module before either is too or already has a smaller order. *)
Definition loop_inv (mods0 mods : list dt_iop_module_t) (i : nat) : Prop :=
  length mods = length mods0 /\
  (forall j, (i <= j)%nat -> mods !! j = mods0 !! j) /\
  (forall p m, mods !! pred i = Some p -> mods !! i = Some m ->
    mod_iop_order p = mod_iop_order m -> mods0 !! pred i = Some p).

Lemma loop_inv_next mods0 mods i :
  length mods = length mods0 -> (forall j, (i <= j)%nat -> mods !! j = mods0 !! j) ->
  loop_inv mods0 mods (S i).
Proof.
  intros Hlen Hrest. split; [done|]. split; [intros; apply Hrest; lia|].
  cbn [pred]. intros p m Hp _ _. by rewrite <- Hrest by lia.
Qed.

Lemma sorted_lookup mods i a b :
  StronglySorted (key_le mod_iop_order) mods -> mods !! i = Some a -> mods !! S i = Some b ->
  mod_iop_order a <= mod_iop_order b.
Proof.
  intros Hs. revert i. induction Hs as [|m mods Hs IH Hm]; intros [|i] Ha Hb; try done.
  - cbn in *. simplify_eq. rewrite Forall_lookup in Hm. by apply (Hm 0%nat).
  - by eapply IH.
Qed.

Lemma loop_inv_bumped mods0 mods i m next :
  StronglySorted (key_le mod_iop_order) mods0 ->
  Forall (fun m => 0 <= mod_iop_order m) mods0 ->
  loop_inv mods0 mods i -> mods !! i = Some m -> mods !! S i = Some next ->
  mod_iop_order m <> mod_iop_order next ->
  loop_inv mods0 (set_order_at i (int_of_halves
    (2 * mod_iop_order m + (mod_iop_order next - mod_iop_order m))) mods) (S i).
Proof.
  intros Hs Hpos (Hlen & Hrest & _) Hi Hn Hne.
  assert (mod_iop_order m <= mod_iop_order next)
    by (apply (sorted_lookup mods0 i); [done|by rewrite <- Hrest by lia..]).
  assert (0 <= mod_iop_order m).
  { rewrite Forall_lookup in Hpos. apply (Hpos i). rewrite <- Hrest by lia. done. }
  split; [by rewrite length_set_order_at|]. split.
  { intros j Hj. rewrite set_order_at_lookup_gt by lia. apply Hrest. lia. }
  cbn [pred]. unfold set_order_at. intros p x Hp Hx Heq.
  rewrite list_lookup_alter_eq, Hi in Hp. rewrite list_lookup_alter_ne, Hn in Hx by lia.
  cbn in Hp. simplify_eq. cbn [mod_iop_order mod_set_order] in Heq.
  pose proof (int_of_halves_between (mod_iop_order m) (mod_iop_order x)). lia.
Qed.

Lemma check_duplicate_ends mods0 fuel i mods :
  StronglySorted (key_le mod_iop_order) mods0 ->
  Forall (fun m => 0 <= mod_iop_order m) mods0 -> no_triple mods0 ->
  (0 < i)%nat -> loop_inv mods0 mods i -> (length mods0 - i < fuel)%nat ->
  is_Some (check_duplicate_loop fuel history 0 i mods).
Proof.
  intros Hs Hpos H3. revert i mods.
  induction fuel as [|fuel IH]; intros i mods Hi0 Hinv Hf; [lia|].
  cbn [check_duplicate_loop].
  destruct (mods !! i) as [m|] eqn:Hi; [|eauto].
  destruct (mods !! pred i) as [prev|] eqn:Hp; [|eauto].
  pose proof Hinv as (Hlen & Hrest & Hprev).
  pose proof (lookup_lt_Some _ _ _ Hi).
  assert (forall mods', loop_inv mods0 mods' (S i) ->
    is_Some (check_duplicate_loop fuel history 0 (S i) mods')) as IH'
    by (intros; apply IH; [lia|done|lia]).
  assert (forall v, loop_inv mods0 (set_order_at (pred i) v mods) (S i)) as Hback.
  { intros v. apply loop_inv_next; [by rewrite length_set_order_at|].
    intros j Hj. rewrite set_order_at_lookup_gt by lia. by apply Hrest. }
  assert (loop_inv mods0 mods (S i)) as Hskip by (by apply loop_inv_next).
  destruct (_ && _) eqn:Heq; [|by apply IH']. bool_to_prop.
  destruct (movable history m) eqn:Hm.
  - destruct (mods !! S i) as [next|] eqn:Hn.
    + destruct (Z.eqb_spec (mod_iop_order m) (mod_iop_order next)) as [E|E]; cbn [negb].
      * exfalso. apply (H3 (pred i) prev m next); replace (S (pred i)) with i by lia; try done.
        -- by apply (Hprev prev m).
        -- by rewrite <- Hrest by lia.
        -- by rewrite <- Hrest by lia.
      * apply IH'. by apply loop_inv_bumped.
    + apply IH'. split; [by rewrite length_set_order_at|]. split.
      { intros j Hj. rewrite set_order_at_lookup_gt by lia. apply Hrest. lia. }
      intros p x _ Hx. rewrite set_order_at_lookup_gt, Hn in Hx by lia. done.
  - destruct (movable history prev); [|by apply IH'].
    destruct (2 <=? i)%nat; [|by apply IH'].
    destruct (mods !! (i - 2)%nat); [|by apply IH']. destruct (negb _); by apply IH'.
Qed.

End duplicates.

(** Every module in use stands at the place of its operation and instance in the list. *)
Definition placed (l : list dt_iop_order_entry_t) (mods : list dt_iop_module_t) : Prop :=
  forall m, m ∈ mods -> mod_iop_order m <> INT_MAX ->
    exists i, position l (mod_op m) (mod_multi_priority m) = Some i /\ mod_iop_order m = Z.of_nat i + 1.

Lemma resync_placed dev : placed (dev_iop_order_list dev) (dev_iop (dt_ioppr_resync_modules_order dev)).
Proof.
  intros m Hm Hu. rewrite resync_iop_Permutation in Hm. apply list_elem_of_In, in_map_iff in Hm as (m0 & <- & _).
  set (r := resync_module (_ioppr_reset_iop_order (dev_iop_order_list dev))) in *.
  pose proof (resync_module_id (_ioppr_reset_iop_order (dev_iop_order_list dev)) m0) as Hid.
  fold r in Hid. unfold mod_id in Hid. injection Hid as -> ->.
  unfold r in *. rewrite resync_module_order in *.
  destruct (mod_iop_order m0 =? INT_MAX); [done|].
  destruct (position _ _ _) as [i|]; [by exists i|done].
Qed.

(** ** Properties *)

(** C12: after [dt_ioppr_resync_modules_order] the pipe is strictly ordered: the
    module list is a permutation of the old one sorted by iop_order, every module
    still in use stands at the place its operation and instance have in the
    iop-order list, and, when the instances are distinct, the duplicate and
    out-of-order check of [dt_ioppr_check_iop_order] finds nothing. *)
Theorem resync_orders_pipe dev
    (Hids : NoDup (map mod_id (dev_iop dev)))
    (Hmp : Forall (fun m => mod_multi_priority m <> -1) (dev_iop dev)) :
  let dev' := dt_ioppr_resync_modules_order dev in
  map mod_id (dev_iop dev') ≡ₚ map mod_id (dev_iop dev) /\
  StronglySorted (key_le mod_iop_order) (dev_iop dev') /\
  (forall m, m ∈ dev_iop dev' -> mod_iop_order m <> INT_MAX ->
     exists i, position (dev_iop_order_list dev) (mod_op m) (mod_multi_priority m) = Some i /\
               mod_iop_order m = Z.of_nat i + 1) /\
  orders_increase None (dev_iop dev') = true.
Proof.
  intros dev'. set (r := resync_module (_ioppr_reset_iop_order (dev_iop_order_list dev))).
  pose proof (resync_iop_Permutation dev) as Hperm. pose proof (resync_iop_Sorted dev) as Hs.
  fold dev' in Hperm, Hs. fold r in Hperm.
  assert (map mod_id (dev_iop dev') ≡ₚ map mod_id (dev_iop dev)) as Hidp.
  { rewrite Hperm, map_map.
    by rewrite (map_ext (fun m => mod_id (r m)) mod_id) by apply resync_module_id. }
  assert (forall m, m ∈ dev_iop dev' -> exists m0, m0 ∈ dev_iop dev /\ m = r m0) as Hin.
  { intros m Hm. rewrite Hperm in Hm. apply list_elem_of_In, in_map_iff in Hm as (m0 & <- & ?).
    exists m0. by rewrite list_elem_of_In. }
  split; [done|]. split; [done|]. split.
  - apply resync_placed.
  - apply orders_increase_sorted; [done|done|by intros ? ? [? _]|].
    apply NoDup_ordered_pairs; [by rewrite Hidp|].
    intros a b Ha Hb Hne Hu Heq.
    destruct (Hin a Ha) as (a0 & Ha0 & ->). destruct (Hin b Hb) as (b0 & Hb0 & ->).
    rewrite Forall_forall in Hmp. unfold r in *. rewrite !resync_module_id in Hne.
    apply Hne. symmetry. by eapply resync_orders_distinct; [apply Hmp| apply Hmp| exact Heq|].
Qed.

Definition example_modules : list dt_iop_module_t :=
  [Module_t 0 "exposure" 1 40 true false 0; Module_t 1 "gamma" 0 2 true true 0;
   Module_t 2 "exposure" 0 40 false false 0; Module_t 3 "rawprepare" 0 1 true true 0;
   Module_t 4 "flip" 7 INT_MAX false false 0].

Definition example_dev : dt_develop_t := Develop example_modules round_trip_example [].

Lemma resync_orders_pipe_witness :
  map mod_ptr (dev_iop (dt_ioppr_resync_modules_order example_dev)) = [3; 0; 2; 1; 4]%nat /\
  orders_increase None (dev_iop (dt_ioppr_resync_modules_order example_dev)) = true.
Proof.
  split; [reflexivity|]. apply (resync_orders_pipe example_dev).
  - apply (bool_decide_unpack _). vm_compute. done.
  - repeat constructor; discriminate.
Defined.

(** [dt_ioppr_resync_modules_order] is idempotent: a second call changes
    neither the list nor the modules. *)
Theorem resync_idempotent dev :
  dt_ioppr_resync_modules_order (dt_ioppr_resync_modules_order dev) =
    dt_ioppr_resync_modules_order dev.
Proof.
  unfold dt_ioppr_resync_modules_order at 1. cbn [dev_iop_order_list dt_ioppr_resync_modules_order].
  set (l := _ioppr_reset_iop_order (dev_iop_order_list dev)).
  assert (_ioppr_reset_iop_order l = l) as -> by apply reset_from_eq, reset_from_ids.
  assert (map (resync_module l) (dev_iop (dt_ioppr_resync_modules_order dev)) =
    dev_iop (dt_ioppr_resync_modules_order dev)) as ->.
  { rewrite <- (map_id (dev_iop _)) at 2. apply map_ext_in. intros m Hm%list_elem_of_In.
    rewrite resync_iop_Permutation in Hm. apply list_elem_of_In, in_map_iff in Hm as (m0 & <- & _).
    apply resync_module_idem. }
  rewrite (g_list_sort_id _ (key_le mod_iop_order)); [done|apply sort_iop_by_order_le|].
  apply resync_iop_Sorted.
Qed.

(** The fence check of [_ioppr_check_rules] can never print anything: the
    nearest fences are chosen among those on the right side of the module, so the
    comparison that follows is always false. *)
Theorem fence_check_is_dead rules iop m f :
  ~ (Module_after_fence m f ∈ _ioppr_check_rules rules iop) /\
  ~ (Module_before_fence m f ∈ _ioppr_check_rules rules iop).
Proof.
  rewrite check_rules_silent_fences, !check_rules_loop_spec. unfold rule_broken_by.
  split; intros (l1 & x & l2 & _ & _ & [(? & ? & ? & _)|(? & ? & ? & _)]); done.
Qed.

(** The rule check reports exactly the broken rules: a module in use whose
    operation must come before another one is reported against every module of
    that other operation in front of it, and a module that must come after is
    reported against every such module behind it. *)
Theorem rule_check_exact rules iop msg :
  msg ∈ _ioppr_check_rules rules iop <->
  exists l1 m l2, iop = l1 ++ m :: l2 /\ rule_broken_by rules msg (reverse l1) m l2.
Proof.
  rewrite check_rules_silent_fences, check_rules_loop_spec.
  by setoid_rewrite app_nil_r.
Qed.

(** [dt_ioppr_check_iop_order] looks for gamma at the very last link only: if
    the last module of the list is an unused one, any order of the modules in use
    before it passes, gamma last or not. *)
Theorem gamma_check_sees_last_link_only rules iop history u
    (Hu : mod_iop_order u = INT_MAX)
    (Hord : orders_increase None (iop ++ [u]) = true)
    (Hhist : forallb history_item_ok history = true) l :
  fst (dt_ioppr_check_iop_order rules (Develop (iop ++ [u]) l history)) = 1.
Proof.
  unfold dt_ioppr_check_iop_order, check_last_is_gamma, check_last_unused.
  cbn [dev_iop dev_history fst]. rewrite last_snoc, Hu, Hord, Hhist, Z.eqb_refl.
  cbn [negb]. by rewrite andb_false_r.
Qed.

Lemma gamma_check_sees_last_link_only_witness :
  fst (dt_ioppr_check_iop_order dt_ioppr_get_iop_order_rules
    (Develop [Module_t 0 "gamma" 0 1 true true 0; Module_t 1 "exposure" 0 2 true false 0;
              Module_t 2 "flip" 1 INT_MAX false false 0] [] [])) = 1.
Proof.
  apply (gamma_check_sees_last_link_only dt_ioppr_get_iop_order_rules
    [Module_t 0 "gamma" 0 1 true true 0; Module_t 1 "exposure" 0 2 true false 0]
    [] (Module_t 2 "flip" 1 INT_MAX false false 0)); reflexivity.
Defined.

(** When the modules are sorted by non-negative orders and no three in a row
    share one, [dt_ioppr_check_duplicate_iop_order] ends after one pass, and all
    it has changed is the order of modules that are disabled and not in the
    history. *)
Theorem check_duplicate_one_pass history mods
    (Hs : StronglySorted (key_le mod_iop_order) mods)
    (Hpos : Forall (fun m => 0 <= mod_iop_order m) mods)
    (H3 : no_triple mods) :
  exists mods', dt_ioppr_check_duplicate_iop_order (S (length mods)) mods history = Some mods' /\
    only_movable_change history mods mods'.
Proof.
  destruct (check_duplicate_ends history mods (S (length mods)) 1 mods) as [mods' H];
    [done..|lia| |lia|].
  - by split.
  - exists mods'. split; [done|]. by eapply check_duplicate_frame.
Qed.

Lemma check_duplicate_one_pass_witness :
  exists mods', dt_ioppr_check_duplicate_iop_order 4
      [Module_t 0 "a" 0 5 true false 0; Module_t 1 "b" 0 5 false false 0;
       Module_t 2 "c" 0 9 true false 0] [] = Some mods' /\
    only_movable_change [] [Module_t 0 "a" 0 5 true false 0; Module_t 1 "b" 0 5 false false 0;
       Module_t 2 "c" 0 9 true false 0] mods'.
Proof.
  apply (check_duplicate_one_pass [] [Module_t 0 "a" 0 5 true false 0;
    Module_t 1 "b" 0 5 false false 0; Module_t 2 "c" 0 9 true false 0]).
  - repeat constructor; unfold key_le; cbn; lia.
  - repeat constructor; cbn; lia.
  - intros [|[|[|i]]] a b c Ha Hb Hc; cbn in Ha, Hb, Hc; simplify_eq; cbn; lia.
Defined.

Definition stuck_modules : list dt_iop_module_t :=
  [Module_t 0 "a" 0 5 false false 0; Module_t 1 "a" 1 5 false false 0;
   Module_t 2 "a" 2 5 false false 0; Module_t 3 "b" 0 6 false false 0].

Lemma stuck_inner fuel :
  check_duplicate_loop fuel [] 1 2 stuck_modules = None \/
  check_duplicate_loop fuel [] 1 2 stuck_modules = Some stuck_modules.
Proof. do 3 (destruct fuel as [|fuel]; [by left|]). by right. Qed.

(** Orders are integers, so moving a module "half way" to a neighbour one
    apart does not move it: with three disabled modules of order 5 before one of
    order 6, [dt_ioppr_check_duplicate_iop_order] starts over for ever. *)
Theorem check_duplicate_diverges fuel :
  dt_ioppr_check_duplicate_iop_order fuel stuck_modules [] = None.
Proof.
  unfold dt_ioppr_check_duplicate_iop_order. induction fuel as [|fuel IH]; [done|].
  assert (check_duplicate_loop (S fuel) [] 0 1 stuck_modules =
    (mods' ← check_duplicate_loop fuel [] 1 2 stuck_modules;
     check_duplicate_loop fuel [] 0 1 mods')) as -> by done.
  destruct (stuck_inner fuel) as [->| ->]; [done|]. exact IH.
Qed.
