(* ===== verification/Undo.v ===== *)
(** The undo/redo stacks of common/undo.c and common/undo.h.

    The application state the callbacks work on is a parameter [World]. The C
    callback of an item gets user_data, type, data, the action and the list of
    images to be synchronised; while it runs the undo lock is held, so the lists
    do not change under it. What it can reach is the flag disable_next, which is
    threaded through it, and the group fields, which it must leave as it found
    them (it closes the groups it opens). A call of free_data is an entry in a list
    of freed data. Time stamps are in microseconds, the resolution of
    [dt_get_wtime]; the rounding of its double result is left out. An item is
    identified by its place in the lists: every record allocates a new one. *)

From S2P Require Import Prelude.
Local Open Scope Z_scope.

Inductive dt_undo_action_t := DT_ACTION_UNDO | DT_ACTION_REDO.

(** [dt_undo_type_t] is a set of flags. *)
Definition DT_UNDO_NONE : Z := 0.
Definition DT_UNDO_GEOTAG : Z := Z.shiftl 1 0.
Definition DT_UNDO_HISTORY : Z := Z.shiftl 1 1.
Definition DT_UNDO_MASK : Z := Z.shiftl 1 2.
Definition DT_UNDO_RATINGS : Z := Z.shiftl 1 3.
Definition DT_UNDO_COLORLABELS : Z := Z.shiftl 1 4.
Definition DT_UNDO_TAGS : Z := Z.shiftl 1 5.
Definition DT_UNDO_METADATA : Z := Z.shiftl 1 6.
Definition DT_UNDO_LT_HISTORY : Z := Z.shiftl 1 7.
Definition DT_UNDO_FLAGS : Z := Z.shiftl 1 8.
Definition DT_UNDO_DEVELOP : Z :=
  Z.lor (Z.lor DT_UNDO_HISTORY DT_UNDO_MASK) DT_UNDO_TAGS.
Definition DT_UNDO_LIGHTTABLE : Z :=
  foldr Z.lor 0 [DT_UNDO_RATINGS; DT_UNDO_COLORLABELS; DT_UNDO_TAGS; DT_UNDO_METADATA;
                 DT_UNDO_LT_HISTORY; DT_UNDO_GEOTAG; DT_UNDO_FLAGS].
Definition DT_UNDO_ALL : Z :=
  Z.lor (Z.lor DT_UNDO_GEOTAG DT_UNDO_DEVELOP) DT_UNDO_LIGHTTABLE.

(** MAX_TIME_PERIOD, half a second. *)
Definition MAX_TIME_PERIOD : Z := 500000.

(** [_images_list_cmp]: a C int difference. *)
Definition _images_list_cmp (a b : Z) : Z := wrap_s32 (a - b).

(** The loop that removes equal neighbours of the sorted image list. *)
Fixpoint remove_duplicates (imgs : list Z) : list Z :=
  match imgs with
  | a :: ((b :: _) as next) =>
      if a =? b then remove_duplicates next else a :: remove_duplicates next
  | _ => imgs
  end.

Section undo.
Context {World U D : Type}.

(** What an undo callback does to the world, to disable_next and to the images. *)
Definition undo_callback : Type :=
  option U -> Z -> option D -> dt_undo_action_t ->
  World -> bool -> list Z -> World * bool * list Z.

Record dt_undo_item_t := Item {
  user_data : option U;
  type : Z;
  data : option D;
  ts : Z;
  is_group : bool;
  undo : option undo_callback;
  free_data : bool;      (* a free_data function was given *)
}.

Record dt_undo_t := Undo {
  undo_list : list dt_undo_item_t;
  redo_list : list dt_undo_item_t;
  group : Z;
  group_indent : Z;
  locked : bool;
  disable_next : bool;
}.

Definition dt_undo_init : dt_undo_t := Undo [] [] DT_UNDO_NONE 0 false false.

Definition dt_undo_disable_next (self : dt_undo_t) : dt_undo_t :=
  Undo (undo_list self) (redo_list self) (group self) (group_indent self) (locked self) true.

(** [_free_undo_data]: the data handed to the item's free_data. *)
Definition _free_undo_data (item : dt_undo_item_t) : list (option D) :=
  if free_data item then [data item] else [].

Definition _undo_record (self : dt_undo_t) (item : dt_undo_item_t)
    : dt_undo_t * list (option D) :=
  if disable_next self then
    (Undo (undo_list self) (redo_list self) (group self) (group_indent self) (locked self) false,
     _free_undo_data item)
  else if locked self then (self, [])
  else
    (Undo (item :: undo_list self) [] (group self) (group_indent self) false (disable_next self),
     redo_list self ≫= _free_undo_data).

(** The marker item a group starts and ends with. *)
Definition group_item (type now : Z) : dt_undo_item_t := Item None type None now true None false.

Definition dt_undo_start_group (self : dt_undo_t) (type now : Z) : dt_undo_t * list (option D) :=
  if group self =? DT_UNDO_NONE then
    _undo_record (Undo (undo_list self) (redo_list self) type 1 (locked self) (disable_next self))
                 (group_item type now)
  else
    (Undo (undo_list self) (redo_list self) (group self) (group_indent self + 1)
          (locked self) (disable_next self), []).

(** The assertion fails on an unmatched end. *)
Definition dt_undo_end_group (self : dt_undo_t) (now : Z)
    : c_result (dt_undo_t * list (option D)) :=
  if group_indent self <=? 0 then Undefined
  else
    let indent := group_indent self - 1 in
    let self := Undo (undo_list self) (redo_list self) (group self) indent
                     (locked self) (disable_next self) in
    if indent =? 0 then
      let '(self, freed) := _undo_record self (group_item (group self) now) in
      Done (Undo (undo_list self) (redo_list self) DT_UNDO_NONE (group_indent self)
                 (locked self) (disable_next self), freed)
    else Done (self, []).

Definition dt_undo_record (self : dt_undo_t) (ud : option U) (ty : Z) (d : option D)
    (cb : option undo_callback) (free : bool) (now : Z) : dt_undo_t * list (option D) :=
  _undo_record self (Item ud ty d now false cb free).

(** ** Undo and redo *)

(** What the walk over the FROM list carries along: TO, the world, disable_next
    and the images. *)
Record walk := Walk {
  w_to : list dt_undo_item_t;
  w_world : World;
  w_disable : bool;
  w_imgs : list Z;
}.

(** Calling a NULL function is undefined. *)
Definition call_undo (action : dt_undo_action_t) (item : dt_undo_item_t) (w : walk)
    : c_result walk :=
  match undo item with
  | None => Undefined
  | Some cb =>
      let '(world, disable, imgs) :=
        cb (user_data item) (type item) (data item) action (w_world w) (w_disable w) (w_imgs w) in
      Done (Walk (w_to w) world disable imgs)
  end.

Definition add_to (item : dt_undo_item_t) (w : walk) : walk :=
  Walk (item :: w_to w) (w_world w) (w_disable w) (w_imgs w).

(** The inner loop of a group: up to and including the next group marker. Returns
    what is left of FROM behind the item the walk started at. *)
Fixpoint move_group (action : dt_undo_action_t) (from : list dt_undo_item_t) (w : walk)
    : c_result (list dt_undo_item_t * walk) :=
  match from with
  | [] => Done ([], w)
  | item :: next =>
      if is_group item then Done (next, add_to item w)
      else let* w := call_undo action item w in
           move_group action next (add_to item w)
  end.

(** The [do ... while] loop over items of one period: [item] has been chosen. *)
Fixpoint move_period (filter : Z) (action : dt_undo_action_t) (first_item_ts : Z)
    (in_group : bool) (item : dt_undo_item_t) (next : list dt_undo_item_t) (w : walk)
    : c_result (list dt_undo_item_t * walk) :=
  let in_group := if is_group item then negb in_group else in_group in
  let* w := if is_group item then Done w else call_undo action item w in
  let w := add_to item w in
  match next with
  | [] => Done ([], w)
  | item' :: next' =>
      if negb (Z.land (type item') filter =? 0) &&
         (in_group || (Z.abs (ts item' - first_item_ts) <? MAX_TIME_PERIOD))
      then move_period filter action first_item_ts in_group item' next' w
      else Done (next, w)
  end.

(** The outer [while(l)]: skip to the first item of the filter, move it and those
    that belong with it. The result is the whole remaining FROM list. *)
Fixpoint move_first (filter : Z) (action : dt_undo_action_t) (from : list dt_undo_item_t)
    (w : walk) : c_result (list dt_undo_item_t * walk) :=
  match from with
  | [] => Done ([], w)
  | item :: next =>
      if negb (Z.land (type item) filter =? 0) then
        if is_group item then move_group action next (add_to item w)
        else move_period filter action (ts item) false item next w
      else
        let* (rest, w) := move_first filter action next w in
        Done (item :: rest, w)
  end.

(** The new structure, the new world and the images whose sidecar is rewritten,
    in that order. *)
Definition _undo_do_undo_redo (self : dt_undo_t) (filter : Z) (action : dt_undo_action_t)
    (world : World) : c_result (dt_undo_t * World * list Z) :=
  let from := match action with DT_ACTION_UNDO => undo_list self | _ => redo_list self end in
  let to := match action with DT_ACTION_UNDO => redo_list self | _ => undo_list self end in
  let* (from, w) := move_first filter action from (Walk to world (disable_next self) []) in
  let self :=
    match action with
    | DT_ACTION_UNDO => Undo from (w_to w) (group self) (group_indent self) false (w_disable w)
    | DT_ACTION_REDO => Undo (w_to w) from (group self) (group_indent self) false (w_disable w)
    end in
  Done (self, w_world w, remove_duplicates (g_list_sort _images_list_cmp (w_imgs w))).

Definition dt_undo_do_undo (self : dt_undo_t) (filter : Z) (world : World) :=
  _undo_do_undo_redo self filter DT_ACTION_UNDO world.
Definition dt_undo_do_redo (self : dt_undo_t) (filter : Z) (world : World) :=
  _undo_do_undo_redo self filter DT_ACTION_REDO world.

(** ** Clearing and iterating *)

(** The list without the items of the filter, and the data freed. *)
Fixpoint _undo_clear_list (l : list dt_undo_item_t) (filter : Z)
    : list dt_undo_item_t * list (option D) :=
  match l with
  | [] => ([], [])
  | item :: next =>
      let '(rest, freed) := _undo_clear_list next filter in
      if negb (Z.land (type item) filter =? 0)
      then (rest, _free_undo_data item ++ freed)
      else (item :: rest, freed)
  end.

(** Both lists are set to NULL after they have been filtered. *)
Definition dt_undo_clear (self : dt_undo_t) (filter : Z) : dt_undo_t * list (option D) :=
  let '(_, freed1) := _undo_clear_list (undo_list self) filter in
  let '(_, freed2) := _undo_clear_list (redo_list self) filter in
  (Undo [] [] (group self) (group_indent self) false false, freed1 ++ freed2).

Definition dt_undo_cleanup (self : dt_undo_t) : dt_undo_t * list (option D) :=
  dt_undo_clear self DT_UNDO_ALL.

Fixpoint _undo_iterate (l : list dt_undo_item_t) (filter : Z)
    (apply : Z -> option D -> World -> World) (world : World) : World :=
  match l with
  | [] => world
  | item :: next =>
      _undo_iterate next filter apply
        (if negb (is_group item) && negb (Z.land (type item) filter =? 0)
         then apply (type item) (data item) world else world)
  end.

Definition dt_undo_iterate_internal (self : dt_undo_t) (filter : Z)
    (apply : Z -> option D -> World -> World) (world : World) : World :=
  _undo_iterate (redo_list self) filter apply
    (_undo_iterate (undo_list self) filter apply world).

Definition dt_undo_iterate (self : dt_undo_t) (filter : Z)
    (apply : Z -> option D -> World -> World) (world : World) : dt_undo_t * World :=
  (Undo (undo_list self) (redo_list self) (group self) (group_indent self) false
        (disable_next self),
   dt_undo_iterate_internal self filter apply world).

End undo.
Arguments dt_undo_item_t : clear implicits.
Arguments dt_undo_t : clear implicits.
Arguments walk : clear implicits.

(** ** Lemmas *)

Section lemmas.
Context {World U D : Type}.
Abbreviation item := (dt_undo_item_t World U D).
Abbreviation undo_t := (dt_undo_t World U D).
Implicit Types (x g : item) (xs l rest : list item) (w : walk World U D).

(** Every item that is not a group marker has a callback: what [dt_undo_record]'s
    callers pass. *)
Definition wf_item x : Prop := is_group x = true \/ is_Some (undo x).

Definition wf_lists (self : undo_t) : Prop :=
  Forall wf_item (undo_list self) /\ Forall wf_item (redo_list self).

Lemma call_undo_Done action x w :
  is_Some (undo x) -> exists w', call_undo action x w = Done w' /\ w_to w' = w_to w.
Proof.
  intros [cb Hcb]. unfold call_undo. rewrite Hcb.
  destruct (cb _ _ _ _ _ _ _) as [[??]?]. by eexists.
Qed.

Lemma move_group_conserves action l w :
  Forall wf_item l -> exists rest w', move_group action l w = Done (rest, w') /\
    rest ++ w_to w' ≡ₚ l ++ w_to w /\ Forall wf_item rest.
Proof.
  intros Hl. revert w. induction Hl as [|x l Hx Hl IH]; intros w; [by eexists [], w|].
  cbn [move_group]. destruct (is_group x) eqn:Eg.
  { eexists l, _. split; [done|]. split; [|done]. symmetry. apply Permutation_middle. }
  destruct Hx as [?|Hx]; [congruence|].
  destruct (call_undo_Done action x w Hx) as (w1 & -> & Hto). cbn [c_bind].
  destruct (IH (add_to x w1)) as (rest & w' & -> & Hp & ?).
  exists rest, w'. split; [done|]. split; [|done]. rewrite Hp. cbn. rewrite Hto.
  symmetry. apply Permutation_middle.
Qed.

Lemma move_period_conserves filter action t b x l w :
  wf_item x -> Forall wf_item l ->
  exists rest w', move_period filter action t b x l w = Done (rest, w') /\
    rest ++ w_to w' ≡ₚ x :: l ++ w_to w /\ Forall wf_item rest.
Proof.
  intros Hx Hl. revert b x w Hx. induction Hl as [|y l Hy Hl IH]; intros b x w Hx;
    cbn [move_period].
  - assert (exists w1, (if is_group x then Done w else call_undo action x w) = Done w1 /\
      w_to w1 = w_to w) as (w1 & -> & Hto).
    { destruct (is_group x) eqn:E; [by exists w|]. destruct Hx; [congruence|].
      by apply call_undo_Done. }
    cbn [c_bind]. eexists [], _. split; [done|]. cbn. by rewrite Hto.
  - assert (exists w1, (if is_group x then Done w else call_undo action x w) = Done w1 /\
      w_to w1 = w_to w) as (w1 & -> & Hto).
    { destruct (is_group x) eqn:E; [by exists w|]. destruct Hx; [congruence|].
      by apply call_undo_Done. }
    cbn [c_bind]. destruct (_ && _).
    + destruct (IH (if is_group x then negb b else b) y (add_to x w1) Hy) as (rest & w' & -> & Hp & ?).
      exists rest, w'. split; [done|]. split; [|done]. rewrite Hp. cbn. rewrite Hto.
      symmetry. apply (Permutation_middle (y :: l)).
    + eexists (y :: l), _. split; [done|]. split; [|by constructor].
      cbn [w_to add_to]. rewrite Hto. symmetry. apply (Permutation_middle (y :: l)).
Qed.

Lemma move_first_conserves filter action l w :
  Forall wf_item l -> exists rest w', move_first filter action l w = Done (rest, w') /\
    rest ++ w_to w' ≡ₚ l ++ w_to w.
Proof.
  intros Hl. revert w. induction Hl as [|x l Hx Hl IH]; intros w; [by eexists [], w|].
  cbn [move_first]. destruct (negb _).
  - destruct (is_group x).
    + destruct (move_group_conserves action l (add_to x w) Hl) as (rest & w' & -> & Hp & _).
      exists rest, w'. split; [done|]. rewrite Hp. symmetry. apply Permutation_middle.
    + destruct (move_period_conserves filter action (ts x) false x l w Hx Hl)
        as (rest & w' & -> & Hp & _). by exists rest, w'.
  - destruct (IH w) as (rest & w' & -> & Hp). cbn. exists (x :: rest), w'.
    split; [done|]. cbn. by rewrite Hp.
Qed.

(** ** Running the callbacks of a list of items *)

(** The world, disable_next and the images after the callbacks of [xs], in
    order. *)
Fixpoint run (action : dt_undo_action_t) xs (s : World * bool * list Z)
    : c_result (World * bool * list Z) :=
  match xs with
  | [] => Done s
  | x :: xs =>
      match undo x with
      | None => Undefined
      | Some cb => run action xs
          (cb (user_data x) (type x) (data x) action s.1.1 s.1.2 s.2)
      end
  end.

Definition walk_of (to : list item) (s : World * bool * list Z) : walk World U D :=
  Walk to s.1.1 s.1.2 s.2.

Lemma run_app action xs ys s :
  run action (xs ++ ys) s = (let* s := run action xs s in run action ys s).
Proof.
  revert s. induction xs as [|x xs IH]; intros s; [done|]. cbn. by destruct (undo x).
Qed.

(** The redo callback takes back what the undo callback did, whatever the image
    lists. *)
Definition reversible x : Prop :=
  exists cb, undo x = Some cb /\
  forall world d imgs imgs',
    let s := cb (user_data x) (type x) (data x) DT_ACTION_UNDO world d imgs in
    (cb (user_data x) (type x) (data x) DT_ACTION_REDO s.1.1 s.1.2 imgs').1 = (world, d).

Lemma run_undo_redo xs s imgs' :
  Forall reversible xs ->
  exists s1 s2, run DT_ACTION_UNDO xs s = Done s1 /\
    run DT_ACTION_REDO (reverse xs) (s1.1, imgs') = Done s2 /\ s2.1 = s.1.
Proof.
  intros Hxs. revert s imgs'. induction Hxs as [|x xs Hx Hxs IH]; intros s imgs'.
  { by eexists s, _. }
  destruct Hx as (cb & Hcb & Hrev). cbn [run]. rewrite Hcb.
  set (s0 := cb _ _ _ _ _ _ _). destruct (IH s0 imgs') as (s1 & s2 & H1 & H2 & H3).
  eexists s1, _. split; [exact H1|]. rewrite reverse_cons, run_app, H2.
  cbn. rewrite Hcb. split; [done|].
  rewrite H3. unfold s0. rewrite Hrev. by destruct s as [[??]?].
Qed.

Lemma move_group_run action xs g rest to s s' :
  Forall (fun x => is_group x = false) xs -> is_group g = true ->
  run action xs s = Done s' ->
  move_group action (xs ++ g :: rest) (walk_of to s) =
    Done (rest, walk_of (g :: reverse xs ++ to) s').
Proof.
  intros Hxs Hg. revert to s. induction Hxs as [|x xs Hx Hxs IH]; intros to s Hr;
    cbn [run] in Hr; cbn [app move_group].
  { simplify_eq. by rewrite Hg. }
  rewrite Hx. unfold call_undo. destruct (undo x) as [cb|]; [|done].
  cbn [walk_of w_world w_disable w_imgs w_to].
  destruct (cb _ _ _ _ _ _ _) as [[world d] imgs] eqn:E. cbn [c_bind].
  etrans; [exact (IH (x :: to) (world, d, imgs) Hr)|].
  by rewrite reverse_cons, <- app_assoc.
Qed.

(** Items that the [do ... while] loop takes along. *)
Definition in_period (filter first : Z) x : bool :=
  negb (Z.land (type x) filter =? 0) && (Z.abs (ts x - first) <? MAX_TIME_PERIOD).

Lemma move_period_run filter action first x xs rest to s s' :
  Forall (fun x => is_group x = false) (x :: xs) ->
  Forall (fun x => in_period filter first x = true) xs ->
  (forall y, head rest = Some y -> in_period filter first y = false) ->
  run action (x :: xs) s = Done s' ->
  move_period filter action first false x (xs ++ rest) (walk_of to s) =
    Done (rest, walk_of (reverse (x :: xs) ++ to) s').
Proof.
  intros Hng Hin Hrest. revert x to s Hng.
  induction Hin as [|y xs Hy Hin IH]; intros x to s Hng Hr; inversion_clear Hng as [|? ? Hx Hng'].
  - cbn in Hr. destruct (undo x) as [cb|] eqn:Ecb; [|done]. simplify_eq. cbn [app].
    destruct rest as [|z rest]; cbn; rewrite Hx; unfold call_undo; rewrite Ecb; cbn;
      destruct (cb _ _ _ _ _ _ _) as [[??]?]; cbn; [done|].
    specialize (Hrest z eq_refl). unfold in_period in Hrest. by rewrite Hrest.
  - cbn [run] in Hr. destruct (undo x) as [cb|] eqn:Ecb; [|done].
    cbn [app move_period]. rewrite Hx. unfold call_undo. rewrite Ecb. cbn [walk_of w_world w_disable w_imgs w_to].
    destruct (cb _ _ _ _ _ _ _) as [[world d] imgs] eqn:E. cbn [c_bind].
    unfold in_period in Hy. cbn [orb]. rewrite Hy.
    etrans; [exact (IH y (x :: to) (world, d, imgs) Hng' Hr)|].
    by rewrite (reverse_cons (y :: xs) x), <- app_assoc.
Qed.

(** Seen from its last item, a period of decreasing time stamps is a period
    too. *)
Lemma reverse_period filter x xs y ys :
  Z.land (type x) filter <> 0 ->
  Forall (fun x => is_group x = false) (x :: xs) ->
  Forall (fun z => in_period filter (ts x) z = true) xs ->
  StronglySorted (fun a b => ts b <= ts a) (x :: xs) ->
  reverse (x :: xs) = y :: ys ->
  Z.land (type y) filter <> 0 /\
  Forall (fun x => is_group x = false) (y :: ys) /\
  Forall (fun z => in_period filter (ts y) z = true) ys.
Proof.
  intros Hx Hng Hper Hs Hrev.
  assert (Forall (fun z => Z.land (type z) filter <> 0 /\ ts y <= ts z <= ts x /\
    Z.abs (ts x - ts y) < MAX_TIME_PERIOD) (y :: ys)) as Hall.
  { assert (x :: xs = reverse ys ++ [y]) as Hxs
      by (by rewrite <- reverse_cons, <- Hrev, reverse_involutive).
    assert (forall z, z ∈ x :: xs -> Z.land (type z) filter <> 0 /\
      Z.abs (ts z - ts x) < MAX_TIME_PERIOD /\ ts z <= ts x) as Hz.
    { intros z [->|Hz]%elem_of_cons; [split_and!; [done|unfold MAX_TIME_PERIOD; lia|lia]|].
      rewrite Forall_forall in Hper. specialize (Hper z Hz). unfold in_period in Hper.
      apply StronglySorted_cons in Hs as [Hsx _]. rewrite Forall_forall in Hsx.
      specialize (Hsx z Hz). bool_to_prop. split_and!; lia || done. }
    rewrite <- Hrev. apply Forall_reverse, Forall_forall. intros z Hin.
    destruct (Hz z Hin) as (? & ? & ?).
    destruct (Hz y) as (_ & ? & ?); [rewrite Hxs; set_solver|].
    split; [done|]. split; [|lia]. split; [|done].
    rewrite Hxs in Hs, Hin. apply StronglySorted_app in Hs as (Hle & _ & _).
    apply elem_of_app in Hin as [Hin|Hin]; [|set_solver by lia].
    apply (Hle z y); set_solver. }
  split_and!.
  - by inversion_clear Hall as [|? ? [? _] _].
  - rewrite <- Hrev. by apply Forall_reverse.
  - inversion_clear Hall as [|? ? (_ & _ & _) Hys].
    eapply Forall_impl; [exact Hys|]. intros z (? & ? & ?). unfold in_period.
    assert (Z.land (type z) filter =? 0 = false) as -> by lia.
    cbn. lia.
Qed.

End lemmas.

(** ** Lemmas: the images to synchronise *)

Section images.

Lemma images_list_cmp_spec a b :
  0 <= a < 2 ^ 31 -> 0 <= b < 2 ^ 31 -> _images_list_cmp a b = a - b.
Proof. intros. apply wrap_s32_id. lia. Qed.

Lemma sort_images l :
  Forall (fun i => 0 <= i < 2 ^ 31) l ->
  g_list_sort _images_list_cmp l = g_list_sort Z.sub l.
Proof.
  rewrite Forall_forall. intros H. apply g_list_sort_ext. intros x y Hx Hy.
  apply images_list_cmp_spec; auto.
Qed.

Lemma remove_duplicates_spec l :
  StronglySorted Z.le l ->
  StronglySorted Z.lt (remove_duplicates l) /\ forall i, i ∈ remove_duplicates l <-> i ∈ l.
Proof.
  induction 1 as [|a l Hl IH Ha]; [split; [constructor|done]|].
  destruct IH as [IHs IHin]. destruct l as [|b l]; [split; [repeat constructor|done]|].
  inversion Ha as [|? ? Hab _]; subst. cbn [remove_duplicates].
  destruct (Z.eqb_spec a b) as [->|Hne].
  - split; [done|]. intros i. rewrite IHin, !elem_of_cons. tauto.
  - split.
    + constructor; [done|]. apply Forall_forall. intros i Hi%IHin.
      inversion_clear Hl as [|? ? _ Hb]. rewrite Forall_forall in Hb.
      apply elem_of_cons in Hi as [->|Hi]; [lia|]. specialize (Hb i Hi). lia.
    + intros i. rewrite !elem_of_cons. rewrite IHin, elem_of_cons. done.
Qed.

End images.

(** ** The structure as a state machine *)

Section machine.
Context {World U D : Type}.
Abbreviation undo_t := (dt_undo_t World U D).

(** The calls a client can make; types given to groups are never DT_UNDO_NONE. *)
Inductive undo_step : undo_t -> undo_t -> Prop :=
  | step_record self ud ty d cb free now :
      undo_step self (fst (dt_undo_record self ud ty d cb free now))
  | step_start self ty now :
      ty <> DT_UNDO_NONE -> undo_step self (fst (dt_undo_start_group self ty now))
  | step_end self now self' freed :
      dt_undo_end_group self now = Done (self', freed) -> undo_step self self'
  | step_disable self : undo_step self (dt_undo_disable_next self)
  | step_undo_redo self filter action world self' world' imgs :
      _undo_do_undo_redo self filter action world = Done (self', world', imgs) ->
      undo_step self self'
  | step_clear self filter : undo_step self (fst (dt_undo_clear self filter)).

(** A group is open exactly while the nesting depth is positive, and the lock is
    free between calls. *)
Definition group_inv (self : undo_t) : Prop :=
  0 <= group_indent self /\ (group self = DT_UNDO_NONE <-> group_indent self = 0) /\
  locked self = false.

Lemma record_group (self : undo_t) it :
  group (fst (_undo_record self it)) = group self /\
  group_indent (fst (_undo_record self it)) = group_indent self /\
  (locked self = false -> locked (fst (_undo_record self it)) = false).
Proof. unfold _undo_record. destruct (disable_next self), (locked self) eqn:?; by cbn. Qed.

Lemma undo_step_inv (s s' : undo_t) : undo_step s s' -> group_inv s -> group_inv s'.
Proof.
  intros Hstep (H0 & Hg & Hl). destruct Hstep.
  - unfold dt_undo_record, group_inv.
    by destruct (record_group self (Item ud ty d now false cb free)) as (-> & -> & ->).
  - unfold dt_undo_start_group. destruct (Z.eqb_spec (group self) DT_UNDO_NONE) as [E|E].
    + unfold group_inv. match goal with |- context [_undo_record ?s ?i] =>
        destruct (record_group s i) as (-> & -> & ->) end; cbn; [|done].
      repeat split; lia || done.
    + unfold group_inv. cbn. repeat split; try done; intros; try tauto; lia.
  - unfold dt_undo_end_group in H. destruct (Z.leb_spec (group_indent self) 0); [done|].
    destruct (Z.eqb_spec (group_indent self - 1) 0) as [E|E].
    + destruct (_undo_record _ _) as [s1 fr] eqn:Er. simplify_eq.
      pose proof (f_equal fst Er) as Hs1. cbn [fst] in Hs1.
      match type of Hs1 with fst (_undo_record ?s ?i) = _ =>
        destruct (record_group s i) as (_ & Hi & Hk) end.
      rewrite Hs1 in Hi, Hk. unfold group_inv. cbn in *. rewrite Hi, E.
      repeat split; try done; try lia. by apply Hk.
    + simplify_eq. unfold group_inv. cbn. repeat split; try done; intros; try tauto; lia.
  - by split.
  - unfold _undo_do_undo_redo in H. apply c_bind_Done in H as ([from w] & _ & H).
    destruct action; simplify_eq; unfold group_inv; cbn; by split_and!.
  - unfold dt_undo_clear. destruct (_undo_clear_list _ _), (_undo_clear_list _ _).
    unfold group_inv. cbn. by split_and!.
Qed.

End machine.

(** ** Properties *)

(** Undo and redo neither lose nor duplicate anything: whatever the filter,
    the call returns, and the items of the two lists together are the same as
    before. *)
Theorem undo_redo_conserves {World U D} (self : dt_undo_t World U D) filter action world
    (Hwf : wf_lists self) :
  exists self' world' imgs,
    _undo_do_undo_redo self filter action world = Done (self', world', imgs) /\
    undo_list self' ++ redo_list self' ≡ₚ undo_list self ++ redo_list self.
Proof.
  destruct Hwf as [Hu Hr]. unfold _undo_do_undo_redo. destruct action.
  - destruct (move_first_conserves filter DT_ACTION_UNDO (undo_list self)
      (Walk (redo_list self) world (disable_next self) []) Hu) as (from & w & -> & Hp).
    cbn [c_bind]. by do 3 eexists.
  - destruct (move_first_conserves filter DT_ACTION_REDO (redo_list self)
      (Walk (undo_list self) world (disable_next self) []) Hr) as (from & w & -> & Hp).
    cbn [c_bind]. do 3 eexists. split; [done|]. cbn in Hp |- *.
    rewrite Permutation_app_comm, Hp. apply Permutation_app_comm.
Qed.

Definition counter_item (n ts : Z) : dt_undo_item_t Z Z Z :=
  Item None DT_UNDO_RATINGS (Some n) ts false
    (Some (fun _ _ d action w dis imgs =>
       (match action with DT_ACTION_UNDO => w - default 0 d | _ => w + default 0 d end, dis, n :: imgs)))
    true.

Definition counter_state : dt_undo_t Z Z Z :=
  Undo [counter_item 3 1000; counter_item 4 900; counter_item 5 0] [] DT_UNDO_NONE 0 false false.

Lemma undo_redo_conserves_witness :
  exists self' world' imgs,
    _undo_do_undo_redo counter_state DT_UNDO_ALL DT_ACTION_UNDO 12 = Done (self', world', imgs) /\
    undo_list self' ++ redo_list self' ≡ₚ undo_list counter_state ++ redo_list counter_state.
Proof.
  apply (undo_redo_conserves counter_state DT_UNDO_ALL DT_ACTION_UNDO 12).
  split; cbn; repeat (apply List.Forall_cons || apply List.Forall_nil);
    right; eexists; reflexivity.
Defined.

(** C18: a group is undone and redone as a whole: with a complete group on top of
    the undo list, undo runs the callbacks of the items between its two markers, each
    once and newest first, and no other, and moves the group over; the redo that follows
    runs them in the opposite order and restores both lists, disable_next and, with
    callbacks that take each other back, the application state. *)
Theorem group_undo_redo {World U D} (self : dt_undo_t World U D) filter world g1 xs g2 rest
    (Hlist : undo_list self = g1 :: xs ++ g2 :: rest)
    (Hg1 : is_group g1 = true) (Hg2 : is_group g2 = true)
    (Ht1 : Z.land (type g1) filter <> 0) (Ht2 : Z.land (type g2) filter <> 0)
    (Hxs : Forall (fun x => is_group x = false) xs) (Hrev : Forall reversible xs)
    (Hlock : locked self = false) :
  exists self1 world1 images1 images2,
    run DT_ACTION_UNDO xs (world, disable_next self, []) = Done (world1, disable_next self1, images1) /\
    dt_undo_do_undo self filter world = Done (self1, world1, remove_duplicates (g_list_sort _images_list_cmp images1)) /\
    undo_list self1 = rest /\
    redo_list self1 = g2 :: reverse xs ++ g1 :: redo_list self /\
    run DT_ACTION_REDO (reverse xs) (world1, disable_next self1, []) = Done (world, disable_next self, images2) /\
    dt_undo_do_redo self1 filter world1 = Done (self, world, remove_duplicates (g_list_sort _images_list_cmp images2)).
Proof.
  destruct (run_undo_redo xs (world, disable_next self, []) [] Hrev) as (s1 & s2 & H1 & H2 & H3).
  apply Z.eqb_neq in Ht1, Ht2.
  exists (Undo rest (g2 :: reverse xs ++ g1 :: redo_list self) (group self) (group_indent self)
    false s1.1.2), s1.1.1, s1.2, s2.2.
  assert (forall A (a b : A) (B : bool), B = false -> (if negb B then a else b) = a) as Hif
    by (by intros ? ? ? [] ?).
  split_and!; [by destruct s1 as [[??]?]| |done|done| |].
  - unfold dt_undo_do_undo, _undo_do_undo_redo. rewrite Hlist. cbn [move_first].
    rewrite Hif, Hg1 by done.
    change (add_to g1 _) with (walk_of (g1 :: redo_list self) (world, disable_next self, [])).
    by rewrite (move_group_run _ _ _ _ _ _ _ Hxs Hg2 H1).
  - cbn [disable_next]. destruct s1 as [[??]?], s2 as [[??]?]. cbn in *. by simplify_eq.
  - unfold dt_undo_do_redo, _undo_do_undo_redo.
    cbn [redo_list undo_list disable_next group group_indent move_first].
    rewrite Hif, Hg2 by done.
    change (add_to g2 _) with (walk_of (g2 :: rest) (s1.1.1, s1.1.2, [])).
    replace (s1.1.1, s1.1.2, []) with (s1.1, @nil Z) by (by destruct s1 as [[??]?]).
    rewrite (move_group_run _ _ _ _ _ _ s2); [|by apply Forall_reverse|done|done].
    cbn. rewrite reverse_involutive. destruct s2 as [[w2 d2] i2]. cbn in H3 |- *. simplify_eq.
    rewrite <- Hlist, <- Hlock. by destruct self.
Qed.

Definition grouped_state : dt_undo_t Z Z Z :=
  Undo [group_item DT_UNDO_RATINGS 9; counter_item 3 8; counter_item 4 7;
        group_item DT_UNDO_RATINGS 6; counter_item 5 0] [] DT_UNDO_NONE 0 false false.

Lemma counter_reversible n ts : reversible (counter_item n ts).
Proof.
  eexists. split; [reflexivity|]. intros world d imgs imgs'. cbn. f_equal. apply Z.sub_add.
Qed.

Lemma group_undo_redo_witness :
  exists self1 world1 images1 images2,
    run DT_ACTION_UNDO [counter_item 3 8; counter_item 4 7] (12, false, []) = Done (world1, disable_next self1, images1) /\
    dt_undo_do_undo grouped_state DT_UNDO_LIGHTTABLE 12 =
      Done (self1, world1, remove_duplicates (g_list_sort _images_list_cmp images1)) /\
    undo_list self1 = [counter_item 5 0] /\
    redo_list self1 = [group_item DT_UNDO_RATINGS 6; counter_item 4 7; counter_item 3 8;
                       group_item DT_UNDO_RATINGS 9] /\
    run DT_ACTION_REDO (reverse [counter_item 3 8; counter_item 4 7]) (world1, disable_next self1, []) = Done (12, false, images2) /\
    dt_undo_do_redo self1 DT_UNDO_LIGHTTABLE world1 =
      Done (grouped_state, 12, remove_duplicates (g_list_sort _images_list_cmp images2)).
Proof.
  apply (group_undo_redo grouped_state DT_UNDO_LIGHTTABLE 12 (group_item DT_UNDO_RATINGS 9)
    [counter_item 3 8; counter_item 4 7] (group_item DT_UNDO_RATINGS 6) [counter_item 5 0]);
    try reflexivity; try discriminate; repeat constructor; apply counter_reversible.
Defined.

(** Single edits made within half a second of each other are undone together,
    newest first, and one redo brings them all back: lists, disable_next and,
    with callbacks that take each other back, the application state. The next
    entry of either list must be outside the period. *)
Theorem period_undo_redo {World U D} (self : dt_undo_t World U D) filter world x xs y rest
    (Hlist : undo_list self = (x :: xs) ++ rest)
    (Hx : Z.land (type x) filter <> 0)
    (Hlast : last (x :: xs) = Some y)
    (Hng : Forall (fun x => is_group x = false) (x :: xs))
    (Hrev : Forall reversible (x :: xs))
    (Hper : Forall (fun z => in_period filter (ts x) z = true) xs)
    (Hts : StronglySorted (fun a b => ts b <= ts a) (x :: xs))
    (Hrest : forall z, head rest = Some z -> in_period filter (ts x) z = false)
    (Hredo : forall z, head (redo_list self) = Some z -> in_period filter (ts y) z = false)
    (Hlock : locked self = false) :
  exists self1 world1 imgs1 imgs2,
    dt_undo_do_undo self filter world = Done (self1, world1, imgs1) /\
    undo_list self1 = rest /\ redo_list self1 = reverse (x :: xs) ++ redo_list self /\
    dt_undo_do_redo self1 filter world1 = Done (self, world, imgs2).
Proof.
  destruct (run_undo_redo (x :: xs) (world, disable_next self, []) [] Hrev)
    as (s1 & s2 & H1 & H2 & H3).
  assert (exists ys, reverse (x :: xs) = y :: ys) as (ys & Hys).
  { apply last_Some in Hlast as (l' & ->). exists (reverse l'). by rewrite reverse_snoc. }
  exists (Undo rest (reverse (x :: xs) ++ redo_list self) (group self) (group_indent self)
    false s1.1.2), s1.1.1, (remove_duplicates (g_list_sort _images_list_cmp s1.2)),
    (remove_duplicates (g_list_sort _images_list_cmp s2.2)).
  apply Z.eqb_neq in Hx as Hx'. split_and!; [|done|done|].
  - unfold dt_undo_do_undo, _undo_do_undo_redo. rewrite Hlist. cbn [app move_first].
    rewrite Hx'. cbn [negb]. inversion_clear Hng as [|? ? Hgx Hgxs]. rewrite Hgx.
    change (Walk (redo_list self) world (disable_next self) [])
      with (walk_of (redo_list self) (world, disable_next self, [])).
    rewrite (move_period_run _ _ _ _ _ _ _ _ s1); [done|by constructor|done..].
  - destruct (reverse_period filter x xs y ys) as (Hyt & Hyng & Hyper); [done..|].
    rewrite Hys in *. unfold dt_undo_do_redo, _undo_do_undo_redo.
    cbn [redo_list undo_list disable_next group group_indent app move_first].
    apply Z.eqb_neq in Hyt. rewrite Hyt. cbn [negb].
    pose proof Hyng as Hyng'. inversion_clear Hyng' as [|? ? Hgy _]. rewrite Hgy.
    replace (Walk rest s1.1.1 s1.1.2 []) with (walk_of rest (s1.1, @nil Z)) by done.
    rewrite (move_period_run _ _ _ _ _ _ _ _ s2); [|done..].
    cbn [c_bind]. rewrite <- Hys, reverse_involutive.
    destruct s2 as [[w2 d2] i2]. cbn in H3 |- *. simplify_eq.
    change (x :: xs ++ rest) with ((x :: xs) ++ rest).
    rewrite <- Hlist, <- Hlock. by destruct self.
Qed.

Lemma period_undo_redo_witness :
  exists self1 world1 imgs1 imgs2,
    dt_undo_do_undo counter_state DT_UNDO_ALL 12 = Done (self1, world1, imgs1) /\
    undo_list self1 = [] /\
    redo_list self1 = [counter_item 5 0; counter_item 4 900; counter_item 3 1000] /\
    dt_undo_do_redo self1 DT_UNDO_ALL world1 = Done (counter_state, 12, imgs2).
Proof.
  apply (period_undo_redo counter_state DT_UNDO_ALL 12 (counter_item 3 1000)
    [counter_item 4 900; counter_item 5 0] (counter_item 5 0) []);
    try reflexivity; try discriminate; repeat constructor; try apply counter_reversible;
    cbn; lia.
Defined.

(** The images whose sidecar is rewritten after an undo or redo are the
    images the callbacks named, each once, in increasing order. *)
Theorem synchronised_images_spec imgs (Hids : Forall (fun i => 0 <= i < 2 ^ 31) imgs) :
  let out := remove_duplicates (g_list_sort _images_list_cmp imgs) in
  StronglySorted Z.lt out /\ forall i, i ∈ out <-> i ∈ imgs.
Proof.
  cbn zeta. rewrite sort_images by done.
  destruct (remove_duplicates_spec (g_list_sort Z.sub imgs)) as [Hs Hin].
  - apply g_list_sort_Sorted; [apply _..|]. intros. lia.
  - split; [done|]. intros i. by rewrite Hin, g_list_sort_Permutation.
Qed.

Lemma synchronised_images_spec_witness :
  StronglySorted Z.lt (remove_duplicates (g_list_sort _images_list_cmp [7; 2; 7; 5; 2])) /\
  5 ∈ remove_duplicates (g_list_sort _images_list_cmp [7; 2; 7; 5; 2]).
Proof.
  destruct (synchronised_images_spec [7; 2; 7; 5; 2]) as [Hs Hin]; [repeat constructor; lia|].
  split; [exact Hs|]. apply Hin. set_solver.
Defined.

(** A new record is put on top of the undo list, empties the redo list and
    frees the data of its items; when recording has been disabled for the next
    call, only the record's own data are freed and the flag is used up; during a
    callback nothing happens at all. *)
Theorem record_spec {World U D} (self : dt_undo_t World U D) ud ty d cb free now :
  let it := Item ud ty d now false cb free in
  let r := dt_undo_record self ud ty d cb free now in
  if disable_next self then
    undo_list (fst r) = undo_list self /\ redo_list (fst r) = redo_list self /\
    disable_next (fst r) = false /\ snd r = _free_undo_data it
  else if locked self then r = (self, [])
  else undo_list (fst r) = it :: undo_list self /\ redo_list (fst r) = [] /\
       snd r = redo_list self ≫= _free_undo_data.
Proof.
  cbn zeta. unfold dt_undo_record, _undo_record.
  by destruct (disable_next self) eqn:?, (locked self) eqn:?.
Qed.

(** From the initial structure on, through any sequence of calls, a group is
    open exactly while its nesting depth is positive and the lock is free between
    calls, so that no later record is dropped. *)
Theorem reachable_group_inv {World U D} (s : dt_undo_t World U D)
    (Hreach : rtc undo_step dt_undo_init s) : group_inv s.
Proof.
  assert (group_inv (dt_undo_init : dt_undo_t World U D)) as H0 by (by split_and!).
  revert H0. induction Hreach as [|a b c Hab _ IH]; [done|].
  intros Ha. by apply IH, (undo_step_inv a).
Qed.

Lemma reachable_group_inv_witness :
  group_inv (fst (dt_undo_start_group (dt_undo_init : dt_undo_t Z Z Z) DT_UNDO_TAGS 5)).
Proof.
  apply reachable_group_inv. eapply rtc_once, step_start. discriminate.
Defined.

(** [dt_undo_clear] empties both lists whatever its filter, although it frees
    only the data of the items the filter selects: clearing the develop items of
    a list that holds a rating change drops that change and never frees it. *)
Theorem clear_ignores_filter {World U D} (self : dt_undo_t World U D) filter
    (Hnone : Forall (fun x => Z.land (type x) filter = 0) (undo_list self ++ redo_list self)) :
  let r := dt_undo_clear self filter in
  undo_list (fst r) = [] /\ redo_list (fst r) = [] /\ snd r = [].
Proof.
  apply Forall_app in Hnone as [Hu Hr].
  assert (forall l : list (dt_undo_item_t World U D),
    Forall (fun x => Z.land (type x) filter = 0) l -> _undo_clear_list l filter = (l, [])) as Hl.
  { induction 1 as [|x l Hx Hl IH]; [done|]. cbn. by rewrite IH, Hx. }
  unfold dt_undo_clear. by rewrite !Hl.
Qed.

Lemma clear_ignores_filter_witness :
  undo_list (fst (dt_undo_clear counter_state DT_UNDO_DEVELOP)) = [] /\
  redo_list (fst (dt_undo_clear counter_state DT_UNDO_DEVELOP)) = [] /\
  snd (dt_undo_clear counter_state DT_UNDO_DEVELOP) = [].
Proof. apply (clear_ignores_filter counter_state DT_UNDO_DEVELOP). repeat constructor. Defined.
