(* ===== verification/PixelpipeCache.v ===== *)
(** The pixel cache of develop/pixelpipe_cache.c: a fixed number of cache lines
    addressed by a 64-bit hash of the pipe up to a module and the viewport.

    The parallel C arrays of length entries are one list of cache lines. Buffer
    addresses are integers with 0 for NULL; the allocator is a parameter that
    gives the result of the next allocation. The buffer descriptor is a type
    parameter: the cache only copies it. *)

From Stdlib Require Import Ascii.
From S2P Require Import Prelude.
Local Open Scope Z_scope.

(** The hash value -1 of an invalid line. *)
Definition INVALID : Z := wrap_u64 (-1).

(** ** Hashes *)

(** [((hash << 5) + hash) ^ v] on uint64_t. *)
Definition hash_step (hash v : Z) : Z :=
  Z.lxor (wrap_u64 (Z.shiftl hash 5 + hash)) (wrap_u64 v).

(** The loop over the bytes of an object, each a signed char. *)
Definition hash_bytes (hash : Z) (bytes : list ascii) : Z :=
  foldl (fun h c => hash_step h (Z_of_char c)) hash bytes.

(** [dt_dev_pixelpipe_iop_t] with the fields of its module that are hashed. *)
Record dt_dev_pixelpipe_iop_t := Piece {
  p_module : nat;                (* the module, by address *)
  p_hash : Z;
  p_enabled : bool;
  p_operation_tags : Z;
  p_request_color_pick : bool;   (* != DT_REQUEST_COLORPICK_OFF *)
  p_color_picker_box : list ascii;
  p_color_picker_point : list ascii;
}.

Record dt_dev_pixelpipe_t := Pipe {
  pipe_type : Z;
  nodes : list dt_dev_pixelpipe_iop_t;
  pipe_iop : list nat;
}.

Definition DT_DEV_PIXELPIPE_FAST : Z := Z.shiftl 1 8.

Section hashes.
(** What the pieces share: the filter of the module that has the focus in the
    GUI, if any, and the mode of the colour picker. *)
Context (gui_module_filter : option Z) (colorpicker_size : bool).

(** The focused module asks for this piece to be left out. *)
Definition filtered_out (piece : dt_dev_pixelpipe_iop_t) : bool :=
  match gui_module_filter with
  | Some filter => negb (Z.land filter (p_operation_tags piece) =? 0)
  | None => false
  end.

Definition hash_piece (hash : Z) (piece : dt_dev_pixelpipe_iop_t) : Z :=
  if filtered_out piece then hash
  else
    let hash := hash_step hash (p_hash piece) in
    if p_request_color_pick piece then
      if colorpicker_size then hash_bytes hash (p_color_picker_box piece)
      else hash_bytes hash (p_color_picker_point piece)
    else hash.

(** The loop runs over the first [module] pieces, or all of them. The sum that
    starts the hash is an [unsigned int]. *)
Definition dt_dev_pixelpipe_cache_basichash (imgid : Z) (pipe : dt_dev_pixelpipe_t)
    (module : Z) : Z :=
  let hash := wrap_u32 (5381 + imgid + Z.land (pipe_type pipe) DT_DEV_PIXELPIPE_FAST) in
  foldl hash_piece hash (take (Z.to_nat module) (nodes pipe)).

(** The walk over modules and pieces in step, [k] counted from 1. *)
Fixpoint last_active (module : nat) (k last : Z) (modules : list nat)
    (pieces : list dt_dev_pixelpipe_iop_t) : Z :=
  match modules, pieces with
  | m :: modules', piece :: pieces' =>
      if (module =? m)%nat then last
      else last_active module (k + 1)
             (if p_enabled piece && negb (filtered_out piece) then k else last)
             modules' pieces'
  | _, _ => last
  end.

Definition dt_dev_pixelpipe_cache_basichash_prior (imgid : Z) (pipe : dt_dev_pixelpipe_t)
    (module : nat) : Z :=
  let last := last_active module 1 (-1) (pipe_iop pipe) (nodes pipe) in
  if 0 <=? last then dt_dev_pixelpipe_cache_basichash imgid pipe last else INVALID.

(** Both hashes; [roi] is the bytes of the dt_iop_roi_t. *)
Definition dt_dev_pixelpipe_cache_fullhash (imgid : Z) (roi : list ascii)
    (pipe : dt_dev_pixelpipe_t) (module : Z) : Z * Z :=
  let basichash := dt_dev_pixelpipe_cache_basichash imgid pipe module in
  (basichash, hash_bytes basichash roi).

Definition dt_dev_pixelpipe_cache_hash (imgid : Z) (roi : list ascii)
    (pipe : dt_dev_pixelpipe_t) (module : Z) : Z :=
  snd (dt_dev_pixelpipe_cache_fullhash imgid roi pipe module).

End hashes.

(** ** The cache *)

Section cache.
Context {Dsc : Type}.

Record cache_line := Line {
  l_data : Z;
  l_size : Z;
  l_dsc : Dsc;
  l_basichash : Z;
  l_hash : Z;
  l_used : Z;
}.

Record dt_dev_pixelpipe_cache_t := PCache {
  lines : list cache_line;
  queries : Z;
  misses : Z;
}.

Definition entries (cache : dt_dev_pixelpipe_cache_t) : Z := Z.of_nat (length (lines cache)).

(** The initialisation loop from line [k] on; [None] is the jump to
    alloc_memory_fail. *)
Fixpoint init_lines (alloc : nat -> Z) (dsc0 : Dsc) (size : Z) (k n : nat)
    : option (list cache_line) :=
  match n with
  | O => Some []
  | S n =>
      let data := if negb (size =? 0) then alloc k else 0 in
      if negb (size =? 0) && (data =? 0) then None
      else cons (Line data size dsc0 INVALID INVALID 0) <$> init_lines alloc dsc0 size (S k) n
  end.

(** On failure every buffer is freed and every line is left without one; lines
    the loop did not reach hold the zeros of calloc. *)
Fixpoint failed_lines (alloc : nat -> Z) (dsc0 : Dsc) (size : Z) (k n : nat) (reached : bool)
    : list cache_line :=
  match n with
  | O => []
  | S n =>
      let ok := reached && negb (alloc k =? 0) in
      (if ok then Line 0 0 dsc0 INVALID INVALID 0 else Line 0 0 dsc0 0 0 0)
        :: failed_lines alloc dsc0 size (S k) n ok
  end.

Definition dt_dev_pixelpipe_cache_init (alloc : nat -> Z) (dsc0 : Dsc) (n : nat) (size : Z)
    (cache : dt_dev_pixelpipe_cache_t) : Z * dt_dev_pixelpipe_cache_t :=
  match init_lines alloc dsc0 size 0 n with
  | Some ls => (1, PCache ls 0 0)
  | None => (0, PCache (failed_lines alloc dsc0 size 0 n true) (queries cache) (misses cache))
  end.

Definition dt_dev_pixelpipe_cache_available (cache : dt_dev_pixelpipe_cache_t) (hash : Z) : bool :=
  existsb (fun l => l_hash l =? hash) (lines cache).

(** The state of the search loop: the oldest line so far, and what *data, sz and
    *dsc hold. *)
Record search := Search {
  max_used : Z;
  max : nat;
  s_data : Z;
  s_sz : Z;
  s_dsc : Dsc;
}.

Definition set_used (v : Z) (l : cache_line) : cache_line :=
  Line (l_data l) (l_size l) (l_dsc l) (l_basichash l) (l_hash l) v.

(** Ageing and matching of one line, then the next. *)
Fixpoint search_loop (hash weight : Z) (k : nat) (ls : list cache_line) (s : search)
    : list cache_line * search :=
  match ls with
  | [] => ([], s)
  | l :: ls' =>
      let s := if l_used l >? max_used s
               then Search (l_used l) k (s_data s) (s_sz s) (s_dsc s) else s in
      let l := set_used (l_used l + 1) l in
      let '(l, s) :=
        if l_hash l =? hash
        then (set_used weight l, Search (max_used s) (max s) (l_data l) (l_size l) (l_dsc l))
        else (l, s) in
      let '(ls', s) := search_loop hash weight (S k) ls' s in
      (l :: ls', s)
  end.

(** Returns the C result, *data, the content of **dsc and the new cache. Without
    any line the C code indexes outside its arrays. *)
Definition dt_dev_pixelpipe_cache_get_weighted (alloc : Z) (cache : dt_dev_pixelpipe_cache_t)
    (basichash hash size : Z) (dsc : Dsc) (weight : Z)
    : c_result (Z * Z * Dsc * dt_dev_pixelpipe_cache_t) :=
  let queries := wrap_u64 (queries cache + 1) in
  let '(ls, s) := search_loop hash weight 0 (lines cache) (Search (-1) 0 0 0 dsc) in
  if (s_data s =? 0) || (s_sz s <? size) then
    match ls !! max s with
    | None => Undefined
    | Some l =>
        let '(data, sz) := if l_size l <? size then (alloc, size) else (l_data l, l_size l) in
        let l := Line data sz (s_dsc s) basichash hash weight in
        Done (1, data, s_dsc s, PCache (<[max s := l]> ls) queries (wrap_u64 (misses cache + 1)))
    end
  else Done (0, s_data s, s_dsc s, PCache ls queries (misses cache)).

Definition dt_dev_pixelpipe_cache_get_important (alloc : Z) (cache : dt_dev_pixelpipe_cache_t)
    (basichash hash size : Z) (dsc : Dsc) :=
  dt_dev_pixelpipe_cache_get_weighted alloc cache basichash hash size dsc (- entries cache).

Definition dt_dev_pixelpipe_cache_get (alloc : Z) (cache : dt_dev_pixelpipe_cache_t)
    (basichash hash size : Z) (dsc : Dsc) :=
  dt_dev_pixelpipe_cache_get_weighted alloc cache basichash hash size dsc 0.

Definition on_lines (f : cache_line -> cache_line) (cache : dt_dev_pixelpipe_cache_t) :=
  PCache (map f (lines cache)) (queries cache) (misses cache).

Definition flush_line (l : cache_line) : cache_line :=
  Line (l_data l) (l_size l) (l_dsc l) INVALID INVALID 0.

Definition dt_dev_pixelpipe_cache_flush (cache : dt_dev_pixelpipe_cache_t) :=
  on_lines flush_line cache.

Definition dt_dev_pixelpipe_cache_flush_all_but (cache : dt_dev_pixelpipe_cache_t)
    (basichash : Z) :=
  on_lines (fun l => if l_basichash l =? basichash then l else flush_line l) cache.

Definition dt_dev_pixelpipe_cache_reweight (cache : dt_dev_pixelpipe_cache_t) (data : Z) :=
  on_lines (fun l => if l_data l =? data then set_used (- entries cache) l else l) cache.

Definition dt_dev_pixelpipe_cache_invalidate (cache : dt_dev_pixelpipe_cache_t) (data : Z) :=
  on_lines (fun l => if l_data l =? data
    then Line (l_data l) (l_size l) (l_dsc l) INVALID INVALID (l_used l) else l) cache.

End cache.
Arguments cache_line : clear implicits.
Arguments dt_dev_pixelpipe_cache_t : clear implicits.
Arguments search : clear implicits.

(** ** Lemmas: the hash *)

Section hash_lemmas.

Lemma hash_step_mul hash v : hash_step hash v = Z.lxor (wrap_u64 (33 * hash)) (wrap_u64 v).
Proof. unfold hash_step. rewrite Z.shiftl_mul_pow2 by lia. do 2 f_equal. lia. Qed.

Lemma lxor_range a b : 0 <= a < 2 ^ 64 -> 0 <= b < 2 ^ 64 -> 0 <= Z.lxor a b < 2 ^ 64.
Proof.
  intros Ha Hb. split; [apply Z.lxor_nonneg; lia|].
  destruct (Z.eqb_spec (Z.lxor a b) 0) as [->|Hne]; [lia|].
  assert (0 <= Z.lxor a b) by (apply Z.lxor_nonneg; lia).
  apply Z.log2_lt_pow2; [lia|].
  pose proof (Z.log2_lxor a b ltac:(lia) ltac:(lia)).
  assert (forall z, 0 <= z < 2 ^ 64 -> Z.log2 z < 64) as Hl.
  { intros z Hz. destruct (Z.eqb_spec z 0) as [->|]; [cbn; lia|]. apply Z.log2_lt_pow2; lia. }
  pose proof (Hl a Ha). pose proof (Hl b Hb). lia.
Qed.

Lemma hash_step_range hash v : 0 <= hash_step hash v < 2 ^ 64.
Proof. rewrite hash_step_mul. apply lxor_range; apply wrap_u64_range. Qed.

(** 33 has an inverse modulo 2 to the 64. *)
Lemma mul_33_inj a b :
  0 <= a < 2 ^ 64 -> 0 <= b < 2 ^ 64 -> wrap_u64 (33 * a) = wrap_u64 (33 * b) -> a = b.
Proof.
  unfold wrap_u64. intros Ha Hb H.
  assert (forall z, 0 <= z < 2 ^ 64 ->
    (1117984489315730401 * ((33 * z) mod 2 ^ 64)) mod 2 ^ 64 = z) as Hinv.
  { intros z Hz. rewrite Zmult_mod_idemp_r, Z.mul_assoc.
    rewrite <- Zmult_mod_idemp_l.
    change ((1117984489315730401 * 33) mod 2 ^ 64) with 1. rewrite Z.mul_1_l.
    by apply Z.mod_small. }
  rewrite <- (Hinv a Ha), <- (Hinv b Hb), H. done.
Qed.

Lemma lxor_cancel_r a b c : Z.lxor a c = Z.lxor b c -> a = b.
Proof.
  intros H. apply (f_equal (fun x => Z.lxor x c)) in H.
  by rewrite !Z.lxor_assoc, Z.lxor_nilpotent, !Z.lxor_0_r in H.
Qed.

Lemma hash_step_inj_hash h h' v :
  0 <= h < 2 ^ 64 -> 0 <= h' < 2 ^ 64 -> hash_step h v = hash_step h' v -> h = h'.
Proof. rewrite !hash_step_mul. intros ?? ?%lxor_cancel_r. by apply mul_33_inj. Qed.

Lemma hash_step_inj_value h v v' :
  0 <= v < 2 ^ 64 -> 0 <= v' < 2 ^ 64 -> hash_step h v = hash_step h v' -> v = v'.
Proof.
  rewrite !hash_step_mul, !(Z.lxor_comm (wrap_u64 (33 * h))). intros Hv Hv' H%lxor_cancel_r.
  by rewrite !wrap_u64_id in H.
Qed.

Lemma hash_bytes_range h bs : 0 <= h < 2 ^ 64 -> 0 <= hash_bytes h bs < 2 ^ 64.
Proof.
  revert h. induction bs as [|b bs IH]; intros h Hh; [done|]. cbn. apply IH, hash_step_range.
Qed.

Lemma hash_bytes_inj h h' bs :
  0 <= h < 2 ^ 64 -> 0 <= h' < 2 ^ 64 -> hash_bytes h bs = hash_bytes h' bs -> h = h'.
Proof.
  revert h h'. induction bs as [|b bs IH]; intros h h' Hh Hh' H; [done|].
  cbn in H. apply IH in H; [|apply hash_step_range..].
  by apply hash_step_inj_hash in H.
Qed.

Context (gui : option Z) (cps : bool).

Lemma hash_piece_range h piece :
  0 <= h < 2 ^ 64 -> 0 <= hash_piece gui cps h piece < 2 ^ 64.
Proof.
  intros Hh. unfold hash_piece.
  destruct (filtered_out gui piece), (p_request_color_pick piece), cps; try done;
    try apply hash_bytes_range; apply hash_step_range.
Qed.

Lemma hash_piece_inj h h' piece :
  0 <= h < 2 ^ 64 -> 0 <= h' < 2 ^ 64 ->
  hash_piece gui cps h piece = hash_piece gui cps h' piece -> h = h'.
Proof.
  intros Hh Hh'. unfold hash_piece.
  destruct (filtered_out gui piece), (p_request_color_pick piece), cps; try done; intros H;
    try (apply hash_bytes_inj in H; [|apply hash_step_range..]);
    by apply hash_step_inj_hash in H.
Qed.

Lemma hash_pieces_range h ps :
  0 <= h < 2 ^ 64 -> 0 <= foldl (hash_piece gui cps) h ps < 2 ^ 64.
Proof.
  revert h. induction ps as [|p ps IH]; intros h Hh; [done|]. cbn. by apply IH, hash_piece_range.
Qed.

Lemma hash_pieces_inj h h' ps :
  0 <= h < 2 ^ 64 -> 0 <= h' < 2 ^ 64 ->
  foldl (hash_piece gui cps) h ps = foldl (hash_piece gui cps) h' ps -> h = h'.
Proof.
  revert h h'. induction ps as [|p ps IH]; intros h h' Hh Hh' H; [done|].
  cbn in H. apply IH in H; [|by apply hash_piece_range..]. by apply hash_piece_inj in H.
Qed.

(** The same piece with another parameter hash. *)
Definition with_hash (piece : dt_dev_pixelpipe_iop_t) (h : Z) : dt_dev_pixelpipe_iop_t :=
  Piece (p_module piece) h (p_enabled piece) (p_operation_tags piece)
        (p_request_color_pick piece) (p_color_picker_box piece) (p_color_picker_point piece).

Lemma hash_piece_params_inj h piece v v' :
  filtered_out gui piece = false -> 0 <= v < 2 ^ 64 -> 0 <= v' < 2 ^ 64 ->
  hash_piece gui cps h (with_hash piece v) = hash_piece gui cps h (with_hash piece v') -> v = v'.
Proof.
  intros Hf Hv Hv'. unfold hash_piece.
  change (filtered_out gui (with_hash piece v)) with (filtered_out gui piece).
  change (filtered_out gui (with_hash piece v')) with (filtered_out gui piece).
  rewrite Hf. cbn. destruct (p_request_color_pick piece), cps; intros H;
    try (apply hash_bytes_inj in H; [|apply hash_step_range..]);
    by apply hash_step_inj_value in H.
Qed.

End hash_lemmas.

(** ** Lemmas: the search loop *)

Section search_lemmas.
Context {Dsc : Type}.
Implicit Types (l : cache_line Dsc) (ls : list (cache_line Dsc)) (s : search Dsc).

(** What a query does to a line it does not replace. *)
Definition aged (hash weight : Z) l : cache_line Dsc :=
  set_used (if l_hash l =? hash then weight else l_used l + 1) l.

Lemma search_loop_lines hash weight k ls s :
  fst (search_loop hash weight k ls s) = map (aged hash weight) ls.
Proof.
  revert k s. induction ls as [|l ls IH]; intros k s; [done|]. cbn [search_loop map].
  set (s1 := if l_used l >? max_used s then _ else s).
  change (l_hash (set_used (l_used l + 1) l)) with (l_hash l). unfold aged at 1.
  destruct (l_hash l =? hash);
    match goal with |- context [search_loop hash weight (S k) ls ?s'] =>
      pose proof (IH (S k) s'); destruct (search_loop hash weight (S k) ls s') end;
    cbn in *; by subst.
Qed.

Lemma search_loop_no_match hash weight k ls s :
  Forall (fun l => l_hash l <> hash) ls ->
  let s' := snd (search_loop hash weight k ls s) in
  s_data s' = s_data s /\ s_sz s' = s_sz s /\ s_dsc s' = s_dsc s.
Proof.
  intros Hls. revert k s. induction Hls as [|l ls Hl Hls IH]; intros k s; [done|].
  cbn [search_loop]. set (s1 := if l_used l >? max_used s then _ else s).
  change (l_hash (set_used (l_used l + 1) l)) with (l_hash l).
  destruct (Z.eqb_spec (l_hash l) hash); [done|].
  pose proof (IH (S k) s1) as H. destruct (search_loop _ _ _ _ _).
  cbn in *. destruct H as (-> & -> & ->). unfold s1. by destruct (_ >? _).
Qed.

Lemma search_loop_match hash weight k ls1 l ls2 s :
  Forall (fun l => l_hash l <> hash) ls2 -> l_hash l = hash ->
  let s' := snd (search_loop hash weight k (ls1 ++ l :: ls2) s) in
  s_data s' = l_data l /\ s_sz s' = l_size l /\ s_dsc s' = l_dsc l.
Proof.
  intros H2 Hl. revert k s. induction ls1 as [|x ls1 IH]; intros k s; cbn [app search_loop].
  - set (s1 := if l_used l >? max_used s then _ else s).
    change (l_hash (set_used (l_used l + 1) l)) with (l_hash l). rewrite Hl, Z.eqb_refl.
    match goal with |- context [search_loop hash weight (S k) ls2 ?s'] =>
      pose proof (search_loop_no_match hash weight (S k) ls2 s' H2) as H;
      destruct (search_loop hash weight (S k) ls2 s') end.
    exact H.
  - set (s1 := if l_used x >? max_used s then _ else s).
    destruct (l_hash (set_used (l_used x + 1) x) =? hash);
      match goal with |- context [search_loop hash weight (S k) (ls1 ++ l :: ls2) ?s'] =>
        pose proof (IH (S k) s') as H; destruct (search_loop hash weight (S k) (ls1 ++ l :: ls2) s') end;
      exact H.
Qed.

(** The line chosen for replacement has been unused for the longest time. *)
Lemma search_loop_max hash weight k ls s :
  let s' := snd (search_loop hash weight k ls s) in
  max_used s <= max_used s' /\ Forall (fun l => l_used l <= max_used s') ls /\
  ((max_used s' = max_used s /\ max s' = max s) \/
   exists i l, ls !! i = Some l /\ max s' = (k + i)%nat /\ l_used l = max_used s' /\
     max_used s < l_used l).
Proof.
  revert k s. induction ls as [|l ls IH]; intros k s; [by split_and!; try left|].
  cbn [search_loop]. set (s1 := if l_used l >? max_used s then _ else s).
  assert (max_used s <= max_used s1 /\ l_used l <= max_used s1 /\
    ((max_used s1 = max_used s /\ max s1 = max s) \/
     (max s1 = k /\ max_used s1 = l_used l /\ max_used s < l_used l))) as (Ha & Hb & Hc).
  { unfold s1. rewrite Z.gtb_ltb. destruct (Z.ltb_spec (max_used s) (l_used l)); cbn;
      split_and!; lia. }
  assert (forall s2 l', max_used s2 = max_used s1 -> max s2 = max s1 ->
    let s' := snd (let '(ls', s) := search_loop hash weight (S k) ls s2 in (l' :: ls', s)) in
    max_used s <= max_used s' /\ Forall (fun l => l_used l <= max_used s') (l :: ls) /\
    ((max_used s' = max_used s /\ max s' = max s) \/
     exists i x, (l :: ls) !! i = Some x /\ max s' = (k + i)%nat /\ l_used x = max_used s' /\
       max_used s < l_used x)) as Hgoal;
    [|destruct (_ =? hash); by apply Hgoal].
  intros s2 l' Hu Hm.
  replace (snd (let '(ls', s) := search_loop hash weight (S k) ls s2 in (l' :: ls', s)))
    with (snd (search_loop hash weight (S k) ls s2)) by (by destruct (search_loop _ _ _ _ _)).
  destruct (IH (S k) s2) as (H1 & H2 & H3). rewrite Hu, Hm in *.
  split; [lia|]. split; [constructor; [lia|done]|].
  destruct H3 as [(-> & ->)|(i & x & Hi & -> & Hx & Hlt)].
  - destruct Hc as [?|(-> & -> & ?)]; [by left|]. right. exists 0%nat, l. split_and!; done || lia.
  - right. exists (S i), x. split_and!; try done; lia.
Qed.

End search_lemmas.

(** ** Lemmas: queries *)

Section get_lemmas.
Context {Dsc : Type}.
Implicit Types (l : cache_line Dsc) (ls : list (cache_line Dsc)) (cache : dt_dev_pixelpipe_cache_t Dsc).

(** A line that answers a query: it alone has the hash, and its buffer is there
    and large enough. *)
Definition usable_at (i : nat) (hash size : Z) ls l : Prop :=
  ls !! i = Some l /\ l_hash l = hash /\ l_data l <> 0 /\ size <= l_size l /\
  forall j l', ls !! j = Some l' -> l_hash l' = hash -> j = i.

Lemma split_at_unique i hash ls l :
  ls !! i = Some l -> (forall j l', ls !! j = Some l' -> l_hash l' = hash -> j = i) ->
  exists ls1 ls2, ls = ls1 ++ l :: ls2 /\ Forall (fun l => l_hash l <> hash) ls2.
Proof.
  intros Hi Hu. exists (take i ls), (drop (S i) ls). split; [symmetry; by apply take_drop_middle|].
  apply Forall_lookup. intros j x Hx Heq. rewrite lookup_drop in Hx. apply Hu in Hx; [lia|done].
Qed.

Lemma lines_hit alloc cache basichash hash size dsc weight i l :
  usable_at i hash size (lines cache) l ->
  dt_dev_pixelpipe_cache_get_weighted alloc cache basichash hash size dsc weight =
    Done (0, l_data l, l_dsc l,
          PCache (map (aged hash weight) (lines cache)) (wrap_u64 (queries cache + 1))
                 (misses cache)).
Proof.
  intros (Hi & Hh & Hd & Hs & Hu). unfold dt_dev_pixelpipe_cache_get_weighted.
  destruct (split_at_unique _ _ _ _ Hi Hu) as (ls1 & ls2 & Hls & H2).
  pose proof (search_loop_lines hash weight 0 (lines cache) (Search (-1) 0 0 0 dsc)) as Hl.
  pose proof (search_loop_match hash weight 0 ls1 l ls2 (Search (-1) 0 0 0 dsc) H2 Hh) as Hm.
  rewrite <- Hls in Hm. destruct (search_loop _ _ _ _ _) as [ls s]. cbn in Hl, Hm.
  destruct Hm as (-> & -> & ->). rewrite <- Hl.
  destruct (Z.eqb_spec (l_data l) 0); [done|]. destruct (Z.ltb_spec (l_size l) size); [lia|]. done.
Qed.

(** The line a miss replaces. *)
Definition oldest_at (i : nat) ls : Prop :=
  exists l, ls !! i = Some l /\
    (Forall (fun l' => l_used l' <= l_used l) ls \/
     (i = 0%nat /\ Forall (fun l' => l_used l' < 0) ls)).

Lemma lines_miss alloc cache basichash hash size dsc weight :
  lines cache <> [] -> Forall (fun l => l_hash l <> hash) (lines cache) ->
  exists i l data sz, lines cache !! i = Some l /\ oldest_at i (lines cache) /\
    (data, sz) = (if l_size l <? size then (alloc, size) else (l_data l, l_size l)) /\
    dt_dev_pixelpipe_cache_get_weighted alloc cache basichash hash size dsc weight =
      Done (1, data, dsc,
        PCache (<[i := Line data sz dsc basichash hash weight]>
                  (map (aged hash weight) (lines cache)))
               (wrap_u64 (queries cache + 1)) (wrap_u64 (misses cache + 1))).
Proof.
  intros Hne Hno. unfold dt_dev_pixelpipe_cache_get_weighted.
  pose proof (search_loop_lines hash weight 0 (lines cache) (Search (-1) 0 0 0 dsc)) as Hl.
  pose proof (search_loop_no_match hash weight 0 (lines cache) (Search (-1) 0 0 0 dsc) Hno) as Hm.
  pose proof (search_loop_max hash weight 0 (lines cache) (Search (-1) 0 0 0 dsc)) as (Hx1 & Hx2 & Hx3).
  destruct (search_loop _ _ _ _ _) as [ls s]. cbn in Hl, Hm, Hx1, Hx2, Hx3. subst ls.
  destruct Hm as (-> & -> & ->). cbn [Z.eqb orb].
  assert (exists l, lines cache !! max s = Some l /\ oldest_at (max s) (lines cache)) as (l & Hi & Ho).
  { destruct Hx3 as [[Hu Hm]|(i & l & Hi & Hm & Hu & _)].
    - rewrite Hm. destruct (lines cache) as [|l ls] eqn:E; [done|].
      exists l. split; [done|]. exists l. split; [done|]. right. split; [done|].
      eapply Forall_impl; [exact Hx2|]. cbn. lia.
    - rewrite Hm. exists l. split; [done|]. exists l. split; [done|]. left.
      by rewrite Hu. }
  assert (map (aged hash weight) (lines cache) !! max s = Some (aged hash weight l)) as ->
    by (by rewrite list_lookup_fmap, Hi).
  change (l_size (aged hash weight l)) with (l_size l).
  change (l_data (aged hash weight l)) with (l_data l).
  destruct (l_size l <? size) eqn:E; exists (max s), l; do 2 eexists;
    (split; [done|]; split; [done|]; rewrite E; done).
Qed.

Lemma aged_lookup hash weight ls i l :
  ls !! i = Some l -> map (aged hash weight) ls !! i = Some (aged hash weight l).
Proof. intros H. by rewrite list_lookup_fmap, H. Qed.

Lemma aged_lookup_inv hash weight ls i x :
  map (aged hash weight) ls !! i = Some x -> exists l, ls !! i = Some l /\ x = aged hash weight l.
Proof.
  intros H. rewrite list_lookup_fmap in H. destruct (ls !! i) as [l|]; [|done].
  cbn in H. simplify_eq. by exists l.
Qed.

End get_lemmas.

(** ** Properties *)

(** A query for a hash that one line holds in a large enough buffer is a hit:
    it returns that line's buffer and descriptor, and changes nothing but the ages
    of the lines and the query counter. *)
Theorem cache_hit {Dsc} alloc (cache : dt_dev_pixelpipe_cache_t Dsc) basichash hash size dsc weight i l
    (Hus : usable_at i hash size (lines cache) l) :
  exists cache',
    dt_dev_pixelpipe_cache_get_weighted alloc cache basichash hash size dsc weight =
      Done (0, l_data l, l_dsc l, cache') /\
    lines cache' = map (aged hash weight) (lines cache) /\ misses cache' = misses cache.
Proof. eexists. by rewrite (lines_hit _ _ _ _ _ _ _ _ _ Hus). Qed.

Definition example_cache : dt_dev_pixelpipe_cache_t Z :=
  PCache [Line 1000 64 0 11 12 3; Line 2000 64 0 21 22 0; Line 3000 64 0 31 32 (-3)] 9 4.

Lemma cache_hit_witness :
  exists cache', dt_dev_pixelpipe_cache_get_weighted 0 example_cache 21 22 64 5 0 =
      Done (0, 2000, 0, cache') /\
    lines cache' = map (aged 22 0) (lines example_cache) /\ misses cache' = misses example_cache.
Proof.
  apply (cache_hit 0 example_cache 21 22 64 5 0 1 (Line 2000 64 0 21 22 0)).
  split; [reflexivity|]. split; [reflexivity|]. split; [discriminate|]. split; [cbn; lia|].
  intros [|[|[|j]]] l' Hl; cbn in Hl; simplify_eq; cbn; lia.
Defined.

(** A query for a hash that no line holds is a miss: the line that has been
    unused for the longest time (line 0 if every line is marked as important) is
    given a buffer of at least the requested size and the new hashes and
    descriptor; every other line only ages. *)
Theorem cache_miss {Dsc} alloc (cache : dt_dev_pixelpipe_cache_t Dsc) basichash hash size dsc weight
    (Hne : lines cache <> []) (Hno : Forall (fun l => l_hash l <> hash) (lines cache)) :
  exists i l data sz cache', lines cache !! i = Some l /\ oldest_at i (lines cache) /\
    dt_dev_pixelpipe_cache_get_weighted alloc cache basichash hash size dsc weight =
      Done (1, data, dsc, cache') /\
    (data, sz) = (if l_size l <? size then (alloc, size) else (l_data l, l_size l)) /\
    size <= sz /\
    lines cache' = <[i := Line data sz dsc basichash hash weight]>
                     (map (aged hash weight) (lines cache)).
Proof.
  destruct (lines_miss alloc cache basichash hash size dsc weight Hne Hno)
    as (i & l & data & sz & Hi & Ho & Hd & Hget).
  exists i, l, data, sz. eexists. split_and!; try done.
  destruct (Z.ltb_spec (l_size l) size); simplify_eq; lia.
Qed.

Lemma cache_miss_witness :
  exists i l data sz cache', lines example_cache !! i = Some l /\ oldest_at i (lines example_cache) /\
    dt_dev_pixelpipe_cache_get_weighted 4000 example_cache 41 42 128 5 0 =
      Done (1, data, 5, cache') /\
    (data, sz) = (if l_size l <? 128 then (4000, 128) else (l_data l, l_size l)) /\
    128 <= sz /\
    lines cache' = <[i := Line data sz 5 41 42 0]> (map (aged 42 0) (lines example_cache)).
Proof.
  apply (cache_miss 4000 example_cache 41 42 128 5 0); [discriminate|].
  repeat constructor; discriminate.
Defined.

(** What was put into the cache is found again: after a miss that got a
    buffer, the next query for the same hash and size is a hit on that buffer
    with the descriptor given first. *)
Theorem cache_miss_then_hit {Dsc} alloc alloc' (cache cache' : dt_dev_pixelpipe_cache_t Dsc)
    basichash hash size dsc dsc' weight weight' data
    (Hne : lines cache <> []) (Hno : Forall (fun l => l_hash l <> hash) (lines cache))
    (Hget : dt_dev_pixelpipe_cache_get_weighted alloc cache basichash hash size dsc weight =
              Done (1, data, dsc, cache')) (Hdata : data <> 0) :
  exists cache'',
    dt_dev_pixelpipe_cache_get_weighted alloc' cache' basichash hash size dsc' weight' =
      Done (0, data, dsc, cache'').
Proof.
  destruct (lines_miss alloc cache basichash hash size dsc weight Hne Hno)
    as (i & l & d & sz & Hi & _ & Hd & Hget'). rewrite Hget in Hget'. simplify_eq.
  eexists. rewrite (lines_hit _ _ _ _ _ _ _ i (Line d sz dsc basichash hash weight)); [done|]. cbn [lines].
  pose proof (lookup_lt_Some _ _ _ Hi) as Hlt.
  split; [apply list_lookup_insert_eq; by rewrite length_map|]. cbn.
  split; [done|]. split; [done|]. split.
  { destruct (Z.ltb_spec (l_size l) size); simplify_eq; lia. }
  intros j l' Hj Hh. destruct (decide (j = i)) as [|Hji]; [done|].
  rewrite list_lookup_insert_ne in Hj by done. apply aged_lookup_inv in Hj as (l0 & Hj & ->).
  rewrite Forall_lookup in Hno. by specialize (Hno j l0 Hj).
Qed.

Lemma cache_miss_then_hit_witness :
  exists cache'', dt_dev_pixelpipe_cache_get_weighted 0
      (PCache [Line 4000 128 5 41 42 0; Line 2000 64 0 21 22 1; Line 3000 64 0 31 32 (-2)] 10 5)
      41 42 128 7 0 = Done (0, 4000, 5, cache'').
Proof.
  apply (cache_miss_then_hit 4000 0 example_cache _ 41 42 128 5 7 0 0 4000);
    [discriminate|repeat constructor; discriminate|reflexivity|discriminate].
Defined.

(** A line marked as important is not given away while a line without the
    mark is left: no query for another hash changes its buffer, hashes or
    descriptor. *)
Theorem important_line_survives {Dsc} alloc (cache : dt_dev_pixelpipe_cache_t Dsc)
    basichash hash size dsc weight i j l l' out
    (Hno : Forall (fun l => l_hash l <> hash) (lines cache))
    (Hi : lines cache !! i = Some l) (Himp : l_used l < 0)
    (Hj : lines cache !! j = Some l') (Hold : 0 <= l_used l')
    (Hget : dt_dev_pixelpipe_cache_get_weighted alloc cache basichash hash size dsc weight = Done out) :
  lines (snd out) !! i = Some (aged hash weight l).
Proof.
  destruct (lines_miss alloc cache basichash hash size dsc weight) as (k & x & d & sz & Hk & Ho & _ & Hg);
    [by intros E; rewrite E in Hi|done|].
  rewrite Hget in Hg. simplify_eq. cbn.
  destruct (decide (k = i)) as [->|]; [|by rewrite list_lookup_insert_ne; [apply aged_lookup|]].
  exfalso. destruct Ho as (x' & Hx' & [Hall|[_ Hall]]); rewrite Forall_lookup in Hall;
    specialize (Hall j l' Hj); simplify_eq; lia.
Qed.

Lemma important_line_survives_witness :
  lines (PCache [Line 4000 128 5 41 42 0; Line 2000 64 0 21 22 1; Line 3000 64 0 31 32 (-2)] 10 5) !! 2%nat
    = Some (Line 3000 64 0 31 32 (-2)).
Proof.
  apply (important_line_survives 4000 example_cache 41 42 128 5 0 2 0
    (Line 3000 64 0 31 32 (-3)) (Line 1000 64 0 11 12 3)
    (1, 4000, 5, PCache [Line 4000 128 5 41 42 0; Line 2000 64 0 21 22 1;
                         Line 3000 64 0 31 32 (-2)] 10 5));
    [repeat constructor; discriminate|reflexivity|reflexivity|reflexivity|cbn; lia|reflexivity].
Defined.

(** After [dt_dev_pixelpipe_cache_flush_all_but] a (valid) hash is available
    exactly if a line of the given basic hash held it before; a flush of all
    lines leaves nothing available. *)
Theorem flush_availability {Dsc} (cache : dt_dev_pixelpipe_cache_t Dsc) basichash hash
    (Hh : hash <> INVALID) :
  (dt_dev_pixelpipe_cache_available (dt_dev_pixelpipe_cache_flush_all_but cache basichash) hash = true
    <-> exists l, l ∈ lines cache /\ l_basichash l = basichash /\ l_hash l = hash) /\
  dt_dev_pixelpipe_cache_available (dt_dev_pixelpipe_cache_flush cache) hash = false.
Proof.
  unfold dt_dev_pixelpipe_cache_available. cbn [lines dt_dev_pixelpipe_cache_flush_all_but
    dt_dev_pixelpipe_cache_flush on_lines]. split.
  - rewrite existsb_exists. setoid_rewrite in_map_iff. split.
    + intros (x & (l & Hl & Hin) & Hx). bool_to_prop. exists l. rewrite list_elem_of_In.
      destruct (Z.eqb_spec (l_basichash l) basichash); subst x; [done|]. by cbn in Hx.
    + intros (l & Hin%list_elem_of_In & Hb & Hl). exists l. rewrite Hl, Z.eqb_refl.
      split; [|done]. exists l. by rewrite Hb, Z.eqb_refl.
  - apply not_true_is_false. rewrite existsb_exists. setoid_rewrite in_map_iff.
    intros (x & (l & <- & _) & Hx). bool_to_prop. by cbn in Hx.
Qed.

Lemma flush_availability_witness :
  dt_dev_pixelpipe_cache_available (dt_dev_pixelpipe_cache_flush_all_but example_cache 21) 22 = true /\
  dt_dev_pixelpipe_cache_available (dt_dev_pixelpipe_cache_flush example_cache) 22 = false.
Proof.
  destruct (flush_availability example_cache 21 22) as [Ha Hf]; [discriminate|].
  split; [|exact Hf]. apply Ha. exists (Line 2000 64 0 21 22 0). split; [set_solver|done].
Defined.

(** Two pipes that differ in the parameters of a single module before the
    hashed point, one the focused module does not filter out, never share a basic
    hash, and so never share a cache line by accident. *)
Theorem basichash_separates_one_change gui cps imgid ty iop pre piece post v v' module
    (Hin : (length pre < Z.to_nat module)%nat) (Hf : filtered_out gui piece = false)
    (Hv : 0 <= v < 2 ^ 64) (Hv' : 0 <= v' < 2 ^ 64) (Hne : v <> v') :
  dt_dev_pixelpipe_cache_basichash gui cps imgid (Pipe ty (pre ++ with_hash piece v :: post) iop) module <>
  dt_dev_pixelpipe_cache_basichash gui cps imgid (Pipe ty (pre ++ with_hash piece v' :: post) iop) module.
Proof.
  unfold dt_dev_pixelpipe_cache_basichash. cbn [nodes pipe_type].
  assert (forall x, take (Z.to_nat module) (pre ++ x :: post) =
    pre ++ x :: take (Z.to_nat module - S (length pre)) post) as Ht.
  { intros x. rewrite take_app_ge by lia. f_equal.
    by replace (Z.to_nat module - length pre)%nat with (S (Z.to_nat module - S (length pre))) by lia. }
  rewrite !Ht, !foldl_app. cbn [foldl]. intros H. apply Hne.
  set (h0 := wrap_u32 _) in H.
  assert (0 <= h0 < 2 ^ 64) as Hh0.
  { pose proof (Z.mod_pos_bound (5381 + imgid + Z.land ty DT_DEV_PIXELPIPE_FAST) (2 ^ 32)).
    unfold h0, wrap_u32. lia. }
  apply hash_pieces_inj in H; [|by apply hash_piece_range, hash_pieces_range..].
  by apply hash_piece_params_inj in H.
Qed.

Lemma basichash_separates_one_change_witness :
  dt_dev_pixelpipe_cache_basichash None false 7
    (Pipe 2 [Piece 0 5 true 0 false [] []; Piece 1 6 true 0 false [] []] [0; 1]%nat) 2 <>
  dt_dev_pixelpipe_cache_basichash None false 7
    (Pipe 2 [Piece 0 9 true 0 false [] []; Piece 1 6 true 0 false [] []] [0; 1]%nat) 2.
Proof.
  apply (basichash_separates_one_change None false 7 2 [0; 1]%nat [] (Piece 0 5 true 0 false [] [])
    [Piece 1 6 true 0 false [] []] 5 9 2); cbn; lia || reflexivity.
Defined.

(** Asking for a cached hash with a larger size leaves two lines with that
    hash, and when the smaller one comes later in the arrays it hides the other:
    every further query misses and recycles one more line. *)
Theorem larger_request_hides_line :
  let c0 : dt_dev_pixelpipe_cache_t Z :=
    PCache [Line 1000 64 0 11 12 3; Line 2000 64 0 21 22 0] 0 0 in
  exists c1 c2,
    dt_dev_pixelpipe_cache_get 5000 c0 21 22 128 7 = Done (1, 5000, 0, c1) /\
    map l_hash (lines c1) = [22; 22] /\
    dt_dev_pixelpipe_cache_get 6000 c1 21 22 128 7 = Done (1, 5000, 0, c2) /\ misses c2 = 2.
Proof. do 2 eexists. split_and!; reflexivity. Qed.
