(* ===== verification/Cache.v ===== *)
(** The concurrent LRU cache of common/cache.c.

    Entries live in a heap of addresses, since the clients hold entry pointers:
    the hash table maps a key to an address, the lru list is the list of
    addresses, least recently used first. A freed entry is no longer in the
    heap, and following a pointer to it is [Undefined].

    Every function runs under the mutex of the cache from its lock to its
    unlock ([dt_cache_gc] is only called with the mutex held), so one pass through
    it is one atomic step. [goto restart], reached
    only after everything was unlocked again, ends the attempt with [Restart].
    Only the unlock of an entry and the writes of its demoting flag happen
    outside the mutex; they are steps of their own in the client system at the
    end of the definitions. Assertions and the address sanitizer's marks are
    left out. *)

From Stdlib Require Import Ascii.
From Stdlib Require Import SpecFloat.
From S2P Require Import Prelude.
Local Open Scope Z_scope.

(** ** binary32 arithmetic of the fill ratio *)

Abbreviation binary32 := spec_float.

(** The conversion of a size_t to float: round to nearest, ties to even. *)
Definition f32_of_size (z : Z) : binary32 := binary_normalize 24 128 z 0 false.
Definition f32_mul : binary32 -> binary32 -> binary32 := SFmul 24 128.

(** 0.8f *)
Definition f32_0_8 : binary32 := S754_finite false 13421773 (-24).

(** ** The read-write lock of an entry *)

Record rwlock := RW { readers : Z; writer : bool }.

Definition rwlock_free : rwlock := RW 0 false.

Definition dt_pthread_rwlock_trywrlock (l : rwlock) : option rwlock :=
  if writer l || negb (readers l =? 0) then None else Some (RW 0 true).

Definition dt_pthread_rwlock_tryrdlock (l : rwlock) : option rwlock :=
  if writer l then None else Some (RW (readers l + 1) false).

(** Unlocking a lock that nobody holds is undefined. *)
Definition dt_pthread_rwlock_unlock (l : rwlock) : c_result rwlock :=
  if writer l then Done rwlock_free
  else if 0 <? readers l then Done (RW (readers l - 1) false)
  else Undefined.

(** ** Data *)

Record dt_cache_entry_t := Entry {
  data : Z;
  data_size : Z;
  cost : Z;
  lock : rwlock;
  _lock_demoting : bool;
  key : Z;
}.

Definition with_lock (l : rwlock) (e : dt_cache_entry_t) : dt_cache_entry_t :=
  Entry (data e) (data_size e) (cost e) l (_lock_demoting e) (key e).

Definition with_demoting (b : bool) (e : dt_cache_entry_t) : dt_cache_entry_t :=
  Entry (data e) (data_size e) (cost e) (lock e) b (key e).

(** What the allocate callback decides about a new entry. *)
Record allocation := Allocation { a_data : Z; a_data_size : Z; a_cost : Z }.

(** [c_allocate] is the allocate callback applied to its user data, [c_cleanup]
    the user data of the cleanup callback; [None] is a callback that is not set. *)
Record dt_cache_t := Cache {
  entry_size : Z;
  c_cost : Z;
  cost_quota : Z;
  hashtable : gmap Z Z;
  lru : list Z;
  c_allocate : option (dt_cache_entry_t -> allocation);
  c_cleanup : option Z;
  heap : gmap Z dt_cache_entry_t;
}.

Definition update_entry (a : Z) (e : dt_cache_entry_t) (c : dt_cache_t) : dt_cache_t :=
  Cache (entry_size c) (c_cost c) (cost_quota c) (hashtable c) (lru c)
        (c_allocate c) (c_cleanup c) (<[a := e]> (heap c)).

(** How the payload of an entry is given up. *)
Inductive disposal :=
  | CleanupCallback (cleanup_data : Z) (e : dt_cache_entry_t)
  | FreeAlign (data : Z).

Definition dispose (c : dt_cache_t) (e : dt_cache_entry_t) : disposal :=
  match c_cleanup c with
  | Some cleanup_data => CleanupCallback cleanup_data e
  | None => FreeAlign (data e)
  end.

(** One attempt of a function that restarts when it finds an entry locked. *)
Inductive attempt (A : Type) :=
  | Return (a : A)
  | Restart.
Arguments Return {A} a.
Arguments Restart {A}.

(** ** Operations *)

Definition dt_cache_init (entry_size cost_quota : Z) : dt_cache_t :=
  Cache entry_size 0 cost_quota ∅ [] None None ∅.

Definition dt_cache_set_allocate_callback (c : dt_cache_t)
    (allocate : option (dt_cache_entry_t -> allocation)) : dt_cache_t :=
  Cache (entry_size c) (c_cost c) (cost_quota c) (hashtable c) (lru c)
        allocate (c_cleanup c) (heap c).

Definition dt_cache_set_cleanup_callback (c : dt_cache_t) (cleanup : option Z) : dt_cache_t :=
  Cache (entry_size c) (c_cost c) (cost_quota c) (hashtable c) (lru c)
        (c_allocate c) cleanup (heap c).

(** Follow an entry pointer. *)
Definition deref (c : dt_cache_t) (a : Z) : c_result dt_cache_entry_t :=
  match heap c !! a with
  | Some e => Done e
  | None => Undefined
  end.

(** Give up the payload of every entry, in lru order. *)
Fixpoint dt_cache_cleanup_loop (c : dt_cache_t) (l : list Z) : c_result (list disposal) :=
  match l with
  | [] => Done []
  | a :: l =>
      let* entry := deref c a in
      let* ds := dt_cache_cleanup_loop c l in
      Done (dispose c entry :: ds)
  end.

Definition dt_cache_cleanup (c : dt_cache_t) : c_result (list disposal) :=
  dt_cache_cleanup_loop c (lru c).

Definition dt_cache_contains (c : dt_cache_t) (key : Z) : bool :=
  bool_decide (is_Some (hashtable c !! key)).

(** [iter] is the order in which the hash table enumerates its pairs. *)
Fixpoint dt_cache_for_all {S} (process : Z -> Z -> S -> Z * S) (c : dt_cache_t)
    (iter : list (Z * Z)) (user_data : S) : c_result (Z * S) :=
  match iter with
  | [] => Done (0, user_data)
  | (k, a) :: iter =>
      let* entry := deref c a in
      let '(err, user_data) := process k (data entry) user_data in
      if negb (err =? 0) then Done (err, user_data)
      else dt_cache_for_all process c iter user_data
  end.

(** The link of [a] taken out of the lru list. *)
Definition remove_link (a : Z) (l : list Z) : list Z := filter (fun b => b <> a) l.

(** Bubble up in the lru list. *)
Definition bubble_up (a : Z) (c : dt_cache_t) : dt_cache_t :=
  Cache (entry_size c) (c_cost c) (cost_quota c) (hashtable c) (remove_link a (lru c) ++ [a])
        (c_allocate c) (c_cleanup c) (heap c).

Definition mode_w (mode : ascii) : bool := Ascii.eqb mode "w".

Definition trylock (mode : ascii) (l : rwlock) : option rwlock :=
  if mode_w mode then dt_pthread_rwlock_trywrlock l else dt_pthread_rwlock_tryrdlock l.

Definition dt_cache_testget (c : dt_cache_t) (k : Z) (mode : ascii)
    : c_result (option Z * dt_cache_t) :=
  match hashtable c !! k with
  | Some a =>
      let* entry := deref c a in
      match trylock mode (lock entry) with
      | None => Done (None, c)
      | Some l => Done (Some a, bubble_up a (update_entry a (with_lock l entry) c))
      end
  | None => Done (None, c)
  end.

(** [cache->cost < cache->cost_quota * fill_ratio] *)
Definition below_fill (c : dt_cache_t) (fill_ratio : binary32) : bool :=
  SFltb (f32_of_size (c_cost c)) (f32_mul (f32_of_size (cost_quota c)) fill_ratio).

(** The entry at [a], found under [k], leaves the hash table, the lru list, the
    cost and the heap. *)
Definition delete_entry (k a : Z) (e : dt_cache_entry_t) (c : dt_cache_t) : dt_cache_t :=
  Cache (entry_size c) (wrap_u64 (c_cost c - cost e)) (cost_quota c)
        (delete k (hashtable c)) (remove_link a (lru c))
        (c_allocate c) (c_cleanup c) (delete a (heap c)).

Fixpoint gc_loop (fill_ratio : binary32) (l : list Z) (c : dt_cache_t)
    : c_result (dt_cache_t * list disposal) :=
  match l with
  | [] => Done (c, [])
  | a :: l =>
      let* entry := deref c a in
      if below_fill c fill_ratio then Done (c, [])
      else
        match dt_pthread_rwlock_trywrlock (lock entry) with
        | None => gc_loop fill_ratio l c
        | Some _ =>
            if _lock_demoting entry then gc_loop fill_ratio l c
            else
              let* (c', ds) := gc_loop fill_ratio l (delete_entry (key entry) a entry c) in
              Done (c', dispose c entry :: ds)
        end
  end.

Definition dt_cache_gc (c : dt_cache_t) (fill_ratio : binary32)
    : c_result (dt_cache_t * list disposal) :=
  gc_loop fill_ratio (lru c) c.

(** [cache->cost > 0.8f * cache->cost_quota] *)
Definition gc_needed (c : dt_cache_t) : bool :=
  SFltb (f32_mul f32_0_8 (f32_of_size (cost_quota c))) (f32_of_size (c_cost c)).

(** What the allocate callback, or else dt_alloc_align with result [mem], makes
    of the new entry. *)
Definition allocate_entry (c : dt_cache_t) (mem : Z) (e : dt_cache_entry_t) : dt_cache_entry_t :=
  match c_allocate c with
  | Some allocate =>
      let al := allocate e in
      Entry (a_data al) (a_data_size al) (a_cost al) (lock e) (_lock_demoting e) (key e)
  | None => Entry mem (data_size e) (cost e) (lock e) (_lock_demoting e) (key e)
  end.

(** The new entry at the address [a] that g_slice_alloc returned; the boolean is
    [write]. *)
Definition insert_entry (c : dt_cache_t) (a mem k : Z) (mode : ascii) : bool * dt_cache_t :=
  let entry := allocate_entry c mem (Entry 0 (entry_size c) 1 rwlock_free false k) in
  let write := mode_w mode || bool_decide (is_Some (c_allocate c)) in
  let entry := with_lock (if write then RW 0 true else RW 1 false) entry in
  (write,
   Cache (entry_size c) (wrap_u64 (c_cost c + cost entry)) (cost_quota c)
         (<[k := a]> (hashtable c)) (lru c ++ [a]) (c_allocate c) (c_cleanup c)
         (<[a := entry]> (heap c))).

(** The result: the entry, whether it is write locked, what the garbage
    collection gave up, the new state. *)
Definition dt_cache_get (c : dt_cache_t) (a mem k : Z) (mode : ascii)
    : c_result (attempt (Z * bool * list disposal * dt_cache_t)) :=
  match hashtable c !! k with
  | Some a0 =>
      let* entry := deref c a0 in
      match trylock mode (lock entry) with
      | None => Done Restart
      | Some l =>
          Done (Return (a0, mode_w mode, [], bubble_up a0 (update_entry a0 (with_lock l entry) c)))
      end
  | None =>
      let* (c1, ds) := if gc_needed c then dt_cache_gc c f32_0_8 else Done (c, []) in
      let '(write, c2) := insert_entry c1 a mem k mode in
      Done (Return (a, write, ds, c2))
  end.

Definition dt_cache_remove (c : dt_cache_t) (k : Z)
    : c_result (attempt (Z * list disposal * dt_cache_t)) :=
  match hashtable c !! k with
  | None => Done (Return (1, [], c))
  | Some a =>
      let* entry := deref c a in
      match dt_pthread_rwlock_trywrlock (lock entry) with
      | None => Done Restart
      | Some _ =>
          if _lock_demoting entry then Done Restart
          else Done (Return (0, [dispose c entry], delete_entry k a entry c))
      end
  end.

Definition dt_cache_release (c : dt_cache_t) (a : Z) : c_result dt_cache_t :=
  let* entry := deref c a in
  let* l := dt_pthread_rwlock_unlock (lock entry) in
  Done (update_entry a (with_lock l entry) c).

(** ** The threads that use the cache *)

(** A thread holds entries it got, each locked for writing or for reading. *)
Record handle := Handle { h_thread : Z; h_entry : Z; h_write : bool }.

#[global] Instance handle_eq_dec : EqDecision handle.
Proof. solve_decision. Defined.

Record system := Sys { sys_cache : dt_cache_t; handles : list handle }.

(** [AGet] and [ARemove] are single attempts: a thread that has to restart does
    the same action again later. [ADemoting] is the write of the demoting flag by
    a thread that holds the entry, as dt_mipmap_cache_get does. *)
Inductive action :=
  | AGet (thread addr mem k : Z) (mode : ascii)
  | ATestget (thread k : Z) (mode : ascii)
  | ARemove (k : Z)
  | AGc (fill_ratio : binary32)
  | ARelease (h : handle)
  | ADemoting (h : handle) (b : bool).

(** What the clients keep to: only entries that are held are released or written
    to; an allocated address is not in use. *)
Definition allowed (s : system) (act : action) : Prop :=
  match act with
  | AGet _ addr _ _ _ => heap (sys_cache s) !! addr = None
  | ATestget _ _ _ | ARemove _ | AGc _ => True
  | ARelease h | ADemoting h _ => h ∈ handles s
  end.

#[global] Instance allowed_dec s act : Decision (allowed s act).
Proof. destruct act; cbn; apply _. Defined.

(** One handle less. *)
Fixpoint drop_handle (h : handle) (hs : list handle) : list handle :=
  match hs with
  | [] => []
  | h' :: hs => if decide (h = h') then hs else h' :: drop_handle h hs
  end.

Definition perform (s : system) (act : action) : c_result system :=
  let c := sys_cache s in
  match act with
  | AGet thread addr mem k mode =>
      let* r := dt_cache_get c addr mem k mode in
      match r with
      | Return (a, write, _, c') => Done (Sys c' (Handle thread a write :: handles s))
      | Restart => Done s
      end
  | ATestget thread k mode =>
      let* (r, c') := dt_cache_testget c k mode in
      match r with
      | Some a => Done (Sys c' (Handle thread a (mode_w mode) :: handles s))
      | None => Done (Sys c' (handles s))
      end
  | ARemove k =>
      let* r := dt_cache_remove c k in
      match r with
      | Return (_, _, c') => Done (Sys c' (handles s))
      | Restart => Done s
      end
  | AGc fill_ratio =>
      let* (c', _) := dt_cache_gc c fill_ratio in Done (Sys c' (handles s))
  | ARelease h =>
      let* c' := dt_cache_release c (h_entry h) in
      Done (Sys c' (drop_handle h (handles s)))
  | ADemoting h b =>
      let* entry := deref c (h_entry h) in
      Done (Sys (update_entry (h_entry h) (with_demoting b entry) c) (handles s))
  end.

#[global] Instance cache_machine : Machine system action :=
  {| m_allowed := allowed; m_perform := perform |}.

Abbreviation step := (m_step (M:=cache_machine)).
Abbreviation run := (m_run (M:=cache_machine)).
Abbreviation run_or := (m_run_or (M:=cache_machine)).

(** ** Well-formed caches *)

Definition total_cost : gmap Z dt_cache_entry_t -> Z :=
  map_fold (fun _ e s => cost e + s) 0.

Record cache_wf (c : dt_cache_t) : Prop := {
  wf_lru_nodup : NoDup (lru c);
  wf_lru_heap : forall a, a ∈ lru c <-> is_Some (heap c !! a);
  wf_table : forall k a,
    hashtable c !! k = Some a <-> exists e, heap c !! a = Some e /\ key e = k;
  wf_cost : c_cost c = wrap_u64 (total_cost (heap c));
}.

Lemma total_cost_insert a e m :
  m !! a = None -> total_cost (<[a := e]> m) = cost e + total_cost m.
Proof.
  intros Ha. unfold total_cost.
  rewrite (map_fold_insert_L (fun _ e s => cost e + s)); [done|intros; lia|done].
Qed.

Lemma total_cost_delete a e m :
  m !! a = Some e -> total_cost m = cost e + total_cost (delete a m).
Proof.
  intros Ha. rewrite <- (insert_delete_id m a e Ha) at 1.
  apply total_cost_insert, lookup_delete_eq.
Qed.

Lemma total_cost_update a e e' m :
  m !! a = Some e -> cost e' = cost e -> total_cost (<[a := e']> m) = total_cost m.
Proof.
  intros Ha Hc. rewrite <- insert_delete_eq, total_cost_insert by apply lookup_delete_eq.
  rewrite (total_cost_delete a e m Ha). lia.
Qed.

Lemma wrap_u64_sub_l x y : wrap_u64 (wrap_u64 x - y) = wrap_u64 (x - y).
Proof. unfold wrap_u64. by rewrite Zminus_mod_idemp_l. Qed.

Lemma wrap_u64_add_l x y : wrap_u64 (wrap_u64 x + y) = wrap_u64 (x + y).
Proof. unfold wrap_u64. by rewrite Zplus_mod_idemp_l. Qed.

Lemma elem_remove_link b a l : b ∈ remove_link a l <-> b <> a /\ b ∈ l.
Proof. unfold remove_link. by rewrite list_elem_of_filter. Qed.

Lemma wf_init es cq : cache_wf (dt_cache_init es cq).
Proof.
  split; cbn; [constructor| | |done].
  - intros a. rewrite lookup_empty. split; [by intros ?%not_elem_of_nil|by intros []].
  - intros k a. rewrite !lookup_empty. naive_solver.
Qed.

Section wf.
Context (c : dt_cache_t) (Hwf : cache_wf c).

Lemma wf_update_entry a e e' :
  heap c !! a = Some e -> cost e' = cost e -> key e' = key e -> cache_wf (update_entry a e' c).
Proof using Hwf.
  intros Ha Hc Hk. destruct Hwf as [Hn Hl Ht Hs]. split; cbn; [done| | |].
  - intros b. rewrite Hl. destruct (decide (b = a)) as [->|].
    + rewrite lookup_insert_eq, Ha. by split; eauto.
    + by rewrite lookup_insert_ne.
  - intros k b. rewrite Ht. destruct (decide (b = a)) as [->|].
    + rewrite lookup_insert_eq, Ha. naive_solver congruence.
    + by rewrite lookup_insert_ne.
  - by rewrite Hs, (total_cost_update a e e').
Qed.

Lemma wf_bubble_up a : a ∈ lru c -> cache_wf (bubble_up a c).
Proof using Hwf.
  intros Ha. destruct Hwf as [Hn Hl Ht Hs]. split; cbn; [| |done|done].
  - apply NoDup_app. split; [by apply NoDup_filter|]. split; [|apply NoDup_singleton].
    intros b [Hb _]%elem_remove_link ->%list_elem_of_singleton. done.
  - intros b. rewrite elem_of_app, elem_remove_link, list_elem_of_singleton, <- Hl.
    destruct (decide (b = a)); naive_solver.
Qed.

Lemma wf_delete_entry a e : heap c !! a = Some e -> cache_wf (delete_entry (key e) a e c).
Proof using Hwf.
  intros Ha. destruct Hwf as [Hn Hl Ht Hs]. split; cbn.
  - by apply NoDup_filter.
  - intros b. rewrite elem_remove_link, Hl. destruct (decide (b = a)) as [->|].
    + rewrite lookup_delete_eq. split; [naive_solver|by intros []].
    + rewrite lookup_delete_ne by done. naive_solver.
  - intros k b. destruct (decide (k = key e)) as [->|Hk].
    + rewrite lookup_delete_eq. split; [done|]. intros (e' & Hb & He).
      assert (hashtable c !! key e = Some b) as Hb'.
      { apply Ht. exists e'. split; [|done]. by apply lookup_delete_Some in Hb as [_ ?]. }
      assert (hashtable c !! key e = Some a) as Ha' by (apply Ht; eauto).
      apply lookup_delete_Some in Hb as [? _]. naive_solver.
    + rewrite lookup_delete_ne by done. rewrite Ht. destruct (decide (b = a)) as [->|].
      * rewrite lookup_delete_eq. naive_solver.
      * by rewrite lookup_delete_ne.
  - rewrite Hs, wrap_u64_sub_l, (total_cost_delete a e _ Ha). f_equal. lia.
Qed.

Lemma wf_insert_entry a mem k mode :
  heap c !! a = None -> hashtable c !! k = None -> cache_wf (snd (insert_entry c a mem k mode)).
Proof using Hwf.
  intros Ha Hk. destruct Hwf as [Hn Hl Ht Hs]. unfold insert_entry. cbn [snd].
  set (e := with_lock _ _).
  assert (key e = k) as He by (unfold e, allocate_entry; by destruct (c_allocate c)).
  clearbody e. split; cbn.
  - apply NoDup_app. split; [done|]. split; [|apply NoDup_singleton].
    intros b Hb ->%list_elem_of_singleton. apply Hl in Hb. rewrite Ha in Hb. by destruct Hb.
  - intros b. rewrite elem_of_app, list_elem_of_singleton, Hl.
    destruct (decide (b = a)) as [->|].
    + rewrite lookup_insert_eq. split; eauto.
    + rewrite lookup_insert_ne by done. naive_solver.
  - intros k' b. destruct (decide (b = a)) as [->|Hb].
    + rewrite lookup_insert_eq. destruct (decide (k' = k)) as [->|Hk'].
      * rewrite lookup_insert_eq. naive_solver.
      * rewrite lookup_insert_ne by done. rewrite Ht, Ha. naive_solver.
    + rewrite (lookup_insert_ne _ a) by done. destruct (decide (k' = k)) as [->|Hk'].
      * rewrite lookup_insert_eq. rewrite <- Ht, Hk. naive_solver.
      * by rewrite lookup_insert_ne, Ht by done.
  - by rewrite Hs, wrap_u64_add_l, total_cost_insert, Z.add_comm.
Qed.

Lemma wf_found k a :
  hashtable c !! k = Some a -> exists e, heap c !! a = Some e /\ key e = k /\ a ∈ lru c.
Proof using Hwf.
  intros H. apply (wf_table c Hwf) in H as (e & Ha & He). exists e.
  by rewrite (wf_lru_heap c Hwf), Ha.
Qed.

End wf.

(** ** Garbage collection *)

(** Somebody holds or demotes the entry at [a], if there is one. *)
Definition busy (m : gmap Z dt_cache_entry_t) (a : Z) : Prop :=
  match m !! a with
  | Some e => dt_pthread_rwlock_trywrlock (lock e) = None \/ _lock_demoting e = true
  | None => True
  end.

#[global] Instance busy_dec m a : Decision (busy m a).
Proof. unfold busy. destruct (m !! a); apply _. Defined.

(** The entry at [a], if any, deleted. *)
Definition delete_at (c : dt_cache_t) (a : Z) : dt_cache_t :=
  match heap c !! a with
  | Some e => delete_entry (key e) a e c
  | None => c
  end.

Definition dispose_at (c : dt_cache_t) (a : Z) : list disposal :=
  match heap c !! a with
  | Some e => [dispose c e]
  | None => []
  end.

Lemma wf_delete_at c a : cache_wf c -> cache_wf (delete_at c a).
Proof. intros H. unfold delete_at. destruct (heap c !! a) eqn:E; [by apply wf_delete_entry|done]. Qed.

Lemma delete_at_heap c a : heap (delete_at c a) = delete a (heap c).
Proof. unfold delete_at. destruct (heap c !! a) eqn:E; [done|]. by rewrite delete_id. Qed.

Lemma delete_all_wf vs c : cache_wf c -> cache_wf (foldl delete_at c vs).
Proof. revert c. induction vs as [|a vs IH]; intros c H; [done|]. by apply IH, wf_delete_at. Qed.

Lemma delete_all_lookup vs c a :
  heap (foldl delete_at c vs) !! a = if decide (a ∈ vs) then None else heap c !! a.
Proof.
  revert c. induction vs as [|b vs IH]; intros c; [done|].
  cbn [foldl]. rewrite IH, delete_at_heap. destruct (decide (a = b)) as [->|].
  - rewrite lookup_delete_eq, (decide_True _ _ (list_elem_of_here b vs)). by case_decide.
  - rewrite lookup_delete_ne by done. apply decide_ext. rewrite elem_of_cons. naive_solver.
Qed.

Lemma delete_at_lru c a : cache_wf c -> lru (delete_at c a) = remove_link a (lru c).
Proof.
  intros H. unfold delete_at. destruct (heap c !! a) eqn:E; [done|].
  symmetry. apply filter_all. intros b Hb ->. apply (wf_lru_heap c H) in Hb.
  rewrite E in Hb. by destruct Hb.
Qed.

Lemma delete_all_lru vs c :
  cache_wf c -> lru (foldl delete_at c vs) = filter (fun a => a ∉ vs) (lru c).
Proof.
  revert c. induction vs as [|b vs IH]; intros c H; cbn [foldl].
  - symmetry. apply filter_all. intros a _. apply not_elem_of_nil.
  - rewrite IH by by apply wf_delete_at. rewrite delete_at_lru by done.
    unfold remove_link. rewrite list_filter_filter. apply list_filter_iff.
    intros a. rewrite not_elem_of_cons. tauto.
Qed.

Lemma delete_all_fixed vs c :
  let c' := foldl delete_at c vs in
  entry_size c' = entry_size c /\ cost_quota c' = cost_quota c /\
  c_allocate c' = c_allocate c /\ c_cleanup c' = c_cleanup c.
Proof.
  revert c. induction vs as [|b vs IH]; intros c; [done|]. cbn [foldl].
  specialize (IH (delete_at c b)) as (-> & -> & -> & ->).
  unfold delete_at. by destruct (heap c !! b).
Qed.

(** The victims of a collection that looks at [l]. *)
Definition victims (m : gmap Z dt_cache_entry_t) (l : list Z) : list Z :=
  filter (fun a => ~ busy m a) l.

Lemma victims_delete m b l : b ∉ l -> victims (delete b m) l = victims m l.
Proof.
  intros Hb. apply filter_elem_ext. intros a Ha.
  unfold busy. by rewrite lookup_delete_ne by set_solver.
Qed.

Lemma dispose_at_delete c b vs :
  b ∉ vs -> vs ≫= dispose_at (delete_at c b) = vs ≫= dispose_at c.
Proof.
  intros Hb. induction vs as [|a vs IH]; [done|]. apply not_elem_of_cons in Hb as [Hne Hb].
  cbn. rewrite IH by done. f_equal. unfold dispose_at.
  rewrite delete_at_heap, lookup_delete_ne by done. destruct (heap c !! a); [|done].
  unfold dispose, delete_at. by destruct (heap c !! b).
Qed.

(** What one run over [l] does: it looks at the first [n] entries, deletes those
    that are not busy, and stops as soon as the fill ratio is reached. *)
Definition gc_outcome (fill_ratio : binary32) (l : list Z) (c c' : dt_cache_t)
    (ds : list disposal) : Prop :=
  exists n, let vs := victims (heap c) (take n l) in
    c' = foldl delete_at c vs /\ ds = vs ≫= dispose_at c /\
    (below_fill c' fill_ratio = true \/ (length l <= n)%nat) /\
    forall k, (k < length vs)%nat -> below_fill (foldl delete_at c (take k vs)) fill_ratio = false.

Lemma busy_cases m a e :
  m !! a = Some e ->
  busy m a <-> dt_pthread_rwlock_trywrlock (lock e) = None \/ _lock_demoting e = true.
Proof. intros H. unfold busy. by rewrite H. Qed.

Lemma victims_busy m a l : busy m a -> victims m (a :: l) = victims m l.
Proof. intros H. unfold victims. rewrite filter_cons_False; [done|tauto]. Qed.

Lemma victims_free m a l : ~ busy m a -> victims m (a :: l) = a :: victims m l.
Proof. intros H. unfold victims. by rewrite filter_cons_True. Qed.

Lemma gc_outcome_skip fill a l c c' ds :
  busy (heap c) a -> gc_outcome fill l c c' ds -> gc_outcome fill (a :: l) c c' ds.
Proof.
  intros Hb (n & Hc & Hd & Hs & Hk). exists (S n). cbn [take].
  rewrite (victims_busy _ _ _ Hb). split_and!; try done. cbn [length]. destruct Hs; [tauto|right; lia].
Qed.

Lemma gc_outcome_delete fill a l c c' ds e :
  heap c !! a = Some e -> ~ busy (heap c) a -> below_fill c fill = false -> a ∉ l ->
  gc_outcome fill l (delete_at c a) c' ds -> gc_outcome fill (a :: l) c c' (dispose c e :: ds).
Proof.
  intros Ha Hb Hf Hl (n & Hc & Hd & Hs & Hk). exists (S n). cbn [take].
  assert (a ∉ take n l) as Ht by (intros H; apply Hl; apply elem_of_take in H as (? & ? & ?); by eapply list_elem_of_lookup_2).
  rewrite delete_at_heap, victims_delete in Hc, Hd, Hk by done.
  rewrite (victims_free _ _ _ Hb). cbn [foldl mbind list_bind length].
  split_and!; [done| |destruct Hs; [tauto|right; lia]|].
  - rewrite Hd, dispose_at_delete; [|by intros []%list_elem_of_filter].
    unfold dispose_at at 2. by rewrite Ha.
  - intros [|k] Hlt; [done|]. cbn [take foldl]. apply Hk. lia.
Qed.

Lemma gc_loop_outcome fill l c :
  cache_wf c -> NoDup l -> (forall a, a ∈ l -> is_Some (heap c !! a)) ->
  exists c' ds, gc_loop fill l c = Done (c', ds) /\ gc_outcome fill l c c' ds.
Proof.
  revert c. induction l as [|a l IH]; intros c Hwf Hn Hl.
  { exists c, []. split; [done|]. exists O. cbn. split_and!; [done..|right; lia|intros; lia]. }
  apply NoDup_cons in Hn as [Hal Hn]. destruct (Hl a) as [e Ha]; [by left|].
  cbn [gc_loop]. unfold deref. rewrite Ha. cbn [c_bind].
  destruct (below_fill c fill) eqn:Hf.
  { exists c, []. split; [done|]. exists O. cbn. split_and!; [done..|by left|intros; lia]. }
  pose proof (busy_cases _ _ _ Ha) as Hbusy.
  assert (forall b, b ∈ l -> is_Some (heap c !! b)) as Hl' by (intros; apply Hl; by right).
  destruct (dt_pthread_rwlock_trywrlock (lock e)) as [w|] eqn:Hw; [destruct (_lock_demoting e) eqn:Hd|].
  1,3: destruct (IH c Hwf Hn Hl') as (c' & ds & -> & Ho); exists c', ds;
    split; [done|apply gc_outcome_skip; [apply Hbusy; auto|done]].
  assert (delete_at c a = delete_entry (key e) a e c) as Hdel by (unfold delete_at; by rewrite Ha).
  destruct (IH (delete_at c a)) as (c' & ds & Hgc & Ho); [by apply wf_delete_at|done| |].
  { intros b Hb. rewrite delete_at_heap, lookup_delete_ne; [by apply Hl'|]. by intros ->. }
  rewrite Hdel in Hgc. rewrite Hgc. cbn. exists c', (dispose c e :: ds). split; [done|].
  apply (gc_outcome_delete fill a l c c' ds e Ha); [|done..]. rewrite Hbusy. naive_solver.
Qed.

Lemma gc_total fill c :
  cache_wf c -> exists c' ds, dt_cache_gc c fill = Done (c', ds) /\ gc_outcome fill (lru c) c c' ds.
Proof.
  intros H. apply gc_loop_outcome; [done|apply H|]. intros a. apply H.
Qed.

Lemma gc_outcome_keeps fill l c c' ds :
  gc_outcome fill l c c' ds -> exists vs, c' = foldl delete_at c vs /\ forall a, a ∈ vs -> ~ busy (heap c) a.
Proof. intros (n & -> & _). eexists. split; [done|]. by intros a [? _]%list_elem_of_filter. Qed.

(** ** Locks and handles *)

Definition count (a : Z) (w : bool) (hs : list handle) : nat :=
  length (filter (fun h => h_entry h = a /\ h_write h = w) hs).

Lemma count_cons a w h hs :
  count a w (h :: hs) =
  ((if decide (h_entry h = a /\ h_write h = w) then 1 else 0) + count a w hs)%nat.
Proof. unfold count. rewrite filter_cons. by case_decide. Qed.

Lemma count_drop a w h hs :
  h ∈ hs ->
  count a w hs =
  ((if decide (h_entry h = a /\ h_write h = w) then 1 else 0) + count a w (drop_handle h hs))%nat.
Proof.
  induction hs as [|h' hs IH]; [by intros ?%not_elem_of_nil|].
  intros Hh. cbn [drop_handle]. destruct (decide (h = h')) as [->|Hne].
  - by rewrite count_cons.
  - apply elem_of_cons in Hh as [|Hh]; [done|]. rewrite !count_cons, IH by done. lia.
Qed.

Lemma count_held h hs : h ∈ hs -> (0 < count (h_entry h) (h_write h) hs)%nat.
Proof. intros H. rewrite (count_drop _ _ h) by done. rewrite decide_True by done. lia. Qed.

(** The lock agrees with the [r] read handles and [w] write handles given out. *)
Definition lock_matches (l : rwlock) (r w : nat) : Prop :=
  readers l = Z.of_nat r /\ w = (if writer l then 1 else 0)%nat /\ (writer l = true -> r = 0%nat).

Lemma trylock_matches mode l l' r w :
  lock_matches l r w -> trylock mode l = Some l' ->
  if mode_w mode then lock_matches l' r (S w) else lock_matches l' (S r) w.
Proof.
  unfold lock_matches, trylock, dt_pthread_rwlock_trywrlock, dt_pthread_rwlock_tryrdlock.
  intros (Hr & Hw & Hx) Ht. destruct (mode_w mode), (writer l); cbn in *; simplify_eq.
  - destruct (Z.eqb_spec (readers l) 0); cbn in Ht; simplify_eq. cbn. split_and!; [lia..|intros; lia].
  - cbn. split_and!; [lia..|done].
Qed.

Lemma unlock_matches l r w (v : bool) :
  lock_matches l r w -> (0 < if v then w else r)%nat ->
  exists l', dt_pthread_rwlock_unlock l = Done l' /\
    if v then lock_matches l' r (w - 1) else lock_matches l' (r - 1) w.
Proof.
  unfold lock_matches, dt_pthread_rwlock_unlock. intros (Hr & Hw & Hx) Hv.
  destruct (writer l) eqn:E; subst w.
  - destruct v; [|specialize (Hx eq_refl); lia].
    eexists. split; [done|]. cbn. specialize (Hx eq_refl). split_and!; [lia..|done].
  - destruct v; [lia|]. rewrite Hr. destruct (Z.ltb_spec 0 (Z.of_nat r)); [|lia].
    eexists. split; [done|]. cbn. split_and!; [lia..|done].
Qed.

Lemma wrlock_free l r w :
  lock_matches l r w -> dt_pthread_rwlock_trywrlock l <> None -> r = 0%nat /\ w = 0%nat.
Proof.
  unfold lock_matches, dt_pthread_rwlock_trywrlock. intros (Hr & -> & Hx) H.
  destruct (writer l); [done|]. cbn in H. destruct (Z.eqb_spec (readers l) 0); [lia|done].
Qed.

Definition locks_ok (m : gmap Z dt_cache_entry_t) (hs : list handle) : Prop :=
  forall a, match m !! a with
            | Some e => lock_matches (lock e) (count a false hs) (count a true hs)
            | None => count a false hs = 0%nat /\ count a true hs = 0%nat
            end.

Ltac count_cases :=
  rewrite ?count_cons; cbn [h_entry h_write];
  repeat match goal with
    | |- context [decide ?P] => destruct (decide P)
    end; naive_solver.

Section locks.
Context (m : gmap Z dt_cache_entry_t) (hs : list handle) (Hok : locks_ok m hs).

Lemma locks_lock t a e l mode :
  m !! a = Some e -> trylock mode (lock e) = Some l ->
  locks_ok (<[a := with_lock l e]> m) (Handle t a (mode_w mode) :: hs).
Proof using Hok.
  intros Ha Ht b. specialize (Hok b). destruct (decide (b = a)) as [->|Hb].
  - rewrite lookup_insert_eq. rewrite Ha in Hok. pose proof (trylock_matches _ _ _ _ _ Hok Ht).
    cbn [lock with_lock]. destruct (mode_w mode); count_cases.
  - rewrite lookup_insert_ne by done. destruct (m !! b); count_cases.
Qed.

Lemma locks_insert t a e (write : bool) :
  m !! a = None -> lock e = (if write then RW 0 true else RW 1 false) ->
  locks_ok (<[a := e]> m) (Handle t a write :: hs).
Proof using Hok.
  intros Ha He b. specialize (Hok b). destruct (decide (b = a)) as [->|Hb].
  - rewrite lookup_insert_eq. rewrite Ha in Hok. destruct Hok as [Hr Hw].
    rewrite !count_cons, Hr, Hw, He. cbn [h_entry h_write]. destruct write.
    + rewrite decide_False, decide_True by naive_solver. done.
    + rewrite decide_True, decide_False by naive_solver. done.
  - rewrite lookup_insert_ne by done. destruct (m !! b); count_cases.
Qed.

Lemma locks_not_busy a : ~ busy m a -> count a false hs = 0%nat /\ count a true hs = 0%nat.
Proof using Hok.
  intros Hb. specialize (Hok a). unfold busy in Hb. destruct (m !! a) as [e|]; [|tauto].
  apply (wrlock_free _ _ _ Hok). tauto.
Qed.

Lemma locks_delete m' :
  (forall a, m' !! a = m !! a \/ (m' !! a = None /\ ~ busy m a)) -> locks_ok m' hs.
Proof using Hok.
  intros H a. destruct (H a) as [->|[-> Hb]]; [apply Hok|by apply locks_not_busy].
Qed.

Lemma locks_demoting a e b : m !! a = Some e -> locks_ok (<[a := with_demoting b e]> m) hs.
Proof using Hok.
  intros Ha x. specialize (Hok x). destruct (decide (x = a)) as [->|].
  - rewrite lookup_insert_eq. by rewrite Ha in Hok.
  - by rewrite lookup_insert_ne.
Qed.

Lemma locks_held h : h ∈ hs -> is_Some (m !! h_entry h).
Proof using Hok.
  intros H%count_held. specialize (Hok (h_entry h)). destruct (m !! h_entry h); [by eauto|].
  destruct Hok as [Hr Hw]. destruct (h_write h); lia.
Qed.

Lemma locks_release h e :
  h ∈ hs -> m !! h_entry h = Some e ->
  exists l, dt_pthread_rwlock_unlock (lock e) = Done l /\
    locks_ok (<[h_entry h := with_lock l e]> m) (drop_handle h hs).
Proof using Hok.
  intros Hh He. pose proof (count_held h hs Hh) as Hpos.
  pose proof (Hok (h_entry h)) as Ha. rewrite He in Ha.
  destruct (unlock_matches (lock e) _ _ (h_write h) Ha) as (l & Hl & Hm);
    [by destruct (h_write h)|].
  exists l. split; [done|]. intros b.
  pose proof (count_drop b false h hs Hh) as Hf. pose proof (count_drop b true h hs Hh) as Ht.
  destruct (decide (b = h_entry h)) as [->|Hb].
  - rewrite lookup_insert_eq. cbn [lock with_lock].
    destruct (h_write h); repeat case_decide; try naive_solver;
      rewrite Hf, Ht in Hm; cbn in Hm; by rewrite ?Nat.sub_0_r in Hm.
  - rewrite lookup_insert_ne by done.
    rewrite decide_False in Hf by naive_solver. rewrite decide_False in Ht by naive_solver.
    specialize (Hok b). rewrite Hf, Ht in Hok. exact Hok.
Qed.

End locks.

(** ** The invariant of the system *)

Definition inv (s : system) : Prop :=
  cache_wf (sys_cache s) /\ locks_ok (heap (sys_cache s)) (handles s).

Lemma inv_lock c hs t a e l mode :
  inv (Sys c hs) -> heap c !! a = Some e -> a ∈ lru c -> trylock mode (lock e) = Some l ->
  inv (Sys (bubble_up a (update_entry a (with_lock l e) c)) (Handle t a (mode_w mode) :: hs)).
Proof.
  intros [Hwf Hok] Ha Hl Ht. split; cbn.
  - apply wf_bubble_up; [|done]. by apply (wf_update_entry c Hwf a e).
  - by apply locks_lock.
Qed.

Lemma inv_delete_all c hs vs :
  inv (Sys c hs) -> (forall a, a ∈ vs -> ~ busy (heap c) a) -> inv (Sys (foldl delete_at c vs) hs).
Proof.
  intros [Hwf Hok] Hvs. split; cbn; [by apply delete_all_wf|].
  apply (locks_delete (heap c)); [done|]. intros a. rewrite delete_all_lookup.
  case_decide; [right; eauto|by left].
Qed.

Lemma inv_gc c hs fill :
  inv (Sys c hs) -> exists c' ds, dt_cache_gc c fill = Done (c', ds) /\
    gc_outcome fill (lru c) c c' ds /\ inv (Sys c' hs).
Proof.
  intros Hinv. destruct (gc_total fill c) as (c' & ds & Hgc & Ho); [apply Hinv|].
  exists c', ds. split_and!; [done|done|].
  destruct (gc_outcome_keeps _ _ _ _ _ Ho) as (vs & -> & Hvs). by apply inv_delete_all.
Qed.

(** The state in which a missing key is inserted. *)
Definition after_gc (c c1 : dt_cache_t) (ds : list disposal) : Prop :=
  if gc_needed c then gc_outcome f32_0_8 (lru c) c c1 ds else c1 = c /\ ds = [].

Lemma get_miss c hs t a mem k mode :
  inv (Sys c hs) -> hashtable c !! k = None -> heap c !! a = None ->
  exists c1 ds, after_gc c c1 ds /\ hashtable c1 !! k = None /\
    dt_cache_get c a mem k mode =
      Done (Return (a, fst (insert_entry c1 a mem k mode), ds, snd (insert_entry c1 a mem k mode))) /\
    inv (Sys (snd (insert_entry c1 a mem k mode))
             (Handle t a (fst (insert_entry c1 a mem k mode)) :: hs)).
Proof.
  intros Hinv Hk Ha. unfold dt_cache_get, after_gc. rewrite Hk.
  assert (exists c1 ds, (if gc_needed c then dt_cache_gc c f32_0_8 else Done (c, [])) = Done (c1, ds) /\
    (if gc_needed c then gc_outcome f32_0_8 (lru c) c c1 ds else c1 = c /\ ds = []) /\
    inv (Sys c1 hs) /\ exists vs, c1 = foldl delete_at c vs) as (c1 & ds & -> & Ho & Hinv1 & vs & Hvs).
  { destruct (gc_needed c); [|exists c, []; split_and!; [done..|by exists []]].
    destruct (inv_gc c hs f32_0_8 Hinv) as (c1 & ds & ? & Ho & ?). exists c1, ds.
    split_and!; [done..|]. destruct (gc_outcome_keeps _ _ _ _ _ Ho) as (vs & ? & _). eauto. }
  assert (heap c1 !! a = None) as Ha1 by (rewrite Hvs, delete_all_lookup; by case_decide).
  assert (hashtable c1 !! k = None) as Hk1.
  { apply eq_None_not_Some. intros [b Hb]. apply (wf_table c1 (proj1 Hinv1)) in Hb as (e & Hb & He).
    rewrite Hvs, delete_all_lookup in Hb. case_decide; [done|].
    assert (hashtable c !! k = Some b) by (apply (wf_table c (proj1 Hinv)); eauto). congruence. }
  exists c1, ds. split_and!; [done..|]. destruct Hinv1 as [Hwf1 Hok1]. split.
  - by apply wf_insert_entry.
  - by apply locks_insert.
Qed.

#[global] Instance inv_preserved : Invariant inv.
Proof.
  intros s act. cbn [m_allowed m_perform cache_machine].
  destruct s as [c hs]. intros Hinv Hal. pose proof Hinv as [Hwf Hok]. cbn [sys_cache handles] in Hwf, Hok.
  destruct act as [t a mem k mode|t k mode|k|fill|h|h b]; cbn [perform sys_cache handles].
  - destruct (hashtable c !! k) as [a0|] eqn:Hk.
    + unfold dt_cache_get. rewrite Hk. destruct (wf_found c Hwf k a0 Hk) as (e & Ha0 & _ & Hl).
      unfold deref. rewrite Ha0. cbn [c_bind].
      destruct (trylock mode (lock e)) as [l|] eqn:Ht; eexists; (split; [done|]); [|done].
      by apply inv_lock.
    + destruct (get_miss c hs t a mem k mode Hinv Hk Hal) as (c1 & ds & _ & _ & -> & Hi).
      eexists. split; [done|exact Hi].
  - unfold dt_cache_testget. destruct (hashtable c !! k) as [a0|] eqn:Hk; [|by eexists].
    destruct (wf_found c Hwf k a0 Hk) as (e & Ha0 & _ & Hl). unfold deref. rewrite Ha0. cbn [c_bind].
    destruct (trylock mode (lock e)) as [l|] eqn:Ht; eexists; (split; [done|]); [|done].
    by apply inv_lock.
  - unfold dt_cache_remove. destruct (hashtable c !! k) as [a|] eqn:Hk; [|by eexists].
    destruct (wf_found c Hwf k a Hk) as (e & Ha & He & Hl). unfold deref. rewrite Ha. cbn [c_bind].
    destruct (dt_pthread_rwlock_trywrlock (lock e)) eqn:Ht; [|by eexists].
    destruct (_lock_demoting e) eqn:Hd; [by eexists|]. eexists. split; [done|].
    assert (delete_entry k a e c = foldl delete_at c [a]) as -> by
      (cbn; unfold delete_at; by rewrite Ha, He).
    apply inv_delete_all; [done|]. intros b ->%list_elem_of_singleton.
    rewrite (busy_cases _ _ _ Ha). rewrite Ht, Hd; by intros [|].
  - destruct (inv_gc c hs fill Hinv) as (c' & ds & -> & _ & Hi). by eexists.
  - destruct (locks_held _ _ Hok h Hal) as [e He].
    destruct (locks_release _ _ Hok h e Hal He) as (l & Hl & Hi).
    unfold dt_cache_release, deref. rewrite He. cbn [c_bind]. rewrite Hl. eexists.
    split; [done|]. split; [by apply (wf_update_entry c Hwf _ e)|exact Hi].
  - destruct (locks_held _ _ Hok h Hal) as [e He]. unfold deref. rewrite He. eexists.
    split; [done|]. split; [by apply (wf_update_entry c Hwf _ e)|by apply locks_demoting].
Qed.

(** A new cache, with its callbacks set, that nobody uses yet. *)
Definition initial (s : system) : Prop :=
  exists es cq allocate cleanup,
    s = Sys (dt_cache_set_cleanup_callback
               (dt_cache_set_allocate_callback (dt_cache_init es cq) allocate) cleanup) [].

Lemma cache_inv_initial s : initial s -> inv s.
Proof.
  intros (es & cq & al & cl & ->). split.
  - destruct (wf_init es cq). by split.
  - intros a. cbn. by rewrite lookup_empty.
Qed.

(** ** Properties *)

Lemma write_handle_unique hs a h h' :
  (count a true hs <= 1)%nat -> h ∈ hs -> h' ∈ hs ->
  h_entry h = a -> h_entry h' = a -> h_write h = true -> h_write h' = true -> h' = h.
Proof.
  unfold count. intros Hc Hh Hh' Ha Ha' Hw Hw'. set (P := fun x : handle => h_entry x = a /\ h_write x = true).
  assert (h ∈ filter P hs) as H1 by (apply list_elem_of_filter; done).
  assert (h' ∈ filter P hs) as H2 by (apply list_elem_of_filter; done).
  subst P. destruct (filter _ hs) as [|x [|y l]]; cbn in Hc; [by apply not_elem_of_nil in H1| |lia].
  apply list_elem_of_singleton in H1, H2. congruence.
Qed.

Lemma locks_exclusive m hs h h' :
  locks_ok m hs -> h ∈ hs -> h' ∈ hs -> h_entry h = h_entry h' -> h_write h = true -> h' = h.
Proof.
  intros Hok Hh Hh' Ha Hw. destruct (locks_held m hs Hok h Hh) as [e He].
  specialize (Hok (h_entry h)). rewrite He in Hok. destruct Hok as (_ & Hwc & Hr).
  pose proof (count_held h hs Hh) as Hp. pose proof (count_held h' hs Hh') as Hp'.
  rewrite Hw in Hp. rewrite <- Ha in Hp'. destruct (writer (lock e)) eqn:E; [|lia].
  specialize (Hr eq_refl). destruct (h_write h') eqn:Hw'; [|lia].
  eapply (write_handle_unique hs (h_entry h)); try done. lia.
Qed.

(** C1: however the threads interleave their attempts, nothing undefined happens:
    no thread ever follows a pointer to a freed entry. A thread that holds an
    entry for writing holds it alone, the lru list and the hash table list exactly
    the live entries, each once, and the cost is the sum of their costs. *)
Theorem concurrent_use_is_safe s s' (Hi : initial s) (Hr : rtc step s s') :
  (forall act, allowed s' act -> exists s'', perform s' act = Done s'') /\
  (forall h, h ∈ handles s' -> is_Some (heap (sys_cache s') !! h_entry h)) /\
  (forall h h', h ∈ handles s' -> h' ∈ handles s' -> h_entry h = h_entry h' ->
     h_write h = true -> h' = h) /\
  cache_wf (sys_cache s').
Proof.
  pose proof (m_reachable (Inv:=inv) s s' (cache_inv_initial s Hi) Hr) as Hinv. pose proof Hinv as [Hwf Hok].
  split_and!; [|by apply locks_held|intros h h'; by apply (locks_exclusive _ _ h h' Hok)|done].
  intros act Hal. destruct (m_preserve (M:=cache_machine) s' act Hinv Hal) as (s'' & ? & _). eauto.
Qed.

(** A cache with an allocate callback that gives every entry cost 9. *)
Definition example_allocate (e : dt_cache_entry_t) : allocation :=
  Allocation (1000 + key e) 64 9.

Definition example_system : system :=
  Sys (dt_cache_set_allocate_callback (dt_cache_init 64 10) (Some example_allocate)) [].

Lemma example_initial : initial example_system.
Proof. by exists 64, 10, (Some example_allocate), None. Qed.

Lemma concurrent_use_is_safe_witness :
  let s' := run_or example_system
              [AGet 1 100 0 7 "r"; ARelease (Handle 1 100 true); AGet 2 200 0 7 "r"; AGet 3 300 0 8 "w"] in
  handles s' = [Handle 3 300 true; Handle 2 100 false] /\ cache_wf (sys_cache s').
Proof.
  split; [vm_compute; reflexivity|].
  apply (concurrent_use_is_safe example_system); [apply example_initial|].
  apply (m_run_reachable [AGet 1 100 0 7 "r"; ARelease (Handle 1 100 true);
                        AGet 2 200 0 7 "r"; AGet 3 300 0 8 "w"]).
  vm_compute. reflexivity.
Defined.

(** Garbage collection always ends normally. It looks at the entries from the
    least recently used on, frees those that nobody holds or demotes, each once,
    and leaves the others alone; it stops as soon as the cost is below the fill
    ratio, never freeing an entry after that, and otherwise has looked at all. *)
Theorem gc_frees_oldest_unused c fill (Hwf : cache_wf c) :
  exists n c' ds, dt_cache_gc c fill = Done (c', ds) /\
    let vs := victims (heap c) (take n (lru c)) in
    (forall a, heap c' !! a = if decide (a ∈ vs) then None else heap c !! a) /\
    lru c' = filter (fun a => a ∉ vs) (lru c) /\ ds = vs ≫= dispose_at c /\
    (below_fill c' fill = true \/ (length (lru c) <= n)%nat) /\
    (forall k, (k < length vs)%nat -> below_fill (foldl delete_at c (take k vs)) fill = false).
Proof.
  destruct (gc_total fill c Hwf) as (c' & ds & Hgc & n & -> & Hd & Hs & Hm).
  exists n. eexists _, ds. split; [done|]. cbv zeta.
  split_and!; [intros a; apply delete_all_lookup|by apply delete_all_lru|done..].
Qed.

Definition example_full : dt_cache_t :=
  sys_cache (run_or example_system
    [AGet 1 100 0 7 "r"; AGet 1 300 0 9 "r"; ARelease (Handle 1 100 true)]).

Lemma gc_frees_oldest_unused_witness :
  lru example_full = [100; 300] /\
  exists n c' ds, dt_cache_gc example_full f32_0_8 = Done (c', ds) /\
    lru c' = filter (fun a => a ∉ victims (heap example_full) (take n (lru example_full)))
               (lru example_full).
Proof.
  split; [vm_compute; reflexivity|].
  destruct (gc_frees_oldest_unused example_full f32_0_8) as (n & c' & ds & Hgc & _ & Hl & _); [|eauto].
  refine (proj1 (m_reachable (Inv:=inv) example_system _ (cache_inv_initial _ example_initial) _)).
  apply (m_run_reachable [AGet 1 100 0 7 "r"; AGet 1 300 0 9 "r"; ARelease (Handle 1 100 true)]).
  vm_compute. reflexivity.
Defined.

Lemma after_gc_deletes c c1 ds :
  after_gc c c1 ds -> exists vs, c1 = foldl delete_at c vs /\
    forall a, a ∈ vs -> ~ busy (heap c) a /\ gc_needed c = true.
Proof.
  unfold after_gc. destruct (gc_needed c); [|intros [-> _]; exists []; by split; [|intros ? []%not_elem_of_nil]].
  intros (vs & -> & H)%gc_outcome_keeps. exists vs. split; [done|]. auto.
Qed.

(** What a locked entry looks like to the thread that got it. *)
Definition locked_for (write : bool) (l : rwlock) : Prop :=
  if write then l = RW 0 true else 0 < readers l /\ writer l = false.

Lemma trylock_locked mode l l' :
  0 <= readers l -> trylock mode l = Some l' -> locked_for (mode_w mode) l'.
Proof.
  unfold trylock, dt_pthread_rwlock_trywrlock, dt_pthread_rwlock_tryrdlock. intros Hr.
  destruct (mode_w mode), (writer l); cbn; try done.
  - case_match; intros; by simplify_eq.
  - intros; simplify_eq. cbn. lia.
Qed.

(** A get that returns gives the one entry of its key, locked as asked for (for
    writing if it was just allocated by the callback) and most recently used. The
    order of the other entries stays, a hit changes none of them, and a miss only
    frees entries that nobody holds or demotes, and only when the cost is over the
    limit. *)
Theorem get_returns_locked_entry c hs a mem k mode a' w ds c'
    (Hinv : inv (Sys c hs)) (Hnew : heap c !! a = None)
    (Hget : dt_cache_get c a mem k mode = Done (Return (a', w, ds, c'))) :
  hashtable c' !! k = Some a' /\
  (exists e, heap c' !! a' = Some e /\ key e = k /\ locked_for w (lock e)) /\
  w = mode_w mode || (negb (dt_cache_contains c k) && bool_decide (is_Some (c_allocate c))) /\
  (exists l, lru c' = l ++ [a'] /\ l `sublist_of` lru c) /\
  forall b, b <> a' -> heap c' !! b = heap c !! b \/
    (heap c' !! b = None /\ ~ busy (heap c) b /\ gc_needed c = true /\ hashtable c !! k = None).
Proof.
  unfold dt_cache_contains. pose proof Hinv as [Hwf Hok]. cbn in Hwf, Hok. destruct (hashtable c !! k) as [a0|] eqn:Hk.
  - destruct (wf_found c Hwf k a0 Hk) as (e & Ha0 & He & Hl).
    unfold dt_cache_get in Hget. rewrite Hk in Hget. unfold deref in Hget. rewrite Ha0 in Hget.
    cbn [c_bind] in Hget. destruct (trylock mode (lock e)) as [l|] eqn:Ht; simplify_eq. cbn.
    assert (0 <= readers (lock e)) by (specialize (Hok a'); rewrite Ha0 in Hok; destruct Hok; lia).
    split_and!; [done| | | |].
    + rewrite lookup_insert_eq. eexists. split_and!; [done..|]. by apply (trylock_locked mode (lock e)).
    + by rewrite orb_false_r.
    + eexists. split; [done|]. apply sublist_filter.
    + intros b Hb. left. by rewrite lookup_insert_ne.
  - destruct (get_miss c hs 0 a mem k mode Hinv Hk Hnew) as (c1 & ds1 & Hgc & _ & Hg & _).
    rewrite Hg in Hget. unfold insert_entry in Hget. cbn in Hget. simplify_eq. cbn.
    destruct (after_gc_deletes _ _ _ Hgc) as (vs & Hvs & Hfree).
    pose proof (delete_all_fixed vs c) as (_ & _ & Hal & _). rewrite <- Hvs in Hal. rewrite Hal.
    split_and!; [by rewrite lookup_insert_eq| |done| |].
    + rewrite lookup_insert_eq. eexists. split; [done|].
      split; [unfold allocate_entry; by destruct (c_allocate c1)|]. cbn. by destruct (mode_w mode || _).
    + eexists. split; [done|]. rewrite Hvs, delete_all_lru by done. apply sublist_filter.
    + intros b Hb. rewrite lookup_insert_ne, Hvs, delete_all_lookup by done.
      case_decide as Hin; [right|by left]. destruct (Hfree b Hin). done.
Qed.

Lemma get_returns_locked_entry_witness :
  exists l, lru (sys_cache (run_or example_system [AGet 1 100 0 7 "r"; AGet 2 200 0 8 "w"])) = l ++ [200] /\
    l `sublist_of` lru (sys_cache (run_or example_system [AGet 1 100 0 7 "r"])).
Proof.
  refine (proj1 (proj2 (proj2 (proj2 (get_returns_locked_entry
    (sys_cache (run_or example_system [AGet 1 100 0 7 "r"])) [Handle 1 100 true] 200 0 8 "w" 200 true []
    _ _ _ _))))); [|vm_compute; reflexivity..].
  refine (m_reachable (Inv:=inv) example_system (Sys _ _) (cache_inv_initial _ example_initial) _).
  apply (m_run_reachable [AGet 1 100 0 7 "r"]). vm_compute. reflexivity.
Defined.

(** An attempt to remove a key reports 1 for an absent key and changes nothing,
    starts over while the entry is held or demoted by anyone, and otherwise hands
    the payload of exactly this entry to the cleanup: the key is gone, its cost is
    subtracted, every other entry stays. *)
Theorem remove_spec c k (Hwf : cache_wf c) :
  exists r, dt_cache_remove c k = Done r /\
    match hashtable c !! k with
    | None => r = Return (1, [], c)
    | Some a => exists e, heap c !! a = Some e /\ key e = k /\
        if decide (busy (heap c) a) then r = Restart
        else exists c', r = Return (0, [dispose c e], c') /\
          dt_cache_contains c' k = false /\ c_cost c' = wrap_u64 (c_cost c - cost e) /\
          (forall k', k' <> k -> hashtable c' !! k' = hashtable c !! k') /\
          heap c' = delete a (heap c) /\ lru c' = remove_link a (lru c)
    end.
Proof.
  unfold dt_cache_remove. destruct (hashtable c !! k) as [a|] eqn:Hk; [|by eexists].
  destruct (wf_found c Hwf k a Hk) as (e & Ha & He & _). unfold deref. rewrite Ha. cbn [c_bind].
  pose proof (busy_cases _ _ _ Ha) as Hb.
  destruct (dt_pthread_rwlock_trywrlock (lock e)) eqn:Ht;
    [destruct (_lock_demoting e) eqn:Hd|]; eexists; (split; [done|]); exists e; (split; [done|]); (split; [done|]).
  1,3: rewrite decide_True; [done|apply Hb; auto].
  rewrite decide_False by (rewrite Hb; naive_solver). eexists. split; [done|]. cbn.
  unfold dt_cache_contains. cbn. rewrite lookup_delete_eq. split_and!; try done.
  intros k' Hk'. by rewrite lookup_delete_ne.
Qed.

Lemma remove_spec_witness :
  let c := sys_cache (run_or example_system [AGet 1 100 0 7 "r"; ARelease (Handle 1 100 true)]) in
  exists r, dt_cache_remove c 7 = Done r /\
    match hashtable c !! 7 with
    | None => r = Return (1, [], c)
    | Some a => exists e, heap c !! a = Some e /\ key e = 7 /\
        if decide (busy (heap c) a) then r = Restart
        else exists c', r = Return (0, [dispose c e], c') /\
          dt_cache_contains c' 7 = false /\ c_cost c' = wrap_u64 (c_cost c - cost e) /\
          (forall k', k' <> 7 -> hashtable c' !! k' = hashtable c !! k') /\
          heap c' = delete a (heap c) /\ lru c' = remove_link a (lru c)
    end.
Proof.
  apply (remove_spec _ 7).
  refine (proj1 (m_reachable (Inv:=inv) example_system _ (cache_inv_initial _ example_initial) _)).
  apply (m_run_reachable [AGet 1 100 0 7 "r"; ARelease (Handle 1 100 true)]). vm_compute. reflexivity.
Defined.

(** ** Demoting a write lock to a read lock *)

(** The steps that do not clear the demoting flag of the entry at [a]. *)
Definition step_keeping (a : Z) (s s' : system) : Prop :=
  exists act, allowed s act /\ perform s act = Done s' /\
    match act with ADemoting h b => h_entry h = a -> b = true | _ => True end.

(** What the thread that demotes relies on. *)
Definition demoted (a : Z) (e : dt_cache_entry_t) (s : system) : Prop :=
  exists e', heap (sys_cache s) !! a = Some e' /\ _lock_demoting e' = true /\
    key e' = key e /\ data e' = data e.

Lemma demoted_update a e c hs b eb eb' :
  demoted a e (Sys c hs) -> heap c !! b = Some eb ->
  (b = a -> _lock_demoting eb' = _lock_demoting eb \/ _lock_demoting eb' = true) ->
  key eb' = key eb -> data eb' = data eb -> forall c' hs',
  heap c' = <[b := eb']> (heap c) -> demoted a e (Sys c' hs').
Proof.
  intros (e' & He & Hd & Hk & Hda) Hb Hflag Hkb Hdb c' hs' Hc'. unfold demoted. cbn in *. rewrite Hc'.
  destruct (decide (b = a)) as [->|]; [|rewrite lookup_insert_ne by done; eauto].
  rewrite lookup_insert_eq. exists eb'. simplify_eq. split_and!; [done| |congruence..].
  destruct Hflag as [->|]; done.
Qed.

Lemma demoted_delete a e c hs vs :
  demoted a e (Sys c hs) -> (forall b, b ∈ vs -> ~ busy (heap c) b) ->
  demoted a e (Sys (foldl delete_at c vs) hs).
Proof.
  intros (e' & He & Hd & ?) Hvs. exists e'. cbn in *. rewrite delete_all_lookup.
  case_decide as Hin; [|done]. exfalso. apply (Hvs a Hin). apply (busy_cases _ _ _ He). auto.
Qed.

Lemma demoted_step a e s s' : inv s -> demoted a e s -> step_keeping a s s' -> demoted a e s'.
Proof.
  destruct s as [c hs]. intros Hinv Hdem (act & Hal & Hp & Hkeep). pose proof Hinv as [Hwf Hok].
  cbn [sys_cache handles] in Hwf, Hok.
  destruct act as [t b mem k mode|t k mode|k|fill|h|h v]; cbn [perform sys_cache handles] in Hp.
  - destruct (hashtable c !! k) as [a0|] eqn:Hk.
    + unfold dt_cache_get in Hp. rewrite Hk in Hp. destruct (wf_found c Hwf k a0 Hk) as (e0 & Ha0 & _).
      unfold deref in Hp. rewrite Ha0 in Hp. cbn [c_bind] in Hp.
      destruct (trylock mode (lock e0)) as [l|]; cbn in Hp; simplify_eq; [|done].
      by eapply (demoted_update a e c hs a0 e0 (with_lock l e0)); eauto.
    + destruct (get_miss c hs t b mem k mode Hinv Hk Hal) as (c1 & ds & Hgc & _ & Hg & _).
      rewrite Hg in Hp. cbn in Hp. simplify_eq. destruct (after_gc_deletes _ _ _ Hgc) as (vs & -> & Hvs).
      destruct (demoted_delete a e c hs vs Hdem) as (e' & He & ?); [by intros ? []%Hvs|].
      exists e'. cbn in *. rewrite lookup_insert_ne; [done|]. intros ->.
      rewrite delete_all_lookup in He. case_decide; congruence.
  - unfold dt_cache_testget in Hp. destruct (hashtable c !! k) as [a0|] eqn:Hk; [|by simplify_eq/=].
    destruct (wf_found c Hwf k a0 Hk) as (e0 & Ha0 & _).
    unfold deref in Hp. rewrite Ha0 in Hp. cbn [c_bind] in Hp.
    destruct (trylock mode (lock e0)) as [l|]; cbn in Hp; simplify_eq; [|done].
    by eapply (demoted_update a e c hs a0 e0 (with_lock l e0)); eauto.
  - unfold dt_cache_remove in Hp. destruct (hashtable c !! k) as [a0|] eqn:Hk; [|by simplify_eq/=].
    destruct (wf_found c Hwf k a0 Hk) as (e0 & Ha0 & He0 & _).
    unfold deref in Hp. rewrite Ha0 in Hp. cbn [c_bind] in Hp.
    destruct (dt_pthread_rwlock_trywrlock (lock e0)) eqn:Ht; cbn in Hp; [|by simplify_eq].
    destruct (_lock_demoting e0) eqn:Hd; cbn in Hp; simplify_eq; [done|].
    assert (delete_entry (key e0) a0 e0 c = foldl delete_at c [a0]) as -> by
      (cbn; unfold delete_at; by rewrite Ha0).
    apply demoted_delete; [done|]. intros b ->%list_elem_of_singleton.
    rewrite (busy_cases _ _ _ Ha0), Ht, Hd. by intros [|].
  - destruct (inv_gc c hs fill Hinv) as (c' & ds & Hg & Ho & _). rewrite Hg in Hp. cbn in Hp.
    simplify_eq. destruct (gc_outcome_keeps _ _ _ _ _ Ho) as (vs & -> & Hvs). by apply demoted_delete.
  - destruct (locks_held _ _ Hok h Hal) as [e0 He0]. unfold dt_cache_release, deref in Hp.
    rewrite He0 in Hp. cbn [c_bind] in Hp.
    destruct (dt_pthread_rwlock_unlock (lock e0)) as [l|]; cbn in Hp; simplify_eq.
    by eapply (demoted_update a e c hs (h_entry h) e0 (with_lock l e0)); eauto.
  - destruct (locks_held _ _ Hok h Hal) as [e0 He0]. unfold deref in Hp. rewrite He0 in Hp.
    cbn in Hp. simplify_eq.
    eapply (demoted_update a e c hs (h_entry h) e0 (with_demoting v e0)); eauto.
Qed.

(** An entry whose demoting flag is set stays in the cache with its data until
    the flag is cleared, whatever the threads do meanwhile and although nobody may
    hold its lock: the demotion of a write lock to a read lock in
    dt_mipmap_cache_get cannot lose the entry, as long as nobody else clears the
    flag. *)
Theorem demoting_entry_survives s s' a e (Hinv : inv s)
    (He : heap (sys_cache s) !! a = Some e) (Hd : _lock_demoting e = true)
    (Hr : rtc (step_keeping a) s s') :
  exists e', heap (sys_cache s') !! a = Some e' /\ _lock_demoting e' = true /\
    key e' = key e /\ data e' = data e.
Proof.
  assert (demoted a e s) as Hdem by by exists e.
  clear He Hd. induction Hr as [|s s1 s2 Hs _ IH]; [exact Hdem|].
  apply IH; [|by eapply demoted_step].
  destruct Hs as (act & Hal & Hp & _). by apply (m_preserve_Done (Inv:=inv) s act).
Qed.

Definition example_demoting : system :=
  run_or example_system [AGet 1 100 0 7 "r"; ADemoting (Handle 1 100 true) true;
                         ARelease (Handle 1 100 true)].

Lemma demoting_entry_survives_witness :
  exists e', heap (sys_cache (run_or example_demoting [AGet 2 200 0 8 "r"])) !! 100 = Some e' /\
    _lock_demoting e' = true /\ key e' = 7 /\ data e' = 1007.
Proof.
  refine (demoting_entry_survives example_demoting _ 100 (Entry 1007 64 9 rwlock_free true 7) _ _ _ _).
  - refine (m_reachable (Inv:=inv) example_system _ (cache_inv_initial _ example_initial) _).
    apply (m_run_reachable [AGet 1 100 0 7 "r"; ADemoting (Handle 1 100 true) true;
                          ARelease (Handle 1 100 true)]). vm_compute. reflexivity.
  - vm_compute. reflexivity.
  - reflexivity.
  - apply rtc_once. exists (AGet 2 200 0 8 "r"). split_and!; [vm_compute; reflexivity..|exact I].
Defined.

(** Thread 1 fills a new entry and demotes it, thread 2 reads and demotes it too,
    thread 3 needs room. *)
Definition demotion_race : list action :=
  [AGet 1 100 0 7 "r"; ADemoting (Handle 1 100 true) true; ARelease (Handle 1 100 true);
   AGet 2 200 0 7 "r"; ADemoting (Handle 2 100 false) true; ARelease (Handle 2 100 false);
   AGet 2 200 0 7 "r"; ADemoting (Handle 2 100 false) false; ARelease (Handle 2 100 false);
   AGet 3 300 0 8 "r"].

(** Two overlapping demotions of one entry lose it. Thread 1 has filled a new
    entry and demotes it; thread 2, a reader, runs its own demotion of the same
    entry to the end, which clears the flag that thread 1 relies on; a garbage
    collection then frees the entry. The get that should give thread 1 its read
    lock returns another, write-locked entry that nobody has filled. *)
Theorem overlapping_demotions_lose_entry :
  exists s1 s2,
    run example_system demotion_race = Done s1 /\ heap (sys_cache s1) !! 100 = None /\
    run s1 [AGet 1 400 0 7 "r"] = Done s2 /\
    handles s2 = [Handle 1 400 true; Handle 3 300 true].
Proof.
  exists (run_or example_system demotion_race),
    (run_or example_system (demotion_race ++ [AGet 1 400 0 7 "r"])).
  split_and!; vm_compute; reflexivity.
Qed.
