(* ===== verification/CacheSpec.v ===== *)
(** What common/cache.c promises to its clients, the image and mipmap caches: a map
    from keys to data that may lose any key nobody holds, with leases for reading
    and for writing.

    [lossy_step] is that promise, without entries, addresses, an lru list, costs or
    attempts that start over. [abstraction] reads it off the state of the system of
    threads in [Cache], and the refinement shows that every step of that system is
    a step of the promise. *)

From Stdlib Require Import Ascii.
From S2P Require Import Prelude Cache.
Local Open Scope Z_scope.

(** ** The promise *)

Record lease := Lease { le_thread : Z; le_key : Z; le_write : bool }.
Record lossy_map := Lossy { contents : gmap Z Z; leases : list lease }.

(** Another lease on [k] may be given: readers share, a writer is alone. *)
Definition admits (ls : list lease) (k : Z) (w : bool) : Prop :=
  forall l, l ∈ ls -> le_key l = k -> w = false /\ le_write l = false.

(** Keys are dropped, but none that is leased. *)
Definition evicts (ls : list lease) (m m' : gmap Z Z) : Prop :=
  m' ⊆ m /\ forall l, l ∈ ls -> m' !! le_key l = m !! le_key l.

Inductive lossy_step : lossy_map -> lossy_map -> Prop :=
  | lossy_idle s : lossy_step s s
  | lossy_hit m ls t k w :
      is_Some (m !! k) -> admits ls k w ->
      lossy_step (Lossy m ls) (Lossy m (Lease t k w :: ls))
  | lossy_miss m m' ls t k w d :
      m !! k = None -> evicts ls m m' ->
      lossy_step (Lossy m ls) (Lossy (<[k := d]> m') (Lease t k w :: ls))
  | lossy_evict m m' ls :
      evicts ls m m' -> lossy_step (Lossy m ls) (Lossy m' ls)
  | lossy_close m l ls ls' :
      ls ≡ₚ l :: ls' -> lossy_step (Lossy m ls) (Lossy m ls').

(** ** The abstraction *)

Definition contents_of (c : dt_cache_t) : gmap Z Z :=
  omap (fun a => data <$> heap c !! a) (hashtable c).

Definition lease_of (m : gmap Z dt_cache_entry_t) (h : handle) : lease :=
  Lease (h_thread h) (default 0 (key <$> m !! h_entry h)) (h_write h).

Definition abstraction (s : system) : lossy_map :=
  Lossy (contents_of (sys_cache s)) (map (lease_of (heap (sys_cache s))) (handles s)).

Lemma contents_lookup c k d :
  cache_wf c ->
  contents_of c !! k = Some d <-> exists a e, heap c !! a = Some e /\ key e = k /\ data e = d.
Proof.
  intros Hwf. unfold contents_of. rewrite lookup_omap. split.
  - intros (a & Hk & Ha)%bind_Some. apply (wf_table c Hwf) in Hk as (e & He & Hke).
    rewrite He in Ha. cbn in Ha. simplify_eq. eauto.
  - intros (a & e & Ha & Hk & Hd).
    rewrite (proj2 (wf_table c Hwf k a)) by eauto. cbn. rewrite Ha. cbn. by f_equal.
Qed.

Lemma contents_None c k : cache_wf c -> contents_of c !! k = None <-> hashtable c !! k = None.
Proof.
  intros Hwf. unfold contents_of. rewrite lookup_omap.
  destruct (hashtable c !! k) as [a|] eqn:Hk; [|done]. cbn.
  apply (wf_table c Hwf) in Hk as (e & -> & _). done.
Qed.

(** The leases depend on the keys of the held entries only. *)
Lemma leases_ext m m' hs :
  (forall h, h ∈ hs -> key <$> m' !! h_entry h = key <$> m !! h_entry h) ->
  map (lease_of m') hs = map (lease_of m) hs.
Proof.
  intros H. apply map_ext_in. intros h Hh%list_elem_of_In. unfold lease_of. by rewrite H.
Qed.

(** An entry is replaced by one with the same key and data. *)
Lemma abstraction_update c hs a e e' :
  heap c !! a = Some e -> key e' = key e -> data e' = data e ->
  contents_of (update_entry a e' c) = contents_of c /\
  map (lease_of (<[a := e']> (heap c))) hs = map (lease_of (heap c)) hs.
Proof.
  intros Ha Hk Hd. split.
  - apply map_eq. intros k. unfold contents_of. rewrite !lookup_omap. cbn.
    destruct (hashtable c !! k) as [b|]; [|done]. cbn. destruct (decide (b = a)) as [->|].
    + rewrite lookup_insert_eq, Ha. cbn. by rewrite Hd.
    + by rewrite lookup_insert_ne.
  - apply leases_ext. intros h _. destruct (decide (h_entry h = a)) as [->|].
    + rewrite lookup_insert_eq, Ha. cbn. by rewrite Hk.
    + by rewrite lookup_insert_ne.
Qed.

(** ** Each kind of step *)

(** A held entry is busy, so a deletion of entries that are not keeps it. *)
Lemma held_busy m hs h : locks_ok m hs -> h ∈ hs -> busy m (h_entry h).
Proof.
  intros Hok Hh. destruct (decide (busy m (h_entry h))) as [|Hb]; [done|].
  apply (locks_not_busy m hs Hok) in Hb as [Hf Ht]. pose proof (count_held h hs Hh).
  destruct (h_write h); lia.
Qed.

Lemma delete_all_evicts c hs vs :
  inv (Sys c hs) -> (forall a, a ∈ vs -> ~ busy (heap c) a) ->
  let c' := foldl delete_at c vs in
  evicts (map (lease_of (heap c)) hs) (contents_of c) (contents_of c') /\
  map (lease_of (heap c')) hs = map (lease_of (heap c)) hs.
Proof.
  intros [Hwf Hok] Hvs c'. cbn [sys_cache handles] in *.
  assert (cache_wf c') as Hwf' by by apply delete_all_wf.
  assert (forall h, h ∈ hs -> heap c' !! h_entry h = heap c !! h_entry h) as Hkeep.
  { intros h Hh. subst c'. rewrite delete_all_lookup. rewrite decide_False; [done|].
    intros Hin. by apply (Hvs _ Hin), (held_busy _ hs). }
  split; [split|apply leases_ext; intros h Hh; by rewrite Hkeep].
  - apply map_subseteq_spec. intros k d (a & e & Ha & Hk & Hd)%contents_lookup; [|done].
    apply contents_lookup; [done|]. exists a, e. split; [|done]. subst c'.
    rewrite delete_all_lookup in Ha. by case_decide.
  - intros l (h & -> & Hh)%list_elem_of_fmap. destruct (locks_held _ _ Hok h Hh) as [e He].
    unfold lease_of. cbn [le_key]. rewrite He. cbn.
    rewrite (proj2 (contents_lookup c (key e) (data e) Hwf)) by eauto.
    apply contents_lookup; [done|]. exists (h_entry h), e. split; [|done]. by rewrite Hkeep.
Qed.

Lemma lock_admits c hs a e mode l :
  inv (Sys c hs) -> heap c !! a = Some e -> trylock mode (lock e) = Some l ->
  admits (map (lease_of (heap c)) hs) (key e) (mode_w mode).
Proof.
  intros [Hwf Hok] Ha Ht l' (h & -> & Hh)%list_elem_of_fmap Hk. cbn [sys_cache handles] in *.
  destruct (locks_held _ _ Hok h Hh) as [e' He']. unfold lease_of in Hk. cbn in Hk.
  rewrite He' in Hk. cbn in Hk. assert (h_entry h = a) as Hha.
  { assert (hashtable c !! key e = Some (h_entry h)) by (apply (wf_table c Hwf); eauto).
    assert (hashtable c !! key e = Some a) by (apply (wf_table c Hwf); eauto). congruence. }
  pose proof (count_held h hs Hh) as Hc. rewrite Hha in Hc. pose proof (Hok a) as Hm. rewrite Ha in Hm.
  unfold trylock in Ht. cbn [le_write lease_of]. destruct (mode_w mode).
  - destruct (wrlock_free _ _ _ Hm); [congruence|]. destruct (h_write h); lia.
  - split; [done|]. destruct Hm as (_ & Hw & _). unfold dt_pthread_rwlock_tryrdlock in Ht.
    destruct (writer (lock e)); [done|]. destruct (h_write h); [lia|done].
Qed.

Lemma lock_refines c hs t a e mode l :
  inv (Sys c hs) -> heap c !! a = Some e -> trylock mode (lock e) = Some l ->
  lossy_step (abstraction (Sys c hs))
    (abstraction (Sys (bubble_up a (update_entry a (with_lock l e) c)) (Handle t a (mode_w mode) :: hs))).
Proof.
  intros Hinv Ha Ht. unfold abstraction. cbn [sys_cache handles map heap bubble_up update_entry].
  destruct (abstraction_update c hs a e (with_lock l e) Ha eq_refl eq_refl) as [Hc Hl].
  rewrite Hl. change (contents_of (bubble_up _ _)) with (contents_of (update_entry a (with_lock l e) c)).
  rewrite Hc. unfold lease_of at 2. cbn [h_thread h_entry h_write]. rewrite lookup_insert_eq. cbn.
  apply lossy_hit; [|by eapply lock_admits].
  exists (data e). apply contents_lookup; [apply Hinv|]. eauto.
Qed.

Lemma insert_abstraction c hs t a mem k mode :
  inv (Sys c hs) -> hashtable c !! k = None -> heap c !! a = None ->
  exists d, abstraction (Sys (snd (insert_entry c a mem k mode))
                             (Handle t a (fst (insert_entry c a mem k mode)) :: hs)) =
    Lossy (<[k := d]> (contents_of c))
          (Lease t k (fst (insert_entry c a mem k mode)) :: map (lease_of (heap c)) hs).
Proof.
  intros [Hwf Hok] Hk Ha. cbn [sys_cache handles] in *. unfold insert_entry. cbn [fst snd].
  set (e := with_lock _ _). assert (key e = k) as He.
  { subst e. cbn. unfold allocate_entry. by destruct (c_allocate c). }
  exists (data e). unfold abstraction. cbn [sys_cache handles heap map]. f_equal.
  - apply map_eq. intros k'. unfold contents_of. rewrite lookup_omap. cbn [hashtable heap].
    destruct (decide (k' = k)) as [->|].
    + rewrite !lookup_insert_eq. cbn. by rewrite lookup_insert_eq.
    + rewrite !lookup_insert_ne, lookup_omap by done.
      destruct (hashtable c !! k') as [b|] eqn:Hb; [|done]. cbn.
      rewrite lookup_insert_ne; [done|]. intros <-. apply (wf_table c Hwf) in Hb as (? & ? & _). congruence.
  - f_equal.
    + unfold lease_of. cbn [h_thread h_entry h_write]. rewrite lookup_insert_eq. f_equal. exact He.
    + apply leases_ext. intros h Hh. rewrite lookup_insert_ne; [done|]. intros Hha.
      destruct (locks_held _ _ Hok h Hh). congruence.
Qed.

Lemma drop_handle_Permutation h hs : h ∈ hs -> hs ≡ₚ h :: drop_handle h hs.
Proof.
  induction hs as [|x hs IH]; [by intros ?%not_elem_of_nil|]. cbn. intros Hin. case_decide; [by subst|].
  apply elem_of_cons in Hin as [|Hin]; [done|]. rewrite (IH Hin) at 1. constructor.
Qed.

(** ** The refinement *)

Lemma delete_refines c hs vs :
  inv (Sys c hs) -> (forall a, a ∈ vs -> ~ busy (heap c) a) ->
  lossy_step (abstraction (Sys c hs)) (abstraction (Sys (foldl delete_at c vs) hs)).
Proof.
  intros Hinv Hvs. destruct (delete_all_evicts c hs vs Hinv Hvs) as [Hev Hl].
  unfold abstraction. cbn [sys_cache handles]. rewrite Hl. by apply lossy_evict.
Qed.

Lemma miss_refines c hs t a mem k mode s' :
  inv (Sys c hs) -> hashtable c !! k = None -> heap c !! a = None ->
  perform (Sys c hs) (AGet t a mem k mode) = Done s' ->
  lossy_step (abstraction (Sys c hs)) (abstraction s').
Proof.
  intros Hinv Hk Ha Hp. cbn [perform sys_cache handles] in Hp.
  destruct (get_miss c hs t a mem k mode Hinv Hk Ha) as (c1 & ds & Hgc & Hk1 & Hg & _).
  rewrite Hg in Hp. cbn [c_bind] in Hp. injection Hp as <-.
  destruct (after_gc_deletes _ _ _ Hgc) as (vs & -> & Hvs').
  assert (forall a, a ∈ vs -> ~ busy (heap c) a) as Hvs by naive_solver.
  destruct (delete_all_evicts c hs vs Hinv Hvs) as [Hev Hl].
  destruct (insert_abstraction (foldl delete_at c vs) hs t a mem k mode) as (d & Hd);
    [by apply inv_delete_all|done|rewrite delete_all_lookup; by case_decide|].
  refine (eq_ind_r (lossy_step _) _ Hd). rewrite Hl. apply lossy_miss; [apply contents_None; [apply Hinv|done]|done].
Qed.

(** A thread stops holding [h] after the lock of its entry has changed. *)
Lemma release_refines c hs h e l :
  h ∈ hs -> heap c !! h_entry h = Some e ->
  lossy_step (abstraction (Sys c hs))
    (abstraction (Sys (update_entry (h_entry h) (with_lock l e) c) (drop_handle h hs))).
Proof.
  intros Hh He.
  destruct (abstraction_update c (drop_handle h hs) _ e (with_lock l e) He eq_refl eq_refl) as [Hc Hls].
  unfold abstraction. cbn [sys_cache handles]. rewrite Hc. cbn [heap update_entry]. rewrite Hls.
  apply (lossy_close _ (lease_of (heap c) h)).
  change (lease_of (heap c) h :: ?x) with (map (lease_of (heap c)) (h :: drop_handle h hs)).
  by apply Permutation_map, drop_handle_Permutation.
Qed.

Lemma remove_refines c hs k r s' :
  inv (Sys c hs) -> dt_cache_remove c k = Done r ->
  s' = (match r with Return (_, _, c') => Sys c' hs | Restart => Sys c hs end) ->
  lossy_step (abstraction (Sys c hs)) (abstraction s').
Proof.
  intros Hinv. unfold dt_cache_remove.
  destruct (hashtable c !! k) as [a|] eqn:Hk; [|intros; simplify_eq; constructor].
  destruct (wf_found c (proj1 Hinv) k a Hk) as (e & Ha & He & _). unfold deref. cbn [sys_cache] in *.
  rewrite Ha. cbn [c_bind].
  destruct (dt_pthread_rwlock_trywrlock (lock e)) eqn:Ht; [|intros; simplify_eq; constructor].
  destruct (_lock_demoting e) eqn:Hd; intros; simplify_eq; [constructor|].
  assert (delete_entry (key e) a e c = foldl delete_at c [a]) as -> by (cbn; unfold delete_at; by rewrite Ha).
  apply delete_refines; [done|]. intros b ->%list_elem_of_singleton.
  rewrite (busy_cases _ _ _ Ha), Ht, Hd. by intros [|].
Qed.

Lemma step_refines s s' : inv s -> step s s' -> lossy_step (abstraction s) (abstraction s').
Proof.
  destruct s as [c hs]. intros Hinv (act & Hal & Hp). pose proof Hinv as [Hwf Hok].
  cbn [m_allowed m_perform cache_machine] in Hal, Hp. cbn [sys_cache handles] in Hwf, Hok.
  destruct act as [t a mem k mode|t k mode|k|fill|h|h b].
  - destruct (hashtable c !! k) as [a0|] eqn:Hk; [|by eapply miss_refines].
    cbn [perform sys_cache handles] in Hp. unfold dt_cache_get in Hp. rewrite Hk in Hp.
    destruct (wf_found c Hwf k a0 Hk) as (e & Ha0 & _).
    unfold deref in Hp. rewrite Ha0 in Hp. cbn [c_bind] in Hp.
    destruct (trylock mode (lock e)) as [l|] eqn:Ht; cbn in Hp; simplify_eq; [|constructor].
    by apply lock_refines.
  - cbn [perform sys_cache handles] in Hp. unfold dt_cache_testget in Hp.
    destruct (hashtable c !! k) as [a0|] eqn:Hk; [|cbn in Hp; simplify_eq; constructor].
    destruct (wf_found c Hwf k a0 Hk) as (e & Ha0 & _). unfold deref in Hp. rewrite Ha0 in Hp.
    cbn [c_bind] in Hp. destruct (trylock mode (lock e)) as [l|] eqn:Ht; cbn in Hp; simplify_eq; [|constructor].
    by apply lock_refines.
  - cbn [perform sys_cache handles] in Hp. apply c_bind_Done in Hp as (r & Hr & Hp).
    eapply (remove_refines c hs k r); [done..|]. by destruct r as [[[? ?] ?]|]; simplify_eq.
  - cbn [perform sys_cache handles] in Hp. destruct (inv_gc c hs fill Hinv) as (c' & ds & Hgc & Ho & _).
    rewrite Hgc in Hp. cbn in Hp. simplify_eq.
    destruct (gc_outcome_keeps _ _ _ _ _ Ho) as (vs & -> & Hvs). by apply delete_refines.
  - cbn [perform sys_cache handles] in Hp. destruct (locks_held _ _ Hok h Hal) as [e He].
    unfold dt_cache_release, deref in Hp. rewrite He in Hp. cbn [c_bind] in Hp.
    apply c_bind_Done in Hp as (c' & (l & Hl & Hc')%c_bind_Done & Hp). simplify_eq.
    by apply release_refines.
  - cbn [perform sys_cache handles] in Hp. destruct (locks_held _ _ Hok h Hal) as [e He].
    unfold deref in Hp. rewrite He in Hp. cbn [c_bind] in Hp. simplify_eq.
    destruct (abstraction_update c hs _ e (with_demoting b e) He eq_refl eq_refl) as [Hc Hls].
    unfold abstraction. cbn [sys_cache handles]. rewrite Hc. cbn [heap update_entry]. rewrite Hls. constructor.
Qed.

(** ** What a client can rely on *)

(** Leased keys are there. *)
Definition lossy_inv (s : lossy_map) : Prop :=
  forall l, l ∈ leases s -> is_Some (contents s !! le_key l).

Lemma lossy_step_inv s s' : lossy_step s s' -> lossy_inv s -> lossy_inv s'.
Proof.
  intros Hs Hi. destruct Hs as [s|m ls t k w Hk Had|m m' ls t k w d Hk [_ Hev]|m m' ls [_ Hev]|m l ls ls' Hp];
    intros x Hx; cbn in *.
  - by apply Hi.
  - apply elem_of_cons in Hx as [->|Hx]; [done|by apply Hi].
  - apply elem_of_cons in Hx as [->|Hx]; cbn; [by rewrite lookup_insert_eq|].
    destruct (decide (le_key x = k)) as [->|]; [by rewrite lookup_insert_eq|].
    rewrite lookup_insert_ne, Hev by done. by apply Hi.
  - rewrite Hev by done. by apply Hi.
  - apply Hi. cbn. rewrite Hp. by right.
Qed.

(** The data under a leased key do not change, whoever else uses the map. *)
Lemma lossy_step_leased s s' l :
  lossy_step s s' -> lossy_inv s -> l ∈ leases s -> contents s' !! le_key l = contents s !! le_key l.
Proof.
  intros Hs Hi Hl. destruct Hs as [s|m ls t k w Hk Had|m m' ls t k w d Hk [_ Hev]|m m' ls [_ Hev]|m l' ls ls' Hp];
    cbn in *; [done..| |by apply Hev|done].
  rewrite lookup_insert_ne; [by apply Hev|]. intros ->. destruct (Hi l Hl) as [x Hx]. cbn in Hx, Hk. congruence.
Qed.

Lemma reachable_lossy_inv s s' : lossy_inv s -> rtc lossy_step s s' -> lossy_inv s'.
Proof. intros Hi Hr. induction Hr; [done|]. eauto using lossy_step_inv. Qed.

Lemma initial_abstraction s : initial s -> abstraction s = Lossy ∅ [].
Proof. intros (es & cq & al & cl & ->). unfold abstraction, contents_of. cbn. by rewrite omap_empty. Qed.

Lemma reachable_refines s s' : inv s -> rtc step s s' -> rtc lossy_step (abstraction s) (abstraction s').
Proof.
  intros Hi Hr. induction Hr as [|s s1 s2 Hs Hr IH]; [constructor|].
  eapply rtc_l; [by apply step_refines|]. apply IH. by eapply m_reachable, rtc_once.
Qed.

(** ** Properties *)

(** C2: the cache implements the lossy map: whatever the threads do from a new
    cache on, the keys, data and locks of common/cache.c evolve as the promise
    allows. A get gives a lease that the other leases on the key admit, a miss
    adds the key and drops only keys without a lease, gc and remove drop only such
    keys, and a release returns exactly one lease. *)
Theorem cache_refines_lossy_map s s' (Hi : initial s) (Hr : rtc step s s') :
  rtc lossy_step (Lossy ∅ []) (abstraction s').
Proof. rewrite <- (initial_abstraction s Hi). apply reachable_refines; [by apply cache_inv_initial|done]. Qed.

Lemma cache_refines_lossy_map_witness :
  let s' := run_or example_system
    [AGet 1 100 0 7 "r"; AGet 2 200 0 8 "w"; ARelease (Handle 1 100 true)] in
  rtc lossy_step (Lossy ∅ []) (abstraction s') /\ leases (abstraction s') = [Lease 2 8 true].
Proof.
  split; [|vm_compute; reflexivity].
  apply (cache_refines_lossy_map example_system); [exact example_initial|].
  apply (m_run_reachable [AGet 1 100 0 7 "r"; AGet 2 200 0 8 "w"; ARelease (Handle 1 100 true)]).
  vm_compute. reflexivity.
Defined.

(** Steps of any thread while the lease [l] is not returned. *)
Definition step_holding (l : lease) (s s' : system) : Prop :=
  step s s' /\ l ∈ leases (abstraction s').

(** As long as a thread holds an entry, for reading or for writing, its key
    stays in the cache with the same data, whatever the other threads get, remove
    or collect meanwhile. *)
Theorem leased_data_is_stable s0 s s' l (Hi : initial s0) (Hr : rtc step s0 s)
    (Hl : l ∈ leases (abstraction s)) (Hkeep : rtc (step_holding l) s s') :
  exists d, contents_of (sys_cache s) !! le_key l = Some d /\
            contents_of (sys_cache s') !! le_key l = Some d.
Proof.
  assert (inv s) as Hinv by (eapply m_reachable; [by apply cache_inv_initial|done]).
  assert (lossy_inv (abstraction s)) as Hli.
  { apply (reachable_lossy_inv (Lossy ∅ [])); [by intros ? ?%not_elem_of_nil|].
    rewrite <- (initial_abstraction s0 Hi). apply reachable_refines; [by apply cache_inv_initial|done]. }
  destruct (Hli l Hl) as [d Hd]. exists d. split; [exact Hd|]. clear Hr Hi.
  induction Hkeep as [|s s1 s2 [Hs Hl1] _ IH]; [done|].
  pose proof (step_refines s s1 Hinv Hs) as Hls.
  apply IH; [done|by eapply m_reachable, rtc_once|by eapply lossy_step_inv|].
  by rewrite (lossy_step_leased _ _ l Hls Hli Hl).
Qed.

Lemma leased_data_is_stable_witness :
  let s := run_or example_system [AGet 1 100 0 7 "r"] in
  let s' := run_or s [AGet 2 200 0 8 "r"] in
  exists d, contents_of (sys_cache s) !! 7 = Some d /\ contents_of (sys_cache s') !! 7 = Some d.
Proof.
  apply (leased_data_is_stable example_system (run_or example_system [AGet 1 100 0 7 "r"])
           (run_or (run_or example_system [AGet 1 100 0 7 "r"]) [AGet 2 200 0 8 "r"]) (Lease 1 7 true)).
  - exact example_initial.
  - apply (m_run_reachable [AGet 1 100 0 7 "r"]). vm_compute. reflexivity.
  - apply (list_elem_of_lookup_2 _ 0). vm_compute. reflexivity.
  - apply rtc_once. split.
    + exists (AGet 2 200 0 8 "r"). split; vm_compute; reflexivity.
    + apply (list_elem_of_lookup_2 _ 1). vm_compute. reflexivity.
Defined.
