(* ===== verification/Jobs.v ===== *)
(** The job system of control/jobs.c: jobs with their states, the five queues and
    the scheduler, the worker threads and the reserved workers.

    Jobs live in a heap of addresses, since queues, worker slots and clients
    share pointers to them; a disposed job is no longer in the heap and following
    a pointer to it is [Undefined]. A function that holds queue_mutex (or
    res_mutex) from beginning to end is one atomic operation. The run of a job by a
    worker is cut where the worker holds no mutex of the control structure.

    What a job's callbacks do is not part of the model: the result of
    [execute] is a parameter, and calls are recorded in a log. Waking up of
    sleeping workers, debug output and the progress bars' drawing are left out;
    [progress] only says whether the job has a progress bar. *)

From Stdlib Require Import Ascii String.
From S2P Require Import Prelude.
Local Open Scope Z_scope.

(** ** Data *)

Definition DT_CONTROL_FG_PRIORITY : Z := 4.
Definition DT_CONTROL_MAX_JOBS : Z := 30.
Definition DT_CONTROL_DESCRIPTION_LEN : nat := 256.
Definition DT_CTL_WORKER_RESERVED : Z := 3.

Inductive dt_job_state_t :=
  | DT_JOB_STATE_INITIALIZED
  | DT_JOB_STATE_QUEUED
  | DT_JOB_STATE_RUNNING
  | DT_JOB_STATE_FINISHED
  | DT_JOB_STATE_CANCELLED
  | DT_JOB_STATE_DISCARDED
  | DT_JOB_STATE_DISPOSED.

#[global] Instance dt_job_state_eq_dec : EqDecision dt_job_state_t.
Proof. solve_decision. Defined.

(** The value of the enumerator. *)
Definition state_value (st : dt_job_state_t) : Z :=
  match st with
  | DT_JOB_STATE_INITIALIZED => 0
  | DT_JOB_STATE_QUEUED => 1
  | DT_JOB_STATE_RUNNING => 2
  | DT_JOB_STATE_FINISHED => 3
  | DT_JOB_STATE_CANCELLED => 4
  | DT_JOB_STATE_DISCARDED => 5
  | DT_JOB_STATE_DISPOSED => 6
  end.

(** Queue numbers, and the number of queues. *)
Definition DT_JOB_QUEUE_USER_FG : nat := 0.
Definition DT_JOB_QUEUE_SYSTEM_FG : nat := 1.
Definition DT_JOB_QUEUE_USER_BG : nat := 2.
Definition DT_JOB_QUEUE_USER_EXPORT : nat := 3.
Definition DT_JOB_QUEUE_SYSTEM_BG : nat := 4.
Definition DT_JOB_QUEUE_MAX : nat := 5.

(** [_dt_job_t]; callbacks are addresses, 0 for NULL, and [params] is the memory
    the pointer of that name points to. *)
Record _dt_job_t := Job {
  execute : Z;
  params : list ascii;
  params_size : nat;
  params_destroy : Z;
  result : Z;
  state : dt_job_state_t;
  priority : Z;
  queue : nat;
  state_changed_cb : Z;
  progress : bool;
  description : string;
}.

Definition with_state (st : dt_job_state_t) (pr : bool) (j : _dt_job_t) : _dt_job_t :=
  Job (execute j) (params j) (params_size j) (params_destroy j) (result j) st (priority j)
      (queue j) (state_changed_cb j) pr (description j).

Definition with_priority (p : Z) (j : _dt_job_t) : _dt_job_t :=
  Job (execute j) (params j) (params_size j) (params_destroy j) (result j) (state j) p
      (queue j) (state_changed_cb j) (progress j) (description j).

Definition with_queue (q : nat) (j : _dt_job_t) : _dt_job_t :=
  Job (execute j) (params j) (params_size j) (params_destroy j) (result j) (state j) (priority j)
      q (state_changed_cb j) (progress j) (description j).

Definition with_result (r : Z) (j : _dt_job_t) : _dt_job_t :=
  Job (execute j) (params j) (params_size j) (params_destroy j) r (state j) (priority j)
      (queue j) (state_changed_cb j) (progress j) (description j).

Definition with_params (p : list ascii) (n : nat) (destroy : Z) (j : _dt_job_t) : _dt_job_t :=
  Job (execute j) p n destroy (result j) (state j) (priority j)
      (queue j) (state_changed_cb j) (progress j) (description j).

Definition with_callback (cb : Z) (j : _dt_job_t) : _dt_job_t :=
  Job (execute j) (params j) (params_size j) (params_destroy j) (result j) (state j) (priority j)
      (queue j) cb (progress j) (description j).

(** Calls out of the job system. *)
Inductive event :=
  | StateChanged (job : Z) (st : dt_job_state_t)
  | Execute (job : Z)
  | ProgressDestroy (job : Z)
  | ParamsDestroy (job : Z)
  | Free (job : Z).

(** The part of [dt_control_t] that jobs.c uses, with the heap of jobs and the
    log, latest event first. *)
Record dt_control_t := Control {
  running : bool;
  export_scheduled : bool;
  job : list (option Z);           (* one per worker thread *)
  queues : list (list Z);
  queue_length : list Z;
  job_res : list (option Z);
  new_res : list bool;
  jobs : gmap Z _dt_job_t;
  log : list event;
}.

Definition on_jobs (f : gmap Z _dt_job_t -> gmap Z _dt_job_t) (evs : list event)
    (c : dt_control_t) : dt_control_t :=
  Control (running c) (export_scheduled c) (job c) (queues c) (queue_length c)
          (job_res c) (new_res c) (f (jobs c)) (evs ++ log c).

Definition set_queue (q : nat) (l : list Z) (len : Z) (c : dt_control_t) : dt_control_t :=
  Control (running c) (export_scheduled c) (job c) (<[q := l]> (queues c))
          (<[q := len]> (queue_length c)) (job_res c) (new_res c) (jobs c) (log c).

Definition set_slot (t : nat) (o : option Z) (export : bool) (c : dt_control_t) : dt_control_t :=
  Control (running c) export (<[t := o]> (job c)) (queues c)
          (queue_length c) (job_res c) (new_res c) (jobs c) (log c).

Definition set_res (r : nat) (o : option Z) (new : bool) (c : dt_control_t) : dt_control_t :=
  Control (running c) (export_scheduled c) (job c) (queues c) (queue_length c)
          (<[r := o]> (job_res c)) (<[r := new]> (new_res c)) (jobs c) (log c).

Definition get_job (c : dt_control_t) (a : Z) : c_result _dt_job_t :=
  match jobs c !! a with
  | Some j => Done j
  | None => Undefined
  end.

Definition put_job (a : Z) (j : _dt_job_t) (c : dt_control_t) : dt_control_t :=
  on_jobs <[a := j]> [] c.

(** An index within an array. *)
Definition at_index {A} (l : list A) (i : nat) : c_result A :=
  match l !! i with
  | Some x => Done x
  | None => Undefined
  end.

(** ** Operations on one job *)

Definition dt_control_job_equal (j1 j2 : _dt_job_t) : bool :=
  if negb (params_size j1 =? 0)%nat && (params_size j1 =? params_size j2)%nat then
    (execute j1 =? execute j2) && (state_changed_cb j1 =? state_changed_cb j2)
    && (queue j1 =? queue j2)%nat
    && bool_decide (take (params_size j1) (params j1) = take (params_size j1) (params j2))
  else
    (execute j1 =? execute j2) && (state_changed_cb j1 =? state_changed_cb j2)
    && (queue j1 =? queue j2)%nat && String.eqb (description j1) (description j2).

Definition dt_control_job_set_state (c : dt_control_t) (job : option Z) (st : dt_job_state_t)
    : c_result dt_control_t :=
  match job with
  | None => Done c
  | Some a =>
      let* j := get_job c a in
      let drop := (state_value DT_JOB_STATE_FINISHED <=? state_value st)
                  && bool_decide (state j <> DT_JOB_STATE_RUNNING) && progress j in
      let evs := (if state_changed_cb j =? 0 then [] else [StateChanged a st])
                 ++ (if drop then [ProgressDestroy a] else []) in
      Done (on_jobs <[a := with_state st (if drop then false else progress j) j]> evs c)
  end.

Definition dt_control_job_get_state (c : dt_control_t) (job : option Z) : c_result dt_job_state_t :=
  match job with
  | None => Done DT_JOB_STATE_DISPOSED
  | Some a => let* j := get_job c a in Done (state j)
  end.

Definition dt_control_job_set_params_with_size (c : dt_control_t) (job : option Z)
    (ps : list ascii) (size : nat) (callback : Z) : c_result dt_control_t :=
  match job with
  | None => Done c
  | Some a =>
      let* j := get_job c a in
      if bool_decide (state j <> DT_JOB_STATE_INITIALIZED) then Done c
      else Done (put_job a (with_params ps size callback j) c)
  end.

Definition dt_control_job_set_params (c : dt_control_t) (job : option Z)
    (ps : list ascii) (callback : Z) : c_result dt_control_t :=
  dt_control_job_set_params_with_size c job ps 0 callback.

Definition dt_control_job_set_state_callback (c : dt_control_t) (job : option Z) (cb : Z)
    : c_result dt_control_t :=
  let* st := dt_control_job_get_state c job in
  if bool_decide (st <> DT_JOB_STATE_INITIALIZED) then Done c
  else match job with
       | Some a => let* j := get_job c a in Done (put_job a (with_callback cb j) c)
       | None => Undefined
       end.

(** A job at the address that calloc returned, 0 for a failed allocation; [msg] is
    the formatted message. *)
Definition dt_control_job_create (c : dt_control_t) (addr execute : Z) (msg : string)
    : option Z * dt_control_t :=
  if addr =? 0 then (None, c)
  else
    let descr := String.substring 0 (DT_CONTROL_DESCRIPTION_LEN - 1) msg in
    (Some addr,
     put_job addr (Job execute [] 0 0 0 DT_JOB_STATE_INITIALIZED 0 0 0 false descr) c).

Definition dt_control_job_cancel (c : dt_control_t) (job : option Z) : c_result dt_control_t :=
  dt_control_job_set_state c job DT_JOB_STATE_CANCELLED.

Definition dt_control_job_dispose (c : dt_control_t) (job : option Z) : c_result dt_control_t :=
  match job with
  | None => Done c
  | Some a =>
      let* j := get_job c a in
      let c := on_jobs <[a := with_state (state j) false j]>
                 (if progress j then [ProgressDestroy a] else []) c in
      let* c := dt_control_job_set_state c (Some a) DT_JOB_STATE_DISPOSED in
      Done (on_jobs (delete a)
              (Free a :: (if params_destroy j =? 0 then [] else [ParamsDestroy a])) c)
  end.

(** The bar of a job is created; one it had before is forgotten. *)
Definition dt_control_job_add_progress (c : dt_control_t) (job : option Z) : c_result dt_control_t :=
  match job with
  | None => Done c
  | Some a => let* j := get_job c a in Done (put_job a (with_state (state j) true j) c)
  end.

Definition discard (c : dt_control_t) (job : option Z) : c_result dt_control_t :=
  let* c := dt_control_job_set_state c job DT_JOB_STATE_DISCARDED in
  dt_control_job_dispose c job.

(** ** The scheduler *)

(** The loop over the queues: the job and the queue it was found in. *)
Fixpoint pick_loop (c : dt_control_t) (qs : list (list Z)) (i : nat)
    (winner : option (Z * nat)) (max_priority : Z) : c_result (option (Z * nat)) :=
  match qs with
  | [] => Done winner
  | [] :: qs => pick_loop c qs (S i) winner max_priority
  | (a :: _) :: qs =>
      if export_scheduled c && (i =? DT_JOB_QUEUE_USER_EXPORT)%nat
      then pick_loop c qs (S i) winner max_priority
      else
        let* j := get_job c a in
        if max_priority <? priority j then pick_loop c qs (S i) (Some (a, i)) (priority j)
        else pick_loop c qs (S i) winner max_priority
  end.

(** The loop that increments the priorities of the other heads. *)
Fixpoint age_loop (winner_queue : nat) (qs : list (list Z)) (i : nat) (c : dt_control_t)
    : c_result dt_control_t :=
  match qs with
  | [] => Done c
  | [] :: qs => age_loop winner_queue qs (S i) c
  | (a :: _) :: qs =>
      if (i =? winner_queue)%nat then age_loop winner_queue qs (S i) c
      else
        let* j := get_job c a in
        age_loop winner_queue qs (S i) (put_job a (with_priority (wrap_u8 (priority j + 1)) j) c)
  end.

(** [threadid] is the calling worker's number. *)
Definition dt_control_schedule_job (c : dt_control_t) (threadid : nat)
    : c_result (option Z * dt_control_t) :=
  let* r := pick_loop c (queues c) 0 None (-1) in
  match r with
  | None => Done (None, c)
  | Some (a, winner_queue) =>
      let* q := at_index (queues c) winner_queue in
      let* len := at_index (queue_length c) winner_queue in
      let c := set_queue winner_queue (tail q) (wrap_u64 (len - 1)) c in
      let* _ := at_index (job c) threadid in
      let c := set_slot threadid (Some a)
                 (if (winner_queue =? DT_JOB_QUEUE_USER_EXPORT)%nat then true
                  else export_scheduled c) c in
      let* c := age_loop winner_queue (queues c) 0 c in
      Done (Some a, c)
  end.

(** ** Running jobs *)

Section run.
(** The result of the execute callback of a job. *)
Context (callback_result : _dt_job_t -> Z).

(** [dt_control_job_execute] in two parts: up to the call of the callback, and from
    its return on. *)
Definition job_execute_begin (c : dt_control_t) (a : Z) : c_result dt_control_t :=
  let* c := dt_control_job_set_state c (Some a) DT_JOB_STATE_RUNNING in
  Done (on_jobs id [Execute a] c).

Definition job_execute_end (c : dt_control_t) (a : Z) : c_result dt_control_t :=
  let* j := get_job c a in
  let c := put_job a (with_result (callback_result j) j) c in
  dt_control_job_set_state c (Some a) DT_JOB_STATE_FINISHED.

Definition dt_control_job_execute (c : dt_control_t) (a : Z) : c_result dt_control_t :=
  let* c := job_execute_begin c a in
  job_execute_end c a.

(** The worker's last part of [dt_control_run_job]: leave the slot, dispose. *)
Definition run_job_finish (c : dt_control_t) (threadid : nat) (a : Z) : c_result dt_control_t :=
  let* j := get_job c a in
  let* _ := at_index (job c) threadid in
  let c := set_slot threadid None
             (if (queue j =? DT_JOB_QUEUE_USER_EXPORT)%nat then false else export_scheduled c) c in
  dt_control_job_dispose c (Some a).

(** One run without interruption by other threads. *)
Definition dt_control_run_job (c : dt_control_t) (threadid : nat) : c_result (Z * dt_control_t) :=
  let* (r, c) := dt_control_schedule_job c threadid in
  match r with
  | None => Done (-1, c)
  | Some a =>
      let* st := dt_control_job_get_state c (Some a) in
      let* c := if decide (st = DT_JOB_STATE_QUEUED) then dt_control_job_execute c a else Done c in
      let* c := run_job_finish c threadid a in
      Done (0, c)
  end.

(** The job of reserved worker [res] taken out of its slot. *)
Definition take_job_res (c : dt_control_t) (res : nat) : c_result (option Z * dt_control_t) :=
  let* new := at_index (new_res c) res in
  let* o := at_index (job_res c) res in
  if new then Done (o, set_res res None false c) else Done (None, set_res res o false c).

Definition dt_control_run_job_res (c : dt_control_t) (res : Z) : c_result (Z * dt_control_t) :=
  if DT_CTL_WORKER_RESERVED <=? wrap_u32 res then Done (-1, c)
  else
    let* (o, c) := take_job_res c (Z.to_nat (wrap_u32 res)) in
    match o with
    | None => Done (-1, c)
    | Some a =>
        let* st := dt_control_job_get_state c (Some a) in
        let* c := if decide (st = DT_JOB_STATE_QUEUED) then dt_control_job_execute c a else Done c in
        let* c := dt_control_job_dispose c (Some a) in
        Done (0, c)
    end.

(** ** Adding jobs *)

Definition dt_control_add_job_res (c : dt_control_t) (job : option Z) (res : Z)
    : c_result (Z * dt_control_t) :=
  match job with
  | Some a =>
      if DT_CTL_WORKER_RESERVED <=? wrap_u32 res then
        let* c := dt_control_job_dispose c job in Done (1, c)
      else
        let r := Z.to_nat (wrap_u32 res) in
        let* old := at_index (job_res c) r in
        let* c := discard c old in
        let* c := dt_control_job_set_state c job DT_JOB_STATE_QUEUED in
        Done (0, set_res r (Some a) true c)
  | None => Done (1, c)
  end.

(** The first of the scheduled jobs that equals [j]. *)
Fixpoint find_scheduled (c : dt_control_t) (j : _dt_job_t) (slots : list (option Z))
    : c_result (option Z) :=
  match slots with
  | [] => Done None
  | None :: slots => find_scheduled c j slots
  | Some b :: slots =>
      let* j' := get_job c b in
      if dt_control_job_equal j j' then Done (Some b) else find_scheduled c j slots
  end.

(** The first queued job that equals [j], with the queue without it. *)
Fixpoint extract_equal (c : dt_control_t) (j : _dt_job_t) (q : list Z)
    : c_result (option (Z * list Z)) :=
  match q with
  | [] => Done None
  | b :: q =>
      let* j' := get_job c b in
      if dt_control_job_equal j j' then Done (Some (b, q))
      else
        let* r := extract_equal c j q in
        Done (match r with Some (b', q') => Some (b', b :: q') | None => None end)
  end.

(** Take care of the maximal queue size: discard the last job. *)
Definition limit_queue (c : dt_control_t) (q : list Z) (len : Z)
    : c_result (dt_control_t * list Z * Z) :=
  if DT_CONTROL_MAX_JOBS <? len then
    match last q with
    | None => Undefined
    | Some b =>
        let* c := discard c (Some b) in
        Done (c, removelast q, wrap_u64 (len - 1))
    end
  else Done (c, q, len).

(** Job [a'] goes on top of the rest [q] of the queue, and the dropped job, if any,
    is disposed of. *)
Definition push_system_fg (c : dt_control_t) (a' : Z) (q : list Z) (len : Z)
    (job_for_disposal : option Z) : c_result dt_control_t :=
  let* (c, q, len) := limit_queue c (a' :: q) (wrap_u64 (len + 1)) in
  let c := set_queue DT_JOB_QUEUE_SYSTEM_FG q len c in
  let* c := dt_control_job_set_state c (Some a') DT_JOB_STATE_QUEUED in
  discard c job_for_disposal.

(** The system foreground queue: a stack of bounded size without duplicates. *)
Definition add_job_system_fg (c : dt_control_t) (a : Z) : c_result dt_control_t :=
  let qid := DT_JOB_QUEUE_SYSTEM_FG in
  let* q := at_index (queues c) qid in
  let* len := at_index (queue_length c) qid in
  let* j := get_job c a in
  let j := with_priority DT_CONTROL_FG_PRIORITY j in
  let c := put_job a j c in
  let* scheduled := find_scheduled c j (job c) in
  match scheduled with
  | Some _ => discard c (Some a)
  | None =>
      let* dup := extract_equal c j q in
      let '(a', q, len, job_for_disposal) :=
        match dup with
        | Some (b, q') => (b, q', wrap_u64 (len - 1), Some a)
        | None => (a, q, len, None)
        end in
      push_system_fg c a' q len job_for_disposal
  end.

(** The other queues. *)
Definition add_job_fifo (c : dt_control_t) (qid : nat) (a : Z) : c_result dt_control_t :=
  let* q := at_index (queues c) qid in
  let* len := at_index (queue_length c) qid in
  let* j := get_job c a in
  let prio := if (qid =? DT_JOB_QUEUE_USER_BG)%nat || (qid =? DT_JOB_QUEUE_USER_EXPORT)%nat
                 || (qid =? DT_JOB_QUEUE_SYSTEM_BG)%nat
              then 0 else DT_CONTROL_FG_PRIORITY in
  let c := put_job a (with_priority prio j) c in
  let c := set_queue qid (q ++ [a]) (wrap_u64 (len + 1)) c in
  dt_control_job_set_state c (Some a) DT_JOB_STATE_QUEUED.

Definition dt_control_add_job (c : dt_control_t) (queue_id : Z) (job : option Z)
    : c_result (Z * dt_control_t) :=
  match job with
  | Some a =>
      if Z.of_nat DT_JOB_QUEUE_MAX <=? wrap_u32 queue_id then
        let* c := dt_control_job_dispose c job in Done (1, c)
      else if negb (running c) then
        let* c := dt_control_job_execute c a in
        let* c := dt_control_job_dispose c job in Done (0, c)
      else
        let qid := Z.to_nat (wrap_u32 queue_id) in
        let* j := get_job c a in
        let c := put_job a (with_queue qid j) c in
        let* c := if (qid =? DT_JOB_QUEUE_SYSTEM_FG)%nat then add_job_system_fg c a
                  else add_job_fifo c qid a in
        Done (0, c)
  | None => Done (1, c)
  end.

(** The control structure when [dt_control_jobs_init] has started the threads. *)
Definition dt_control_jobs_init (num_threads : nat) : dt_control_t :=
  Control true false (replicate num_threads None) (replicate DT_JOB_QUEUE_MAX [])
          (replicate DT_JOB_QUEUE_MAX 0) (replicate 3 None) (replicate 3 false) ∅ [].

(** ** All threads together *)

(** Where a worker is: waiting, with the job it was given, with one that it found to be
    queued still, in the middle of its execution, and after it. *)
Inductive worker := Idle | Got (a : Z) | Checked (a : Z) | Executing (a : Z) | Ran (a : Z).

Definition worker_job (w : worker) : option Z :=
  match w with
  | Idle => None
  | Got a | Checked a | Executing a | Ran a => Some a
  end.

(** [clients] are the jobs that were created and not yet handed over. *)
Record system := Sys {
  ctl : dt_control_t;
  workers : list worker;
  res_workers : list worker;
  clients : list Z;
}.

Inductive action :=
  | ACreate (addr execute : Z) (msg : string)
  | ASetParams (a : Z) (ps : list ascii) (size : nat) (callback : Z)
  | ASetCallback (a cb : Z)
  | ACancel (a : Z)
  | AAddProgress (a : Z)
  | AAddJob (queue_id a : Z)
  | AAddJobRes (a res : Z)
  | AWorker (t : nat)          (* worker t goes on *)
  | AResWorker (r : nat).      (* reserved worker r goes on *)

(** What the rest of the program keeps to. *)
Definition allowed (s : system) (act : action) : Prop :=
  match act with
  | ACreate addr _ _ => addr <> 0 /\ jobs (ctl s) !! addr = None
  | ASetParams a _ _ _ | ASetCallback a _ | ACancel a | AAddProgress a => is_Some (jobs (ctl s) !! a)
  | AAddJob _ a | AAddJobRes a _ => a ∈ clients s
  | AWorker t => (t < length (workers s))%nat
  | AResWorker r => (r < 3)%nat
  end.

#[global] Instance allowed_dec s act : Decision (allowed s act).
Proof. destruct act; cbn; apply _. Defined.

Definition without (a : Z) (l : list Z) : list Z := filter (fun b => b <> a) l.

(** The steps of [dt_control_run_job] and of [dt_control_run_job_res] between their
    critical sections: the state of the job is read, and the job is begun if it was queued;
    it can be cancelled in between, which is overwritten then. *)
Definition run_check (c : dt_control_t) (a : Z) : c_result (worker * dt_control_t) :=
  let* st := dt_control_job_get_state c (Some a) in
  Done (if decide (st = DT_JOB_STATE_QUEUED) then Checked a else Ran a, c).

Definition run_begin (c : dt_control_t) (a : Z) : c_result (worker * dt_control_t) :=
  let* c := job_execute_begin c a in Done (Executing a, c).

Definition worker_step (c : dt_control_t) (t : nat) (w : worker) : c_result (worker * dt_control_t) :=
  match w with
  | Idle =>
      let* (r, c) := dt_control_schedule_job c t in
      Done (match r with Some a => Got a | None => Idle end, c)
  | Got a => run_check c a
  | Checked a => run_begin c a
  | Executing a => let* c := job_execute_end c a in Done (Ran a, c)
  | Ran a => let* c := run_job_finish c t a in Done (Idle, c)
  end.

Definition res_worker_step (c : dt_control_t) (r : nat) (w : worker)
    : c_result (worker * dt_control_t) :=
  match w with
  | Idle =>
      let* (o, c) := take_job_res c r in
      Done (match o with Some a => Got a | None => Idle end, c)
  | Got a => run_check c a
  | Checked a => run_begin c a
  | Executing a => let* c := job_execute_end c a in Done (Ran a, c)
  | Ran a => let* c := dt_control_job_dispose c (Some a) in Done (Idle, c)
  end.

Definition on_ctl (s : system) (c : dt_control_t) : system :=
  Sys c (workers s) (res_workers s) (clients s).

Definition perform (s : system) (act : action) : c_result system :=
  let c := ctl s in
  match act with
  | ACreate addr ex msg =>
      let '(o, c) := dt_control_job_create c addr ex msg in
      Done (Sys c (workers s) (res_workers s)
              (match o with Some a => a :: clients s | None => clients s end))
  | ASetParams a ps size callback =>
      let* c := dt_control_job_set_params_with_size c (Some a) ps size callback in
      Done (on_ctl s c)
  | ASetCallback a cb =>
      let* c := dt_control_job_set_state_callback c (Some a) cb in Done (on_ctl s c)
  | ACancel a => let* c := dt_control_job_cancel c (Some a) in Done (on_ctl s c)
  | AAddProgress a => let* c := dt_control_job_add_progress c (Some a) in Done (on_ctl s c)
  | AAddJob queue_id a =>
      let* (_, c) := dt_control_add_job c queue_id (Some a) in
      Done (Sys c (workers s) (res_workers s) (without a (clients s)))
  | AAddJobRes a res =>
      let* (_, c) := dt_control_add_job_res c (Some a) res in
      Done (Sys c (workers s) (res_workers s) (without a (clients s)))
  | AWorker t =>
      let* w := at_index (workers s) t in
      let* (w', c) := worker_step c t w in
      Done (Sys c (<[t := w']> (workers s)) (res_workers s) (clients s))
  | AResWorker r =>
      let* w := at_index (res_workers s) r in
      let* (w', c) := res_worker_step c r w in
      Done (Sys c (workers s) (<[r := w']> (res_workers s)) (clients s))
  end.

Definition jobs_machine : Machine system action :=
  {| m_allowed := allowed; m_perform := perform |}.

Definition initial (num_threads : nat) : system :=
  Sys (dt_control_jobs_init num_threads) (replicate num_threads Idle) (replicate 3 Idle) [].

End run.

Abbreviation step cb := (m_step (M:=jobs_machine cb)).
Abbreviation run cb := (m_run (M:=jobs_machine cb)).

(** ** Occurrences in lists of addresses *)

Fixpoint occ (x : Z) (l : list Z) : nat :=
  match l with
  | [] => 0
  | y :: l => (if decide (y = x) then 1 else 0) + occ x l
  end.

Definition o2l (o : option Z) : list Z :=
  match o with Some a => [a] | None => [] end.

Lemma occ_app x l k : occ x (l ++ k) = (occ x l + occ x k)%nat.
Proof. induction l as [|y l IH]; [done|]. cbn. rewrite IH. lia. Qed.

Lemma occ_elem x l : x ∈ l <-> (0 < occ x l)%nat.
Proof.
  induction l as [|y l IH]; cbn; [rewrite elem_of_nil; lia|].
  rewrite elem_of_cons, IH. case_decide; naive_solver lia.
Qed.

Lemma occ_concat_insert x qs i q q' :
  qs !! i = Some q ->
  (occ x (concat (<[i := q']> qs)) + occ x q = occ x (concat qs) + occ x q')%nat.
Proof.
  revert i. induction qs as [|q0 qs IH]; intros [|i] Hi; [done..| |]; cbn in Hi; simplify_eq.
  - change (<[0%nat := q']> (q :: qs)) with (q' :: qs). cbn [concat]. rewrite !occ_app. lia.
  - specialize (IH i Hi). change (<[S i := q']> (q0 :: qs)) with (q0 :: <[i := q']> qs).
    cbn [concat]. rewrite !occ_app. lia.
Qed.

Lemma occ_omap {A} (f : A -> option Z) x w l :
  occ x (omap f (w :: l)) = (occ x (o2l (f w)) + occ x (omap f l))%nat.
Proof. cbn. destruct (f w); cbn; lia. Qed.

Lemma occ_omap_insert {A} (f : A -> option Z) x l t w w' :
  l !! t = Some w ->
  (occ x (omap f (<[t := w']> l)) + occ x (o2l (f w))
   = occ x (omap f l) + occ x (o2l (f w')))%nat.
Proof.
  revert t. induction l as [|w0 l IH]; intros [|t] Ht; [done..| |].
  - cbn in Ht. simplify_eq. cbn [insert list_insert]. rewrite !occ_omap. lia.
  - cbn in Ht. specialize (IH t Ht).
    change (<[S t := w']> (w0 :: l)) with (w0 :: <[t := w']> l). rewrite !occ_omap. lia.
Qed.

Lemma occ_without x a l : occ x (without a l) = if decide (x = a) then 0%nat else occ x l.
Proof.
  unfold without. induction l as [|y l IH]; [by case_decide|].
  rewrite filter_cons. destruct (decide (y <> a)); cbn; rewrite IH;
    repeat case_decide; simplify_eq; try lia; tauto.
Qed.

Lemma occ_elem_concat x q qs i : qs !! i = Some q -> (occ x q <= occ x (concat qs))%nat.
Proof.
  revert i. induction qs as [|q0 qs IH]; intros [|i] Hi; cbn in Hi |- *; simplify_eq;
    rewrite occ_app; [lia|]. specialize (IH i Hi). lia.
Qed.

Lemma occ_two_queues x qs i k q q' :
  i <> k -> qs !! i = Some q -> qs !! k = Some q' ->
  (occ x q + occ x q' <= occ x (concat qs))%nat.
Proof.
  revert i k. induction qs as [|q0 qs IH]; intros [|i] [|k] Hik Hi Hk; try done;
    cbn in Hi, Hk |- *; simplify_eq; rewrite occ_app.
  - pose proof (occ_elem_concat x _ _ _ Hk). lia.
  - pose proof (occ_elem_concat x _ _ _ Hi). lia.
  - specialize (IH i k ltac:(congruence) Hi Hk). lia.
Qed.

(** ** The invariant *)

(** Every pointer the program still has: of clients, in the queues, in the slots
    of the reserved workers, with the workers. *)
Definition owned (s : system) : list Z :=
  clients s ++ concat (queues (ctl s)) ++ omap id (job_res (ctl s))
  ++ omap worker_job (workers s) ++ omap worker_job (res_workers s).

Definition alive (m : gmap Z _dt_job_t) (x : Z) : nat :=
  match m !! x with Some _ => 1 | None => 0 end.

(** What identifies a job. *)
Definition static (j : _dt_job_t) : Z * list ascii * nat * Z * nat * string :=
  (execute j, params j, params_size j, state_changed_cb j, queue j, description j).

(** A job that stands in queue [i]. *)
Definition queued_ok (m : gmap Z _dt_job_t) (i : nat) (a : Z) : Prop :=
  exists j, m !! a = Some j /\ queue j = i /\ 0 <= priority j < 2 ^ 8 /\
    state j <> DT_JOB_STATE_INITIALIZED.

(** No two different jobs of [q] are equal. *)
Definition distinct_jobs (m : gmap Z _dt_job_t) (q : list Z) : Prop :=
  forall a b ja jb, a ∈ q -> b ∈ q -> a <> b -> m !! a = Some ja -> m !! b = Some jb ->
    dt_control_job_equal ja jb = false.

Definition is_export (m : gmap Z _dt_job_t) (o : option Z) : nat :=
  match o with
  | Some a => match m !! a with
              | Some j => if decide (queue j = DT_JOB_QUEUE_USER_EXPORT) then 1 else 0
              | None => 0
              end
  | None => 0
  end.

Fixpoint export_slots (m : gmap Z _dt_job_t) (slots : list (option Z)) : nat :=
  match slots with
  | [] => 0
  | o :: slots => is_export m o + export_slots m slots
  end.

Definition nat_of_bool (b : bool) : nat := if b then 1 else 0.

Record inv (s : system) : Prop := {
  i_running : running (ctl s) = true;
  i_queues : length (queues (ctl s)) = DT_JOB_QUEUE_MAX;
  i_lengths : queue_length (ctl s) = map (fun q => wrap_u64 (Z.of_nat (length q))) (queues (ctl s));
  i_slots : job (ctl s) = map worker_job (workers s);
  i_res : length (job_res (ctl s)) = 3%nat /\ length (new_res (ctl s)) = 3%nat /\
          length (res_workers s) = 3%nat;
  i_own : forall x, occ x (owned s) = alive (jobs (ctl s)) x;
  i_queued : forall i q, queues (ctl s) !! i = Some q -> Forall (queued_ok (jobs (ctl s)) i) q;
  i_export : export_slots (jobs (ctl s)) (job (ctl s)) = nat_of_bool (export_scheduled (ctl s));
  i_bound : forall q, queues (ctl s) !! DT_JOB_QUEUE_SYSTEM_FG = Some q ->
            Z.of_nat (length q) <= DT_CONTROL_MAX_JOBS;
  i_distinct : forall q, queues (ctl s) !! DT_JOB_QUEUE_SYSTEM_FG = Some q ->
               distinct_jobs (jobs (ctl s)) q;
}.

Lemma equal_static j1 j2 j1' j2' :
  static j1' = static j1 -> static j2' = static j2 ->
  dt_control_job_equal j1' j2' = dt_control_job_equal j1 j2.
Proof.
  unfold static, dt_control_job_equal. by intros [= -> -> -> -> -> ->] [= -> -> -> -> -> ->].
Qed.

Lemma equal_sym j1 j2 : dt_control_job_equal j1 j2 = dt_control_job_equal j2 j1.
Proof.
  unfold dt_control_job_equal. rewrite (Z.eqb_sym (execute j1)), (Z.eqb_sym (state_changed_cb j1)),
    (Nat.eqb_sym (queue j1)), (String.eqb_sym (description j1)), (Nat.eqb_sym (params_size j1) (params_size j2)).
  destruct (Nat.eqb_spec (params_size j2) (params_size j1)) as [->|]; [|by rewrite !andb_false_r].
  destruct (negb _); [|done]. cbn. f_equal. apply bool_decide_ext. naive_solver.
Qed.

Lemma distinct_static m m' q :
  (forall a, a ∈ q -> static <$> m' !! a = static <$> m !! a) ->
  distinct_jobs m q -> distinct_jobs m' q.
Proof.
  intros Hs Hd a b ja jb Ha Hb Hab Hja Hjb.
  pose proof (Hs a Ha) as Ea. pose proof (Hs b Hb) as Eb. rewrite Hja in Ea. rewrite Hjb in Eb.
  destruct (m !! a) as [ja0|] eqn:Fa; [|done]. destruct (m !! b) as [jb0|] eqn:Fb; [|done].
  cbn in Ea, Eb. rewrite (equal_static ja0 jb0) by congruence. by apply (Hd a b).
Qed.

Lemma is_export_queue m m' o :
  (forall a, o = Some a -> queue <$> m' !! a = queue <$> m !! a) -> is_export m' o = is_export m o.
Proof.
  destruct o as [a|]; [|done]. intros H. specialize (H a eq_refl). unfold is_export.
  destruct (m' !! a), (m !! a); cbn in H; try done. by injection H as ->.
Qed.

Lemma static_queue (x y : option _dt_job_t) : static <$> x = static <$> y -> queue <$> x = queue <$> y.
Proof. destruct x, y; try done. unfold static. cbn. by intros [= _ _ _ _ -> _]. Qed.

Lemma export_slots_queue m m' slots :
  (forall a, Some a ∈ slots -> queue <$> m' !! a = queue <$> m !! a) ->
  export_slots m' slots = export_slots m slots.
Proof.
  induction slots as [|o slots IH]; intros H; [done|]. cbn. rewrite (is_export_queue m m').
  - rewrite IH; [done|]. intros a Ha. apply H. by right.
  - intros a ->. apply H. by left.
Qed.

Lemma export_slots_insert m slots t o o' :
  slots !! t = Some o ->
  (export_slots m (<[t := o']> slots) + is_export m o = export_slots m slots + is_export m o')%nat.
Proof.
  revert t. induction slots as [|o0 slots IH]; intros [|t] Ht; [done..| |].
  - cbn in Ht. simplify_eq. cbn. lia.
  - cbn in Ht. specialize (IH t Ht). change (<[S t := o']> (o0 :: slots)) with (o0 :: <[t := o']> slots).
    cbn [export_slots]. lia.
Qed.

Lemma slots_elem a ws : Some a ∈ map worker_job ws <-> a ∈ omap worker_job ws.
Proof.
  rewrite list_elem_of_omap, list_elem_of_In, in_map_iff. setoid_rewrite list_elem_of_In. naive_solver.
Qed.

(** ** The small changes the operations are made of *)

Section changes.
Context (c : dt_control_t) (ws rs : list worker) (cl : list Z) (Hinv : inv (Sys c ws rs cl)).

Lemma own_sum x :
  (occ x cl + occ x (concat (queues c)) + occ x (omap id (job_res c))
   + occ x (omap worker_job ws) + occ x (omap worker_job rs))%nat = alive (jobs c) x.
Proof using Hinv.
  pose proof (i_own _ Hinv x) as H. unfold owned in H. cbn in H. rewrite !occ_app in H. lia.
Qed.

Lemma slots_eq : job c = map worker_job ws.
Proof using Hinv. apply (i_slots _ Hinv). Qed.

Lemma lengths_eq : queue_length c = map (fun q => wrap_u64 (Z.of_nat (length q))) (queues c).
Proof using Hinv. apply (i_lengths _ Hinv). Qed.

Lemma queues_length : length (queues c) = DT_JOB_QUEUE_MAX.
Proof using Hinv. apply (i_queues _ Hinv). Qed.

Lemma alive_le x : (alive (jobs c) x <= 1)%nat.
Proof using. clear. unfold alive. destruct (jobs c !! x); lia. Qed.

Lemma alive_Some x : (0 < alive (jobs c) x)%nat -> is_Some (jobs c !! x).
Proof using. clear. unfold alive. destruct (jobs c !! x); [eauto|lia]. Qed.

Lemma client_alive a : a ∈ cl -> is_Some (jobs c !! a).
Proof using Hinv. intros H%occ_elem. apply alive_Some. pose proof (own_sum a). lia. Qed.

Lemma queued_alive i q a : queues c !! i = Some q -> a ∈ q -> is_Some (jobs c !! a).
Proof using Hinv.
  intros Hq Ha%occ_elem. apply alive_Some. pose proof (own_sum a).
  pose proof (occ_elem_concat a _ _ _ Hq). lia.
Qed.

Lemma worker_alive a : a ∈ omap worker_job ws -> is_Some (jobs c !! a).
Proof using Hinv. intros H%occ_elem. apply alive_Some. pose proof (own_sum a). lia. Qed.

Lemma res_alive a : a ∈ omap id (job_res c) \/ a ∈ omap worker_job rs -> is_Some (jobs c !! a).
Proof using Hinv.
  rewrite !occ_elem. intros H. apply alive_Some. pose proof (own_sum a). lia.
Qed.

Lemma client_not_queued i q a : a ∈ cl -> queues c !! i = Some q -> a ∉ q.
Proof using Hinv.
  intros Ha%occ_elem Hq Hin%occ_elem. pose proof (own_sum a). pose proof (alive_le a).
  pose proof (occ_elem_concat a _ _ _ Hq). lia.
Qed.

Lemma client_not_slot a : a ∈ cl -> Some a ∉ job c.
Proof using Hinv.
  rewrite slots_eq. intros Ha%occ_elem Hin%slots_elem%occ_elem.
  pose proof (own_sum a). pose proof (alive_le a). lia.
Qed.

(** Changes of the heap that keep every owned job as far as queues and slots
    depend on it. *)
Lemma inv_heap m' evs cl' :
  (forall x, (occ x cl' + alive (jobs c) x = occ x cl + alive m' x)%nat) ->
  (forall i q a, queues c !! i = Some q -> a ∈ q -> queued_ok (jobs c) i a -> queued_ok m' i a) ->
  (forall i q a, queues c !! i = Some q -> a ∈ q -> static <$> m' !! a = static <$> jobs c !! a) ->
  (forall a, Some a ∈ job c -> queue <$> m' !! a = queue <$> jobs c !! a) ->
  inv (Sys (on_jobs (fun _ => m') evs c) ws rs cl').
Proof using Hinv.
  intros Ho Hq Hs Hj. destruct Hinv. cbn in *. split; cbn; try done.
  - intros x. specialize (i_own0 x). unfold owned in *. cbn in *. specialize (Ho x).
    rewrite !occ_app in *. lia.
  - intros i q Hiq. specialize (i_queued0 i q Hiq). rewrite Forall_forall in i_queued0 |- *. eauto.
  - by rewrite (export_slots_queue (jobs c)).
  - intros q Hiq. apply (distinct_static (jobs c)); [|by apply i_distinct0]. eauto.
Qed.

(** A job changes its state, its priority or its result. *)
Lemma inv_touch a j j' evs :
  jobs c !! a = Some j -> static j' = static j ->
  (0 <= priority j < 2 ^ 8 -> 0 <= priority j' < 2 ^ 8) ->
  (state j <> DT_JOB_STATE_INITIALIZED -> state j' <> DT_JOB_STATE_INITIALIZED) ->
  inv (Sys (on_jobs <[a := j']> evs c) ws rs cl).
Proof using Hinv.
  intros Ha Hs Hp Hst. change (on_jobs <[a := j']> evs c) with (on_jobs (fun _ => <[a := j']> (jobs c)) evs c).
  apply inv_heap.
  - intros x. unfold alive. destruct (decide (x = a)) as [->|].
    + by rewrite lookup_insert_eq, Ha.
    + by rewrite lookup_insert_ne.
  - intros i q b _ _ (jb & Hb & Hjb). unfold queued_ok. destruct (decide (b = a)) as [->|].
    + rewrite lookup_insert_eq. exists j'. simplify_eq. unfold static in Hs. naive_solver.
    + rewrite lookup_insert_ne by done. eauto.
  - intros i q b _ _. destruct (decide (b = a)) as [->|].
    + rewrite lookup_insert_eq, Ha. cbn. congruence.
    + by rewrite lookup_insert_ne.
  - intros b _. apply static_queue. destruct (decide (b = a)) as [->|].
    + rewrite lookup_insert_eq, Ha. cbn. congruence.
    + by rewrite lookup_insert_ne.
Qed.

(** Anything happens to a job of a client. *)
Lemma inv_client a j' evs : a ∈ cl -> inv (Sys (on_jobs <[a := j']> evs c) ws rs cl).
Proof using Hinv.
  intros Ha. destruct (client_alive a Ha) as [j Hj].
  change (on_jobs <[a := j']> evs c) with (on_jobs (fun _ => <[a := j']> (jobs c)) evs c).
  apply inv_heap.
  - intros x. unfold alive. destruct (decide (x = a)) as [->|].
    + by rewrite lookup_insert_eq, Hj.
    + by rewrite lookup_insert_ne.
  - intros i q b Hq Hb. unfold queued_ok. rewrite lookup_insert_ne; [done|].
    intros ->. by apply (client_not_queued i q b Ha Hq).
  - intros i q b Hq Hb. rewrite lookup_insert_ne; [done|].
    intros ->. by apply (client_not_queued i q b Ha Hq).
  - intros b Hb. rewrite lookup_insert_ne; [done|]. intros ->. by apply (client_not_slot b Ha).
Qed.

Lemma inv_create a j evs :
  jobs c !! a = None -> inv (Sys (on_jobs <[a := j]> evs c) ws rs (a :: cl)).
Proof using Hinv.
  intros Ha. assert (forall b, is_Some (jobs c !! b) -> <[a := j]> (jobs c) !! b = jobs c !! b) as Hne.
  { intros b Hb. rewrite lookup_insert_ne; [done|]. intros ->. rewrite Ha in Hb. by destruct Hb. }
  change (on_jobs <[a := j]> evs c) with (on_jobs (fun _ => <[a := j]> (jobs c)) evs c).
  apply inv_heap.
  - intros x. unfold alive. cbn. destruct (decide (x = a)) as [->|].
    + rewrite lookup_insert_eq, Ha, decide_True by done. lia.
    + rewrite lookup_insert_ne, decide_False by done. lia.
  - intros i q b Hq Hb. unfold queued_ok. by rewrite (Hne b (queued_alive i q b Hq Hb)).
  - intros i q b Hq Hb. by rewrite (Hne b (queued_alive i q b Hq Hb)).
  - intros b Hb. rewrite Hne; [done|]. apply worker_alive. rewrite slots_eq in Hb.
    by apply slots_elem.
Qed.

Lemma inv_free a cl' evs :
  (forall x, occ x cl = occ x (a :: cl')) -> inv (Sys (on_jobs (delete a) evs c) ws rs cl').
Proof using Hinv.
  intros Hcl. assert (a ∈ cl) as Ha by (apply occ_elem; rewrite Hcl; cbn; rewrite decide_True by done; lia).
  destruct (client_alive a Ha) as [j Hj]. change (on_jobs (delete a) evs c) with (on_jobs (fun _ => delete a (jobs c)) evs c).
  apply inv_heap.
  - intros x. rewrite Hcl. unfold alive. cbn. destruct (decide (x = a)) as [->|].
    + rewrite lookup_delete_eq, Hj, decide_True by done. lia.
    + rewrite lookup_delete_ne, decide_False by done. lia.
  - intros i q b Hq Hb. unfold queued_ok. rewrite lookup_delete_ne; [done|].
    intros ->. by apply (client_not_queued i q b Ha Hq).
  - intros i q b Hq Hb. rewrite lookup_delete_ne; [done|].
    intros ->. by apply (client_not_queued i q b Ha Hq).
  - intros b Hb. rewrite lookup_delete_ne; [done|]. intros ->. by apply (client_not_slot b Ha).
Qed.

(** A queue and the clients exchange jobs. *)
Lemma inv_queue i q q' cl' :
  queues c !! i = Some q -> (forall x, (occ x q + occ x cl = occ x q' + occ x cl')%nat) ->
  Forall (queued_ok (jobs c) i) q' ->
  (i = DT_JOB_QUEUE_SYSTEM_FG ->
     Z.of_nat (length q') <= DT_CONTROL_MAX_JOBS /\ distinct_jobs (jobs c) q') ->
  inv (Sys (set_queue i q' (wrap_u64 (Z.of_nat (length q'))) c) ws rs cl').
Proof using Hinv.
  intros Hq Ho Hok Hfg. destruct Hinv. cbn in *. split; cbn; try done.
  - by rewrite length_insert.
  - by rewrite i_lengths0, list_fmap_insert.
  - intros x. specialize (i_own0 x). unfold owned in *. cbn in *. specialize (Ho x).
    pose proof (occ_concat_insert x _ _ _ q' Hq). rewrite !occ_app in *. lia.
  - intros k q1 Hk. destruct (decide (k = i)) as [->|].
    + rewrite list_lookup_insert_eq in Hk by by eapply lookup_lt_Some. by simplify_eq.
    + rewrite list_lookup_insert_ne in Hk by done. by apply i_queued0.
  - intros q1 Hk. destruct (decide (DT_JOB_QUEUE_SYSTEM_FG = i)) as [<-|].
    + rewrite list_lookup_insert_eq in Hk by by eapply lookup_lt_Some. simplify_eq. by apply Hfg.
    + rewrite list_lookup_insert_ne in Hk by done. by apply i_bound0.
  - intros q1 Hk. destruct (decide (DT_JOB_QUEUE_SYSTEM_FG = i)) as [<-|].
    + rewrite list_lookup_insert_eq in Hk by by eapply lookup_lt_Some. simplify_eq. by apply Hfg.
    + rewrite list_lookup_insert_ne in Hk by done. by apply i_distinct0.
Qed.

(** A worker takes a job from the clients or gives it back. *)
Lemma inv_slot t w w' export cl' :
  ws !! t = Some w ->
  (forall x, (occ x (o2l (worker_job w)) + occ x cl
              = occ x (o2l (worker_job w')) + occ x cl')%nat) ->
  (nat_of_bool export + is_export (jobs c) (worker_job w)
   = nat_of_bool (export_scheduled c) + is_export (jobs c) (worker_job w'))%nat ->
  inv (Sys (set_slot t (worker_job w') export c) (<[t := w']> ws) rs cl').
Proof using Hinv.
  intros Ht Ho He. destruct Hinv. cbn in *. split; cbn; try done.
  - by rewrite i_slots0, list_fmap_insert.
  - intros x. specialize (i_own0 x). unfold owned in *. cbn in *. specialize (Ho x).
    pose proof (occ_omap_insert worker_job x _ _ _ w' Ht). rewrite !occ_app in *. lia.
  - assert (job c !! t = Some (worker_job w)) as Hjt by (rewrite i_slots0; by rewrite list_lookup_fmap, Ht).
    pose proof (export_slots_insert (jobs c) _ _ _ (worker_job w') Hjt). lia.
Qed.

(** A worker goes on with its job. *)
Lemma inv_worker t w w' :
  ws !! t = Some w -> worker_job w' = worker_job w -> inv (Sys c (<[t := w']> ws) rs cl).
Proof using Hinv.
  intros Ht Hw. destruct Hinv. cbn in *. split; cbn; try done.
  - rewrite i_slots0, list_fmap_insert, Hw. symmetry. apply list_insert_id. by rewrite list_lookup_fmap, Ht.
  - intros x. specialize (i_own0 x). unfold owned in *. cbn in *.
    pose proof (occ_omap_insert worker_job x _ _ _ w' Ht) as Hx. rewrite Hw in Hx.
    rewrite !occ_app in *. lia.
Qed.

(** The reserved workers, their slots and the clients exchange jobs. *)
Lemma inv_reserved r o o' new w w' cl' :
  job_res c !! r = Some o -> rs !! r = Some w ->
  (forall x, (occ x (o2l o) + occ x (o2l (worker_job w)) + occ x cl
              = occ x (o2l o') + occ x (o2l (worker_job w')) + occ x cl')%nat) ->
  inv (Sys (set_res r o' new c) ws (<[r := w']> rs) cl').
Proof using Hinv.
  intros Hr Hw Ho. destruct Hinv. cbn in *. split; cbn; try done.
  - by rewrite !length_insert.
  - intros x. specialize (i_own0 x). unfold owned in *. cbn in *. specialize (Ho x).
    pose proof (occ_omap_insert worker_job x _ _ _ w' Hw).
    pose proof (occ_omap_insert id x _ _ _ o' Hr). unfold id in *. rewrite !occ_app in *. lia.
Qed.

Lemma inv_res_worker r w w' cl' :
  rs !! r = Some w ->
  (forall x, (occ x (o2l (worker_job w)) + occ x cl
              = occ x (o2l (worker_job w')) + occ x cl')%nat) ->
  inv (Sys c ws (<[r := w']> rs) cl').
Proof using Hinv.
  intros Hw Ho. destruct Hinv. cbn in *. split; cbn; try done.
  - by rewrite length_insert.
  - intros x. specialize (i_own0 x). unfold owned in *. cbn in *. specialize (Ho x).
    pose proof (occ_omap_insert worker_job x _ _ _ w' Hw). rewrite !occ_app in *. lia.
Qed.

Lemma inv_clients cl' : (forall x, occ x cl = occ x cl') -> inv (Sys c ws rs cl').
Proof using Hinv.
  intros Ho. destruct Hinv. cbn in *. split; cbn; try done.
  intros x. specialize (i_own0 x). unfold owned in *. cbn in *. specialize (Ho x).
  rewrite occ_app in *. lia.
Qed.

End changes.

(** ** What the operations on one job do to the heap *)

Lemma on_jobs_compose f g evs evs' c :
  on_jobs f evs (on_jobs g evs' c) = on_jobs (fun m => f (g m)) (evs ++ evs') c.
Proof. unfold on_jobs. cbn. by rewrite app_assoc. Qed.

Lemma on_jobs_ext f g evs c : f (jobs c) = g (jobs c) -> on_jobs f evs c = on_jobs g evs c.
Proof. unfold on_jobs. by intros ->. Qed.

Lemma set_state_eq c a j st :
  jobs c !! a = Some j ->
  exists pr evs, dt_control_job_set_state c (Some a) st =
    Done (on_jobs <[a := with_state st pr j]> evs c).
Proof. intros H. unfold dt_control_job_set_state, get_job. rewrite H. cbn. eauto. Qed.

Lemma dispose_eq c a j :
  jobs c !! a = Some j ->
  exists evs, dt_control_job_dispose c (Some a) = Done (on_jobs (delete a) evs c).
Proof.
  intros H. unfold dt_control_job_dispose, get_job. rewrite H. cbn [c_bind].
  match goal with |- context [dt_control_job_set_state ?c' _ _] =>
    destruct (set_state_eq c' a (with_state (state j) false j) DT_JOB_STATE_DISPOSED) as (pr & evs & ->) end;
    [apply lookup_insert_eq|].
  cbn [c_bind]. rewrite !on_jobs_compose. eexists. f_equal. apply on_jobs_ext.
  by rewrite insert_insert_eq, delete_insert_eq.
Qed.

Lemma discard_eq c a j :
  jobs c !! a = Some j -> exists evs, discard c (Some a) = Done (on_jobs (delete a) evs c).
Proof.
  intros H. unfold discard. destruct (set_state_eq c a j DT_JOB_STATE_DISCARDED H) as (pr & evs & ->).
  cbn [c_bind]. edestruct dispose_eq as (evs' & ->); [apply lookup_insert_eq|].
  rewrite on_jobs_compose. eexists. f_equal. apply on_jobs_ext. by rewrite delete_insert_eq.
Qed.

Lemma execute_begin_eq c a j :
  jobs c !! a = Some j ->
  exists pr evs, job_execute_begin c a =
    Done (on_jobs <[a := with_state DT_JOB_STATE_RUNNING pr j]> evs c).
Proof.
  intros H. unfold job_execute_begin.
  destruct (set_state_eq c a j DT_JOB_STATE_RUNNING H) as (pr & evs & ->). cbn [c_bind].
  rewrite on_jobs_compose. by do 2 eexists.
Qed.

Lemma execute_end_eq cb c a j :
  jobs c !! a = Some j ->
  exists pr evs, job_execute_end cb c a =
    Done (on_jobs <[a := with_state DT_JOB_STATE_FINISHED pr (with_result (cb j) j)]> evs c).
Proof.
  intros H. unfold job_execute_end, get_job. rewrite H. cbn [c_bind].
  edestruct set_state_eq as (pr & evs & ->); [apply lookup_insert_eq|].
  unfold put_job. rewrite on_jobs_compose. do 2 eexists. f_equal. apply on_jobs_ext.
  by rewrite insert_insert_eq.
Qed.

(** ** What adding a job does *)

Lemma at_index_Some {A} (l : list A) i x : l !! i = Some x -> at_index l i = Done x.
Proof. unfold at_index. by intros ->. Qed.

Lemma queue_at c ws rs cl i :
  inv (Sys c ws rs cl) -> (i < DT_JOB_QUEUE_MAX)%nat ->
  exists q, queues c !! i = Some q /\ at_index (queues c) i = Done q /\
    at_index (queue_length c) i = Done (wrap_u64 (Z.of_nat (length q))).
Proof.
  intros Hinv Hi. destruct (lookup_lt_is_Some_2 (queues c) i) as [q Hq].
  { by rewrite (queues_length _ _ _ _ Hinv). }
  exists q. split_and!; [done|by apply at_index_Some|]. apply at_index_Some.
  by rewrite (lengths_eq _ _ _ _ Hinv), list_lookup_fmap, Hq.
Qed.

Lemma find_scheduled_total c j slots :
  (forall a, Some a ∈ slots -> is_Some (jobs c !! a)) ->
  exists r, find_scheduled c j slots = Done r /\
    match r with
    | Some b => Some b ∈ slots /\ exists jb, jobs c !! b = Some jb /\ dt_control_job_equal j jb = true
    | None => forall b jb, Some b ∈ slots -> jobs c !! b = Some jb -> dt_control_job_equal j jb = false
    end.
Proof.
  induction slots as [|[b|] slots IH]; intros H; cbn [find_scheduled].
  - eexists. split; [done|]. by intros b jb ?%not_elem_of_nil.
  - destruct (H b) as [jb Hb]; [by left|]. unfold get_job. rewrite Hb. cbn [c_bind].
    destruct (dt_control_job_equal j jb) eqn:E.
    + eexists. split; [done|]. split; [by left|eauto].
    + destruct IH as (r & -> & Hr); [intros; apply H; by right|]. eexists. split; [done|].
      destruct r; [destruct Hr; split; [by right|done]|].
      intros b' jb' [[= ->]|?]%elem_of_cons ?; [congruence|eauto].
  - destruct IH as (r & -> & Hr); [intros; apply H; by right|]. eexists. split; [done|].
    destruct r; [destruct Hr; split; [by right|done]|].
    intros b' jb' [?|?]%elem_of_cons ?; [done|eauto].
Qed.

Lemma extract_equal_total c j q :
  (forall a, a ∈ q -> is_Some (jobs c !! a)) ->
  exists r, extract_equal c j q = Done r /\
    match r with
    | Some (b, q') => exists q1 q2, q = q1 ++ b :: q2 /\ q' = q1 ++ q2 /\
        exists jb, jobs c !! b = Some jb /\ dt_control_job_equal j jb = true
    | None => forall b jb, b ∈ q -> jobs c !! b = Some jb -> dt_control_job_equal j jb = false
    end.
Proof.
  induction q as [|b q IH]; intros H; cbn [extract_equal].
  { eexists. split; [done|]. by intros b jb ?%not_elem_of_nil. }
  destruct (H b) as [jb Hb]; [by left|]. unfold get_job. rewrite Hb. cbn [c_bind].
  destruct (dt_control_job_equal j jb) eqn:E.
  - eexists. split; [done|]. exists [], q. split_and!; [done..|eauto].
  - destruct IH as (r & -> & Hr); [intros; apply H; by right|]. eexists. split; [done|].
    destruct r as [[b' q']|].
    + destruct Hr as (q1 & q2 & -> & -> & ?). by exists (b :: q1), q2.
    + intros b' jb' [->|?]%elem_of_cons ?; [congruence|eauto].
Qed.

Lemma add_fifo_inv c ws rs cl cl' qid a j :
  inv (Sys c ws rs cl) -> (forall x, occ x cl = occ x (a :: cl')) ->
  (qid < DT_JOB_QUEUE_MAX)%nat -> qid <> DT_JOB_QUEUE_SYSTEM_FG ->
  jobs c !! a = Some j -> queue j = qid ->
  exists c' q, add_job_fifo c qid a = Done c' /\ inv (Sys c' ws rs cl') /\
    queues c !! qid = Some q /\ queues c' = <[qid := q ++ [a]]> (queues c).
Proof.
  intros Hinv Hcl Hq Hfg Hj Hqid.
  destruct (queue_at _ _ _ _ qid Hinv Hq) as (q & Hat & Hiq & Hil).
  assert (a ∈ cl) as Ha by (apply occ_elem; rewrite Hcl; cbn; rewrite decide_True by done; lia).
  unfold add_job_fifo, get_job. rewrite Hiq, Hil, Hj. cbn [c_bind].
  set (prio := if _ || _ then 0 else _).
  assert (0 <= prio < 2 ^ 8) as Hprio by (unfold prio, DT_CONTROL_FG_PRIORITY; destruct (_ || _); lia). clearbody prio.
  edestruct (set_state_eq (set_queue qid (q ++ [a]) (wrap_u64 (wrap_u64 (Z.of_nat (length q)) + 1))
    (put_job a (with_priority prio j) c)) a) as (pr & evs & Hs); [apply lookup_insert_eq|].
  rewrite Hs. eexists _, q. split; [done|]. split; [|done].
  set (j' := with_state _ _ _). unfold put_job.
  change (inv (Sys (set_queue qid (q ++ [a]) (wrap_u64 (wrap_u64 (Z.of_nat (length q)) + 1))
    (on_jobs <[a := j']> evs (on_jobs <[a := with_priority prio j]> [] c))) ws rs cl')).
  rewrite on_jobs_compose.
  assert (wrap_u64 (wrap_u64 (Z.of_nat (length q)) + 1) = wrap_u64 (Z.of_nat (length (q ++ [a])))) as ->.
  { unfold wrap_u64. rewrite Zplus_mod_idemp_l, length_app. cbn. f_equal. lia. }
  rewrite (on_jobs_ext _ <[a := j']>) by by rewrite insert_insert_eq.
  apply (inv_queue _ _ _ cl (inv_client _ _ _ _ Hinv a j' _ Ha) qid q); [done| | |done].
  - intros x. rewrite occ_app, Hcl. cbn. lia.
  - apply Forall_app. split.
    + apply (inv_client _ _ _ _ Hinv a j' (evs ++ []) Ha). done.
    + apply Forall_singleton. exists j'. split; [apply lookup_insert_eq|]. done.
Qed.

Lemma wrap_u64_succ n : wrap_u64 (wrap_u64 (Z.of_nat n) + 1) = wrap_u64 (Z.of_nat (S n)).
Proof. unfold wrap_u64. rewrite Zplus_mod_idemp_l. f_equal. lia. Qed.

Lemma wrap_u64_small n : Z.of_nat n <= 31 -> wrap_u64 (Z.of_nat n) = Z.of_nat n.
Proof. intros H. apply wrap_u64_id. lia. Qed.

(** A job bubbles up: the queue [q1 ++ b :: q2] becomes [b :: q1 ++ q2]. *)
Lemma inv_bubble c ws rs cl b q1 q2 j st pr evs :
  inv (Sys c ws rs cl) -> queues c !! DT_JOB_QUEUE_SYSTEM_FG = Some (q1 ++ b :: q2) ->
  jobs c !! b = Some j -> st <> DT_JOB_STATE_INITIALIZED ->
  inv (Sys (set_queue DT_JOB_QUEUE_SYSTEM_FG (b :: q1 ++ q2)
              (wrap_u64 (Z.of_nat (length (b :: q1 ++ q2))))
              (on_jobs <[b := with_state st pr j]> evs c)) ws rs cl).
Proof.
  intros Hinv Hq Hj Hst.
  assert (inv (Sys (on_jobs <[b := with_state st pr j]> evs c) ws rs cl)) as Hinv'.
  { by apply (inv_touch _ _ _ _ Hinv b j). }
  apply (inv_queue _ _ _ _ Hinv' _ (q1 ++ b :: q2)); [done| | |].
  - intros x. cbn. rewrite !occ_app. cbn. lia.
  - pose proof (i_queued _ Hinv' _ _ Hq) as Hf. apply Forall_app in Hf as [Hf1 Hf2].
    apply Forall_cons in Hf2 as [Hb Hf2]. apply Forall_cons. split; [done|]. by apply Forall_app.
  - intros _. split.
    + pose proof (i_bound _ Hinv' _ Hq) as Hb. cbn in Hb |- *. rewrite length_app in *. cbn in Hb. lia.
    + intros x y jx jy Hx Hy. apply (i_distinct _ Hinv' _ Hq); set_solver.
Qed.

(** A new job is pushed on the stack, and the jobs beyond the limit leave it for
    the clients. *)
Lemma inv_push c ws rs cl cl' a q j evs n :
  inv (Sys c ws rs cl) -> (forall x, occ x cl = occ x (a :: cl')) ->
  queues c !! DT_JOB_QUEUE_SYSTEM_FG = Some q ->
  queue j = DT_JOB_QUEUE_SYSTEM_FG -> 0 <= priority j < 2 ^ 8 ->
  state j <> DT_JOB_STATE_INITIALIZED ->
  (forall b jb, b ∈ q -> jobs c !! b = Some jb -> dt_control_job_equal j jb = false) ->
  (n < 30)%nat ->
  let q' := a :: take n q in
  inv (Sys (set_queue DT_JOB_QUEUE_SYSTEM_FG q' (wrap_u64 (Z.of_nat (length q')))
              (on_jobs <[a := j]> evs c)) ws rs (drop n q ++ cl')).
Proof.
  intros Hinv Hcl Hq Hqj Hp Hst Hne Hn q'.
  assert (a ∈ cl) as Ha by (apply occ_elem; rewrite Hcl; cbn; rewrite decide_True by done; lia).
  pose proof (inv_client _ _ _ _ Hinv a j evs Ha) as Hinv'.
  pose proof (client_not_queued _ _ _ _ Hinv _ _ _ Ha Hq) as Haq.
  assert (forall x, x ∈ take n q -> x ∈ q) as Htake.
  { intros x Hx. rewrite <- (take_drop n q). apply elem_of_app. by left. }
  apply (inv_queue _ _ _ _ Hinv' _ q); [done| | |].
  - intros x. rewrite Hcl. rewrite <- (take_drop n q) at 1. unfold q'. rewrite !occ_app.
    cbn [occ]. lia.
  - apply Forall_cons. split.
    + exists j. split; [apply lookup_insert_eq|]. done.
    + apply Forall_take. by apply (i_queued _ Hinv').
  - intros _. split.
    + unfold q', DT_CONTROL_MAX_JOBS. cbn. rewrite length_take. lia.
    + intros x y jx jy Hx Hy Hxy Hjx Hjy. cbn in Hjx, Hjy. unfold q' in Hx, Hy.
      apply elem_of_cons in Hx as [->|Hx], Hy as [->|Hy]; [done|..].
      * rewrite lookup_insert_eq in Hjx. rewrite lookup_insert_ne in Hjy by done. simplify_eq. eauto.
      * rewrite lookup_insert_eq in Hjy. rewrite lookup_insert_ne in Hjx by done. simplify_eq.
        rewrite equal_sym. eauto.
      * apply (i_distinct _ Hinv' q Hq x y); auto.
Qed.

(** What adding job [j] at [a] does to the system foreground queue. *)
Definition fg_outcome (c : dt_control_t) (a : Z) (j : _dt_job_t) (q q' : list Z) : Prop :=
  (exists b jb, Some b ∈ job c /\ jobs c !! b = Some jb /\ dt_control_job_equal j jb = true /\ q' = q) \/
  (exists q1 b q2 jb, q = q1 ++ b :: q2 /\ jobs c !! b = Some jb /\
     dt_control_job_equal j jb = true /\ q' = b :: q1 ++ q2) \/
  ((forall b jb, b ∈ q \/ Some b ∈ job c -> jobs c !! b = Some jb -> dt_control_job_equal j jb = false) /\
   q' = take 30 (a :: q)).

Lemma last_take_drop (q : list Z) n :
  length q = S n -> exists b, last q = Some b /\ drop n q = [b] /\ removelast q = take n q.
Proof.
  intros Hl. destruct q as [|x q _] using rev_ind; [done|]. rewrite length_app in Hl. cbn in Hl.
  exists x. rewrite last_snoc, removelast_last. replace n with (length q) by lia.
  by rewrite drop_app_length, take_app_length.
Qed.

Section push.
Context (c : dt_control_t) (ws rs : list worker) (cl cl' : list Z) (a : Z) (j : _dt_job_t).
Context (Hinv : inv (Sys c ws rs cl)) (Hcl : forall x, occ x cl = occ x (a :: cl')).
Context (Hj : jobs c !! a = Some j).

Lemma fg_client : a ∈ cl.
Proof using Hcl. apply occ_elem. rewrite Hcl. cbn. rewrite decide_True by done. lia. Qed.

Lemma push_bubble b q1 q2 jb :
  queues c !! DT_JOB_QUEUE_SYSTEM_FG = Some (q1 ++ b :: q2) -> jobs c !! b = Some jb ->
  exists c', push_system_fg c b (q1 ++ q2)
      (wrap_u64 (wrap_u64 (Z.of_nat (length (q1 ++ b :: q2))) - 1)) (Some a) = Done c' /\
    inv (Sys c' ws rs cl') /\
    queues c' = <[DT_JOB_QUEUE_SYSTEM_FG := b :: q1 ++ q2]> (queues c).
Proof using Hinv Hcl Hj.
  intros Hq Hjb. pose proof (i_bound _ Hinv _ Hq) as Hbound. unfold DT_CONTROL_MAX_JOBS in Hbound.
  assert (length (q1 ++ b :: q2) = length (b :: q1 ++ q2)) as Hl by
    (cbn; rewrite !length_app; cbn; lia).
  assert (b <> a) as Hba.
  { intros ->. pose proof (client_not_queued _ _ _ _ Hinv _ _ _ fg_client Hq). set_solver. }
  rewrite Hl in Hbound |- *. cbn [length] in Hbound |- *. unfold push_system_fg.
  rewrite (wrap_u64_small (S _)) by lia. rewrite (wrap_u64_id (_ - 1)) by lia.
  rewrite (wrap_u64_id (_ + 1)) by lia. unfold limit_queue, DT_CONTROL_MAX_JOBS.
  destruct (Z.ltb_spec 30 (Z.of_nat (S (length (q1 ++ q2))) - 1 + 1)) as [Hbad|_]; [lia|].
  cbn [c_bind]. set (c1 := set_queue _ _ _ c).
  destruct (set_state_eq c1 b jb DT_JOB_STATE_QUEUED Hjb) as (pr & evs & ->). cbn [c_bind].
  set (c2 := on_jobs _ _ c1).
  destruct (discard_eq c2 a j) as (evs' & ->); [cbn; by rewrite lookup_insert_ne|].
  eexists. split; [done|]. split; [|done]. unfold c2. apply (inv_free _ _ _ cl); [|done].
  pose proof (inv_bubble c ws rs cl b q1 q2 jb DT_JOB_STATE_QUEUED pr evs Hinv Hq Hjb) as Hb.
  cbn [length] in Hb. rewrite wrap_u64_small in Hb by lia. unfold c1.
  replace (Z.of_nat (S (length (q1 ++ q2))) - 1 + 1) with (Z.of_nat (S (length (q1 ++ q2)))) by lia.
  by apply Hb.
Qed.

Context (q : list Z) (Hq : queues c !! DT_JOB_QUEUE_SYSTEM_FG = Some q).
Context (Hqj : queue j = DT_JOB_QUEUE_SYSTEM_FG) (Hp : 0 <= priority j < 2 ^ 8).
Context (Hne : forall b jb, b ∈ q -> jobs c !! b = Some jb -> dt_control_job_equal j jb = false).

Lemma push_full :
  length q = 30%nat ->
  exists c', push_system_fg c a q (wrap_u64 (Z.of_nat (length q))) None = Done c' /\
    inv (Sys c' ws rs cl') /\ queues c' = <[DT_JOB_QUEUE_SYSTEM_FG := a :: take 29 q]> (queues c).
Proof using All.
  intros Hl. unfold push_system_fg. rewrite wrap_u64_succ, wrap_u64_small by lia.
  unfold limit_queue, DT_CONTROL_MAX_JOBS. rewrite Hl.
  destruct (last_take_drop (a :: q) 30) as (b & -> & Hdrop & ->); [cbn; lia|].
  cbn [drop take] in Hdrop |- *.
  assert (b ∈ q) as Hb by (rewrite <- (take_drop 29 q), Hdrop; set_solver).
  assert (b <> a) as Hba.
  { intros ->. by apply (client_not_queued _ _ _ _ Hinv _ _ _ fg_client Hq). }
  destruct (queued_alive _ _ _ _ Hinv _ _ _ Hq Hb) as [jb Hjb].
  destruct (discard_eq c b jb Hjb) as (evs & Hd).
  change (30 <? Z.of_nat 31) with true. cbv iota. rewrite Hd. cbn [c_bind]. set (c1 := set_queue _ _ _ _).
  destruct (set_state_eq c1 a j DT_JOB_STATE_QUEUED) as (pr & evs' & ->);
    [cbn; by rewrite lookup_delete_ne|].
  eexists. split; [done|]. split; [|done]. set (j2 := with_state _ _ _).
  change (inv (Sys (set_queue DT_JOB_QUEUE_SYSTEM_FG (a :: take 29 q) (wrap_u64 30)
    (on_jobs <[a := j2]> evs' (on_jobs (delete b) evs c))) ws rs cl')).
  rewrite on_jobs_compose, (on_jobs_ext _ (fun m => delete b (<[a := j2]> m)))
    by (by rewrite delete_insert_ne).
  pose proof (inv_push c ws rs cl cl' a q j2 [] 29 Hinv Hcl Hq) as Hpush. cbv zeta in Hpush.
  rewrite Hdrop, length_cons, length_take, Hl in Hpush.
  apply (inv_free _ _ _ _ (Hpush Hqj Hp ltac:(done) Hne ltac:(lia)) b cl' (evs' ++ evs)). done.
Qed.

Lemma push_room :
  (length q < 30)%nat ->
  exists c', push_system_fg c a q (wrap_u64 (Z.of_nat (length q))) None = Done c' /\
    inv (Sys c' ws rs cl') /\ queues c' = <[DT_JOB_QUEUE_SYSTEM_FG := a :: q]> (queues c).
Proof using All.
  intros Hl. unfold push_system_fg. rewrite wrap_u64_succ, wrap_u64_small by lia.
  unfold limit_queue, DT_CONTROL_MAX_JOBS.
  destruct (Z.ltb_spec 30 (Z.of_nat (S (length q)))) as [Hbad|_]; [lia|].
  cbn [c_bind]. set (c1 := set_queue _ _ _ _).
  destruct (set_state_eq c1 a j DT_JOB_STATE_QUEUED Hj) as (pr & evs & ->).
  eexists. split; [done|]. split; [|done]. set (j2 := with_state _ _ _).
  pose proof (inv_push c ws rs cl cl' a q j2 evs 29 Hinv Hcl Hq Hqj Hp ltac:(done) Hne ltac:(lia)) as Hpush.
  cbv zeta in Hpush. rewrite take_ge, drop_ge in Hpush by lia. cbn [app length] in Hpush.
  by rewrite wrap_u64_small in Hpush by lia.
Qed.

Lemma push_new :
  exists c', push_system_fg c a q (wrap_u64 (Z.of_nat (length q))) None = Done c' /\
    inv (Sys c' ws rs cl') /\ queues c' = <[DT_JOB_QUEUE_SYSTEM_FG := take 30 (a :: q)]> (queues c).
Proof using All.
  pose proof (i_bound _ Hinv _ Hq) as Hb. unfold DT_CONTROL_MAX_JOBS in Hb.
  destruct (decide (length q = 30%nat)) as [Hl|Hl]; [by apply push_full|].
  cbn [take]. rewrite (take_ge q) by lia. apply push_room. lia.
Qed.

End push.

Lemma add_fg_inv c ws rs cl cl' a j :
  inv (Sys c ws rs cl) -> (forall x, occ x cl = occ x (a :: cl')) ->
  jobs c !! a = Some j -> queue j = DT_JOB_QUEUE_SYSTEM_FG ->
  exists c' q q', add_job_system_fg c a = Done c' /\ inv (Sys c' ws rs cl') /\
    queues c !! DT_JOB_QUEUE_SYSTEM_FG = Some q /\
    queues c' = <[DT_JOB_QUEUE_SYSTEM_FG := q']> (queues c) /\ fg_outcome c a j q q'.
Proof.
  intros Hinv Hcl Hj Hqj. pose proof (fg_client _ _ _ Hcl) as Ha.
  destruct (queue_at _ _ _ _ DT_JOB_QUEUE_SYSTEM_FG Hinv) as (q & Hq & Hiq & Hil); 
    [unfold DT_JOB_QUEUE_SYSTEM_FG, DT_JOB_QUEUE_MAX; lia|].
  unfold add_job_system_fg, get_job. rewrite Hiq, Hil, Hj. cbn [c_bind].
  set (j1 := with_priority DT_CONTROL_FG_PRIORITY j). set (c1 := put_job a j1 c).
  pose proof (inv_client _ _ _ _ Hinv a j1 [] Ha) as Hinv1. change (inv (Sys c1 ws rs cl)) in Hinv1.
  assert (forall b, b <> a -> jobs c1 !! b = jobs c !! b) as Hc1 by (intros; by apply lookup_insert_ne).
  assert (jobs c1 !! a = Some j1) as Hj1 by apply lookup_insert_eq.
  assert (forall jb, dt_control_job_equal j1 jb = dt_control_job_equal j jb) as Heq
    by (intros; by apply equal_static).
  pose proof (client_not_queued _ _ _ _ Hinv _ _ _ Ha Hq) as Haq.
  pose proof (client_not_slot _ _ _ _ Hinv _ Ha) as Hasl.
  destruct (find_scheduled_total c1 j1 (job c1)) as (r & -> & Hr).
  { intros b Hb. apply (worker_alive _ _ _ _ Hinv1). rewrite (slots_eq _ _ _ _ Hinv1) in Hb.
    by apply slots_elem. }
  cbn [c_bind]. destruct r as [b|].
  { destruct Hr as (Hb & jb & Hjb & He). destruct (discard_eq c1 a j1 Hj1) as (evs & ->).
    eexists _, q, q. split; [done|]. split; [by apply (inv_free _ _ _ _ Hinv1)|].
    split; [done|]. split; [cbn; by rewrite list_insert_id|]. left. exists b, jb.
    rewrite Hc1 in Hjb by (by intros ->). by rewrite <- Heq. }
  destruct (extract_equal_total c1 j1 q) as (dup & -> & Hdup).
  { intros b Hb. by apply (queued_alive _ _ _ _ Hinv1 _ _ _ Hq). }
  cbn [c_bind]. destruct dup as [[b q']|].
  - destruct Hdup as (q1 & q2 & -> & -> & jb & Hjb & He).
    destruct (push_bubble c1 ws rs cl cl' a j1 Hinv1 Hcl Hj1 b q1 q2 jb Hq Hjb) as (c' & -> & Hi & Hqs).
    exists c', (q1 ++ b :: q2), (b :: q1 ++ q2). split_and!; [done..|]. right. left. exists q1, b, q2, jb.
    rewrite Hc1 in Hjb by set_solver. by rewrite <- Heq.
  - destruct (push_new c1 ws rs cl cl' a j1 Hinv1 Hcl Hj1 q Hq Hqj) as (c' & -> & Hi & Hqs);
      [cbn; unfold DT_CONTROL_FG_PRIORITY; lia|done|].
    exists c', q, (take 30 (a :: q)). split_and!; [done..|]. right. right. split; [|done].
    intros b jb Hb Hjb. rewrite <- Heq. assert (b <> a) by (intros ->; by destruct Hb).
    destruct Hb as [Hb|Hb]; [apply (Hdup b)|apply (Hr b)]; by rewrite ?Hc1.
Qed.

Lemma execute_inv cb c ws rs cl a j :
  inv (Sys c ws rs cl) -> jobs c !! a = Some j ->
  exists c' j', dt_control_job_execute cb c a = Done c' /\ inv (Sys c' ws rs cl) /\ jobs c' !! a = Some j'.
Proof.
  intros Hinv Hj. unfold dt_control_job_execute.
  destruct (execute_begin_eq c a j Hj) as (pr & evs & ->). cbn [c_bind].
  edestruct (execute_end_eq cb (on_jobs <[a := with_state DT_JOB_STATE_RUNNING pr j]> evs c) a)
    as (pr' & evs' & ->); [apply lookup_insert_eq|].
  eexists _, _. split; [done|]. split; [|apply lookup_insert_eq].
  eapply inv_touch; [by apply (inv_touch _ _ _ _ Hinv a j)|apply lookup_insert_eq|done..].
Qed.

Lemma occ_client a cl x :
  occ a cl = 1%nat -> occ x cl = occ x (a :: without a cl).
Proof. intros H. cbn. rewrite occ_without. repeat case_decide; subst; try done; lia. Qed.

Lemma client_once c ws rs cl a : inv (Sys c ws rs cl) -> a ∈ cl -> occ a cl = 1%nat.
Proof.
  intros Hinv Ha%occ_elem. pose proof (own_sum _ _ _ _ Hinv a). pose proof (alive_le c a). lia.
Qed.

Lemma add_job_inv cb c ws rs cl qid a :
  inv (Sys c ws rs cl) -> a ∈ cl ->
  exists r c', dt_control_add_job cb c qid (Some a) = Done (r, c') /\ inv (Sys c' ws rs (without a cl)).
Proof.
  intros Hinv Ha. destruct (client_alive _ _ _ _ Hinv a Ha) as [j Hj].
  pose proof (fun x => occ_client a cl x (client_once _ _ _ _ _ Hinv Ha)) as Hcl.
  unfold dt_control_add_job. destruct (Z.leb_spec (Z.of_nat DT_JOB_QUEUE_MAX) (wrap_u32 qid)) as [_|Hlt].
  { destruct (dispose_eq c a j Hj) as (evs & ->). do 2 eexists. split; [done|]. by apply (inv_free _ _ _ _ Hinv). }
  rewrite (i_running _ Hinv : running c = true). cbn [negb]. unfold get_job. rewrite Hj. cbn [c_bind].
  set (i := Z.to_nat (wrap_u32 qid)).
  assert (i < DT_JOB_QUEUE_MAX)%nat as Hi.
  { unfold i, DT_JOB_QUEUE_MAX in *. pose proof (Z.mod_pos_bound qid (2 ^ 32)). unfold wrap_u32 in *. lia. }
  pose proof (inv_client _ _ _ _ Hinv a (with_queue i j) [] Ha) as Hinv1.
  destruct (Nat.eqb_spec i DT_JOB_QUEUE_SYSTEM_FG) as [Hfg|Hfg].
  - edestruct (add_fg_inv _ _ _ _ _ a (with_queue i j) Hinv1 Hcl) as (c' & q & q' & Heq & Hi' & _);
      [apply lookup_insert_eq|done|]. unfold put_job. rewrite Heq. eauto.
  - edestruct (add_fifo_inv _ _ _ _ _ i a (with_queue i j) Hinv1 Hcl Hi Hfg) as (c' & q & Heq & Hi' & _);
      [apply lookup_insert_eq|done|]. unfold put_job. rewrite Heq. eauto.
Qed.

Lemma add_job_res_inv c ws rs cl a res :
  inv (Sys c ws rs cl) -> a ∈ cl ->
  exists r c', dt_control_add_job_res c (Some a) res = Done (r, c') /\
    inv (Sys c' ws rs (without a cl)).
Proof.
  intros Hinv Ha. destruct (client_alive _ _ _ _ Hinv a Ha) as [j Hj].
  pose proof (fun x => occ_client a cl x (client_once _ _ _ _ _ Hinv Ha)) as Hcl.
  unfold dt_control_add_job_res.
  destruct (Z.leb_spec DT_CTL_WORKER_RESERVED (wrap_u32 res)) as [_|Hlt].
  { destruct (dispose_eq c a j Hj) as (evs & ->). do 2 eexists. split; [done|]. by apply (inv_free _ _ _ _ Hinv). }
  pose proof (Z.mod_pos_bound res (2 ^ 32)) as Hres. unfold DT_CTL_WORKER_RESERVED, wrap_u32 in Hlt |- *.
  set (r := Z.to_nat (res mod 2 ^ 32)). assert (r < 3)%nat as Hr by (unfold r; lia).
  destruct (i_res _ Hinv) as (Hl1 & _ & Hl3). cbn in Hl1, Hl3.
  destruct (lookup_lt_is_Some_2 (job_res c) r) as [o Ho]; [by rewrite Hl1|].
  destruct (lookup_lt_is_Some_2 rs r) as [w Hw]; [by rewrite Hl3|].
  rewrite (at_index_Some _ _ _ Ho). cbn [c_bind].
  assert (inv (Sys (set_res r (Some a) true c) ws rs (o2l o ++ without a cl))) as Hinv1.
  { rewrite <- (list_insert_id rs r w Hw). apply (inv_reserved _ _ _ _ Hinv r o (Some a) true w w); [done..|].
    intros x. rewrite occ_app, Hcl. cbn. lia. }
  destruct o as [b|].
  - assert (b <> a) as Hba.
    { intros ->. pose proof (own_sum _ _ _ _ Hinv1 a) as Hs. pose proof (alive_le c a).
      pose proof (client_once _ _ _ _ _ Hinv1 (list_elem_of_here _ _)) as H1.
      pose proof (proj1 (occ_elem a (omap id (<[r := Some a]> (job_res c))))) as H2.
      cbn in Hs. enough (0 < occ a (omap id (<[r := Some a]> (job_res c))))%nat by (cbn in *; lia).
      apply H2, list_elem_of_omap. exists (Some a). split; [|done].
      apply list_elem_of_lookup_2 with r, list_lookup_insert_eq. by rewrite Hl1. }
    assert (b ∈ o2l (Some b) ++ without a cl) as Hbin by by left.
    destruct (client_alive _ _ _ _ Hinv1 b Hbin) as [jb Hjb].
    destruct (discard_eq c b jb Hjb) as (evs & ->). cbn [c_bind].
    destruct (set_state_eq (on_jobs (delete b) evs c) a j DT_JOB_STATE_QUEUED) as (pr & evs' & ->);
      [cbn; by rewrite lookup_delete_ne|].
    do 2 eexists. split; [done|].
    pose proof (inv_free _ _ _ _ Hinv1 b (without a cl) evs ltac:(done)) as Hinv2.
    apply (inv_touch _ _ _ _ Hinv2 a j (with_state DT_JOB_STATE_QUEUED pr j) evs');
      [cbn; by rewrite lookup_delete_ne|done..].
  - change (discard c None) with (Done c). cbn [c_bind].
    destruct (set_state_eq c a j DT_JOB_STATE_QUEUED Hj) as (pr & evs & ->).
    do 2 eexists. split; [done|].
    by apply (inv_touch _ _ _ _ Hinv1 a j (with_state DT_JOB_STATE_QUEUED pr j) evs).
Qed.

(** ** What the scheduler does *)

(** Job [j] at [a] stands at the head of queue [k] and may be scheduled; [qs] are
    the queues from number [i] on. *)
Definition candidate_in (c : dt_control_t) (qs : list (list Z)) (i k : nat) (a : Z)
    (j : _dt_job_t) : Prop :=
  exists n rest, k = (i + n)%nat /\ qs !! n = Some (a :: rest) /\ jobs c !! a = Some j /\
    (export_scheduled c = true -> k <> DT_JOB_QUEUE_USER_EXPORT).

Definition candidate (c : dt_control_t) := candidate_in c (queues c) 0.

(** No other candidate has a higher priority, and none before it the same. *)
Definition best_in (c : dt_control_t) (qs : list (list Z)) (i k : nat) (j : _dt_job_t) : Prop :=
  forall k' a' j', candidate_in c qs i k' a' j' ->
    priority j' < priority j \/ (priority j' = priority j /\ (k <= k')%nat).

Lemma candidate_cons c q qs i k a j :
  candidate_in c (q :: qs) i k a j <->
  (k = i /\ (exists rest, q = a :: rest) /\ jobs c !! a = Some j /\
     (export_scheduled c = true -> i <> DT_JOB_QUEUE_USER_EXPORT)) \/
  candidate_in c qs (S i) k a j.
Proof.
  split.
  - intros (n & rest & -> & Hn & Hj & He). destruct n as [|n]; cbn in Hn.
    + left. simplify_eq. rewrite Nat.add_0_r in *. eauto.
    + right. exists n, rest. split_and!; [lia|done..].
  - intros [(-> & (rest & ->) & Hj & He)|(n & rest & -> & Hn & Hj & He)].
    + exists 0%nat, rest. rewrite Nat.add_0_r. eauto.
    + exists (S n), rest. split_and!; [lia|done..].
Qed.

Lemma pick_loop_spec c qs i w mp :
  (forall n a rest, qs !! n = Some (a :: rest) -> is_Some (jobs c !! a)) ->
  exists r, pick_loop c qs i w mp = Done r /\
    ((r = w /\ forall k a j, candidate_in c qs i k a j -> priority j <= mp) \/
     (exists a k j, r = Some (a, k) /\ candidate_in c qs i k a j /\ mp < priority j /\
        best_in c qs i k j)).
Proof.
  revert i w mp. induction qs as [|q qs IH]; intros i w mp Hal; cbn [pick_loop].
  { eexists. split; [done|]. left. split; [done|]. by intros k a j (n & rest & _ & ? & _). }
  assert (forall n a rest, qs !! n = Some (a :: rest) -> is_Some (jobs c !! a)) as Hal'
    by (intros n; apply (Hal (S n))).
  assert (forall w mp, (forall a rest j, q = a :: rest -> jobs c !! a = Some j ->
      (export_scheduled c = true -> i <> DT_JOB_QUEUE_USER_EXPORT) -> priority j <= mp) ->
    exists r, pick_loop c qs (S i) w mp = Done r /\
    ((r = w /\ forall k a j, candidate_in c (q :: qs) i k a j -> priority j <= mp) \/
     (exists a k j, r = Some (a, k) /\ candidate_in c (q :: qs) i k a j /\ mp < priority j /\
        best_in c (q :: qs) i k j))) as Hskip.
  { intros w' mp' Hq. destruct (IH (S i) w' mp' Hal') as (r & -> & Hr). eexists. split; [done|].
    destruct Hr as [[-> Hr]|(a & k & j & -> & Hc & Hm & Hb)].
    - left. split; [done|]. intros k a j [(-> & (rest & ->) & Hj & He)|Hc]%candidate_cons; eauto.
    - right. exists a, k, j. split_and!; [done|by apply candidate_cons; right|done|].
      intros k' a' j' [(-> & (rest & ->) & Hj & He)|Hc']%candidate_cons; [|by apply (Hb k' a' j')].
      left. pose proof (Hq a' rest j' eq_refl Hj He). lia. }
  destruct q as [|a rest]; [by apply Hskip|].
  destruct (export_scheduled c && (i =? DT_JOB_QUEUE_USER_EXPORT)%nat) eqn:He.
  { apply andb_prop in He as [He Hi%Nat.eqb_eq]. apply Hskip. intros a' rest' j _ _ Hx.
    by destruct (Hx He). }
  assert (export_scheduled c = true -> i <> DT_JOB_QUEUE_USER_EXPORT) as Hx.
  { intros E ->. rewrite E, Nat.eqb_refl in He. done. }
  destruct (Hal 0%nat a rest eq_refl) as [j Hj]. unfold get_job. rewrite Hj. cbn [c_bind].
  destruct (Z.ltb_spec mp (priority j)) as [Hlt|Hge].
  - destruct (Hskip (Some (a, i)) (priority j)) as (r & -> & Hr);
      [intros; simplify_eq; lia|]. eexists. split; [done|]. right.
    destruct Hr as [[-> Hr]|(a' & k & j' & -> & Hc & Hm & Hb)].
    + exists a, i, j. split_and!; [done|apply candidate_cons; left; eauto|done|].
      intros k' a' j' Hc. specialize (Hr k' a' j' Hc).
      destruct Hc as (n & _ & -> & _). destruct (decide (priority j' = priority j)); [right|left]; lia.
    + exists a', k, j'. split_and!; [done..|lia|done].
  - apply Hskip. intros. simplify_eq. lia.
Qed.

(** The heads of the queues other than number [w]. *)
Fixpoint heads (w : nat) (qs : list (list Z)) (i : nat) : list Z :=
  match qs with
  | [] => []
  | [] :: qs => heads w qs (S i)
  | (a :: _) :: qs => if (i =? w)%nat then heads w qs (S i) else a :: heads w qs (S i)
  end.

Lemma heads_occ x w qs i : (occ x (heads w qs i) <= occ x (concat qs))%nat.
Proof.
  revert i. induction qs as [|[|a q] qs IH]; intros i; cbn; [done|by apply IH|].
  specialize (IH (S i)). rewrite occ_app. destruct (i =? w)%nat; cbn; lia.
Qed.

Definition aged (m : gmap Z _dt_job_t) (hs : list Z) (b : Z) : option _dt_job_t :=
  if decide (b ∈ hs) then (fun j => with_priority (wrap_u8 (priority j + 1)) j) <$> m !! b else m !! b.

Lemma age_loop_spec w qs i c :
  (forall x, (occ x (concat qs) <= 1)%nat) -> (forall a, a ∈ concat qs -> is_Some (jobs c !! a)) ->
  exists m, age_loop w qs i c = Done (on_jobs (fun _ => m) [] c) /\
    forall b, m !! b = aged (jobs c) (heads w qs i) b.
Proof.
  revert i c. induction qs as [|q qs IH]; intros i c Hocc Hal; cbn [age_loop heads].
  { exists (jobs c). split; [by destruct c|]. intros b. unfold aged. by rewrite decide_False by set_solver. }
  assert (forall x, (occ x (concat qs) <= 1)%nat) as Hocc'.
  { intros x. specialize (Hocc x). cbn in Hocc. rewrite occ_app in Hocc. lia. }
  assert (forall a, a ∈ concat qs -> is_Some (jobs c !! a)) as Hal'.
  { intros a Ha. apply Hal. cbn. set_solver. }
  destruct q as [|a rest]; [by apply IH|]. destruct (i =? w)%nat; [by apply IH|].
  destruct (Hal a) as [j Hj]; [cbn; set_solver|]. unfold get_job. rewrite Hj. cbn [c_bind].
  set (j' := with_priority _ _). assert (a ∉ heads w qs (S i)) as Hah.
  { intros H%occ_elem. pose proof (heads_occ a w qs (S i)). specialize (Hocc a). cbn in Hocc.
    rewrite occ_app, decide_True in Hocc by done. lia. }
  destruct (IH (S i) (put_job a j' c)) as (m & -> & Hm); [done| |].
  { intros b Hb. cbn. destruct (decide (b = a)) as [->|]; [rewrite lookup_insert_eq; eauto|].
    rewrite lookup_insert_ne by done. auto. }
  exists m. split; [unfold put_job; by rewrite on_jobs_compose|].
  intros b. rewrite Hm. unfold aged. cbn [jobs put_job on_jobs]. destruct (decide (b = a)) as [->|Hb].
  - rewrite lookup_insert_eq, decide_False, decide_True by (done || set_solver). by rewrite Hj.
  - rewrite lookup_insert_ne by done. apply decide_ext. set_solver.
Qed.

(** The outcome of a call of the scheduler by worker [t]. *)
Definition schedule_outcome (c : dt_control_t) (t : nat) (r : option Z) (c' : dt_control_t) : Prop :=
  match r with
  | None => c' = c /\ forall k a j, ~ candidate c k a j
  | Some a => exists k j rest, candidate c k a j /\ best_in c (queues c) 0 k j /\
      queues c !! k = Some (a :: rest) /\ queues c' = <[k := rest]> (queues c) /\
      job c' = <[t := Some a]> (job c) /\
      export_scheduled c' = (if (k =? DT_JOB_QUEUE_USER_EXPORT)%nat then true else export_scheduled c) /\
      forall b, jobs c' !! b = aged (jobs c) (heads k (queues c) 0) b
  end.

Lemma heads_replace w qs i q rest :
  qs !! w = Some q -> heads (i + w) (<[w := rest]> qs) i = heads (i + w) qs i.
Proof.
  revert w i. induction qs as [|q0 qs IH]; intros [|w] i Hw; [done..| |]; cbn in Hw.
  - change (<[0%nat := rest]> (q0 :: qs)) with (rest :: qs). cbn [heads]. rewrite Nat.add_0_r, Nat.eqb_refl.
    by destruct rest, q0.
  - change (<[S w := rest]> (q0 :: qs)) with (q0 :: <[w := rest]> qs). cbn [heads].
    specialize (IH w (S i) Hw). replace (S i + w)%nat with (i + S w)%nat in IH by lia. by rewrite IH.
Qed.

Lemma inv_aged c ws rs cl m hs :
  inv (Sys c ws rs cl) -> (forall b, m !! b = aged (jobs c) hs b) ->
  inv (Sys (on_jobs (fun _ => m) [] c) ws rs cl).
Proof.
  intros Hinv Hm.
  assert (forall b, static <$> m !! b = static <$> jobs c !! b) as Hs.
  { intros b. rewrite Hm. unfold aged. case_decide; [|done]. by destruct (jobs c !! b). }
  apply (inv_heap _ _ _ _ Hinv); try (by intros; rewrite ?Hs; auto using static_queue).
  - intros x. specialize (Hs x). unfold alive. destruct (m !! x), (jobs c !! x); done.
  - intros i q a _ _ (j & Hj & Hq & Hp & Hst). unfold queued_ok. rewrite Hm. unfold aged.
    rewrite Hj. case_decide; [|eauto]. eexists. split; [done|]. cbn. split_and!; try done;
    apply (Z.mod_pos_bound (priority j + 1) (2 ^ 8)); lia.
Qed.

(** The winner leaves its queue for the slot of worker [t]. *)
Lemma inv_take c ws rs cl t k a j rest :
  inv (Sys c ws rs cl) -> ws !! t = Some Idle -> candidate c k a j ->
  queues c !! k = Some (a :: rest) ->
  let c1 := set_queue k rest (wrap_u64 (Z.of_nat (length rest))) c in
  inv (Sys (set_slot t (Some a) (if (k =? DT_JOB_QUEUE_USER_EXPORT)%nat then true else export_scheduled c) c1)
         (<[t := Got a]> ws) rs cl).
Proof.
  intros Hinv Ht Hc Hq c1.
  pose proof (i_queued _ Hinv _ _ Hq) as Hok. apply Forall_cons in Hok as [(j' & Hj' & Hqj & _) Hrest].
  cbn in Hj'. assert (inv (Sys c1 ws rs (a :: cl))) as Hinv1.
  { apply (inv_queue _ _ _ _ Hinv k (a :: rest)); [done|intros x; cbn; lia|done|]. intros ->.
    pose proof (i_bound _ Hinv _ Hq) as Hb. cbn [length] in Hb. split; [lia|].
    intros x y jx jy Hx Hy. apply (i_distinct _ Hinv _ Hq); by right. }
  apply (inv_slot _ _ _ _ Hinv1 t Idle (Got a)); [done|intros x; cbn; lia|]. cbn.
  rewrite Hj'. destruct Hc as (n & rest' & Hk & _ & _ & He).
  destruct (Nat.eqb_spec k DT_JOB_QUEUE_USER_EXPORT) as [->|Hne].
  - rewrite decide_True by done. destruct (export_scheduled c) eqn:E; [by destruct (He eq_refl)|done].
  - rewrite decide_False by congruence. done.
Qed.

Lemma schedule_inv c ws rs cl t :
  inv (Sys c ws rs cl) -> ws !! t = Some Idle ->
  exists r c', dt_control_schedule_job c t = Done (r, c') /\ schedule_outcome c t r c' /\
    inv (Sys c' (<[t := match r with Some a => Got a | None => Idle end]> ws) rs cl).
Proof.
  intros Hinv Ht. unfold dt_control_schedule_job.
  destruct (pick_loop_spec c (queues c) 0 None (-1)) as (r & -> & Hr).
  { intros n a rest Hn. by apply (queued_alive _ _ _ _ Hinv _ _ a Hn), list_elem_of_here. }
  cbn [c_bind]. destruct Hr as [[-> Hr]|(a & k & j & -> & Hc & Hm & Hb)].
  { do 2 eexists. split; [done|]. split; [|by apply (inv_worker _ _ _ _ Hinv t Idle)].
    split; [done|]. intros k a j Hc. specialize (Hr k a j Hc). destruct Hc as (n & rest & -> & Hn & Hj & _).
    pose proof (i_queued _ Hinv _ _ Hn) as Hok. apply Forall_cons in Hok as [(j' & Hj' & _ & Hp & _) _].
    cbn in Hj'. simplify_eq. lia. }
  pose proof Hc as (n & rest & Hkn & Hn & Hj & He). cbn in Hkn. subst n.
  assert (k < DT_JOB_QUEUE_MAX)%nat as Hk.
  { rewrite <- (queues_length _ _ _ _ Hinv). by eapply lookup_lt_Some. }
  destruct (queue_at _ _ _ _ k Hinv Hk) as (q & Hq & -> & ->). simplify_eq. cbn [c_bind tail].
  assert (wrap_u64 (wrap_u64 (Z.of_nat (length (a :: rest))) - 1) = wrap_u64 (Z.of_nat (length rest))) as ->.
  { unfold wrap_u64. rewrite Zminus_mod_idemp_l. cbn [length]. f_equal. lia. }
  pose proof (inv_take c ws rs cl t k a j rest Hinv Ht Hc Hn) as Hinv1. cbv zeta in Hinv1.
  assert (job c !! t = Some None) as Hjt by (rewrite (slots_eq _ _ _ _ Hinv), list_lookup_fmap, Ht; done).
  cbn [job set_queue export_scheduled]. rewrite (at_index_Some _ _ _ Hjt). cbn [c_bind].
  set (c1 := set_slot _ _ _ _) in *.
  destruct (age_loop_spec k (queues c1) 0 c1) as (m & -> & Hm').
  { intros x. pose proof (own_sum _ _ _ _ Hinv1 x). pose proof (alive_le c1 x). lia. }
  { intros b Hbq%occ_elem. apply alive_Some. pose proof (own_sum _ _ _ _ Hinv1 b). lia. }
  cbn [c_bind]. do 2 eexists. split; [done|]. split; [|by eapply inv_aged].
  exists k, j, rest. split_and!; try done. intros b. cbn. rewrite Hm'. unfold aged.
  assert (heads k (queues c1) 0 = heads k (queues c) 0) as -> by apply (heads_replace k _ 0 _ _ Hn). done.
Qed.

(** ** All actions keep the invariant *)

Section actions.
Context (cb : _dt_job_t -> Z).
Context (c : dt_control_t) (ws rs : list worker) (cl : list Z) (Hinv : inv (Sys c ws rs cl)).

Lemma run_check_inv a :
  is_Some (jobs c !! a) -> exists w, run_check c a = Done (w, c) /\ worker_job w = Some a.
Proof using Hinv.
  intros [j Hj]. unfold run_check, dt_control_job_get_state, get_job. rewrite Hj. cbn [c_bind].
  eexists. split; [done|]. by case_decide.
Qed.

Lemma run_begin_inv a :
  is_Some (jobs c !! a) -> exists c', run_begin c a = Done (Executing a, c') /\ inv (Sys c' ws rs cl).
Proof using Hinv.
  intros [j Hj]. unfold run_begin. destruct (execute_begin_eq c a j Hj) as (pr & evs & ->).
  eexists. split; [done|]. by apply (inv_touch _ _ _ _ Hinv a j).
Qed.

Lemma execute_end_inv a :
  is_Some (jobs c !! a) -> exists c', job_execute_end cb c a = Done c' /\ inv (Sys c' ws rs cl).
Proof using Hinv.
  intros [j Hj]. destruct (execute_end_eq cb c a j Hj) as (pr & evs & ->). eexists. split; [done|].
  by apply (inv_touch _ _ _ _ Hinv a j).
Qed.

Lemma worker_job_alive t w a : ws !! t = Some w -> worker_job w = Some a -> is_Some (jobs c !! a).
Proof using Hinv.
  intros Ht Hw. apply (worker_alive _ _ _ _ Hinv), list_elem_of_omap.
  exists w. split; [by eapply list_elem_of_lookup_2|done].
Qed.

Lemma res_job_alive r w a : rs !! r = Some w -> worker_job w = Some a -> is_Some (jobs c !! a).
Proof using Hinv.
  intros Ht Hw. apply (res_alive _ _ _ _ Hinv). right. apply list_elem_of_omap.
  exists w. split; [by eapply list_elem_of_lookup_2|done].
Qed.

Lemma finish_inv t a :
  ws !! t = Some (Ran a) ->
  exists c', run_job_finish c t a = Done c' /\ inv (Sys c' (<[t := Idle]> ws) rs cl).
Proof using Hinv.
  intros Ht. destruct (worker_job_alive t _ a Ht eq_refl) as [j Hj].
  unfold run_job_finish, get_job. rewrite Hj. cbn [c_bind].
  assert (job c !! t = Some (Some a)) as Hjt by (rewrite (slots_eq _ _ _ _ Hinv), list_lookup_fmap, Ht; done).
  rewrite (at_index_Some _ _ _ Hjt). cbn [c_bind].
  set (export := if (queue j =? DT_JOB_QUEUE_USER_EXPORT)%nat then false else export_scheduled c).
  assert (inv (Sys (set_slot t None export c) (<[t := Idle]> ws) rs (a :: cl))) as Hinv1.
  { apply (inv_slot _ _ _ _ Hinv t (Ran a) Idle); [done|intros x; cbn; lia|]. cbn. rewrite Hj.
    pose proof (i_export _ Hinv) as He. cbn in He.
    pose proof (export_slots_insert (jobs c) (job c) t _ None Hjt) as Hx. cbn in Hx. rewrite Hj in Hx.
    unfold export. destruct (Nat.eqb_spec (queue j) DT_JOB_QUEUE_USER_EXPORT) as [Hq|Hq].
    - rewrite decide_True in Hx |- * by done. destruct (export_scheduled c); cbn in *; [done|lia].
    - rewrite decide_False by done. done. }
  destruct (dispose_eq (set_slot t None export c) a j Hj) as (evs & ->). eexists. split; [done|].
  by apply (inv_free _ _ _ _ Hinv1).
Qed.

Lemma worker_step_inv t w :
  ws !! t = Some w ->
  exists w' c', worker_step cb c t w = Done (w', c') /\ inv (Sys c' (<[t := w']> ws) rs cl).
Proof using Hinv.
  intros Ht. destruct w as [|a|a|a|a]; cbn [worker_step].
  - destruct (schedule_inv _ _ _ _ t Hinv Ht) as (r & c' & -> & _ & Hi). by do 2 eexists.
  - destruct (run_check_inv a) as (w' & -> & Hw); [by eapply worker_job_alive|].
    do 2 eexists. split; [done|]. by apply (inv_worker _ _ _ _ Hinv t (Got a)).
  - destruct (run_begin_inv a) as (c' & -> & Hi); [by eapply worker_job_alive|].
    do 2 eexists. split; [done|]. by apply (inv_worker _ _ _ _ Hi t (Checked a)).
  - destruct (execute_end_inv a) as (c' & -> & Hi); [by eapply worker_job_alive|].
    do 2 eexists. split; [done|]. by apply (inv_worker _ _ _ _ Hi t (Executing a)).
  - destruct (finish_inv t a Ht) as (c' & -> & Hi). by do 2 eexists.
Qed.

Lemma take_res_inv r :
  rs !! r = Some Idle -> (r < 3)%nat ->
  exists o c', take_job_res c r = Done (o, c') /\
    inv (Sys c' ws (<[r := match o with Some a => Got a | None => Idle end]> rs) cl).
Proof using Hinv.
  intros Hr Hlt. destruct (i_res _ Hinv) as (Hl1 & Hl2 & Hl3). cbn in Hl1, Hl2, Hl3.
  destruct (lookup_lt_is_Some_2 (job_res c) r) as [o Ho]; [by rewrite Hl1|].
  destruct (lookup_lt_is_Some_2 (new_res c) r) as [new Hn]; [by rewrite Hl2|].
  unfold take_job_res. rewrite (at_index_Some _ _ _ Hn), (at_index_Some _ _ _ Ho). cbn [c_bind].
  destruct new; do 2 eexists; (split; [done|]).
  - apply (inv_reserved _ _ _ _ Hinv r o None false Idle); [done..|]. intros x. destruct o; cbn; lia.
  - by apply (inv_reserved _ _ _ _ Hinv r o o false Idle).
Qed.

Lemma res_worker_step_inv r w :
  rs !! r = Some w -> (r < 3)%nat ->
  exists w' c', res_worker_step cb c r w = Done (w', c') /\ inv (Sys c' ws (<[r := w']> rs) cl).
Proof using Hinv.
  intros Hr Hlt. destruct w as [|a|a|a|a]; cbn [res_worker_step].
  - destruct (take_res_inv r Hr Hlt) as (o & c' & -> & Hi). by do 2 eexists.
  - destruct (run_check_inv a) as (w' & -> & Hw); [by eapply res_job_alive|].
    do 2 eexists. split; [done|]. apply (inv_res_worker _ _ _ _ Hinv r (Got a)); [done|].
    intros x. by rewrite Hw.
  - destruct (run_begin_inv a) as (c' & -> & Hi); [by eapply res_job_alive|].
    do 2 eexists. split; [done|]. by apply (inv_res_worker _ _ _ _ Hi r (Checked a)).
  - destruct (execute_end_inv a) as (c' & -> & Hi); [by eapply res_job_alive|].
    do 2 eexists. split; [done|]. by apply (inv_res_worker _ _ _ _ Hi r (Executing a)).
  - destruct (res_job_alive r _ a Hr eq_refl) as [j Hj].
    destruct (dispose_eq c a j Hj) as (evs & ->). do 2 eexists. split; [done|].
    assert (inv (Sys c ws (<[r := Idle]> rs) (a :: cl))) as Hinv1.
    { apply (inv_res_worker _ _ _ _ Hinv r (Ran a)); [done|]. intros x. cbn. lia. }
    by apply (inv_free _ _ _ _ Hinv1).
Qed.

(** Changes of a job that is still a client's to set up. *)
Lemma inv_setup a j j' :
  jobs c !! a = Some j -> state j = DT_JOB_STATE_INITIALIZED -> queue j' = queue j ->
  inv (Sys (put_job a j' c) ws rs cl).
Proof using Hinv.
  intros Hj Hst Hqj. unfold put_job.
  change (on_jobs <[a := j']> [] c) with (on_jobs (fun _ => <[a := j']> (jobs c)) [] c).
  assert (forall i q b, queues c !! i = Some q -> b ∈ q -> b <> a) as Hne.
  { intros i q b Hq Hb ->. pose proof (i_queued _ Hinv i q Hq) as Hok. rewrite Forall_forall in Hok.
    destruct (Hok a Hb) as (j0 & Hj0 & _ & _ & Hst0). cbn in Hj0. by simplify_eq. }
  apply (inv_heap _ _ _ _ Hinv).
  - intros x. unfold alive. destruct (decide (x = a)) as [->|]; [by rewrite lookup_insert_eq, Hj|].
    by rewrite lookup_insert_ne.
  - intros i q b Hq Hb. unfold queued_ok. rewrite lookup_insert_ne; [done|].
    by intros <-; destruct (Hne i q a Hq Hb).
  - intros i q b Hq Hb. rewrite lookup_insert_ne; [done|]. by intros <-; destruct (Hne i q a Hq Hb).
  - intros b _. destruct (decide (b = a)) as [->|]; [|by rewrite lookup_insert_ne].
    rewrite lookup_insert_eq, Hj. cbn. by rewrite Hqj.
Qed.

End actions.

#[global] Instance inv_preserved cb : Invariant (M:=jobs_machine cb) inv.
Proof.
  intros s act. cbn [m_allowed m_perform jobs_machine].
  destruct s as [c ws rs cl]. intros Hinv Hal.
  destruct act as [addr ex msg|a ps size d|a f|a|a|qid a|a res|t|r]; cbn [perform ctl workers res_workers clients].
  - destruct Hal as [Hne Hnew]. unfold dt_control_job_create.
    destruct (Z.eqb_spec addr 0); [done|]. eexists. split; [done|]. by apply (inv_create _ _ _ _ Hinv).
  - destruct Hal as [j Hj]. cbn in Hj. unfold dt_control_job_set_params_with_size, get_job.
    rewrite Hj. cbn [c_bind]. case_bool_decide as Hst; [by eexists|]. eexists. split; [done|].
    apply (inv_setup _ _ _ _ Hinv a j); [done| |done]. destruct (state j); tauto || naive_solver.
  - destruct Hal as [j Hj]. cbn in Hj.
    unfold dt_control_job_set_state_callback, dt_control_job_get_state, get_job.
    rewrite Hj. cbn [c_bind]. case_bool_decide as Hst; [by eexists|]. eexists. split; [done|].
    apply (inv_setup _ _ _ _ Hinv a j); [done| |done]. destruct (state j); tauto || naive_solver.
  - destruct Hal as [j Hj]. cbn in Hj. unfold dt_control_job_cancel.
    destruct (set_state_eq c a j DT_JOB_STATE_CANCELLED Hj) as (pr & evs & ->). eexists. split; [done|].
    by apply (inv_touch _ _ _ _ Hinv a j).
  - destruct Hal as [j Hj]. cbn in Hj. unfold dt_control_job_add_progress, get_job. rewrite Hj. cbn [c_bind].
    eexists. split; [done|]. by apply (inv_touch _ _ _ _ Hinv a j).
  - destruct (add_job_inv cb _ _ _ _ qid a Hinv Hal) as (r & c' & -> & Hi). by eexists.
  - destruct (add_job_res_inv _ _ _ _ a res Hinv Hal) as (r & c' & -> & Hi). by eexists.
  - cbn in Hal. destruct (lookup_lt_is_Some_2 ws t Hal) as [w Hw]. rewrite (at_index_Some _ _ _ Hw).
    cbn [c_bind]. destruct (worker_step_inv cb _ _ _ _ Hinv t w Hw) as (w' & c' & -> & Hi). by eexists.
  - cbn in Hal. destruct (i_res _ Hinv) as (_ & _ & Hl). cbn in Hl.
    destruct (lookup_lt_is_Some_2 rs r) as [w Hw]; [by rewrite Hl|]. rewrite (at_index_Some _ _ _ Hw).
    cbn [c_bind]. destruct (res_worker_step_inv cb _ _ _ _ Hinv r w Hw Hal) as (w' & c' & -> & Hi). by eexists.
Qed.

Lemma export_slots_none m n : export_slots m (replicate n None) = 0%nat.
Proof. induction n; cbn; auto. Qed.

Lemma jobs_inv_initial n : inv (initial n).
Proof.
  split; cbn; try done.
  - by induction n as [|n IH]; [|cbn; f_equal].
  - intros x. unfold owned, alive. cbn. rewrite lookup_empty, !occ_app. cbn.
    induction n as [|n IH]; [done|]. exact IH.
  - intros [|[|[|[|[|i]]]]] q Hq; cbn in Hq; simplify_eq; constructor.
  - apply export_slots_none.
  - intros q [= <-]. cbn. unfold DT_CONTROL_MAX_JOBS. lia.
Qed.

(** ** Waiting for a turn *)

(** A job other than [a] of at least priority [p]. *)
Definition rival (m : gmap Z _dt_job_t) (a p b : Z) : Prop :=
  b <> a /\ match m !! b with Some j => p <= priority j | None => False end.

#[global] Instance rival_dec m a p b : Decision (rival m a p b).
Proof. unfold rival. destruct (m !! b); apply _. Defined.

Definition rivals (c : dt_control_t) (a p : Z) : list Z :=
  filter (rival (jobs c) a p) (concat (queues c)).

Lemma elem_concat a (qs : list (list Z)) i (q : list Z) : qs !! i = Some q -> a ∈ q -> a ∈ concat qs.
Proof.
  intros Hi Ha. apply list_elem_of_In, in_concat. exists q. rewrite <- !list_elem_of_In.
  split; [by eapply list_elem_of_lookup_2|done].
Qed.

(** The job at [a] heads queue [k] with priority [p] and may be scheduled. *)
Definition waiting (c : dt_control_t) (k : nat) (a p : Z) : Prop :=
  k <> DT_JOB_QUEUE_USER_EXPORT /\ (exists rest, queues c !! k = Some (a :: rest)) /\
  exists j, jobs c !! a = Some j /\ priority j = p.

(** Queues and priorities of queued jobs are the same. *)
Definition same_queues (c c' : dt_control_t) : Prop :=
  queues c' = queues c /\
  forall b, b ∈ concat (queues c) -> priority <$> jobs c' !! b = priority <$> jobs c !! b.

Lemma same_queues_rivals c c' a p : same_queues c c' -> rivals c' a p = rivals c a p.
Proof.
  intros [Hq Hp]. unfold rivals. rewrite Hq. apply filter_elem_ext. intros b Hb.
  specialize (Hp b Hb). unfold rival. destruct (jobs c' !! b), (jobs c !! b); cbn in Hp; simplify_eq; try done.
  by rewrite Hp.
Qed.

Lemma same_queues_waiting c c' k a p : same_queues c c' -> waiting c k a p -> waiting c' k a p.
Proof.
  intros [Hq Hp] (Hk & (rest & Hr) & j & Hj & Hpr). split; [done|]. rewrite Hq. split; [eauto|].
  assert (a ∈ concat (queues c)) as Ha by (eapply elem_concat; [done|by left]).
  specialize (Hp a Ha). rewrite Hj in Hp. cbn in Hp.
  destruct (jobs c' !! a) as [j'|]; [|done]. exists j'. split; [done|]. cbn in Hp. congruence.
Qed.

(** What a worker does between two calls of the scheduler leaves the queues alone. *)
Lemma same_queues_refl c : same_queues c c.
Proof. done. Qed.

Lemma same_queues_touch c a j j' evs :
  jobs c !! a = Some j -> priority j' = priority j -> same_queues c (on_jobs <[a := j']> evs c).
Proof.
  intros Ha Hp. split; [done|]. intros b _. cbn. destruct (decide (b = a)) as [->|].
  - rewrite lookup_insert_eq, Ha. cbn. congruence.
  - by rewrite lookup_insert_ne.
Qed.

Lemma same_queues_delete c a evs : a ∉ concat (queues c) -> same_queues c (on_jobs (delete a) evs c).
Proof. intros Ha. split; [done|]. intros b Hb. cbn. rewrite lookup_delete_ne; [done|]. by intros ->. Qed.

Lemma worker_not_queued c ws rs cl a :
  inv (Sys c ws rs cl) -> a ∈ omap worker_job ws \/ a ∈ omap worker_job rs \/ a ∈ cl \/ a ∈ omap id (job_res c) ->
  a ∉ concat (queues c).
Proof.
  rewrite !occ_elem. intros Hinv Ha Hq. pose proof (own_sum _ _ _ _ Hinv a). pose proof (alive_le c a). lia.
Qed.

Lemma run_check_queues c a w c' : run_check c a = Done (w, c') -> same_queues c c'.
Proof. unfold run_check. intros (st & _ & Hs)%c_bind_Done. by simplify_eq. Qed.

Lemma run_begin_queues c a w c' : run_begin c a = Done (w, c') -> same_queues c c'.
Proof.
  unfold run_begin. destruct (jobs c !! a) as [j|] eqn:Hj; [|unfold job_execute_begin, dt_control_job_set_state, get_job; by rewrite Hj].
  destruct (execute_begin_eq c a j Hj) as (pr & evs & ->). cbn. intros. simplify_eq.
  by apply (same_queues_touch c a j).
Qed.

Lemma execute_end_queues cb c a c' : job_execute_end cb c a = Done c' -> same_queues c c'.
Proof.
  destruct (jobs c !! a) as [j|] eqn:Hj; [|unfold job_execute_end, get_job; by rewrite Hj].
  destruct (execute_end_eq cb c a j Hj) as (pr & evs & ->). intros. simplify_eq.
  by apply (same_queues_touch c a j).
Qed.

Lemma finish_queues c ws rs cl t a c' :
  inv (Sys c ws rs cl) -> ws !! t = Some (Ran a) -> run_job_finish c t a = Done c' -> same_queues c c'.
Proof.
  intros Hinv Ht. destruct (worker_job_alive _ _ _ _ Hinv t _ a Ht eq_refl) as [j Hj].
  unfold run_job_finish, get_job. rewrite Hj. cbn [c_bind]. unfold at_index.
  destruct (job c !! t); [|done]. cbn [c_bind]. set (c1 := set_slot _ _ _ _).
  destruct (dispose_eq c1 a j Hj) as (evs & ->). intros. simplify_eq.
  assert (same_queues c1 (on_jobs (delete a) evs c1)) as [? ?]; [|done].
  apply same_queues_delete, (worker_not_queued c ws rs cl a Hinv). left. apply list_elem_of_omap.
  exists (Ran a). split; [by eapply list_elem_of_lookup_2|done].
Qed.

(** Priority does not wrap below 255. *)
Lemma aged_priority m hs b j :
  aged m hs b = Some j -> exists j0, m !! b = Some j0 /\
    (priority j = priority j0 \/ (b ∈ hs /\ priority j = wrap_u8 (priority j0 + 1))).
Proof.
  unfold aged. case_decide; [|eauto]. destruct (m !! b) as [j0|]; [|done]. cbn.
  intros [= <-]. exists j0. split; [done|]. right. done.
Qed.

Lemma heads_elem qs w i k a rest : qs !! k = Some (a :: rest) -> (i + k)%nat <> w -> a ∈ heads w qs i.
Proof.
  revert i k. induction qs as [|q qs IH]; intros i [|k] Hk Hne; [done..| |]; cbn in Hk; simplify_eq.
  - cbn. destruct (Nat.eqb_spec i w); [lia|by left].
  - cbn. specialize (IH (S i) k Hk ltac:(lia)). destruct q; [done|]. destruct (_ =? _)%nat; [done|by right].
Qed.

Lemma wrap_u8_le z : 0 <= z -> wrap_u8 z <= z.
Proof. intros H. apply Z.mod_le; lia. Qed.

Lemma concat_head_perm (qs : list (list Z)) k b rest :
  qs !! k = Some (b :: rest) -> concat qs ≡ₚ b :: concat (<[k := rest]> qs).
Proof.
  revert k. induction qs as [|q qs IH]; intros [|k] Hk; [done..| |]; cbn in Hk; simplify_eq.
  - done.
  - change (<[S k := rest]> (q :: qs)) with (q :: <[k := rest]> qs). cbn [concat].
    rewrite (IH k Hk). by rewrite Permutation_middle.
Qed.

Lemma rival_earlier m m' hs a p b :
  0 <= p -> (forall x, m' !! x = aged m hs x) ->
  (forall j, m !! b = Some j -> 0 <= priority j) -> rival m' a (p + 1) b -> rival m a p b.
Proof.
  intros Hp Hm Hpos [Hb Hr]. split; [done|]. rewrite Hm in Hr.
  destruct (aged m hs b) as [j|] eqn:E; [|done]. apply aged_priority in E as (j0 & Hj0 & H).
  rewrite Hj0. specialize (Hpos j0 Hj0). destruct H as [H|[_ H]]; [lia|].
  pose proof (wrap_u8_le (priority j0 + 1)). lia.
Qed.

(** One call of the scheduler that passes the job over. *)
Lemma round_progress c ws rs cl t k a p b c' :
  inv (Sys c ws rs cl) -> waiting c k a p -> p < 255 -> b <> a ->
  schedule_outcome c t (Some b) c' ->
  waiting c' k a (p + 1) /\ (length (rivals c' a (p + 1)) < length (rivals c a p))%nat.
Proof.
  intros Hinv (Hk & (rest & Hr) & j & Hj & Hp) H255 Hba
    (kb & jb & restb & Hc & Hb & Hqb & Hq' & _ & _ & Hm).
  assert (candidate c k a j) as Hcand by (exists k, rest; done).
  pose proof (i_queued _ Hinv _ _ Hr) as Hok. apply Forall_cons in Hok as [(j' & Hj' & _ & Hpr & _) _].
  cbn in Hj'. simplify_eq.
  assert (k <> kb) as Hkb by (intros ->; by simplify_eq).
  pose proof Hc as (_ & _ & _ & _ & Hjb & _). split.
  - split; [done|]. split; [exists rest; by rewrite Hq', list_lookup_insert_ne|].
    rewrite Hm. unfold aged. rewrite decide_True by (by eapply heads_elem). rewrite Hj. cbn.
    eexists. split; [done|]. cbn. apply Z.mod_small. lia.
  - unfold rivals. rewrite Hq', (concat_head_perm _ _ _ _ Hqb).
    rewrite filter_cons_True by (split; [done|]; rewrite Hjb; destruct (Hb k a j Hcand); lia).
    cbn. apply Nat.lt_succ_r, filter_length_mono. intros x Hx.
    apply (rival_earlier _ _ (heads kb (queues c) 0)); [lia|done|].
    intros jx Hjx. assert (x ∈ concat (queues c)) as Hxq
      by (rewrite (concat_head_perm _ _ _ _ Hqb); by right).
    apply list_elem_of_In, in_concat in Hxq as (q & Hq%list_elem_of_In & Hxq%list_elem_of_In).
    apply list_elem_of_lookup in Hq as [i Hi]. pose proof (i_queued _ Hinv _ _ Hi) as Hf.
    rewrite Forall_forall in Hf. destruct (Hf x Hxq) as (j0 & Hj0 & _ & Hpx & _). cbn in Hj0. simplify_eq. lia.
Qed.

Lemma same_queues_trans c1 c2 c3 : same_queues c1 c2 -> same_queues c2 c3 -> same_queues c1 c3.
Proof.
  intros [Hq Hp] [Hq' Hp']. split; [congruence|]. intros b Hb. rewrite Hp' by by rewrite Hq. by apply Hp.
Qed.

Lemma dispose_queues c a c' :
  a ∉ concat (queues c) -> dt_control_job_dispose c (Some a) = Done c' -> same_queues c c'.
Proof.
  intros Ha. destruct (jobs c !! a) as [j|] eqn:Hj;
    [|unfold dt_control_job_dispose, get_job; by rewrite Hj].
  destruct (dispose_eq c a j Hj) as (evs & ->). intros. simplify_eq. by apply same_queues_delete.
Qed.

Lemma set_state_queues c o st c' : dt_control_job_set_state c o st = Done c' -> same_queues c c'.
Proof.
  destruct o as [a|]; [|cbn; by intros; simplify_eq].
  destruct (jobs c !! a) as [j|] eqn:Hj; [|unfold dt_control_job_set_state, get_job; by rewrite Hj].
  destruct (set_state_eq c a j st Hj) as (pr & evs & ->). intros. simplify_eq.
  by apply (same_queues_touch c a j).
Qed.

Lemma discard_queues c o c' :
  (forall a, o = Some a -> a ∉ concat (queues c)) -> discard c o = Done c' -> same_queues c c'.
Proof.
  intros Ho. unfold discard. intros (c1 & Hs & Hd)%c_bind_Done. pose proof (set_state_queues _ _ _ _ Hs) as H1.
  apply (same_queues_trans _ _ _ H1). destruct o as [a|]; [|cbn in Hd; by simplify_eq].
  apply (dispose_queues c1 a); [|done]. rewrite (proj1 H1). auto.
Qed.

Lemma add_job_res_queues c ws rs cl a res r c' :
  inv (Sys c ws rs cl) -> a ∈ cl -> dt_control_add_job_res c (Some a) res = Done (r, c') -> same_queues c c'.
Proof.
  intros Hinv Ha. unfold dt_control_add_job_res. case_match.
  - intros (c1 & Hd & ?)%c_bind_Done. simplify_eq. apply (dispose_queues c a); [|done].
    eapply worker_not_queued; [done|]. tauto.
  - unfold at_index. destruct (job_res c !! _) as [o|] eqn:Ho; [|done]. cbn [c_bind].
    intros (c1 & Hd & (c2 & Hs & ?)%c_bind_Done)%c_bind_Done. simplify_eq.
    apply discard_queues in Hd; [|].
    + apply set_state_queues in Hs. pose proof (same_queues_trans _ _ _ Hd Hs) as [? ?]. by split.
    + intros b ->. eapply worker_not_queued; [done|]. right. right. right. apply list_elem_of_omap.
      exists (Some b). split; [by eapply list_elem_of_lookup_2|done].
Qed.

(** The actions that neither add to a queue nor call the scheduler. *)
Definition quiet (s : system) (act : action) : Prop :=
  match act with
  | AAddJob _ _ => False
  | AWorker t => workers s !! t <> Some Idle
  | _ => True
  end.

Lemma quiet_queues cb s s' act :
  inv s -> allowed s act -> quiet s act -> perform cb s act = Done s' -> same_queues (ctl s) (ctl s').
Proof.
  destruct s as [c ws rs cl]. intros Hinv Hal Hquiet.
  destruct act as [addr ex msg|a ps size d|a f|a|a|qid a|a res|t|r]; cbn [perform ctl workers res_workers clients].
  - destruct Hal as [_ Hnew]. unfold dt_control_job_create.
    destruct (Z.eqb_spec addr 0); intros; simplify_eq; [done|]. split; [done|]. intros b Hb. cbn.
    rewrite lookup_insert_ne; [done|]. intros <-. cbn in Hnew, Hb. apply occ_elem in Hb.
    pose proof (own_sum _ _ _ _ Hinv addr) as Hs. unfold alive in Hs. rewrite Hnew in Hs. lia.
  - destruct Hal as [j Hj]. cbn in Hj. unfold dt_control_job_set_params_with_size, get_job. rewrite Hj.
    cbn [c_bind]. case_bool_decide; cbn; intros; simplify_eq; [done|]. by apply (same_queues_touch c a j).
  - destruct Hal as [j Hj]. cbn in Hj.
    unfold dt_control_job_set_state_callback, dt_control_job_get_state, get_job. rewrite Hj.
    cbn [c_bind]. case_bool_decide; cbn; intros; simplify_eq; [done|]. by apply (same_queues_touch c a j).
  - intros (c1 & Hs & ?)%c_bind_Done. simplify_eq. by apply (set_state_queues c (Some a) DT_JOB_STATE_CANCELLED).
  - destruct Hal as [j Hj]. cbn in Hj. unfold dt_control_job_add_progress, get_job. rewrite Hj.
    cbn [c_bind]. intros. simplify_eq. by apply (same_queues_touch c a j).
  - done.
  - intros ([r c1] & Hs & ?)%c_bind_Done. simplify_eq. by eapply add_job_res_queues.
  - unfold at_index. destruct (ws !! t) as [w|] eqn:Hw; [|done]. cbn [c_bind].
    intros ([w' c1] & Hs & ?)%c_bind_Done. simplify_eq. cbn in Hquiet.
    destruct w as [|a|a|a|a]; cbn [worker_step] in Hs; [by destruct Hquiet|..].
    + by eapply run_check_queues.
    + by eapply run_begin_queues.
    + apply c_bind_Done in Hs as (c2 & Hs & ?). simplify_eq. by eapply execute_end_queues.
    + apply c_bind_Done in Hs as (c2 & Hs & ?). simplify_eq. by eapply finish_queues.
  - unfold at_index. destruct (rs !! r) as [w|] eqn:Hw; [|done]. cbn [c_bind].
    intros ([w' c1] & Hs & ?)%c_bind_Done. simplify_eq.
    destruct w as [|a|a|a|a]; cbn [res_worker_step] in Hs.
    + apply c_bind_Done in Hs as ([o c2] & Hs & ?). simplify_eq. unfold take_job_res, at_index in Hs.
      destruct (new_res c !! r) as [[]|], (job_res c !! r); cbn in Hs; by simplify_eq.
    + by eapply run_check_queues.
    + by eapply run_begin_queues.
    + apply c_bind_Done in Hs as (c2 & Hs & ?). simplify_eq. by eapply execute_end_queues.
    + apply c_bind_Done in Hs as (c2 & Hs & ?). simplify_eq. eapply dispose_queues; [|done].
      eapply worker_not_queued; [done|]. right. left. apply list_elem_of_omap.
      exists (Ran a). split; [by eapply list_elem_of_lookup_2|done].
Qed.

(** [passes cb k a n s s']: from [s] to [s'], no job is added to a queue and [n]
    calls of the scheduler pick other jobs than [a], which heads queue [k]. *)
Inductive passes (cb : _dt_job_t -> Z) (k : nat) (a : Z) : nat -> system -> system -> Prop :=
  | passes_refl s : passes cb k a 0 s s
  | passes_quiet n s s1 s2 act :
      allowed s act -> quiet s act -> perform cb s act = Done s1 ->
      passes cb k a n s1 s2 -> passes cb k a n s s2
  | passes_round n s s1 s2 t b :
      workers s !! t = Some Idle -> perform cb s (AWorker t) = Done s1 ->
      workers s1 !! t = Some (Got b) -> b <> a ->
      passes cb k a n s1 s2 -> passes cb k a (S n) s s2.

Lemma round_schedule cb s s1 t b :
  inv s -> workers s !! t = Some Idle -> perform cb s (AWorker t) = Done s1 ->
  workers s1 !! t = Some (Got b) -> schedule_outcome (ctl s) t (Some b) (ctl s1) /\ inv s1.
Proof.
  destruct s as [c ws rs cl]. intros Hinv Hw. cbn in Hw. cbn [perform ctl workers res_workers clients].
  rewrite (at_index_Some _ _ _ Hw). cbn [c_bind worker_step].
  destruct (schedule_inv c ws rs cl t Hinv Hw) as (r & c' & -> & Ho & Hi). cbn. intros. simplify_eq.
  cbn in *. rewrite list_lookup_insert_eq in * by by eapply lookup_lt_Some.
  destruct r; simplify_eq. done.
Qed.

Lemma passes_prefix cb k a n m s s' : passes cb k a n s s' -> (m <= n)%nat -> exists s1, passes cb k a m s s1.
Proof.
  intros Hp. revert m. induction Hp as [s|n s s1 s2 act H1 H2 H3 _ IH|n s s1 s2 t b H1 H2 H3 H4 _ IH]; intros m Hm.
  - replace m with 0%nat by lia. eexists. constructor.
  - destruct (IH m Hm) as [s3 H5]. eexists. by eapply passes_quiet.
  - destruct m as [|m]; [eexists; constructor|]. destruct (IH m) as [s3 H6]; [lia|]. eexists. by eapply passes_round.
Qed.

Lemma passes_bounded cb k a n s s' p :
  inv s -> passes cb k a n s s' -> waiting (ctl s) k a p -> p + Z.of_nat n <= 255 ->
  (n <= length (rivals (ctl s) a p))%nat.
Proof.
  intros Hinv Hp. revert p Hinv.
  induction Hp as [s|n s s1 s2 act Hal Hq Hperf _ IH|n s s1 s2 t b Hw Hperf Hw1 Hba _ IH]; intros p Hinv Hwait Hn.
  - lia.
  - pose proof (quiet_queues cb s s1 act Hinv Hal Hq Hperf) as Hsame.
    pose proof (m_preserve_Done (M:=jobs_machine cb) s act s1 Hinv Hal Hperf) as Hinv1.
    rewrite <- (same_queues_rivals _ _ a p Hsame). apply IH; [done| |done].
    by apply (same_queues_waiting _ _ _ _ _ Hsame).
  - destruct (round_schedule cb s s1 t b Hinv Hw Hperf Hw1) as [Ho Hinv1].
    destruct s as [c ws rs cl]. destruct (round_progress c ws rs cl t k a p b (ctl s1) Hinv Hwait) as [Hwait' Hlt];
      [lia|done|done|].
    specialize (IH (p + 1) Hinv1 Hwait'). cbn. lia.
Qed.

(** ** Properties *)

Lemma occ_NoDup l : (forall x, (occ x l <= 1)%nat) -> NoDup l.
Proof.
  induction l as [|y l IH]; intros H; [constructor|]. apply NoDup_cons. split.
  - intros Hy%occ_elem. specialize (H y). cbn in H. rewrite decide_True in H by done. lia.
  - apply IH. intros x. specialize (H x). cbn in H. lia.
Qed.

Lemma export_slots_two m slots t t' o o' :
  t <> t' -> slots !! t = Some o -> slots !! t' = Some o' ->
  (is_export m o + is_export m o' <= export_slots m slots)%nat.
Proof.
  assert (forall slots t o, slots !! t = Some o -> (is_export m o <= export_slots m slots)%nat) as Hone.
  { clear. induction slots as [|o0 slots IH]; intros [|t] o Ht; cbn in *; simplify_eq; [lia|].
    specialize (IH t o Ht). lia. }
  revert t t'. induction slots as [|o0 slots IH]; intros [|t] [|t'] Hne Ht Ht'; try done;
    cbn in Ht, Ht' |- *; simplify_eq.
  - pose proof (Hone _ _ _ Ht'). lia.
  - pose proof (Hone _ _ _ Ht). lia.
  - specialize (IH t t' ltac:(congruence) Ht Ht'). lia.
Qed.

(** C5: whatever clients, workers and reserved workers do, in any order, no freed
    job is ever touched and no job is freed twice or leaked: the live jobs are
    exactly those that one owner still holds. The counters are the lengths of the
    queues, at most one export is with a worker, and the system foreground queue
    has at most 30 jobs, no two of them equal. *)
Theorem job_system_safe cb n s (Hr : rtc (step cb) (initial n) s) :
  (forall act, allowed s act -> exists s', perform cb s act = Done s') /\
  NoDup (owned s) /\ (forall a, a ∈ owned s <-> is_Some (jobs (ctl s) !! a)) /\
  queue_length (ctl s) = map (fun q => wrap_u64 (Z.of_nat (length q))) (queues (ctl s)) /\
  (forall t t' a a' j j', job (ctl s) !! t = Some (Some a) -> job (ctl s) !! t' = Some (Some a') ->
     jobs (ctl s) !! a = Some j -> jobs (ctl s) !! a' = Some j' ->
     queue j = DT_JOB_QUEUE_USER_EXPORT -> queue j' = DT_JOB_QUEUE_USER_EXPORT -> t = t') /\
  (forall q, queues (ctl s) !! DT_JOB_QUEUE_SYSTEM_FG = Some q ->
     Z.of_nat (length q) <= DT_CONTROL_MAX_JOBS /\ distinct_jobs (jobs (ctl s)) q).
Proof.
  pose proof (m_reachable (M:=jobs_machine cb) (Inv:=inv) _ s (jobs_inv_initial n) Hr) as Hinv. split_and!.
  - intros act Hal. destruct (m_preserve (M:=jobs_machine cb) (Inv:=inv) s act Hinv Hal) as (s' & ? & _). eauto.
  - apply occ_NoDup. intros x. rewrite (i_own _ Hinv). unfold alive. case_match; lia.
  - intros a. rewrite occ_elem, (i_own _ Hinv). unfold alive.
    destruct (jobs (ctl s) !! a); split; [eauto|lia|lia|by intros []].
  - apply (i_lengths _ Hinv).
  - intros t t' a a' j j' Ht Ht' Hj Hj' Hq Hq'. destruct (decide (t = t')) as [|Hne]; [done|].
    pose proof (export_slots_two (jobs (ctl s)) _ _ _ _ _ Hne Ht Ht') as He.
    rewrite (i_export _ Hinv) in He. cbn in He. rewrite Hj, Hj', !decide_True in He by done.
    destruct (export_scheduled (ctl s)); cbn in He; lia.
  - intros q Hq. split; [by apply (i_bound _ Hinv)|by apply (i_distinct _ Hinv)].
Qed.

Lemma inv_eta s : inv s -> inv (Sys (ctl s) (workers s) (res_workers s) (clients s)).
Proof. by destruct s. Qed.

Abbreviation run_or := (m_run_or (M:=jobs_machine (fun _ => 0))).

(** Two exports, an import and the same thumbnail twice. *)
Definition example_acts : list action :=
  [ACreate 10 1 "export a"; AAddJob 3 10; ACreate 20 1 "export b"; AAddJob 3 20;
   ACreate 30 2 "import"; AAddJob 2 30; ACreate 40 3 "thumb"; AAddJob 1 40;
   ACreate 50 3 "thumb"; AAddJob 1 50; AWorker 0; AWorker 1].

Lemma example_reachable : rtc (step (fun _ => 0)) (initial 2) (run_or (initial 2) example_acts).
Proof. apply (m_run_reachable example_acts). vm_compute. reflexivity. Qed.

Lemma job_system_safe_witness :
  workers (run_or (initial 2) example_acts) = [Got 40; Got 30] /\ NoDup (owned (run_or (initial 2) example_acts)).
Proof.
  split; [vm_compute; reflexivity|].
  apply (job_system_safe (fun _ => 0) 2 _ example_reachable).
Defined.

(** C23: the scheduler never fails and picks the job it promises: among the heads of
    the queues (exports only while none is running) one of the highest priority,
    the first queue first; that job alone leaves its queue for the worker's slot,
    and the priority of every other head grows by one. It returns NULL only when no
    head may be scheduled. *)
Theorem scheduler_picks_best c ws rs cl t (Hinv : inv (Sys c ws rs cl)) (Ht : ws !! t = Some Idle) :
  exists r c', dt_control_schedule_job c t = Done (r, c') /\ schedule_outcome c t r c'.
Proof. destruct (schedule_inv c ws rs cl t Hinv Ht) as (r & c' & ? & ? & _). eauto. Qed.

Definition example_queued : system := run_or (initial 2) (take 10 example_acts).

Lemma example_queued_inv : inv example_queued.
Proof.
  apply (m_reachable (M:=jobs_machine (fun _ => 0)) (Inv:=inv) (initial 2) _ (jobs_inv_initial 2)).
  apply (m_run_reachable (take 10 example_acts)). vm_compute. reflexivity.
Qed.

Lemma scheduler_picks_best_witness :
  exists r c', dt_control_schedule_job (ctl example_queued) 0 = Done (r, c') /\
    schedule_outcome (ctl example_queued) 0 r c'.
Proof.
  apply (scheduler_picks_best (ctl example_queued) (workers example_queued)
    (res_workers example_queued) (clients example_queued)); [|vm_compute; reflexivity].
  exact (inv_eta _ example_queued_inv).
Defined.

(** C40: no job starves: while no jobs are added, the job that heads a queue (other
    than the export queue) is passed over at most as often as there are other
    queued jobs of at least its priority, whatever the workers do in between, provided that
    its priority and their number together are below 255: beyond that the priority, an
    unsigned char, can wrap. *)
Theorem waiting_is_bounded cb k a n s s' p (Hinv : inv s) (Hpass : passes cb k a n s s')
    (Hwait : waiting (ctl s) k a p) (Hn : p + Z.of_nat (length (rivals (ctl s) a p)) < 255) :
  (n <= length (rivals (ctl s) a p))%nat.
Proof.
  destruct (Nat.le_gt_cases n (length (rivals (ctl s) a p))) as [|Hgt]; [done|].
  destruct (passes_prefix cb k a n (S (length (rivals (ctl s) a p))) s s' Hpass) as [s1 H1]; [lia|].
  pose proof (passes_bounded cb k a _ s s1 p Hinv H1 Hwait ltac:(lia)). lia.
Qed.

Lemma waiting_is_bounded_witness :
  rivals (ctl example_queued) 30 0 = [40; 10; 20] /\ (1 <= length (rivals (ctl example_queued) 30 0))%nat.
Proof.
  split; [vm_compute; reflexivity|].
  apply (waiting_is_bounded (fun _ => 0) 2 30 1 example_queued (run_or example_queued [AWorker 0]) 0).
  - exact example_queued_inv.
  - apply (passes_round _ _ _ 0 example_queued (run_or example_queued [AWorker 0]) _ 0 40);
      [vm_compute; reflexivity..|lia|constructor].
  - split; [discriminate|]. split; [exists []; vm_compute; reflexivity|].
    eexists. split; [vm_compute; reflexivity|reflexivity].
  - vm_compute; reflexivity.
Defined.

(** Adding a job to the system foreground queue: a job equal to one that is
    being worked on is dropped; one equal to a queued job is dropped and the queued
    job moves to the top; a new one goes on top, and the queue is cut to 30 jobs. *)
Theorem system_fg_is_bounded_stack c ws rs cl a j
    (Hinv : inv (Sys c ws rs cl)) (Ha : a ∈ cl) (Hj : jobs c !! a = Some j)
    (Hq : queue j = DT_JOB_QUEUE_SYSTEM_FG) :
  exists c' q q', add_job_system_fg c a = Done c' /\
    queues c !! DT_JOB_QUEUE_SYSTEM_FG = Some q /\
    queues c' = <[DT_JOB_QUEUE_SYSTEM_FG := q']> (queues c) /\ fg_outcome c a j q q'.
Proof.
  destruct (add_fg_inv c ws rs cl (without a cl) a j Hinv) as (c' & q & q' & ? & _ & ? & ? & ?); [|done..|].
  - intros x. apply occ_client, (client_once _ _ _ _ _ Hinv Ha).
  - by exists c', q, q'.
Qed.

Definition example_thumb : system :=
  run_or example_queued [ACreate 60 3 "thumb 2"].

Definition example_thumb_job : _dt_job_t := Job 3 [] 0 0 0 DT_JOB_STATE_INITIALIZED 0 1 0 false "thumb 2".

Lemma system_fg_is_bounded_stack_witness :
  exists c' q q',
    add_job_system_fg (put_job 60 example_thumb_job (ctl example_thumb)) 60 = Done c' /\
    queues (ctl example_thumb) !! DT_JOB_QUEUE_SYSTEM_FG = Some q /\
    queues c' = <[DT_JOB_QUEUE_SYSTEM_FG := q']> (queues (ctl example_thumb)) /\
    fg_outcome (put_job 60 example_thumb_job (ctl example_thumb)) 60 example_thumb_job q q'.
Proof.
  apply (system_fg_is_bounded_stack (put_job 60 example_thumb_job (ctl example_thumb))
    (workers example_thumb) (res_workers example_thumb) (clients example_thumb)).
  - apply inv_client; [|vm_compute; left].
    refine (inv_eta _ _). refine (m_reachable (M:=jobs_machine (fun _ => 0)) (Inv:=inv) example_queued example_thumb example_queued_inv _).
    apply (m_run_reachable [ACreate 60 3 "thumb 2"]). vm_compute. reflexivity.
  - vm_compute. left.
  - vm_compute. reflexivity.
  - reflexivity.
Defined.

(** The priority of a waiting job is an unsigned char that wraps: a job passed
    over at priority 255 (as an export can be while another one runs) goes on
    waiting with priority 0. *)
Theorem waiting_priority_wraps c ws rs cl t k a j rest b
    (Hinv : inv (Sys c ws rs cl)) (Ht : ws !! t = Some Idle) (Hhead : queues c !! k = Some (a :: rest))
    (Hj : jobs c !! a = Some j) (Hp : priority j = 255) (Hba : b <> a)
    (Hb : fst <$> (match dt_control_schedule_job c t with Done r => Some r | Undefined => None end)
          = Some (Some b)) :
  exists c' j', dt_control_schedule_job c t = Done (Some b, c') /\
    queues c' !! k = Some (a :: rest) /\ jobs c' !! a = Some j' /\ priority j' = 0.
Proof.
  destruct (schedule_inv c ws rs cl t Hinv Ht) as (r & c' & Hs & Ho & _). rewrite Hs in Hb |- *.
  cbn in Hb. simplify_eq. destruct Ho as (kb & jb & restb & _ & _ & Hqb & Hq' & _ & _ & Hm).
  assert (k <> kb) as Hk by (intros ->; by simplify_eq).
  eexists _, _. split; [done|]. split; [by rewrite Hq', list_lookup_insert_ne|].
  rewrite Hm. unfold aged. rewrite decide_True by (by eapply heads_elem). rewrite Hj. split; [done|].
  cbn. by rewrite Hp.
Qed.

(** A job that is cancelled between the look at its state and its begin runs as if it were
    not: the state is overwritten. *)
Definition example_cancelled : system := run_or example_queued [AWorker 0; AWorker 0; ACancel 40].

Example cancel_is_overwritten :
  workers example_cancelled = [Checked 40; Idle] /\ state <$> jobs (ctl example_cancelled) !! 40 = Some DT_JOB_STATE_CANCELLED /\
  state <$> jobs (ctl (run_or example_cancelled [AWorker 0])) !! 40 = Some DT_JOB_STATE_RUNNING.
Proof. vm_compute. done. Qed.

(** An export is running; the next one was passed over 255 times. *)
Definition example_exporting_acts : list action :=
  [AWorker 0; AWorker 1; AWorker 0; AWorker 0; AWorker 0; AWorker 0; AWorker 0;
   ACreate 60 2 "import 2"; AAddJob 2 60; AWorker 1; AWorker 1; AWorker 1; AWorker 1].

Definition example_exporting : system := run_or example_queued example_exporting_acts.

Definition example_export_job (p : Z) : _dt_job_t :=
  Job 1 [] 0 0 0 DT_JOB_STATE_QUEUED p 3 0 false "export b".

Definition example_export : dt_control_t :=
  put_job 20 (example_export_job 255) (ctl example_exporting).

Lemma example_exporting_inv : inv example_exporting.
Proof.
  refine (m_reachable (M:=jobs_machine (fun _ => 0)) (Inv:=inv) example_queued _ example_queued_inv _).
  apply (m_run_reachable example_exporting_acts). vm_compute. reflexivity.
Qed.

Lemma example_export_inv :
  inv (Sys example_export (workers example_exporting) (res_workers example_exporting)
           (clients example_exporting)).
Proof.
  apply (inv_touch _ _ _ _ (inv_eta _ example_exporting_inv) 20 (example_export_job 0));
    [vm_compute; reflexivity|reflexivity|cbn; lia|done].
Qed.

Lemma waiting_priority_wraps_witness :
  exists c' j', dt_control_schedule_job example_export 1 = Done (Some 60, c') /\
    queues c' !! 3%nat = Some [20] /\ jobs c' !! 20 = Some j' /\ priority j' = 0.
Proof.
  apply (waiting_priority_wraps example_export _ _ _ 1 3 20 (example_export_job 255) [] 60 example_export_inv);
    [vm_compute; reflexivity|vm_compute; reflexivity|vm_compute; reflexivity|reflexivity|lia|vm_compute; reflexivity].
Defined.
