(* ===== verification/Calculator.v ===== *)
(** The calculator of common/calculator.c: the scanner and the recursive-descent
    parser that evaluates a formula in the variable x while it parses.

    Floats are the standard library's specification floats in the binary32 and
    binary64 formats. [g_ascii_strtod], [fmodf] and [powf] are parameters. The
    functions of the parser call each other and loop, so they take fuel; running
    out of it is [None], and [solve_total] shows that the fuel given is enough. *)

From Stdlib Require Import Ascii String.
From Stdlib Require Import SpecFloat.
From S2P Require Import Prelude Floats.
Local Open Scope Z_scope.

(** ** Floats *)

Abbreviation float := spec_float.

Definition NAN : float := S754_nan.

(** The double constant 1.0. *)
Definition one : float := binary_normalize 53 1024 1 0 false.

(** [x + 1.0], [x - 1.0] and [-1.0 * x] in double, assigned to a float. *)
Definition plus_one (x : float) : float := narrow (SFadd 53 1024 (widen x) one).
Definition minus_one (x : float) : float := narrow (SFsub 53 1024 (widen x) one).
Definition negate (x : float) : float := narrow (SFmul 53 1024 (SFopp one) (widen x)).

(** ** Tokens *)

Inductive operators_t :=
  | O_PLUS | O_INC | O_MINUS | O_DEC | O_MULTIPLY | O_DIVISION | O_MODULO | O_POWER
  | O_LEFTROUND | O_RIGHTROUND.

#[global] Instance operators_eq_dec : EqDecision operators_t.
Proof. solve_decision. Defined.

Inductive token_t :=
  | T_NUMBER (number : float)
  | T_OPERATOR (operator : operators_t).

Record parser_state_t := Parser {
  p : string;
  x : float;
  token : option token_t;
}.

Section calculator.
Context (g_ascii_strtod : string -> float * string).
Context (fmodf powf : float -> float -> float).

Definition read_number (s : string) : float * string :=
  let '(d, rest) := g_ascii_strtod s in (narrow d, rest).

Definition is_number_start (c : ascii) : bool :=
  (c =? "0")%char || (c =? "1")%char || (c =? "2")%char || (c =? "3")%char || (c =? "4")%char
  || (c =? "5")%char || (c =? "6")%char || (c =? "7")%char || (c =? "8")%char
  || (c =? "9")%char || (c =? ".")%char || (c =? ",")%char.

(** The next token and the text behind it. *)
Fixpoint get_token (x : float) (s : string) : option token_t * string :=
  match s with
  | EmptyString => (None, s)
  | String c s' =>
      if (c =? " ")%char || (c =? "009")%char then get_token x s'
      else if (c =? "+")%char then
        match s' with
        | String "+" s'' => (Some (T_OPERATOR O_INC), s'')
        | _ => (Some (T_OPERATOR O_PLUS), s')
        end
      else if (c =? "-")%char then
        match s' with
        | String "-" s'' => (Some (T_OPERATOR O_DEC), s'')
        | _ => (Some (T_OPERATOR O_MINUS), s')
        end
      else if (c =? "*")%char then (Some (T_OPERATOR O_MULTIPLY), s')
      else if (c =? "/")%char then (Some (T_OPERATOR O_DIVISION), s')
      else if (c =? "%")%char then (Some (T_OPERATOR O_MODULO), s')
      else if (c =? "^")%char then (Some (T_OPERATOR O_POWER), s')
      else if (c =? "(")%char then (Some (T_OPERATOR O_LEFTROUND), s')
      else if (c =? ")")%char then (Some (T_OPERATOR O_RIGHTROUND), s')
      else if (c =? "x")%char || (c =? "X")%char then (Some (T_NUMBER x), s')
      else if is_number_start c then
        let '(n, rest) := read_number s in (Some (T_NUMBER n), rest)
      else get_token x s'
  end.

(** [free(self->token); self->token = get_token(self);] *)
Definition advance (self : parser_state_t) : parser_state_t :=
  let '(t, rest) := get_token (x self) (p self) in Parser rest (x self) t.

(** ** The parser *)

Definition result : Type := option (float * parser_state_t).

Definition and_then (r : result) (f : float -> parser_state_t -> result) : result :=
  match r with
  | Some (v, self) => f v self
  | None => None
  end.

Section levels.
(** The parser of unary expressions, and the fuel of the loops. *)
Context (parse_unary_expression : parser_state_t -> result) (fuel : nat).

Fixpoint power_loop (k : nat) (left : float) (self : parser_state_t) : result :=
  match k with
  | O => None
  | S k =>
      match token self with
      | Some (T_OPERATOR O_POWER) =>
          and_then (parse_unary_expression (advance self)) (fun right self =>
            power_loop k (powf left right) self)
      | _ => Some (left, self)
      end
  end.

Definition parse_power_expression (self : parser_state_t) : result :=
  match token self with
  | None => Some (NAN, self)
  | Some _ => and_then (parse_unary_expression self) (power_loop fuel)
  end.

Definition mul_operation (op : operators_t) : option (float -> float -> float) :=
  match op with
  | O_MULTIPLY => Some (SFmul 24 128)
  | O_DIVISION => Some (SFdiv 24 128)
  | O_MODULO => Some fmodf
  | _ => None
  end.

Fixpoint multiplicative_loop (k : nat) (left : float) (self : parser_state_t) : result :=
  match k with
  | O => None
  | S k =>
      match token self with
      | Some (T_OPERATOR op) =>
          match mul_operation op with
          | None => Some (left, self)
          | Some f =>
              and_then (parse_power_expression (advance self)) (fun right self =>
                multiplicative_loop k (f left right) self)
          end
      | _ => Some (left, self)
      end
  end.

Definition parse_multiplicative_expression (self : parser_state_t) : result :=
  match token self with
  | None => Some (NAN, self)
  | Some _ => and_then (parse_power_expression self) (multiplicative_loop fuel)
  end.

Definition add_operation (op : operators_t) : option (float -> float -> float) :=
  match op with
  | O_PLUS => Some (SFadd 24 128)
  | O_MINUS => Some (SFsub 24 128)
  | _ => None
  end.

Fixpoint additive_loop (k : nat) (left : float) (self : parser_state_t) : result :=
  match k with
  | O => None
  | S k =>
      match token self with
      | Some (T_OPERATOR op) =>
          match add_operation op with
          | None => Some (left, self)
          | Some f =>
              and_then (parse_multiplicative_expression (advance self)) (fun right self =>
                additive_loop k (f left right) self)
          end
      | _ => Some (left, self)
      end
  end.

Definition parse_additive_expression (self : parser_state_t) : result :=
  match token self with
  | None => Some (NAN, self)
  | Some _ => and_then (parse_multiplicative_expression self) (additive_loop fuel)
  end.

Definition parse_expression (self : parser_state_t) : result := parse_additive_expression self.

Definition parse_primary_expression (self : parser_state_t) : result :=
  match token self with
  | None => Some (NAN, self)
  | Some (T_NUMBER n) => Some (n, advance self)
  | Some (T_OPERATOR O_LEFTROUND) =>
      and_then (parse_expression (advance self)) (fun result self =>
        match token self with
        | Some (T_OPERATOR O_RIGHTROUND) => Some (result, advance self)
        | _ => Some (NAN, self)
        end)
  | Some (T_OPERATOR _) => Some (NAN, self)
  end.

End levels.

Fixpoint parse_unary_expression (fuel : nat) (self : parser_state_t) : result :=
  match fuel with
  | O => None
  | S fuel =>
      match token self with
      | None => Some (NAN, self)
      | Some (T_OPERATOR O_MINUS) =>
          and_then (parse_unary_expression fuel (advance self)) (fun v self => Some (negate v, self))
      | Some (T_OPERATOR O_PLUS) => parse_unary_expression fuel (advance self)
      | Some _ => parse_primary_expression (parse_unary_expression fuel) fuel self
      end
  end.

(** [g_strdelimit(dotformula, ",", '.')] *)
Fixpoint commas_to_dots (s : string) : string :=
  match s with
  | EmptyString => s
  | String c s => String (if (c =? ",")%char then "."%char else c) (commas_to_dots s)
  end.

(** A NULL formula is [None]. *)
Definition dt_calculator_solve (x : float) (formula : option string) : option float :=
  match formula with
  | None | Some EmptyString => Some NAN
  | Some formula =>
      let self := advance (Parser (commas_to_dots formula) x None) in
      match token self with
      | Some (T_OPERATOR O_INC) => Some (plus_one x)
      | Some (T_OPERATOR O_DEC) => Some (minus_one x)
      | _ =>
          let fuel := S (S (String.length formula)) in
          match parse_expression (parse_unary_expression fuel) fuel self with
          | Some (result, self) =>
              Some (match token self with Some _ => NAN | None => result end)
          | None => None
          end
      end
  end.

(** ** Termination *)

(** What g_ascii_strtod does to its end pointer: it never moves it backwards. *)
Definition strtod_forward : Prop :=
  forall s, (String.length (snd (g_ascii_strtod s)) <= String.length s)%nat.

(** What is left to parse: an operator that has been read still counts. *)
Definition size (self : parser_state_t) : nat :=
  String.length (p self) +
  match token self with Some (T_OPERATOR _) => 1 | _ => 0 end.

Section termination.
Context (Hfwd : strtod_forward).

Lemma get_token_size y s :
  let '(t, rest) := get_token y s in
  match t with
  | Some (T_OPERATOR _) => (String.length rest < String.length s)%nat
  | _ => (String.length rest <= String.length s)%nat
  end.
Proof using Hfwd.
  induction s as [|c s IH]; [cbn; lia|]. cbn [get_token].
  assert (match get_token y s with (t, rest) => match t with
    | Some (T_OPERATOR _) => (String.length rest < String.length (String c s))%nat
    | _ => (String.length rest <= String.length (String c s))%nat end end) as IH'.
  { destruct (get_token y s) as [[[|]|] r]; cbn; lia. }
  repeat match goal with |- context [if ?b then _ else _] => destruct b end; try exact IH'; cbn; try lia.
  - destruct s as [|[[] [] [] [] [] [] [] []] s]; cbn; lia.
  - destruct s as [|[[] [] [] [] [] [] [] []] s]; cbn; lia.
  - unfold read_number. specialize (Hfwd (String c s)). destruct (g_ascii_strtod _). exact Hfwd.
Qed.

Lemma advance_size self : (size (advance self) <= String.length (p self))%nat.
Proof using Hfwd.
  unfold advance, size. pose proof (get_token_size (x self) (p self)) as H.
  destruct (get_token _ _) as [[[|]|] r]; cbn in *; lia.
Qed.

Lemma advance_le self : (size (advance self) <= size self)%nat.
Proof using Hfwd. pose proof (advance_size self). unfold size at 2. lia. Qed.

Lemma advance_operator self op :
  token self = Some (T_OPERATOR op) -> (size (advance self) < size self)%nat.
Proof using Hfwd. intros H. pose proof (advance_size self). unfold size at 2. rewrite H. lia. Qed.

(** A parser that returns on every state of size below [n], without going back. *)
Definition total_below (n : nat) (f : parser_state_t -> result) : Prop :=
  forall self, (size self < n)%nat ->
    exists v self', f self = Some (v, self') /\ (size self' <= size self)%nat.

(** The same for the loop that follows a first operand. *)
Definition loop_total (loop : nat -> float -> parser_state_t -> result) (n : nat) : Prop :=
  forall k left self, (size self < k)%nat -> (size self < n)%nat ->
    exists v self', loop k left self = Some (v, self') /\ (size self' <= size self)%nat.

Lemma power_loop_total n u : total_below n u -> loop_total (power_loop u) n.
Proof using Hfwd.
  intros Hu k. induction k as [|k IH]; intros left self Hk Hn; [lia|]. cbn [power_loop].
  destruct (token self) as [[?|op]|] eqn:Ht; [by do 2 eexists|destruct op; try by do 2 eexists|by do 2 eexists].
  pose proof (advance_operator self _ Ht) as Hadv.
  destruct (Hu (advance self)) as (v & s & -> & Hs); [lia|]. cbn.
  destruct (IH (powf left v) s) as (v' & s' & -> & Hs'); [lia..|]. do 2 eexists. split; [done|lia].
Qed.

Lemma level_total n fuel f loop self :
  total_below n f -> loop_total loop n -> (n <= fuel)%nat -> (size self < n)%nat ->
  exists v self', match token self with
                  | None => Some (NAN, self)
                  | Some _ => and_then (f self) (loop fuel)
                  end = Some (v, self') /\ (size self' <= size self)%nat.
Proof using Hfwd.
  intros Hf Hl Hn Hs. destruct (token self); [|by do 2 eexists].
  destruct (Hf self Hs) as (v & s & -> & Hs1). cbn.
  destruct (Hl fuel v s) as (v' & s' & -> & Hs2); [lia..|]. do 2 eexists. split; [done|lia].
Qed.

Lemma power_total n u : total_below n u -> total_below n (parse_power_expression u n).
Proof using Hfwd.
  intros Hu self Hs. apply (level_total n n u (power_loop u)); [done|by apply power_loop_total|lia|done].
Qed.

Lemma mul_loop_total n u : total_below n u -> loop_total (multiplicative_loop u n) n.
Proof using Hfwd.
  intros Hu k. induction k as [|k IH]; intros left self Hk Hn; [lia|]. cbn [multiplicative_loop].
  destruct (token self) as [[?|op]|] eqn:Ht; [by do 2 eexists| |by do 2 eexists].
  destruct (mul_operation op) as [f|]; [|by do 2 eexists].
  pose proof (advance_operator self _ Ht) as Hadv.
  destruct (power_total n u Hu (advance self)) as (v & s & -> & Hs); [lia|]. cbn.
  destruct (IH (f left v) s) as (v' & s' & -> & Hs'); [lia..|]. do 2 eexists. split; [done|lia].
Qed.

Lemma mul_total n u : total_below n u -> total_below n (parse_multiplicative_expression u n).
Proof using Hfwd.
  intros Hu self Hs. apply (level_total n n (parse_power_expression u n) (multiplicative_loop u n));
    [by apply power_total|by apply mul_loop_total|lia|done].
Qed.

Lemma add_loop_total n u : total_below n u -> loop_total (additive_loop u n) n.
Proof using Hfwd.
  intros Hu k. induction k as [|k IH]; intros left self Hk Hn; [lia|]. cbn [additive_loop].
  destruct (token self) as [[?|op]|] eqn:Ht; [by do 2 eexists| |by do 2 eexists].
  destruct (add_operation op) as [f|]; [|by do 2 eexists].
  pose proof (advance_operator self _ Ht) as Hadv.
  destruct (mul_total n u Hu (advance self)) as (v & s & -> & Hs); [lia|]. cbn.
  destruct (IH (f left v) s) as (v' & s' & -> & Hs'); [lia..|]. do 2 eexists. split; [done|lia].
Qed.

Lemma expression_total n u : total_below n u -> total_below n (parse_expression u n).
Proof using Hfwd.
  intros Hu self Hs. apply (level_total n n (parse_multiplicative_expression u n) (additive_loop u n));
    [by apply mul_total|by apply add_loop_total|lia|done].
Qed.

Lemma primary_total n u self :
  total_below n u -> (size self <= n)%nat ->
  exists v self', parse_primary_expression u n self = Some (v, self') /\ (size self' <= size self)%nat.
Proof using Hfwd.
  intros Hu Hs. unfold parse_primary_expression. pose proof (advance_le self) as Hle.
  destruct (token self) as [[v|op]|] eqn:Ht; [by do 2 eexists| |by do 2 eexists].
  destruct op; try by do 2 eexists. pose proof (advance_operator self _ Ht) as Hadv.
  destruct (expression_total n u Hu (advance self)) as (v & s & -> & Hs1); [lia|]. cbn.
  pose proof (advance_le s). destruct (token s) as [[?|op]|]; [|destruct op|]; do 2 eexists; (split; [done|lia]).
Qed.

Lemma unary_total n : total_below n (parse_unary_expression n).
Proof using Hfwd.
  induction n as [|n IH]; intros self Hs; [lia|]. cbn [parse_unary_expression].
  destruct (token self) as [[v|op]|] eqn:Ht; [apply primary_total; [done|lia]| |by do 2 eexists].
  pose proof (advance_operator self op Ht) as Hadv.
  destruct op; try (apply primary_total; [done|lia]).
  - destruct (IH (advance self)) as (v & s & -> & Hs1); [lia|]. do 2 eexists. split; [done|lia].
  - destruct (IH (advance self)) as (v & s & -> & Hs1); [lia|]. do 2 eexists. split; [done|lia].
Qed.

End termination.

(** ** The language the calculator understands *)

(** Formulas with the structure the parser gives them; a literal comes with the
    value that g_ascii_strtod reads. *)
Inductive expr :=
  | EX
  | ENum (literal : string) (value : float)
  | ENeg (e : expr)
  | EPos (e : expr)
  | EParen (e : expr)
  | EPow (e1 e2 : expr)
  | EMul (op : operators_t) (e1 e2 : expr)
  | EAdd (op : operators_t) (e1 e2 : expr).

Definition apply_op (f : option (float -> float -> float)) (a b : float) : float :=
  match f with Some f => f a b | None => NAN end.

Fixpoint eval (x : float) (e : expr) : float :=
  match e with
  | EX => x
  | ENum _ v => v
  | ENeg e => negate (eval x e)
  | EPos e | EParen e => eval x e
  | EPow a b => powf (eval x a) (eval x b)
  | EMul op a b => apply_op (mul_operation op) (eval x a) (eval x b)
  | EAdd op a b => apply_op (add_operation op) (eval x a) (eval x b)
  end.

(** A lexeme: what is written for a token. *)
Inductive lexeme := LX | LNum (literal : string) (value : float) | LOp (op : operators_t).

(** Written with the parentheses that the structure needs, and those of [EParen]: sums are level 0, products 1, powers 2,
    unary expressions 3. All binary operators associate to the left. *)
Definition parens (need : bool) (ls : list lexeme) : list lexeme :=
  if need then LOp O_LEFTROUND :: ls ++ [LOp O_RIGHTROUND] else ls.

Fixpoint print (level : nat) (e : expr) : list lexeme :=
  match e with
  | EX => [LX]
  | ENum l v => [LNum l v]
  | ENeg e => LOp O_MINUS :: print 3 e
  | EPos e => LOp O_PLUS :: print 3 e
  | EParen e => parens true (print 0 e)
  | EPow a b => parens (2 <? level)%nat (print 2 a ++ LOp O_POWER :: print 3 b)
  | EMul op a b => parens (1 <? level)%nat (print 1 a ++ LOp op :: print 2 b)
  | EAdd op a b => parens (0 <? level)%nat (print 0 a ++ LOp op :: print 1 b)
  end.

Fixpoint well_formed (e : expr) : Prop :=
  match e with
  | EX | ENum _ _ => True
  | ENeg e | EPos e | EParen e => well_formed e
  | EPow a b => well_formed a /\ well_formed b
  | EMul op a b => is_Some (mul_operation op) /\ well_formed a /\ well_formed b
  | EAdd op a b => is_Some (add_operation op) /\ well_formed a /\ well_formed b
  end.

Definition token_of (y : float) (l : lexeme) : token_t :=
  match l with
  | LX => T_NUMBER y
  | LNum _ v => T_NUMBER v
  | LOp op => T_OPERATOR op
  end.

(** The state in which the lexemes [ls] are still to be parsed. *)
Fixpoint reads (y : float) (ls : list lexeme) (self : parser_state_t) : Prop :=
  match ls with
  | [] => token self = None
  | l :: ls => token self = Some (token_of y l) /\ reads y ls (advance self)
  end.

(** The next lexeme cannot continue a power, a product, a sum. *)
Definition no_power (ls : list lexeme) : Prop := head ls <> Some (LOp O_POWER).
Definition no_mul (ls : list lexeme) : Prop :=
  no_power ls /\ forall op, head ls = Some (LOp op) -> mul_operation op = None.
Definition no_add (ls : list lexeme) : Prop :=
  no_mul ls /\ forall op, head ls = Some (LOp op) -> add_operation op = None.

Section correctness.
Context (y : float).
Abbreviation unary := parse_unary_expression.

(** [e] is read at the level of unary expressions; as the first operand of a
    power, of a product, of a sum: the parser gets to the loop with the value of [e]
    and [rest] to read. *)
Definition reads_unary (e : expr) : Prop :=
  forall n self rest, (length (print 3 e) + length rest < n)%nat ->
    reads y (print 3 e ++ rest) self ->
    exists self', unary n self = Some (eval y e, self') /\ reads y rest self'.

Definition reads_level (level : nat) (first : nat -> parser_state_t -> result)
    (loop : nat -> nat -> float -> parser_state_t -> result)
    (ok : list lexeme -> Prop) (e : expr) : Prop :=
  forall n k self rest, (length (print level e) + length rest < n)%nat ->
    (length (print level e) + length rest < k)%nat -> ok rest ->
    reads y (print level e ++ rest) self ->
    exists self' k', and_then (first n self) (loop n k) = loop n k' (eval y e) self' /\
      reads y rest self' /\ (length rest < k')%nat.

Definition reads_power : expr -> Prop :=
  reads_level 2 (fun n => unary n) (fun n => power_loop (unary n)) (fun _ => True).
Definition reads_mul : expr -> Prop :=
  reads_level 1 (fun n => parse_power_expression (unary n) n)
    (fun n => multiplicative_loop (unary n) n) no_power.
Definition reads_add : expr -> Prop :=
  reads_level 0 (fun n => parse_multiplicative_expression (unary n) n)
    (fun n => additive_loop (unary n) n) no_mul.

Lemma reads_token ls self : reads y ls self -> token self = token_of y <$> head ls.
Proof using. clear. destruct ls; cbn; tauto. Qed.

Lemma print_nonempty level e : exists l ls, print level e = l :: ls.
Proof using.
  clear. revert level. induction e; intros level; cbn [print]; [eauto..| | | |]; [unfold parens; eauto|..];
    match goal with |- context [parens ?b _] => destruct b end; unfold parens; eauto.
  - destruct (IHe1 2%nat) as (? & ? & ->). cbn. eauto.
  - destruct (IHe1 1%nat) as (? & ? & ->). cbn. eauto.
  - destruct (IHe1 0%nat) as (? & ? & ->). cbn. eauto.
Qed.

Lemma reads_Some level e rest self :
  reads y (print level e ++ rest) self -> exists t, token self = Some t.
Proof using.
  clear. destruct (print_nonempty level e) as (l & ls & ->). cbn. intros [-> _]. eauto.
Qed.

Lemma print_head level e :
  exists l ls, print level e = l :: ls /\ l <> LOp O_INC /\ l <> LOp O_DEC.
Proof using.
  clear. assert (forall b ls ls', (exists l k, ls = l :: k /\ l <> LOp O_INC /\ l <> LOp O_DEC) ->
    exists l k, parens b (ls ++ ls') = l :: k /\ l <> LOp O_INC /\ l <> LOp O_DEC) as Hb.
  { intros [] ls ls' (l & k & -> & H); unfold parens; cbn [app]; do 2 eexists; (split; [done|]); done. }
  revert level. induction e; intros level; cbn [print]; try (by do 2 eexists); apply Hb; auto.
Qed.

(** From one level to the next. *)
Lemma unary_power e : reads_unary e -> print 2 e = print 3 e -> reads_power e.
Proof using.
  clear. intros Hu Hp n k self rest Hn Hk _ Hr. rewrite Hp in *.
  destruct (Hu n self rest Hn Hr) as (self' & -> & Hr'). exists self', k. split; [done|]. split; [done|lia].
Qed.

Lemma power_done n k v rest self :
  reads y rest self -> no_power rest -> (0 < k)%nat ->
  power_loop (unary n) k v self = Some (v, self).
Proof using.
  clear. intros Hr Hno Hk. destruct k as [|k]; [lia|]. cbn. rewrite (reads_token _ _ Hr).
  destruct rest as [|[| |[]] rest]; done.
Qed.

Lemma power_mul e : reads_power e -> print 1 e = print 2 e -> reads_mul e.
Proof using.
  clear. intros Hu Hp n k self rest Hn Hk Hno Hr. rewrite Hp in *.
  destruct (reads_Some 2 e rest self Hr) as [t Ht]. unfold parse_power_expression. rewrite Ht.
  destruct (Hu n n self rest Hn Hn I Hr) as (self' & k' & -> & Hr' & Hk').
  rewrite (power_done n k' _ rest); [|done..|lia]. exists self', k. split; [done|]. split; [done|lia].
Qed.

Lemma mul_done n k v rest self :
  reads y rest self -> no_mul rest -> (0 < k)%nat ->
  multiplicative_loop (unary n) n k v self = Some (v, self).
Proof using.
  clear. intros Hr [_ Hno] Hk. destruct k as [|k]; [lia|]. cbn. rewrite (reads_token _ _ Hr).
  destruct rest as [|[| |op] rest]; try done. cbn. by rewrite (Hno op eq_refl).
Qed.

Lemma mul_add e : reads_mul e -> print 0 e = print 1 e -> reads_add e.
Proof using.
  clear. intros Hu Hp n k self rest Hn Hk Hno Hr. rewrite Hp in *.
  destruct (reads_Some 1 e rest self Hr) as [t Ht]. unfold parse_multiplicative_expression. rewrite Ht.
  destruct (Hu n n self rest Hn Hn (proj1 Hno) Hr) as (self' & k' & -> & Hr' & Hk').
  rewrite (mul_done n k' _ rest); [|done..|lia]. exists self', k. split; [done|]. split; [done|lia].
Qed.

Lemma add_done n k v rest self :
  reads y rest self -> no_add rest -> (0 < k)%nat ->
  additive_loop (unary n) n k v self = Some (v, self).
Proof using.
  clear. intros Hr [_ Hno] Hk. destruct k as [|k]; [lia|]. cbn. rewrite (reads_token _ _ Hr).
  destruct rest as [|[| |op] rest]; try done. cbn. by rewrite (Hno op eq_refl).
Qed.

Lemma expression_reads e n self rest :
  reads_add e -> (length (print 0 e) + length rest < n)%nat -> no_add rest ->
  reads y (print 0 e ++ rest) self ->
  exists self', parse_expression (unary n) n self = Some (eval y e, self') /\ reads y rest self'.
Proof using.
  clear. intros He Hn Hno Hr. destruct (reads_Some 0 e rest self Hr) as [t Ht].
  unfold parse_expression, parse_additive_expression. rewrite Ht.
  destruct (He n n self rest Hn Hn (proj1 Hno) Hr) as (self' & k' & -> & Hr' & Hk').
  rewrite (add_done n k' _ rest); [|done..|lia]. eauto.
Qed.

Lemma paren_unary e e' : reads_add e -> print 3 e' = parens true (print 0 e) -> eval y e' = eval y e -> reads_unary e'.
Proof using.
  clear. intros He Hp Hv n self rest Hn Hr. rewrite Hv. rewrite Hp in *. unfold parens in *. cbn in Hn, Hr.
  rewrite length_app in Hn. cbn in Hn. destruct Hr as [Ht Hr]. rewrite <- app_assoc in Hr. cbn in Hr.
  destruct n as [|n]; [lia|]. cbn [parse_unary_expression]. rewrite Ht.
  unfold parse_primary_expression. rewrite Ht.
  destruct (expression_reads e n (advance self) (LOp O_RIGHTROUND :: rest) He) as (s & -> & Hs);
    [cbn; lia| |done|].
  { repeat split; [done|..]; by intros op [= <-]. }
  cbn. destruct Hs as [-> Hs]. eauto.
Qed.

Lemma add_unary e : reads_add e -> print 3 e = parens true (print 0 e) -> reads_unary e.
Proof using. clear. intros He Hp. by apply (paren_unary e). Qed.

(** The binary operators. *)
Lemma reads_pow a b : reads_power a -> reads_unary b -> reads_power (EPow a b).
Proof using.
  clear. intros Ha Hb n k self rest Hn Hk _ Hr. cbn [print parens Nat.ltb Nat.leb] in *.
  rewrite length_app in Hn, Hk. cbn in Hn, Hk. rewrite <- app_assoc in Hr. cbn [app] in Hr.
  destruct (Ha n k self (LOp O_POWER :: print 3 b ++ rest)) as (s1 & k1 & -> & [Ht Hr1] & Hk1);
    [cbn; rewrite length_app; lia|cbn; rewrite length_app; lia|done|exact Hr|].
  cbn in Hk1. rewrite length_app in Hk1. destruct k1 as [|k1]; [lia|]. cbn [power_loop]. rewrite Ht. cbn.
  destruct (Hb n (advance s1) rest) as (s2 & -> & Hr2); [lia|done|]. cbn.
  exists s2, k1. split; [done|]. split; [done|lia].
Qed.

Lemma reads_product op a b :
  is_Some (mul_operation op) -> reads_mul a -> reads_power b -> reads_mul (EMul op a b).
Proof using.
  clear. intros [f Hf] Ha Hb n k self rest Hn Hk Hno Hr. cbn [print parens Nat.ltb Nat.leb] in *.
  rewrite length_app in Hn, Hk. cbn in Hn, Hk. rewrite <- app_assoc in Hr. cbn [app] in Hr.
  destruct (Ha n k self (LOp op :: print 2 b ++ rest)) as (s1 & k1 & -> & [Ht Hr1] & Hk1);
    [cbn; rewrite length_app; lia|cbn; rewrite length_app; lia|by intros [= ->]|exact Hr|].
  cbn in Hk1. rewrite length_app in Hk1. destruct k1 as [|k1]; [lia|]. cbn [multiplicative_loop].
  rewrite Ht. cbn [token_of]. rewrite Hf.
  destruct (reads_Some 2 b rest _ Hr1) as [t Ht1]. unfold parse_power_expression at 1. rewrite Ht1.
  destruct (Hb n n (advance s1) rest) as (s2 & k2 & -> & Hr2 & Hk2); [lia|lia|done|done|].
  rewrite (power_done n k2 _ rest); [|done..|lia]. cbn. rewrite Hf.
  exists s2, k1. split; [done|]. split; [done|lia].
Qed.

Lemma reads_sum op a b :
  is_Some (add_operation op) -> reads_add a -> reads_mul b -> reads_add (EAdd op a b).
Proof using.
  clear. intros [f Hf] Ha Hb n k self rest Hn Hk Hno Hr. cbn [print parens Nat.ltb Nat.leb] in *.
  rewrite length_app in Hn, Hk. cbn in Hn, Hk. rewrite <- app_assoc in Hr. cbn [app] in Hr.
  destruct (Ha n k self (LOp op :: print 1 b ++ rest)) as (s1 & k1 & -> & [Ht Hr1] & Hk1);
    [cbn; rewrite length_app; lia|cbn; rewrite length_app; lia| |exact Hr|].
  { destruct op; try done; (split; [done|by intros op [= <-]]). }
  cbn in Hk1. rewrite length_app in Hk1. destruct k1 as [|k1]; [lia|]. cbn [additive_loop].
  rewrite Ht. cbn [token_of]. rewrite Hf.
  destruct (reads_Some 1 b rest _ Hr1) as [t Ht1]. unfold parse_multiplicative_expression at 1. rewrite Ht1.
  destruct (Hb n n (advance s1) rest) as (s2 & k2 & -> & Hr2 & Hk2); [lia|lia|apply Hno|done|].
  rewrite (mul_done n k2 _ rest); [|done..|lia]. cbn. rewrite Hf.
  exists s2, k1. split; [done|]. split; [done|lia].
Qed.

(** Unary expressions. *)
Lemma reads_atom e l :
  print 3 e = [l] -> token_of y l = T_NUMBER (eval y e) -> reads_unary e.
Proof using.
  clear. intros Hp Ht n self rest Hn Hr. rewrite Hp in *. destruct Hr as [Htok Hr]. cbn in Hn.
  destruct n as [|n]; [lia|]. cbn [parse_unary_expression]. rewrite Htok, Ht.
  unfold parse_primary_expression. rewrite Htok, Ht. eauto.
Qed.

Lemma reads_neg e : reads_unary e -> reads_unary (ENeg e).
Proof using.
  clear. intros He n self rest Hn Hr. cbn in Hn, Hr. destruct Hr as [Ht Hr].
  destruct n as [|n]; [lia|]. cbn [parse_unary_expression]. rewrite Ht. cbn.
  destruct (He n (advance self) rest) as (s & -> & Hs); [lia|done|]. cbn. eauto.
Qed.

Lemma reads_pos e : reads_unary e -> reads_unary (EPos e).
Proof using.
  clear. intros He n self rest Hn Hr. cbn in Hn, Hr. destruct Hr as [Ht Hr].
  destruct n as [|n]; [lia|]. cbn [parse_unary_expression]. rewrite Ht. cbn.
  destruct (He n (advance self) rest) as (s & -> & Hs); [lia|done|]. eauto.
Qed.

Lemma reads_all e :
  well_formed e -> reads_unary e /\ reads_power e /\ reads_mul e /\ reads_add e.
Proof using.
  clear.
  assert (forall e, print 0 e = print 1 e -> print 1 e = print 2 e -> print 2 e = print 3 e ->
    reads_unary e -> reads_unary e /\ reads_power e /\ reads_mul e /\ reads_add e) as Hup.
  { intros e' H0 H1 H2 Hu. pose proof (unary_power e' Hu H2) as Hp.
    pose proof (power_mul e' Hp H1) as Hm. pose proof (mul_add e' Hm H0) as Ha. done. }
  induction e as [|l v|e IH|e IH|e IH|a IHa b IHb|op a IHa b IHb|op a IHa b IHb]; cbn [well_formed].
  - intros _. apply Hup; [done..|]. by apply (reads_atom EX LX).
  - intros _. apply Hup; [done..|]. by apply (reads_atom (ENum l v) (LNum l v)).
  - intros (Hu & _)%IH. apply Hup; [done..|]. by apply reads_neg.
  - intros (Hu & _)%IH. apply Hup; [done..|]. by apply reads_pos.
  - intros (_ & _ & _ & Ha)%IH. apply Hup; [done..|]. by apply (paren_unary e).
  - intros [(_ & Ha & _)%IHa (Hb & _)%IHb]. pose proof (reads_pow a b Ha Hb) as Hp.
    pose proof (power_mul _ Hp eq_refl) as Hm. pose proof (mul_add _ Hm eq_refl) as Hs.
    split_and!; [by apply add_unary|done..].
  - intros (Hop & (_ & _ & Ha & _)%IHa & (_ & Hb & _)%IHb). pose proof (reads_product op a b Hop Ha Hb) as Hm.
    pose proof (mul_add _ Hm eq_refl) as Hs. pose proof (add_unary _ Hs eq_refl) as Hu.
    split_and!; [done|by apply unary_power|done..].
  - intros (Hop & (_ & _ & _ & Ha)%IHa & (_ & _ & Hb & _)%IHb). pose proof (reads_sum op a b Hop Ha Hb) as Hs.
    pose proof (add_unary _ Hs eq_refl) as Hu. pose proof (unary_power _ Hu eq_refl) as Hp.
    pose proof (power_mul _ Hp eq_refl) as Hm. done.
Qed.

End correctness.

(** ** Lexemes as text *)

Definition operator_text (op : operators_t) : string :=
  match op with
  | O_PLUS => "+" | O_INC => "++" | O_MINUS => "-" | O_DEC => "--" | O_MULTIPLY => "*"
  | O_DIVISION => "/" | O_MODULO => "%" | O_POWER => "^" | O_LEFTROUND => "(" | O_RIGHTROUND => ")"
  end.

(** Characters that the scanner passes over: blanks, and whatever begins no token. *)
Definition ignored (c : ascii) : bool :=
  negb ((c =? "+")%char || (c =? "-")%char || (c =? "*")%char || (c =? "/")%char || (c =? "%")%char || (c =? "^")%char
    || (c =? "(")%char || (c =? ")")%char || (c =? "x")%char || (c =? "X")%char || is_number_start c).

Definition starts_with (c : ascii) (s : string) : Prop := exists s', s = String c s'.

(** Two signs of the same kind that follow each other are one token, unless something is
    between them. *)
Definition separate (op : operators_t) (s : string) : Prop :=
  match op with
  | O_PLUS => ~ starts_with "+" s
  | O_MINUS => ~ starts_with "-" s
  | _ => True
  end.

(** [lit], with [s] behind it, is a literal that is read as [v]. *)
Definition literal_before (lit : string) (v : float) (s : string) : Prop :=
  (exists c s', lit = String c s' /\ is_number_start c = true) /\ read_number (lit ++ s) = (v, s).

(** The texts that spell a list of lexemes: with any ignored characters around them, or
    none where two lexemes stay apart without. *)
Inductive spells : list lexeme -> string -> Prop :=
  | spells_nil : spells [] ""
  | spells_ignored c ls s : ignored c = true -> spells ls s -> spells ls (String c s)
  | spells_x c ls s : c = "x"%char \/ c = "X"%char -> spells ls s -> spells (LX :: ls) (String c s)
  | spells_num lit v ls s : literal_before lit v s -> spells ls s -> spells (LNum lit v :: ls) (lit ++ s)
  | spells_op op ls s : separate op s -> spells ls s -> spells (LOp op :: ls) (operator_text op ++ s).

Lemma get_token_ignored y c s : ignored c = true -> get_token y (String c s) = get_token y s.
Proof.
  unfold ignored. intros Hc%negb_true_iff. repeat (apply orb_false_elim in Hc as [Hc ?]). cbn [get_token].
  repeat match goal with H : _ = false |- _ => rewrite H; clear H end.
  by destruct (_ || _).
Qed.

Lemma get_token_literal y lit v s : literal_before lit v s -> get_token y (lit ++ s) = (Some (T_NUMBER v), s).
Proof.
  intros [(c & s' & -> & Hc) Hread]. cbn [String.append] in *.
  assert (get_token y (String c (s' ++ s)) = let '(n, rest) := read_number (String c (s' ++ s)) in (Some (T_NUMBER n), rest)) as ->.
  { unfold is_number_start in Hc. repeat (apply orb_prop in Hc as [Hc|Hc]);
      apply Ascii.eqb_eq in Hc; by subst. }
  by rewrite Hread.
Qed.

Lemma get_token_operator y op s : separate op s -> get_token y (operator_text op ++ s) = (Some (T_OPERATOR op), s).
Proof.
  intros Hs. destruct op; try done; cbn in Hs |- *;
    (destruct s as [|[[] [] [] [] [] [] [] []] s]; try done; by exfalso; apply Hs; eexists).
Qed.

Lemma spells_reads y ls s t : spells ls s -> reads y ls (advance (Parser s y t)).
Proof.
  intros Hs. revert t. induction Hs as [|c ls s Hc _ IH|c ls s Hc _ IH|lit v ls s Hl _ IH|op ls s Hop _ IH]; intros t; [done|..].
  - unfold advance in *. cbn [p x] in *. rewrite get_token_ignored by done. apply IH. exact t.
  - split; [by destruct Hc as [-> | ->]|]. specialize (IH (Some (T_NUMBER y))).
    by destruct Hc as [-> | ->].
  - cbn [reads]. assert (advance (Parser (lit ++ s) y t) = Parser s y (Some (T_NUMBER v))) as ->
      by (unfold advance; cbn [p x]; by rewrite (get_token_literal y lit v s Hl)). split; [done|apply IH].
  - cbn [reads]. assert (advance (Parser (operator_text op ++ s) y t) = Parser s y (Some (T_OPERATOR op))) as ->
      by (unfold advance; cbn [p x]; by rewrite get_token_operator). split; [done|apply IH].
Qed.

Lemma spells_length ls s : spells ls s -> (length ls <= String.length s)%nat.
Proof.
  induction 1 as [|c ls s Hc _ IH|c ls s Hc _ IH|lit v ls s Hl _ IH|op ls s Hop _ IH]; cbn in *; [lia..| |];
    rewrite str_length_app.
  - destruct Hl as [(c & s' & -> & _) _]. cbn. lia.
  - destruct op; cbn; lia.
Qed.

Lemma commas_length s : String.length (commas_to_dots s) = String.length s.
Proof. induction s; cbn; congruence. Qed.

(** ** Properties *)

(** The calculator always returns a value: no formula makes the scanner or the
    parser run forever, however g_ascii_strtod reads numbers, as long as it does
    not move backwards. *)
Theorem solve_total (Hfwd : strtod_forward) y formula :
  exists v, dt_calculator_solve y formula = Some v.
Proof.
  destruct formula as [[|c s]|]; [by eexists| |by eexists]. cbn [dt_calculator_solve].
  set (self := advance _). set (fuel := S (S _)).
  assert (size self < fuel)%nat as Hsize.
  { pose proof (advance_size Hfwd (Parser (commas_to_dots (String c s)) y None)) as H.
    cbn [p] in H. rewrite commas_length in H. unfold self, fuel. lia. }
  destruct (expression_total Hfwd fuel _ (unary_total Hfwd fuel) self Hsize) as (v & s' & -> & _).
  destruct (token self) as [[?|[]]|]; by eexists.
Qed.

(** C20: the calculator computes the value of every formula, however it is spelled: any
    combination of x, literals, signs, parentheses, powers, products and sums, with the
    parentheses that the precedence (sign over ^ over * / % over + -, all binary operators
    to the left) needs and any others, with or without blanks (but with something between
    two signs of the same kind, which are another token when they touch), x in either case,
    and commas for decimal points, evaluates to what it means. *)
Theorem solve_formula y e formula (Hwf : well_formed e) (Hs : spells (print 0 e) (commas_to_dots formula)) :
  dt_calculator_solve y (Some formula) = Some (eval y e).
Proof.
  pose proof (spells_reads y _ _ None Hs) as Hr.
  pose proof (spells_length _ _ Hs) as Hlen. rewrite commas_length in Hlen.
  destruct (reads_all y e Hwf) as (_ & _ & _ & Ha).
  destruct (print_head 0 e) as (l & ls & Hp & Hi & Hd).
  unfold dt_calculator_solve. destruct formula as [|c s]; [by rewrite Hp in Hlen; cbn in Hlen; lia|].
  set (self := advance _) in *. set (fuel := S (S _)).
  destruct (expression_reads y e fuel self [] Ha) as (s' & Heq & Hend).
  { unfold fuel. cbn in *. lia. }
  { done. }
  { by rewrite app_nil_r. }
  rewrite Heq. cbn in Hend. rewrite Hend.
  assert (token self = Some (token_of y l)) as -> by (by rewrite (reads_token _ _ _ Hr), Hp).
  destruct l as [| |[]]; done.
Qed.

End calculator.

(** A reader of decimal digits, and libm stand-ins, to run the calculator with. *)
Fixpoint read_digits (acc : Z) (s : string) : Z * string :=
  match s with
  | String c s' =>
      let d := Z.of_N (N_of_ascii c) - 48 in
      if (0 <=? d) && (d <=? 9) then read_digits (10 * acc + d) s' else (acc, s)
  | EmptyString => (acc, s)
  end.

Definition example_strtod (s : string) : float * string :=
  let '(n, rest) := read_digits 0 s in (binary_normalize 53 1024 n 0 false, rest).

Lemma example_strtod_forward : strtod_forward example_strtod.
Proof.
  intros s. unfold example_strtod.
  enough (forall acc, (String.length (snd (read_digits acc s)) <= String.length s)%nat) as H.
  { specialize (H 0). by destruct (read_digits 0 s). }
  induction s as [|c s IH]; intros acc; [done|]. cbn [read_digits]. destruct (_ && _); [|done].
  specialize (IH (10 * acc + (Z.of_N (N_of_ascii c) - 48))). cbn. lia.
Qed.

Lemma solve_total_witness :
  exists v, dt_calculator_solve example_strtod (SFdiv 24 128) (SFmul 24 128) S754_nan (Some "(2+x))..") = Some v.
Proof. apply (solve_total example_strtod). apply example_strtod_forward. Defined.

(** 2 + x * -((3) - x) *)
Definition example_expr : expr :=
  EAdd O_PLUS (ENum "2" (binary_normalize 24 128 2 0 false))
    (EMul O_MULTIPLY EX (ENeg (EAdd O_MINUS (EParen (ENum "3" (binary_normalize 24 128 3 0 false))) EX))).

Ltac spelling :=
  repeat first
    [ apply spells_nil
    | apply (spells_num _ "2"); [split; [by do 2 eexists|reflexivity]|]
    | apply (spells_num _ "3"); [split; [by do 2 eexists|reflexivity]|]
    | match goal with |- spells _ (LOp ?op :: ?ls) (String _ ?s) =>
        refine (spells_op _ op ls s _ _); [first [exact I | by intros [? [=]]]|] end
    | apply spells_x; [(by left) || (by right)|]
    | apply spells_ignored; [reflexivity|] ].

Lemma solve_formula_witness :
  dt_calculator_solve example_strtod (SFdiv 24 128) (SFmul 24 128) (binary_normalize 24 128 5 0 false)
    (Some "2+x * -((3)-X) ") =
  Some (eval (SFdiv 24 128) (SFmul 24 128) (binary_normalize 24 128 5 0 false) example_expr) /\
  eval (SFdiv 24 128) (SFmul 24 128) (binary_normalize 24 128 5 0 false) example_expr = binary_normalize 24 128 12 0 false.
Proof.
  split; [|vm_compute; reflexivity].
  apply (solve_formula example_strtod (SFdiv 24 128) (SFmul 24 128)); [cbn; eauto 10|].
  cbn [example_expr print parens Nat.ltb Nat.leb app commas_to_dots Ascii.eqb Bool.eqb]. spelling.
Defined.
