(* ===== verification/Variables.v ===== *)
(** The $(VARIABLE) substitution of common/variables.c: expansion of a text with
    nested variables, bash-style operations on their values, and the values
    themselves.

    A pointer into the source text is the text from there on. The result buffer of
    [expand] is modelled with its capacity, so that writing beyond it is an outcome
    ([Bad BufferOverflow]) and not assumed away. The values come from an
    environment record: image metadata, tags and colour labels in the database, GLib
    path and UTF-8 functions, number formatting of floats. *)

From Stdlib Require Import Ascii String.
From S2P Require Import Prelude Utility.
Local Open Scope Z_scope.

(** ** Outcomes *)

Inductive fault :=
  | BufferOverflow     (* a write beyond the result buffer *)
  | OutsideString      (* a pointer before the start or behind the end of a string *)
  | HugeAllocation     (* a negative length passed to g_strndup *)
  | InReplace.         (* undefined behaviour of dt_util_str_replace *)

Inductive outcome (A : Type) :=
  | Ok (a : A)
  | Bad (why : fault)
  | NoFuel.
Arguments Ok {A} a.
Arguments Bad {A} why.
Arguments NoFuel {A}.

Definition o_bind {A B} (m : outcome A) (f : A -> outcome B) : outcome B :=
  match m with
  | Ok a => f a
  | Bad why => Bad why
  | NoFuel => NoFuel
  end.

Notation "'let!' x ':=' m 'in' k" := (o_bind m (fun x => k))
  (at level 10, x pattern, m at level 100, k at level 200) : c_scope.

(** ** The C and GLib functions used *)

(** [strtol(s, &s, 10)] with a 64-bit long: the number, and the text behind it, or
    the whole text if there is no number. *)
Definition strtol (s : string) : Z * string :=
  let s0 := skip_spaces s in
  let '(sign, s1) :=
    match s0 with
    | String "-" s' => (-1, s')
    | String "+" s' => (1, s')
    | _ => (1, s0)
    end in
  match scan_digits s1 with
  | Some n =>
      (Z.max (- 2 ^ 63) (Z.min (2 ^ 63 - 1) (sign * n)),
       str_drop (String.length (digit_prefix s1)) s1)
  | None => (0, s)
  end.

(** [printf("%.*d", prec, z)] *)
Definition show_prec (prec : nat) (z : Z) : string :=
  let ds := if (prec =? 0)%nat && (z =? 0) then "" else c_show_int (Z.abs z) in
  let zeros := String.concat "" (replicate (prec - String.length ds) "0") in
  (if z <? 0 then "-" else "") +:+ zeros +:+ ds.

(** [strncmp(s, pattern, strlen(pattern)) == 0] *)
Definition starts_with (s pattern : string) : bool := String.prefix pattern s.

(** [strncmp(s + strlen(s) - strlen(pattern), pattern, strlen(pattern))]: the text
    before the suffix, if it is there. A pattern longer than [s] makes a pointer in
    front of the string. *)
Definition strip_suffix (s pattern : string) : outcome (option string) :=
  let n := String.length s in
  let k := String.length pattern in
  if (n <? k)%nat then Bad OutsideString
  else if String.prefix pattern (str_drop (n - k) s) then Ok (Some (str_take (n - k) s))
  else Ok None.

(** ** The operations on a value *)

Section operations.
(** [utf8_split] cuts a text into its characters; the case mappings of a text and of
    a single character. *)
Context (utf8_split : string -> list string).
Context (g_utf8_strup g_utf8_strdown char_toupper char_tolower : string -> string).
(** [expand(params, variable, stop)] and [get_base_value(params, variable)]. *)
Context (expand : string -> ascii -> outcome (string * string)).
Context (get_base_value : string -> string * string).

(** $(parameter-default) and $(parameter+alt_value) *)
Definition op_default (base v : string) : outcome (string * string) :=
  let! (replacement, v) := expand v ")" in
  Ok (if String.eqb base "" then replacement else base, v).

Definition op_alternative (base v : string) : outcome (string * string) :=
  let! (replacement, v) := expand v ")" in
  Ok (if String.eqb base "" then base else replacement, v).

(** The size_t [z] where a glong is expected. *)
Definition as_long (z : Z) : Z := if z <? 2 ^ 63 then z else z - 2 ^ 64.

(** $(var:offset) and $(var:offset:length), in characters. *)
Definition op_substring (base v : string) : outcome (string * string) :=
  let chars := utf8_split base in
  let n := Z.of_nat (length chars) in
  let '(offset, v) := strtol v in
  let start := if 0 <=? offset then Z.min offset n else n + Z.max offset (- n) in
  let! (stop, v) :=
    match v with
    | String ":" v =>
        let start_length := n - start in
        let '(l, v) := strtol v in
        let len := wrap_s32 l in
        Ok (if 0 <=? len then start + Z.min len start_length
            else n + as_long (Z.max (wrap_u64 len) (wrap_u64 (- start_length))), v)
    | _ => Ok (n, v)
    end in
  if stop <? 0 then Bad OutsideString
  else if stop <? start then Bad HugeAllocation
  else Ok (String.concat "" (take (Z.to_nat (stop - start)) (drop (Z.to_nat start) chars)), v).

(** $(var#Pattern) and $(var%Pattern) *)
Definition op_remove_prefix (base v : string) : outcome (string * string) :=
  let! (pattern, v) := expand v ")" in
  Ok (if starts_with base pattern then str_drop (String.length pattern) base else base, v).

Definition op_remove_suffix (base v : string) : outcome (string * string) :=
  let! (pattern, v) := expand v ")" in
  let! r := strip_suffix base pattern in
  Ok (match r with Some s => s | None => base end, v).

(** The modes of $(var/Pattern/Replacement), $(var//..), $(var/#..), $(var/%..). *)
Definition replace_mode (mode : ascii) (base pattern replacement : string) : outcome string :=
  if (mode =? "/")%char then
    match dt_util_str_replace base pattern replacement with
    | Done s => Ok s
    | Undefined => Bad InReplace
    end
  else if (mode =? "#")%char then
    Ok (if starts_with base pattern
        then replacement +:+ str_drop (String.length pattern) base else base)
  else if (mode =? "%")%char then
    let! r := strip_suffix base pattern in
    Ok (match r with Some s => s +:+ replacement | None => base end)
  else
    (* the NUL that ends [before] overwrites the first character of [found], which
       matters when the pattern is empty *)
    Ok (match strstr pattern base with
        | Some (before, found) =>
            before +:+ replacement +:+
            (if String.eqb pattern "" then "" else str_drop (String.length pattern) found)
        | None => base
        end).

(** [**variable]: the NUL behind the text is a character too. *)
Definition first_char (s : string) : ascii :=
  match s with String c _ => c | EmptyString => NUL end.

(** The pointer moves on by one, which must not leave the text. *)
Definition next_char (s : string) : outcome string :=
  match s with String _ s => Ok s | EmptyString => Bad OutsideString end.

Definition op_replace (base v : string) : outcome (string * string) :=
  let mode := first_char v in
  let! v := if (mode =? "/")%char || (mode =? "#")%char || (mode =? "%")%char
            then next_char v else Ok v in
  let! (pattern, v) := expand v "/" in
  let! v := next_char v in
  let! (replacement, v) := expand v ")" in
  let! base := replace_mode mode base pattern replacement in
  Ok (base, v).

(** $(parameter^pattern), ^^, [,] and [,,] *)
Definition op_case (operation : ascii) (base v : string) : outcome (string * string) :=
  let mode := first_char v in
  if (operation =? "^")%char && (mode =? "^")%char then
    let! v := next_char v in Ok (g_utf8_strup base, v)
  else if (operation =? ",")%char && (mode =? ",")%char then
    let! v := next_char v in Ok (g_utf8_strdown base, v)
  else
    match utf8_split base with
    | [] => Bad OutsideString
    | c :: next =>
        Ok ((if (operation =? "^")%char then char_toupper c else char_tolower c)
            +:+ String.concat "" next, v)
    end.

Definition apply_operation (operation : ascii) (base v : string) : outcome (string * string) :=
  if (operation =? "-")%char then op_default base v
  else if (operation =? "+")%char then op_alternative base v
  else if (operation =? ":")%char then op_substring base v
  else if (operation =? "#")%char then op_remove_prefix base v
  else if (operation =? "%")%char then op_remove_suffix base v
  else if (operation =? "/")%char then op_replace base v
  else if (operation =? "^")%char || (operation =? ",")%char then op_case operation base v
  else Ok (base, v).

(** [variable] starts behind the [$(]; the result is NULL when the closing
    parenthesis is missing. *)
Definition variable_get_value (variable : string) : outcome (option string * string) :=
  let '(base_value, variable) := get_base_value variable in
  let operation := first_char variable in
  let variable :=
    if (operation =? NUL)%char || (operation =? ")")%char then variable else str_drop 1 variable in
  let! (value, variable) := apply_operation operation base_value variable in
  match variable with
  | String ")" variable => Ok (Some value, variable)
  | _ => Ok (None, variable)
  end.

End operations.

(** ** The result buffer *)

(** What has been written, and [result_length]. *)
Record buffer := Buf { written : string; result_length : nat }.

Definition grow_buffer (b : buffer) (extra_space : nat) : buffer :=
  let used := String.length (written b) in
  if (result_length b <? used + extra_space)%nat then Buf (written b) (used + extra_space) else b.

(** Write a text where [result_iter] points. *)
Definition write (b : buffer) (s : string) : outcome buffer :=
  if (String.length (written b) + String.length s <=? result_length b)%nat
  then Ok (Buf (written b +:+ s) (result_length b))
  else Bad BufferOverflow.

(** Copy one character; [rest] is the number of source characters from it on. *)
Definition put (b : buffer) (rest : nat) (c : ascii) : outcome buffer :=
  let b := if (result_length b <=? String.length (written b))%nat then grow_buffer b rest else b in
  write b (String c "").

(** The inner loop: copy up to the stop character, the start of a variable or the
    end. *)
Fixpoint copy_plain (extra_stop : ascii) (source : string) (b : buffer)
    : outcome (string * buffer) :=
  match source with
  | EmptyString => Ok (source, b)
  | String c s =>
      if (c =? extra_stop)%char then Ok (source, b)
      else if (c =? "\")%char then
        match s with
        | String d s' =>
            let! b := put b (String.length s) d in copy_plain extra_stop s' b
        | EmptyString =>
            let! b := put b (String.length source) c in Ok (s, b)
        end
      else
        match s with
        | String "(" _ =>
            if (c =? "$")%char then Ok (source, b)
            else let! b := put b (String.length source) c in copy_plain extra_stop s b
        | _ => let! b := put b (String.length source) c in copy_plain extra_stop s b
        end
  end.

Section expand.
Context (utf8_split : string -> list string).
Context (g_utf8_strup g_utf8_strdown char_toupper char_tolower : string -> string).
Context (get_base_value : string -> string * string).

(** The outer loop of [expand]; the result is the text and where it stopped. *)
Fixpoint expand_loop (fuel : nat) (source : string) (extra_stop : ascii) (b : buffer)
    : outcome (string * string) :=
  match fuel with
  | O => NoFuel
  | S fuel =>
      let! (source_iter, b) := copy_plain extra_stop source b in
      match source_iter with
      | String "$" rest =>
          let! (replacement, after) :=
            variable_get_value utf8_split g_utf8_strup g_utf8_strdown char_toupper char_tolower
              (fun s stop => expand_loop fuel s stop (Buf "" 0)) get_base_value (str_drop 1 rest) in
          match replacement with
          | Some replacement =>
              let! b := write (grow_buffer b (String.length replacement)) replacement in
              expand_loop fuel after extra_stop b
          | None =>
              let! b := write (grow_buffer b (String.length source_iter)) "$" in
              expand_loop fuel rest extra_stop b
          end
      | _ =>
          (* the terminating NUL goes behind what was written *)
          if (String.length (written b) <=? result_length b)%nat
          then Ok (written b, source_iter) else Bad BufferOverflow
      end
  end.

(** [expand(params, &source, extra_stop)]; [expand_total] shows that the fuel is
    enough. *)
Definition expand (source : string) (extra_stop : ascii) : outcome (string * string) :=
  expand_loop (S (String.length source)) source extra_stop (Buf "" 0).

End expand.

(** ** The values *)

Record tm := Tm { tm_year : Z; tm_mon : Z; tm_mday : Z; tm_hour : Z; tm_min : Z; tm_sec : Z }.

Section values.
(** Floats, as far as they are formatted here. *)
Context {F : Type}.

(** The fields of dt_image_t that are used. *)
Record dt_image_t := Image {
  i_exif_datetime_taken : string;
  i_exif_iso : Z;               (* assigned from a float *)
  i_camera_maker : string;
  i_camera_alias : string;
  i_exif_lens : string;
  i_version : Z;
  i_flags : Z;
  i_exif_exposure : F;
  i_exif_exposure_bias : F;
  i_exif_aperture : F;
  i_exif_focal_length : F;
  i_exif_focus_distance : F;
}.

Record dt_variables_data_t := Data {
  time : tm;
  exif_time : Z;
  d_sequence : Z;
  max_width : Z;
  max_height : Z;
  homedir : option string;
  pictures_folder : option string;
  file_ext : option string;
  have_exif_tm : bool;
  exif_iso : Z;
  camera_maker : option string;
  camera_alias : option string;
  exif_lens : option string;
  version : Z;
  stars : Z;
  exif_tm : tm;
  exif_exposure : F;
  exif_exposure_bias : F;
  exif_aperture : F;
  exif_focal_length : F;
  exif_focus_distance : F;
  tags_flags : Z;
  flags : Z;
}.

Record dt_variables_params_t := Params {
  filename : option string;
  jobcode : option string;
  imgid : Z;
  sequence : Z;
  data : dt_variables_data_t;
  escape_markup : bool;
}.

(** What the functions ask of the rest of the program and of the libraries. *)
Record environment := Env {
  get_image : Z -> dt_image_t;                    (* the image cache *)
  scan_datetime : string -> option tm;            (* sscanf of the six numbers *)
  localtime : Z -> tm;
  metadata : Z -> string -> option string;        (* first value of dt_metadata_get *)
  colorlabels : Z -> list Z;
  label_name : Z -> string;                       (* translated name *)
  label_icon : Z -> string;                       (* markup of the coloured dot *)
  count_versions : Z -> option Z;                 (* the SQL count *)
  tag_subtags : Z -> string -> Z -> option string;
  tags_export : Z -> Z -> list string;
  sidecar_text : Z -> option string;              (* contents of the text file *)
  user_name : option string;
  home_dir : option string;
  pictures_dir : option string;
  desktop_dir : option string;
  build_pictures : option string -> string;       (* g_build_path(homedir, "Pictures") *)
  path_dirname : string -> string;
  path_basename : string -> string;
  markup_escape : string -> string;
  format_exposure : F -> string;                  (* dt_util_format_exposure *)
  printf_float : string -> F -> string;
  is_nan : F -> bool;
  is_zero : F -> bool;
  trunc : F -> Z;
  zero : F;
  nan : F;
  e_utf8_split : string -> list string;
  e_strup : string -> string;
  e_strdown : string -> string;
  e_toupper : string -> string;
  e_tolower : string -> string;
}.

Context (env : environment).

(** The text behind the last dot, and the text before it. *)
Fixpoint after_last_dot (s : string) : option string :=
  match s with
  | EmptyString => None
  | String c s' =>
      match after_last_dot s' with
      | Some e => Some e
      | None => if (c =? ".")%char then Some s' else None
      end
  end.

Fixpoint before_last_dot (s : string) : option string :=
  match s with
  | EmptyString => None
  | String c s' =>
      match before_last_dot s' with
      | Some b => Some (String c b)
      | None => if (c =? ".")%char then Some "" else None
      end
  end.

(** [img->flags & 0x7], with 6 for a rejected image. *)
Definition stars_of_flags (fl : Z) : Z :=
  let st := Z.land fl 7 in if st =? 6 then -1 else st.

Definition init_expansion (params : dt_variables_params_t) (iterate : bool) : dt_variables_params_t :=
  let d := data params in
  let seq := if iterate then wrap_u32 (d_sequence d + 1) else d_sequence d in
  let home := home_dir env in
  let pictures := match pictures_dir env with Some s => s | None => build_pictures env home end in
  let ext :=
    match filename params with
    | Some f => Some (match after_last_dot f with Some e => e | None => "" end)
    | None => None
    end in
  let d :=
    if imgid params =? 0 then
      Data (time d) (exif_time d) seq (max_width d) (max_height d) home (Some pictures) ext
           (negb (exif_time d =? 0)) 100 None None None 0 0
           (if exif_time d =? 0 then exif_tm d else localtime env (exif_time d))
           (zero env) (nan env) (zero env) (zero env) (zero env) (tags_flags d) (flags d)
    else
      let img := get_image env (imgid params) in
      let scanned := scan_datetime env (i_exif_datetime_taken img) in
      Data (time d) (exif_time d) seq (max_width d) (max_height d) home (Some pictures) ext
           (match scanned with Some _ => true | None => false end) (i_exif_iso img)
           (Some (i_camera_maker img)) (Some (i_camera_alias img)) (Some (i_exif_lens img))
           (i_version img) (stars_of_flags (i_flags img))
           (match scanned with
            | Some t => Tm (tm_year t - 1900) (tm_mon t - 1) (tm_mday t) (tm_hour t) (tm_min t) (tm_sec t)
            | None => exif_tm d
            end)
           (i_exif_exposure img) (i_exif_exposure_bias img) (i_exif_aperture img)
           (i_exif_focal_length img)
           (if is_nan env (i_exif_focus_distance img) || is_zero env (i_exif_focus_distance img)
            then zero env else i_exif_focus_distance img)
           (tags_flags d) (i_flags img)
  in
  Params (filename params) (jobcode params) (imgid params) (sequence params) d (escape_markup params).

Definition with_data (params : dt_variables_params_t) (d : dt_variables_data_t) : dt_variables_params_t :=
  Params (filename params) (jobcode params) (imgid params) (sequence params) d (escape_markup params).

(** ** The chain of [else if(has_prefix(variable, ...))] *)

(** One link: the alternative names, the condition tested after the name was
    skipped, and the value with the text behind it and whether it may be escaped. *)
Record branch := Branch {
  b_names : list string;
  b_guard : bool;
  b_value : string -> option string * string * bool;
}.

Definition has_prefix (str prefix : string) : option string :=
  if String.prefix prefix str then Some (str_drop (String.length prefix) str) else None.

Fixpoint first_prefix (str : string) (names : list string) : option string :=
  match names with
  | [] => None
  | n :: names => match has_prefix str n with Some rest => Some rest | None => first_prefix str names end
  end.

(** [while(g_ascii_isalpha( **variable)) *)
Fixpoint skip_alpha (s : string) : string :=
  match s with
  | String c s' =>
      let z := Z_of_byte c in
      if ((65 <=? z) && (z <=? 90)) || ((97 <=? z) && (z <=? 122)) then skip_alpha s' else s
  | EmptyString => s
  end.

(** A name that matches is skipped even if the condition fails. *)
Fixpoint first_branch (bs : list branch) (variable : string) : option string * string * bool :=
  match bs with
  | [] => (None, skip_alpha variable, true)
  | b :: bs =>
      match first_prefix variable (b_names b) with
      | Some rest => if b_guard b then b_value b rest else first_branch bs rest
      | None => first_branch bs variable
      end
  end.

(** A value that does not read on in the text. *)
Definition value (names : list string) (v : option string) : branch :=
  Branch names true (fun rest => (v, rest, true)).

Section chain.
Context (params : dt_variables_params_t).
Abbreviation d := (data params).

Definition the_exif_tm : tm := if have_exif_tm d then exif_tm d else time d.
Definition infos : bool := bool_decide (jobcode params = Some "infos").
Definition from_metadata (k : string) : option string := metadata env (imgid params) k.

Definition time_branches : list branch :=
  [value ["YEAR"] (Some (show_prec 4 (tm_year (time d) + 1900)));
   value ["MONTH"] (Some (show_prec 2 (tm_mon (time d) + 1)));
   value ["DAY"] (Some (show_prec 2 (tm_mday (time d))));
   value ["HOUR"] (Some (show_prec 2 (tm_hour (time d))));
   value ["MINUTE"] (Some (show_prec 2 (tm_min (time d))));
   value ["SECOND"] (Some (show_prec 2 (tm_sec (time d))));
   value ["EXIF_YEAR"] (Some (show_prec 4 (tm_year the_exif_tm + 1900)));
   value ["EXIF_MONTH"] (Some (show_prec 2 (tm_mon the_exif_tm + 1)));
   value ["EXIF_DAY"] (Some (show_prec 2 (tm_mday the_exif_tm)));
   value ["EXIF_HOUR"] (Some (show_prec 2 (tm_hour the_exif_tm)));
   value ["EXIF_MINUTE"] (Some (show_prec 2 (tm_min the_exif_tm)));
   value ["EXIF_SECOND"] (Some (show_prec 2 (tm_sec the_exif_tm)))].

(** The exposure in a file name must not have a slash. *)
Definition exposure_value : option string :=
  let s := format_exposure env (exif_exposure d) in
  if infos then Some s
  else match dt_util_str_replace s "/" "_" with Done r => Some r | Undefined => None end.

Definition exif_branches : list branch :=
  [value ["EXIF_ISO"] (Some (c_show_int (exif_iso d)));
   Branch ["NL"] infos (fun rest => (Some (String "010" ""), rest, true));
   value ["EXIF_EXPOSURE_BIAS"]
     (if is_nan env (exif_exposure_bias d) then None
      else Some (printf_float env "%+.2f" (exif_exposure_bias d)));
   value ["EXIF_EXPOSURE"] exposure_value;
   value ["EXIF_APERTURE"] (Some (printf_float env "%.1f" (exif_aperture d)));
   value ["EXIF_FOCAL_LENGTH"] (Some (c_show_int (trunc env (exif_focal_length d))));
   value ["EXIF_FOCUS_DISTANCE"] (Some (printf_float env "%.2f" (exif_focus_distance d)));
   value ["MAKER"] (camera_maker d);
   value ["MODEL"] (camera_alias d);
   value ["LENS"] (exif_lens d);
   value ["ID"] (Some (c_show_int (imgid params)));
   value ["VERSION_NAME"] (from_metadata "Xmp.darktable.version_name");
   value ["VERSION_IF_MULTI"]
     (match count_versions env (imgid params) with
      | Some count => if 1 <? count then Some (c_show_int (version d)) else None
      | None => None
      end);
   value ["VERSION"] (Some (c_show_int (version d)));
   value ["JOBCODE"] (jobcode params)].

(** The file name without its extension. *)
Definition file_stem (f : string) : string :=
  let base := path_basename env f in
  match before_last_dot base with Some b => b | None => base end.

(** The digit behind SEQUENCE, [c & 0b1111], is the number of digits. *)
Definition sequence_value (rest : string) : option string * string * bool :=
  let n := wrap_s32 (if 0 <=? sequence params then sequence params else d_sequence d) in
  match rest with
  | String c rest' =>
      if is_digit c then (Some (show_prec (Z.to_nat (Z.land (Z_of_byte c) 15)) n), rest', true)
      else (Some (show_prec 4 n), rest, true)
  | EmptyString => (Some (show_prec 4 n), rest, true)
  end.

Definition file_branches : list branch :=
  [value ["ROLL_NAME"] ((fun f => path_basename env (path_dirname env f)) <$> filename params);
   value ["FILE_DIRECTORY"] (path_dirname env <$> filename params);
   value ["FILE_FOLDER"] (path_dirname env <$> filename params);
   value ["FILE_NAME"] (file_stem <$> filename params);
   value ["FILE_EXTENSION"] (file_ext d);
   Branch ["SEQUENCE"] true sequence_value;
   value ["USERNAME"] (user_name env);
   value ["HOME_FOLDER"] (homedir d);
   value ["HOME"] (homedir d);
   value ["PICTURES_FOLDER"] (pictures_folder d);
   value ["DESKTOP_FOLDER"] (desktop_dir env);
   value ["DESKTOP"] (desktop_dir env)].

Definition rating_icons : string :=
  if stars d =? -1 then "X"
  else if (1 <=? stars d) && (stars d <=? 5)
  then String.concat "" (replicate (Z.to_nat (stars d)) "★")
  else "".

(** CATEGORYn(category): the level, the text up to the parenthesis. *)
Definition category_value (rest : string) : option string * string * bool :=
  match rest with
  | String c rest1 =>
      if is_digit c then
        match rest1 with
        | String "(" rest2 =>
            match strstr ")" rest2 with
            | Some (category, behind) =>
                (tag_subtags env (imgid params) (category +:+ "|") (Z.land (Z_of_byte c) 15),
                 str_drop 1 behind, true)
            | None => (None, rest1, true)
            end
        | _ => (None, rest1, true)
        end
      else (None, rest, true)
  | EmptyString => (None, rest, true)
  end.

Definition label_icons (labels : list Z) : option string :=
  match labels with
  | [] => None
  | _ => Some (String.concat "" (map (label_icon env) labels))
  end.

Definition DT_IMAGE_HAS_TXT : Z := 4096.

Definition metadata_branches : list branch :=
  [value ["STARS"] (Some (c_show_int (stars d)));
   value ["RATING_ICONS"] (Some rating_icons);
   Branch ["LABELS_ICONS"; "LABELS_COLORICONS"] infos
     (fun rest => (label_icons (colorlabels env (imgid params)), rest, false));
   value ["LABELS"] (dt_util_glist_to_str "," (map (label_name env) (colorlabels env (imgid params))));
   value ["TITLE"] (from_metadata "Xmp.dc.title");
   value ["DESCRIPTION"] (from_metadata "Xmp.dc.description");
   value ["CREATOR"] (from_metadata "Xmp.dc.creator");
   value ["PUBLISHER"] (from_metadata "Xmp.dc.publisher");
   value ["RIGHTS"] (from_metadata "Xmp.dc.rights");
   value ["MAX_WIDTH"] (Some (c_show_int (max_width d)));
   value ["MAX_HEIGHT"] (Some (c_show_int (max_height d)));
   Branch ["CATEGORY"] true category_value;
   value ["TAGS"] (dt_util_glist_to_str ", " (tags_export env (imgid params) (tags_flags d)));
   Branch ["SIDECAR_TXT"] (infos && negb (Z.land (flags d) DT_IMAGE_HAS_TXT =? 0))
     (fun rest => (String "010" <$> sidecar_text env (imgid params), rest, true))].

Definition branches : list branch :=
  time_branches ++ exif_branches ++ file_branches ++ metadata_branches.

(** The value, never NULL, and the text behind the name. *)
Definition get_base_value (variable : string) : string * string :=
  let '(result, rest, escape) := first_branch branches variable in
  let s := match result with Some s => s | None => "" end in
  (if escape_markup params && escape then markup_escape env s else s, rest).

End chain.

Definition dt_variables_expand (params : dt_variables_params_t) (source : option string)
    (iterate : bool) : outcome string * dt_variables_params_t :=
  let params := init_expansion params iterate in
  match source with
  | None => (Ok "", params)
  | Some source =>
      (let! (s, _) := expand (e_utf8_split env) (e_strup env) (e_strdown env) (e_toupper env)
                        (e_tolower env) (get_base_value params) source NUL in Ok s, params)
  end.

(** ** The setters *)

Definition dt_variables_params_init (now : Z) (e : F) : dt_variables_params_t :=
  let t0 := Tm 0 0 0 0 0 0 in
  Params None None 0 (-1)
    (Data (localtime env now) 0 0 0 0 None None None false 0 None None None 0 0 t0 e e e e e 0 0) false.

Definition dt_variables_set_max_width_height (params : dt_variables_params_t) (w h : Z) :=
  let x := data params in
  with_data params
    (Data (time x) (exif_time x) (d_sequence x) w h (homedir x) (pictures_folder x) (file_ext x)
          (have_exif_tm x) (exif_iso x) (camera_maker x) (camera_alias x) (exif_lens x) (version x)
          (stars x) (exif_tm x) (exif_exposure x) (exif_exposure_bias x) (exif_aperture x)
          (exif_focal_length x) (exif_focus_distance x) (tags_flags x) (flags x)).

Definition set_times (params : dt_variables_params_t) (t : tm) (et seq tf : Z) :=
  let x := data params in
  with_data params
    (Data t et seq (max_width x) (max_height x) (homedir x) (pictures_folder x) (file_ext x)
          (have_exif_tm x) (exif_iso x) (camera_maker x) (camera_alias x) (exif_lens x) (version x)
          (stars x) (exif_tm x) (exif_exposure x) (exif_exposure_bias x) (exif_aperture x)
          (exif_focal_length x) (exif_focus_distance x) tf (flags x)).

Definition dt_variables_set_time (params : dt_variables_params_t) (t : Z) :=
  set_times params (localtime env t) (exif_time (data params)) (d_sequence (data params))
            (tags_flags (data params)).
Definition dt_variables_set_exif_time (params : dt_variables_params_t) (t : Z) :=
  set_times params (time (data params)) t (d_sequence (data params)) (tags_flags (data params)).
Definition dt_variables_reset_sequence (params : dt_variables_params_t) :=
  set_times params (time (data params)) (exif_time (data params)) 0 (tags_flags (data params)).
Definition dt_variables_set_tags_flags (params : dt_variables_params_t) (tf : Z) :=
  set_times params (time (data params)) (exif_time (data params)) (d_sequence (data params)) tf.

End values.

(** ** The walk through the text ends, and stays in the result buffer *)

(** [m] comes to an end without overflowing the buffer, and a result satisfies
    [Q]. *)
Definition safe {A} (m : outcome A) (Q : A -> Prop) : Prop :=
  match m with
  | Ok a => Q a
  | Bad BufferOverflow | NoFuel => False
  | Bad _ => True
  end.

Lemma safe_bind {A B} (m : outcome A) (f : A -> outcome B) (P : A -> Prop) (Q : B -> Prop) :
  safe m P -> (forall a, P a -> safe (f a) Q) -> safe (o_bind m f) Q.
Proof. destruct m; cbn; auto. Qed.

Lemma safe_weaken {A} (m : outcome A) (P Q : A -> Prop) :
  safe m P -> (forall a, P a -> Q a) -> safe m Q.
Proof. destruct m; cbn; auto. Qed.

(** Case analysis on the tests at the head of the outcome only. *)
Ltac head_ifs := repeat match goal with |- safe (if ?b then _ else _) _ => destruct b end.

Abbreviation len := String.length.

Lemma strtol_length s : (len (snd (strtol s)) <= len s)%nat.
Proof.
  unfold strtol. pose proof (skip_spaces_length s).
  assert (exists sign s1, match skip_spaces s with
    | String "-" s' => (-1, s') | String "+" s' => (1, s') | _ => (1, skip_spaces s) end = (sign, s1) /\
    (len s1 <= len s)%nat) as (sign & s1 & Heq & Hle).
  { destruct (skip_spaces s) as [|[[] [] [] [] [] [] [] []] s']; do 2 eexists; (split; [done|]);
      cbn in *; lia. }
  rewrite Heq. destruct (scan_digits s1); cbn; [|done]. rewrite str_drop_length. lia.
Qed.

Lemma skip_alpha_length s : (len (skip_alpha s) <= len s)%nat.
Proof. induction s as [|c s IH]; [done|]. cbn. destruct (_ || _); cbn; lia. Qed.

Lemma next_char_safe v : safe (next_char v) (fun v' => (len v' <= len v)%nat).
Proof. destruct v; cbn; [done|lia]. Qed.

Section safety.
Context (utf8_split : string -> list string).
Context (strup strdown toupper tolower : string -> string).
Context (get_base_value : string -> string * string).
Context (Hforward : forall v, (len (snd (get_base_value v)) <= len v)%nat).

Section operations.
Context (expand : string -> ascii -> outcome (string * string)) (L : nat).
Context (Hexpand : forall s stop, (len s <= L)%nat ->
  safe (expand s stop) (fun r => (len (snd r) <= len s)%nat)).

Abbreviation forward v := (fun r : string * string => (len (snd r) <= len v)%nat).

(** What every operation on a rest [v] of the text promises. *)
Lemma expand_then v stop (f : string -> string -> outcome (string * string)) :
  (len v <= L)%nat ->
  (forall s v', (len v' <= len v)%nat -> safe (f s v') (forward v)) ->
  safe (o_bind (expand v stop) (fun r => f (fst r) (snd r))) (forward v).
Proof using Hexpand. intros Hv Hf. eapply safe_bind; [by apply Hexpand|]. intros [s v'] Hr. by apply Hf. Qed.

Lemma strip_suffix_safe s p0 : safe (strip_suffix s p0) (fun _ => True).
Proof using. clear. unfold strip_suffix. destruct (_ <? _)%nat; [done|]. by destruct (String.prefix _ _). Qed.

Lemma replace_mode_safe mode base p0 r : safe (replace_mode mode base p0 r) (fun _ => True).
Proof using.
  clear. unfold replace_mode. split_ifs; try done.
  - by destruct (dt_util_str_replace _ _ _).
  - eapply safe_bind; [apply strip_suffix_safe|done].
Qed.

Lemma op_substring_safe base v : safe (op_substring utf8_split base v) (forward v).
Proof using.
  clear. unfold op_substring. pose proof (strtol_length v) as Hv. destruct (strtol v) as [offset v1]. cbn in Hv.
  cbv zeta. eapply (safe_bind _ _ (fun r : Z * string => (len (snd r) <= len v)%nat)).
  - destruct v1 as [|c v2]; [cbn; lia|]. pose proof (strtol_length v2) as Hv2.
    destruct (strtol v2) as [l v3]. cbn in Hv2.
    destruct c as [[] [] [] [] [] [] [] []]; cbn in *; lia.
  - intros [stop v'] Hv'. destruct (stop <? 0); [exact I|]. destruct (stop <? _); [exact I|]. exact Hv'.
Qed.

Lemma op_replace_safe base v :
  (len v <= L)%nat -> safe (op_replace expand base v) (forward v).
Proof using Hexpand.
  intros HL. unfold op_replace. eapply (safe_bind _ _ (fun v' => (len v' <= len v)%nat)).
  { destruct (_ || _); [apply next_char_safe|cbn; lia]. }
  intros v1 Hv1. eapply safe_bind; [apply Hexpand; lia|]. intros [pattern v2] Hv2. cbn in Hv2.
  eapply safe_bind; [apply next_char_safe|]. cbn. intros v3 Hv3.
  eapply safe_bind; [apply Hexpand; lia|]. intros [r v4] Hv4. cbn in Hv4.
  eapply safe_bind; [apply replace_mode_safe|]. intros s _. cbn. lia.
Qed.

Lemma op_case_safe op base v : safe (op_case utf8_split strup strdown toupper tolower op base v) (forward v).
Proof using.
  clear. unfold op_case. destruct (_ && _); [|destruct (_ && _)].
  - eapply safe_bind; [apply next_char_safe|]. done.
  - eapply safe_bind; [apply next_char_safe|]. done.
  - destruct (utf8_split base); [done|]. cbn. lia.
Qed.

Lemma apply_operation_safe op base v :
  (len v <= L)%nat ->
  safe (apply_operation utf8_split strup strdown toupper tolower expand op base v) (forward v).
Proof using Hexpand.
  intros HL. unfold apply_operation, op_default, op_alternative, op_remove_prefix, op_remove_suffix. head_ifs.
  - eapply safe_bind; [by apply Hexpand|]. by intros [? ?].
  - eapply safe_bind; [by apply Hexpand|]. by intros [? ?].
  - apply op_substring_safe.
  - eapply safe_bind; [by apply Hexpand|]. by intros [? ?].
  - eapply safe_bind; [by apply Hexpand|]. intros [? ?] ?.
    eapply safe_bind; [apply strip_suffix_safe|]. done.
  - by apply op_replace_safe.
  - apply op_case_safe.
  - cbn. lia.
Qed.

Lemma variable_get_value_safe v :
  (len v <= L)%nat ->
  safe (variable_get_value utf8_split strup strdown toupper tolower expand get_base_value v)
    (fun r => (len (snd r) <= len v)%nat).
Proof using Hexpand Hforward.
  intros HL. unfold variable_get_value. pose proof (Hforward v) as Hf.
  destruct (get_base_value v) as [base v1]. cbn in Hf. set (v2 := if _ || _ then v1 else _).
  assert (len v2 <= len v)%nat as H2 by (unfold v2; destruct (_ || _); rewrite ?str_drop_length; lia).
  eapply safe_bind; [apply apply_operation_safe; lia|]. intros [s v3] H3. cbn in H3.
  destruct v3 as [|[[] [] [] [] [] [] [] []] v4]; cbn in *; lia.
Qed.

End operations.

(** The buffer holds what was written. *)
Definition fits (b : buffer) : Prop := (len (written b) <= result_length b)%nat.

Lemma write_safe b s n :
  (len s <= n)%nat -> safe (write (grow_buffer b n) s) fits.
Proof using.
  clear. unfold write, grow_buffer, fits. intros Hn.
  destruct (Nat.ltb_spec (result_length b) (len (written b) + n)); cbn [written result_length].
  - destruct (Nat.leb_spec (len (written b) + len s) (len (written b) + n)); [|lia].
    cbn. rewrite str_length_app. lia.
  - destruct (Nat.leb_spec (len (written b) + len s) (result_length b)); [|lia].
    cbn. rewrite str_length_app. lia.
Qed.

Lemma put_safe b rest c : (0 < rest)%nat -> safe (put b rest c) fits.
Proof using.
  clear. intros Hr. unfold put. destruct (Nat.leb_spec (result_length b) (len (written b))).
  - apply write_safe. cbn. lia.
  - unfold write, fits. destruct (Nat.leb_spec (len (written b) + len (String c "")) (result_length b)) as [Hle|Hgt];
      cbn in *; [rewrite str_length_app; cbn; lia|lia].
Qed.

Lemma copy_plain_safe stop n source b :
  (len source <= n)%nat -> fits b ->
  safe (copy_plain stop source b) (fun r => (len (fst r) <= len source)%nat /\ fits (snd r)).
Proof using.
  clear. revert source b. induction n as [|n IH]; intros source b Hn Hb.
  { destruct source; cbn in *; [done|lia]. }
  destruct source as [|c s]; [done|]. cbn in Hn. cbn [copy_plain].
  assert (forall k d s' , (0 < k)%nat -> (len s' <= len s)%nat ->
    safe (let! b := put b k d in copy_plain stop s' b)
      (fun r => (len (fst r) <= len (String c s))%nat /\ fits (snd r))) as Hput.
  { intros k d s' Hk Hs'. eapply safe_bind; [by apply put_safe|]. intros b' Hb'.
    eapply safe_weaken; [apply IH; [lia|done]|]. cbn. intros r [? ?]. split; [lia|done]. }
  destruct (c =? stop)%char; [done|]. destruct (c =? "\")%char.
  - destruct s as [|d s']; [|apply Hput; cbn; lia].
    eapply safe_bind; [apply put_safe; cbn; lia|]. cbn. intros b' Hb'. split; [lia|done].
  - destruct s as [|[[] [] [] [] [] [] [] []] s']; try (apply Hput; cbn; lia).
    destruct (c =? "$")%char; [done|apply Hput; cbn; lia].
Qed.

Lemma expand_loop_safe fuel source stop b :
  (len source < fuel)%nat -> fits b ->
  safe (expand_loop utf8_split strup strdown toupper tolower get_base_value fuel source stop b)
    (fun r => (len (snd r) <= len source)%nat).
Proof using Hforward.
  revert source stop b. induction fuel as [|fuel IH]; intros source stop b Hfuel Hb; [lia|].
  cbn [expand_loop]. eapply safe_bind; [by apply (copy_plain_safe stop (len source))|].
  intros [src b1] [Hsrc Hb1]. cbn [fst snd] in Hsrc, Hb1.
  assert (safe (if (len (written b1) <=? result_length b1)%nat then Ok (written b1, src) else Bad BufferOverflow)
    (fun r => (len (snd r) <= len source)%nat)) as Hend.
  { unfold fits in Hb1. destruct (Nat.leb_spec (len (written b1)) (result_length b1)); [done|lia]. }
  destruct src as [|c rest]; [exact Hend|]. cbn in Hsrc.
  destruct c as [[] [] [] [] [] [] [] []]; try exact Hend. clear Hend.
  assert (len (str_drop 1 rest) <= len source - 1)%nat as Hdrop by (rewrite str_drop_length; lia).
  eapply safe_bind.
  { apply (variable_get_value_safe _ (len source - 1)); [|done].
    intros s stop' Hs. apply IH; [lia|unfold fits; cbn; lia]. }
  intros [[replacement|] after] Hafter; cbn [snd] in Hafter.
  - eapply safe_bind; [by apply write_safe|]. intros b2 Hb2.
    eapply safe_weaken; [apply IH; [lia|done]|]. intros r Hr. cbn beta in Hr. lia.
  - eapply safe_bind; [apply write_safe; cbn; lia|]. intros b2 Hb2.
    eapply safe_weaken; [apply IH; [lia|done]|]. intros r Hr. cbn beta in Hr. lia.
Qed.

End safety.

(** ** The values read forward *)

Section forward.
Context {F : Type} (env : environment (F:=F)).

Definition b_forward (b : branch) : Prop :=
  forall rest, (len (snd (fst (b_value b rest))) <= len rest)%nat.

Lemma value_forward names v : b_forward (value names v).
Proof. intros rest. cbn. lia. Qed.

Lemma first_prefix_forward s names rest : first_prefix s names = Some rest -> (len rest <= len s)%nat.
Proof.
  induction names as [|n names IH]; [done|]. cbn. unfold has_prefix.
  destruct (String.prefix n s); [|exact IH]. intros [= <-]. rewrite str_drop_length. lia.
Qed.

Lemma first_branch_forward bs s :
  Forall b_forward bs -> (len (snd (fst (first_branch bs s))) <= len s)%nat.
Proof.
  intros Hbs. revert s. induction Hbs as [|b bs Hb Hbs IH]; intros s; cbn [first_branch].
  { apply skip_alpha_length. }
  destruct (first_prefix s (b_names b)) as [rest|] eqn:E; [|done].
  apply first_prefix_forward in E. destruct (b_guard b).
  - specialize (Hb rest). lia.
  - specialize (IH rest). lia.
Qed.

Lemma sequence_forward params s : (len (snd (fst (sequence_value (F:=F) params s))) <= len s)%nat.
Proof. destruct s as [|c s]; cbn; [done|]. destruct (is_digit c); cbn; lia. Qed.

Lemma category_forward params s : (len (snd (fst (category_value env params s))) <= len s)%nat.
Proof.
  unfold category_value. destruct s as [|c s]; [done|]. destruct (is_digit c); [|cbn; lia].
  destruct s as [|[[] [] [] [] [] [] [] []] s']; try (cbn; lia).
  destruct (strstr ")" s') as [[x y]|] eqn:E; cbn [fst snd]; [|cbn; lia].
  apply strstr_Some in E as [-> _]. cbn [String.length]. rewrite str_drop_length, str_length_app. lia.
Qed.

Lemma branches_forward params : Forall b_forward (branches env params).
Proof.
  unfold branches. repeat apply Forall_app_2;
    repeat (apply Forall_cons_2; [first [apply value_forward|intros rest; cbn; lia
      |intros rest; apply sequence_forward|intros rest; apply category_forward]|]); apply Forall_nil_2.
Qed.

Lemma get_base_value_forward params v : (len (snd (get_base_value env params v)) <= len v)%nat.
Proof.
  unfold get_base_value. pose proof (first_branch_forward _ v (branches_forward params)) as H.
  by destruct (first_branch _ _) as [[r rest] e].
Qed.

End forward.

(** ** Which characters it takes for an undefined read *)

(** The operations that can run into an undefined read of kind [why]. *)
Definition triggers (why : fault) (c : ascii) : bool :=
  match why with
  | BufferOverflow => false
  | OutsideString => (c =? "%")%char || (c =? ":")%char || (c =? "/")%char || (c =? "^")%char || (c =? ",")%char
  | HugeAllocation => (c =? ":")%char
  | InReplace => (c =? "/")%char
  end.

Definition calm (why : fault) (s : string) : bool := str_forall (fun c => negb (triggers why c)) s.

(** [m] does not run into [why], and a result satisfies [Q]. *)
Definition avoids {A} (why : fault) (m : outcome A) (Q : A -> Prop) : Prop :=
  match m with
  | Ok a => Q a
  | Bad why' => why' <> why
  | NoFuel => True
  end.

Section calm.
Context (why : fault) (Hwhy : why <> BufferOverflow).

Abbreviation rest_calm := (fun r : string * string => calm why (snd r) = true).

Lemma avoids_bind {A B} (m : outcome A) (f : A -> outcome B) (P : A -> Prop) (Q : B -> Prop) :
  avoids why m P -> (forall a, P a -> avoids why (f a) Q) -> avoids why (o_bind m f) Q.
Proof using. clear Hwhy. destruct m; cbn; auto. Qed.

Lemma avoids_weaken {A} (m : outcome A) (P Q : A -> Prop) :
  avoids why m P -> (forall a, P a -> Q a) -> avoids why m Q.
Proof using. clear Hwhy. destruct m; cbn; auto. Qed.

Lemma calm_cons c s : calm why (String c s) = true -> triggers why c = false /\ calm why s = true.
Proof using. clear Hwhy. unfold calm. cbn. intros [H1%negb_true_iff H2]%andb_prop. done. Qed.

Lemma calm_drop n s : calm why s = true -> calm why (str_drop n s) = true.
Proof using.
  clear Hwhy. revert s. induction n as [|n IH]; intros [|c s] Hs; try done. apply calm_cons in Hs as [_ Hs]. by apply IH.
Qed.

Lemma calm_skip_spaces s : calm why s = true -> calm why (skip_spaces s) = true.
Proof using.
  clear Hwhy. induction s as [|c s IH]; [done|]. intros Hs. cbn [skip_spaces]. destruct (is_space c); [|done].
  apply calm_cons in Hs as [_ Hs]. by apply IH.
Qed.

Lemma strtol_calm s : calm why s = true -> calm why (snd (strtol s)) = true.
Proof using.
  clear Hwhy. intros Hs. unfold strtol. pose proof (calm_skip_spaces s Hs) as Hk.
  assert (exists sign s1, match skip_spaces s with
    | String "-" s' => (-1, s') | String "+" s' => (1, s') | _ => (1, skip_spaces s) end = (sign, s1) /\
    calm why s1 = true) as (sign & s1 & -> & H1).
  { destruct (skip_spaces s) as [|[[] [] [] [] [] [] [] []] s']; do 2 eexists; (split; [reflexivity|]);
      try done; exact (proj2 (calm_cons _ _ Hk)). }
  destruct (scan_digits s1); [|done]. by apply calm_drop.
Qed.

Section operations.
Context (utf8_split : string -> list string) (strup strdown toupper tolower : string -> string).
Context (expand : string -> ascii -> outcome (string * string)).
Context (Hexpand : forall s stop, calm why s = true -> avoids why (expand s stop) rest_calm).

Lemma next_char_avoids v : why <> OutsideString -> calm why v = true -> avoids why (next_char v) (fun v' => calm why v' = true).
Proof using. clear Hwhy Hexpand. destruct v as [|c v]; cbn [next_char]; [by intros ? _ <-|]. intros _ [_ ?]%calm_cons. done. Qed.

Lemma strip_suffix_avoids s p0 : why <> OutsideString -> avoids why (strip_suffix s p0) (fun _ => True).
Proof using. clear Hwhy Hexpand. intros ?. unfold strip_suffix. destruct (_ <? _)%nat; [cbn; congruence|]. by destruct (String.prefix _ _). Qed.

Lemma op_substring_avoids base v : why = InReplace -> calm why v = true -> avoids why (op_substring utf8_split base v) rest_calm.
Proof using.
  clear Hwhy Hexpand. intros Hw Hv. unfold op_substring. pose proof (strtol_calm v Hv) as H1. destruct (strtol v) as [offset v1]. cbn [snd] in H1.
  cbv zeta. eapply (avoids_bind _ _ (fun r : Z * string => calm why (snd r) = true)).
  - assert (avoids why (Ok (Z.of_nat (length (utf8_split base)), v1)) (fun r : Z * string => calm why (snd r) = true)) as Hplain by done.
    destruct v1 as [|c v2]; [exact Hplain|]. pose proof (calm_cons _ _ H1) as [_ H2].
    pose proof (strtol_calm v2 H2) as H3. destruct (strtol v2) as [l v3]. cbn [snd] in H3.
    destruct c as [[] [] [] [] [] [] [] []]; done.
  - intros [stop v'] Hv'. destruct (stop <? 0); [cbn; congruence|]. destruct (stop <? _); [cbn; congruence|done].
Qed.

Lemma op_replace_avoids base v : why = HugeAllocation -> calm why v = true -> avoids why (op_replace expand base v) rest_calm.
Proof using Hexpand.
  intros Hw Hv. assert (why <> OutsideString) as Ho by congruence.
  unfold op_replace. eapply (avoids_bind _ _ (fun v' => calm why v' = true)).
  { destruct (_ || _); [by apply next_char_avoids|done]. }
  intros v1 Hv1. eapply avoids_bind; [by apply Hexpand|]. intros [pattern v2] Hv2. cbn [snd] in Hv2.
  eapply avoids_bind; [by apply next_char_avoids|]. cbn. intros v3 Hv3.
  eapply avoids_bind; [by apply Hexpand|]. intros [r v4] Hv4. cbn [snd] in Hv4.
  eapply (avoids_bind _ _ (fun _ => True)); [|done]. unfold replace_mode. split_ifs; try done.
  - destruct (dt_util_str_replace _ _ _); [done|cbn; congruence].
  - eapply avoids_bind; [by apply strip_suffix_avoids|done].
Qed.

Lemma op_case_avoids op base v : why <> OutsideString -> calm why v = true ->
  avoids why (op_case utf8_split strup strdown toupper tolower op base v) rest_calm.
Proof using.
  clear Hwhy Hexpand. intros Ho Hv. unfold op_case. destruct (_ && _); [|destruct (_ && _)].
  - eapply avoids_bind; [by apply next_char_avoids|]. done.
  - eapply avoids_bind; [by apply next_char_avoids|]. done.
  - destruct (utf8_split base); [cbn; congruence|done].
Qed.

Ltac head_ifs' := repeat match goal with |- avoids _ (if ?b then _ else _) _ => destruct b eqn:? end.

Lemma apply_operation_avoids op base v : triggers why op = false -> calm why v = true ->
  avoids why (apply_operation utf8_split strup strdown toupper tolower expand op base v) rest_calm.
Proof using Hexpand Hwhy.
  intros Ht Hv. unfold apply_operation, op_default, op_alternative, op_remove_prefix, op_remove_suffix. head_ifs';
    repeat match goal with H : (_ || _) = true |- _ => apply orb_prop in H as [H|H] end;
    repeat match goal with H : (op =? _)%char = true |- _ => apply Ascii.eqb_eq in H end; subst.
  - eapply avoids_bind; [by apply Hexpand|]. by intros [? ?].
  - eapply avoids_bind; [by apply Hexpand|]. by intros [? ?].
  - apply op_substring_avoids; [by destruct why|done].
  - eapply avoids_bind; [by apply Hexpand|]. by intros [? ?].
  - eapply avoids_bind; [by apply Hexpand|]. intros [? ?] ?.
    eapply avoids_bind; [apply strip_suffix_avoids; by destruct why|]. done.
  - apply op_replace_avoids; [by destruct why|done].
  - apply op_case_avoids; [by destruct why|done].
  - apply op_case_avoids; [by destruct why|done].
  - done.
Qed.

Context (get_base_value : string -> string * string).
Context (Hbase : forall v, calm why v = true -> calm why (snd (get_base_value v)) = true).

Lemma variable_get_value_avoids v : calm why v = true ->
  avoids why (variable_get_value utf8_split strup strdown toupper tolower expand get_base_value v)
    (fun r => calm why (snd r) = true).
Proof using Hexpand Hwhy Hbase.
  intros Hv. unfold variable_get_value. pose proof (Hbase v Hv) as Hf.
  destruct (get_base_value v) as [base v1]. cbn [snd] in Hf.
  assert (triggers why (first_char v1) = false) as Ht.
  { destruct v1 as [|c v1]; [by destruct why|]. by apply calm_cons in Hf as [? _]. }
  eapply avoids_bind; [apply apply_operation_avoids; [done|destruct (_ || _); [done|by apply calm_drop]]|].
  intros [s v3] H3. cbn [snd] in H3.
  destruct v3 as [|[[] [] [] [] [] [] [] []] v4]; cbn; try done; by apply calm_cons in H3 as [_ ?].
Qed.

End operations.

Lemma write_avoids b s : avoids why (write b s) (fun _ => True).
Proof using Hwhy. unfold write. destruct (_ <=? _)%nat; cbn; congruence || done. Qed.

Lemma put_avoids b rest c : avoids why (put b rest c) (fun _ => True).
Proof using Hwhy. apply write_avoids. Qed.

Lemma copy_plain_avoids stop n source b : (len source <= n)%nat -> calm why source = true ->
  avoids why (copy_plain stop source b) (fun r => calm why (fst r) = true).
Proof using Hwhy.
  revert source b. induction n as [|n IH]; intros source b Hn Hs.
  { destruct source; cbn in *; [done|lia]. }
  destruct source as [|c s]; [done|]. cbn in Hn. cbn [copy_plain]. pose proof (calm_cons _ _ Hs) as [_ Hs1].
  assert (forall k d s', (len s' <= len s)%nat -> calm why s' = true ->
    avoids why (let! b := put b k d in copy_plain stop s' b) (fun r => calm why (fst r) = true)) as Hput.
  { intros k d s' Hk Hs'. eapply avoids_bind; [apply put_avoids|]. intros b' _. apply IH; [lia|done]. }
  destruct (c =? stop)%char; [done|]. destruct (c =? "\")%char.
  - destruct s as [|d s']; [eapply avoids_bind; [apply put_avoids|done]|].
    apply Hput; [cbn; lia|]. by apply calm_cons in Hs1 as [_ ?].
  - destruct s as [|[[] [] [] [] [] [] [] []] s']; try (by apply Hput).
    destruct (c =? "$")%char; [done|by apply Hput].
Qed.

Lemma expand_loop_avoids (utf8_split : string -> list string) strup strdown toupper tolower get_base_value
    (Hbase : forall v, calm why v = true -> calm why (snd (get_base_value v)) = true) fuel source stop b :
  calm why source = true ->
  avoids why (expand_loop utf8_split strup strdown toupper tolower get_base_value fuel source stop b) rest_calm.
Proof using Hwhy.
  revert source stop b. induction fuel as [|fuel IH]; intros source stop b Hs; [done|].
  cbn [expand_loop]. eapply avoids_bind; [by apply (copy_plain_avoids stop (len source))|].
  intros [src b1] Hsrc. cbn [fst] in Hsrc.
  assert (avoids why (if (len (written b1) <=? result_length b1)%nat then Ok (written b1, src) else Bad BufferOverflow) rest_calm) as Hend
    by (destruct (_ <=? _)%nat; cbn; congruence || done).
  destruct src as [|c rest]; [exact Hend|]. pose proof (calm_cons _ _ Hsrc) as [_ Hrest].
  destruct c as [[] [] [] [] [] [] [] []]; try exact Hend. clear Hend.
  eapply avoids_bind; [apply variable_get_value_avoids; [by intros; apply IH|done|by apply calm_drop]|].
  intros [[replacement|] after] Hafter; cbn [snd] in Hafter.
  - eapply avoids_bind; [apply write_avoids|]. intros b2 _. by apply IH.
  - eapply avoids_bind; [apply write_avoids|]. intros b2 _. by apply IH.
Qed.

End calm.

Section calm_values.
Context {F : Type} (env : environment (F:=F)) (why : fault).

Definition b_calm (b : branch) : Prop := forall rest, calm why rest = true -> calm why (snd (fst (b_value b rest))) = true.

Lemma first_prefix_calm s names rest : calm why s = true -> first_prefix s names = Some rest -> calm why rest = true.
Proof.
  intros Hs. induction names as [|n names IH]; [done|]. cbn. unfold has_prefix.
  destruct (String.prefix n s); [|exact IH]. intros [= <-]. by apply calm_drop.
Qed.

Lemma skip_alpha_calm s : calm why s = true -> calm why (skip_alpha s) = true.
Proof. induction s as [|c s IH]; [done|]. intros Hs. cbn. destruct (_ || _); [|done]. apply IH. by apply calm_cons in Hs as [_ ?]. Qed.

Lemma first_branch_calm bs s : Forall b_calm bs -> calm why s = true -> calm why (snd (fst (first_branch bs s))) = true.
Proof.
  intros Hbs. revert s. induction Hbs as [|b bs Hb Hbs IH]; intros s Hs; cbn [first_branch]; [by apply skip_alpha_calm|].
  destruct (first_prefix s (b_names b)) as [rest|] eqn:E; [|by apply IH].
  apply first_prefix_calm in E; [|done]. destruct (b_guard b); [by apply Hb|by apply IH].
Qed.

Lemma sequence_calm params : b_calm (Branch ["SEQUENCE"] true (sequence_value (F:=F) params)).
Proof. intros [|c s] Hs; cbn in *; [done|]. destruct (is_digit c); [|done]. by apply calm_cons in Hs as [_ ?]. Qed.

Lemma category_calm params : b_calm (Branch ["CATEGORY"] true (category_value env params)).
Proof.
  intros s Hs. cbn [b_value]. unfold category_value. destruct s as [|c s]; [done|]. destruct (is_digit c); [|done].
  apply calm_cons in Hs as [_ Hs].
  destruct s as [|[[] [] [] [] [] [] [] []] s']; try done.
  destruct (strstr ")" s') as [[x y]|] eqn:E; [|done]. cbn [fst snd]. apply calm_drop.
  apply strstr_Some in E as [-> _]. apply calm_cons in Hs as [_ Hs]. unfold calm in *. rewrite str_forall_app in Hs.
  by apply andb_prop in Hs as [_ ?].
Qed.

Lemma get_base_value_calm params v : calm why v = true -> calm why (snd (get_base_value env params v)) = true.
Proof.
  intros Hv. unfold get_base_value. assert (Forall b_calm (branches env params)) as Hbs.
  { unfold branches. repeat apply Forall_app_2;
      repeat (apply Forall_cons_2; [first [by intros rest|apply sequence_calm|apply category_calm]|]); apply Forall_nil_2. }
  pose proof (first_branch_calm _ v Hbs Hv) as H. by destruct (first_branch _ _) as [[r rest] e].
Qed.

End calm_values.

(** ** What is copied, and what a variable expands to *)

(** Characters that the inner loop copies as they are. *)
Definition plain (stop : ascii) (s : string) : bool :=
  str_forall (fun c => negb (Ascii.eqb c "\" || Ascii.eqb c "$" || Ascii.eqb c stop)) s.

(** A backslash in front of every character. *)
Fixpoint escape (s : string) : string :=
  match s with
  | EmptyString => ""
  | String c s => String "\" (String c (escape s))
  end.

Lemma grow_written b n : written (grow_buffer b n) = written b.
Proof. unfold grow_buffer. by destruct (_ <? _)%nat. Qed.

Lemma write_safe_written b s :
  safe (write b s) fits -> exists b', write b s = Ok b' /\ written b' = written b +:+ s /\ fits b'.
Proof. unfold write. destruct (_ <=? _)%nat; [|done]. intros H. by eexists. Qed.

Lemma put_written b rest c :
  (0 < rest)%nat -> fits b ->
  exists b', put b rest c = Ok b' /\ written b' = written b +:+ String c "" /\ fits b'.
Proof.
  intros Hr Hb. pose proof (put_safe b rest c Hr) as H. unfold put in *.
  destruct (write_safe_written _ _ H) as (b' & Hb' & Hw & Hf). exists b'. split; [done|]. split; [|done].
  rewrite Hw. f_equal. destruct (_ <=? _)%nat; [|done]. apply grow_written.
Qed.

Lemma copy_plain_text stop s rest b :
  plain stop s = true -> fits b ->
  exists b', copy_plain stop (s +:+ rest) b = copy_plain stop rest b' /\
    written b' = written b +:+ s /\ fits b'.
Proof.
  revert b. induction s as [|c s IH]; intros b Hs Hb.
  { exists b. by rewrite str_app_nil_r. }
  cbn in Hs. apply andb_prop in Hs as [Hc Hs]. apply negb_true_iff in Hc.
  apply orb_false_elim in Hc as [[Hbs Hd]%orb_false_elim Hstop].
  destruct (put_written b (len (String c s +:+ rest)) c) as (b1 & Hput & Hw & Hf); [cbn; lia|done|].
  destruct (IH b1 Hs Hf) as (b' & Hcopy & Hw' & Hf'). exists b'.
  split; [|by rewrite Hw', Hw, str_app_assoc].
  rewrite <- Hcopy. cbn [String.append copy_plain]. rewrite Hstop, Hbs.
  cbn [String.append] in Hput. rewrite Hput. cbn [o_bind].
  destruct (s +:+ rest) as [|[[] [] [] [] [] [] [] []] ?]; rewrite ?Hd; done.
Qed.

Lemma copy_plain_escape stop s b :
  stop <> "\"%char -> fits b ->
  exists b', copy_plain stop (escape s) b = Ok ("", b') /\ written b' = written b +:+ s /\ fits b'.
Proof.
  intros Hstop. revert b. induction s as [|c s IH]; intros b Hb.
  { exists b. by rewrite str_app_nil_r. }
  cbn [escape copy_plain]. destruct (Ascii.eqb_spec "\" stop) as [<-|_]; [done|].
  destruct (put_written b (len (String c (escape s))) c) as (b1 & Hput & Hw & Hf); [cbn; lia|done|].
  change ("\" =? "\")%char with true. cbv iota. rewrite Hput. cbn [o_bind].
  destruct (IH b1 Hf) as (b' & -> & Hw' & Hf'). exists b'. by rewrite Hw', Hw, str_app_assoc.
Qed.

Lemma write_grown b s :
  exists b', write (grow_buffer b (len s)) s = Ok b' /\ written b' = written b +:+ s /\ fits b'.
Proof.
  destruct (write_safe_written _ _ (write_safe b s (len s) (le_n _))) as (b' & Hb' & Hw & Hf).
  exists b'. by rewrite grow_written in Hw.
Qed.

(** What the names of variables are made of. *)
Definition name_char (c : ascii) : bool :=
  ((65 <=? Z_of_byte c) && (Z_of_byte c <=? 90)) || (c =? "_")%char.

Section meaning.
Context (utf8_split : string -> list string).
Context (strup strdown toupper tolower : string -> string).
Context (get_base_value : string -> string * string).
Abbreviation loop := (expand_loop utf8_split strup strdown toupper tolower get_base_value).
Abbreviation value_of ex :=
  (variable_get_value utf8_split strup strdown toupper tolower ex get_base_value).

Lemma fits_nil : fits (Buf "" 0).
Proof using. clear. unfold fits. cbn. lia. Qed.

(** The loop at its end. *)
Lemma loop_end fuel stop s source b b' :
  copy_plain stop source b = Ok (s, b') -> fits b' -> (s = "" \/ exists s', s = String stop s') ->
  stop <> "$"%char -> loop (S fuel) source stop b = Ok (written b', s).
Proof using.
  clear. intros Hc Hf Hs Hstop. cbn [expand_loop]. rewrite Hc. cbn [o_bind].
  assert ((len (written b') <=? result_length b')%nat = true) as -> by (apply Nat.leb_le; exact Hf).
  destruct Hs as [->|(s' & ->)]; [done|]. destruct stop as [[] [] [] [] [] [] [] []]; done.
Qed.

(** Text without special characters, up to the stop character or the end. *)
Lemma loop_plain fuel stop s rest :
  plain stop s = true -> stop <> "$"%char -> (rest = "" \/ exists s', rest = String stop s') ->
  loop (S fuel) (s +:+ rest) stop (Buf "" 0) = Ok (s, rest).
Proof using.
  clear. intros Hs Hstop Hrest.
  destruct (copy_plain_text stop s rest (Buf "" 0) Hs fits_nil) as (b' & Hc & Hw & Hf).
  assert (copy_plain stop rest b' = Ok (rest, b')) as Hend.
  { destruct Hrest as [->|(s' & ->)]; [done|]. cbn [copy_plain]. by rewrite Ascii.eqb_refl. }
  rewrite Hend in Hc. rewrite (loop_end fuel stop rest _ _ _ Hc Hf Hrest Hstop), Hw. done.
Qed.

(** A variable at the very beginning. *)
Lemma loop_variable fuel v stop :
  stop <> "$"%char ->
  loop (S fuel) (String "$" (String "(" v)) stop (Buf "" 0) =
  (let! (replacement, after) := value_of (fun s stop => loop fuel s stop (Buf "" 0)) v in
   match replacement with
   | Some r => let! b := write (grow_buffer (Buf "" 0) (len r)) r in loop fuel after stop b
   | None => let! b := write (grow_buffer (Buf "" 0) (len (String "$" (String "(" v)))) "$" in
             loop fuel (String "(" v) stop b
   end).
Proof using.
  clear. intros Hstop. cbn [expand_loop copy_plain]. destruct (Ascii.eqb_spec "$" stop); [by subst|]. done.
Qed.

(** A variable whose value is [r], at the end of the text. *)
Lemma loop_value fuel v r :
  value_of (fun s stop => loop (S fuel) s stop (Buf "" 0)) v = Ok (Some r, "") ->
  loop (S (S fuel)) (String "$" (String "(" v)) NUL (Buf "" 0) = Ok (r, "").
Proof using.
  clear. intros Hv. rewrite loop_variable by done. rewrite Hv. cbn [o_bind].
  destruct (write_grown (Buf "" 0) r) as (b' & -> & Hw & Hf). cbn [o_bind].
  rewrite (loop_end fuel NUL "" "" b' b'); [by rewrite Hw|done|done|by left|done].
Qed.

(** [name] is a variable with the value [v]. *)
Definition resolves (name v : string) : Prop :=
  forall c s, name_char c = false -> get_base_value (name +:+ String c s) = (v, String c s).

Lemma value_of_op ex name v op s :
  resolves name v -> name_char op = false -> op <> ")"%char -> op <> NUL ->
  value_of ex (name +:+ String op s) =
  (let! (value, variable) := apply_operation utf8_split strup strdown toupper tolower ex op v s in
   match variable with
   | String ")" variable => Ok (Some value, variable)
   | _ => Ok (None, variable)
   end).
Proof using.
  clear. intros Hn Hop H1 H2. unfold variable_get_value. rewrite (Hn op s Hop).
  cbn [first_char]. destruct (Ascii.eqb_spec op NUL); [done|]. destruct (Ascii.eqb_spec op ")"); [done|]. done.
Qed.

(** The dispatch on the operation character. *)
Section dispatch.
Context (ex : string -> ascii -> outcome (string * string)) (base v : string).
Abbreviation apply op := (apply_operation utf8_split strup strdown toupper tolower ex op base v).
Lemma apply_default : apply "-"%char = op_default ex base v.
Proof using. done. Qed.
Lemma apply_alternative : apply "+"%char = op_alternative ex base v.
Proof using. done. Qed.
Lemma apply_substring : apply ":"%char = op_substring utf8_split base v.
Proof using. done. Qed.
Lemma apply_prefix : apply "#"%char = op_remove_prefix ex base v.
Proof using. done. Qed.
Lemma apply_suffix : apply "%"%char = op_remove_suffix ex base v.
Proof using. done. Qed.
Lemma apply_replace : apply "/"%char = op_replace ex base v.
Proof using. done. Qed.
Lemma apply_upper : apply "^"%char = op_case utf8_split strup strdown toupper tolower "^" base v.
Proof using. done. Qed.
End dispatch.

(** The expansion of a text that is one variable with the operation [op]. *)
Lemma expand_op name v op s r :
  resolves name v -> name_char op = false -> op <> ")"%char -> op <> NUL ->
  apply_operation utf8_split strup strdown toupper tolower
    (fun t stop => loop (S (S (len (name +:+ String op s)))) t stop (Buf "" 0)) op v s = Ok (r, ")") ->
  expand utf8_split strup strdown toupper tolower get_base_value ("$(" +:+ name +:+ String op s) NUL
    = Ok (r, "").
Proof using.
  clear. intros Hn Hop H1 H2 Happ. unfold expand. cbn [String.append String.length].
  apply loop_value. rewrite (value_of_op _ name v op s Hn Hop H1 H2), Happ. done.
Qed.

Lemma expand_bad name v op s why :
  resolves name v -> name_char op = false -> op <> ")"%char -> op <> NUL ->
  apply_operation utf8_split strup strdown toupper tolower
    (fun t stop => loop (S (S (len (name +:+ String op s)))) t stop (Buf "" 0)) op v s = Bad why ->
  expand utf8_split strup strdown toupper tolower get_base_value ("$(" +:+ name +:+ String op s) NUL
    = Bad why.
Proof using.
  clear. intros Hn Hop H1 H2 Happ. unfold expand. cbn [String.append String.length].
  rewrite loop_variable by done. by rewrite (value_of_op _ name v op s Hn Hop H1 H2), Happ.
Qed.

Lemma loop_paren fuel s : plain ")" s = true -> loop (S fuel) (s +:+ ")") ")" (Buf "" 0) = Ok (s, ")").
Proof using. clear. intros Hs. apply loop_plain; [done|done|right; by exists ""]. Qed.

Lemma strip_suffix_app s p0 : strip_suffix (s +:+ p0) p0 = Ok (Some s).
Proof using.
  clear. unfold strip_suffix. rewrite str_length_app.
  destruct (Nat.ltb_spec (len s + len p0) (len p0)); [lia|].
  replace (len s + len p0 - len p0)%nat with (len s) by lia. rewrite str_drop_app by done.
  assert (String.prefix p0 p0 = true) as ->.
  { rewrite <- (str_app_nil_r p0) at 2. apply str_prefix_app. }
  do 2 f_equal. clear. induction s; [by destruct p0|]. cbn. by f_equal.
Qed.

Lemma loop_slash fuel s t :
  plain "/" s = true -> loop (S fuel) (s +:+ String "/" t) "/" (Buf "" 0) = Ok (s, String "/" t).
Proof using. clear. intros Hs. apply loop_plain; [done|done|right; by exists t]. Qed.

(** A pattern that does not select one of the other modes. *)
Definition mode_free (p0 : string) : Prop :=
  exists c s, p0 = String c s /\ c <> "/"%char /\ c <> "#"%char /\ c <> "%"%char.

(** Replacement of the first occurrence. *)
Lemma replace_plain fuel v p0 r :
  plain "/" p0 = true -> plain ")" r = true -> mode_free p0 ->
  op_replace (fun t stop => loop (S fuel) t stop (Buf "" 0)) v (p0 +:+ "/" +:+ r +:+ ")") =
    Ok (match strstr p0 v with
        | Some (before, found) => before +:+ r +:+ str_drop (len p0) found
        | None => v
        end, ")").
Proof using.
  clear. intros Hps Hr (c & s & Heq & H1%Ascii.eqb_neq & H2%Ascii.eqb_neq & H3%Ascii.eqb_neq).
  unfold op_replace.
  assert (first_char (p0 +:+ "/" +:+ r +:+ ")") = c) as -> by by subst p0.
  rewrite H1, H2, H3. cbn [orb o_bind]. change ("/" +:+ r +:+ ")") with (String "/" (r +:+ ")")).
  rewrite loop_slash by done. cbn [o_bind next_char]. rewrite loop_paren by done. cbn [o_bind].
  unfold replace_mode. rewrite H1, H2, H3. by subst p0.
Qed.

End meaning.

(** ** No name hides another *)

Section names.

(** No name in the list begins a later one, or a later one again. *)
Fixpoint no_clash (ns : list string) : bool :=
  match ns with
  | [] => true
  | n :: ns => forallb (fun m => negb (String.prefix n m)) ns && no_clash ns
  end.

Lemma prefix_name m n c s :
  str_forall name_char m = true -> name_char c = false ->
  String.prefix m (n +:+ String c s) = String.prefix m n.
Proof.
  intros Hm Hc. revert n. induction m as [|d m IH]; intros n; [by destruct n|].
  cbn in Hm. apply andb_prop in Hm as [Hd Hm]. destruct n as [|e n].
  - cbn. destruct (ascii_dec d c) as [->|]; [congruence|done].
  - cbn. destruct (ascii_dec d e); [by apply IH|done].
Qed.

Lemma prefix_refl n : String.prefix n n = true.
Proof. rewrite <- (str_app_nil_r n) at 2. apply str_prefix_app. Qed.

(** The branch of a name is found, if no earlier name begins it. *)
Lemma first_prefix_found ns n c s :
  forallb (str_forall name_char) ns = true -> no_clash ns = true -> n ∈ ns -> name_char c = false ->
  first_prefix (n +:+ String c s) ns = Some (String c s).
Proof.
  intros Hns Hcl Hn Hc. induction ns as [|m ns IH]; [by apply not_elem_of_nil in Hn|].
  cbn in Hns, Hcl. apply andb_prop in Hns as [Hm Hns]. apply andb_prop in Hcl as [Hf Hcl].
  cbn [first_prefix]. unfold has_prefix. rewrite prefix_name by done.
  apply elem_of_cons in Hn as [->|Hn].
  - rewrite prefix_refl. by rewrite str_drop_app.
  - rewrite forallb_forall in Hf. specialize (Hf n (proj1 (list_elem_of_In _ _) Hn)).
    apply negb_true_iff in Hf. rewrite Hf. by apply IH.
Qed.

Lemma first_prefix_other ns ms n c s :
  forallb (str_forall name_char) ns = true -> no_clash (ns ++ ms) = true -> n ∈ ms ->
  name_char c = false -> first_prefix (n +:+ String c s) ns = None.
Proof.
  intros Hns Hcl Hn Hc. induction ns as [|m ns IH]; [done|]. cbn in Hns, Hcl.
  apply andb_prop in Hns as [Hm Hns]. apply andb_prop in Hcl as [Hf Hcl].
  cbn [first_prefix]. unfold has_prefix. rewrite prefix_name by done.
  rewrite forallb_forall in Hf. specialize (Hf n). rewrite in_app_iff in Hf.
  specialize (Hf (or_intror (proj1 (list_elem_of_In _ _) Hn))). apply negb_true_iff in Hf.
  rewrite Hf. by apply IH.
Qed.

Lemma no_clash_app ns ms : no_clash (ns ++ ms) = true -> no_clash ns = true /\ no_clash ms = true.
Proof.
  induction ns as [|n ns IH]; cbn; [done|]. rewrite forallb_app.
  intros [[Hf _]%andb_prop Hc]%andb_prop. apply IH in Hc as [-> ->]. by rewrite Hf.
Qed.

Lemma first_branch_found bs b n c s :
  forallb (str_forall name_char) (concat (map b_names bs)) = true ->
  no_clash (concat (map b_names bs)) = true ->
  b ∈ bs -> n ∈ b_names b -> b_guard b = true -> name_char c = false ->
  first_branch bs (n +:+ String c s) = b_value b (String c s).
Proof.
  intros Hns Hcl Hb Hn Hg Hc. induction bs as [|b0 bs IH]; [by apply not_elem_of_nil in Hb|].
  cbn in Hns, Hcl. rewrite forallb_app in Hns. apply andb_prop in Hns as [Hns0 Hns].
  pose proof (no_clash_app _ _ Hcl) as [Hcl0 Hcl1]. cbn [first_branch].
  apply elem_of_cons in Hb as [->|Hb].
  - by rewrite first_prefix_found, Hg.
  - rewrite (first_prefix_other _ _ _ _ _ Hns0 Hcl); [by apply IH| |done].
    apply list_elem_of_In, in_concat. exists (b_names b). split; [|by apply list_elem_of_In].
    apply in_map. by apply list_elem_of_In.
Qed.

End names.

(** ** Properties *)

Section properties.
Context {F : Type} (env : environment (F:=F)).
Abbreviation expand_in params source :=
  (expand (e_utf8_split env) (e_strup env) (e_strdown env) (e_toupper env) (e_tolower env)
     (get_base_value env params) source NUL).

(** C16: the expansion of a text always ends, for every text and every state of the
    program, and never writes beyond its result buffer, however variables are
    nested and whether or not their parentheses are closed. It ends with a text, or with a
    read outside a string, which takes one of the operations % : / ^ , in the text, or with
    a negative length, which takes a colon, or within the replacement of a text, which takes
    a slash: a text with none of these five characters always has an expansion. *)
Theorem expansion_ends params source iterate :
  match fst (dt_variables_expand env params source iterate) with
  | Ok _ => True
  | Bad why => why <> BufferOverflow /\ exists text, source = Some text /\ calm why text = false
  | NoFuel => False
  end.
Proof.
  unfold dt_variables_expand. destruct source as [source|]; [|done]. cbn [fst].
  set (params' := init_expansion env params iterate).
  pose proof (expand_loop_safe (e_utf8_split env) (e_strup env) (e_strdown env) (e_toupper env)
    (e_tolower env) (get_base_value env params') (get_base_value_forward env params')
    (S (len source)) source NUL (Buf "" 0) ltac:(lia) fits_nil) as H.
  assert (forall why, why <> BufferOverflow -> calm why source = true ->
    avoids why (expand (e_utf8_split env) (e_strup env) (e_strdown env) (e_toupper env) (e_tolower env) (get_base_value env params') source NUL)
      (fun r => calm why (snd r) = true)) as Havoid
    by (intros why Hw Hc; apply expand_loop_avoids; [done|apply get_base_value_calm|done]).
  unfold expand in *. destruct (expand_loop _ _ _ _ _ _ _ _ _ _) as [[s r]|why|]; [done| |done]. cbn [o_bind].
  assert (why <> BufferOverflow) as Hw by by intros ->. split; [done|]. exists source. split; [done|].
  destruct (calm why source) eqn:Hc; [|done]. by destruct (Havoid why Hw Hc).
Qed.

(** Every text can be written so that it expands to itself: with a backslash in
    front of each character. *)
Theorem escaped_text_is_literal params text :
  expand_in params (escape text) = Ok (text, "").
Proof.
  destruct (copy_plain_escape NUL text (Buf "" 0)) as (b' & Hc & Hw & Hf); [done|apply fits_nil|].
  unfold expand. rewrite (loop_end _ _ _ _ _ _ _ NUL "" _ _ b' Hc Hf); [by rewrite Hw|by left|done].
Qed.

(** The operations on a variable whose value is [v], with plain operands:
    default, alternative, removal of a prefix or a suffix, replacement of the first
    occurrence or of a prefix do what they are documented to do. *)
Theorem operations_spec params name v d p0 r
    (Hn : resolves (get_base_value env params) name v)
    (Hd : plain ")" d = true) (Hp : plain ")" p0 = true) (Hps : plain "/" p0 = true)
    (Hr : plain ")" r = true) (Hmode : mode_free p0) :
  expand_in params ("$(" +:+ name +:+ "-" +:+ d +:+ ")") = Ok (if String.eqb v "" then d else v, "") /\
  expand_in params ("$(" +:+ name +:+ "+" +:+ d +:+ ")") = Ok (if String.eqb v "" then v else d, "") /\
  expand_in params ("$(" +:+ name +:+ "#" +:+ p0 +:+ ")") =
    Ok (if starts_with v p0 then str_drop (len p0) v else v, "") /\
  (forall s, v = s +:+ p0 ->
     expand_in params ("$(" +:+ name +:+ "%" +:+ p0 +:+ ")") = Ok (s, "")) /\
  expand_in params ("$(" +:+ name +:+ "/" +:+ p0 +:+ "/" +:+ r +:+ ")") =
    Ok (match strstr p0 v with
        | Some (before, found) => before +:+ r +:+ str_drop (len p0) found
        | None => v
        end, "") /\
  expand_in params ("$(" +:+ name +:+ "/#" +:+ p0 +:+ "/" +:+ r +:+ ")") =
    Ok (if starts_with v p0 then r +:+ str_drop (len p0) v else v, "").
Proof.
  split_and!.
  - apply (expand_op _ _ _ _ _ _ name v); [done..|]. rewrite apply_default. unfold op_default.
    by rewrite loop_paren.
  - apply (expand_op _ _ _ _ _ _ name v); [done..|]. rewrite apply_alternative. unfold op_alternative.
    by rewrite loop_paren.
  - apply (expand_op _ _ _ _ _ _ name v); [done..|]. rewrite apply_prefix. unfold op_remove_prefix.
    by rewrite loop_paren.
  - intros s ->. apply (expand_op _ _ _ _ _ _ name (s +:+ p0)); [done..|]. rewrite apply_suffix.
    unfold op_remove_suffix. rewrite loop_paren by done. cbn [o_bind]. by rewrite strip_suffix_app.
  - apply (expand_op _ _ _ _ _ _ name v); [done..|]. rewrite apply_replace. by apply replace_plain.
  - apply (expand_op _ _ _ _ _ _ name v); [done..|]. rewrite apply_replace. unfold op_replace.
    change ("/" +:+ r +:+ ")") with (String "/" (r +:+ ")")).
    cbn [first_char Ascii.eqb Bool.eqb orb next_char o_bind]. rewrite loop_slash by done. cbn [o_bind next_char].
    by rewrite loop_paren.
Qed.

(** No variable hides another: in the chain of prefix tests every name that is
    tested reaches its own branch when no letter or underscore follows it, and its
    value, escaped if so asked, is the value of that branch. *)
Theorem every_name_reached params b n c s
    (Hb : b ∈ branches env params) (Hn : n ∈ b_names b) (Hg : b_guard b = true)
    (Hc : name_char c = false) :
  get_base_value env params (n +:+ String c s) =
    let '(v, rest, escape) := b_value b (String c s) in
    (if escape_markup params && escape then markup_escape env (default "" v) else default "" v, rest).
Proof.
  unfold get_base_value. rewrite (first_branch_found (branches env params) b); [done|reflexivity|reflexivity|done..].
Qed.

(** Four uses of a variable are undefined on values that are too short: removing
    a suffix longer than the value, a negative length on an empty value, changing
    the case of the first character of an empty value; and a replacement without
    its second slash runs off the end of the text. *)
Theorem undefined_operations params name v p0
    (Hn : resolves (get_base_value env params) name v)
    (Hp : plain ")" p0 = true) (Hps : plain "/" p0 = true) (Hmode : mode_free p0) :
  ((len v < len p0)%nat ->
     expand_in params ("$(" +:+ name +:+ "%" +:+ p0 +:+ ")") = Bad OutsideString) /\
  (e_utf8_split env v = [] -> expand_in params ("$(" +:+ name +:+ ":0:-1)") = Bad OutsideString) /\
  (e_utf8_split env v = [] -> expand_in params ("$(" +:+ name +:+ "^)") = Bad OutsideString) /\
  expand_in params ("$(" +:+ name +:+ "/" +:+ p0) = Bad OutsideString.
Proof.
  split_and!.
  - intros Hlt. apply (expand_bad _ _ _ _ _ _ name v); [done..|]. rewrite apply_suffix.
    unfold op_remove_suffix. rewrite loop_paren by done. cbn [o_bind]. unfold strip_suffix.
    by destruct (Nat.ltb_spec (len v) (len p0)); [|lia].
  - intros Hs. apply (expand_bad _ _ _ _ _ _ name v); [done..|]. rewrite apply_substring.
    unfold op_substring. rewrite Hs. reflexivity.
  - intros Hs. apply (expand_bad _ _ _ _ _ _ name v); [done..|]. rewrite apply_upper.
    unfold op_case. by rewrite Hs.
  - apply (expand_bad _ _ _ _ _ _ name v); [done..|]. rewrite apply_replace.
    destruct Hmode as (c & s & Heq & H1%Ascii.eqb_neq & H2%Ascii.eqb_neq & H3%Ascii.eqb_neq).
    unfold op_replace. assert (first_char p0 = c) as -> by by subst p0. rewrite H1, H2, H3. cbn [orb o_bind].
    rewrite <- (str_app_nil_r p0) at 2. rewrite loop_plain; [done|done|done|by left].
Qed.

End properties.

(** ** An environment to run the expansion in *)

Definition example_image : dt_image_t (F:=unit) :=
  Image "2021:03:04 05:06:07" 100 "Canon" "EOS" "50mm" 0 3 tt tt tt tt tt.

(** One byte per character, an image without a title. *)
Definition example_env : environment (F:=unit) :=
  Env (fun _ => example_image) (fun _ => Some (Tm 2021 3 4 5 6 7)) (fun _ => Tm 121 2 4 5 6 7)
      (fun _ k => if String.eqb k "Xmp.dc.creator" then Some "jane doe" else None)
      (fun _ => []) (fun _ => "") (fun _ => "") (fun _ => None) (fun _ _ _ => None) (fun _ _ => [])
      (fun _ => None) (Some "jane") (Some "/home/jane") None None
      (fun _ => "/home/jane/Pictures") (fun s => s) (fun s => s) (fun s => s) (fun _ => "1/2")
      (fun _ _ => "0.0") (fun _ => false) (fun _ => false) (fun _ => 0) tt tt
      (fun s => map (fun c => String c "") (list_ascii_of_string s)) (fun s => s) (fun s => s)
      (fun s => s) (fun s => s).

Definition example_params : dt_variables_params_t (F:=unit) :=
  init_expansion example_env
    (Params (Some "/tmp/a.raw") (Some "infos") 1 (-1)
       (data (dt_variables_params_init example_env 0 tt)) false) false.

Lemma example_resolves name b :
  b ∈ branches example_env example_params -> name ∈ b_names b -> b_guard b = true ->
  (forall s, b_value b s = (fst (fst (b_value b "")), s, snd (b_value b ""))) ->
  resolves (get_base_value example_env example_params) name (default "" (fst (fst (b_value b "")))).
Proof.
  intros Hb Hn Hg Hv c s Hc. unfold get_base_value.
  rewrite (first_branch_found (branches example_env example_params) b); [|reflexivity|reflexivity|done..].
  by rewrite Hv.
Qed.

Lemma example_creator : resolves (get_base_value example_env example_params) "CREATOR" "jane doe".
Proof.
  apply (example_resolves "CREATOR" (value ["CREATOR"] (Some "jane doe"))); [|by left|done|done].
  by apply (list_elem_of_lookup_2 _ 45).
Qed.

Lemma example_title : resolves (get_base_value example_env example_params) "TITLE" "".
Proof.
  apply (example_resolves "TITLE" (value ["TITLE"] None)); [|by left|done|done].
  by apply (list_elem_of_lookup_2 _ 43).
Qed.

Lemma operations_spec_witness :
  expand (e_utf8_split example_env) (e_strup example_env) (e_strdown example_env)
    (e_toupper example_env) (e_tolower example_env) (get_base_value example_env example_params)
    "$(CREATOR/doe/d.)" NUL = Ok ("jane d.", "").
Proof.
  refine (proj1 (proj2 (proj2 (proj2 (proj2 (operations_spec example_env example_params "CREATOR"
    "jane doe" "x" "doe" "d." example_creator _ _ _ _ _)))))); try reflexivity.
  exists "d"%char, "oe". done.
Defined.

Lemma every_name_reached_witness :
  get_base_value example_env example_params "CREATOR)" = ("jane doe", ")").
Proof.
  refine (every_name_reached example_env example_params (value ["CREATOR"] (Some "jane doe"))
    "CREATOR" ")" "" _ _ _ _); [|by left|reflexivity|reflexivity].
  by apply (list_elem_of_lookup_2 _ 45).
Defined.

Lemma undefined_operations_witness :
  expand (e_utf8_split example_env) (e_strup example_env) (e_strdown example_env)
    (e_toupper example_env) (e_tolower example_env) (get_base_value example_env example_params)
    "$(TITLE:0:-1)" NUL = Bad OutsideString.
Proof.
  refine (proj1 (proj2 (undefined_operations example_env example_params "TITLE" "" "x" example_title _ _ _)) _);
    try reflexivity.
  exists "x"%char, "". done.
Defined.
