(* ===== verification/Conf.v ===== *)
(** The configuration store of control/conf.c: three tables of strings (what the
    user has set, the defaults of the installation, and what the command line
    overrides), the file they are loaded from and saved to, and the typed getters
    and setters. Numbers are read by the calculator of common/calculator.c.

    A hash table is a [gmap]; a file is its contents, [None] if it cannot be
    opened. The mutex makes every operation atomic. [fscanf] with the format
    [%1023[^\r\n]\r\n] is modelled with its matching failure on an empty line: it
    then consumes nothing, and the loop around it does not end. *)

From Stdlib Require Import Ascii String SpecFloat DecimalString.
From S2P Require Import Prelude Floats Utility Calculator.
Local Open Scope Z_scope.

(** ** Data *)

Record dt_conf_t := Conf {
  conf_filename : string;
  table : gmap string string;
  defaults : gmap string string;
  override_entries : gmap string string;
}.

Definition set_table (t : gmap string string) (c : dt_conf_t) : dt_conf_t :=
  Conf (conf_filename c) t (defaults c) (override_entries c).

(** ** Values as text *)

(** The value and the store, into which a default, or an empty string for an
    unknown name, has been copied. *)
Definition dt_conf_get_var (c : dt_conf_t) (name : string) : string * dt_conf_t :=
  match override_entries c !! name with
  | Some str => (str, c)
  | None =>
      match table c !! name with
      | Some str => (str, c)
      | None =>
          let str := default "" (defaults c !! name) in
          (str, set_table (<[name := str]> (table c)) c)
      end
  end.

Definition dt_conf_set_if_not_overridden (c : dt_conf_t) (name str : string) : bool * dt_conf_t :=
  let is_overridden :=
    match override_entries c !! name with Some over => String.eqb str over | None => false end in
  (is_overridden, if is_overridden then c else set_table (<[name := str]> (table c)) c).

Definition dt_conf_set_string (c : dt_conf_t) (name val : string) : dt_conf_t :=
  snd (dt_conf_set_if_not_overridden c name val).

Definition dt_conf_set_int (c : dt_conf_t) (name : string) (val : Z) : dt_conf_t :=
  snd (dt_conf_set_if_not_overridden c name (c_show_int val)).

Definition dt_conf_set_int64 (c : dt_conf_t) (name : string) (val : Z) : dt_conf_t :=
  snd (dt_conf_set_if_not_overridden c name (c_show_int val)).

Definition dt_conf_set_bool (c : dt_conf_t) (name : string) (val : Z) : dt_conf_t :=
  snd (dt_conf_set_if_not_overridden c name (if val =? 0 then "FALSE" else "TRUE")).

Definition dt_conf_get_bool (c : dt_conf_t) (name : string) : bool * dt_conf_t :=
  let '(str, c) := dt_conf_get_var c name in
  (match str with
   | String ch _ => (ch =? "T")%char || (ch =? "t")%char
   | EmptyString => false
   end, c).

Definition dt_conf_get_string (c : dt_conf_t) (name : string) : string * dt_conf_t :=
  dt_conf_get_var c name.

Definition dt_conf_get_string_const (c : dt_conf_t) (name : string) : string * dt_conf_t :=
  dt_conf_get_var c name.

Definition dt_conf_key_exists (c : dt_conf_t) (key : string) : bool :=
  bool_decide (is_Some (table c !! key)) || bool_decide (is_Some (override_entries c !! key)).

(** [_conf_add] on one pair: the key behind the directory and its slash. A key that
    is the directory itself has nothing behind its terminator. *)
Definition _conf_add (match_ : string) (key val : string) (result : list (string * string))
    : c_result (list (string * string)) :=
  if String.prefix match_ key then
    match str_drop (String.length match_) key with
    | EmptyString => Undefined
    | String _ rest => Done (result ++ [(rest, val)])
    end
  else Done result.

(** [iter] is the order in which the hash table enumerates its pairs. *)
Fixpoint dt_conf_all_string_entries (dir : string) (iter : list (string * string))
    (result : list (string * string)) : c_result (list (string * string)) :=
  match iter with
  | [] => Done result
  | (key, val) :: iter =>
      let* result := _conf_add dir key val result in
      dt_conf_all_string_entries dir iter result
  end.

(** ** The file *)

Definition LINE_SIZE : nat := 1023.

Definition is_newline (c : ascii) : bool := (c =? "013")%char || (c =? "010")%char.

(** [%n[^\r\n]] *)
Fixpoint scan_set (n : nat) (s : string) : string * string :=
  match n, s with
  | S n, String c s' =>
      if is_newline c then ("", s)
      else let '(line, rest) := scan_set n s' in (String c line, rest)
  | _, _ => ("", s)
  end.

(** The text of [line] up to a NUL. *)
Fixpoint c_str (s : string) : string :=
  match s with
  | String c s => if (c =? NUL)%char then "" else String c (c_str s)
  | EmptyString => ""
  end.

(** The text before and behind the first [=]. *)
Fixpoint split_line (s : string) : option (string * string) :=
  match s with
  | EmptyString => None
  | String c s =>
      if (c =? "=")%char then Some ("", s)
      else '(key, val) ← split_line s; Some (String c key, val)
  end.

Definition read_line (line : string) (t : gmap string string) : gmap string string :=
  match split_line (c_str line) with
  | Some (key, val) => <[key := val]> t
  | None => t
  end.

(** The loop [while(!feof(f))]; [None] if it does not end. *)
Fixpoint read_loop (fuel : nat) (s : string) (t : gmap string string)
    : option (gmap string string) :=
  match fuel with
  | O => None
  | S fuel =>
      match s with
      | EmptyString => Some t
      | String c _ =>
          if is_newline c then read_loop fuel s t
          else
            let '(line, rest) := scan_set LINE_SIZE s in
            let rest := skip_spaces rest in
            let t := read_line line t in
            match rest with
            | EmptyString => Some t
            | _ => read_loop fuel rest t
            end
      end
  end.

(** Every turn that ends consumes a character. *)
Definition read_file (contents : string) (t : gmap string string) : option (gmap string string) :=
  read_loop (S (String.length contents)) contents t.

Definition dt_conf_print (key val : string) : string := key +:+ "=" +:+ val +:+ String "010" "".

(** What is written to the file at the end of the program. *)
Definition dt_conf_cleanup (c : dt_conf_t) : string :=
  let sorted := g_list_sort g_strcmp0 (map fst (map_to_list (table c))) in
  String.concat "" (map (fun key => dt_conf_print key (default "" (table c !! key))) sorted).

(** ** Numbers *)

Section numbers.
Context (g_ascii_strtod : string -> float * string).
Context (fmodf powf : float -> float -> float).
Context (g_ascii_dtostr : float -> string).

Definition dt_conf_set_float (c : dt_conf_t) (name : string) (val : float) : dt_conf_t :=
  snd (dt_conf_set_if_not_overridden c name (g_ascii_dtostr val)).

(** The float 1. *)
Definition float_one : float := float_of 24 false 1.

Definition is_nan (f : float) : bool := match f with S754_nan => true | _ => false end.

(** The formula in [str], with NaN replaced by 0. *)
Definition solve_value (str : string) : c_result float :=
  match dt_calculator_solve g_ascii_strtod fmodf powf float_one (Some str) with
  | Some v => Done (if is_nan v then S754_zero false else v)
  | None => Undefined
  end.

(** [val = new_value +- 0.5] for an integer type with the given bounds: a value
    that does not fit is undefined. *)
Definition to_integer (lo hi : Z) (new_value : float) : c_result Z :=
  let d := if SFltb (S754_zero false) new_value
           then SFadd 53 1024 (widen new_value) double_half
           else SFsub 53 1024 (widen new_value) double_half in
  match float_trunc d with
  | Some z => if (lo <=? z) && (z <=? hi) then Done z else Undefined
  | None => Undefined
  end.

Definition dt_conf_get_int (c : dt_conf_t) (name : string) : c_result (Z * dt_conf_t) :=
  let '(str, c) := dt_conf_get_var c name in
  let* v := solve_value str in
  let* z := to_integer (- 2 ^ 31) INT_MAX v in
  Done (z, c).

Definition dt_conf_get_int64 (c : dt_conf_t) (name : string) : c_result (Z * dt_conf_t) :=
  let '(str, c) := dt_conf_get_var c name in
  let* v := solve_value str in
  let* z := to_integer (- 2 ^ 63) (2 ^ 63 - 1) v in
  Done (z, c).

Definition dt_conf_get_float (c : dt_conf_t) (name : string) : c_result (float * dt_conf_t) :=
  let '(str, c) := dt_conf_get_var c name in
  let* v := solve_value str in
  Done (v, c).

(** ** Start of the program *)

(** The machine: memory in kilobytes, threads, atom cores. *)
Context (mem threads atom_cores : Z).

Definition DT_CURRENT_PERFORMANCE_CONFIGURE_VERSION : Z := 1.

(** [dt_conf_set_int(name, MAX(low, dt_conf_get_int(name)))] *)
Definition raise_int (name : string) (low : Z) (c : dt_conf_t) : c_result dt_conf_t :=
  let* (v, c) := dt_conf_get_int c name in
  Done (dt_conf_set_int c name (Z.max low v)).

(** The same with a size_t bound: the maximum is taken of unsigned numbers. *)
Definition raise_size (name : string) (low : Z) (c : dt_conf_t) : c_result dt_conf_t :=
  let* (v, c) := dt_conf_get_int c name in
  Done (dt_conf_set_int c name (wrap_s32 (Z.max low (wrap_u64 v)))).

Definition set_quality (c : dt_conf_t) : dt_conf_t :=
  dt_conf_set_string c "plugins/darkroom/demosaic/quality" "always bilinear (fast)".

Definition set_speed (slow : Z) (c : dt_conf_t) : dt_conf_t :=
  dt_conf_set_bool (dt_conf_set_bool c "plugins/lighttable/low_quality_thumbnails" slow)
                   "ui/performance" slow.

Definition dt_configure_performance (c : dt_conf_t) : c_result dt_conf_t :=
  let '(quality, c) := dt_conf_get_string c "plugins/darkroom/demosaic/quality" in
  let keep c := if String.eqb quality "always bilinear (fast)" then set_quality c else c in
  let* c :=
    if (Z.shiftl 8 20 <=? mem) && (4 <? threads) && (atom_cores =? 0) then
      let* c := raise_size "host_memory_limit" (Z.shiftr mem 11) c in
      let* c := raise_int "singlebuffer_limit" 16 c in
      Done (set_speed 0 (keep c))
    else if (Z.shiftl 2 20 <? mem) && (4 <=? threads) && (atom_cores =? 0) then
      let* c := raise_int "host_memory_limit" 1500 c in
      let* c := raise_int "singlebuffer_limit" 16 c in
      Done (set_speed 0 (keep c))
    else if (mem <? Z.shiftl 1 20) || (threads <=? 2) || (0 <? atom_cores) then
      let c := dt_conf_set_int c "host_memory_limit" 500 in
      let c := dt_conf_set_int c "singlebuffer_limit" 8 in
      Done (set_speed 1 (set_quality c))
    else
      let c := dt_conf_set_int c "host_memory_limit" 1500 in
      let c := dt_conf_set_int c "singlebuffer_limit" 16 in
      Done (set_speed 0 (set_quality c)) in
  Done (dt_conf_set_int c "performance_configuration_version_completed"
          DT_CURRENT_PERFORMANCE_CONFIGURE_VERSION).

(** [user] and [installed] are the contents of the two files. Without the second
    one the function returns early, without the overrides. [None] if a file is
    never read to its end. *)
Definition dt_conf_init (filename : string) (user installed : option string)
    (overrides : list (string * string)) : option (c_result dt_conf_t) :=
  t ← (match user with Some s => read_file s ∅ | None => Some ∅ end);
  let c := Conf (g_strlcpy 4096 filename) t ∅ ∅ in
  match installed with
  | None => Some (Done c)
  | Some s =>
      d ← read_file s ∅;
      t ← (match user with Some _ => Some t | None => read_file s t end);
      let c := Conf (conf_filename c) t d ∅ in
      Some (let* c := match user with Some _ => Done c | None => dt_configure_performance c end in
            Done (Conf (conf_filename c) (table c) (defaults c)
                       (foldl (fun m '(k, v) => <[k := v]> m) (override_entries c) overrides)))
  end.

End numbers.

(** ** The file is read to its end *)

Section files.
Local Open Scope nat_scope.

Definition starts_with_newline (s : string) : bool :=
  match s with String c _ => is_newline c | EmptyString => false end.

Lemma newline_is_space c : is_newline c = true -> is_space c = true.
Proof. unfold is_newline. intros [->%Ascii.eqb_eq| ->%Ascii.eqb_eq]%orb_prop; reflexivity. Qed.

Lemma skip_spaces_start s : starts_with_newline (skip_spaces s) = false.
Proof.
  induction s as [|c s IH]; [done|]. cbn [skip_spaces]. destruct (is_space c) eqn:E; [done|].
  cbn. destruct (is_newline c) eqn:En; [|done]. apply newline_is_space in En. congruence.
Qed.

Lemma scan_set_length n s line rest :
  scan_set n s = (line, rest) -> String.length line + String.length rest = String.length s.
Proof.
  revert s line rest. induction n as [|n IH]; intros s line rest; cbn [scan_set]; [by intros [= <- <-]|].
  destruct s as [|c s]; [by intros [= <- <-]|]. destruct (is_newline c); [by intros [= <- <-]|].
  destruct (scan_set n s) as [l r] eqn:E. intros [= <- <-]. cbn. rewrite <- (IH _ _ _ E). lia.
Qed.

Lemma scan_set_shrinks n c s line rest :
  is_newline c = false -> scan_set (S n) (String c s) = (line, rest) ->
  String.length rest <= String.length s.
Proof.
  intros Hc. cbn [scan_set]. rewrite Hc. destruct (scan_set n s) as [l r] eqn:E. intros [= <- <-].
  apply scan_set_length in E. lia.
Qed.

Lemma read_loop_total fuel s t :
  starts_with_newline s = false -> String.length s < fuel -> is_Some (read_loop fuel s t).
Proof.
  revert s t. induction fuel as [|fuel IH]; intros s t Hs Hf; [lia|]. cbn [read_loop].
  destruct s as [|c s]; [done|]. cbn in Hs. rewrite Hs.
  destruct (scan_set LINE_SIZE (String c s)) as [line rest] eqn:E.
  pose proof (scan_set_shrinks _ _ _ _ _ Hs E). pose proof (skip_spaces_length rest).
  pose proof (skip_spaces_start rest) as Hst. cbn in Hf.
  destruct (skip_spaces rest) eqn:Er; [done|]. apply IH; [done|]. lia.
Qed.

Lemma read_file_total s t : starts_with_newline s = false -> is_Some (read_file s t).
Proof. intros H. apply read_loop_total; [done|lia]. Qed.

Lemma read_loop_stuck fuel s t : starts_with_newline s = true -> read_loop fuel s t = None.
Proof.
  intros H. induction fuel as [|fuel IH]; [done|]. destruct s as [|c s]; [done|].
  cbn [read_loop]. cbn in H. by rewrite H.
Qed.

(** A configuration file is read to its end exactly if it does not start with
    an end of line. In that case the loop makes at most one turn per character; in
    the other one fscanf converts nothing and consumes nothing, and the loop never
    ends, whatever the number of turns. *)
Theorem conf_read_ends s t :
  if starts_with_newline s then forall fuel, read_loop fuel s t = None
  else exists t', read_file s t = Some t'.
Proof.
  destruct (starts_with_newline s) eqn:E; [intros; by apply read_loop_stuck|].
  by apply read_file_total.
Qed.

(** ** What is saved is loaded *)

Definition is_text (s : string) : bool :=
  str_forall (fun c => negb (is_newline c) && negb (c =? NUL)%char) s.

(** A pair that fits a line: no end of line or NUL, a key that has no [=] and does
    not start with white space. *)
Definition storable (key val : string) : Prop :=
  is_text (key +:+ val) = true /\ str_forall (not_char "=") key = true /\
  match key with String c _ => is_space c = false | EmptyString => True end /\
  String.length key + String.length val < LINE_SIZE.

Lemma scan_set_line n s t :
  is_text s = true -> String.length s <= n -> starts_with_newline t = true ->
  scan_set n (s +:+ t) = (s, t).
Proof.
  intros Hs Hn Ht. revert n Hn. induction s as [|c s IH]; intros n Hn.
  - destruct t as [|d t]; [done|]. cbn in Ht. destruct n; [done|]. cbn. by rewrite Ht.
  - destruct n as [|n]; cbn in Hn; [lia|]. unfold is_text in Hs. cbn in Hs.
    apply andb_prop in Hs as [[Hc _]%andb_prop Hs]. apply negb_true_iff in Hc.
    change (String c s +:+ t) with (String c (s +:+ t)). cbn [scan_set]. rewrite Hc.
    by rewrite IH by (done || lia).
Qed.

Lemma c_str_text s : is_text s = true -> c_str s = s.
Proof.
  induction s as [|c s IH]; [done|]. unfold is_text. cbn. intros [[_ Hc]%andb_prop Hs]%andb_prop.
  apply negb_true_iff in Hc. rewrite Hc. f_equal. by apply IH.
Qed.

Lemma split_line_pair key val :
  str_forall (not_char "=") key = true -> split_line (key +:+ String "=" val) = Some (key, val).
Proof.
  induction key as [|c key IH]; [done|]. cbn. unfold not_char at 1.
  intros [Hc Hk]%andb_prop. apply negb_true_iff in Hc. rewrite Hc.
  change (String.append key (String "=" val)) with (key +:+ String "=" val). by rewrite IH.
Qed.

Lemma is_text_app s t : is_text (s +:+ t) = is_text s && is_text t.
Proof. apply str_forall_app. Qed.

Definition starts_well (s : string) : Prop :=
  match s with String c _ => is_space c = false | EmptyString => True end.

Lemma skip_spaces_newline s : starts_well s -> skip_spaces (String "010" s) = s.
Proof. destruct s as [|c s]; [done|]. intros H. cbn in H. cbn. by rewrite H. Qed.

Lemma read_loop_pair fuel key val s t :
  storable key val -> starts_well s ->
  read_loop (S fuel) (dt_conf_print key val +:+ s) t =
    match s with EmptyString => Some (<[key := val]> t) | _ => read_loop fuel s (<[key := val]> t) end.
Proof.
  intros (Htext & Hk & Hc & Hlen) Hs. unfold dt_conf_print.
  assert (is_text (key +:+ String "=" val) = true) as Hl.
  { rewrite is_text_app in *. apply andb_prop in Htext as [-> Hv]. exact Hv. }
  assert ((key +:+ "=" +:+ val +:+ String "010" "") +:+ s = (key +:+ String "=" val) +:+ String "010" s) as ->.
  { rewrite !str_app_assoc. done. }
  pose proof (scan_set_line LINE_SIZE _ (String "010" s) Hl) as Hscan.
  rewrite str_length_app in Hscan. cbn [String.length] in Hscan.
  specialize (Hscan ltac:(lia) eq_refl).
  cbn [read_loop]. destruct ((key +:+ String "=" val) +:+ String "010" s) as [|c rest] eqn:E.
  { by apply str_app_nil in E as [_ E]. }
  assert (is_newline c = false) as ->.
  { destruct key as [|d key]; cbn in E; injection E as <- _; [done|]. cbn in Hc.
    destruct (is_newline d) eqn:En; [|done]. apply newline_is_space in En. congruence. }
  rewrite Hscan, skip_spaces_newline by done.
  unfold read_line. rewrite (c_str_text _ Hl), split_line_pair by done. done.
Qed.

Definition file_text (l : list (string * string)) : string :=
  String.concat "" (map (fun '(k, v) => dt_conf_print k v) l).

Lemma concat_cons s l : String.concat "" (s :: l) = s +:+ String.concat "" l.
Proof. destruct l; cbn; [by rewrite str_app_nil_r|done]. Qed.

Lemma file_text_cons k v l : file_text ((k, v) :: l) = dt_conf_print k v +:+ file_text l.
Proof. apply concat_cons. Qed.

Lemma file_text_starts_well l :
  Forall (fun '(k, v) => storable k v) l -> starts_well (file_text l).
Proof.
  destruct 1 as [|[k v] l (_ & _ & Hc & _) _]; [done|]. rewrite file_text_cons.
  by destruct k.
Qed.

Lemma read_loop_file l fuel t :
  Forall (fun '(k, v) => storable k v) l -> length l < fuel ->
  read_loop fuel (file_text l) t = Some (foldl (fun m '(k, v) => <[k := v]> m) t l).
Proof.
  intros Hl. revert fuel t. induction Hl as [|[k v] l Hkv Hl IH]; intros fuel t Hf; cbn in Hf.
  { destruct fuel; [lia|done]. }
  destruct fuel as [|fuel]; [lia|].
  rewrite file_text_cons, read_loop_pair by (done || by apply file_text_starts_well).
  cbn [foldl]. destruct (file_text l) eqn:E; [|apply IH; lia].
  destruct l as [|[k' v'] l]; [done|]. rewrite file_text_cons in E.
  by apply str_app_nil in E as [E _]; destruct k'.
Qed.

Lemma file_text_length l : length l <= String.length (file_text l).
Proof.
  induction l as [|[k v] l IH]; [cbn; lia|]. rewrite file_text_cons, str_length_app.
  unfold dt_conf_print. rewrite !str_length_app. cbn [length String.length]. lia.
Qed.

Lemma read_file_text l t :
  Forall (fun '(k, v) => storable k v) l ->
  read_file (file_text l) t = Some (foldl (fun m '(k, v) => <[k := v]> m) t l).
Proof. intros Hl. apply read_loop_file; [done|]. pose proof (file_text_length l). lia. Qed.

(** The pairs of the table in the order in which they are saved. *)
Definition sorted_pairs (t : gmap string string) : list (string * string) :=
  map (fun key => (key, default "" (t !! key))) (g_list_sort g_strcmp0 (map fst (map_to_list t))).

Lemma cleanup_text c : dt_conf_cleanup c = file_text (sorted_pairs (table c)).
Proof. unfold dt_conf_cleanup, file_text, sorted_pairs. by rewrite map_map. Qed.

Lemma sorted_pairs_Permutation t : sorted_pairs t ≡ₚ map_to_list t.
Proof.
  unfold sorted_pairs. rewrite g_list_sort_Permutation, map_map.
  apply reflexive_eq. rewrite <- (list_fmap_id (map_to_list t)) at 2.
  apply list_fmap_ext. intros i [k v] H. cbn.
  apply list_elem_of_lookup_2, elem_of_map_to_list in H. by rewrite H.
Qed.

Lemma foldl_insert_pairs (l : list (string * string)) (m : gmap string string) :
  NoDup l.*1 -> foldl (fun m '(k, v) => <[k := v]> m) m l = list_to_map l ∪ m.
Proof.
  revert m. induction l as [|[k v] l IH]; intros m Hnd; cbn; [by rewrite (left_id_L ∅ (∪))|].
  apply NoDup_cons in Hnd as [Hk Hnd]. rewrite IH by done.
  rewrite <- insert_union_l, insert_union_r; [done|]. by apply not_elem_of_list_to_map_1.
Qed.

Lemma foldl_insert_other (l : list (string * string)) (m : gmap string string) name :
  name ∉ l.*1 -> foldl (fun m '(k, v) => <[k := v]> m) m l !! name = m !! name.
Proof.
  revert m. induction l as [|[k v] l IH]; intros m Hn; [done|]. cbn in *.
  apply not_elem_of_cons in Hn as [? Hn]. rewrite IH by done. by apply lookup_insert_ne.
Qed.

Lemma read_saved c :
  map_Forall storable (table c) -> read_file (dt_conf_cleanup c) ∅ = Some (table c).
Proof.
  intros Hst. rewrite cleanup_text, read_file_text.
  - rewrite foldl_insert_pairs, (right_id_L ∅ (∪)).
    + f_equal. rewrite <- (list_to_map_to_list (table c)) at 2. apply list_to_map_proper.
      * rewrite sorted_pairs_Permutation. apply NoDup_fst_map_to_list.
      * apply sorted_pairs_Permutation.
    + rewrite sorted_pairs_Permutation. apply NoDup_fst_map_to_list.
  - rewrite sorted_pairs_Permutation. apply Forall_forall. intros [k v] H%elem_of_map_to_list.
    exact (Hst k v H).
Qed.

End files.

(** ** Reading and writing values *)

Section values.

(** The value a reader sees: the command line before what was set before the
    default, and the empty text if there is none of them. *)
Definition conf_value (c : dt_conf_t) (name : string) : string :=
  match override_entries c !! name with
  | Some v => v
  | None => default (default "" (defaults c !! name)) (table c !! name)
  end.

Lemma get_var_spec c name :
  dt_conf_get_var c name =
    (conf_value c name,
     if bool_decide (is_Some (override_entries c !! name)) then c
     else set_table (<[name := conf_value c name]> (table c)) c).
Proof.
  unfold dt_conf_get_var, conf_value. destruct (override_entries c !! name); [done|]. cbn.
  destruct (table c !! name) eqn:E; [|done]. cbn. rewrite insert_id by done. by destruct c.
Qed.

Lemma get_value c name : fst (dt_conf_get_var c name) = conf_value c name.
Proof. by rewrite get_var_spec. Qed.

Lemma set_not_overridden c name str :
  override_entries c !! name = None ->
  dt_conf_set_if_not_overridden c name str = (false, set_table (<[name := str]> (table c)) c).
Proof. intros H. unfold dt_conf_set_if_not_overridden. by rewrite H. Qed.

Lemma get_keeps_values c name other : conf_value (snd (dt_conf_get_var c name)) other = conf_value c other.
Proof.
  rewrite get_var_spec. unfold conf_value at 1. cbn [snd]. case_bool_decide as Ho; [done|]. cbn.
  destruct (override_entries c !! other) eqn:E; [by unfold conf_value; rewrite E|].
  destruct (decide (other = name)) as [->|Hne]; [by rewrite lookup_insert_eq|].
  rewrite lookup_insert_ne by done. unfold conf_value. by rewrite E.
Qed.

Lemma set_overrides c name str : override_entries (snd (dt_conf_set_if_not_overridden c name str)) = override_entries c.
Proof. unfold dt_conf_set_if_not_overridden. by case_match; [destruct (String.eqb _ _)|]. Qed.

Lemma set_values c name str other : conf_value (snd (dt_conf_set_if_not_overridden c name str)) other =
  if decide (other = name) then default str (override_entries c !! name) else conf_value c other.
Proof.
  unfold dt_conf_set_if_not_overridden. destruct (override_entries c !! name) as [over|] eqn:E.
  - destruct (decide (other = name)) as [->|Hne].
    + unfold conf_value. by destruct (String.eqb str over); cbn; rewrite E.
    + destruct (String.eqb str over); cbn; [done|]. unfold conf_value. cbn. by rewrite lookup_insert_ne by done.
  - unfold conf_value. cbn. destruct (decide (other = name)) as [->|Hne].
    + rewrite E. by rewrite lookup_insert_eq.
    + by rewrite lookup_insert_ne by done.
Qed.

(** What a name reads as. Reading never changes the value of any name, though
    it copies defaults into the table; setting a name gives it its value, unless
    the command line has one for it, which then stays the one that is read; and
    setting changes no other name. *)
Theorem conf_get_set c name val other :
  fst (dt_conf_get_string c name) = conf_value c name /\
  conf_value (snd (dt_conf_get_string c name)) other = conf_value c other /\
  conf_value (dt_conf_set_string c name val) other =
    if decide (other = name) then default val (override_entries c !! name) else conf_value c other.
Proof.
  split; [apply get_value|]. split; [apply get_keeps_values|apply set_values].
Qed.

Lemma set_value c name str :
  override_entries c !! name = None ->
  conf_value (snd (dt_conf_set_if_not_overridden c name str)) name = str.
Proof.
  intros H. rewrite set_not_overridden by done. unfold conf_value. cbn. by rewrite H, lookup_insert_eq.
Qed.

(** A truth value that is set is read back, unless the command line has one. *)
Lemma conf_bool_round_trip c name val :
  override_entries c !! name = None ->
  fst (dt_conf_get_bool (dt_conf_set_bool c name val) name) = negb (val =? 0).
Proof.
  intros H. unfold dt_conf_get_bool, dt_conf_set_bool. rewrite get_var_spec, set_value by done.
  by destruct (val =? 0).
Qed.

(** The entries below a directory: if no key is the directory itself, all the
    keys that start with its name are listed, without that many characters and the
    one behind. The code compares no slash: keys of [dirx/] are listed for [dir]. *)
Lemma all_entries_spec dir iter acc :
  (forall val, (dir, val) ∉ iter) ->
  dt_conf_all_string_entries dir iter acc =
    Done (acc ++ omap (fun '(k, v) => if String.prefix dir k
                                 then Some (str_drop (S (String.length dir)) k, v) else None) iter).
Proof.
  revert acc. induction iter as [|[k v] iter IH]; intros acc Hd;
    cbn [dt_conf_all_string_entries omap list_omap]; [by rewrite app_nil_r|].
  unfold _conf_add. destruct (String.prefix dir k) eqn:E.
  - apply str_prefix_drop in E. destruct (str_drop (String.length dir) k) as [|c rest] eqn:Er.
    { exfalso. apply (Hd v). rewrite E, str_app_nil_r. by left. }
    cbn [c_bind]. rewrite IH by (intros w Hw; apply (Hd w); by right). rewrite <- app_assoc.
    enough (str_drop (S (String.length dir)) k = rest) as -> by done.
    rewrite E. change (String c rest) with (String c "" +:+ rest). rewrite <- str_app_assoc.
    apply str_drop_app. rewrite str_length_app. cbn. lia.
  - apply IH. intros w Hw. apply (Hd w). by right.
Qed.

End values.

(** ** Integers *)

Section integers.
Context (g_ascii_strtod : string -> float * string).
Context (fmodf powf : float -> float -> float).
Context (mem threads atom_cores : Z).

(** The double nearest to a natural number of at most 53 digits. *)
Definition double_of (n : Z) : float :=
  match n with Zpos u => float_of 53 false u | _ => S754_zero false end.

Lemma narrow_float_of s u : digits u <= 24 -> narrow (float_of 53 s u) = float_of 24 s u.
Proof.
  intros Hd. assert (0 < digits u) by (unfold digits; lia). cbn [narrow float_of].
  rewrite normalize_exact by (unfold emin; lia). unfold float_of. f_equal. lia.
Qed.

Lemma widen_float_of s u : digits u <= 24 -> widen (float_of 24 s u) = float_of 53 s u.
Proof.
  intros Hd. assert (0 < digits u) by (unfold digits; lia). cbn [widen float_of].
  rewrite normalize_exact by (unfold emin; lia). unfold float_of. f_equal. lia.
Qed.

Lemma negate_float_of u : digits u <= 24 -> negate (float_of 24 false u) = float_of 24 true u.
Proof.
  intros Hd. unfold negate. rewrite widen_float_of by done.
  change (SFopp one) with (float_of 53 true 1). rewrite mul_minus_one by lia.
  by apply narrow_float_of.
Qed.

Lemma to_integer_float_of (s : bool) u lo hi :
  digits u <= 24 -> lo <= (if s then Zneg u else Zpos u) <= hi ->
  to_integer lo hi (float_of 24 s u) = Done (if s then Zneg u else Zpos u).
Proof.
  intros Hd Hr. unfold to_integer. rewrite widen_float_of by done.
  assert (float_trunc (if s then SFsub 53 1024 (float_of 53 s u) double_half
                       else SFadd 53 1024 (float_of 53 s u) double_half) =
          Some (if s then Zneg u else Zpos u)) as H.
  { destruct s; rewrite ?sub_half, ?add_half by lia; apply (trunc_plus_half 53); lia. }
  destruct s; cbn [SFltb SFcompare float_of] in *; rewrite H;
    destruct (Z.leb_spec lo (Zneg u)), (Z.leb_spec (Zneg u) hi); try lia; try done;
    destruct (Z.leb_spec lo (Zpos u)), (Z.leb_spec (Zpos u) hi); try lia; done.
Qed.

(** The text of a number is one token, and its commas are untouched. *)
Lemma digits_token y n d :
  0 <= n -> g_ascii_strtod (c_show_int n) = (d, "") ->
  get_token g_ascii_strtod y (c_show_int n) = (Some (T_NUMBER (narrow d)), "").
Proof.
  intros Hn Hs. destruct (show_nonneg n Hn) as (u & Hu & Ht & _).
  destruct u; [done|..]; rewrite Ht in *; cbn [NilEmpty.string_of_uint] in *;
    cbn [get_token]; cbn [Ascii.eqb Bool.eqb orb is_number_start]; unfold read_number; by rewrite Hs.
Qed.

Lemma commas_show n : 0 <= n -> commas_to_dots (c_show_int n) = c_show_int n.
Proof.
  intros Hn. pose proof (show_nonneg_no_comma n Hn) as H. revert H.
  generalize (c_show_int n). intros s. induction s as [|c s IH]; [done|]. cbn. unfold not_char at 1.
  intros [Hc Hs]%andb_prop. apply negb_true_iff in Hc. rewrite Hc. f_equal. by apply IH.
Qed.

Lemma show_neg u : c_show_int (Zneg u) = String "-" (c_show_int (Zpos u)).
Proof. reflexivity. Qed.

Abbreviation solve := (dt_calculator_solve g_ascii_strtod fmodf powf).

Lemma solve_nonneg y n d :
  0 <= n -> g_ascii_strtod (c_show_int n) = (d, "") -> solve y (Some (c_show_int n)) = Some (narrow d).
Proof.
  intros Hn Hs. unfold dt_calculator_solve, advance. cbn [Calculator.x Calculator.p].
  rewrite (commas_show n Hn), (digits_token y n d Hn Hs). cbn [token].
  pose proof (show_nonneg_nonempty n Hn). by destruct (c_show_int n).
Qed.

Lemma solve_negative y u d :
  g_ascii_strtod (c_show_int (Zpos u)) = (d, "") ->
  solve y (Some (c_show_int (Zneg u))) = Some (negate (narrow d)).
Proof.
  intros Hs. rewrite show_neg. unfold dt_calculator_solve, advance. cbn [Calculator.x Calculator.p commas_to_dots].
  change (("-" =? ",")%char) with false. cbv iota. rewrite commas_show by lia.
  assert (get_token g_ascii_strtod y (String "-" (c_show_int (Zpos u))) =
          (Some (T_OPERATOR O_MINUS), c_show_int (Zpos u))) as ->.
  { destruct (show_nonneg (Zpos u)) as (v & Hv & -> & _); [lia|]. by destruct v. }
  cbn [token String.length parse_expression parse_additive_expression].
  unfold parse_multiplicative_expression, parse_power_expression.
  cbn [token parse_unary_expression].
  assert (advance g_ascii_strtod (Parser (c_show_int (Zpos u)) y (Some (T_OPERATOR O_MINUS))) =
          Parser "" y (Some (T_NUMBER (narrow d)))) as ->.
  { unfold advance. cbn [Calculator.x Calculator.p]. by rewrite (digits_token y (Zpos u) d) by (done || lia). }
  pose proof (show_nonneg_nonempty (Zpos u) ltac:(lia)).
  by destruct (c_show_int (Zpos u)).
Qed.

(** What the text of an integer evaluates to, if strtod reads its digits. *)
Lemma solve_show_int n :
  Z.abs n < 2 ^ 24 -> g_ascii_strtod (c_show_int (Z.abs n)) = (double_of (Z.abs n), "") ->
  solve float_one (Some (c_show_int n)) =
    Some match n with Z0 => S754_zero false | Zpos u => float_of 24 false u | Zneg u => float_of 24 true u end.
Proof.
  intros Hn Hs. destruct n as [|u|u];
    [change (Z.abs 0) with 0 in *|change (Z.abs (Zpos u)) with (Zpos u) in *|
     change (Z.abs (Zneg u)) with (Zpos u) in *].
  - by rewrite (solve_nonneg _ 0 _ ltac:(lia) Hs).
  - rewrite (solve_nonneg _ (Zpos u) _ ltac:(lia) Hs). cbn [double_of].
    by rewrite narrow_float_of by (apply digits_le; lia).
  - rewrite (solve_negative _ u _ Hs). cbn [double_of].
    rewrite narrow_float_of by (apply digits_le; lia).
    by rewrite negate_float_of by (apply digits_le; lia).
Qed.

Lemma get_int_value c name n :
  Z.abs n < 2 ^ 24 -> g_ascii_strtod (c_show_int (Z.abs n)) = (double_of (Z.abs n), "") ->
  conf_value c name = c_show_int n ->
  exists c', dt_conf_get_int g_ascii_strtod fmodf powf c name = Done (n, c').
Proof.
  intros Hn Hs Hv. unfold dt_conf_get_int. rewrite get_var_spec, Hv. unfold solve_value.
  rewrite solve_show_int by done.
  destruct n as [|u|u]; [by eexists|..]; cbn [c_bind is_nan float_of].
  - change (S754_finite false _ _) with (float_of 24 false u).
    rewrite to_integer_float_of; [by eexists|apply digits_le; lia|unfold INT_MAX; lia].
  - change (S754_finite true _ _) with (float_of 24 true u).
    rewrite to_integer_float_of; [by eexists|apply digits_le; lia|unfold INT_MAX; lia].
Qed.

(** Loading what was saved, with any readable file of the installation. *)
Lemma init_saved c filename installed overrides :
  map_Forall storable (table c) -> starts_with_newline installed = false ->
  exists c', dt_conf_init g_ascii_strtod fmodf powf mem threads atom_cores filename
               (Some (dt_conf_cleanup c)) (Some installed) overrides = Some (Done c') /\
    table c' = table c /\ override_entries c' = foldl (fun m '(k, v) => <[k := v]> m) ∅ overrides.
Proof.
  intros Hst Hin. unfold dt_conf_init. rewrite read_saved by done. cbn [mbind option_bind].
  destruct (read_file_total installed ∅ Hin) as [d ->]. cbn [mbind option_bind c_bind]. eexists. split; [reflexivity|done].
Qed.

(** C25: what the program saves when it ends it loads when it starts: with a table
    of texts without line ends, keys that have no equals sign and do not start with a blank, lines below 1023
    characters, and an installed file that does not start with an empty line, the next run
    reads every name as the last run would have, as long as neither command line says
    otherwise. *)
Theorem conf_file_round_trip c filename installed overrides
    (Hst : map_Forall storable (table c)) (Hin : starts_with_newline installed = false) :
  exists c', dt_conf_init g_ascii_strtod fmodf powf mem threads atom_cores filename
               (Some (dt_conf_cleanup c)) (Some installed) overrides = Some (Done c') /\
    table c' = table c /\
    forall name val, table c !! name = Some val -> name ∉ overrides.*1 ->
      fst (dt_conf_get_string c' name) = val.
Proof.
  destruct (init_saved c filename installed overrides Hst Hin) as (c' & Hi & Ht & Ho).
  exists c'. split; [done|split; [done|]]. intros name val Hv Hn. unfold dt_conf_get_string.
  rewrite get_value. unfold conf_value. rewrite Ht, Hv, Ho.
  by rewrite foldl_insert_other.
Qed.

(** An integer of at most 24 bits that is set is read back as it is, in the same
    run and, through the file, in the next one. The getter evaluates the text with
    the calculator, in single precision, and rounds; this is exact for these
    numbers if strtod reads the digits of the number. *)
Theorem conf_int_round_trip c name n filename installed
    (Hn : Z.abs n < 2 ^ 24)
    (Hstrtod : g_ascii_strtod (c_show_int (Z.abs n)) = (double_of (Z.abs n), ""))
    (Hover : override_entries c !! name = None)
    (Hst : map_Forall storable (table (dt_conf_set_int c name n)))
    (Hin : starts_with_newline installed = false) :
  (exists c1, dt_conf_get_int g_ascii_strtod fmodf powf (dt_conf_set_int c name n) name = Done (n, c1)) /\
  exists c2 c3,
    dt_conf_init g_ascii_strtod fmodf powf mem threads atom_cores filename
      (Some (dt_conf_cleanup (dt_conf_set_int c name n))) (Some installed) [] = Some (Done c2) /\
    dt_conf_get_int g_ascii_strtod fmodf powf c2 name = Done (n, c3).
Proof.
  pose proof (set_value c name (c_show_int n) Hover) as Hv. split.
  - apply get_int_value; done.
  - destruct (init_saved _ filename installed [] Hst Hin) as (c2 & Hi & Ht & Ho). exists c2.
    destruct (get_int_value c2 name n Hn Hstrtod) as [c3 H3]; [|by exists c3].
    unfold conf_value. rewrite Ht, Ho. unfold dt_conf_set_int.
    rewrite set_not_overridden by done. cbn. by rewrite lookup_insert_eq.
Qed.

Lemma get_int_shown c name n :
  0 <= n -> g_ascii_strtod (c_show_int n) = (double_of n, "") ->
  override_entries c !! name = None ->
  exists c', dt_conf_get_int g_ascii_strtod fmodf powf (dt_conf_set_int c name n) name =
    (let v := narrow (double_of n) in
     let* z := to_integer (- 2 ^ 31) INT_MAX (if is_nan v then S754_zero false else v) in Done (z, c')).
Proof.
  intros Hn Hs Ho. unfold dt_conf_get_int. rewrite get_var_spec.
  unfold dt_conf_set_int at 1. rewrite (set_value c name _ Ho). unfold solve_value.
  rewrite (solve_nonneg _ n _ Hn Hs). eexists. reflexivity.
Qed.

(** The limit of that: the first integer of more than 24 bits is read back as
    its neighbour, and the largest int has no defined value when it is read, since
    single precision rounds it up. *)
Theorem conf_int_precision c name
    (Hover : override_entries c !! name = None)
    (Hsmall : g_ascii_strtod (c_show_int 16777217) = (double_of 16777217, ""))
    (Hlarge : g_ascii_strtod (c_show_int INT_MAX) = (double_of INT_MAX, "")) :
  (exists c', dt_conf_get_int g_ascii_strtod fmodf powf (dt_conf_set_int c name 16777217) name =
     Done (16777216, c')) /\
  dt_conf_get_int g_ascii_strtod fmodf powf (dt_conf_set_int c name INT_MAX) name = Undefined.
Proof.
  split.
  - destruct (get_int_shown c name 16777217 ltac:(lia) Hsmall Hover) as [c' ->]. by exists c'.
  - by destruct (get_int_shown c name INT_MAX ltac:(done) Hlarge Hover) as [c' ->].
Qed.

End integers.

(** ** Concrete runs *)

Definition example_conf : dt_conf_t :=
  Conf "darktablerc" {[ "a/b" := "x = 1"; "empty" := "" ]} {[ "c" := "2" ]} {[ "d" := "3" ]}.

Definition example_float (a b : float) : float := a.

Lemma conf_file_round_trip_witness :
  dt_conf_cleanup example_conf = "a/b=x = 1" +:+ String "010" ("empty=" +:+ String "010" "") /\
  exists c', dt_conf_init example_strtod example_float example_float 0 0 0 "darktablerc"
               (Some (dt_conf_cleanup example_conf)) (Some "c=2") [("d", "3")] = Some (Done c') /\
    table c' = table example_conf /\
    forall name val, table example_conf !! name = Some val -> name ∉ [("d", "3")].*1 ->
      fst (dt_conf_get_string c' name) = val.
Proof.
  split; [vm_compute; reflexivity|]. apply conf_file_round_trip; [|reflexivity].
  apply map_Forall_insert_2; [|apply map_Forall_singleton]; unfold storable, LINE_SIZE; cbn;
    (split; [reflexivity|split; [reflexivity|split; [reflexivity|lia]]]).
Defined.

(** A text of 1100 characters, such as the list of recent collections stores, comes back cut,
    and its rest is taken for a line of its own. *)
Definition long_conf : dt_conf_t := Conf "darktablerc" {[ "line0" := String.concat "" (replicate 110 "0123456789") ]} ∅ ∅.

Example long_text_is_cut :
  match dt_conf_init example_strtod example_float example_float 0 0 0 "darktablerc" (Some (dt_conf_cleanup long_conf)) (Some "") [] with
  | Some (Done c') => String.length (default "" (table long_conf !! "line0")) = 1100%nat /\
                      String.length (default "" (table c' !! "line0")) = 1017%nat
  | _ => False
  end.
Proof. vm_compute. done. Qed.

Lemma conf_int_round_trip_witness :
  dt_conf_get_int example_strtod example_float example_float
    (dt_conf_set_int example_conf "empty" (-16777215)) "empty" =
    Done (-16777215, dt_conf_set_int example_conf "empty" (-16777215)) /\
  exists c2 c3,
    dt_conf_init example_strtod example_float example_float 0 0 0 "darktablerc"
      (Some (dt_conf_cleanup (dt_conf_set_int example_conf "empty" (-16777215)))) (Some "") [] =
      Some (Done c2) /\
    dt_conf_get_int example_strtod example_float example_float c2 "empty" = Done (-16777215, c3).
Proof.
  split; [vm_compute; reflexivity|].
  apply (conf_int_round_trip example_strtod example_float example_float 0 0 0 example_conf "empty"
           (-16777215) "darktablerc" ""); [lia|vm_compute; reflexivity|reflexivity| |reflexivity].
  change (table (dt_conf_set_int example_conf "empty" (-16777215))) with
    (<["empty" := "-16777215"]> (table example_conf)).
  apply map_Forall_insert_2; [|apply map_Forall_insert_2; [|apply map_Forall_singleton]];
    unfold storable, LINE_SIZE; cbn;
    (split; [reflexivity|split; [reflexivity|split; [reflexivity|lia]]]).
Defined.

Lemma conf_int_precision_witness :
  (exists c', dt_conf_get_int example_strtod example_float example_float
     (dt_conf_set_int example_conf "n" 16777217) "n" = Done (16777216, c')) /\
  dt_conf_get_int example_strtod example_float example_float
    (dt_conf_set_int example_conf "n" INT_MAX) "n" = Undefined.
Proof.
  apply (conf_int_precision example_strtod example_float example_float example_conf "n");
    vm_compute; reflexivity.
Defined.

(** The performance settings of a first start on a fast machine, from the values of
    the installed file. *)
Lemma init_fast_machine :
  match dt_conf_init example_strtod example_float example_float (Z.shiftl 16 20) 8 0 "darktablerc"
          None (Some ("host_memory_limit=9000" +:+ String "010" "ui/performance=TRUE")) [] with
  | Some (Done c) =>
      (conf_value c "host_memory_limit", conf_value c "singlebuffer_limit", conf_value c "ui/performance",
       table c !! "plugins/darkroom/demosaic/quality")
  | _ => ("", "", "", None)
  end = ("9000", "16", "FALSE", Some "").
Proof. vm_compute. reflexivity. Qed.
