(* ===== verification/History.v ===== *)
(** The history of edits of a develop state (develop/develop.c) and the history
    panel that records it for undo (libs/history.c).

    A module or an item refers to another module by its address, a [nat] with 0 for
    NULL; the structures are in the map [d_modules]. A module has the fields of
    [IopModules.dt_iop_module_t], which common/iop_order.c works on, and those that
    the history saves. The fields raster_mask of the modules are in a map of their
    own. Parameters are byte lists of the size of the module's parameters: a
    memcpy of more bytes than a buffer has is undefined. History items own their
    buffers and are never shared, so they are values.

    The messages and widgets of the user interface, the tag and the time stamp that
    an edit sets in the database are left out. *)

From Stdlib Require Import Ascii String.
From S2P Require Import Prelude Utility IopOrder IopModules Undo.
Local Open Scope Z_scope.

(** ** Data *)

Record dt_masks_form_t := Form {
  form_points : list (list ascii);
  point_struct_size : nat;   (* of form->functions, 0 without functions *)
  form_type : Z;
  form_source : list ascii;
  form_name : string;
  formid : Z;
  form_version : Z;
}.

Record dt_develop_blend_params_t := Blend {
  mask_mode : Z;
  raster_mask_source : string;
  raster_mask_instance : Z;
  raster_mask_id : Z;
  other_blend_params : list ascii;
}.

Record module_t := Mod {
  m_base : dt_iop_module_t;
  m_instance : Z;
  m_name : string;
  m_multi_name : string;
  m_params_size : nat;
  m_params : list ascii;
  m_default_params : list ascii;
  m_blend_params : dt_develop_blend_params_t;
  m_default_blendop_params : dt_develop_blend_params_t;
  m_hide_enable_button : bool;
}.

(** raster_mask: the name under key 0 of source.masks, source.users, and sink. *)
Record raster_mask_t := Raster {
  r_mask : option string;
  r_users : gmap nat Z;
  r_sink_source : nat;
  r_sink_id : Z;
}.

Record item_t := Item {
  h_op_name : string;
  h_module : nat;
  h_enabled : bool;
  h_params : list ascii;
  h_blend_params : dt_develop_blend_params_t;
  h_iop_order : Z;
  h_multi_priority : Z;
  h_multi_name : string;
  h_forms : list dt_masks_form_t;
  h_focus_hash : Z;
}.

(** [d_changed]: the changed flags of the three pipes; [d_cache_obsolete]: theirs. *)
Record develop_t := Dev {
  d_modules : gmap nat module_t;
  d_raster : gmap nat raster_mask_t;
  d_iop : list nat;
  d_iop_order_list : list dt_iop_order_entry_t;
  d_history : list item_t;
  d_history_end : Z;
  d_forms : list dt_masks_form_t;
  d_allforms : list dt_masks_form_t;
  d_focus_hash : Z;
  d_gui_attached : bool;
  d_changed : list Z;
  d_cache_obsolete : list bool;
}.

Definition set_modules v d := Dev v (d_raster d) (d_iop d) (d_iop_order_list d) (d_history d)
  (d_history_end d) (d_forms d) (d_allforms d) (d_focus_hash d) (d_gui_attached d) (d_changed d) (d_cache_obsolete d).
Definition set_raster v d := Dev (d_modules d) v (d_iop d) (d_iop_order_list d) (d_history d)
  (d_history_end d) (d_forms d) (d_allforms d) (d_focus_hash d) (d_gui_attached d) (d_changed d) (d_cache_obsolete d).
Definition set_iop v d := Dev (d_modules d) (d_raster d) v (d_iop_order_list d) (d_history d)
  (d_history_end d) (d_forms d) (d_allforms d) (d_focus_hash d) (d_gui_attached d) (d_changed d) (d_cache_obsolete d).
Definition set_order_list v d := Dev (d_modules d) (d_raster d) (d_iop d) v (d_history d)
  (d_history_end d) (d_forms d) (d_allforms d) (d_focus_hash d) (d_gui_attached d) (d_changed d) (d_cache_obsolete d).
Definition set_history v e d := Dev (d_modules d) (d_raster d) (d_iop d) (d_iop_order_list d) v
  e (d_forms d) (d_allforms d) (d_focus_hash d) (d_gui_attached d) (d_changed d) (d_cache_obsolete d).
Definition set_forms v w d := Dev (d_modules d) (d_raster d) (d_iop d) (d_iop_order_list d) (d_history d)
  (d_history_end d) v w (d_focus_hash d) (d_gui_attached d) (d_changed d) (d_cache_obsolete d).
Definition set_pipes v w d := Dev (d_modules d) (d_raster d) (d_iop d) (d_iop_order_list d) (d_history d)
  (d_history_end d) (d_forms d) (d_allforms d) (d_focus_hash d) (d_gui_attached d) v w.

(** [pipe->changed |= flag] for the three pipes. *)
Definition DT_DEV_PIPE_TOP_CHANGED : Z := Z.shiftl 1 0.
Definition DT_DEV_PIPE_REMOVE : Z := Z.shiftl 1 1.
Definition DT_DEV_PIPE_SYNCH : Z := Z.shiftl 1 2.
Definition pipes_changed (flag : Z) (d : develop_t) : develop_t :=
  set_pipes (map (Z.lor flag) (d_changed d)) (d_cache_obsolete d) d.

Definition IOP_FLAGS_SUPPORTS_BLENDING : Z := Z.shiftl 1 1.
Definition DEVELOP_MASK_ENABLED : Z := Z.shiftl 1 0.
Definition DEVELOP_MASK_RASTER : Z := Z.shiftl 1 3.

(** ** Access through pointers *)

Definition deref (d : develop_t) (ptr : nat) : c_result module_t :=
  match d_modules d !! ptr with Some m => Done m | None => Undefined end.

Definition memcpy (n : nat) (dst src : list ascii) : c_result (list ascii) :=
  if ((n <=? length src) && (n <=? length dst))%nat then Done (take n src ++ drop n dst) else Undefined.

Definition mod_set_enabled (v : bool) (m : dt_iop_module_t) : dt_iop_module_t :=
  Module_t (mod_ptr m) (mod_op m) (mod_multi_priority m) (mod_iop_order m) v
           (mod_default_enabled m) (mod_flags m).

Definition m_set_base v m := Mod v (m_instance m) (m_name m) (m_multi_name m) (m_params_size m)
  (m_params m) (m_default_params m) (m_blend_params m) (m_default_blendop_params m) (m_hide_enable_button m).
Definition m_set_params v m := Mod (m_base m) (m_instance m) (m_name m) (m_multi_name m) (m_params_size m)
  v (m_default_params m) (m_blend_params m) (m_default_blendop_params m) (m_hide_enable_button m).
Definition m_set_blend v m := Mod (m_base m) (m_instance m) (m_name m) (m_multi_name m) (m_params_size m)
  (m_params m) (m_default_params m) v (m_default_blendop_params m) (m_hide_enable_button m).
Definition m_set_multi_name v m := Mod (m_base m) (m_instance m) (m_name m) v (m_params_size m)
  (m_params m) (m_default_params m) (m_blend_params m) (m_default_blendop_params m) (m_hide_enable_button m).
Definition m_set_enabled v m := m_set_base (mod_set_enabled v (m_base m)) m.
Definition m_set_order v m := m_set_base (mod_set_order v (m_base m)) m.

Definition store (ptr : nat) (m : module_t) (d : develop_t) : develop_t :=
  set_modules (<[ptr := m]> (d_modules d)) d.

(** dev->iop as the functions of common/iop_order.c see it, and what they changed
    written back: the order of the links and the fields of the modules. *)
Fixpoint base_list (d : develop_t) (ptrs : list nat) : c_result (list dt_iop_module_t) :=
  match ptrs with
  | [] => Done []
  | p :: ptrs =>
      let* m := deref d p in
      let* l := base_list d ptrs in
      Done (m_base m :: l)
  end.

Definition write_back (l : list dt_iop_module_t) (d : develop_t) : develop_t :=
  set_iop (map mod_ptr l)
    (set_modules (foldl (fun ms b => alter (m_set_base b) (mod_ptr b) ms) (d_modules d) l) d).

Definition history_view (l : list item_t) : list dt_dev_history_item_t :=
  map (fun h => History_item (h_module h) (h_multi_priority h) (h_iop_order h) (h_enabled h)) l.

(** ** Masks *)

Definition dt_masks_dup_masks_form (f : dt_masks_form_t) : dt_masks_form_t :=
  Form (if (point_struct_size f =? 0)%nat then [] else map (take (point_struct_size f)) (form_points f))
       (point_struct_size f) (form_type f) (form_source f) (form_name f) (formid f) (form_version f).

Definition dt_masks_dup_forms_deep (forms : list dt_masks_form_t) : list dt_masks_form_t :=
  map dt_masks_dup_masks_form forms.

Definition dt_masks_replace_current_forms (forms : list dt_masks_form_t) (d : develop_t) : develop_t :=
  set_forms (dt_masks_dup_forms_deep forms) (d_allforms d ++ d_forms d) d.

(** ** Blend parameters of a module *)

Definition dt_history_item_get_name (m : module_t) : string :=
  if String.eqb (m_multi_name m) "" || String.eqb (m_multi_name m) "0" then m_name m
  else m_name m +:+ " " +:+ m_multi_name m.

Definition dt_iop_set_mask_mode (ptr : nat) (m : module_t) (mode : Z) (d : develop_t) : develop_t :=
  let v := if negb (Z.land mode DEVELOP_MASK_ENABLED =? 0) && (Z.land mode DEVELOP_MASK_RASTER =? 0)
           then Some (dt_history_item_get_name m) else None in
  set_raster (alter (fun r => Raster v (r_users r) (r_sink_source r) (r_sink_id r)) ptr (d_raster d)) d.

Definition set_sink (src : nat) (id : Z) (r : raster_mask_t) : raster_mask_t :=
  Raster (r_mask r) (r_users r) src id.
Definition set_users (f : gmap nat Z -> gmap nat Z) (r : raster_mask_t) : raster_mask_t :=
  Raster (r_mask r) (f (r_users r)) (r_sink_source r) (r_sink_id r).

Definition dt_iop_commit_blend_params (ptr : nat) (bp : dt_develop_blend_params_t) (d : develop_t)
    : c_result develop_t :=
  let* m := deref d ptr in
  let* r := match d_raster d !! ptr with Some r => Done r | None => Undefined end in
  let* d :=
    if (r_sink_source r =? 0)%nat then Done d
    else match d_raster d !! r_sink_source r with
         | Some _ => Done (set_raster (alter (set_users (delete ptr)) (r_sink_source r) (d_raster d)) d)
         | None => Undefined
         end in
  let m := m_set_blend bp m in
  let d := dt_iop_set_mask_mode ptr m (mask_mode bp) (store ptr m d) in
  let* bases := base_list d (d_iop d) in
  match list_find (fun b => String.eqb (mod_op b) (raster_mask_source bp)
                            && (mod_multi_priority b =? raster_mask_instance bp)) bases with
  | Some (_, b) =>
      let rs := alter (set_users <[ptr := raster_mask_id bp]>) (mod_ptr b) (d_raster d) in
      Done (set_raster (alter (set_sink (mod_ptr b) (raster_mask_id bp)) ptr rs) d)
  | None => Done (set_raster (alter (set_sink 0 0) ptr (d_raster d)) d)
  end.

(** ** Adding an item *)

(** [g_list_nth(list, n)] for an int: a negative index is a huge unsigned one. *)
Definition g_list_nth {A} (l : list A) (n : Z) : option A :=
  if n <? 0 then None else l !! Z.to_nat n.

(** The loop over the items above the end: the ones that are kept. *)
Fixpoint keep_always_on (d : develop_t) (above : list item_t) : c_result (list item_t) :=
  match above with
  | [] => Done []
  | h :: above =>
      let* m := deref d (h_module h) in
      let* kept := keep_always_on d above in
      Done (if negb (m_hide_enable_button m) && negb (mod_default_enabled (m_base m))
            then kept else h :: kept)
  end.

(** [while(history_end > 0 && !g_list_nth(history, history_end - 1)) history_end--] *)
Fixpoint trim_end (len n : nat) : nat :=
  match n with
  | O => O
  | S n' => if (n' <? len)%nat then n else trim_end len n'
  end.

(** The history without its obsolete items, and its end. *)
Definition drop_obsolete (d : develop_t) : c_result develop_t :=
  let at_ := if d_history_end d <? 0 then length (d_history d) else Z.to_nat (d_history_end d) in
  let* kept := keep_always_on d (drop at_ (d_history d)) in
  let history := take at_ (d_history d) ++ kept in
  let history_end := if 0 <? d_history_end d
                     then Z.of_nat (trim_end (length history) (Z.to_nat (d_history_end d)))
                     else d_history_end d in
  Done (set_history history (history_end + Z.of_nat (length kept)) d).

(** Whether the edit of [module] needs an item of its own above [top]. *)
Definition needs_new_item (d : develop_t) (module : nat) (m : module_t) (include_masks : bool)
    (top : option item_t) : c_result bool :=
  match top with
  | None => Done true
  | Some hist =>
      if negb (module =? h_module hist)%nat then Done true
      else
        let* hm := deref d (h_module hist) in
        Done (negb (m_instance m =? m_instance hm)
              || negb (mod_multi_priority (m_base m) =? mod_multi_priority (m_base hm))
              || (negb (d_focus_hash d =? h_focus_hash hist) &&
                  (negb (m_params_size m =? m_params_size hm)%nat || include_masks ||
                   ((m_params_size m =? m_params_size hm)%nat &&
                    negb (bool_decide (take (m_params_size m) (h_params hist) =
                                       take (m_params_size m) (m_params m)))))))
  end.

Definition new_item (d : develop_t) (module : nat) (m : module_t) (include_masks : bool)
    : c_result item_t :=
  let* params := memcpy (m_params_size m) (replicate (m_params_size m) NUL) (m_params m) in
  Done (Item (g_strlcpy 20 (mod_op (m_base m))) module (mod_enabled (m_base m)) params
             (m_blend_params m) (mod_iop_order (m_base m)) (mod_multi_priority (m_base m))
             (g_strlcpy 128 (m_multi_name m))
             (if include_masks then dt_masks_dup_forms_deep (d_forms d) else [])
             (d_focus_hash d)).

Definition changed_item (d : develop_t) (m : module_t) (include_masks : bool) (hist : item_t)
    : c_result item_t :=
  let* params := memcpy (m_params_size m) (h_params hist) (m_params m) in
  Done (Item (h_op_name hist) (h_module hist) (mod_enabled (m_base m)) params
             (if negb (Z.land (mod_flags (m_base m)) IOP_FLAGS_SUPPORTS_BLENDING =? 0)
              then m_blend_params m else h_blend_params hist)
             (mod_iop_order (m_base m)) (mod_multi_priority (m_base m)) (m_multi_name m)
             (if include_masks then dt_masks_dup_forms_deep (d_forms d) else h_forms hist)
             (h_focus_hash hist)).

Definition _dev_add_history_item_ext (d : develop_t) (module : nat)
    (enable no_image include_masks : bool) : c_result develop_t :=
  let* d := drop_obsolete d in
  let top := g_list_nth (d_history d) (d_history_end d - 1) in
  let* m := deref d module in
  let* new := needs_new_item d module m include_masks top in
  match (if new then None else top) with
  | None =>
      let m := if enable then m_set_enabled true m else m in
      let* hist := new_item d module m include_masks in
      let d := set_history (d_history d ++ [hist]) (d_history_end d + 1) (store module m d) in
      Done (if no_image then d else pipes_changed DT_DEV_PIPE_SYNCH d)
  | Some hist =>
      let m := if negb (h_enabled hist) && negb (mod_enabled (m_base m))
               then m_set_enabled true m else m in
      let* hist := changed_item d m include_masks hist in
      let d := set_history (<[Z.to_nat (d_history_end d - 1) := hist]> (d_history d)) (d_history_end d)
                           (store module m d) in
      Done (if no_image then d else pipes_changed DT_DEV_PIPE_TOP_CHANGED d)
  end.

Definition dt_dev_add_history_item_ext (d : develop_t) (module : nat) (enable no_image : bool)
    : c_result develop_t := _dev_add_history_item_ext d module enable no_image false.

(** Without a module: the mask manager, never enabled. *)
Definition dt_dev_add_masks_history_item_ext (d : develop_t) (module : nat) (enable no_image : bool)
    : c_result develop_t :=
  if (module =? 0)%nat then
    let* bases := base_list d (d_iop d) in
    match list_find (fun b => String.eqb (mod_op b) "mask_manager") bases with
    | Some (_, b) => _dev_add_history_item_ext d (mod_ptr b) false no_image true
    | None => Done d
    end
  else _dev_add_history_item_ext d module enable no_image true.

(** ** Going to a place in the history *)

(** One module to its defaults. *)
Definition reset_module (ptr : nat) (d : develop_t) : c_result develop_t :=
  let* m := deref d ptr in
  let* params := memcpy (m_params_size m) (m_params m) (m_default_params m) in
  let* d := dt_iop_commit_blend_params ptr (m_default_blendop_params m) (store ptr (m_set_params params m) d) in
  let* m := deref d ptr in
  let order := if mod_multi_priority (m_base m) =? 0
               then dt_ioppr_get_iop_order (d_iop_order_list d) (mod_op (m_base m)) 0 else INT_MAX in
  Done (store ptr (m_set_order order (m_set_enabled (mod_default_enabled (m_base m)) m)) d).

Fixpoint reset_modules (ptrs : list nat) (d : develop_t) : c_result develop_t :=
  match ptrs with
  | [] => Done d
  | p :: ptrs => let* d := reset_module p d in reset_modules ptrs d
  end.

(** One item into its module. *)
Definition apply_item (h : item_t) (d : develop_t) : c_result develop_t :=
  let* m := deref d (h_module h) in
  let* params := memcpy (m_params_size m) (m_params m) (h_params h) in
  let* d := dt_iop_commit_blend_params (h_module h) (h_blend_params h)
              (store (h_module h) (m_set_params params m) d) in
  let* m := deref d (h_module h) in
  Done (store (h_module h)
          (m_set_multi_name (g_strlcpy 128 (h_multi_name h))
            (m_set_enabled (h_enabled h) (m_set_order (h_iop_order h) m))) d).

(** The items in turn, and the masks of the last one that has any. *)
Fixpoint apply_items (items : list item_t) (forms : list dt_masks_form_t) (d : develop_t)
    : c_result (list dt_masks_form_t * develop_t) :=
  match items with
  | [] => Done (forms, d)
  | h :: items =>
      let* d := apply_item h d in
      apply_items items (match h_forms h with [] => forms | fs => fs end) d
  end.

(** The items between two ends. *)
Definition between (d : develop_t) (a b : Z) : list item_t :=
  let lo := Z.min a b in
  if lo <? 0 then [] else take (Z.to_nat (Z.max a b - lo)) (drop (Z.to_nat lo) (d_history d)).

(** [fuel] is for the search of duplicate orders, which may not end ([None]). *)
Definition dt_dev_pop_history_items_ext (fuel : nat) (d : develop_t) (cnt : Z)
    : option (c_result develop_t) :=
  let end_prev := d_history_end d in
  let r :=
    let* d := reset_modules (d_iop d) (set_history (d_history d) cnt d) in
    let* (forms, d) := apply_items (take (Z.to_nat cnt) (d_history d)) [] d in
    let* bases := base_list d (d_iop d) in
    Done (forms, bases, d) in
  match r with
  | Undefined => Some Undefined
  | Done (forms, bases, d) =>
      let dv := dt_ioppr_resync_modules_order
                  (Develop bases (d_iop_order_list d) (history_view (d_history d))) in
      bases ← dt_ioppr_check_duplicate_iop_order fuel (dev_iop dv) (dev_history dv);
      let d := set_order_list (dev_iop_order_list dv) (write_back bases d) in
      let masks_changed :=
        existsb (fun h => match h_forms h with [] => false | _ => true end) (between d cnt end_prev) in
      Some (Done (if masks_changed then dt_masks_replace_current_forms forms d else d))
  end.

(** The order of the links is compared by the orders of the modules there. *)
Fixpoint orders_differ (d : develop_t) (new old : list nat) : c_result bool :=
  match new, old with
  | p :: new, q :: old =>
      let* m := deref d p in
      let* m' := deref d q in
      if negb (mod_iop_order (m_base m) =? mod_iop_order (m_base m')) then Done true
      else orders_differ d new old
  | _, _ => Done false
  end.

Definition dt_dev_pop_history_items (fuel : nat) (d0 : develop_t) (cnt : Z)
    : option (c_result develop_t) :=
  r ← dt_dev_pop_history_items_ext fuel d0 cnt;
  Some (let* d := r in
        let* changed :=
          if negb (length (d_iop d0) =? length (d_iop d))%nat then Done true
          else orders_differ d (d_iop d) (d_iop d0) in
        Done (if changed : bool
              then set_pipes (map (Z.lor DT_DEV_PIPE_REMOVE) (d_changed d)) (map (fun _ => true) (d_cache_obsolete d)) d
              else pipes_changed DT_DEV_PIPE_SYNCH d)).

(** ** Removing a module *)

Definition dt_dev_invalidate_history_module (l : list item_t) (module : nat) : list item_t :=
  map (fun h => if (h_module h =? module)%nat
                then Item (h_op_name h) 0 (h_enabled h) (h_params h) (h_blend_params h) (h_iop_order h)
                          (h_multi_priority h) (h_multi_name h) (h_forms h) (h_focus_hash h)
                else h) l.

Definition dt_dev_module_remove (d : develop_t) (module : nat) : develop_t :=
  let d :=
    if d_gui_attached d then
      let rest := List.filter (fun h => negb (module =? h_module h)%nat) (d_history d) in
      set_history rest (d_history_end d - Z.of_nat (length (d_history d) - length rest)) d
    else d in
  set_iop (match list_find (fun p => p = module) (d_iop d) with
           | Some (i, _) => delete i (d_iop d)
           | None => d_iop d
           end) d.

(** ** The tables main.history and main.masks_history *)

Record history_row := History_row {
  row_operation : string;
  row_op_params : list ascii;
  row_module : Z;
  row_enabled : bool;
  row_blendop_params : dt_develop_blend_params_t;
  row_blendop_version : Z;
  row_multi_priority : Z;
  row_multi_name : string;
}.

(** A row of main.masks_history: imgid, num, and the form with its points in one
    blob. *)
Record masks_row := Masks_row {
  mrow_imgid : Z;
  mrow_num : Z;
  mrow_formid : Z;
  mrow_form : Z;
  mrow_name : string;
  mrow_version : Z;
  mrow_points : list ascii;
  mrow_points_count : nat;
  mrow_source : list ascii;
}.

(** Also the column history_end of main.images, and main.module_order. *)
Record database := Database {
  db_history : gmap (Z * Z) history_row;
  db_masks : list masks_row;
  db_history_end : gmap Z Z;
  db_module_order : module_order;
}.

Section database.
(** module->version() by the name of the operation, dt_develop_blend_version(), and
    the results of sqlite3_step for main.module_order. *)
Context (version : string -> Z) (blend_version : Z) (step : nat -> bool).

Definition dt_masks_write_masks_history_item (imgid num : Z) (form : dt_masks_form_t) (db : database)
    : database :=
  if (point_struct_size form =? 0)%nat then db
  else
    let points := map (take (point_struct_size form)) (form_points form) in
    Database (db_history db)
      (db_masks db ++ [Masks_row imgid num (formid form) (form_type form) (form_name form)
                                 (form_version form) (concat points) (length points) (form_source form)])
      (db_history_end db) (db_module_order db).

Definition dt_dev_write_history_item (d : develop_t) (imgid : Z) (h : item_t) (num : Z) (db : database)
    : c_result database :=
  let* m := deref d (h_module h) in
  let* params := memcpy (m_params_size m) (replicate (m_params_size m) NUL) (h_params h) in
  let row := History_row (mod_op (m_base m)) params (version (mod_op (m_base m))) (h_enabled h)
                         (h_blend_params h) blend_version (h_multi_priority h) (h_multi_name h) in
  let db := Database (<[(imgid, num) := row]> (db_history db)) (db_masks db) (db_history_end db)
                     (db_module_order db) in
  Done (foldl (fun db form => dt_masks_write_masks_history_item imgid num form db) db (h_forms h)).

Definition _cleanup_history (imgid : Z) (db : database) : database :=
  Database (filter (fun '((i, _), _) => i <> imgid) (db_history db))
           (List.filter (fun r => negb (mrow_imgid r =? imgid)) (db_masks db))
           (db_history_end db) (db_module_order db).

Fixpoint write_items (d : develop_t) (imgid : Z) (i : Z) (history : list item_t) (db : database)
    : c_result database :=
  match history with
  | [] => Done db
  | h :: history =>
      let* db := dt_dev_write_history_item d imgid h i db in
      write_items d imgid (i + 1) history db
  end.

(** Without the hash of the history that is written at the end. *)
Definition dt_dev_write_history_ext (d : develop_t) (imgid : Z) (db : database) : c_result database :=
  let* db := write_items d imgid 0 (d_history d) (_cleanup_history imgid db) in
  let* (_, order) := dt_ioppr_write_iop_order_list step (d_iop_order_list d) imgid (db_module_order db) in
  Done (Database (db_history db) (db_masks db) (alter (fun _ => d_history_end d) imgid (db_history_end db)) order).

(** ** The history panel *)

Record dt_undo_history_t := Undo_history {
  before_snapshot : list item_t;
  after_snapshot : list item_t;
  before_end : Z;
  after_end : Z;
  before_iop_order_list : list dt_iop_order_entry_t;
  after_iop_order_list : list dt_iop_order_entry_t;
}.

Record dt_lib_history_t := Lib_history {
  record_undo : bool;
  record_history_level : Z;
  previous_snapshot : list item_t;
  previous_history_end : Z;
  previous_iop_order_list : list dt_iop_order_entry_t;
}.

Definition dt_iop_get_module_from_list (d : develop_t) (iop : list nat) (op : string)
    : c_result (option dt_iop_module_t) :=
  let* bases := base_list d iop in
  Done (snd <$> list_find (fun b => String.eqb (mod_op b) op) bases).

(** The size of the parameters of an item. *)
Definition item_params_size (d : develop_t) (h : item_t) : c_result nat :=
  if negb (h_module h =? 0)%nat then
    let* m := deref d (h_module h) in Done (m_params_size m)
  else
    let* base := dt_iop_get_module_from_list d (d_iop d) (h_op_name h) in
    match base with
    | Some b => let* m := deref d (mod_ptr b) in Done (m_params_size m)
    | None => Done 0%nat
    end.

Fixpoint duplicate_loop (d : develop_t) (hist result : list item_t) : c_result (list item_t) :=
  match hist with
  | [] => Done result
  | h :: hist =>
      let* n := item_params_size d h in
      let* params := memcpy n (replicate n NUL) (h_params h) in
      duplicate_loop d hist
        (Item (h_op_name h) (h_module h) (h_enabled h) params (h_blend_params h) (h_iop_order h)
              (h_multi_priority h) (h_multi_name h) (dt_masks_dup_forms_deep (h_forms h)) (h_focus_hash h)
         :: result)
  end.

Definition dt_history_duplicate (d : develop_t) (hist : list item_t) : c_result (list item_t) :=
  duplicate_loop d hist [].

(** The handler of the signal that the history will change, with the arguments of
    the signal. *)
Definition _lib_history_will_change_callback (history : list item_t) (history_end : Z)
    (iop_order_list : list dt_iop_order_entry_t) (lib : dt_lib_history_t) : dt_lib_history_t :=
  let level := record_history_level lib + 1 in
  if record_undo lib && (record_history_level lib =? 0)
  then Lib_history (record_undo lib) level history history_end iop_order_list
  else Lib_history (record_undo lib) level (previous_snapshot lib) (previous_history_end lib)
                   (previous_iop_order_list lib).

(** The part of the handler of the signal that the history has changed that keeps
    the records: the new state and what is recorded for undo. *)
Definition _lib_history_change_callback (d : develop_t) (lib : dt_lib_history_t)
    : c_result (dt_lib_history_t * option dt_undo_history_t) :=
  let lib := Lib_history (record_undo lib) (record_history_level lib - 1) (previous_snapshot lib)
                         (previous_history_end lib) (previous_iop_order_list lib) in
  if record_undo lib && (record_history_level lib =? 0) then
    let* before := dt_history_duplicate d (previous_snapshot lib) in
    let* after := dt_history_duplicate d (d_history d) in
    Done (lib, Some (Undo_history before after (previous_history_end lib) (d_history_end d)
                       (dt_ioppr_iop_order_copy_deep (previous_iop_order_list lib))
                       (dt_ioppr_iop_order_copy_deep (d_iop_order_list d))))
  else Done (Lib_history true (record_history_level lib) (previous_snapshot lib)
                         (previous_history_end lib) (previous_iop_order_list lib), None).

(** An operation on the history between its two signals. *)
Definition with_signals (d : develop_t) (lib : dt_lib_history_t) (op : develop_t -> c_result develop_t)
    : c_result (develop_t * dt_lib_history_t * option dt_undo_history_t) :=
  let* snapshot := dt_history_duplicate d (d_history d) in
  let lib := _lib_history_will_change_callback snapshot (d_history_end d)
               (dt_ioppr_iop_order_copy_deep (d_iop_order_list d)) lib in
  let* d := op d in
  let* (lib, undo) := _lib_history_change_callback d lib in
  Done (d, lib, undo).

(** [gui_reset]: darktable.gui->reset, or no user interface at all. *)
Definition dt_dev_add_history_item (gui_reset : bool) (d : develop_t) (lib : dt_lib_history_t)
    (module : nat) (enable : bool) : c_result (develop_t * dt_lib_history_t * option dt_undo_history_t) :=
  if gui_reset || negb (d_gui_attached d) then Done (d, lib, None)
  else with_signals d lib (fun d => _dev_add_history_item_ext d module enable false false).

Definition dt_dev_add_masks_history_item (gui_reset : bool) (d : develop_t) (lib : dt_lib_history_t)
    (module : nat) (enable : bool) : c_result (develop_t * dt_lib_history_t * option dt_undo_history_t) :=
  if gui_reset || negb (d_gui_attached d) then Done (d, lib, None)
  else with_signals d lib (fun d => dt_dev_add_masks_history_item_ext d module enable false).

(** *** Undo and redo of the history *)

Definition set_priority (v : Z) (m : module_t) : module_t :=
  let b := m_base m in
  m_set_base (Module_t (mod_ptr b) (mod_op b) v (mod_iop_order b) (mod_enabled b)
                       (mod_default_enabled b) (mod_flags b)) m.

Definition set_raster_instance (v : Z) (bp : dt_develop_blend_params_t) : dt_develop_blend_params_t :=
  Blend (mask_mode bp) (raster_mask_source bp) v (raster_mask_id bp) (other_blend_params bp).

Definition h_set_blend v h := Item (h_op_name h) (h_module h) (h_enabled h) (h_params h) v
  (h_iop_order h) (h_multi_priority h) (h_multi_name h) (h_forms h) (h_focus_hash h).
Definition h_set_module v h := Item (h_op_name h) v (h_enabled h) (h_params h) (h_blend_params h)
  (h_iop_order h) (h_multi_priority h) (h_multi_name h) (h_forms h) (h_focus_hash h).

(** The modules that use the raster mask of this one follow its new number, in the
    module and in the items of the history of the develop state. *)
Definition dt_iop_update_multi_priority (ptr : nat) (prio : Z) (d : develop_t) : c_result develop_t :=
  let* m := deref d ptr in
  let users := match d_raster d !! ptr with Some r => dom (r_users r) | None => ∅ end in
  let modules :=
    set_fold (fun u ms => alter (fun m => m_set_blend (set_raster_instance prio (m_blend_params m)) m) u ms)
             (d_modules d) users in
  let history :=
    map (fun h => if bool_decide (h_module h ∈ users)
                  then h_set_blend (set_raster_instance prio (h_blend_params h)) h else h) (d_history d) in
  Done (set_history history (d_history_end d) (set_modules (alter (set_priority prio) ptr modules) d)).

Fixpoint _rebuild_multi_priority (history : list item_t) (changed : bool) (d : develop_t)
    : c_result (bool * develop_t) :=
  match history with
  | [] => Done (changed, d)
  | h :: history =>
      if (h_module h =? 0)%nat then _rebuild_multi_priority history changed d
      else
        let* m := deref d (h_module h) in
        if mod_multi_priority (m_base m) =? h_multi_priority h
        then _rebuild_multi_priority history changed d
        else
          let* d := dt_iop_update_multi_priority (h_module h) (h_multi_priority h) d in
          _rebuild_multi_priority history true d
  end.

Definition sort_iop (d : develop_t) (iop : list nat) : c_result (list nat) :=
  let* bases := base_list d iop in
  Done (map mod_ptr (g_list_sort dt_sort_iop_by_order bases)).

Definition _reset_module_instance (hist : list item_t) (ptr : nat) (op : string) (prio : Z) : list item_t :=
  map (fun h => if (h_module h =? 0)%nat && String.eqb (h_op_name h) op && (h_multi_priority h =? prio)
                then h_set_module ptr h else h) hist.

Definition _search_history_by_module (history : list item_t) (ptr : nat) : bool :=
  existsb (fun h => (h_module h =? ptr)%nat) history.

Definition is_base_of (op : string) (b : dt_iop_module_t) : bool :=
  String.eqb (mod_op b) op && (mod_multi_priority b =? 0).

(** The link that is deleted at link [i], if any. *)
Definition deleted_link (d : develop_t) (history : list item_t) (iop : list nat) (i p : nat)
    : c_result (option nat) :=
  let* m := deref d p in
  if mod_multi_priority (m_base m) =? 0 then
    match iop !! S i with
    | None => Done None
    | Some q =>
        let* next := deref d q in
        if is_base_of (mod_op (m_base m)) (m_base next) then
          Done (match _search_history_by_module history p, _search_history_by_module history q with
                | true, false => Some (S i)
                | false, true => Some i
                | _, _ => None
                end)
        else Done None
    end
  else Done (if _search_history_by_module history p then None else Some i).

(** The loop over the modules, which starts again after each deletion: the list that
    remains and the modules deleted, in turn. [None] if it has not ended. *)
Fixpoint check_deleted_loop (fuel : nat) (d : develop_t) (history : list item_t) (iop : list nat)
    (i : nat) (deleted : list nat) : option (c_result (list nat * list nat)) :=
  match fuel with
  | O => None
  | S fuel =>
      match iop !! i with
      | None => Some (Done (iop, deleted))
      | Some p =>
          match deleted_link d history iop i p with
          | Undefined => Some Undefined
          | Done None => check_deleted_loop fuel d history iop (S i) deleted
          | Done (Some j) =>
              check_deleted_loop fuel d history (delete j iop) 0 (deleted ++ option_list (iop !! j))
          end
      end
  end.

(** Each deletion makes the list shorter, and each pass visits each link once. *)
Definition _check_deleted_instances (d : develop_t) (iop : list nat) (history : list item_t)
    : option (c_result (list nat * list nat)) :=
  r ← check_deleted_loop (S (length iop) * S (length iop)) d history iop 0 [];
  Some (let* (rest, deleted) := r in
        if deleted is [] then Done (rest, []) else
        let* rest := sort_iop d rest in
        Done (rest, deleted)).

(** The undo data lose the deleted modules in the snapshots of the later state. *)
Definition _history_invalidate_cb (module : nat) (u : dt_undo_history_t) : dt_undo_history_t :=
  Undo_history (before_snapshot u) (dt_dev_invalidate_history_module (after_snapshot u) module)
    (before_end u) (after_end u) (before_iop_order_list u) (after_iop_order_list u).

(** The undo data find a re-created module again in the snapshots of the later
    state. *)
Definition _undo_items_cb (ptr : nat) (op : string) (prio : Z) (u : dt_undo_history_t) : dt_undo_history_t :=
  Undo_history (before_snapshot u) (_reset_module_instance (after_snapshot u) ptr op prio)
    (before_end u) (after_end u) (before_iop_order_list u) (after_iop_order_list u).

(** dt_iop_load_module: what the plug-in of a module makes of a new instance, [None]
    if it cannot be loaded. *)
Context (dt_iop_load_module : dt_iop_module_t -> option (module_t * raster_mask_t)).

(** A new module for an item, behind the first module with the name of its operation. *)
Definition create_module (h : item_t) (base : dt_iop_module_t) (d : develop_t)
    : option (c_result (nat * develop_t)) :=
  '(m, r) ← dt_iop_load_module base;
  Some (let* bm := deref d (mod_ptr base) in
        let ptr := fresh (dom (d_modules d) ∪ {[0%nat]} : gset nat) in
        let b := m_base m in
        let m := m_set_base (Module_t ptr (mod_op b) (mod_multi_priority b) (mod_iop_order b)
                               (mod_enabled b) (mod_default_enabled b) (mod_flags b)) m in
        let m := Mod (m_base m) (m_instance bm) (m_name m) (g_strlcpy 128 (h_multi_name h))
                     (m_params_size m) (m_params m) (m_default_params m) (m_blend_params m)
                     (m_default_blendop_params m) (m_hide_enable_button m) in
        let d := set_raster (<[ptr := r]> (d_raster d)) (store ptr m d) in
        let* d := dt_iop_update_multi_priority ptr (h_multi_priority h) d in
        let* m := deref d ptr in
        Done (ptr, store ptr (m_set_order (h_iop_order h) m) d)).

(** [g_list_insert_sorted(iop_list, module, dt_sort_iop_by_order)] *)
Definition insert_sorted (d : develop_t) (ptr : nat) (iop : list nat) : c_result (list nat) :=
  let* m := deref d ptr in
  let* bases := base_list d iop in
  Done (map mod_ptr (sort_insert dt_sort_iop_by_order (m_base m) bases)).

(** What the caller's list pointer still sees if the function returns early: the
    links from the old first one. *)
Fixpoint from_link (head : option nat) (iop : list nat) : list nat :=
  match iop with
  | [] => []
  | p :: iop' => if bool_decide (head = Some p) then iop else from_link head iop'
  end.

Record undo_work := Work {
  w_dev : develop_t;
  w_history : list item_t;
  w_iop : list nat;
  w_undo : list dt_undo_history_t;
  w_done : bool;
  w_changed : bool;
}.

Fixpoint create_deleted_loop (indices : list nat) (head : option nat) (w : undo_work) : c_result undo_work :=
  match indices with
  | [] => Done w
  | i :: indices =>
      match w_history w !! i with
      | None => Done w
      | Some h =>
          if negb (h_module h =? 0)%nat then create_deleted_loop indices head w
          else
            let return_ := Done (Work (w_dev w) (w_history w) (from_link head (w_iop w)) (w_undo w) (w_done w) true) in
            let* base := dt_iop_get_module_from_list (w_dev w) (w_iop w) (h_op_name h) in
            match base with
            | None => return_
            | Some base =>
                match create_module h base (w_dev w) with
                | None => return_
                | Some r =>
                    let* (ptr, d) := r in
                    let* m := deref d ptr in
                    let* iop := insert_sorted d ptr (w_iop w) in
                    let op := mod_op (m_base m) in
                    let prio := h_multi_priority h in
                    let history := if w_done w then w_history w
                                   else _reset_module_instance (w_history w) ptr op prio in
                    let undo := if w_done w then w_undo w else map (_undo_items_cb ptr op prio) (w_undo w) in
                    create_deleted_loop indices head
                      (Work d (alter (h_set_module ptr) i history) iop undo true true)
                end
            end
      end
  end.

Definition _create_deleted_modules (d : develop_t) (iop : list nat) (history : list item_t)
    (undo : list dt_undo_history_t) : c_result undo_work :=
  create_deleted_loop (seq 0 (length history)) (head iop) (Work d history iop undo false false).

(** [_pop_undo] up to the point where the new history is written to the database
    and loaded again, with the data of all undo records for the history. *)
Definition _pop_undo (d : develop_t) (hist : dt_undo_history_t) (action : dt_undo_action_t)
    (undo : list dt_undo_history_t) : option (c_result (develop_t * list dt_undo_history_t)) :=
  let '(snapshot, hist_end, order) :=
    match action with
    | DT_ACTION_UNDO => (before_snapshot hist, before_end hist, before_iop_order_list hist)
    | DT_ACTION_REDO => (after_snapshot hist, after_end hist, after_iop_order_list hist)
    end in
  let r :=
    let* temp := dt_history_duplicate d snapshot in
    let d := set_order_list (dt_ioppr_iop_order_copy_deep order) d in
    let* (changed, d) := _rebuild_multi_priority temp false d in
    let* iop := if changed : bool then sort_iop d (d_iop d) else Done (d_iop d) in
    let* w := _create_deleted_modules d iop temp undo in
    Done (changed, w) in
  match r with
  | Undefined => Some Undefined
  | Done (changed, w) =>
      r ← _check_deleted_instances (w_dev w) (w_iop w) (w_history w);
      Some (let* (iop, deleted) := r in
            let d := set_iop iop (set_history (w_history w) hist_end (w_dev w)) in
            let undo := foldl (fun us p => map (_history_invalidate_cb p) us) (w_undo w) deleted in
            Done (if changed || w_changed w || (if deleted is [] then false else true)
                  then set_pipes (map (Z.lor DT_DEV_PIPE_REMOVE) (d_changed d))
                                 (map (fun _ => true) (d_cache_obsolete d)) d
                  else d, undo))
  end.

End database.
