(* ===== verification/HistorySpec.v ===== *)
(** What the history of [History] guarantees: a type invariant of the develop
    state, the replay of a history into the modules, and that the history and the
    modules stay in step over edits; what undo makes of a history.

    [wf_dev] is the invariant. [replay] is the reference for going to a place in
    the history: a fold over the items of one module. *)

From Stdlib Require Import Ascii String.
From S2P Require Import Prelude Utility IopOrder IopModules Undo History.
Local Open Scope Z_scope.

(** ** The invariant *)

Definition wf_module (p : nat) (m : module_t) : Prop :=
  p <> 0%nat /\ mod_ptr (m_base m) = p /\
  length (m_params m) = m_params_size m /\ length (m_default_params m) = m_params_size m.

Definition raster_ok (ms : gmap nat module_t) (rs : gmap nat raster_mask_t) : Prop :=
  (forall p, is_Some (ms !! p) -> is_Some (rs !! p)) /\
  (forall p r, rs !! p = Some r -> r_sink_source r <> 0%nat -> is_Some (rs !! r_sink_source r)).

Definition wf_item (d : develop_t) (h : item_t) : Prop :=
  h_module h ∈ d_iop d /\
  exists m, d_modules d !! h_module h = Some m /\ length (h_params h) = m_params_size m.

(** The name and the number of a module. *)
Definition id_at (d : develop_t) (p : nat) : option (string * Z) := mod_id ∘ m_base <$> d_modules d !! p.

Record wf_dev (d : develop_t) : Prop := Wf {
  wf_modules : map_Forall wf_module (d_modules d);
  wf_rasters : raster_ok (d_modules d) (d_raster d);
  wf_nodup : NoDup (d_iop d);
  wf_iop : Forall (fun p => is_Some (d_modules d !! p)) (d_iop d);
  wf_ids : forall p q, p ∈ d_iop d -> q ∈ d_iop d -> id_at d p = id_at d q -> p = q;
  wf_prios : forall p m, p ∈ d_iop d -> d_modules d !! p = Some m -> mod_multi_priority (m_base m) <> -1;
  wf_items : Forall (wf_item d) (d_history d);
  wf_end : 0 <= d_history_end d <= Z.of_nat (length (d_history d));
}.

(** ** Values of a module *)

Definition default_values (d : develop_t) (m : module_t) : module_t :=
  m_set_order (if mod_multi_priority (m_base m) =? 0
               then dt_ioppr_get_iop_order (d_iop_order_list d) (mod_op (m_base m)) 0 else INT_MAX)
    (m_set_enabled (mod_default_enabled (m_base m))
      (m_set_blend (m_default_blendop_params m) (m_set_params (m_default_params m) m))).

Definition item_values (h : item_t) (m : module_t) : module_t :=
  m_set_multi_name (g_strlcpy 128 (h_multi_name h))
    (m_set_enabled (h_enabled h) (m_set_order (h_iop_order h)
      (m_set_blend (h_blend_params h) (m_set_params (h_params h) m)))).

(** The items of the module at [p], one after the other. *)
Definition replay (p : nat) (items : list item_t) (m : module_t) : module_t :=
  foldl (fun m h => if (h_module h =? p)%nat then item_values h m else m) m items.

Lemma memcpy_all n dst src :
  length src = n -> length dst = n -> memcpy n dst src = Done src.
Proof.
  intros Hs Hd. unfold memcpy. rewrite Hs, Hd, Nat.leb_refl. cbn.
  rewrite firstn_all2, skipn_all2 by lia. by rewrite app_nil_r.
Qed.

Lemma base_list_Done d ptrs :
  Forall (fun p => is_Some (d_modules d !! p)) ptrs ->
  base_list d ptrs = Done (omap (fun p => m_base <$> d_modules d !! p) ptrs).
Proof.
  induction 1 as [|p ptrs [m Hm] _ IH]; [done|]. cbn [base_list omap list_omap]. unfold deref.
  rewrite Hm. cbn [c_bind]. by rewrite IH.
Qed.

(** ** One module, one item *)

Lemma raster_ok_alter ms rs p f :
  raster_ok ms rs ->
  (forall r, rs !! p = Some r -> r_sink_source (f r) <> 0%nat -> is_Some (rs !! r_sink_source (f r))) ->
  raster_ok ms (alter f p rs).
Proof.
  intros [H1 H2] Hf. split.
  - intros q Hq. apply lookup_alter_is_Some. by apply H1.
  - intros q r. rewrite lookup_alter_Some. intros [(<- & r' & Hr & ->)|[_ Hr]] Hs;
      apply lookup_alter_is_Some; eauto.
Qed.

Lemma raster_ok_keep ms rs p f :
  raster_ok ms rs -> (forall r, r_sink_source (f r) = r_sink_source r) -> raster_ok ms (alter f p rs).
Proof. intros H Hf. apply raster_ok_alter; [done|]. intros r Hr. rewrite Hf. by apply (proj2 H p). Qed.

Lemma raster_ok_store ms rs p m m' :
  ms !! p = Some m -> raster_ok ms rs -> raster_ok (<[p := m']> ms) rs.
Proof.
  intros Hm [H1 H2]. split; [|done]. intros q [x Hq]. apply H1.
  destruct (decide (p = q)) as [->|]; [by eexists|]. rewrite lookup_insert_ne in Hq by done. by eexists.
Qed.

Lemma is_Some_store (ms : gmap nat module_t) p m m' q :
  ms !! p = Some m -> is_Some (ms !! q) -> is_Some (<[p := m']> ms !! q).
Proof. intros. destruct (decide (p = q)) as [->|]; [rewrite lookup_insert_eq|rewrite lookup_insert_ne]; done. Qed.

Definition live (d : develop_t) : Prop := Forall (fun p => is_Some (d_modules d !! p)) (d_iop d).

Lemma live_store d p m m' :
  d_modules d !! p = Some m -> live d -> live (store p m' d).
Proof.
  intros Hm Hl. eapply Forall_impl; [exact Hl|]. intros q. by apply (is_Some_store _ p m).
Qed.

Lemma commit_blend_spec d p m bp :
  map_Forall wf_module (d_modules d) -> raster_ok (d_modules d) (d_raster d) -> live d ->
  d_modules d !! p = Some m ->
  exists r, dt_iop_commit_blend_params p bp d = Done (set_raster r (store p (m_set_blend bp m) d)) /\
            raster_ok (d_modules d) r.
Proof.
  intros Hwf Hr Hl Hm. unfold dt_iop_commit_blend_params, deref. rewrite Hm. cbn [c_bind].
  destruct (proj1 Hr p ltac:(by rewrite Hm)) as [rp Hrp]. rewrite Hrp. cbn [c_bind].
  assert (exists rs, (if (r_sink_source rp =? 0)%nat then Done d else
    match d_raster d !! r_sink_source rp with
    | Some _ => Done (set_raster (alter (set_users (delete p)) (r_sink_source rp) (d_raster d)) d)
    | None => Undefined end) = Done (set_raster rs d) /\ raster_ok (d_modules d) rs) as (rs & -> & Hrs).
  { destruct (Nat.eqb_spec (r_sink_source rp) 0) as [|Hne].
    - exists (d_raster d). split; [by destruct d|done].
    - destruct (proj2 Hr p rp Hrp Hne) as [src ->]. eexists. split; [done|]. by apply raster_ok_keep. }
  cbn [c_bind]. set (m' := m_set_blend bp m).
  rewrite base_list_Done by (by apply (live_store d p m)).
  cbn [c_bind]. unfold dt_iop_set_mask_mode. set (rs1 := alter _ p (d_raster (store p m' (set_raster rs d)))).
  assert (raster_ok (d_modules d) rs1) as Hrs1 by by apply raster_ok_keep.
  destruct (list_find _ _) as [[i b]|] eqn:Ef.
  - apply list_find_Some in Ef as (Hb & _ & _). apply list_elem_of_lookup_2, list_elem_of_omap in Hb as (q & Hq & Hqb).
    cbn in Hq, Hqb.
    assert (is_Some (d_modules d !! mod_ptr b)) as Hsrc.
    { rewrite <- (insert_id (d_modules d) p m) by done.
      destruct (<[p := m']> (d_modules d) !! q) as [mq|] eqn:Eq; [|done]. injection Hqb as <-.
      destruct (decide (p = q)) as [<-|Hne].
      - rewrite lookup_insert_eq in Eq. injection Eq as <-. cbn.
        destruct (Hwf p m Hm) as (_ & -> & _). by rewrite lookup_insert_eq.
      - rewrite lookup_insert_ne in Eq by done. destruct (Hwf q mq Eq) as (_ & -> & _).
        by rewrite lookup_insert_ne, Eq by done. }
    eexists. split; [reflexivity|]. apply raster_ok_alter; [by apply raster_ok_keep|].
    intros r _ _. cbn [r_sink_source set_sink]. apply lookup_alter_is_Some.
    by apply (proj1 Hrs1).
  - eexists. split; [reflexivity|]. by apply raster_ok_alter.
Qed.

Lemma store_store p m m' d : store p m (store p m' d) = store p m d.
Proof. unfold store, set_modules. cbn. by rewrite insert_insert_eq. Qed.

Lemma store_set_raster p m r d : store p m (set_raster r d) = set_raster r (store p m d).
Proof. done. Qed.

(** What the replay needs and keeps. *)
Definition ok (d : develop_t) : Prop :=
  map_Forall wf_module (d_modules d) /\ raster_ok (d_modules d) (d_raster d) /\ live d.

Lemma wf_dev_ok d : wf_dev d -> ok d.
Proof. by intros []. Qed.

Lemma ok_set d p m m' r :
  ok d -> d_modules d !! p = Some m -> wf_module p m' -> raster_ok (d_modules d) r ->
  ok (set_raster r (store p m' d)).
Proof.
  intros (Hwf & Hr & Hl) Hm Hm' Hr'. split; [|split].
  - by apply map_Forall_insert_2.
  - by apply (raster_ok_store _ _ p m).
  - by apply (live_store d p m).
Qed.

(** The new parameters and blend parameters of a module, then its other fields. *)
Lemma commit_values d p m params bp :
  ok d -> d_modules d !! p = Some m -> length params = m_params_size m ->
  exists r, dt_iop_commit_blend_params p bp (store p (m_set_params params m) d) =
              Done (set_raster r (store p (m_set_blend bp (m_set_params params m)) d)) /\
            raster_ok (d_modules d) r.
Proof.
  intros (Hwf & Hr & Hl) Hm Hlen. pose proof (Hwf p m Hm) as (Hp0 & Hptr & Hl1 & Hl2).
  destruct (commit_blend_spec (store p (m_set_params params m) d) p (m_set_params params m) bp)
    as (r & Hc & Hok).
  - apply map_Forall_insert_2; [|done]. by repeat split.
  - by apply (raster_ok_store _ _ p m).
  - by apply (live_store d p m).
  - apply lookup_insert_eq.
  - exists r. rewrite Hc, store_store. split; [done|]. cbn in Hok.
    destruct Hok as [H1 H2]. split; [|done]. intros q Hq. apply H1. by apply (is_Some_store _ p m).
Qed.

Lemma reset_module_spec d p m :
  ok d -> d_modules d !! p = Some m ->
  exists r, reset_module p d = Done (set_raster r (store p (default_values d m) d)) /\
            ok (set_raster r (store p (default_values d m) d)).
Proof.
  intros Hok Hm. pose proof (proj1 Hok p m Hm) as (Hp0 & Hptr & Hl1 & Hl2).
  unfold reset_module, deref at 1. rewrite Hm. cbn [c_bind]. rewrite memcpy_all by done. cbn [c_bind].
  destruct (commit_values d p m (m_default_params m) (m_default_blendop_params m)) as (r & -> & Hr); [done..|].
  cbn [c_bind]. unfold deref. cbn [d_modules set_raster store set_modules]. rewrite lookup_insert_eq. cbn [c_bind].
  exists r. rewrite store_set_raster, store_store. split; [done|]. by apply (ok_set d p m).
Qed.

Lemma apply_item_spec d h m :
  ok d -> d_modules d !! h_module h = Some m -> length (h_params h) = m_params_size m ->
  exists r, apply_item h d = Done (set_raster r (store (h_module h) (item_values h m) d)) /\
            ok (set_raster r (store (h_module h) (item_values h m) d)).
Proof.
  intros Hok Hm Hlen. pose proof (proj1 Hok _ m Hm) as (Hp0 & Hptr & Hl1 & Hl2).
  unfold apply_item, deref at 1. rewrite Hm. cbn [c_bind]. rewrite memcpy_all by done. cbn [c_bind].
  destruct (commit_values d (h_module h) m (h_params h) (h_blend_params h)) as (r & -> & Hr); [done..|].
  cbn [c_bind]. unfold deref. cbn [d_modules set_raster store set_modules]. rewrite lookup_insert_eq. cbn [c_bind].
  exists r. rewrite store_set_raster, store_store. split; [done|]. apply (ok_set d _ m); [done..| |done].
  by repeat split.
Qed.

(** ** The whole history *)

(** Only modules and raster masks have changed. *)
Definition same_frame (d d' : develop_t) : Prop :=
  d' = set_raster (d_raster d') (set_modules (d_modules d') d).

Lemma same_frame_refl d : same_frame d d.
Proof. by destruct d. Qed.

Lemma same_frame_trans d d' d'' : same_frame d d' -> same_frame d' d'' -> same_frame d d''.
Proof. unfold same_frame. intros H1 H2. rewrite H2, H1. by destruct d. Qed.

Lemma same_frame_store d r p m : same_frame d (set_raster r (store p m d)).
Proof. by destruct d. Qed.

Lemma lookup_store p m d q :
  d_modules (store p m d) !! q = if decide (p = q) then Some m else d_modules d !! q.
Proof. cbn. case_decide as E; [subst; apply lookup_insert_eq|by apply lookup_insert_ne]. Qed.

Lemma reset_modules_spec ptrs d :
  ok d -> NoDup ptrs -> Forall (fun p => is_Some (d_modules d !! p)) ptrs ->
  exists d', reset_modules ptrs d = Done d' /\ ok d' /\ same_frame d d' /\
    forall q, d_modules d' !! q =
      (if decide (q ∈ ptrs) then default_values d <$> d_modules d !! q else d_modules d !! q).
Proof.
  revert d. induction ptrs as [|p ptrs IH]; intros d Hok Hnd Hl.
  { exists d. split; [done|split; [done|split; [apply same_frame_refl|]]]. intros q.
    by rewrite decide_False by set_solver. }
  apply NoDup_cons in Hnd as [Hp Hnd]. apply Forall_cons in Hl as [[m Hm] Hl].
  cbn [reset_modules]. destruct (reset_module_spec d p m Hok Hm) as (r & -> & Hok1). cbn [c_bind].
  set (d1 := set_raster r _) in *. pose proof (same_frame_store d r p (default_values d m)) as Hf. fold d1 in Hf.
  destruct (IH d1) as (d' & -> & Hok' & Hf' & Hq); [done..| |].
  { eapply Forall_impl; [exact Hl|]. intros q. by apply (is_Some_store _ p m). }
  exists d'. split; [done|split; [done|split; [by eapply same_frame_trans|]]]. intros q.
  rewrite Hq. assert (d_modules d1 !! q = if decide (p = q) then Some (default_values d m) else d_modules d !! q)
    as -> by apply (lookup_store p _ d q).
  destruct (decide (p = q)) as [<-|Hne].
  - rewrite (decide_False (P := p ∈ ptrs)) by done. rewrite decide_True by set_solver. by rewrite Hm.
  - destruct (decide (q ∈ ptrs)) as [Hin|Hin].
    + rewrite decide_True by set_solver. by destruct (d_modules d !! q).
    + by rewrite decide_False by set_solver.
Qed.

(** What an item needs of its module. *)
Definition fits (ms : gmap nat module_t) (h : item_t) : Prop :=
  exists m, ms !! h_module h = Some m /\ length (h_params h) = m_params_size m.

Lemma fits_store ms p m m' h :
  ms !! p = Some m -> m_params_size m' = m_params_size m -> fits ms h -> fits (<[p := m']> ms) h.
Proof.
  intros Hm Hs (mh & Hh & Hl). destruct (decide (p = h_module h)) as [->|Hne].
  - exists m'. rewrite lookup_insert_eq. split; [done|]. rewrite Hs. congruence.
  - exists mh. by rewrite lookup_insert_ne.
Qed.

(** The masks of the last item that has any. *)
Definition last_forms (items : list item_t) (forms : list dt_masks_form_t) : list dt_masks_form_t :=
  foldl (fun fs h => match h_forms h with [] => fs | fs' => fs' end) forms items.

Lemma apply_items_spec items forms d :
  ok d -> Forall (fits (d_modules d)) items ->
  exists d', apply_items items forms d = Done (last_forms items forms, d') /\ ok d' /\ same_frame d d' /\
    forall q, d_modules d' !! q = replay q items <$> d_modules d !! q.
Proof.
  revert forms d. induction items as [|h items IH]; intros forms d Hok Hf.
  { exists d. split; [done|split; [done|split; [apply same_frame_refl|]]]. intros q.
    by destruct (d_modules d !! q). }
  apply Forall_cons in Hf as [(m & Hm & Hlen) Hf]. cbn [apply_items].
  destruct (apply_item_spec d h m Hok Hm Hlen) as (r & -> & Hok1). cbn [c_bind].
  set (d1 := set_raster r _) in *. pose proof (same_frame_store d r (h_module h) (item_values h m)) as Hfr. fold d1 in Hfr.
  destruct (IH (match h_forms h with [] => forms | fs => fs end) d1) as (d' & -> & Hok' & Hf' & Hq); [done| |].
  { eapply Forall_impl; [exact Hf|]. intros x. by apply (fits_store _ _ m). }
  exists d'. split; [done|split; [done|split; [by eapply same_frame_trans|]]]. intros q. rewrite Hq.
  assert (d_modules d1 !! q = if decide (h_module h = q) then Some (item_values h m) else d_modules d !! q)
    as -> by apply (lookup_store _ _ d q).
  unfold replay. cbn [foldl]. destruct (decide (h_module h = q)) as [<-|Hne].
  - rewrite Hm, Nat.eqb_refl. done.
  - destruct (Nat.eqb_spec (h_module h) q); [done|]. by destruct (d_modules d !! q).
Qed.

(** ** The order of the modules *)

(** No two links beside each other have the same order: nothing is changed. *)
Lemma check_duplicate_id fuel history mods i :
  (1 <= i)%nat -> (length mods - i < fuel)%nat ->
  (forall j a b, mods !! j = Some a -> mods !! S j = Some b ->
     mod_iop_order b = mod_iop_order a -> mod_iop_order b = INT_MAX) ->
  check_duplicate_loop fuel history 0 i mods = Some mods.
Proof.
  revert i. induction fuel as [|fuel IH]; intros i Hi Hf Hd; [lia|].
  - cbn [check_duplicate_loop]. destruct (mods !! i) as [b|] eqn:Eb; [|done].
    destruct (mods !! pred i) as [a|] eqn:Ea; [|done].
    specialize (Hd (pred i) a b Ea) as Hab. rewrite Nat.succ_pred in Hab by lia. specialize (Hab Eb).
    assert ((mod_iop_order b =? mod_iop_order a) && negb (mod_iop_order b =? INT_MAX) = false) as ->.
    { destruct (Z.eqb_spec (mod_iop_order b) (mod_iop_order a)) as [E|E]; [|done].
      by rewrite (Hab E). }
    apply lookup_lt_Some in Eb. apply IH; [lia|lia|done].
Qed.

Lemma fold_bases l (ms : gmap nat module_t) q :
  NoDup (map mod_ptr l) ->
  foldl (fun ms b => alter (m_set_base b) (mod_ptr b) ms) ms l !! q =
    match list_find (fun b => mod_ptr b = q) l with
    | Some (_, b) => m_set_base b <$> ms !! q
    | None => ms !! q
    end.
Proof.
  revert ms. induction l as [|b l IH]; intros ms Hnd; [done|]. cbn in Hnd.
  apply NoDup_cons in Hnd as [Hb Hnd]. cbn [foldl list_find]. rewrite IH by done.
  destruct (decide (mod_ptr b = q)) as [<-|Hne].
  - destruct (list_find _ l) as [[i b']|] eqn:E; cbn.
    + apply list_find_Some in E as (Hi & Hp & _). exfalso. apply Hb. rewrite <- Hp.
      by apply list_elem_of_fmap_2, (list_elem_of_lookup_2 _ i).
    + by rewrite lookup_alter_eq.
  - destruct (list_find _ l) as [[i b']|] eqn:E; cbn; by rewrite lookup_alter_ne.
Qed.

(** The bases of live modules, and where each of them stands. *)
Definition bases (d : develop_t) : list dt_iop_module_t :=
  omap (fun p => m_base <$> d_modules d !! p) (d_iop d).

Lemma bases_ptrs d : map_Forall wf_module (d_modules d) -> live d -> map mod_ptr (bases d) = d_iop d.
Proof.
  intros Hwf Hl. unfold bases. induction Hl as [|p iop [m Hm] _ IH]; [done|].
  cbn [omap list_omap]. rewrite Hm. cbn. f_equal; [|done]. by apply (Hwf p m).
Qed.

Lemma elem_of_bases d b :
  b ∈ bases d <-> exists p m, p ∈ d_iop d /\ d_modules d !! p = Some m /\ b = m_base m.
Proof.
  unfold bases. rewrite list_elem_of_omap. split.
  - intros (p & Hp & H). destruct (d_modules d !! p) as [m|] eqn:E; [|done]. injection H as <-. eauto.
  - intros (p & m & Hp & Hm & ->). exists p. by rewrite Hm.
Qed.

Lemma resync_module_ptr l m : mod_ptr (resync_module l m) = mod_ptr m.
Proof. unfold resync_module. by destruct (_ =? _). Qed.

(** The pipe is put in order and nothing else happens: a module keeps its other
    fields, and its order is the one of the list. *)
Lemma resync_write_back d fuel history :
  ok d -> NoDup (d_iop d) ->
  (forall p q, p ∈ d_iop d -> q ∈ d_iop d -> id_at d p = id_at d q -> p = q) ->
  (forall p m, p ∈ d_iop d -> d_modules d !! p = Some m -> mod_multi_priority (m_base m) <> -1) ->
  (length (d_iop d) <= fuel)%nat -> (0 < fuel)%nat ->
  let l := _ioppr_reset_iop_order (d_iop_order_list d) in
  let mods := dev_iop (dt_ioppr_resync_modules_order (Develop (bases d) (d_iop_order_list d) history)) in
  dt_ioppr_check_duplicate_iop_order fuel mods history = Some mods /\
  map mod_ptr mods ≡ₚ d_iop d /\
  (forall q, d_modules (write_back mods d) !! q =
    if decide (q ∈ d_iop d) then (fun m => m_set_base (resync_module l (m_base m)) m) <$> d_modules d !! q
    else d_modules d !! q) /\
  forall b, b ∈ mods -> exists m, d_modules (write_back mods d) !! mod_ptr b = Some m /\ m_base m = b.
Proof.
  intros (Hwf & _ & Hl) Hnd Hids Hpr Hfuel Hf0 l mods.
  pose proof (resync_iop_Permutation (Develop (bases d) (d_iop_order_list d) history)) as Hperm.
  fold mods in Hperm. cbn [dev_iop dev_iop_order_list] in Hperm. fold l in Hperm.
  assert (map mod_ptr mods ≡ₚ d_iop d) as Hptrs.
  { rewrite Hperm, map_map, <- (bases_ptrs d Hwf Hl). apply reflexive_eq, map_ext. intros. apply resync_module_ptr. }
  assert (NoDup (map mod_ptr mods)) as Hnd' by by rewrite Hptrs.
  assert (forall b, b ∈ mods -> exists p m, p ∈ d_iop d /\ d_modules d !! p = Some m /\
            b = resync_module l (m_base m)) as Hmods.
  { intros b. rewrite Hperm. intros (b0 & -> & (p & m & Hp & Hm & ->)%elem_of_bases)%list_elem_of_fmap.
    by exists p, m. }
  assert (forall q, d_modules (write_back mods d) !! q =
    if decide (q ∈ d_iop d) then (fun m => m_set_base (resync_module l (m_base m)) m) <$> d_modules d !! q
    else d_modules d !! q) as Hlook.
  { intros q. cbn [write_back set_iop set_modules d_modules]. rewrite fold_bases by done.
    destruct (list_find _ mods) as [[i b]|] eqn:E.
    + apply list_find_Some in E as (Hi & Hp & _).
      destruct (Hmods b (list_elem_of_lookup_2 _ _ _ Hi)) as (p & m & Hp' & Hm & Eb).
      assert (p = q) as <-.
      { rewrite <- Hp, Eb, resync_module_ptr. symmetry. by apply (Hwf p m). }
      rewrite decide_True by done. rewrite Hm. cbn. by rewrite Eb.
    + rewrite decide_False; [done|]. rewrite <- Hptrs. apply list_find_None in E.
      intros (b & -> & Hb)%list_elem_of_fmap. rewrite Forall_forall in E. by apply (E b). }
  split; [|split; [done|split; [done|]]].
  - apply check_duplicate_id; [lia| |].
    { apply Permutation_length in Hptrs. rewrite length_map in Hptrs. lia. }
    intros j a b Ha Hb Hab. destruct (Z.eq_dec (mod_iop_order b) INT_MAX) as [|Hne]; [done|]. exfalso.
    destruct (Hmods a (list_elem_of_lookup_2 _ _ _ Ha)) as (p & m & Hp & Hm & Ea).
    destruct (Hmods b (list_elem_of_lookup_2 _ _ _ Hb)) as (q & m' & Hq & Hm' & Eb).
    assert (p = q) as <-.
    { apply Hids; [done..|]. unfold id_at. rewrite Hm, Hm'. cbn. f_equal. symmetry. subst a b.
      apply (resync_orders_distinct (d_iop_order_list d)); eauto. }
    assert (b = a) as Hab' by congruence. rewrite Hab' in Hb.
    assert (j = S j) as ?; [|lia].
    eapply (NoDup_lookup _ _ _ (mod_ptr a) Hnd'); by rewrite list_lookup_fmap, ?Ha, ?Hb.
  - intros b Hb. destruct (Hmods b Hb) as (p & m & Hp & Hm & ->).
    rewrite resync_module_ptr. destruct (Hwf p m Hm) as (_ & -> & _).
    rewrite Hlook, decide_True, Hm by done. eexists. by split.
Qed.

(** ** Going to a place in the history *)

(** The last of the items of a module. *)
Definition last_item (p : nat) (items : list item_t) : option item_t :=
  last (List.filter (fun h => h_module h =? p)%nat items).

(** What the user sees of a module: parameters, blending, on or off. *)
Definition settings (m : module_t) := (m_params m, m_blend_params m, mod_enabled (m_base m)).
Definition item_settings (h : item_t) := (h_params h, h_blend_params h, h_enabled h).
Definition default_settings (m : module_t) :=
  (m_default_params m, m_default_blendop_params m, mod_default_enabled (m_base m)).

(** What the items say of a module. *)
Definition history_settings (items : list item_t) (p : nat) (m : module_t) :=
  match last_item p items with Some h => item_settings h | None => default_settings m end.

(** What no edit and no replay changes. *)
Definition fixed (m : module_t) :=
  (mod_id (m_base m), mod_ptr (m_base m), m_params_size m, default_settings m).

Lemma fixed_inv m m' :
  fixed m = fixed m' ->
  mod_id (m_base m) = mod_id (m_base m') /\ mod_ptr (m_base m) = mod_ptr (m_base m') /\
  m_params_size m = m_params_size m' /\ default_settings m = default_settings m'.
Proof. unfold fixed. intros H. simplify_eq. unfold mod_id, default_settings. split_and!; congruence. Qed.

Lemma last_item_snoc p items h :
  last_item p (items ++ [h]) = if (h_module h =? p)%nat then Some h else last_item p items.
Proof.
  unfold last_item. rewrite List.filter_app. cbn. destruct (h_module h =? p)%nat; [by rewrite last_snoc|].
  by rewrite app_nil_r.
Qed.

Lemma replay_snoc p items h m :
  replay p (items ++ [h]) m = if (h_module h =? p)%nat then item_values h (replay p items m) else replay p items m.
Proof. unfold replay. by rewrite foldl_app. Qed.

Lemma replay_fixed p items m : fixed (replay p items m) = fixed m.
Proof.
  induction items as [|h items IH] using rev_ind; [done|]. rewrite replay_snoc.
  by destruct (h_module h =? p)%nat.
Qed.

Lemma replay_settings p items m :
  settings (replay p items m) =
    match last_item p items with Some h => item_settings h | None => settings m end.
Proof.
  induction items as [|h items IH] using rev_ind; [done|]. rewrite replay_snoc, last_item_snoc.
  by destruct (h_module h =? p)%nat.
Qed.

Lemma replay_default_settings d p items m :
  settings (replay p items (default_values d m)) = history_settings items p m.
Proof. rewrite replay_settings. unfold history_settings. by destruct (last_item p items). Qed.

(** The state of a module at a place in the history. *)
Definition module_at (d : develop_t) (items : list item_t) (p : nat) (m : module_t) : module_t :=
  let m := replay p items (default_values d m) in
  m_set_base (resync_module (_ioppr_reset_iop_order (d_iop_order_list d)) (m_base m)) m.

Lemma resync_module_enabled l m : mod_enabled (resync_module l m) = mod_enabled m.
Proof. unfold resync_module. by destruct (_ =? _). Qed.

Lemma module_at_settings d items p m : settings (module_at d items p m) = history_settings items p m.
Proof.
  rewrite <- (replay_default_settings d). unfold settings. cbn. by rewrite resync_module_enabled.
Qed.

Lemma module_at_fixed d items p m : fixed (module_at d items p m) = fixed m.
Proof.
  transitivity (fixed (replay p items (default_values d m))); [|by rewrite replay_fixed].
  unfold fixed, module_at, default_settings, resync_module. cbn. by destruct (_ =? INT_MAX).
Qed.

(** The masks after going from one end to another. *)
Definition forms_at (d : develop_t) (cnt : Z) : list dt_masks_form_t :=
  if existsb (fun h => match h_forms h with [] => false | _ => true end) (between d cnt (d_history_end d))
  then dt_masks_dup_forms_deep (last_forms (take (Z.to_nat cnt) (d_history d)) []) else d_forms d.

(** The state after the reset and the items, before the modules are ordered. *)
Definition replay_from (d : develop_t) (items : list item_t) (q : nat) (m : module_t) : module_t :=
  replay q items (if decide (q ∈ d_iop d) then default_values d m else m).

Lemma replay_from_id d items q m : mod_id (m_base (replay_from d items q m)) = mod_id (m_base m).
Proof.
  unfold replay_from. destruct (fixed_inv _ _ (replay_fixed q items (if decide (q ∈ d_iop d) then default_values d m else m)))
    as (-> & _). by destruct (decide _).
Qed.

Lemma replay_state d cnt :
  wf_dev d ->
  exists d2,
    (let* d1 := reset_modules (d_iop d) (set_history (d_history d) cnt d) in
     let* (forms, d2) := apply_items (take (Z.to_nat cnt) (d_history d1)) [] d1 in
     let* bs := base_list d2 (d_iop d2) in
     Done (forms, bs, d2)) = Done (last_forms (take (Z.to_nat cnt) (d_history d)) [], bases d2, d2) /\
    ok d2 /\ same_frame (set_history (d_history d) cnt d) d2 /\
    forall q, d_modules d2 !! q = replay_from d (take (Z.to_nat cnt) (d_history d)) q <$> d_modules d !! q.
Proof.
  intros Hwf. pose proof (wf_dev_ok d Hwf) as Hok. set (d0 := set_history (d_history d) cnt d).
  destruct (reset_modules_spec (d_iop d) d0) as (d1 & -> & Hok1 & Hfr1 & Hq1);
    [exact Hok|apply Hwf|apply Hwf|]. cbn [c_bind].
  assert (d_history d1 = d_history d) as -> by by rewrite Hfr1.
  destruct (apply_items_spec (take (Z.to_nat cnt) (d_history d)) [] d1 Hok1) as (d2 & -> & Hok2 & Hfr2 & Hq2).
  { apply Forall_take. eapply Forall_impl; [apply Hwf|]. intros h [_ (m & Hm & Hlen)]. unfold fits.
    rewrite Hq1. cbn [d_modules d0 set_history]. rewrite Hm.
    destruct (decide _); cbn; eexists; (split; [reflexivity|done]). }
  cbn [c_bind]. rewrite base_list_Done by apply Hok2. cbn [c_bind].
  exists d2. split; [done|split; [done|split; [by eapply same_frame_trans|]]].
  intros q. rewrite Hq2, Hq1. unfold replay_from. change (d_modules d0) with (d_modules d).
  by destruct (decide _), (d_modules d !! q).
Qed.

Lemma pop_spec fuel d cnt :
  wf_dev d -> (length (d_iop d) < fuel)%nat ->
  exists d', dt_dev_pop_history_items_ext fuel d cnt = Some (Done d') /\
    d_history d' = d_history d /\ d_history_end d' = cnt /\ d_forms d' = forms_at d cnt /\
    d_iop d' ≡ₚ d_iop d /\ raster_ok (d_modules d') (d_raster d') /\
    d_iop_order_list d' = _ioppr_reset_iop_order (d_iop_order_list d) /\
    (exists mods, d_iop d' = map mod_ptr mods /\ StronglySorted (key_le mod_iop_order) mods /\
       placed (d_iop_order_list d) mods /\
       forall b, b ∈ mods -> exists m, d_modules d' !! mod_ptr b = Some m /\ m_base m = b) /\
    forall q, d_modules d' !! q =
      if decide (q ∈ d_iop d) then module_at d (take (Z.to_nat cnt) (d_history d)) q <$> d_modules d !! q
      else replay q (take (Z.to_nat cnt) (d_history d)) <$> d_modules d !! q.
Proof.
  intros Hwf Hfuel. destruct (replay_state d cnt Hwf) as (d2 & Hrun & (Hwf2 & Hr2 & Hl2) & Hfr & Hq).
  assert (forall p, id_at d2 p = id_at d p) as Hid.
  { intros p. unfold id_at. rewrite Hq. destruct (d_modules d !! p) as [m|]; [|done]. cbn. f_equal.
    apply replay_from_id. }
  assert (d_iop d2 = d_iop d) as Hiop by by rewrite Hfr.
  assert (d_iop_order_list d2 = d_iop_order_list d) as Hord by by rewrite Hfr.
  assert (d_history d2 = d_history d) as Hh by by rewrite Hfr.
  destruct (resync_write_back d2 fuel (history_view (d_history d2))) as (Hdup & Hptrs & Hlook & Hbase).
  { done. }
  { rewrite Hiop. apply Hwf. }
  { intros p q. rewrite Hiop, !Hid. apply Hwf. }
  { intros p m. rewrite Hiop, Hq. intros Hp. destruct (d_modules d !! p) as [m0|] eqn:Em; [|done].
    cbn. intros [= <-]. pose proof (replay_from_id d (take (Z.to_nat cnt) (d_history d)) p m0) as Hi.
    injection Hi as _ ->. by eapply (wf_prios d). }
  { rewrite Hiop. lia. }
  { lia. }
  unfold dt_dev_pop_history_items_ext. rewrite Hrun.
  set (dv := dt_ioppr_resync_modules_order _) in *. cbn [mbind option_bind].
  change (dev_history dv) with (history_view (d_history d2)). rewrite Hdup. cbn [mbind option_bind].
  set (d3 := set_order_list _ _). set (changed := existsb _ _). eexists. split; [reflexivity|].
  set (d4 := if changed then _ else _).
  assert (d4 = set_forms (d_forms d4) (d_allforms d4) d3) as Hd4.
  { unfold d4. by destruct changed, d3. }
  assert (d_modules d4 = d_modules d3 /\ d_history d4 = d_history d /\ d_history_end d4 = cnt /\
          d_iop d4 = map mod_ptr (dev_iop dv) /\ d_raster d4 = d_raster d2 /\
          d_iop_order_list d4 = _ioppr_reset_iop_order (d_iop_order_list d)) as (Em & Eh & Ee & Ei & Er & El).
  { rewrite Hd4. cbn. by rewrite Hh, Hord, Hfr. }
  assert (forall q, d_modules d3 !! q =
    if decide (q ∈ d_iop d) then module_at d (take (Z.to_nat cnt) (d_history d)) q <$> d_modules d !! q
    else replay q (take (Z.to_nat cnt) (d_history d)) <$> d_modules d !! q) as Hmods.
  { intros q. change (d_modules d3) with (d_modules (write_back (dev_iop dv) d2)). rewrite Hlook, Hiop, Hq.
    unfold replay_from, module_at. rewrite Hord. by destruct (decide _), (d_modules d !! q). }
  split_and!; [done|done| |by rewrite Ei, Hptrs, Hiop| |done| |by rewrite Em].
  - unfold d4, forms_at, changed.
    replace (between d3 cnt (d_history_end d)) with (between d cnt (d_history_end d))
      by (unfold between; change (d_history d3) with (d_history d2); by rewrite Hh).
    clear d4 Hd4 Em Eh Ee Ei Er El. clear changed.
    destruct (existsb _ _); [done|]. change (d_forms d3) with (d_forms d2). by rewrite Hfr.
  - rewrite Er, Em. destruct Hr2 as [H1 H2]. split; [|done]. intros p. rewrite Hmods. intros Hp. apply H1.
    rewrite Hq. by destruct (decide _), (d_modules d !! p).
  - exists (dev_iop dv). split; [done|split; [apply resync_iop_Sorted|]]. split; [|by rewrite Em]. rewrite <- Hord. apply resync_placed.
Qed.

Lemma last_item_Some p items h : last_item p items = Some h -> h ∈ items /\ h_module h = p.
Proof.
  unfold last_item. intros H%last_Some_elem_of%list_elem_of_In%filter_In.
  destruct H as [H1 H2%Nat.eqb_eq]. split; [by apply list_elem_of_In|done].
Qed.

Lemma replay_none p items m : (forall h, h ∈ items -> h_module h <> p) -> replay p items m = m.
Proof.
  induction items as [|h items IH] using rev_ind; [done|]. intros H. rewrite replay_snoc.
  destruct (Nat.eqb_spec (h_module h) p) as [E|_].
  - exfalso. apply (H h); [|done]. apply elem_of_app. right. by apply list_elem_of_singleton.
  - apply IH. intros x Hx. apply H, elem_of_app. by left.
Qed.

Lemma wf_module_at d items p m :
  wf_module p m -> (forall h, h ∈ items -> h_module h = p -> length (h_params h) = m_params_size m) ->
  wf_module p (module_at d items p m).
Proof.
  intros (Hp & Hptr & Hl1 & Hl2) Hitems.
  pose proof (module_at_settings d items p m) as Hs.
  destruct (fixed_inv _ _ (module_at_fixed d items p m)) as (_ & Eptr & Esize & Edef).
  split; [done|]. split; [by rewrite Eptr|]. rewrite Esize.
  assert (m_params (module_at d items p m) = fst (fst (history_settings items p m))) as -> by by rewrite <- Hs.
  assert (m_default_params (module_at d items p m) = m_default_params m) as -> by by apply (f_equal (fst ∘ fst)) in Edef.
  split; [|done]. unfold history_settings. destruct (last_item p items) as [h|] eqn:El; [|done].
  apply last_item_Some in El as [Hh Hm]. by apply Hitems.
Qed.

Lemma pop_wf fuel d cnt :
  wf_dev d -> (length (d_iop d) < fuel)%nat -> 0 <= cnt <= Z.of_nat (length (d_history d)) ->
  exists d', dt_dev_pop_history_items_ext fuel d cnt = Some (Done d') /\ wf_dev d'.
Proof.
  intros Hwf Hfuel Hcnt.
  destruct (pop_spec fuel d cnt Hwf Hfuel) as (d' & Hpop & Hh & He & _ & Hiop & Hr & _ & _ & Hq).
  exists d'. split; [done|]. set (items := take (Z.to_nat cnt) (d_history d)) in *.
  assert (forall h, h ∈ items -> wf_item d h) as Hitems.
  { intros h Hh'. pose proof (wf_items d Hwf) as Hf. rewrite Forall_forall in Hf. apply Hf.
    unfold items in Hh'. apply elem_of_take in Hh' as (i & Hi & _). by eapply list_elem_of_lookup_2. }
  assert (forall q, d_modules d' !! q =
    (fun m => if decide (q ∈ d_iop d) then module_at d items q m else m) <$> d_modules d !! q) as Hq'.
  { intros q. rewrite Hq. destruct (decide (q ∈ d_iop d)) as [|Hn]; [done|].
    destruct (d_modules d !! q) as [m|]; [|done]. cbn. f_equal. apply replay_none.
    intros h Hh' <-. by apply Hn, Hitems. }
  assert (forall q, id_at d' q = id_at d q) as Hid.
  { intros q. unfold id_at. rewrite Hq'. destruct (d_modules d !! q) as [m|]; [|done]. cbn. f_equal.
    destruct (decide _); [|done]. apply (fixed_inv _ _ (module_at_fixed d items q m)). }
  split.
  - intros q m. rewrite Hq'. destruct (d_modules d !! q) as [m0|] eqn:Em; [|done]. cbn. intros [= <-].
    pose proof (wf_modules d Hwf q m0 Em) as Hm. destruct (decide _); [|done]. apply wf_module_at; [done|].
    intros h Hh' <-. destruct (Hitems h Hh') as (_ & m1 & Hm1 & Hl). congruence.
  - done.
  - rewrite Hiop. apply Hwf.
  - apply Forall_forall. intros p. rewrite Hiop, Hq'. intros Hp. apply fmap_is_Some.
    pose proof (wf_iop d Hwf) as Hf. rewrite Forall_forall in Hf. by apply Hf.
  - intros p q. rewrite Hiop, !Hid. apply Hwf.
  - intros p m. rewrite Hiop. intros Hp Hm.
    assert (id_at d' p = Some (mod_id (m_base m))) as Hi by (unfold id_at; by rewrite Hm).
    rewrite Hid in Hi. unfold id_at in Hi. destruct (d_modules d !! p) as [m0|] eqn:Em; [|done].
    cbn in Hi. injection Hi as _ <-. by eapply (wf_prios d Hwf).
  - rewrite Hh. eapply Forall_impl; [apply Hwf|]. intros h (Hp & m & Hm & Hl). split; [by rewrite Hiop|].
    rewrite Hq', Hm. cbn. eexists. split; [reflexivity|]. destruct (decide _); [|done].
    by destruct (fixed_inv _ _ (module_at_fixed d items (h_module h) m)) as (_ & _ & -> & _).
  - rewrite Hh, He. done.
Qed.

(** ** Adding an item *)

Definition always_on (ms : gmap nat module_t) (h : item_t) : bool :=
  match ms !! h_module h with
  | Some m => m_hide_enable_button m || mod_default_enabled (m_base m)
  | None => false
  end.

Lemma keep_always_on_spec d above :
  Forall (wf_item d) above ->
  keep_always_on d above = Done (List.filter (always_on (d_modules d)) above).
Proof.
  induction 1 as [|h above (_ & m & Hm & _) _ IH]; [done|]. cbn [keep_always_on List.filter].
  unfold deref, always_on at 1. rewrite Hm. cbn [c_bind]. rewrite IH. cbn [c_bind].
  by destruct (m_hide_enable_button m), (mod_default_enabled (m_base m)).
Qed.

Lemma trim_end_id len n : (n <= len)%nat -> trim_end len n = n.
Proof. destruct n as [|n]; [done|]. intros H. cbn [trim_end]. destruct (Nat.ltb_spec n len); [done|lia]. Qed.

(** The history up to its end, and the items of always-on modules above. *)
Definition kept_history (d : develop_t) : list item_t :=
  take (Z.to_nat (d_history_end d)) (d_history d) ++
  List.filter (always_on (d_modules d)) (drop (Z.to_nat (d_history_end d)) (d_history d)).

Lemma drop_obsolete_spec d :
  wf_dev d ->
  drop_obsolete d = Done (set_history (kept_history d) (Z.of_nat (length (kept_history d))) d).
Proof.
  intros Hwf. pose proof (wf_end d Hwf) as He. unfold drop_obsolete.
  destruct (Z.ltb_spec (d_history_end d) 0); [lia|].
  rewrite keep_always_on_spec by apply Forall_drop, Hwf. cbn [c_bind]. fold (kept_history d). do 2 f_equal.
  unfold kept_history. rewrite !length_app, length_take.
  rewrite trim_end_id by lia. destruct (Z.ltb_spec 0 (d_history_end d)); lia.
Qed.

Lemma kept_history_wf d : wf_dev d -> Forall (wf_item d) (kept_history d).
Proof.
  intros Hwf. apply Forall_app. split; [apply Forall_take, Hwf|].
  apply Forall_forall. intros h Hh%list_elem_of_In. apply filter_In in Hh as [Hh%list_elem_of_In _].
  pose proof (wf_items d Hwf) as Hf. rewrite Forall_forall in Hf. apply Hf. 
  rewrite <- (take_drop (Z.to_nat (d_history_end d)) (d_history d)). apply elem_of_app. by right.
Qed.

Definition blends (m : module_t) : bool :=
  negb (Z.land (mod_flags (m_base m)) IOP_FLAGS_SUPPORTS_BLENDING =? 0).

(** What adding an item for [module] does. *)
Record added (d : develop_t) (module : nat) (d' : develop_t) (items : list item_t) (h : item_t)
    (m m' : module_t) : Prop := Added {
  added_module : d_modules d !! module = Some m;
  added_enabled : m' = m \/ m' = m_set_enabled true m;
  added_modules : d_modules d' = <[module := m']> (d_modules d);
  added_history : d_history d' = items ++ [h];
  added_end : d_history_end d' = Z.of_nat (length (items ++ [h]));
  added_item : h_module h = module /\ h_params h = m_params m /\ h_enabled h = mod_enabled (m_base m');
  added_prio : h_multi_priority h = mod_multi_priority (m_base m);
  added_forms : h_forms h = [] \/ h_forms h = dt_masks_dup_forms_deep (d_forms d) \/
                exists h0, h0 ∈ kept_history d /\ h_forms h = h_forms h0;
  added_top : (items = kept_history d /\ h_blend_params h = m_blend_params m) \/
              exists h0, kept_history d = items ++ [h0] /\ h_module h0 = module /\
                         h_blend_params h = if blends m then m_blend_params m else h_blend_params h0;
  added_rest : d_iop d' = d_iop d /\ d_raster d' = d_raster d /\
               d_iop_order_list d' = d_iop_order_list d /\ d_forms d' = d_forms d;
}.

Lemma set_enabled_id m : mod_enabled (m_base m) = true -> m_set_enabled true m = m.
Proof. destruct m as [b]. cbn. destruct b. cbn. by intros ->. Qed.

Lemma add_new_spec d module m (enable no_image masks : bool) :
  wf_dev d -> d_modules d !! module = Some m ->
  exists d' h m', (let m := if enable then m_set_enabled true m else m in
     let* hist := new_item (set_history (kept_history d) (Z.of_nat (length (kept_history d))) d) module m masks in
     let d := set_history (kept_history d ++ [hist]) (Z.of_nat (length (kept_history d)) + 1)
                (store module m (set_history (kept_history d) (Z.of_nat (length (kept_history d))) d)) in
     Done (if no_image : bool then d else pipes_changed DT_DEV_PIPE_SYNCH d)) = Done d' /\
  added d module d' (kept_history d) h m m'.
Proof.
  intros Hwf Hm. destruct (wf_modules d Hwf _ _ Hm) as (_ & _ & Hl & _).
  set (m' := if enable then m_set_enabled true m else m).
  assert (m_params_size m' = m_params_size m /\ m_params m' = m_params m /\ m_blend_params m' = m_blend_params m)
    as (E1 & E2 & E3) by (unfold m'; by destruct enable).
  cbv zeta. unfold new_item. rewrite E1, E2, memcpy_all by (done || by rewrite length_replicate).
  cbn [c_bind]. eexists _, _, m'. split; [reflexivity|].
  destruct no_image; split; cbn; rewrite ?length_app; cbn; try lia; try done; try (by left).
  all: unfold m'; destruct enable, masks; by auto.
Qed.

Lemma add_change_spec d module m (no_image masks : bool) items h0 :
  wf_dev d -> d_modules d !! module = Some m -> kept_history d = items ++ [h0] -> h_module h0 = module ->
  exists d' h m',
    (let m := if negb (h_enabled h0) && negb (mod_enabled (m_base m)) then m_set_enabled true m else m in
     let* hist := changed_item (set_history (kept_history d) (Z.of_nat (length (kept_history d))) d) m masks h0 in
     let d := set_history (<[Z.to_nat (Z.of_nat (length (kept_history d)) - 1) := hist]> (kept_history d))
                (Z.of_nat (length (kept_history d)))
                (store module m (set_history (kept_history d) (Z.of_nat (length (kept_history d))) d)) in
     Done (if no_image : bool then d else pipes_changed DT_DEV_PIPE_TOP_CHANGED d)) = Done d' /\
  added d module d' items h m m'.
Proof.
  intros Hwf Hm Hk Hh. destruct (wf_modules d Hwf _ _ Hm) as (_ & _ & Hl & _).
  assert (length (h_params h0) = m_params_size m) as Hl0.
  { pose proof (kept_history_wf d Hwf) as Hf. rewrite Hk in Hf. apply Forall_app in Hf as [_ Hf].
    apply Forall_singleton in Hf as (_ & m1 & Hm1 & Hl1). congruence. }
  set (m' := if negb (h_enabled h0) && _ then m_set_enabled true m else m).
  assert (m_params_size m' = m_params_size m /\ m_params m' = m_params m /\
          m_blend_params m' = m_blend_params m /\ mod_flags (m_base m') = mod_flags (m_base m))
    as (E1 & E2 & E3 & E4) by (unfold m'; by destruct (_ && _)).
  cbv zeta. unfold changed_item. rewrite E1, E2, memcpy_all by done.
  cbn [c_bind]. eexists _, _, m'. split; [reflexivity|].
  assert (forall x, <[Z.to_nat (Z.of_nat (length (kept_history d)) - 1) := x]> (kept_history d) = items ++ [x]) as Hins.
  { intros x. rewrite Hk, length_app. cbn [length]. rewrite insert_app_r_alt by lia.
    by replace (Z.to_nat (Z.of_nat (length items + 1) - 1) - length items)%nat with 0%nat by lia. }
  rewrite Hins.
  destruct no_image; split; cbn; rewrite ?Hk, ?length_app, ?E3, ?E4; try done.
  all: try (right; exists h0; by split_and!).
  all: try (destruct masks; [by auto|]; do 2 right; exists h0; split; [|done]; apply elem_of_app; right;
            by apply list_elem_of_singleton).
  all: unfold m'; destruct (_ && _); by auto.
Qed.

Lemma g_list_nth_last {A} (l : list A) : g_list_nth l (Z.of_nat (length l) - 1) = last l.
Proof.
  unfold g_list_nth. destruct l as [|x l] using rev_ind; [done|]. rewrite length_app, last_snoc. cbn [length].
  destruct (Z.ltb_spec (Z.of_nat (length l + 1) - 1) 0); [lia|].
  apply list_lookup_middle. lia.
Qed.

Lemma add_spec d module m enable no_image masks :
  wf_dev d -> d_modules d !! module = Some m ->
  exists d' items h m', _dev_add_history_item_ext d module enable no_image masks = Done d' /\
    added d module d' items h m m'.
Proof.
  intros Hwf Hm. unfold _dev_add_history_item_ext. rewrite drop_obsolete_spec by done. cbn [c_bind].
  cbn [d_history d_history_end set_history]. rewrite g_list_nth_last.
  unfold deref at 1. cbn [d_modules set_history]. rewrite Hm. cbn [c_bind].
  destruct (last (kept_history d)) as [h0|] eqn:Elast.
  - apply last_Some in Elast as [items Hk]. cbn [needs_new_item].
    destruct (Nat.eqb_spec module (h_module h0)) as [Heq|Hne]; cbn [negb c_bind].
    + unfold deref at 1. cbn [d_modules set_history]. rewrite <- Heq, Hm. cbn [c_bind].
      match goal with |- context [if ?b then None else _] => destruct b end.
      * destruct (add_new_spec d module m enable no_image masks Hwf Hm) as (d' & h & m' & H1 & H2).
      exists d', (kept_history d), h, m'. split; [exact H1|done].
      * destruct (add_change_spec d module m no_image masks items h0 Hwf Hm Hk ltac:(done))
          as (d' & h & m' & H1 & H2). exists d', items, h, m'. split; [exact H1|done].
    + destruct (add_new_spec d module m enable no_image masks Hwf Hm) as (d' & h & m' & H1 & H2).
      exists d', (kept_history d), h, m'. split; [exact H1|done].
  - cbn [needs_new_item c_bind].
    destruct (add_new_spec d module m enable no_image masks Hwf Hm) as (d' & h & m' & H1 & H2).
      exists d', (kept_history d), h, m'. split; [exact H1|done].
Qed.

Lemma kept_without_always_on d :
  Forall (fun h => always_on (d_modules d) h = false) (drop (Z.to_nat (d_history_end d)) (d_history d)) ->
  kept_history d = take (Z.to_nat (d_history_end d)) (d_history d).
Proof.
  intros H. unfold kept_history. enough (List.filter (always_on (d_modules d))
    (drop (Z.to_nat (d_history_end d)) (d_history d)) = []) as -> by apply app_nil_r.
  induction H as [|h l Hh _ IH]; [done|]. cbn. by rewrite Hh.
Qed.

Lemma added_params m m' : m' = m \/ m' = m_set_enabled true m ->
  fixed m' = fixed m /\ m_params m' = m_params m /\ m_blend_params m' = m_blend_params m.
Proof. by intros [->| ->]. Qed.

Lemma added_wf d module d' items h m m' :
  wf_dev d -> module ∈ d_iop d -> added d module d' items h m m' -> wf_dev d'.
Proof.
  intros Hwf Hin []. destruct (wf_modules d Hwf _ _ added_module0) as (Hp & Hptr & Hl1 & Hl2).
  destruct (added_params m m' added_enabled0) as (Hfix & Hpar & Hbl).
  destruct (fixed_inv _ _ Hfix) as (Hid & Hptr' & Hsize & Hdef).
  destruct added_rest0 as (Hiop & Hr & Hord & Hforms). destruct added_item0 as (Hh1 & Hh2 & Hh3).
  assert (forall q, id_at d' q = id_at d q) as Hids.
  { intros q. unfold id_at. rewrite added_modules0. destruct (decide (module = q)) as [<-|].
    - rewrite lookup_insert_eq, added_module0. cbn. by rewrite Hid.
    - by rewrite lookup_insert_ne by done. }
  assert (Forall (wf_item d) items) as Hitems.
  { pose proof (kept_history_wf d Hwf) as Hf. destruct added_top0 as [[-> _]|(h0 & Hk & _)]; [done|].
    rewrite Hk in Hf. by apply Forall_app in Hf as [Hf _]. }
  split.
  - rewrite added_modules0. apply map_Forall_insert_2; [|apply Hwf].
    split_and!; [done|congruence| |]; rewrite ?Hpar, Hsize; [done|].
    apply (f_equal (fst ∘ fst)) in Hdef. cbn in Hdef. by rewrite Hdef.
  - rewrite Hr, added_modules0. apply (raster_ok_store _ _ module m); [done|apply Hwf].
  - rewrite Hiop. apply Hwf.
  - rewrite Hiop, added_modules0. eapply Forall_impl; [apply Hwf|]. intros q. by apply (is_Some_store _ module m).
  - intros p q. rewrite Hiop, !Hids. apply Hwf.
  - intros p mp. rewrite Hiop. intros Hpi Hmp.
    assert (id_at d' p = Some (mod_id (m_base mp))) as Hi by (unfold id_at; by rewrite Hmp).
    rewrite Hids in Hi. unfold id_at in Hi. destruct (d_modules d !! p) as [m0|] eqn:Em; [|done].
    cbn in Hi. injection Hi as _ <-. by eapply (wf_prios d Hwf).
  - rewrite added_history0. apply Forall_app. split.
    + eapply Forall_impl; [exact Hitems|]. intros x (Hx & mx & Hmx & Hlx). split; [by rewrite Hiop|].
      rewrite added_modules0. apply (fits_store _ _ m); [done|done|]. by exists mx.
    + apply Forall_singleton. split; [by rewrite Hh1, Hiop|]. exists m'.
      rewrite added_modules0, Hh1, lookup_insert_eq. split; [done|]. by rewrite Hh2, Hsize.
  - rewrite added_end0, added_history0. lia.
Qed.

(** ** The theorems *)

(** The modules show what the history says. *)
Definition in_sync (d : develop_t) (p : nat) : Prop :=
  forall m, d_modules d !! p = Some m ->
    settings m = history_settings (take (Z.to_nat (d_history_end d)) (d_history d)) p m.

Lemma history_settings_fixed items p m m' :
  fixed m = fixed m' -> history_settings items p m = history_settings items p m'.
Proof.
  intros (_ & _ & _ & H)%fixed_inv. unfold history_settings. by destruct (last_item p items).
Qed.

Lemma added_in_sync d module d' items h m m' :
  kept_history d = take (Z.to_nat (d_history_end d)) (d_history d) ->
  added d module d' items h m m' ->
  (forall q, q <> module -> in_sync d q) ->
  (blends m = true \/
   m_blend_params m = snd (fst (history_settings (take (Z.to_nat (d_history_end d)) (d_history d)) module m))) ->
  forall q, in_sync d' q.
Proof.
  intros Hkept [] Hsync Hblend q mq. destruct added_item0 as (Hh1 & Hh2 & Hh3).
  destruct (added_params m m' added_enabled0) as (Hfix & Hpar & Hbl).
  rewrite added_end0, added_history0, Nat2Z.id, take_ge by lia.
  unfold history_settings. rewrite last_item_snoc, Hh1, added_modules0.
  destruct (Nat.eqb_spec module q) as [<-|Hne].
  - rewrite lookup_insert_eq. intros [= <-]. unfold settings, item_settings. rewrite Hh2, Hh3, Hpar, Hbl.
    do 2 f_equal. destruct added_top0 as [[_ Hb]|(h0 & Hk & Hm0 & Hb)]; [done|]. rewrite Hb.
    destruct (blends m) eqn:E; [done|]. destruct Hblend as [|Hblend]; [done|]. rewrite Hblend, <- Hkept, Hk.
    unfold history_settings. rewrite last_item_snoc, Hm0, Nat.eqb_refl. done.
  - rewrite lookup_insert_ne by done. intros Hmq. rewrite (Hsync q ltac:(done) mq Hmq).
    unfold history_settings. rewrite <- Hkept.
    destruct added_top0 as [[<- _]|(h0 & Hk & Hm0 & _)]; [done|]. rewrite Hk, last_item_snoc, Hm0.
    by destruct (Nat.eqb_spec module q).
Qed.

(** C6: the history keeps its shape: in a develop state in which every parameter
    buffer has the size of its module, every item belongs to a module of the pipe
    and the end lies within the history, both an edit and going to any place of the
    history are defined and give such a state again, and an edit leaves the end at
    the last item. *)
Theorem history_well_typed d module enable no_image masks fuel cnt
    (Hwf : wf_dev d) (Hmod : module ∈ d_iop d) (Hfuel : (length (d_iop d) < fuel)%nat)
    (Hcnt : 0 <= cnt <= Z.of_nat (length (d_history d))) :
  (exists d', _dev_add_history_item_ext d module enable no_image masks = Done d' /\ wf_dev d' /\
              d_history_end d' = Z.of_nat (length (d_history d'))) /\
  (exists d', dt_dev_pop_history_items_ext fuel d cnt = Some (Done d') /\ wf_dev d').
Proof.
  split; [|by apply pop_wf].
  assert (is_Some (d_modules d !! module)) as [m Hm].
  { pose proof (wf_iop d Hwf) as H. rewrite Forall_forall in H. by apply H. }
  destruct (add_spec d module m enable no_image masks Hwf Hm) as (d' & items & h & m' & -> & Ha).
  exists d'. split; [done|split; [by eapply added_wf|]].
  by rewrite (added_end _ _ _ _ _ _ _ Ha), (added_history _ _ _ _ _ _ _ Ha).
Qed.

(** C8: going to a place of the history replays it: each module of the pipe gets the
    parameters, the blending and the switch of its last item up to that place, or
    its defaults if it has none; the history stays as it is, the modules of the pipe
    are the same and stand in the order of their iop_order, which for every module in use
    is the place of its operation and instance in the iop-order list. The masks are
    replaced only if an item between the old and the new place has masks, and then by those
    of the last item with masks up to the new place. *)
Theorem pop_replays_history fuel d cnt
    (Hwf : wf_dev d) (Hfuel : (length (d_iop d) < fuel)%nat) :
  exists d', dt_dev_pop_history_items_ext fuel d cnt = Some (Done d') /\
    d_history d' = d_history d /\ d_history_end d' = cnt /\ d_iop d' ≡ₚ d_iop d /\
    d_forms d' = forms_at d cnt /\
    (exists mods, d_iop d' = map mod_ptr mods /\ StronglySorted (key_le mod_iop_order) mods /\
       placed (d_iop_order_list d) mods /\
       forall b, b ∈ mods -> exists m, d_modules d' !! mod_ptr b = Some m /\ m_base m = b) /\
    forall p m, p ∈ d_iop d -> d_modules d !! p = Some m ->
      exists m', d_modules d' !! p = Some m' /\
        settings m' = history_settings (take (Z.to_nat cnt) (d_history d)) p m.
Proof.
  destruct (pop_spec fuel d cnt Hwf Hfuel) as (d' & Hpop & Hh & He & Hf & Hi & _ & _ & Hs & Hq).
  exists d'. split_and!; [done..|]. intros p m Hp Hm. rewrite Hq, decide_True, Hm by done.
  eexists. split; [reflexivity|]. apply module_at_settings.
Qed.

(** An edit is recorded: if all modules but the edited one show what the history
    says, and no item above the end belongs to an always-on module, then after the
    edit has been added all modules show what the history says, the history below is
    as before, and going to the end of the history changes no setting. *)
Theorem edit_is_recorded d module m enable no_image masks fuel
    (Hwf : wf_dev d) (Hmod : module ∈ d_iop d) (Hm : d_modules d !! module = Some m)
    (Hfuel : (length (d_iop d) < fuel)%nat)
    (Habove : Forall (fun h => always_on (d_modules d) h = false)
                     (drop (Z.to_nat (d_history_end d)) (d_history d)))
    (Hsync : forall q, q <> module -> in_sync d q)
    (Hblend : blends m = true \/
       m_blend_params m = snd (fst (history_settings (take (Z.to_nat (d_history_end d)) (d_history d)) module m))) :
  exists d' d'' h, _dev_add_history_item_ext d module enable no_image masks = Done d' /\
    (forall q, in_sync d' q) /\ last (d_history d') = Some h /\
    h_module h = module /\ h_params h = m_params m /\
    (let old := take (Z.to_nat (d_history_end d)) (d_history d) in
     d_history d' = old ++ [h] \/ exists h0, old = removelast old ++ [h0] /\ h_module h0 = module /\
                                            d_history d' = removelast old ++ [h]) /\
    dt_dev_pop_history_items_ext fuel d' (d_history_end d') = Some (Done d'') /\
    forall q mq, q ∈ d_iop d -> d_modules d' !! q = Some mq ->
      exists mq', d_modules d'' !! q = Some mq' /\ settings mq' = settings mq.
Proof.
  destruct (add_spec d module m enable no_image masks Hwf Hm) as (d' & items & h & m' & Hadd & Ha).
  pose proof (kept_without_always_on d Habove) as Hkept.
  pose proof (added_in_sync d module d' items h m m' Hkept Ha Hsync Hblend) as Hsync'.
  pose proof (added_wf d module d' items h m m' Hwf Hmod Ha) as Hwf'.
  destruct (pop_spec fuel d' (d_history_end d') Hwf') as (d'' & Hpop & _ & _ & _ & _ & _ & _ & _ & Hq).
  { by rewrite (proj1 (added_rest _ _ _ _ _ _ _ Ha)). }
  exists d', d'', h. split; [done|split; [done|]].
  destruct Ha as [_ _ _ Eh _ (Hh1 & Hh2 & _) _ _ Htop (Hiop & _)]. rewrite Eh, last_snoc.
  split_and!; [done|done|done| |done|].
  - rewrite <- Hkept. destruct Htop as [[-> _]|(h0 & Hk & Hm0 & _)]; [by left|]. right. exists h0.
    rewrite Hk, removelast_last. done.
  - intros q mq Hqi Hmq. rewrite Hq, Hiop, decide_True, Hmq by done. eexists. split; [reflexivity|].
    rewrite module_at_settings. symmetry. by apply Hsync'.
Qed.

(** ** Undo and redo *)

(** A list of masks that survives being copied: all that the program makes by
    copying. *)
Definition copied (h : item_t) : Prop := dt_masks_dup_forms_deep (h_forms h) = h_forms h.

Lemma dup_form_idem f : dt_masks_dup_masks_form (dt_masks_dup_masks_form f) = dt_masks_dup_masks_form f.
Proof.
  unfold dt_masks_dup_masks_form. cbn. f_equal. destruct (_ =? _)%nat; [done|]. rewrite map_map.
  apply map_ext. intros p. rewrite firstn_firstn. f_equal. lia.
Qed.

Lemma dup_forms_idem fs : dt_masks_dup_forms_deep (dt_masks_dup_forms_deep fs) = dt_masks_dup_forms_deep fs.
Proof. unfold dt_masks_dup_forms_deep. rewrite map_map. apply map_ext, dup_form_idem. Qed.

Lemma duplicate_loop_spec d hist acc :
  map_Forall wf_module (d_modules d) -> Forall (wf_item d) hist -> Forall copied hist ->
  duplicate_loop d hist acc = Done (rev hist ++ acc).
Proof.
  intros Hwf Hi Hc. revert acc. induction Hi as [|h hist (_ & m & Hm & Hl) _ IH]; intros acc; [done|].
  apply Forall_cons in Hc as [Hc1 Hc]. cbn [duplicate_loop]. unfold item_params_size.
  destruct (Hwf _ _ Hm) as (Hp & _). destruct (Nat.eqb_spec (h_module h) 0); [done|]. cbn [negb].
  unfold deref. rewrite Hm. cbn [c_bind]. rewrite memcpy_all by (done || by rewrite length_replicate).
  cbn [c_bind]. rewrite IH by done. f_equal. cbn [rev]. rewrite <- app_assoc. cbn. do 2 f_equal.
  unfold copied in Hc1. rewrite Hc1. by destruct h.
Qed.

Lemma duplicate_reverses d hist :
  map_Forall wf_module (d_modules d) -> Forall (wf_item d) hist -> Forall copied hist ->
  dt_history_duplicate d hist = Done (rev hist).
Proof. intros. unfold dt_history_duplicate. rewrite duplicate_loop_spec by done. by rewrite app_nil_r. Qed.

(** The number that an item has for its module is the module's. *)
Definition numbered (d : develop_t) (h : item_t) : Prop :=
  forall m, d_modules d !! h_module h = Some m -> mod_multi_priority (m_base m) = h_multi_priority h.

Lemma rebuild_unchanged d hist changed :
  Forall (wf_item d) hist -> Forall (numbered d) hist ->
  _rebuild_multi_priority hist changed d = Done (changed, d).
Proof.
  intros Hi Hn. induction Hi as [|h hist (_ & m & Hm & _) _ IH]; [done|]. apply Forall_cons in Hn as [Hn1 Hn].
  cbn [_rebuild_multi_priority]. destruct (h_module h =? 0)%nat; [by apply IH|].
  unfold deref. rewrite Hm. cbn [c_bind]. rewrite (Hn1 m Hm), Z.eqb_refl. by apply IH.
Qed.

Lemma create_unchanged load indices head w :
  Forall (fun h => h_module h <> 0%nat) (w_history w) ->
  create_deleted_loop load indices head w = Done w.
Proof.
  intros H. induction indices as [|i indices IH]; [done|]. cbn [create_deleted_loop].
  destruct (w_history w !! i) as [h|] eqn:E; [|done].
  rewrite Forall_forall in H. specialize (H h (list_elem_of_lookup_2 _ _ _ E)).
  destruct (Nat.eqb_spec (h_module h) 0); [done|]. exact IH.
Qed.

Definition alive (d : develop_t) (ptrs : list nat) : Prop := Forall (fun p => is_Some (d_modules d !! p)) ptrs.

Lemma deleted_link_spec d history iop i p :
  alive d iop -> iop !! i = Some p ->
  exists r, deleted_link d history iop i p = Done r /\
    match r with
    | Some j => exists q, iop !! j = Some q /\ _search_history_by_module history q = false
    | None => forall m, d_modules d !! p = Some m -> mod_multi_priority (m_base m) <> 0 ->
                        _search_history_by_module history p = true
    end.
Proof.
  intros Ha Hi. unfold alive in Ha. rewrite Forall_forall in Ha.
  destruct (Ha p (list_elem_of_lookup_2 _ _ _ Hi)) as [m Hm].
  unfold deleted_link, deref at 1. rewrite Hm. cbn [c_bind].
  destruct (Z.eqb_spec (mod_multi_priority (m_base m)) 0) as [E0|E0].
  - assert (forall m', Some m = Some m' -> mod_multi_priority (m_base m') <> 0 ->
              _search_history_by_module history p = true) as Hnone by (intros ? [= <-]; done).
    destruct (iop !! S i) as [q|] eqn:Eq; [|by exists None].
    destruct (Ha q (list_elem_of_lookup_2 _ _ _ Eq)) as [mq Hmq]. unfold deref. rewrite Hmq. cbn [c_bind].
    destruct (is_base_of _ _); [|by exists None]. eexists. split; [reflexivity|].
    destruct (_search_history_by_module history p) eqn:Ep, (_search_history_by_module history q) eqn:Eqh; eauto.
  - eexists. split; [reflexivity|]. destruct (_search_history_by_module history p) eqn:Ep; eauto.
Qed.

Lemma check_deleted_loop_spec fuel d history iop i deleted :
  alive d iop -> (length iop * length iop + (length iop - i) < fuel)%nat ->
  (forall j p, (j < i)%nat -> iop !! j = Some p -> deleted_link d history iop j p = Done None) ->
  exists rest del, check_deleted_loop fuel d history iop i deleted = Some (Done (rest, deleted ++ del)) /\
    iop ≡ₚ rest ++ del /\ Forall (fun q => _search_history_by_module history q = false) del /\
    (forall j p, rest !! j = Some p -> deleted_link d history rest j p = Done None).
Proof.
  revert iop i deleted. induction fuel as [|fuel IH]; intros iop i deleted Ha Hf Hprev; [lia|].
  cbn [check_deleted_loop]. destruct (iop !! i) as [p|] eqn:Ei.
  - destruct (deleted_link_spec d history iop i p Ha Ei) as ([j|] & Hl & Hr); rewrite Hl.
    + destruct Hr as (q & Hj & Hq). rewrite Hj. change (option_list (Some q)) with [q].
      assert (iop ≡ₚ q :: delete j iop) as Hperm by by apply delete_Permutation.
      assert (length iop = S (length (delete j iop))) as Hlen by by rewrite Hperm at 1.
      destruct (IH (delete j iop) 0%nat (deleted ++ [q])) as (rest & del & -> & Hp & Hd & Hn).
      * unfold alive in *. rewrite Hperm in Ha. by apply Forall_cons in Ha as [_ Ha].
      * lia.
      * lia.
      * exists rest, (q :: del). rewrite <- app_assoc. split_and!; [done| |by constructor|done].
        rewrite Hperm, Hp. by rewrite Permutation_middle.
    + apply lookup_lt_Some in Ei as Hlt. apply IH; [done|lia|]. intros j p' Hj Hp'.
      destruct (decide (j = i)) as [->|]; [congruence|]. apply Hprev; [lia|done].
  - exists iop, []. rewrite !app_nil_r. split_and!; [done|done|done|]. intros j p Hj.
    apply Hprev; [|done]. apply lookup_lt_Some in Hj. apply lookup_ge_None in Ei. lia.
Qed.

Lemma base_list_sorted_perm d iop :
  map_Forall wf_module (d_modules d) -> alive d iop ->
  exists iop', sort_iop d iop = Done iop' /\ iop' ≡ₚ iop.
Proof.
  intros Hwf Ha. unfold sort_iop. rewrite base_list_Done by done. eexists. split; [reflexivity|].
  rewrite (Permutation_map mod_ptr (g_list_sort_Permutation _ _)).
  apply reflexive_eq. exact (bases_ptrs (set_iop iop d) Hwf Ha).
Qed.

Lemma check_deleted_spec d iop history :
  map_Forall wf_module (d_modules d) -> alive d iop ->
  exists rest deleted, _check_deleted_instances d iop history = Some (Done (rest, deleted)) /\
    iop ≡ₚ rest ++ deleted /\
    Forall (fun q => _search_history_by_module history q = false) deleted /\
    forall p m, p ∈ rest -> d_modules d !! p = Some m -> mod_multi_priority (m_base m) <> 0 ->
      _search_history_by_module history p = true.
Proof.
  intros Hwf Ha.
  destruct (check_deleted_loop_spec (S (length iop) * S (length iop)) d history iop 0 [])
    as (rest & del & Hloop & Hp & Hd & Hn); [done|lia|lia|].
  unfold _check_deleted_instances. rewrite Hloop. cbn [mbind option_bind c_bind app].
  assert (alive d rest) as Hal.
  { unfold alive in *. rewrite Hp in Ha. by apply Forall_app in Ha as [Ha _]. }
  assert (forall p m, p ∈ rest -> d_modules d !! p = Some m -> mod_multi_priority (m_base m) <> 0 ->
            _search_history_by_module history p = true) as Hused.
  { intros p m [i Hi]%list_elem_of_lookup Hm Hm0.
    destruct (deleted_link_spec d history rest i p Hal Hi) as (r & Hr & Hspec).
    rewrite (Hn i p Hi) in Hr. injection Hr as <-. by apply (Hspec m). }
  destruct del as [|x del]; [by exists rest, []|].
  destruct (base_list_sorted_perm d rest Hwf Hal) as (rest' & -> & Hperm). cbn [c_bind].
  exists rest', (x :: del). split_and!; [done|by rewrite Hperm|done|].
  intros p m Hin. rewrite Hperm in Hin. by apply Hused.
Qed.

(** The clean-up of the pipe after an undo ends although it starts again after
    each deletion; it deletes only modules that the history does not use, keeps all
    others, and every further instance of a module that remains is used by the
    history. *)
Theorem check_deleted_ends d iop history
    (Hwf : map_Forall wf_module (d_modules d)) (Ha : alive d iop) :
  exists rest deleted, _check_deleted_instances d iop history = Some (Done (rest, deleted)) /\
    iop ≡ₚ rest ++ deleted /\
    Forall (fun q => _search_history_by_module history q = false) deleted /\
    forall p m, p ∈ rest -> d_modules d !! p = Some m -> mod_multi_priority (m_base m) <> 0 ->
      _search_history_by_module history p = true.
Proof. by apply check_deleted_spec. Qed.

Lemma pop_undo_spec load d hist action undo snapshot hist_end order :
  (snapshot, hist_end, order) =
    match action with
    | DT_ACTION_UNDO => (before_snapshot hist, before_end hist, before_iop_order_list hist)
    | DT_ACTION_REDO => (after_snapshot hist, after_end hist, after_iop_order_list hist)
    end ->
  wf_dev d -> Forall (wf_item d) snapshot -> Forall copied snapshot -> Forall (numbered d) snapshot ->
  exists d' undo', _pop_undo load d hist action undo = Some (Done (d', undo')) /\
    d_history d' = rev snapshot /\ d_history_end d' = hist_end.
Proof.
  intros Hact Hwf Hi Hc Hn. unfold _pop_undo. rewrite <- Hact.
  rewrite duplicate_reverses by (done || apply Hwf). cbn [c_bind].
  rewrite rebuild_unchanged; [|by apply List.Forall_rev..]. cbn [c_bind].
  unfold _create_deleted_modules. rewrite create_unchanged.
  2: { cbn [w_history]. apply List.Forall_rev. eapply Forall_impl; [exact Hi|].
       intros h (_ & m & Hm & _). by apply (wf_modules d Hwf _ m). }
  cbn [c_bind w_dev w_iop w_history].
  set (d0 := set_order_list (dt_ioppr_iop_order_copy_deep order) d).
  destruct (check_deleted_spec d0 (d_iop d0) (rev snapshot)) as (rest & del & -> & _); [apply Hwf|apply Hwf|].
  cbn [mbind option_bind c_bind]. eexists _, _. split; [reflexivity|]. by destruct (_ || _ || _).
Qed.

Lemma added_keeps d module d' items h m m' x :
  added d module d' items h m m' -> (wf_item d x -> wf_item d' x) /\ (numbered d x -> numbered d' x).
Proof.
  intros Ha. destruct (added_params m m' (added_enabled _ _ _ _ _ _ _ Ha)) as (Hfix & _).
  destruct (fixed_inv _ _ Hfix) as (Hid & _ & Hsize & _).
  pose proof (added_modules _ _ _ _ _ _ _ Ha) as Hms. pose proof (added_module _ _ _ _ _ _ _ Ha) as Hm.
  split.
  - intros (Hx & mx & Hmx & Hl). split; [by rewrite (proj1 (added_rest _ _ _ _ _ _ _ Ha))|].
    rewrite Hms. apply (fits_store _ _ m); [done|done|by exists mx].
  - intros Hx mx. rewrite Hms. destruct (decide (module = h_module x)) as [->|].
    + rewrite lookup_insert_eq. intros [= <-]. apply (f_equal snd) in Hid. cbn in Hid. rewrite Hid. by apply Hx.
    + rewrite lookup_insert_ne by done. apply Hx.
Qed.

Lemma added_copied_numbered d module d' items h m m' :
  Forall copied (d_history d) -> Forall (numbered d) (d_history d) -> added d module d' items h m m' ->
  Forall copied (d_history d') /\ Forall (numbered d') (d_history d').
Proof.
  intros Hc Hn Ha.
  assert (forall P, Forall P (d_history d) -> Forall P (kept_history d)) as Hkept.
  { intros P HP. apply Forall_app. split; [by apply Forall_take|].
    eapply incl_Forall; [|apply (Forall_drop _ (Z.to_nat (d_history_end d))), HP].
    intros x Hx. by apply filter_In in Hx as [Hx _]. }
  assert (forall P, Forall P (d_history d) -> Forall P items) as Hitems.
  { intros P HP%Hkept. destruct (added_top _ _ _ _ _ _ _ Ha) as [[-> _]|(h0 & Hk & _)]; [done|].
    rewrite Hk in HP. by apply Forall_app in HP as [HP _]. }
  rewrite (added_history _ _ _ _ _ _ _ Ha). rewrite !Forall_app, !Forall_singleton. split; split.
  - by apply Hitems.
  - unfold copied. destruct (added_forms _ _ _ _ _ _ _ Ha) as [->|[->|(h0 & Hh0 & ->)]];
      [done|apply dup_forms_idem|].
    specialize (Hkept copied Hc). rewrite Forall_forall in Hkept. by apply Hkept.
  - eapply Forall_impl; [by apply Hitems|]. intros x. by apply (added_keeps _ _ _ _ _ _ _ x Ha).
  - intros mh. rewrite (proj1 (added_item _ _ _ _ _ _ _ Ha)), (added_modules _ _ _ _ _ _ _ Ha), lookup_insert_eq.
    intros [= <-]. rewrite (added_prio _ _ _ _ _ _ _ Ha).
    destruct (added_enabled _ _ _ _ _ _ _ Ha) as [->| ->]; done.
Qed.

(** C37: what undo makes of the history. The copies of a history are reversed; the
    snapshot of the state before an edit is copied three times until it is the
    history again, the one of the state after the edit twice. So redo gives the
    history after the edit, but undo gives the history before it back to front. *)
Theorem undo_reverses_history load d lib module m enable undo
    (Hwf : wf_dev d) (Hmod : module ∈ d_iop d) (Hm : d_modules d !! module = Some m)
    (Hgui : d_gui_attached d = true) (Hrec : record_undo lib = true) (Hlevel : record_history_level lib = 0)
    (Hcopied : Forall copied (d_history d)) (Hnum : Forall (numbered d) (d_history d)) :
  exists d1 lib1 u,
    dt_dev_add_history_item false d lib module enable = Done (d1, lib1, Some u) /\
    (exists d2 us, _pop_undo load d1 u DT_ACTION_UNDO undo = Some (Done (d2, us)) /\
       d_history d2 = rev (d_history d) /\ d_history_end d2 = d_history_end d) /\
    (exists d3 us, _pop_undo load d1 u DT_ACTION_REDO undo = Some (Done (d3, us)) /\
       d_history d3 = d_history d1 /\ d_history_end d3 = d_history_end d1).
Proof.
  unfold dt_dev_add_history_item, with_signals. rewrite Hgui. cbn [orb negb].
  rewrite duplicate_reverses by (done || apply Hwf). cbn [c_bind].
  destruct (add_spec d module m enable false false Hwf Hm) as (d1 & items & h & m' & -> & Ha). cbn [c_bind].
  pose proof (added_wf d module d1 items h m m' Hwf Hmod Ha) as Hwf1.
  assert (Forall (wf_item d1) (d_history d)) as Hi.
  { eapply Forall_impl; [apply Hwf|]. intros x. by apply (added_keeps _ _ _ _ _ _ _ x Ha). }
  assert (Forall (numbered d1) (d_history d)) as Hn.
  { eapply Forall_impl; [exact Hnum|]. intros x. by apply (added_keeps _ _ _ _ _ _ _ x Ha). }
  assert (Forall copied (d_history d1) /\ Forall (numbered d1) (d_history d1)) as [Hc1 Hn1]
    by by eapply added_copied_numbered.
  unfold _lib_history_will_change_callback. rewrite Hrec, Hlevel. cbn [andb Z.eqb].
  unfold _lib_history_change_callback. cbn [record_undo record_history_level previous_snapshot].
  change (0 + 1 - 1 =? 0) with true. cbn [andb].
  rewrite duplicate_reverses; [|apply Hwf1|by apply List.Forall_rev..]. cbn [c_bind].
  rewrite duplicate_reverses; [|apply Hwf1|apply Hwf1|done]. cbn [c_bind].
  set (u := Undo_history _ _ _ _ _ _). eexists d1, _, u. split; [reflexivity|]. split.
  - unfold u. rewrite rev_involutive. eapply pop_undo_spec; [reflexivity|done..].
  - destruct (pop_undo_spec load d1 u DT_ACTION_REDO undo _ _ _ eq_refl) as (d3 & us & H1 & H2 & H3);
      [done|apply List.Forall_rev; apply Hwf1|by apply List.Forall_rev|by apply List.Forall_rev|].
    cbn [u after_snapshot] in H2. rewrite rev_involutive in H2. by exists d3, us.
Qed.

(** An undone edit of an always-on module comes back: if the item above the end
    belongs to such a module, the next edit of any other module puts it below the
    end again, while the module itself keeps the settings it had before that item.
    From then on the history says something else than the module shows. *)
Theorem undone_edit_returns d module m old h mp enable no_image masks
    (Hwf : wf_dev d) (Hm : d_modules d !! module = Some m)
    (Hhist : d_history d = old ++ [h]) (Hend : d_history_end d = Z.of_nat (length old))
    (Hon : always_on (d_modules d) h = true) (Hother : h_module h <> module)
    (Hp : d_modules d !! h_module h = Some mp) :
  exists d', _dev_add_history_item_ext d module enable no_image masks = Done d' /\
    d_modules d' !! h_module h = Some mp /\
    history_settings (take (Z.to_nat (d_history_end d')) (d_history d')) (h_module h) mp = item_settings h.
Proof.
  destruct (add_spec d module m enable no_image masks Hwf Hm) as (d' & items & h' & m' & -> & Ha).
  exists d'. split; [done|].
  assert (kept_history d = old ++ [h]) as Hkept.
  { unfold kept_history. rewrite Hend, Hhist, Nat2Z.id, take_app_length, drop_app_length. cbn. by rewrite Hon. }
  destruct Ha as [_ _ Hms Hh He (Hmod & _) _ _ Htop _]. split.
  - by rewrite Hms, lookup_insert_ne by done.
  - rewrite He, Hh, Nat2Z.id, take_ge by lia. unfold history_settings. rewrite last_item_snoc, Hmod.
    destruct (Nat.eqb_spec module (h_module h)); [done|].
    destruct Htop as [[-> _]|(h0 & Hk & Hm0 & _)].
    + by rewrite Hkept, last_item_snoc, Nat.eqb_refl.
    + rewrite Hkept in Hk. apply app_inj_2 in Hk as [_ [= ->]]; done.
Qed.

Lemma filter_length_split {A} (f : A -> bool) (l : list A) :
  (length (List.filter f l) + length (List.filter (fun x => negb (f x)) l) = length l)%nat.
Proof. induction l as [|x l IH]; [done|]. cbn. destruct (f x); cbn; lia. Qed.

(** Removing a module from the pipe removes all its items and nothing else, and
    moves the end down by their number, by those above the end too: the end is right
    if the module has no items above it, and below the last item that was in use,
    possibly negative, otherwise. *)
Theorem module_remove_end d module
    (Hgui : d_gui_attached d = true) (Hend : 0 <= d_history_end d <= Z.of_nat (length (d_history d))) :
  let of_module h := (h_module h =? module)%nat in
  let n := Z.to_nat (d_history_end d) in
  let d' := dt_dev_module_remove d module in
  d_history d' = List.filter (fun h => negb (of_module h)) (d_history d) /\
  d_history_end d' = Z.of_nat (length (List.filter (fun h => negb (of_module h)) (take n (d_history d))))
                     - Z.of_nat (length (List.filter of_module (drop n (d_history d)))).
Proof.
  intros of_module n d'. unfold d', dt_dev_module_remove. rewrite Hgui. cbn [d_history d_history_end set_iop set_history].
  assert (List.filter (fun h => negb (module =? h_module h)%nat) (d_history d) =
          List.filter (fun h => negb (of_module h)) (d_history d)) as ->.
  { apply List.filter_ext. intros h. unfold of_module. by rewrite Nat.eqb_sym. }
  split; [done|].
  pose proof (filter_length_split of_module (d_history d)) as H1.
  pose proof (filter_length_split of_module (take n (d_history d))) as H2.
  rewrite length_take in H2.
  assert (length (List.filter of_module (d_history d)) =
    length (List.filter of_module (take n (d_history d))) + length (List.filter of_module (drop n (d_history d))))%nat as H3.
  { rewrite <- length_app, <- List.filter_app, take_drop. done. }
  lia.
Qed.

(** ** A concrete pipe *)

Definition example_blend : dt_develop_blend_params_t := Blend 0 "" 0 0 [].

(** Two modules with one byte of parameters: an always-on one and one that is off. *)
Definition example_module (ptr : nat) (op : string) (order : Z) (on : bool) : module_t :=
  Mod (Module_t ptr op 0 order on on 2) 0 op "" 1 ["000"%char] ["000"%char] example_blend example_blend false.

Definition example_item (ptr : nat) (op : string) (v : ascii) (order : Z) : item_t :=
  Item op ptr true [v] example_blend order 0 "" [] 0.

Definition example_raster : raster_mask_t := Raster None ∅ 0 0.

Definition example_develop (history : list item_t) (history_end : Z) (exposure sharpen : module_t) : develop_t :=
  Dev {[ 1%nat := exposure; 2%nat := sharpen ]} {[ 1%nat := example_raster; 2%nat := example_raster ]}
      [1%nat; 2%nat] [Entry (Order_i 1) "exposure" 0; Entry (Order_i 2) "sharpen" 0]
      history history_end [] [] 1 true [0; 0; 0] [false; false; false].

Definition exposure_0 := example_module 1 "exposure" 1 true.
Definition sharpen_0 := example_module 2 "sharpen" 2 false.

Lemma example_wf history history_end exposure sharpen :
  wf_module 1 exposure -> wf_module 2 sharpen -> mod_id (m_base exposure) = ("exposure", 0) ->
  mod_id (m_base sharpen) = ("sharpen", 0) -> m_params_size exposure = 1%nat -> m_params_size sharpen = 1%nat ->
  Forall (fun h => (h_module h = 1%nat \/ h_module h = 2%nat) /\ length (h_params h) = 1%nat) history ->
  0 <= history_end <= Z.of_nat (length history) ->
  wf_dev (example_develop history history_end exposure sharpen).
Proof.
  intros H1 H2 Hi1 Hi2 Hs1 Hs2 Hh He.
  assert (forall q, q ∈ [1%nat; 2%nat] -> q = 1%nat \/ q = 2%nat) as Hin by set_solver.
  split; cbn [example_develop d_modules d_raster d_iop d_history d_history_end].
  - apply map_Forall_insert_2; [done|]. by apply map_Forall_singleton.
  - split.
    + intros p [m Hm]. destruct (decide (1%nat = p)) as [<-|]; [by eexists|].
      rewrite lookup_insert_ne in Hm by done. rewrite lookup_insert_ne by done. apply lookup_singleton_Some in Hm as [<- _].
      by rewrite lookup_singleton_eq.
    + intros p r Hr Hs. exfalso. apply Hs. destruct (decide (1%nat = p)) as [<-|].
      * rewrite lookup_insert_eq in Hr. by injection Hr as <-.
      * rewrite lookup_insert_ne in Hr by done. apply lookup_singleton_Some in Hr as [_ <-]. done.
  - apply (bool_decide_unpack _). vm_compute. exact I.
  - repeat constructor; eexists; reflexivity.
  - assert (id_at (example_develop history history_end exposure sharpen) 1 = Some ("exposure", 0)) as I1
      by (rewrite <- Hi1; reflexivity).
    assert (id_at (example_develop history history_end exposure sharpen) 2 = Some ("sharpen", 0)) as I2
      by (rewrite <- Hi2; reflexivity).
    intros p q [-> | ->]%Hin [-> | ->]%Hin; try done; rewrite I1, I2; congruence.
  - assert (forall m, mod_id (m_base m) = ("exposure", 0) \/ mod_id (m_base m) = ("sharpen", 0) ->
              mod_multi_priority (m_base m) <> -1) as Hpr.
    { intros m [H|H]; apply (f_equal snd) in H; cbn in H; lia. }
    intros p m [-> | ->]%Hin Hm; apply Hpr.
    + left. by injection Hm as <-.
    + right. by injection Hm as <-.
  - eapply Forall_impl; [exact Hh|]. intros h [[E|E] Hl]; (split; [rewrite E; set_solver|]); rewrite E;
      eexists; (split; [reflexivity|]); by rewrite Hl.
  - done.
Qed.

(** Exposure was set to 1 and then to 2, and the second edit was undone; the user
    has now moved sharpen to 7. *)
Definition example_history : list item_t :=
  [example_item 1 "exposure" "001" 1; example_item 1 "exposure" "002" 1].
Definition exposure_1 := m_set_params ["001"%char] exposure_0.
Definition sharpen_7 := m_set_params ["007"%char] sharpen_0.
Definition undone_dev := example_develop example_history 1 exposure_1 sharpen_7.

(** The same with only the first edit in the history. *)
Definition edited_dev := example_develop [example_item 1 "exposure" "001" 1] 1 exposure_1 sharpen_7.

Ltac example_wf_tac :=
  apply example_wf;
  [by split_and!|by split_and!|reflexivity|reflexivity|reflexivity|reflexivity
  |repeat constructor; auto|cbn; lia].

Lemma history_well_typed_witness :
  (exists d', _dev_add_history_item_ext undone_dev 2 true false false = Done d' /\ wf_dev d' /\
              d_history_end d' = Z.of_nat (length (d_history d'))) /\
  (exists d', dt_dev_pop_history_items_ext 3 undone_dev 2 = Some (Done d') /\ wf_dev d').
Proof.
  apply history_well_typed; [example_wf_tac|set_solver|cbn; lia|cbn; lia].
Defined.

Lemma pop_replays_history_witness :
  exists d', dt_dev_pop_history_items_ext 3 undone_dev 2 = Some (Done d') /\
    d_history d' = d_history undone_dev /\ d_history_end d' = 2 /\ d_iop d' ≡ₚ d_iop undone_dev /\
    d_forms d' = forms_at undone_dev 2 /\
    (exists mods, d_iop d' = map mod_ptr mods /\ StronglySorted (key_le mod_iop_order) mods /\
       placed (d_iop_order_list undone_dev) mods /\
       forall b, b ∈ mods -> exists m, d_modules d' !! mod_ptr b = Some m /\ m_base m = b) /\
    forall p m, p ∈ d_iop undone_dev -> d_modules undone_dev !! p = Some m ->
      exists m', d_modules d' !! p = Some m' /\
        settings m' = history_settings (take (Z.to_nat 2) (d_history undone_dev)) p m.
Proof. apply pop_replays_history; [example_wf_tac|cbn; lia]. Defined.

Lemma edit_is_recorded_witness :
  exists d' d'' h, _dev_add_history_item_ext edited_dev 2 true false false = Done d' /\
    (forall q, in_sync d' q) /\ last (d_history d') = Some h /\
    h_module h = 2%nat /\ h_params h = m_params sharpen_7 /\
    (let old := take (Z.to_nat (d_history_end edited_dev)) (d_history edited_dev) in
     d_history d' = old ++ [h] \/ exists h0, old = removelast old ++ [h0] /\ h_module h0 = 2%nat /\
                                            d_history d' = removelast old ++ [h]) /\
    dt_dev_pop_history_items_ext 3 d' (d_history_end d') = Some (Done d'') /\
    forall q mq, q ∈ d_iop edited_dev -> d_modules d' !! q = Some mq ->
      exists mq', d_modules d'' !! q = Some mq' /\ settings mq' = settings mq.
Proof.
  apply (edit_is_recorded edited_dev 2 sharpen_7);
    [example_wf_tac|set_solver|reflexivity|cbn; lia|constructor| |by left].
  intros q Hq m Hm. destruct (decide (q = 1%nat)) as [->|Hq1]; [by injection Hm as <-|].
  cbn [edited_dev example_develop d_modules] in Hm. rewrite lookup_insert_ne, lookup_singleton_ne in Hm by done. done.
Defined.

Lemma undone_edit_returns_witness :
  settings exposure_1 <> item_settings (example_item 1 "exposure" "002" 1) /\
  exists d', _dev_add_history_item_ext undone_dev 2 true false false = Done d' /\
    d_modules d' !! 1%nat = Some exposure_1 /\
    history_settings (take (Z.to_nat (d_history_end d')) (d_history d')) 1 exposure_1 =
      item_settings (example_item 1 "exposure" "002" 1).
Proof.
  split; [done|].
  apply (undone_edit_returns undone_dev 2 sharpen_7 [example_item 1 "exposure" "001" 1]
           (example_item 1 "exposure" "002" 1) exposure_1); try reflexivity; [example_wf_tac|done].
Defined.

Definition example_lib : dt_lib_history_t := Lib_history true 0 [] 0 [].

Lemma undo_reverses_history_witness :
  rev (d_history (example_develop example_history 2 exposure_1 sharpen_7)) <> example_history /\
  exists d1 lib1 u,
    dt_dev_add_history_item false (example_develop example_history 2 exposure_1 sharpen_7) example_lib 2 true =
      Done (d1, lib1, Some u) /\
    (exists d2 us, _pop_undo (fun _ => None) d1 u DT_ACTION_UNDO [] = Some (Done (d2, us)) /\
       d_history d2 = rev example_history /\ d_history_end d2 = 2) /\
    (exists d3 us, _pop_undo (fun _ => None) d1 u DT_ACTION_REDO [] = Some (Done (d3, us)) /\
       d_history d3 = d_history d1 /\ d_history_end d3 = d_history_end d1).
Proof.
  split; [done|].
  apply (undo_reverses_history (fun _ => None) (example_develop example_history 2 exposure_1 sharpen_7)
           example_lib 2 sharpen_7 true []); try reflexivity; [example_wf_tac|set_solver|repeat constructor|].
  repeat constructor; by intros m [= <-].
Defined.

Lemma check_deleted_ends_witness :
  exists rest deleted, _check_deleted_instances undone_dev [1%nat; 2%nat] example_history = Some (Done (rest, deleted)) /\
    [1%nat; 2%nat] ≡ₚ rest ++ deleted /\
    Forall (fun q => _search_history_by_module example_history q = false) deleted /\
    forall p m, p ∈ rest -> d_modules undone_dev !! p = Some m -> mod_multi_priority (m_base m) <> 0 ->
      _search_history_by_module example_history p = true.
Proof.
  apply check_deleted_ends.
  - apply map_Forall_insert_2; [by split_and!|]. apply map_Forall_singleton. by split_and!.
  - repeat constructor; eexists; reflexivity.
Defined.

Lemma module_remove_end_witness :
  d_history_end (dt_dev_module_remove undone_dev 1) = -1 /\
  let of_module h := (h_module h =? 1)%nat in
  let n := Z.to_nat (d_history_end undone_dev) in
  let d' := dt_dev_module_remove undone_dev 1 in
  d_history d' = List.filter (fun h => negb (of_module h)) (d_history undone_dev) /\
  d_history_end d' = Z.of_nat (length (List.filter (fun h => negb (of_module h)) (take n (d_history undone_dev))))
                     - Z.of_nat (length (List.filter of_module (drop n (d_history undone_dev)))).
Proof. split; [reflexivity|]. apply module_remove_end; [reflexivity|cbn; lia]. Defined.
