(* ===== verification/Mipmap.v ===== *)
(** The mipmap cache of common/mipmap_cache.c: the levels of scaled images, their
    keys and sizes, and the operations that do not compute pixels, as a client of
    what [CacheSpec] promises of common/cache.c.

    The three caches are [lossy_map]s whose data are addresses of buffers; the
    headers of the buffers (dt_mipmap_buffer_dsc) are in a map. A thumbnail file is
    named by its level and the number in its name, [cachedir.d/<level>/<number>.jpg].
    The JPEG code is a parameter. Scales ([iscale]) are left out. *)

From Stdlib Require Import Ascii String.
From S2P Require Import Prelude Cache CacheSpec.
Local Open Scope Z_scope.

(** ** Levels and keys *)

Definition DT_MIPMAP_0 : Z := 0.
Definition DT_MIPMAP_8 : Z := 8.
Definition DT_MIPMAP_F : Z := 9.
Definition DT_MIPMAP_FULL : Z := 10.
Definition DT_MIPMAP_NONE : Z := 11.

Definition get_key (imgid size : Z) : Z :=
  Z.lor (wrap_u32 (Z.shiftl (wrap_u32 size) 28)) (wrap_u32 (imgid - 1)).

Definition get_imgid (key : Z) : Z := wrap_u32 (Z.land key 268435455 + 1).

Definition get_size (key : Z) : Z := Z.shiftr key 28.

(** mipsizes of [dt_mipmap_cache_init]. *)
Definition mipsizes : list (Z * Z) :=
  [(180, 110); (360, 225); (720, 450); (1440, 900); (1920, 1200); (2560, 1600); (4096, 2560);
   (5120, 3200); (999999999, 999999999)].

Definition max_size (mip : Z) : Z * Z :=
  if mip =? DT_MIPMAP_F then default (0, 0) (mipsizes !! 2%nat)
  else default (0, 0) (mipsizes !! Z.to_nat mip).

(** sizeof(struct dt_mipmap_buffer_dsc) *)
Definition DSC_SIZE : Z := 64.

Definition buffer_size (mip : Z) : Z :=
  let '(w, h) := max_size mip in
  if mip <? DT_MIPMAP_F then wrap_u64 (DSC_SIZE + wrap_u64 (w * h * 4))
  else if mip =? DT_MIPMAP_F then wrap_u64 (DSC_SIZE + 4 * 4 * w * h)
  else 0.

(** The loop of [dt_mipmap_cache_get_matching_size] from level [k]. *)
Fixpoint matching_loop (sizes : list (Z * Z)) (k best width height : Z) : Z :=
  match sizes with
  | [] => best
  | (w, h) :: sizes =>
      if (wrap_u32 width <=? w) && (wrap_u32 height <=? h) then k
      else matching_loop sizes (k + 1) k width height
  end.

Definition dt_mipmap_cache_get_matching_size (width height : Z) : Z :=
  matching_loop mipsizes DT_MIPMAP_0 DT_MIPMAP_NONE width height.

Definition dt_mipmap_cache_get_min_mip_from_pref (value : string) : Z :=
  if String.eqb value "always" then 0
  else if String.eqb value "small" then 1
  else if String.eqb value "VGA" then 2
  else if String.eqb value "720p" then 3
  else if String.eqb value "1080p" then 4
  else if String.eqb value "WQXGA" then 5
  else if String.eqb value "4k" then 6
  else if String.eqb value "5K" then 7
  else DT_MIPMAP_NONE.

(** [while(rc < value) rc <<= 1]; [None] if it has not ended. *)
Fixpoint power_loop (fuel : nat) (rc value : Z) : option Z :=
  match fuel with
  | O => None
  | S fuel => if rc <? value then power_loop fuel (wrap_u32 (Z.shiftl rc 1)) value else Some rc
  end.

Definition nearest_power_of_two (fuel : nat) (value : Z) : option Z := power_loop fuel 1 value.

(** CLAMPS of the memory for thumbnails, an int64_t. *)
Definition max_mem (cache_memory : Z) : Z :=
  if Z.shiftl 100 20 <? cache_memory then
    (if cache_memory <? Z.shiftl 8 30 then cache_memory else Z.shiftl 8 30)
  else Z.shiftl 100 20.

(** ** Buffers *)

Definition DT_MIPMAP_BUFFER_DSC_FLAG_GENERATE : Z := 1.
Definition DT_MIPMAP_BUFFER_DSC_FLAG_INVALIDATE : Z := 2.

Definition DT_COLORSPACE_NONE : Z := -1.

Record dt_mipmap_buffer_dsc := Dsc {
  d_width : Z;
  d_height : Z;
  d_size : Z;
  d_flags : Z;
  d_color_space : Z;
  d_pixels : Z;        (* what the payload shows *)
}.


Record jpeg := Jpeg { jpg_width : Z; jpg_height : Z; jpg_color_space : Z; jpg_pixels : Z }.

Record mip_stats := Stats { requests : Z; near_match : Z; misses : Z; standin : Z }.

Record one_cache := One { one_map : lossy_map; one_stats : mip_stats }.

(** [w_jobs]: the load jobs added to the queue DT_JOB_QUEUE_SYSTEM_FG, image and
    level. [w_cachedir]: whether there is a directory for thumbnails. *)
Record dt_mipmap_cache_t := Mipmap {
  mip_thumbs : one_cache;
  mip_f : one_cache;
  mip_full : one_cache;
  w_cachedir : bool;
  w_dsc : gmap Z dt_mipmap_buffer_dsc;
  w_disk : gmap (Z * Z) jpeg;
  w_jobs : list (Z * Z);
}.

Definition _get_cache (w : dt_mipmap_cache_t) (mip : Z) : one_cache :=
  if mip =? DT_MIPMAP_FULL then mip_full w
  else if mip =? DT_MIPMAP_F then mip_f w
  else mip_thumbs w.

Definition set_cache (mip : Z) (c : one_cache) (w : dt_mipmap_cache_t) : dt_mipmap_cache_t :=
  if mip =? DT_MIPMAP_FULL then Mipmap (mip_thumbs w) (mip_f w) c (w_cachedir w) (w_dsc w) (w_disk w) (w_jobs w)
  else if mip =? DT_MIPMAP_F then Mipmap (mip_thumbs w) c (mip_full w) (w_cachedir w) (w_dsc w) (w_disk w) (w_jobs w)
  else Mipmap c (mip_f w) (mip_full w) (w_cachedir w) (w_dsc w) (w_disk w) (w_jobs w).

Definition set_map (mip : Z) (m : lossy_map) (w : dt_mipmap_cache_t) : dt_mipmap_cache_t :=
  set_cache mip (One m (one_stats (_get_cache w mip))) w.


Definition set_dsc v w := Mipmap (mip_thumbs w) (mip_f w) (mip_full w) (w_cachedir w) v (w_disk w) (w_jobs w).
Definition set_disk v w := Mipmap (mip_thumbs w) (mip_f w) (mip_full w) (w_cachedir w) (w_dsc w) v (w_jobs w).
Definition set_jobs v w := Mipmap (mip_thumbs w) (mip_f w) (mip_full w) (w_cachedir w) (w_dsc w) (w_disk w) v.


(** ** What is used of the lru cache *)

Definition admitsb (ls : list lease) (k : Z) (w : bool) : bool :=
  forallb (fun l => negb (le_key l =? k) || (negb w && negb (le_write l))) ls.

(** dt_cache_testget: the data and a lease, or nothing. *)
Definition testget (t k : Z) (w : bool) (m : lossy_map) : option Z * lossy_map :=
  match contents m !! k with
  | Some d => if admitsb (leases m) k w then (Some d, Lossy (contents m) (Lease t k w :: leases m)) else (None, m)
  | None => (None, m)
  end.

Fixpoint drop_lease (l : lease) (ls : list lease) : list lease :=
  match ls with
  | [] => []
  | l' :: ls => if bool_decide (le_thread l' = le_thread l /\ le_key l' = le_key l /\ le_write l' = le_write l)
                then ls else l' :: drop_lease l ls
  end.

(** dt_cache_release *)
Definition release (l : lease) (m : lossy_map) : lossy_map := Lossy (contents m) (drop_lease l (leases m)).

(** ** Getting a buffer *)



Definition dt_control_add_load_job (imgid mip : Z) (w : dt_mipmap_cache_t) : dt_mipmap_cache_t :=
  set_jobs (w_jobs w ++ [(imgid, mip)]) w.


(** DT_MIPMAP_PREFETCH_DISK: the name of the file has the key. *)
Definition get_prefetch_disk (imgid mip : Z) (w : dt_mipmap_cache_t) : dt_mipmap_cache_t :=
  if negb (w_cachedir w) then w
  else if (DT_MIPMAP_FULL <? mip) || (mip <? DT_MIPMAP_0) then w
  else match w_disk w !! (mip, get_key imgid mip) with
       | Some _ => dt_control_add_load_job imgid mip w
       | None => w
       end.






(** ** Allocation for the loaders of full images *)

(** The cache entry of a full image: whether its data are the static dead image, and
    the header. *)
Record full_entry := Full { fe_static : bool; fe_data_size : Z; fe_dsc : dt_mipmap_buffer_dsc }.

(** [has_buf]: buf->buf is not NULL; [memory]: dt_alloc_align succeeds. False is a
    NULL result. *)
Definition dt_mipmap_cache_alloc (has_buf memory : bool) (wd ht bpp : Z) (e : full_entry) : bool * full_entry :=
  let size := wrap_u64 (wrap_u64 (wrap_u64 (wd * ht) * bpp) + DSC_SIZE) in
  let init data_size d :=
    Full false data_size (Dsc (wrap_u32 wd) (wrap_u32 ht) size DT_MIPMAP_BUFFER_DSC_FLAG_GENERATE
                              DT_COLORSPACE_NONE (d_pixels d)) in
  if negb has_buf || fe_static e || (fe_data_size e <? size) then
    if memory then (true, init size (fe_dsc e)) else (false, Full true 0 (fe_dsc e))
  else (true, init (fe_data_size e) (fe_dsc e)).

(** ** Thumbnails on disk *)

Section disk.
(** The settings cache_disk_backend and cache_disk_backend_full; the final size of an
    image; whether a file can be decompressed and the file that a buffer is written
    to; whether the directory can be made, enough space is left and the file is
    written. *)
Context (backend backend_full : bool) (final_size : Z -> Z * Z).
Context (jpeg_ok : jpeg -> bool) (jpeg_write : dt_mipmap_buffer_dsc -> jpeg).
Context (mkdir_ok space_ok write_ok : bool).

Definition on_disk (mip : Z) (w : dt_mipmap_cache_t) : bool :=
  w_cachedir w && ((backend && (mip <? DT_MIPMAP_8)) || (backend_full && (mip =? DT_MIPMAP_8))).

(** The thumbnail file of an entry, if it can be loaded into the buffer. *)
Definition read_thumbnail (mip : Z) (f : jpeg) : option jpeg :=
  let '(mw, mh) := max_size mip in
  if negb (jpeg_ok f) || (mw <? jpg_width f) || (mh <? jpg_height f)
     || (jpg_color_space f =? DT_COLORSPACE_NONE)
  then None else Some f.

(** Size of the data, header and cost of a new entry. *)
Record allocated := Allocated { al_data_size : Z; al_dsc : dt_mipmap_buffer_dsc; al_cost : Z }.

Definition new_buffer (key : Z) : Z * dt_mipmap_buffer_dsc :=
  let mip := get_size key in
  let data_size :=
    if mip =? DT_MIPMAP_8 then
      let '(w, h) := final_size (get_imgid key) in
      wrap_u64 (DSC_SIZE + wrap_u64 (wrap_u64 (wrap_s32 (w + 4)) * wrap_s32 (h + 4)) * 4)
    else if mip <=? DT_MIPMAP_F then buffer_size mip
    else DSC_SIZE + 4 * 4 * 64 in
  (data_size,
   if mip <=? DT_MIPMAP_F then
     Dsc (fst (max_size mip)) (snd (max_size mip)) data_size 0 DT_COLORSPACE_NONE 0
   else Dsc 0 0 data_size 0 DT_COLORSPACE_NONE 0).

(** The callback that makes the data of a new entry. *)
Definition dt_mipmap_cache_allocate_dynamic (key : Z) (w : dt_mipmap_cache_t) : allocated * dt_mipmap_cache_t :=
  let mip := get_size key in
  let name := (mip, get_imgid key) in
  let '(data_size, dsc) := new_buffer key in
  let file := if (mip <? DT_MIPMAP_F) && on_disk mip w then w_disk w !! name else None in
  let '(dsc, w) :=
    match file with
    | Some f =>
        match read_thumbnail mip f with
        | Some f => (Dsc (jpg_width f) (jpg_height f) (d_size dsc) 0 (jpg_color_space f) (jpg_pixels f), w)
        | None =>
            (Dsc (d_width dsc) (d_height dsc) (d_size dsc) DT_MIPMAP_BUFFER_DSC_FLAG_GENERATE
                 (d_color_space dsc) (d_pixels dsc),
             set_disk (delete name (w_disk w)) w)
        end
    | None =>
        (Dsc (d_width dsc) (d_height dsc) (d_size dsc) DT_MIPMAP_BUFFER_DSC_FLAG_GENERATE
             (d_color_space dsc) (d_pixels dsc), w)
    end in
  (Allocated data_size dsc
     (if DT_MIPMAP_F <=? mip then 1 else if mip =? DT_MIPMAP_8 then data_size else buffer_size mip), w).

Definition dt_mipmap_cache_unlink_ondisk_thumbnail (imgid mip : Z) (w : dt_mipmap_cache_t) : dt_mipmap_cache_t :=
  if w_cachedir w then set_disk (delete (mip, imgid) (w_disk w)) w else w.

(** The callback that frees the data of an entry. *)
Definition dt_mipmap_cache_deallocate_dynamic (key : Z) (dsc : dt_mipmap_buffer_dsc) (w : dt_mipmap_cache_t)
    : dt_mipmap_cache_t :=
  let mip := get_size key in
  let name := (mip, get_imgid key) in
  if (mip <? DT_MIPMAP_F) && (8 <? d_width dsc) && (8 <? d_height dsc) then
    if negb (Z.land (d_flags dsc) DT_MIPMAP_BUFFER_DSC_FLAG_INVALIDATE =? 0)
    then dt_mipmap_cache_unlink_ondisk_thumbnail (get_imgid key) mip w
    else if on_disk mip w && mkdir_ok then
      match w_disk w !! name with
      | Some _ => w
      | None =>
          if space_ok && write_ok then set_disk (<[name := jpeg_write dsc]> (w_disk w)) w
          else set_disk (delete name (w_disk w)) w
      end
    else w
  else w.

(** dt_cache_remove of a key that nobody has leased, with the callback; [None] while
    it has to wait. *)
Definition cache_remove (mip key : Z) (w : dt_mipmap_cache_t) : option dt_mipmap_cache_t :=
  let m := one_map (_get_cache w mip) in
  match contents m !! key with
  | None => Some w
  | Some d =>
      if existsb (fun l => le_key l =? key) (leases m) then None
      else
        let w := dt_mipmap_cache_deallocate_dynamic key (default (Dsc 0 0 0 0 0 0) (w_dsc w !! d)) w in
        Some (set_dsc (delete d (w_dsc w)) (set_map mip (Lossy (delete key (contents m)) (leases m)) w))
  end.

Definition dt_mipmap_cache_remove_at_size (t imgid mip : Z) (w : dt_mipmap_cache_t) : option dt_mipmap_cache_t :=
  if (DT_MIPMAP_8 <? mip) || (mip <? DT_MIPMAP_0) then Some w
  else
    let key := get_key imgid mip in
    let '(entry, m) := testget t key true (one_map (_get_cache w mip)) in
    match entry with
    | Some d =>
        let invalidate dsc := Dsc (d_width dsc) (d_height dsc) (d_size dsc)
                                  (Z.lor (d_flags dsc) DT_MIPMAP_BUFFER_DSC_FLAG_INVALIDATE)
                                  (d_color_space dsc) (d_pixels dsc) in
        let w := set_dsc (alter invalidate d (w_dsc w)) (set_map mip m w) in
        let w := set_map mip (release (Lease t key true) m) w in
        cache_remove mip key w
    | None => Some (dt_mipmap_cache_unlink_ondisk_thumbnail imgid mip w)
    end.

(** An operation for the levels 0 to 8. *)
Fixpoint for_levels (steps : nat) (k : Z) (f : Z -> dt_mipmap_cache_t -> option dt_mipmap_cache_t)
    (w : dt_mipmap_cache_t) : option dt_mipmap_cache_t :=
  match steps with
  | O => Some w
  | S steps => w ← f k w; for_levels steps (k + 1) f w
  end.

Definition dt_mipmap_cache_remove (t imgid : Z) (w : dt_mipmap_cache_t) : option dt_mipmap_cache_t :=
  for_levels 9 DT_MIPMAP_0 (dt_mipmap_cache_remove_at_size t imgid) w.

Definition dt_mipmap_cache_evict_at_size (imgid mip : Z) (w : dt_mipmap_cache_t) : option dt_mipmap_cache_t :=
  cache_remove mip (get_key imgid mip) w.

Definition dt_mimap_cache_evict (imgid : Z) (w : dt_mipmap_cache_t) : option dt_mipmap_cache_t :=
  for_levels 9 DT_MIPMAP_0 (fun k w => cache_remove k (get_key imgid k) w) w.

(** g_file_copy does not overwrite. *)
Definition copy_thumbnail (dst src mip : Z) (disk : gmap (Z * Z) jpeg) : gmap (Z * Z) jpeg :=
  match disk !! (mip, src), disk !! (mip, dst) with
  | Some f, None => <[(mip, dst) := f]> disk
  | _, _ => disk
  end.

Definition dt_mipmap_cache_copy_thumbnails (dst_imgid src_imgid : Z) (w : dt_mipmap_cache_t) : dt_mipmap_cache_t :=
  if w_cachedir w && backend then
    set_disk (foldl (fun disk k => copy_thumbnail dst_imgid src_imgid k disk) (w_disk w) (seqZ 0 9)) w
  else w.

End disk.

(** ** Keys *)

Lemma lor_disjoint s i : 0 <= i < 2 ^ 28 -> Z.lor (s * 2 ^ 28) i = s * 2 ^ 28 + i.
Proof.
  intros Hi. rewrite <- Z.shiftl_mul_pow2 by lia. symmetry. apply Z.add_nocarry_lor.
  apply Z.bits_inj'. intros n Hn. rewrite Z.land_spec, Z.bits_0.
  destruct (Z.lt_ge_cases n 28) as [Hlt|Hge].
  - by rewrite Z.shiftl_spec_low.
  - assert (Z.testbit i n = false) as ->; [|apply andb_false_r].
    destruct (Z.eq_dec i 0) as [->|]; [apply Z.bits_0|]. apply Z.bits_above_log2; [lia|].
    apply Z.lt_le_trans with 28; [|done]. apply Z.log2_lt_pow2; lia.
Qed.

Lemma get_key_value imgid size :
  1 <= imgid <= 2 ^ 28 -> 0 <= size < 16 -> get_key imgid size = size * 2 ^ 28 + (imgid - 1).
Proof.
  intros Hi Hs. unfold get_key. rewrite (wrap_u32_id size), Z.shiftl_mul_pow2, !wrap_u32_id by lia.
  apply lor_disjoint. lia.
Qed.

Lemma get_imgid_key imgid size :
  1 <= imgid <= 2 ^ 28 -> 0 <= size < 16 -> get_imgid (get_key imgid size) = imgid.
Proof.
  intros Hi Hs. rewrite get_key_value by done. unfold get_imgid.
  change 268435455 with (Z.ones 28).
  rewrite Z.land_ones, (Z.add_comm (size * 2 ^ 28)), Z.mod_add, Z.mod_small by lia.
  rewrite wrap_u32_id; lia.
Qed.

Lemma get_size_key imgid size :
  1 <= imgid <= 2 ^ 28 -> 0 <= size < 16 -> get_size (get_key imgid size) = size.
Proof.
  intros Hi Hs. rewrite get_key_value by done. unfold get_size.
  rewrite Z.shiftr_div_pow2, (Z.add_comm (size * 2 ^ 28)), Z.div_add, Z.div_small by lia. lia.
Qed.

(** Image and level are read back from a key, for the first 2^28 images and all
    sixteen numbers of levels, so two of them never share a key; the next image
    collides with the first one of another level. *)
Theorem mip_key_round_trip imgid size imgid' size'
    (Hi : 1 <= imgid <= 2 ^ 28) (Hs : 0 <= size < 16) (Hi' : 1 <= imgid' <= 2 ^ 28) (Hs' : 0 <= size' < 16) :
  get_imgid (get_key imgid size) = imgid /\ get_size (get_key imgid size) = size /\
  (get_key imgid size = get_key imgid' size' -> imgid = imgid' /\ size = size') /\
  get_key (2 ^ 28 + 1) 0 = get_key 1 1.
Proof.
  split_and!; [by apply get_imgid_key|by apply get_size_key| |reflexivity].
  intros H. pose proof (get_imgid_key imgid size Hi Hs) as E1. pose proof (get_size_key imgid size Hi Hs) as E2.
  rewrite H in E1, E2. rewrite get_imgid_key in E1 by done. rewrite get_size_key in E2 by done. done.
Qed.

Lemma mip_key_round_trip_witness :
  get_imgid (get_key 268435456 10) = 268435456 /\ get_size (get_key 268435456 10) = 10 /\
  (get_key 268435456 10 = get_key 1 9 -> 268435456 = 1 /\ 10 = 9) /\
  get_key (2 ^ 28 + 1) 0 = get_key 1 1.
Proof. apply mip_key_round_trip; lia. Defined.

(** ** Choice of a level *)

Lemma matching_loop_spec sizes k best width height :
  0 <= width < 2 ^ 31 -> 0 <= height < 2 ^ 31 ->
  let covers i := exists w h, sizes !! i = Some (w, h) /\ width <= w /\ height <= h in
  (exists i, matching_loop sizes k best width height = k + Z.of_nat i /\ covers i /\
             forall j, (j < i)%nat -> ~ covers j) \/
  ((forall i, ~ covers i) /\
   matching_loop sizes k best width height =
     match sizes with [] => best | _ => k + Z.of_nat (length sizes) - 1 end).
Proof.
  intros Hw Hh. revert k best. induction sizes as [|[w h] sizes IH]; intros k best covers; cbn [matching_loop].
  { right. split; [|done]. by intros i (? & ? & ? & _). }
  rewrite !wrap_u32_id by lia.
  destruct ((width <=? w) && (height <=? h)) eqn:E.
  - left. exists 0%nat. split; [lia|]. split; [|lia]. exists w, h. split; [done|]. bool_to_prop. lia.
  - assert (~ covers 0%nat) as H0.
    { intros (? & ? & [= <- <-] & ? & ?). apply andb_false_iff in E as [E|E]; apply Z.leb_gt in E; lia. }
    destruct (IH (k + 1) k) as [(i & Hi & Hc & Hj)|[Hn Hr]].
    + left. exists (S i). rewrite Hi. split; [lia|split; [exact Hc|]]. intros [|j] Hlt; [done|]. apply Hj. lia.
    + right. split; [intros [|i]; [done|apply Hn]|]. rewrite Hr. destruct sizes; cbn [length]; lia.
Qed.

(** The level for a size in pixels is the smallest one of at least that width and
    height; there is one up to 999999999 pixels, and the full-size level is the answer
    beyond. *)
Theorem matching_size_spec width height
    (Hw : 0 <= width < 2 ^ 31) (Hh : 0 <= height < 2 ^ 31) :
  let covers k := width <= fst (max_size k) /\ height <= snd (max_size k) in
  let mip := dt_mipmap_cache_get_matching_size width height in
  0 <= mip <= DT_MIPMAP_8 /\ (forall k, 0 <= k < mip -> ~ covers k) /\
  (covers mip \/ mip = DT_MIPMAP_8 /\ forall k, 0 <= k <= DT_MIPMAP_8 -> ~ covers k).
Proof.
  intros covers mip. unfold mip, dt_mipmap_cache_get_matching_size.
  assert (forall i, (exists w h, mipsizes !! i = Some (w, h) /\ width <= w /\ height <= h) <->
                    (i < 9)%nat /\ covers (Z.of_nat i)) as Hc.
  { intros i. unfold covers, max_size. split.
    - intros (w & h & Hi & H). pose proof (lookup_lt_Some _ _ _ Hi) as Hlt. cbn in Hlt. split; [done|].
      destruct (Z.eqb_spec (Z.of_nat i) DT_MIPMAP_F) as [E|_]; [unfold DT_MIPMAP_F in E; lia|].
      by rewrite Nat2Z.id, Hi.
    - intros [Hlt H]. destruct (lookup_lt_is_Some_2 mipsizes i Hlt) as [[w h] Hi].
      destruct (Z.eqb_spec (Z.of_nat i) DT_MIPMAP_F) as [E|_]; [unfold DT_MIPMAP_F in E; lia|].
      rewrite Nat2Z.id, Hi in H. by exists w, h. }
  destruct (matching_loop_spec mipsizes DT_MIPMAP_0 DT_MIPMAP_NONE width height Hw Hh)
    as [(i & -> & Hi & Hj)|[Hn ->]]; unfold DT_MIPMAP_0, DT_MIPMAP_8 in *.
  - apply Hc in Hi as [Hlt Hi]. split; [lia|]. split; [|by left].
    intros k Hk Hck. apply (Hj (Z.to_nat k)); [lia|]. apply Hc. split; [lia|]. by rewrite Z2Nat.id by lia.
  - cbn [length mipsizes]. assert (forall k, 0 <= k <= 8 -> ~ covers k) as Hn'.
    { intros k Hk Hck. apply (Hn (Z.to_nat k)), Hc. split; [lia|]. by rewrite Z2Nat.id by lia. }
    split; [lia|]. split; [intros k Hk; apply Hn'; lia|]. right. split; [lia|done].
Qed.

Lemma matching_size_spec_witness :
  dt_mipmap_cache_get_matching_size 1920 1201 = 5 /\
  let covers k := 1920 <= fst (max_size k) /\ 1201 <= snd (max_size k) in
  let mip := dt_mipmap_cache_get_matching_size 1920 1201 in
  0 <= mip <= DT_MIPMAP_8 /\ (forall k, 0 <= k < mip -> ~ covers k) /\
  (covers mip \/ mip = DT_MIPMAP_8 /\ forall k, 0 <= k <= DT_MIPMAP_8 -> ~ covers k).
Proof. split; [reflexivity|]. apply matching_size_spec; lia. Defined.

(** ** Powers of two *)

Lemma power_loop_spec n k value :
  0 <= k -> value <= 2 ^ (k + Z.of_nat n) <= 2 ^ 31 -> (k = 0 \/ 2 ^ (k - 1) < value) ->
  exists j, 0 <= j /\ power_loop (S n) (2 ^ k) value = Some (2 ^ j) /\ value <= 2 ^ j /\
            (j = 0 \/ 2 ^ (j - 1) < value).
Proof.
  revert k. induction n as [|n IH]; intros k Hk Hv Hlow; cbn [power_loop].
  - rewrite Z.add_0_r in Hv. destruct (Z.ltb_spec (2 ^ k) value); [lia|]. by exists k.
  - destruct (Z.ltb_spec (2 ^ k) value) as [Hlt|Hge]; [|by exists k].
    assert (2 ^ (k + 1) <= 2 ^ (k + Z.of_nat (S n))) as Hle by (apply Z.pow_le_mono_r; lia).
    assert (Z.shiftl (2 ^ k) 1 = 2 ^ (k + 1)) as -> by (rewrite Z.shiftl_mul_pow2, Z.pow_add_r by lia; lia).
    pose proof (Z.pow_pos_nonneg 2 (k + 1) ltac:(lia) ltac:(lia)).
    rewrite wrap_u32_id by lia. apply IH; [lia| |right; by replace (k + 1 - 1) with k by lia].
    by replace (k + 1 + Z.of_nat n) with (k + Z.of_nat (S n)) by lia.
Qed.

Lemma power_loop_zero fuel value : 0 < value -> power_loop fuel 0 value = None.
Proof.
  intros Hv. induction fuel as [|fuel IH]; [done|]. cbn [power_loop].
  destruct (Z.ltb_spec 0 value); [exact IH|lia].
Qed.

(** The number of entries of a cache is rounded up to a power of two in at most
    32 turns, up to 2^31; above, the loop shifts its one bit out and never ends. *)
Theorem nearest_power_ends value (Hv : 0 <= value < 2 ^ 32) :
  if value <=? 2 ^ 31 then
    exists j, 0 <= j /\ nearest_power_of_two 32 value = Some (2 ^ j) /\ value <= 2 ^ j /\
              (j = 0 \/ 2 ^ (j - 1) < value)
  else forall fuel, nearest_power_of_two fuel value = None.
Proof.
  destruct (Z.leb_spec value (2 ^ 31)) as [Hle|Hgt].
  - apply (power_loop_spec 31 0); [lia| |by left]. change (0 + Z.of_nat 31) with 31. lia.
  - assert (forall n k fuel, (n + k = 32)%nat -> power_loop fuel (wrap_u32 (2 ^ Z.of_nat k)) value = None) as H.
    { intros n. induction n as [|n IH]; intros k fuel Hn.
      - replace k with 32%nat by lia. apply power_loop_zero. lia.
      - destruct fuel as [|fuel]; [done|]. cbn [power_loop]. rewrite wrap_u32_id.
        2: { split; [lia|]. apply Z.pow_lt_mono_r; lia. }
        destruct (Z.ltb_spec (2 ^ Z.of_nat k) value) as [_|Hge].
        + rewrite Z.shiftl_mul_pow2 by lia.
          replace (2 ^ Z.of_nat k * 2 ^ 1) with (2 ^ Z.of_nat (S k)) by (rewrite Nat2Z.inj_succ, Z.pow_succ_r; lia).
          apply IH. lia.
        + assert (2 ^ Z.of_nat k <= 2 ^ 31) by (apply Z.pow_le_mono_r; lia). lia. }
    intros fuel. apply (H 32%nat 0%nat). lia.
Qed.

Lemma nearest_power_ends_witness :
  nearest_power_of_two 32 24 = Some 32 /\
  if 24 <=? 2 ^ 31 then
    exists j, 0 <= j /\ nearest_power_of_two 32 24 = Some (2 ^ j) /\ 24 <= 2 ^ j /\
              (j = 0 \/ 2 ^ (j - 1) < 24)
  else forall fuel, nearest_power_of_two fuel 24 = None.
Proof. split; [reflexivity|]. apply nearest_power_ends. lia. Defined.

(** ** Best effort *)

(** A level that is resident for [imgid], not locked for writing, with its header. *)
Definition resident (w : dt_mipmap_cache_t) (imgid k : Z) : option (Z * dt_mipmap_buffer_dsc) :=
  let m := one_map (_get_cache w k) in
  let key := get_key imgid k in
  match contents m !! key with
  | Some d => if admitsb (leases m) key false then Some (d, default (Dsc 0 0 0 0 0 0) (w_dsc w !! d)) else None
  | None => None
  end.
















































Lemma admitsb_spec ls k w : admitsb ls k w = true <-> admits ls k w.
Proof.
  unfold admitsb, admits. rewrite forallb_forall. split.
  - intros H l Hl%list_elem_of_In Hk. specialize (H l Hl). rewrite Hk, Z.eqb_refl in H. cbn in H.
    apply andb_prop in H as [H1%negb_true_iff H2%negb_true_iff]. done.
  - intros H l Hl%list_elem_of_In. destruct (Z.eqb_spec (le_key l) k) as [E|]; [|done].
    destruct (H l Hl E) as [-> ->]. done.
Qed.

Lemma get_set_map k m w : one_map (_get_cache (set_map k m w) k) = m.
Proof.
  unfold set_map, set_cache, _get_cache.
  destruct (k =? DT_MIPMAP_FULL) eqn:E1; cbn; rewrite ?E1; [done|].
  by destruct (k =? DT_MIPMAP_F) eqn:E2; cbn; rewrite ?E1, ?E2.
Qed.


Lemma drop_lease_head l ls : drop_lease l (l :: ls) = ls.
Proof. cbn. by rewrite bool_decide_eq_true_2. Qed.



(** ** Thumbnails on disk *)

Section disk_lemmas.
Context (final_size : Z -> Z * Z).
Context (jpeg_ok : jpeg -> bool) (jpeg_write : dt_mipmap_buffer_dsc -> jpeg).

(** What libjpeg does: a written file can be read and has the size of the buffer. *)
Definition jpeg_faithful : Prop :=
  forall dsc, jpeg_ok (jpeg_write dsc) = true /\ jpg_width (jpeg_write dsc) = d_width dsc /\
              jpg_height (jpeg_write dsc) = d_height dsc /\ jpg_color_space (jpeg_write dsc) <> DT_COLORSPACE_NONE.

Lemma set_disk_lookup v w n : w_disk (set_disk v w) !! n = v !! n.
Proof. done. Qed.

(** A thumbnail that is evicted comes back: freeing its entry writes the file, and
    allocating an entry for the same image and level later loads it, with its size
    and pixels and without the request to generate it, whatever else happened to other
    files; the file is left as it is. *)
Theorem thumbnail_survives_eviction backend backend_full imgid mip dsc w w'
    (Hfaithful : jpeg_faithful)
    (Hi : 1 <= imgid <= 2 ^ 28) (Hm : 0 <= mip <= DT_MIPMAP_8)
    (Hon : on_disk backend backend_full mip w = true)
    (Hw : 8 < d_width dsc <= fst (max_size mip)) (Hh : 8 < d_height dsc <= snd (max_size mip))
    (Hflag : Z.land (d_flags dsc) DT_MIPMAP_BUFFER_DSC_FLAG_INVALIDATE = 0)
    (Hnew : w_disk w !! (mip, imgid) = None)
    (Hdir : w_cachedir w' = w_cachedir w)
    (Hlater : w_disk w' !! (mip, imgid) =
       w_disk (dt_mipmap_cache_deallocate_dynamic backend backend_full jpeg_write true true true
                 (get_key imgid mip) dsc w) !! (mip, imgid)) :
  let '(al, w'') := dt_mipmap_cache_allocate_dynamic backend backend_full final_size jpeg_ok (get_key imgid mip) w' in
  w'' = w' /\ d_width (al_dsc al) = d_width dsc /\ d_height (al_dsc al) = d_height dsc /\
  d_pixels (al_dsc al) = jpg_pixels (jpeg_write dsc) /\
  Z.land (d_flags (al_dsc al)) DT_MIPMAP_BUFFER_DSC_FLAG_GENERATE = 0.
Proof.
  destruct (Hfaithful dsc) as (Hok & Ew & Eh & Ec).
  unfold DT_MIPMAP_8 in Hm. assert (0 <= mip < 16) as Hm16 by lia.
  unfold dt_mipmap_cache_deallocate_dynamic in Hlater. rewrite get_size_key, get_imgid_key in Hlater by done.
  destruct (Z.ltb_spec mip DT_MIPMAP_F) as [Hf|]; [|unfold DT_MIPMAP_F in *; lia].
  destruct (Z.ltb_spec 8 (d_width dsc)), (Z.ltb_spec 8 (d_height dsc)); try lia. cbn [andb] in Hlater.
  rewrite Hflag, Z.eqb_refl, Hon, Hnew in Hlater. cbn [negb andb] in Hlater.
  rewrite set_disk_lookup, lookup_insert_eq in Hlater.
  unfold dt_mipmap_cache_allocate_dynamic. rewrite get_size_key, get_imgid_key by done.
  destruct (new_buffer _ _) as [data_size new].
  assert (on_disk backend backend_full mip w' = true) as -> by by rewrite <- Hon; unfold on_disk; rewrite Hdir.
  destruct (Z.ltb_spec mip DT_MIPMAP_F); [|lia]. cbn [andb]. rewrite Hlater.
  assert (read_thumbnail jpeg_ok mip (jpeg_write dsc) = Some (jpeg_write dsc)) as ->.
  { unfold read_thumbnail. destruct (max_size mip) as [mw mh]. cbn in Hw, Hh. rewrite Hok, Ew, Eh.
    destruct (Z.ltb_spec mw (d_width dsc)), (Z.ltb_spec mh (d_height dsc)); try lia.
    by destruct (Z.eqb_spec (jpg_color_space (jpeg_write dsc)) DT_COLORSPACE_NONE). }
  cbn. by rewrite Ew, Eh.
Qed.

(** A thumbnail file is only decompressed into a buffer that is large enough for
    it, at the levels of fixed size. At the level of full size the limit that is
    checked is 999999999 in each direction, whatever the size of the buffer: a larger
    picture than the image's final size is written behind its end. *)
Theorem thumbnail_fits imgid mip f
    (Hi : 1 <= imgid <= 2 ^ 28) (Hm : 0 <= mip <= DT_MIPMAP_8) (Hf : read_thumbnail jpeg_ok mip f = Some f)
    (Hpos : 0 <= jpg_width f /\ 0 <= jpg_height f) :
  let '(data_size, _) := new_buffer final_size (get_key imgid mip) in
  (mip < DT_MIPMAP_8 -> DSC_SIZE + 4 * jpg_width f * jpg_height f <= data_size) /\
  (forall big, final_size imgid = (4000, 3000) -> jpeg_ok big = true -> jpg_width big = 6000 ->
     jpg_height big = 4000 -> jpg_color_space big <> DT_COLORSPACE_NONE -> mip = DT_MIPMAP_8 ->
     read_thumbnail jpeg_ok mip big = Some big /\
     data_size < DSC_SIZE + 4 * jpg_width big * jpg_height big).
Proof.
  unfold new_buffer. rewrite get_size_key, get_imgid_key by (unfold DT_MIPMAP_8 in *; lia).
  destruct (Z.eqb_spec mip DT_MIPMAP_8) as [->|Hne].
  - destruct (final_size imgid) as [fw fh]. split; [lia|].
    intros big [= -> ->] Hok Ew Eh Ec _. unfold read_thumbnail. rewrite Hok, Ew, Eh.
    destruct (Z.eqb_spec (jpg_color_space big) DT_COLORSPACE_NONE); [done|]. split; [done|].
    by vm_compute.
  - destruct (Z.leb_spec mip DT_MIPMAP_F) as [_|]; [|unfold DT_MIPMAP_8, DT_MIPMAP_F in *; lia].
    split; [|done]. intros Hlt. unfold read_thumbnail in Hf. unfold buffer_size.
    assert (0 <= fst (max_size mip) <= 5120 /\ 0 <= snd (max_size mip) <= 3200) as [Hb1 Hb2].
    { unfold DT_MIPMAP_8 in *. assert (mip = 0 \/ mip = 1 \/ mip = 2 \/ mip = 3 \/ mip = 4 \/ mip = 5 \/ mip = 6 \/ mip = 7)
        as Hcases by lia. by repeat destruct Hcases as [->|Hcases]; [vm_compute..|]; subst; vm_compute. }
    destruct (max_size mip) as [mw mh]. cbn [fst snd] in *.
    destruct (jpeg_ok f); [|done]. cbn [negb orb] in Hf.
    destruct (Z.ltb_spec mw (jpg_width f)); [done|]. destruct (Z.ltb_spec mh (jpg_height f)); [done|].
    destruct (Z.ltb_spec mip DT_MIPMAP_F); [|unfold DT_MIPMAP_8, DT_MIPMAP_F in *; lia].
    assert (jpg_width f * jpg_height f <= mw * mh) by nia. assert (mw * mh <= 5120 * 3200) by nia.
    rewrite (wrap_u64_id (mw * mh * 4)) by nia. unfold DSC_SIZE. rewrite wrap_u64_id; nia.
Qed.

End disk_lemmas.

(** ** Removing thumbnails *)

Lemma set_cache_disk k c w : w_disk (set_cache k c w) = w_disk w /\ w_dsc (set_cache k c w) = w_dsc w /\
  w_cachedir (set_cache k c w) = w_cachedir w.
Proof. unfold set_cache. by destruct (k =? DT_MIPMAP_FULL), (k =? DT_MIPMAP_F). Qed.

Lemma no_lease_on ls k : admitsb ls k true = true -> existsb (fun l => le_key l =? k) ls = false.
Proof.
  intros H. induction ls as [|l ls IH]; [done|]. cbn in *. apply andb_prop in H as [H1 H2].
  rewrite IH by done. destruct (le_key l =? k); [done|done].
Qed.

Lemma invalid_flag f :
  (Z.land (Z.lor f DT_MIPMAP_BUFFER_DSC_FLAG_INVALIDATE) DT_MIPMAP_BUFFER_DSC_FLAG_INVALIDATE =? 0) = false.
Proof.
  rewrite Z.land_lor_distr_l. apply Z.eqb_neq. intros [_ E]%Z.lor_eq_0_iff. done.
Qed.

(** The files, headers and the directory do not depend on the caches. *)
Ltac through_caches :=
  repeat (rewrite ?(proj1 (set_cache_disk _ _ _)), ?(proj1 (proj2 (set_cache_disk _ _ _))),
                  ?(proj2 (proj2 (set_cache_disk _ _ _))); progress cbn [w_disk w_dsc w_cachedir set_dsc]);
  rewrite ?(proj1 (set_cache_disk _ _ _)), ?(proj1 (proj2 (set_cache_disk _ _ _))),
          ?(proj2 (proj2 (set_cache_disk _ _ _))).

(** Removing the thumbnail of an image at a level that nobody holds leaves neither
    the entry nor the file, unless it is the small dead image (8 pixels or less in
    one direction), whose file is left alone; no other entry of the level is lost. *)
Theorem remove_at_size_spec backend backend_full jpeg_write mkdir_ok space_ok write_ok t imgid mip w
    (Hi : 1 <= imgid <= 2 ^ 28) (Hm : 0 <= mip <= DT_MIPMAP_8)
    (Hdir : w_cachedir w = true)
    (Hfree : admitsb (leases (one_map (_get_cache w mip))) (get_key imgid mip) true = true) :
  exists w', dt_mipmap_cache_remove_at_size backend backend_full jpeg_write mkdir_ok space_ok write_ok t imgid mip w = Some w' /\
    contents (one_map (_get_cache w' mip)) = delete (get_key imgid mip) (contents (one_map (_get_cache w mip))) /\
    leases (one_map (_get_cache w' mip)) = leases (one_map (_get_cache w mip)) /\
    w_disk w' = match resident w imgid mip with
                | Some (_, dsc) => if (8 <? d_width dsc) && (8 <? d_height dsc)
                                   then delete (mip, imgid) (w_disk w) else w_disk w
                | None => delete (mip, imgid) (w_disk w)
                end.
Proof.
  unfold dt_mipmap_cache_remove_at_size, resident, testget, DT_MIPMAP_0, DT_MIPMAP_8 in *.
  destruct (Z.ltb_spec 8 mip), (Z.ltb_spec mip 0); try lia. cbn [orb].
  set (key := get_key imgid mip) in *. set (m := one_map (_get_cache w mip)) in *.
  assert (admitsb (leases m) key false = true) as Hfree'.
  { apply admitsb_spec. apply admitsb_spec in Hfree. intros l Hl Hk. by destruct (Hfree l Hl Hk). }
  destruct (contents m !! key) as [d|] eqn:Ed; [rewrite Hfree, Hfree'|].
  - unfold cache_remove. cbn [fst snd]. rewrite get_set_map. unfold release. cbn [contents leases].
    rewrite drop_lease_head, Ed, (no_lease_on _ _ Hfree).
    eexists. split; [reflexivity|].
    change (one_map (_get_cache (set_dsc ?v ?x) mip)) with (one_map (_get_cache x mip)). rewrite get_set_map.
    split; [done|split; [done|]]. cbn [w_disk set_dsc]. unfold set_map.
    rewrite (proj1 (set_cache_disk _ _ _)). rewrite !(proj1 (proj2 (set_cache_disk _ _ _))).
    cbn [w_dsc set_dsc]. rewrite lookup_alter_eq.
    unfold dt_mipmap_cache_deallocate_dynamic. unfold key. rewrite get_size_key, get_imgid_key by lia. fold key.
    destruct (Z.ltb_spec mip DT_MIPMAP_F); [|unfold DT_MIPMAP_F in *; lia]. cbn [andb].
    destruct (w_dsc w !! d) as [dsc|] eqn:Edsc; cbn [fmap option_fmap option_map default from_option id d_width d_height d_flags].
    + destruct ((8 <? d_width dsc) && (8 <? d_height dsc)).
      * rewrite invalid_flag. cbn [negb]. unfold dt_mipmap_cache_unlink_ondisk_thumbnail. through_caches.
        rewrite Hdir. cbn [w_disk set_disk]. by through_caches.
      * by through_caches.
    + cbn. by through_caches.
  - eexists. split; [reflexivity|]. unfold dt_mipmap_cache_unlink_ondisk_thumbnail.
    rewrite (delete_id (contents m)) by done. by rewrite Hdir.
Qed.

(** ** A concrete cache *)

(** Image 7 is resident at the levels 0 and 3, level 3 is held for writing, and the
    file of image 6 is on disk. *)
Definition example_thumbs : lossy_map :=
  Lossy {[ get_key 7 0 := 100; get_key 7 3 := 103 ]} [Lease 9 (get_key 7 3) true].

Definition example_stats : mip_stats := Stats 0 0 0 0.

Definition example_mipmap : dt_mipmap_cache_t :=
  Mipmap (One example_thumbs example_stats) (One (Lossy ∅ []) example_stats) (One (Lossy ∅ []) example_stats) true
    {[ 100 := Dsc 180 110 79264 0 2 555; 103 := Dsc 1440 900 5184064 0 2 556 ]}
    {[ (0, 6) := Jpeg 180 110 2 444 ]} [].



(** A JPEG file that keeps everything. *)
Definition example_jpeg (dsc : dt_mipmap_buffer_dsc) : jpeg := Jpeg (d_width dsc) (d_height dsc) 1 (d_pixels dsc).

Lemma thumbnail_survives_eviction_witness :
  let dsc := Dsc 180 110 79264 0 2 555 in
  let w := dt_mipmap_cache_deallocate_dynamic true false example_jpeg true true true (get_key 7 0) dsc example_mipmap in
  let '(al, w'') := dt_mipmap_cache_allocate_dynamic true false (fun _ => (0, 0)) (fun _ => true) (get_key 7 0) w in
  w'' = w /\ d_width (al_dsc al) = d_width dsc /\ d_height (al_dsc al) = d_height dsc /\
  d_pixels (al_dsc al) = jpg_pixels (example_jpeg dsc) /\
  Z.land (d_flags (al_dsc al)) DT_MIPMAP_BUFFER_DSC_FLAG_GENERATE = 0.
Proof.
  intros dsc w.
  apply (thumbnail_survives_eviction (fun _ => (0, 0)) (fun _ => true) example_jpeg true false 7 0 dsc
           example_mipmap w); [intros d; cbn; by split_and!|lia|unfold DT_MIPMAP_8; lia|reflexivity
    |by vm_compute|by vm_compute|reflexivity|reflexivity|reflexivity|reflexivity].
Defined.

Lemma thumbnail_fits_witness :
  let '(data_size, _) := new_buffer (fun _ => (4000, 3000)) (get_key 7 0) in
  (0 < DT_MIPMAP_8 -> DSC_SIZE + 4 * 180 * 110 <= data_size) /\
  (forall big, (4000, 3000) = (4000, 3000) -> true = true -> jpg_width big = 6000 ->
     jpg_height big = 4000 -> jpg_color_space big <> DT_COLORSPACE_NONE -> 0 = DT_MIPMAP_8 ->
     read_thumbnail (fun _ => true) 0 big = Some big /\
     data_size < DSC_SIZE + 4 * jpg_width big * jpg_height big).
Proof.
  apply (thumbnail_fits (fun _ => (4000, 3000)) (fun _ => true) 7 0 (Jpeg 180 110 2 1));
    unfold DT_MIPMAP_8; cbn; try lia; done.
Defined.

Lemma remove_at_size_spec_witness :
  exists w', dt_mipmap_cache_remove_at_size true false example_jpeg true true true 1 7 0 example_mipmap = Some w' /\
    contents (one_map (_get_cache w' 0)) = delete (get_key 7 0) (contents (one_map (_get_cache example_mipmap 0))) /\
    leases (one_map (_get_cache w' 0)) = leases (one_map (_get_cache example_mipmap 0)) /\
    w_disk w' = match resident example_mipmap 7 0 with
                | Some (_, dsc) => if (8 <? d_width dsc) && (8 <? d_height dsc)
                                   then delete (0, 7) (w_disk example_mipmap) else w_disk example_mipmap
                | None => delete (0, 7) (w_disk example_mipmap)
                end.
Proof.
  apply remove_at_size_spec; [lia|unfold DT_MIPMAP_8; lia|reflexivity|reflexivity].
Defined.

(** The test for a thumbnail file on disk uses the key in place of the image's
    number: a job is queued for an image and a level exactly if the file named by the
    key is there, at level 0 the one of the image before. *)
Theorem prefetch_disk_tests_key imgid mip w
    (Hi : 1 <= imgid <= 2 ^ 28) (Hm : 0 <= mip <= DT_MIPMAP_FULL) (Hdir : w_cachedir w = true) :
  w_jobs (get_prefetch_disk imgid mip w) =
    w_jobs w ++ (if w_disk w !! (mip, mip * 2 ^ 28 + (imgid - 1)) then [(imgid, mip)] else []).
Proof.
  unfold get_prefetch_disk, DT_MIPMAP_FULL, DT_MIPMAP_0 in *. rewrite Hdir. cbn [negb].
  destruct (Z.ltb_spec 10 mip), (Z.ltb_spec mip 0); try lia. cbn [orb].
  rewrite get_key_value by lia. destruct (w_disk w !! _); [done|by rewrite app_nil_r].
Qed.

Lemma prefetch_disk_tests_key_witness :
  w_jobs (get_prefetch_disk 7 0 example_mipmap) =
    w_jobs example_mipmap ++ (if w_disk example_mipmap !! (0, 0 * 2 ^ 28 + (7 - 1)) then [(7, 0)] else []) /\
  w_jobs (get_prefetch_disk 7 0 example_mipmap) = [(7, 0)] /\ w_disk example_mipmap !! (0, 7) = None.
Proof.
  split; [apply prefetch_disk_tests_key; [lia|unfold DT_MIPMAP_FULL; lia|reflexivity]|]. split; reflexivity.
Defined.
