(* ===== verification/Netpbm.v ===== *)
(** The readers and writers of the portable bitmap formats: common/imageio_pnm.c and
    imageio/format/ppm.c, common/imageio_pfm.c and imageio/format/pfm.c.

    A file is a string of bytes, and reading it gives the rest. A buffer of floats
    is a list with four elements per pixel: for PNM of binary32 values, for PFM of
    the 32-bit words that represent them. Its contents before are an argument: what
    a reader does not write it leaves. Machines are little-endian. *)

From Stdlib Require Import Ascii String SpecFloat DecimalString.
From S2P Require Import Prelude Floats.
Local Open Scope Z_scope.

Inductive dt_imageio_retval_t := DT_IMAGEIO_OK | DT_IMAGEIO_FILE_NOT_FOUND | DT_IMAGEIO_FILE_CORRUPTED | DT_IMAGEIO_CACHE_FULL.

(** ** fscanf and fread *)

Definition scan_char (s : string) : option (ascii * string) :=
  match s with String c s => Some (c, s) | EmptyString => None end.

(** %u: a number that does not fit is taken modulo 2^32. *)
Definition scan_unsigned (s : string) : option (Z * string) :=
  let s := skip_spaces s in
  match s with
  | String "-" s => '(z, rest) ← scan_number s; Some (wrap_u32 (- z), rest)
  | String "+" s => '(z, rest) ← scan_number s; Some (wrap_u32 z, rest)
  | _ => '(z, rest) ← scan_number s; Some (wrap_u32 z, rest)
  end.

(** [fread] of [n] bytes, if there are so many. *)
Definition fread (n : nat) (s : string) : option (list Z * string) :=
  if (n <=? String.length s)%nat
  then Some (map Z_of_byte (String.list_ascii_of_string (str_take n s)), str_drop n s)
  else None.

(** ** PNM *)

Definition sample (v max : Z) : spec_float := SFdiv 24 128 (float_of_int v) (float_of_int max).

(** [rows] lines read one by one; a line that is missing ends the loop with an error. *)
Fixpoint read_rows (rows : nat) (bytes : nat) (convert : list Z -> list spec_float) (s : string)
    : dt_imageio_retval_t * list spec_float :=
  match rows with
  | O => (DT_IMAGEIO_OK, [])
  | S rows =>
      match fread bytes s with
      | None => (DT_IMAGEIO_FILE_CORRUPTED, [])
      | Some (line, s) =>
          let '(result, out) := read_rows rows bytes convert s in (result, convert line ++ out)
      end
  end.

Definition gray (v : spec_float) : list spec_float := [v; v; v; S754_zero false].

(** Eight pixels, or what is left of [width], from one byte, the first one highest. *)
Definition pbm_byte (left : nat) (byte : Z) : list spec_float :=
  concat (map (fun bit => gray (if Z.testbit (Z.lxor byte 255) (7 - Z.of_nat bit)
                                then binary_normalize 24 128 1 0 false else S754_zero false))
              (seq 0 (Nat.min 8 left))).

Fixpoint pbm_line (left : nat) (line : list Z) : list spec_float :=
  match line with
  | [] => []
  | byte :: line => pbm_byte left byte ++ pbm_line (left - 8) line
  end.

Definition _read_pbm (width height : nat) (s : string) : dt_imageio_retval_t * list spec_float :=
  read_rows height ((width + 7) / 8) (pbm_line width) s.

(** Two bytes a sample, most significant first. *)
Fixpoint samples_16 (line : list Z) : list Z :=
  match line with
  | hi :: lo :: line => hi * 256 + lo :: samples_16 line
  | _ => []
  end.

Fixpoint rgb (max : Z) (line : list Z) : list spec_float :=
  match line with
  | r :: g :: b :: line => [sample r max; sample g max; sample b max; S754_zero false] ++ rgb max line
  | _ => []
  end.

Definition _read_pgm (width height : nat) (s : string) : dt_imageio_retval_t * list spec_float :=
  match scan_unsigned s with
  | None => (DT_IMAGEIO_FILE_CORRUPTED, [])
  | Some (max, s) =>
      if 65535 <? max then (DT_IMAGEIO_FILE_CORRUPTED, [])
      else if max <=? 255
      then read_rows height width (fun line => concat (map (fun v => gray (sample v max)) line)) s
      else read_rows height (2 * width) (fun line => concat (map (fun v => gray (sample v max)) (samples_16 line))) s
  end.

Definition _read_ppm (width height : nat) (s : string) : dt_imageio_retval_t * list spec_float :=
  match scan_unsigned s with
  | None => (DT_IMAGEIO_FILE_CORRUPTED, [])
  | Some (max, s) =>
      if 65535 <? max then (DT_IMAGEIO_FILE_CORRUPTED, [])
      else if max <=? 255 then read_rows height (3 * width) (rgb max) s
      else read_rows height (2 * (3 * width)) (fun line => rgb max (samples_16 line)) s
  end.

(** The extension: from the last dot on, or the whole name; strcasecmp. *)
Fixpoint extension (s : string) : option string :=
  match s with
  | EmptyString => None
  | String c s' =>
      match extension s' with
      | Some e => Some e
      | None => if (c =? ".")%char then Some s else None
      end
  end.

Definition tolower (c : ascii) : ascii :=
  let n := Z_of_byte c in if (65 <=? n) && (n <=? 90) then byte_of_Z (n + 32) else c.

Fixpoint lower (s : string) : string :=
  match s with String c s => String (tolower c) (lower s) | EmptyString => "" end.

Definition has_extension (filename : string) (exts : list string) : bool :=
  existsb (String.eqb (lower (default filename (extension filename)))) exts.

(** What a reader leaves: its result, the size of the image if it was read, and the
    start of the buffer. *)
Record opened {A} := Opened { o_result : dt_imageio_retval_t; o_width : Z; o_height : Z; o_buf : list A }.
Arguments opened : clear implicits.

Definition corrupt {A} : opened A := Opened _ DT_IMAGEIO_FILE_CORRUPTED 0 0 [].

(** [alloc]: dt_mipmap_cache_alloc succeeds for a width and a height; it does not for
    negative ones. *)
Definition dt_imageio_open_pnm (alloc : Z -> Z -> bool) (filename : string) (file : option string)
    : c_result (opened spec_float) :=
  if negb (has_extension filename [".pbm"; ".pgm"; ".ppm"]) then Done corrupt
  else match file with
  | None => Done corrupt
  | Some s =>
      match s with
      | String h0 (String h1 s) =>
          if negb (h0 =? "P")%char then Done corrupt
          else
            let* r := scan_int (skip_spaces s) in
            match r with
            | None => Done corrupt
            | Some (width, s) =>
                let* r := scan_int s in
                match r with
                | None => Done corrupt
                | Some (height, s) =>
                    let s := skip_spaces s in
                    if negb (alloc width height) then Done (Opened _ DT_IMAGEIO_CACHE_FULL width height [])
                    else
                      let w := Z.to_nat width in
                      let h := Z.to_nat height in
                      let '(result, buf) :=
                        if (h1 =? "4")%char then _read_pbm w h s
                        else if (h1 =? "5")%char then _read_pgm w h s
                        else if (h1 =? "6")%char then _read_ppm w h s
                        else (DT_IMAGEIO_FILE_CORRUPTED, []) in
                      Done (Opened _ result width height buf)
                end
            end
      | _ => Done corrupt
      end
  end.

(** imageio/format/ppm.c: [pixels] are the rows of 16-bit samples, four a pixel. *)
Definition byte_string (l : list Z) : string := String.string_of_list_ascii (map byte_of_Z l).

Fixpoint ppm_pixels (pixels : list Z) : string :=
  match pixels with
  | r :: g :: b :: _ :: pixels =>
      byte_string [Z.shiftr r 8; r; Z.shiftr g 8; g; Z.shiftr b 8; b] +:+ ppm_pixels pixels
  | _ => ""
  end.

Definition newline : string := String "010" "".

Definition ppm_write_image (width height : Z) (pixels : list Z) : string :=
  "P6" +:+ newline +:+ c_show_int width +:+ " " +:+ c_show_int height +:+ newline +:+ "65535" +:+ newline +:+
  ppm_pixels (take (4 * Z.to_nat width * Z.to_nat height) pixels).

(** ** PFM *)

(** [words n s]: as many whole 32-bit words as there are, at most [n]: a last pixel of
    which the file has only a part has an indeterminate value after [fread]. *)
Fixpoint words (n : nat) (s : string) : list Z :=
  match n with
  | O => []
  | S n =>
      match s with
      | String a (String b (String c (String d s))) => le_combine [a; b; c; d] :: words n s
      | _ => []
      end
  end.

(** GUINT32_SWAP_LE_BE *)
Definition swap_32 (v : Z) : Z :=
  Z.lor (Z.lor (Z.shiftl (Z.land v 255) 24) (Z.shiftl (Z.land v 65280) 8))
        (Z.lor (Z.land (Z.shiftr v 8) 65280) (Z.shiftr v 24)).

Definition get (buf : list Z) (i : nat) : Z := default 0 (buf !! i).

(** The body of the loop that widens three channels to four, in place. *)
Definition widen_step (swap : bool) (buf : list Z) (i c : nat) : list Z :=
  let v := get buf (3 * i + c) in
  <[(4 * i + c)%nat := if swap then swap_32 v else v]> buf.

(** From the last pixel to the first. *)
Fixpoint widen_loop (swap : bool) (n : nat) (buf : list Z) : list Z :=
  match n with
  | O => buf
  | S i => widen_loop swap i (foldl (fun buf c => widen_step swap buf i c) buf (seq 0 3))
  end.

(** The loop for one channel; at the end of the file the value is not determined. *)
Fixpoint gray_loop (swap : bool) (n i : nat) (s : string) (buf : list Z) : c_result (list Z) :=
  match n with
  | O => Done buf
  | S n =>
      match words 1 s with
      | [v] =>
          let x := if swap then swap_32 v else v in
          gray_loop swap n (S i) (str_drop 4 s)
            (<[(4 * i)%nat := x]> (<[(4 * i + 1)%nat := x]> (<[(4 * i + 2)%nat := x]> buf)))
      | _ => Undefined
      end
  end.

(** The rows in reverse order: row [j] for row [height - 1 - j] in the lower half. *)
Definition row (width j : nat) (buf : list Z) : list Z := take (4 * width) (drop (4 * width * j) buf).

Definition put_row (width j : nat) (line buf : list Z) : list Z :=
  take (4 * width * j) buf ++ line ++ drop (4 * width * j + 4 * width) buf.

Definition swap_rows (width height : nat) (buf : list Z) (j : nat) : list Z :=
  let line := row width j buf in
  let buf := put_row width j (row width (height - 1 - j) buf) buf in
  put_row width (height - 1 - j) line buf.

Definition flip_rows (width height : nat) (buf : list Z) : list Z :=
  foldl (swap_rows width height) buf (seq 0 (height / 2)).

(** [%*[^\n]] *)
Fixpoint skip_line (s : string) : string :=
  match s with
  | String c s' => if (c =? "010")%char then s else skip_line s'
  | EmptyString => ""
  end.

Section pfm.
(** %f of fscanf, which skips white space: the value and what is behind it. *)
Context (scan_float : string -> option (spec_float * string)).
(** The allocated buffer for a size, with what it contains. *)
Context (alloc : Z -> Z -> option (list Z)).

Definition dt_imageio_open_pfm (filename : string) (file : option string) : c_result (opened Z) :=
  if negb (has_extension filename [".pfm"]) then Done corrupt
  else match file with
  | None => Done corrupt
  | Some s =>
      match s with
      | String h0 (String h1 s) =>
          let cols := if (h1 =? "F")%char then Some true else if (h1 =? "f")%char then Some false else None in
          match (if (h0 =? "P")%char then cols else None) with
          | None => Done corrupt
          | Some color =>
              let* r := scan_int (skip_spaces s) in
              match r with
              | None => Done corrupt
              | Some (width, s) =>
                  let* r := scan_int s in
                  match r with
                  | None => Done corrupt
                  | Some (height, s) =>
                      match scan_float s with
                      | None => Done corrupt
                      | Some (scale_factor, s) =>
                          match skip_line s with
                          | EmptyString => Done corrupt
                          | String _ s =>
                              let swap := SFleb (S754_zero false) scale_factor in
                              match alloc width height with
                              | None => Done (Opened _ DT_IMAGEIO_CACHE_FULL width height [])
                              | Some buf =>
                                  let w := Z.to_nat width in
                                  let h := Z.to_nat height in
                                  let* buf :=
                                    if color : bool then
                                      let ws := words (3 * (w * h)) s in
                                      Done (widen_loop swap (w * h) (ws ++ drop (length ws) buf))
                                    else gray_loop swap (w * h) 0 s buf in
                                  Done (Opened _ DT_IMAGEIO_OK width height (flip_rows w h buf))
                              end
                          end
                      end
                  end
              end
          end
      | _ => Done corrupt
      end
  end.

End pfm.

(** imageio/format/pfm.c *)
Fixpoint pad_loop (fuel len off : nat) : nat :=
  match fuel with
  | O => off
  | S fuel => if ((len + 1 + off) mod 16 =? 0)%nat then off else pad_loop fuel len (S off)
  end.

Definition pfm_header (width height : Z) : string :=
  "PF" +:+ newline +:+ c_show_int width +:+ " " +:+ c_show_int height +:+ newline +:+ "-1.0".

Fixpoint zeros (n : nat) : string := match n with O => "" | S n => String "0" (zeros n) end.

Definition word_string (v : Z) : string := String.string_of_list_ascii (le_split 4 v).

(** Three of the four channels of the pixels of a row. *)
Fixpoint pfm_row (pixels : list Z) : string :=
  match pixels with
  | r :: g :: b :: _ :: pixels => word_string r +:+ word_string g +:+ word_string b +:+ pfm_row pixels
  | _ => ""
  end.

Definition pfm_write_image (width height : Z) (pixels : list Z) : string :=
  let header := pfm_header width height in
  let w := Z.to_nat width in
  let h := Z.to_nat height in
  header +:+ zeros (pad_loop 16 (String.length header) 0) +:+ newline +:+
  String.concat "" (map (fun j => pfm_row (row w (h - 1 - j) pixels)) (seq 0 h)).

(** ** Lemmas: the buffer *)

Section buffer.
Local Open Scope nat_scope.

Lemma get_insert_eq buf i v : i < length buf -> get (<[i := v]> buf) i = v.
Proof. intros H. unfold get. by rewrite list_lookup_insert_eq. Qed.

Lemma get_insert_ne buf i j v : i <> j -> get (<[i := v]> buf) j = get buf j.
Proof. intros H. unfold get. by rewrite list_lookup_insert_ne. Qed.

(** The channel that a pixel's channel is read from: the copying in place reads some
    channels after they have been overwritten. *)
Definition source_channel (i c : nat) : nat :=
  if (i =? 1) || ((i =? 2) && (c =? 2)) then 0 else c.

Lemma widen_pixel i buf :
  4 * i + 3 <= length buf ->
  let buf' := foldl (fun buf c => widen_step false buf i c) buf (seq 0 3) in
  length buf' = length buf /\
  (forall c, c < 3 -> get buf' (4 * i + c) = get buf (3 * i + source_channel i c)) /\
  (forall j, j < 4 * i \/ 4 * i + 3 <= j -> get buf' j = get buf j).
Proof.
  intros Hl buf'. unfold buf'. cbn [seq foldl]. unfold widen_step. rewrite !length_insert. split; [done|]. split.
  - set (v0 := get buf (3 * i + 0)). set (b1 := <[4 * i + 0 := v0]> buf).
    set (v1 := get b1 (3 * i + 1)). set (b2 := <[4 * i + 1 := v1]> b1). set (v2 := get b2 (3 * i + 2)).
    assert (length b1 = length buf /\ length b2 = length buf) as [L1 L2] by (unfold b2, b1; by rewrite !length_insert).
    assert (v1 = get buf (3 * i + source_channel i 1)) as H1.
    { unfold v1, b1, source_channel. destruct (Nat.eqb_spec i 1) as [->|]; cbn [orb].
      - by rewrite get_insert_eq by lia.
      - destruct (i =? 2); cbn; by rewrite get_insert_ne by lia. }
    assert (v2 = get buf (3 * i + source_channel i 2)) as H2.
    { unfold v2, b2. destruct (Nat.eq_dec i 1) as [->|].
      - by rewrite get_insert_eq by lia.
      - rewrite get_insert_ne by lia. unfold b1, source_channel.
        destruct (Nat.eqb_spec i 1), (Nat.eqb_spec i 2) as [->|]; try lia; cbn [orb andb Nat.eqb].
        + by rewrite get_insert_eq by lia.
        + by rewrite get_insert_ne by lia. }
    intros c Hc. assert (c = 0 \/ c = 1 \/ c = 2) as [->|[->| ->]] by lia.
    + rewrite get_insert_ne by lia. unfold b2. rewrite get_insert_ne by lia. unfold b1.
      rewrite get_insert_eq by lia. unfold v0, source_channel. by destruct (_ || _).
    + rewrite get_insert_ne by lia. unfold b2. by rewrite get_insert_eq by lia.
    + by rewrite get_insert_eq by lia.
  - intros j Hj. by rewrite !get_insert_ne by lia.
Qed.

Lemma widen_loop_spec n buf :
  4 * n <= length buf ->
  length (widen_loop false n buf) = length buf /\
  (forall i c, i < n -> c < 3 -> get (widen_loop false n buf) (4 * i + c) = get buf (3 * i + source_channel i c)) /\
  (forall j, 4 * n <= j -> get (widen_loop false n buf) j = get buf j).
Proof.
  revert buf. induction n as [|n IH]; intros buf Hl; [split; [done|split; [lia|done]]|].
  cbn [widen_loop]. destruct (widen_pixel n buf ltac:(lia)) as (Hl' & Hpix & Hrest).
  set (buf' := foldl _ _ _) in *. destruct (IH buf' ltac:(lia)) as (Hl2 & H2 & H3).
  split; [lia|split].
  - intros i c Hi Hc. destruct (decide (i = n)) as [->|Hne].
    + rewrite H3 by lia. by apply Hpix.
    + rewrite H2 by lia. apply Hrest.
      assert (source_channel i c <= c) by (unfold source_channel; destruct (_ || _); lia). lia.
  - intros j Hj. rewrite H3 by lia. apply Hrest. lia.
Qed.

(** Rows. *)
Lemma row_length w h j buf : length buf = 4 * w * h -> j < h -> length (row w j buf) = 4 * w.
Proof. intros Hl Hj. unfold row. rewrite length_take, length_drop. nia. Qed.

Lemma get_row w j buf k : k < 4 * w -> get (row w j buf) k = get buf (4 * w * j + k).
Proof. intros Hk. unfold get, row. by rewrite lookup_take_lt, lookup_drop. Qed.

Lemma put_row_length w h j line buf :
  length buf = 4 * w * h -> j < h -> length line = 4 * w -> length (put_row w j line buf) = 4 * w * h.
Proof. intros Hl Hj Hline. unfold put_row. rewrite !length_app, length_take, length_drop. nia. Qed.

Lemma row_put_row w h j k line buf :
  length buf = 4 * w * h -> j < h -> k < h -> length line = 4 * w ->
  row w k (put_row w j line buf) = if decide (k = j) then line else row w k buf.
Proof.
  intros Hl Hj Hk Hline. unfold row, put_row. destruct (decide (k = j)) as [->|Hne].
  - rewrite drop_app_le by (rewrite length_take; nia). rewrite drop_ge by (rewrite length_take; nia).
    cbn [app]. by rewrite <- Hline, take_app_length.
  - apply list_eq. intros i. destruct (decide (i < 4 * w)) as [Hi|Hi].
    + rewrite !lookup_take_lt, !lookup_drop by done. destruct (decide (k < j)) as [Hlt|Hge].
      * rewrite lookup_app_l by (rewrite length_take; nia). rewrite lookup_take_lt by nia. done.
      * rewrite lookup_app_r by (rewrite length_take; nia). rewrite length_take.
        rewrite lookup_app_r by nia. rewrite lookup_drop. f_equal. nia.
    + by rewrite !lookup_take_ge by lia.
Qed.

Lemma swap_rows_spec w h j buf :
  length buf = 4 * w * h -> j < h ->
  length (swap_rows w h buf j) = 4 * w * h /\
  forall k, k < h -> row w k (swap_rows w h buf j) =
    if decide (k = h - 1 - j) then row w j buf else if decide (k = j) then row w (h - 1 - j) buf else row w k buf.
Proof.
  intros Hl Hj. unfold swap_rows.
  assert (length (row w (h - 1 - j) buf) = 4 * w) as L1 by (apply (row_length w h); lia).
  assert (length (row w j buf) = 4 * w) as L2 by (apply (row_length w h); lia).
  assert (length (put_row w j (row w (h - 1 - j) buf) buf) = 4 * w * h) as L3 by (by apply put_row_length).
  split; [apply put_row_length; lia|]. intros k Hk.
  rewrite (row_put_row w h) by lia. destruct (decide (k = h - 1 - j)); [done|].
  by rewrite (row_put_row w h) by lia.
Qed.

Lemma flip_rows_spec w h buf :
  length buf = 4 * w * h ->
  length (flip_rows w h buf) = 4 * w * h /\
  forall k, k < h -> row w k (flip_rows w h buf) = row w (h - 1 - k) buf.
Proof.
  intros Hl. unfold flip_rows. pose proof (Nat.div_mod_eq h 2) as Hh. pose proof (Nat.mod_upper_bound h 2 ltac:(lia)) as Hm.
  enough (forall m, m <= h / 2 ->
    length (foldl (swap_rows w h) buf (seq 0 m)) = 4 * w * h /\
    forall k, k < h -> row w k (foldl (swap_rows w h) buf (seq 0 m)) =
      if decide (k < m \/ h - m <= k) then row w (h - 1 - k) buf else row w k buf) as H.
  { destruct (H (h / 2) ltac:(lia)) as [H1 H2]. split; [done|]. intros k Hk. rewrite H2 by done.
    destruct (decide _) as [|Hn]; [done|]. f_equal. lia. }
  intros m. induction m as [|m IH]; intros Hm2.
  - cbn [seq foldl]. split; [done|]. intros k Hk. rewrite decide_False by lia. done.
  - rewrite seq_S, foldl_app. cbn [foldl Nat.add]. destruct (IH ltac:(lia)) as [L1 H1].
    destruct (swap_rows_spec w h m _ L1 ltac:(lia)) as [L2 H2]. split; [done|]. intros k Hk.
    rewrite H2 by done. destruct (decide (k = h - 1 - m)) as [->|Hne1].
    + rewrite H1, decide_False, decide_True by lia. f_equal. lia.
    + destruct (decide (k = m)) as [->|Hne2].
      * rewrite H1, decide_False, decide_True by lia. done.
      * rewrite H1 by done. destruct (decide (k < m \/ h - m <= k)) as [Hd|Hd].
        -- by rewrite decide_True by lia.
        -- by rewrite decide_False by lia.
Qed.

End buffer.

(** ** Lemmas: words in the file *)

Definition is_word (v : Z) : Prop := 0 <= v < 2 ^ 32.

Fixpoint word_strings (l : list Z) : string :=
  match l with v :: l => word_string v +:+ word_strings l | [] => "" end.

Lemma words_strings l s : Forall is_word l -> words (length l) (word_strings l +:+ s) = l.
Proof.
  induction 1 as [|v l Hv _ IH]; [done|]. cbn [length word_strings]. rewrite str_app_assoc.
  pose proof (le_combine_split 4 v) as Hc. change (256 ^ Z.of_nat 4) with (2 ^ 32) in Hc.
  rewrite Z.mod_small in Hc by done. unfold word_string. cbn [le_split] in *.
  cbn [String.string_of_list_ascii]. cbn [words].
  change (String ?a (String ?b (String ?c (String ?d ""))) +:+ ?x) with (String a (String b (String c (String d x)))).
  cbn [words]. by rewrite Hc, IH.
Qed.

Lemma word_strings_app l l' : word_strings (l ++ l') = word_strings l +:+ word_strings l'.
Proof. induction l as [|v l IH]; [done|]. cbn [app word_strings]. by rewrite IH, str_app_assoc. Qed.

(** The words of a row: the first three of each four. *)
Fixpoint three_of_four (l : list Z) : list Z :=
  match l with
  | r :: g :: b :: _ :: l => r :: g :: b :: three_of_four l
  | _ => []
  end.

Lemma three_of_four_spec n l :
  length l = (4 * n)%nat ->
  pfm_row l = word_strings (three_of_four l) /\ length (three_of_four l) = (3 * n)%nat /\
  (forall i c, (i < n)%nat -> (c < 3)%nat -> get (three_of_four l) (3 * i + c) = get l (4 * i + c)) /\
  (Forall is_word l -> Forall is_word (three_of_four l)).
Proof.
  revert l. induction n as [|n IH]; intros l Hl.
  { apply nil_length_inv in Hl as ->. split_and!; [done|done|lia|done]. }
  destruct l as [|r [|g [|b [|x l]]]]; cbn [length] in Hl; try lia.
  destruct (IH l ltac:(lia)) as (H1 & H2 & H3 & H4). cbn [pfm_row three_of_four word_strings length].
  split_and!; [by rewrite H1|lia| |].
  - intros [|i] c Hi Hc.
    + destruct c as [|[|[|c]]]; [done..|lia].
    + replace (3 * S i + c)%nat with (S (S (S (3 * i + c)))) by lia.
      replace (4 * S i + c)%nat with (S (S (S (S (4 * i + c))))) by lia. apply H3; lia.
  - intros Hf. do 4 (apply Forall_cons in Hf as [? Hf]). do 3 (constructor; [done|]). by apply H4.
Qed.

(** Lists of equal lengths put together, and the place of an element. *)
Lemma length_rows (L : nat) (f : nat -> list Z) h :
  (forall i, (i < h)%nat -> length (f i) = L) -> length (concat (map f (seq 0 h))) = (L * h)%nat.
Proof.
  intros Hlen. induction h as [|h IH]; [cbn; lia|]. rewrite seq_S, map_app, concat_app.
  cbn [map concat Nat.add]. rewrite app_nil_r, length_app, (Hlen h) by lia. rewrite IH; [lia|]. intros i Hi. apply Hlen. lia.
Qed.

Lemma get_rows (L : nat) (f : nat -> list Z) h j k :
  (forall i, (i < h)%nat -> length (f i) = L) -> (j < h)%nat -> (k < L)%nat ->
  get (concat (map f (seq 0 h))) (L * j + k) = get (f j) k.
Proof.
  intros Hlen Hj Hk. induction h as [|h IH]; [lia|].
  rewrite seq_S, map_app, concat_app. cbn [map concat Nat.add]. rewrite app_nil_r.
  assert (length (concat (map f (seq 0 h))) = (L * h)%nat) as Hl by (apply length_rows; intros; apply Hlen; lia).
  unfold get. destruct (decide (j < h)%nat) as [Hlt|].
  - rewrite lookup_app_l by nia. apply IH; [intros; apply Hlen|]; lia.
  - assert (j = h) as -> by lia. rewrite lookup_app_r by lia. do 2 f_equal. lia.
Qed.

(** ** The header *)

Lemma pfm_file_shape width height pixels :
  0 <= width < 2 ^ 31 -> 0 <= height < 2 ^ 31 ->
  exists k data, pfm_write_image width height pixels =
    String "P" (String "F" (newline +:+ c_show_int width +:+ " " +:+ c_show_int height +:+ newline +:+
      "-1.0" +:+ zeros k +:+ newline +:+ data)) /\
    data = String.concat "" (map (fun j => pfm_row (row (Z.to_nat width) (Z.to_nat height - 1 - j) pixels))
                                 (seq 0 (Z.to_nat height))).
Proof.
  intros Hw Hh. unfold pfm_write_image, pfm_header. do 2 eexists. split; [|reflexivity].
  by rewrite !str_app_assoc.
Qed.

Lemma str_concat_rows (f : nat -> list Z) (js : list nat) :
  String.concat "" (map (fun j => word_strings (f j)) js) = word_strings (concat (map f js)).
Proof.
  induction js as [|j js IH]; [done|]. cbn [map concat]. rewrite word_strings_app, <- IH.
  destruct js; cbn [map String.concat]; [by rewrite str_app_nil_r|done].
Qed.

Section round_trip.
Context (scan_float : string -> option (spec_float * string)).

(** %f reads the scale of the header, whatever zeros follow, as a negative number, up
    to the end of the line. *)
Definition reads_scale : Prop :=
  forall k rest, exists f, scan_float (newline +:+ "-1.0" +:+ zeros k +:+ newline +:+ rest) =
                             Some (f, newline +:+ rest) /\ SFleb (S754_zero false) f = false.

(** The data behind the header: the rows from the last to the first. *)
Definition file_words (width height : Z) (pixels : list Z) : list Z :=
  concat (map (fun j => three_of_four (row (Z.to_nat width) (Z.to_nat height - 1 - j) pixels)) (seq 0 (Z.to_nat height))).

Lemma pixel_row w h pixels j :
  length pixels = (4 * w * h)%nat -> (j < h)%nat ->
  length (three_of_four (row w j pixels)) = (3 * w)%nat /\
  (Forall is_word pixels -> Forall is_word (three_of_four (row w j pixels))) /\
  forall x c, (x < w)%nat -> (c < 3)%nat -> get (three_of_four (row w j pixels)) (3 * x + c) = get pixels (4 * w * j + (4 * x + c)).
Proof.
  intros Hl Hj. assert (length (row w j pixels) = (4 * w)%nat) as Hrow by (apply (row_length w h); [done|lia]).
  destruct (three_of_four_spec w _ Hrow) as (_ & H1 & H2 & H3). split_and!; [done| |].
  - intros Hf. apply H3. apply Forall_take. by apply Forall_drop.
  - intros x c Hx Hc. rewrite H2 by done. apply get_row; lia.
Qed.

Lemma file_words_spec width height pixels (w := Z.to_nat width) (h := Z.to_nat height) :
  length pixels = (4 * w * h)%nat ->
  length (file_words width height pixels) = (3 * (w * h))%nat /\
  (Forall is_word pixels -> Forall is_word (file_words width height pixels)) /\
  forall x j c, (x < w)%nat -> (j < h)%nat -> (c < 3)%nat ->
    get (file_words width height pixels) (3 * w * j + (3 * x + c)) = get pixels (4 * w * (h - 1 - j) + (4 * x + c)).
Proof.
  intros Hl. unfold file_words. fold w h.
  assert (forall j, (j < h)%nat -> length (three_of_four (row w (h - 1 - j) pixels)) = (3 * w)%nat) as Hf.
  { intros j Hj. apply (pixel_row w h); [done|lia]. }
  split_and!.
  - rewrite (length_rows (3 * w)) by done. lia.
  - intros Hw. apply Forall_concat, List.Forall_map, List.Forall_forall. intros j [_ Hj]%in_seq.
    apply (pixel_row w h); [done|lia|done].
  - intros x j c Hx Hj Hc. rewrite (get_rows (3 * w)) by (done || lia). apply (pixel_row w h); [done|lia..].
Qed.

Lemma pfm_data_words width height pixels :
  length pixels = (4 * Z.to_nat width * Z.to_nat height)%nat ->
  String.concat "" (map (fun j => pfm_row (row (Z.to_nat width) (Z.to_nat height - 1 - j) pixels)) (seq 0 (Z.to_nat height))) =
  word_strings (file_words width height pixels).
Proof.
  intros Hl. unfold file_words. rewrite <- str_concat_rows. f_equal. apply map_ext_in. intros j [_ Hj]%in_seq.
  apply (three_of_four_spec (Z.to_nat width)). apply (row_length _ (Z.to_nat height)); [done|lia].
Qed.

(** The reader on a file that the writer has made. *)
Lemma open_written_pfm (alloc : Z -> Z -> option (list Z)) width height pixels mem :
  reads_scale -> 0 <= width < 2 ^ 31 -> 0 <= height < 2 ^ 31 -> alloc width height = Some mem ->
  length pixels = (4 * Z.to_nat width * Z.to_nat height)%nat -> Forall is_word pixels ->
  let ws := file_words width height pixels in
  dt_imageio_open_pfm scan_float alloc "a.pfm" (Some (pfm_write_image width height pixels)) =
    Done (Opened _ DT_IMAGEIO_OK width height
      (flip_rows (Z.to_nat width) (Z.to_nat height)
         (widen_loop false (Z.to_nat width * Z.to_nat height) (ws ++ drop (length ws) mem)))).
Proof.
  intros Hscan Hw Hh Halloc Hpixels Hwords ws.
  destruct (pfm_file_shape width height pixels Hw Hh) as (k & data & -> & Hdata).
  rewrite pfm_data_words in Hdata by done. fold ws in Hdata.
  destruct (file_words_spec width height pixels Hpixels) as (Hlws & Hws & _). specialize (Hws Hwords). fold ws in Hlws, Hws.
  unfold dt_imageio_open_pfm. change (has_extension "a.pfm" [".pfm"]) with true. cbn [negb].
  change (("P" =? "P")%char) with true. change (("F" =? "F")%char) with true. cbv iota.
  assert (forall s, skip_spaces (newline +:+ s) = skip_spaces s) as Hnl by done. rewrite Hnl.
  rewrite skip_spaces_show by lia. rewrite scan_int_show by done. cbn [c_bind].
  assert (forall s, scan_int (" " +:+ s) = scan_int s) as Hsp by done. rewrite Hsp.
  rewrite scan_int_show by done. cbn [c_bind].
  destruct (Hscan k data) as (fl & Hfl & Hneg). rewrite Hfl. cbv iota.
  change (skip_line (newline +:+ data)) with (String "010" data). cbv iota. rewrite Halloc, Hneg. cbn [c_bind].
  assert (words (3 * (Z.to_nat width * Z.to_nat height)) data = ws) as ->; [|done].
  rewrite Hdata, <- Hlws, <- (str_app_nil_r (word_strings ws)). by apply words_strings.
Qed.

(** A float map that the program writes and reads again: result, width and height
    are right, and so is every channel of every pixel, with three exceptions. The
    reader spreads three channels to four from the last pixel to the first within one
    buffer, and overwrites channels of the second and third pixel of the file before
    it has read them: green and blue of the second pixel of the last row and blue of
    the third one come back as their red. *)
Theorem pfm_round_trip (alloc : Z -> Z -> option (list Z)) width height pixels mem
    (Hscan : reads_scale) (Hw : 0 <= width < 2 ^ 31) (Hh : 0 <= height < 2 ^ 31)
    (Halloc : alloc width height = Some mem)
    (Hmem : length mem = (4 * Z.to_nat width * Z.to_nat height)%nat)
    (Hpixels : length pixels = (4 * Z.to_nat width * Z.to_nat height)%nat)
    (Hwords : Forall is_word pixels) :
  exists buf, dt_imageio_open_pfm scan_float alloc "a.pfm" (Some (pfm_write_image width height pixels)) =
      Done (Opened _ DT_IMAGEIO_OK width height buf) /\
    forall x y c, (x < Z.to_nat width)%nat -> (y < Z.to_nat height)%nat -> (c < 3)%nat ->
      let i := (Z.to_nat width * (Z.to_nat height - 1 - y) + x)%nat in
      get buf (4 * (Z.to_nat width * y + x) + c) =
      get pixels (4 * (Z.to_nat width * y + x) + source_channel i c).
Proof.
  set (w := Z.to_nat width) in *. set (h := Z.to_nat height) in *.
  rewrite (open_written_pfm alloc width height pixels mem) by done. fold w h.
  destruct (file_words_spec width height pixels Hpixels) as (Hlws & _ & Hget). fold w h in Hlws, Hget.
  set (ws := file_words width height pixels) in *. set (buf0 := ws ++ drop (length ws) mem).
  assert (length buf0 = (4 * w * h)%nat) as Hl0 by (unfold buf0; rewrite length_app, length_drop; lia).
  destruct (widen_loop_spec (w * h) buf0 ltac:(lia)) as (Hl1 & Hwid & _).
  destruct (flip_rows_spec w h (widen_loop false (w * h) buf0) ltac:(lia)) as [Hl2 Hflip].
  eexists. split; [reflexivity|]. intros x y c Hx Hy Hc i.
  assert (i < w * h)%nat as Hi.
  { assert (w * S (h - 1 - y) <= w * h)%nat by (apply Nat.mul_le_mono_l; lia). unfold i. lia. }
  assert (source_channel i c < 3)%nat as Hc' by (unfold source_channel; destruct (_ || _); lia).
  replace (4 * (w * y + x) + c)%nat with (4 * w * y + (4 * x + c))%nat by lia.
  rewrite <- get_row, Hflip, get_row by lia.
  replace (4 * w * (h - 1 - y) + (4 * x + c))%nat with (4 * i + c)%nat by (unfold i; lia).
  rewrite Hwid by lia.
  transitivity (get ws (3 * w * (h - 1 - y) + (3 * x + source_channel i c))).
  { unfold get, buf0. rewrite lookup_app_l by lia. do 2 f_equal. unfold i. lia. }
  rewrite Hget by lia. f_equal. replace (h - 1 - (h - 1 - y))%nat with y by lia. lia.
Qed.

End round_trip.

(** ** Bytes *)

Definition byte_list (s : string) : list Z := map Z_of_byte (String.list_ascii_of_string s).

Lemma byte_list_app s t : byte_list (s +:+ t) = byte_list s ++ byte_list t.
Proof. unfold byte_list. by rewrite list_ascii_app, map_app. Qed.

Lemma length_byte_list s : length (byte_list s) = String.length s.
Proof. unfold byte_list. by rewrite length_map, length_list_ascii. Qed.

Lemma byte_list_take n s : byte_list (str_take n s) = take n (byte_list s).
Proof. revert s. induction n as [|n IH]; intros [|c s]; try done. cbn. f_equal. apply IH. Qed.

Lemma byte_list_drop n s : byte_list (str_drop n s) = drop n (byte_list s).
Proof. revert s. induction n as [|n IH]; intros [|c s]; try done. cbn. apply IH. Qed.

Lemma fread_spec n s :
  (n <= String.length s)%nat -> fread n s = Some (take n (byte_list s), str_drop n s).
Proof. intros H. unfold fread. destruct (Nat.leb_spec n (String.length s)); [|lia]. by rewrite <- byte_list_take. Qed.

(** Rows that are all there, if a row's pixels do not depend on the rows before. *)
Lemma read_rows_spec rows n convert s :
  (rows * n <= String.length s)%nat -> convert [] = [] ->
  (forall l l', length l = n -> convert (l ++ l') = convert l ++ convert l') ->
  read_rows rows n convert s = (DT_IMAGEIO_OK, convert (take (rows * n) (byte_list s))).
Proof.
  intros Hl H0 Happ. revert s Hl. induction rows as [|rows IH]; intros s Hl; [by rewrite take_0, H0|].
  cbn [read_rows Nat.mul] in *. rewrite fread_spec by lia.
  rewrite IH by (rewrite str_drop_length; lia). f_equal. rewrite byte_list_drop, <- Happ.
  - f_equal. rewrite <- (take_drop n (byte_list s)) at 3. rewrite take_app_ge by (rewrite length_take; lia).
    f_equal. f_equal. rewrite length_take, length_byte_list. lia.
  - rewrite length_take, length_byte_list. lia.
Qed.

Lemma samples_16_app n l l' : length l = (2 * n)%nat -> samples_16 (l ++ l') = samples_16 l ++ samples_16 l'.
Proof.
  revert l. induction n as [|n IH]; intros l Hl; [by apply nil_length_inv in Hl as ->|].
  destruct l as [|a [|b l]]; cbn [length] in Hl; try lia. cbn. f_equal. apply IH. lia.
Qed.

Lemma length_samples_16 n l : length l = (2 * n)%nat -> length (samples_16 l) = n.
Proof.
  revert l. induction n as [|n IH]; intros l Hl; [by apply nil_length_inv in Hl as ->|].
  destruct l as [|a [|b l]]; cbn [length] in Hl; try lia. cbn. f_equal. apply IH. lia.
Qed.

Lemma rgb_app n max l l' : length l = (3 * n)%nat -> rgb max (l ++ l') = rgb max l ++ rgb max l'.
Proof.
  revert l. induction n as [|n IH]; intros l Hl; [by apply nil_length_inv in Hl as ->|].
  destruct l as [|a [|b [|c l]]]; cbn [length] in Hl; try lia. cbn. do 4 f_equal. apply IH. lia.
Qed.

(** The two bytes of a sample, in the order of the file. *)
Definition hi_lo (v : Z) : list Z := [v / 256; v mod 256].
Definition is_sample (v : Z) : Prop := 0 <= v < 65536.

Lemma byte_list_hi_lo vs :
  Forall is_sample vs ->
  byte_list (byte_string (concat (map (fun v => [Z.shiftr v 8; v]) vs))) = concat (map hi_lo vs).
Proof.
  intros Hv. unfold byte_list, byte_string. rewrite String.list_ascii_of_string_of_list_ascii, map_map.
  induction Hv as [|v vs Hv _ IH]; [done|]. cbn [map concat app]. rewrite !Z_of_byte_of_Z, IH.
  unfold hi_lo. cbn [app]. rewrite Z.shiftr_div_pow2 by lia. change (2 ^ 8) with 256.
  f_equal. unfold is_sample in Hv. rewrite Z.mod_small; [done|].
  split; [apply Z.div_pos; lia|apply Z.div_lt_upper_bound; lia].
Qed.

Lemma byte_string_app l l' : byte_string (l ++ l') = byte_string l +:+ byte_string l'.
Proof. unfold byte_string. induction l as [|v l IH]; [done|]. cbn. by rewrite IH. Qed.

Lemma ppm_pixels_bytes n pixels :
  length pixels = (4 * n)%nat ->
  ppm_pixels pixels = byte_string (concat (map (fun v => [Z.shiftr v 8; v]) (three_of_four pixels))).
Proof.
  revert pixels. induction n as [|n IH]; intros l Hl; [by apply nil_length_inv in Hl as ->|].
  destruct l as [|r [|g [|b [|x l]]]]; cbn [length] in Hl; try lia.
  cbn [ppm_pixels three_of_four map concat app]. rewrite (IH l) by lia.
  rewrite <- byte_string_app. done.
Qed.

(** Each sample has the low byte of the one before as its high byte. *)
Definition shifted (p : Z) (vs : list Z) : list Z := zip_with (fun p v => p mod 256 * 256 + v / 256) (p :: vs) vs.

Lemma samples_shifted p vs :
  samples_16 (take (2 * length vs) (p mod 256 :: concat (map hi_lo vs))) = shifted p vs.
Proof.
  revert p. induction vs as [|v vs IH]; intros p; [done|].
  replace (2 * length (v :: vs))%nat with (S (S (2 * length vs))) by (cbn [length]; lia).
  unfold shifted. cbn [map concat hi_lo app take samples_16 zip_with]. f_equal. apply IH.
Qed.

Lemma three_of_four_length n l : length l = (4 * n)%nat -> length (three_of_four l) = (3 * n)%nat.
Proof. intros H. by apply (three_of_four_spec n). Qed.

Lemma three_of_four_Forall (P : Z -> Prop) l : Forall P l -> Forall P (three_of_four l).
Proof.
  assert (forall n l, (length l <= n)%nat -> Forall P l -> Forall P (three_of_four l)) as H; [|exact (H (length l) l (le_n _))].
  clear l. intros n. induction n as [|n IH]; intros l Hl Hf; [by destruct l; [constructor|cbn in Hl; lia]|].
  destruct l as [|r [|g [|b [|x l]]]]; cbn [three_of_four]; [constructor..|]; cbn in Hl.
  do 4 (apply Forall_cons in Hf as [? Hf]). do 3 (constructor; [done|]). apply IH; [lia|done].
Qed.

(** A pixmap that the program writes and reads again is read without an error,
    with the right size, and wrong: the reader takes the number behind the size and
    leaves the end of line behind it, so that the pixels begin one byte early. Every
    sample is put together from the low byte of the one before it, the first one from
    the line end, and its own high byte. *)
Theorem ppm_read_shifted (alloc : Z -> Z -> bool) width height pixels
    (Hw : 0 <= width < 2 ^ 31) (Hh : 0 <= height < 2 ^ 31) (Halloc : alloc width height = true)
    (Hpixels : length pixels = (4 * (Z.to_nat width * Z.to_nat height))%nat)
    (Hsamples : Forall is_sample pixels) :
  dt_imageio_open_pnm alloc "a.ppm" (Some (ppm_write_image width height pixels)) =
    Done (Opened _ DT_IMAGEIO_OK width height (rgb 65535 (shifted 10 (three_of_four pixels)))).
Proof.
  set (w := Z.to_nat width) in *. set (h := Z.to_nat height) in *.
  set (vs := three_of_four pixels).
  assert (length vs = (3 * (w * h))%nat) as Hvs by (apply three_of_four_length; done).
  assert (Forall is_sample vs) as Hvf by by apply three_of_four_Forall.
  unfold ppm_write_image. fold w h.
  rewrite firstn_all2 by lia. rewrite (ppm_pixels_bytes _ _ Hpixels). fold vs.
  set (data := byte_string _). pose proof (byte_list_hi_lo vs Hvf) as Hdata. fold data in Hdata.
  change ("P6" +:+ newline +:+ ?x) with (String "P" (String "6" (newline +:+ x))).
  unfold dt_imageio_open_pnm. change (has_extension "a.ppm" _) with true. cbn [negb].
  change (("P" =? "P")%char) with true. cbn [negb].
  assert (forall s, skip_spaces (newline +:+ s) = skip_spaces s) as Hnl by done. rewrite Hnl.
  rewrite skip_spaces_show by lia. rewrite scan_int_show by done. cbn [c_bind].
  assert (forall s, scan_int (" " +:+ s) = scan_int s) as Hsp by done. rewrite Hsp.
  rewrite scan_int_show by done. cbn [c_bind]. rewrite Hnl, Halloc. fold w h. cbn [negb].
  change (("6" =? "4")%char) with false. change (("6" =? "5")%char) with false. change (("6" =? "6")%char) with true. cbv iota.
  change (skip_spaces ("65535" +:+ ?x)) with ("65535" +:+ x).
  assert (_read_ppm w h ("65535" +:+ newline +:+ data) =
          (DT_IMAGEIO_OK, rgb 65535 (shifted 10 vs))) as ->; [|done].
  unfold _read_ppm. change (scan_unsigned ("65535" +:+ newline +:+ data)) with (Some (65535, newline +:+ data)).
  cbv iota beta. change (65535 <? 65535) with false. change (65535 <=? 255) with false. cbv iota.
  assert (length (concat (map hi_lo vs)) = (2 * length vs)%nat) as Hlen.
  { clear. induction vs as [|v vs IH]; [done|]. cbn [map concat]. rewrite length_app, IH. cbn. lia. }
  rewrite read_rows_spec.
  - do 2 f_equal. rewrite byte_list_app, Hdata. change (byte_list newline) with [10 mod 256].
    cbn [app]. rewrite <- samples_shifted. rewrite Hvs. do 2 f_equal; lia.
  - rewrite str_length_app, <- (length_byte_list data), Hdata, Hlen, Hvs. cbn [String.length newline]. lia.
  - done.
  - intros l l' Hl. rewrite (samples_16_app (3 * w)) by done. apply (rgb_app w). by apply length_samples_16.
Qed.

(** ** Witnesses *)

Fixpoint skip_zeros (s : string) : string :=
  match s with String "0" s => skip_zeros s | _ => s end.

(** A [%f] that knows one number. *)
Definition scan_minus_one (s : string) : option (spec_float * string) :=
  match skip_spaces s with
  | String "-" (String "1" (String "." s)) => Some (S754_finite true 1 0, skip_zeros s)
  | _ => None
  end.

Lemma scan_minus_one_reads : reads_scale scan_minus_one.
Proof.
  intros k rest. exists (S754_finite true 1 0). split; [|done].
  change (scan_minus_one _) with (Some (S754_finite true 1 0, skip_zeros (zeros k +:+ newline +:+ rest))).
  do 2 f_equal. by induction k.
Qed.

Lemma pfm_round_trip_witness :
  exists buf, dt_imageio_open_pfm scan_minus_one (fun _ _ => Some (repeat 7 8)) "a.pfm"
      (Some (pfm_write_image 2 1 (map Z.of_nat (seq 1 8)))) = Done (Opened _ DT_IMAGEIO_OK 2 1 buf) /\
    get buf 5 = 5.
Proof.
  destruct (pfm_round_trip scan_minus_one (fun _ _ => Some (repeat 7 8)) 2 1 (map Z.of_nat (seq 1 8)) (repeat 7 8)
              scan_minus_one_reads) as (buf & Hbuf & Hget);
    [lia|lia|reflexivity|reflexivity|reflexivity| |].
  - repeat constructor; unfold is_word; lia.
  - exists buf. split; [exact Hbuf|]. exact (Hget 1%nat 0%nat 1%nat ltac:(lia) ltac:(lia) ltac:(lia)).
Defined.

Lemma ppm_read_shifted_witness :
  dt_imageio_open_pnm (fun _ _ => true) "a.ppm" (Some (ppm_write_image 1 1 [256; 513; 770; 0])) =
    Done (Opened _ DT_IMAGEIO_OK 1 1 (rgb 65535 [2561; 2; 259])).
Proof.
  apply (ppm_read_shifted (fun _ _ => true) 1 1 [256; 513; 770; 0]); [lia|lia|reflexivity|reflexivity|].
  repeat constructor; unfold is_sample; lia.
Defined.
