(* ===== verification/Rows.v ===== *)
(** Copying of rectangles of bytes between buffers, row by row, as the pixel pipe and
    the tiling do it, and which byte of the result comes from where. *)

From Stdlib Require Import Ascii.
From S2P Require Import Prelude.
Local Open Scope Z_scope.

(** [memcpy(out + at_, bytes, ...)] inside of [out]. *)
Definition put_bytes {A} (at_ : nat) (bytes out : list A) : list A :=
  take at_ out ++ bytes ++ drop (at_ + length bytes) out.

(** [rows] times [memcpy(dst + dst_off + j * dst_pitch, src + src_off + j * src_pitch, n)];
    reading or writing outside the buffers is undefined. *)
Fixpoint copy_rows {A} (rows : nat) (src : list A) (src_off src_pitch : Z) (dst : list A) (dst_off dst_pitch n : Z)
    : c_result (list A) :=
  match rows with
  | O => Done dst
  | S rows =>
      if (0 <=? n) && (0 <=? src_off) && (0 <=? dst_off) &&
         (src_off + n <=? Z.of_nat (length src)) && (dst_off + n <=? Z.of_nat (length dst))
      then copy_rows rows src (src_off + src_pitch) src_pitch
             (put_bytes (Z.to_nat dst_off) (take (Z.to_nat n) (drop (Z.to_nat src_off) src)) dst)
             (dst_off + dst_pitch) dst_pitch n
      else Undefined
  end.

(** The byte at an offset. *)
Definition byte_at {A} (buf : list A) (i : Z) : option A := buf !! Z.to_nat i.

Lemma length_put {A} at_ (bytes out : list A) :
  (at_ + length bytes <= length out)%nat -> length (put_bytes at_ bytes out) = length out.
Proof. intros H. unfold put_bytes. rewrite !length_app, length_take, length_drop. lia. Qed.

Lemma put_inside {A} at_ (bytes out : list A) i :
  (at_ + length bytes <= length out)%nat -> (at_ <= i < at_ + length bytes)%nat ->
  put_bytes at_ bytes out !! i = bytes !! (i - at_)%nat.
Proof.
  intros H Hi. unfold put_bytes. rewrite lookup_app_r by (rewrite length_take; lia).
  rewrite length_take, Nat.min_l by lia. by rewrite lookup_app_l by lia.
Qed.

Lemma put_outside {A} at_ (bytes out : list A) i :
  (at_ + length bytes <= length out)%nat -> (i < at_ \/ at_ + length bytes <= i)%nat ->
  put_bytes at_ bytes out !! i = out !! i.
Proof.
  intros H Hi. unfold put_bytes. destruct (decide (i < at_)%nat) as [Hlt|Hge].
  - rewrite lookup_app_l by (rewrite length_take; lia). by rewrite lookup_take_lt.
  - rewrite lookup_app_r by (rewrite length_take; lia). rewrite length_take, Nat.min_l by lia.
    rewrite lookup_app_r by lia. rewrite lookup_drop. f_equal. lia.
Qed.

(** Several [memcpy(dst + d, src + s, n)] for pairs [(s, d)] one after the other. *)
Fixpoint moves {A} (l : list (Z * Z)) (n : Z) (src dst : list A) : c_result (list A) :=
  match l with
  | [] => Done dst
  | (s, d) :: l =>
      if (0 <=? n) && (0 <=? s) && (0 <=? d) && (s + n <=? Z.of_nat (length src)) && (d + n <=? Z.of_nat (length dst))
      then moves l n src (put_bytes (Z.to_nat d) (take (Z.to_nat n) (drop (Z.to_nat s) src)) dst)
      else Undefined
  end.

Lemma moves_app {A} l1 l2 n (src dst : list A) :
  moves (l1 ++ l2) n src dst = let* dst := moves l1 n src dst in moves l2 n src dst.
Proof. revert dst. induction l1 as [|[s d] l1 IH]; intros dst; [done|]. cbn [app moves]. by case_match. Qed.

(** The places that [copy_rows] copies from and to. *)
Definition row_moves (rows : nat) (src_off src_pitch dst_off dst_pitch : Z) : list (Z * Z) :=
  (fun j : nat => (src_off + Z.of_nat j * src_pitch, dst_off + Z.of_nat j * dst_pitch)) <$> seq 0 rows.

Lemma copy_rows_moves {A} rows (src : list A) src_off src_pitch dst dst_off dst_pitch n :
  copy_rows rows src src_off src_pitch dst dst_off dst_pitch n =
  moves (row_moves rows src_off src_pitch dst_off dst_pitch) n src dst.
Proof.
  revert src_off dst dst_off. induction rows as [|rows IH]; intros src_off dst dst_off; [done|].
  cbn [copy_rows]. unfold row_moves. cbn [seq fmap list_fmap]. rewrite !Z.mul_0_l, !Z.add_0_r. cbn [moves].
  case_match; [|done]. rewrite IH. f_equal. unfold row_moves. rewrite <- fmap_S_seq, <- list_fmap_compose.
  apply list_fmap_ext. intros _ j _. cbn. f_equal; lia.
Qed.

Lemma elem_of_row_moves rows src_off src_pitch dst_off dst_pitch m :
  m ∈ row_moves rows src_off src_pitch dst_off dst_pitch <->
  exists j, 0 <= j < Z.of_nat rows /\ m = (src_off + j * src_pitch, dst_off + j * dst_pitch).
Proof.
  unfold row_moves. rewrite list_elem_of_fmap. split.
  - intros (j & -> & [_ Hj]%elem_of_seq). exists (Z.of_nat j). split; [lia|done].
  - intros (j & Hj & ->). exists (Z.to_nat j). split; [by rewrite Z2Nat.id by lia|]. apply elem_of_seq. lia.
Qed.

(** Copying inside of both buffers to places that do not overlap is defined; all pieces
    arrive and the bytes outside of them stay. *)
Lemma moves_spec {A} l n (src dst : list A) :
  0 <= n ->
  (forall s d, (s, d) ∈ l -> 0 <= s /\ 0 <= d /\ s + n <= Z.of_nat (length src) /\ d + n <= Z.of_nat (length dst)) ->
  (forall m m', m ∈ l -> m' ∈ l -> m = m' \/ m.2 + n <= m'.2 \/ m'.2 + n <= m.2) ->
  exists dst', moves l n src dst = Done dst' /\ length dst' = length dst /\
    (forall s d c, (s, d) ∈ l -> 0 <= c < n -> byte_at dst' (d + c) = byte_at src (s + c)) /\
    (forall i, 0 <= i -> (forall s d, (s, d) ∈ l -> i < d \/ d + n <= i) -> byte_at dst' i = byte_at dst i).
Proof.
  intros Hn. revert dst. induction l as [|[s d] l IH]; intros dst Hin Hdis.
  { exists dst. split_and!; try done. intros s d c Hs. by apply elem_of_nil in Hs. }
  destruct (Hin s d) as (Hs & Hd & Hsn & Hdn); [by left|]. cbn [moves].
  assert (((0 <=? n) && (0 <=? s) && (0 <=? d) && (s + n <=? Z.of_nat (length src)) && (d + n <=? Z.of_nat (length dst))) = true) as ->
    by (rewrite !andb_true_iff, !Z.leb_le; lia).
  set (bytes := take _ (drop _ src)).
  assert (length bytes = Z.to_nat n) as Hlen by (unfold bytes; rewrite length_take, length_drop; lia).
  assert (length (put_bytes (Z.to_nat d) bytes dst) = length dst) as Hput by (apply length_put; lia).
  destruct (IH (put_bytes (Z.to_nat d) bytes dst)) as (dst' & -> & Hl & Hto & Hout).
  { intros s' d' Hm. rewrite Hput. apply Hin. by right. }
  { intros m m' Hm Hm'. apply Hdis; by right. }
  exists dst'. split_and!; [done|lia| |].
  - intros s' d' c Hm Hc. destruct (decide ((s', d') ∈ l)) as [Hl'|Hl']; [by apply Hto|].
    apply elem_of_cons in Hm as [[= -> ->]|]; [|done]. rewrite Hout; [|lia|].
    + unfold byte_at. rewrite put_inside by lia. unfold bytes. rewrite lookup_take_lt by lia. rewrite lookup_drop. f_equal. lia.
    + intros s' d' Hm. destruct (Hdis (s, d) (s', d')) as [He|He]; [by left|by right|by rewrite He in Hl'|cbn in He; lia].
  - intros i Hi Hnot. rewrite Hout; [|done|].
    + unfold byte_at. apply put_outside; [lia|]. specialize (Hnot s d ltac:(by left)). lia.
    + intros s' d' Hm. apply (Hnot s' d'). by right.
Qed.

(** Copying rows inside of both buffers is defined; the bytes of the rectangle come from the
    source and all others stay. *)
Lemma copy_rows_spec {A} rows (src : list A) src_off src_pitch dst dst_off dst_pitch n :
  0 <= n <= dst_pitch -> 0 <= src_pitch -> 0 <= src_off -> 0 <= dst_off ->
  (rows <> 0%nat -> src_off + (Z.of_nat rows - 1) * src_pitch + n <= Z.of_nat (length src)) ->
  (rows <> 0%nat -> dst_off + (Z.of_nat rows - 1) * dst_pitch + n <= Z.of_nat (length dst)) ->
  exists dst', copy_rows rows src src_off src_pitch dst dst_off dst_pitch n = Done dst' /\ length dst' = length dst /\
    (forall j c, 0 <= j < Z.of_nat rows -> 0 <= c < n ->
       byte_at dst' (dst_off + j * dst_pitch + c) = byte_at src (src_off + j * src_pitch + c)) /\
    (forall i, 0 <= i -> (forall j, 0 <= j < Z.of_nat rows -> i < dst_off + j * dst_pitch \/ dst_off + j * dst_pitch + n <= i) ->
       byte_at dst' i = byte_at dst i).
Proof.
  intros Hn Hsp Hso Hdo Hsrc Hdst. rewrite copy_rows_moves.
  destruct (moves_spec (row_moves rows src_off src_pitch dst_off dst_pitch) n src dst) as (dst' & -> & Hl & Hto & Hout); [lia|..].
  - intros s d Hm. apply elem_of_row_moves in Hm as (j & Hj & [= -> ->]).
    assert (0 <= j * src_pitch /\ 0 <= j * dst_pitch) as [] by (split; apply Z.mul_nonneg_nonneg; lia).
    assert (j * src_pitch <= (Z.of_nat rows - 1) * src_pitch /\ j * dst_pitch <= (Z.of_nat rows - 1) * dst_pitch) as []
      by (split; apply Z.mul_le_mono_nonneg_r; lia). lia.
  - intros m m' Hm Hm'. apply elem_of_row_moves in Hm as (j & Hj & ->), Hm' as (j' & Hj' & ->). cbn.
    destruct (Z.lt_trichotomy j j') as [Hlt|[->|Hlt]]; [right; left|by left|right; right].
    + assert ((j + 1) * dst_pitch <= j' * dst_pitch) by (apply Z.mul_le_mono_nonneg_r; lia). lia.
    + assert ((j' + 1) * dst_pitch <= j * dst_pitch) by (apply Z.mul_le_mono_nonneg_r; lia). lia.
  - exists dst'. split_and!; [done|done| |].
    + intros j c Hj Hc. apply Hto; [|done]. apply elem_of_row_moves. by exists j.
    + intros i Hi Hnot. apply Hout; [done|]. intros s d Hm. apply elem_of_row_moves in Hm as (j & Hj & [= -> ->]). by apply Hnot.
Qed.
