(* ===== verification/Pixelpipe.v ===== *)
(** The pixel pipe of develop/pixelpipe_hb.c: its nodes, how they follow the history,
    and how an image is processed through the cache.

    A node is a [dt_dev_pixelpipe_iop_t]; what the cache hashes of it is the record of
    [PixelpipeCache]. The functions that a module brings with it (iop/*.c) are the
    class [iop_api]: [D] is what a module keeps per node behind piece->data. The lists
    pipe->iop and pipe->nodes are made together and have equal lengths: the module of
    a node is its [p_module]. *)

From Stdlib Require Import Ascii String SpecFloat.
From S2P Require Import Prelude Floats Utility IopOrder IopModules Undo History PixelpipeCache.
Local Open Scope Z_scope.

(** ** Data *)

Record dt_iop_roi_t := Roi {
  roi_x : Z;
  roi_y : Z;
  roi_width : Z;
  roi_height : Z;
  roi_scale : spec_float;
}.

Inductive dt_iop_buffer_type_t := TYPE_UNKNOWN | TYPE_FLOAT | TYPE_UINT16.

(** [other_dsc]: the Bayer pattern, white balance and work profile. *)
Record dt_iop_buffer_dsc_t := Buffer_dsc {
  channels : Z;
  datatype : dt_iop_buffer_type_t;
  processed_maximum : list spec_float;
  cst : Z;
  other_dsc : list ascii;
}.

Definition dt_iop_buffer_dsc_to_bpp (dsc : dt_iop_buffer_dsc_t) : c_result Z :=
  match datatype dsc with
  | TYPE_FLOAT => Done (channels dsc * 4)
  | TYPE_UINT16 => Done (channels dsc * 2)
  | TYPE_UNKNOWN => Undefined
  end.

Definition set_channels (v : Z) (dsc : dt_iop_buffer_dsc_t) : dt_iop_buffer_dsc_t :=
  Buffer_dsc v (datatype dsc) (processed_maximum dsc) (cst dsc) (other_dsc dsc).
Definition set_cst (v : Z) (dsc : dt_iop_buffer_dsc_t) : dt_iop_buffer_dsc_t :=
  Buffer_dsc (channels dsc) (datatype dsc) (processed_maximum dsc) v (other_dsc dsc).

Definition no_dsc : dt_iop_buffer_dsc_t := Buffer_dsc 0 TYPE_UNKNOWN [] 0 [].
Definition no_roi : dt_iop_roi_t := Roi 0 0 0 0 (S754_zero false).
Definition no_blend : dt_develop_blend_params_t := Blend 0 "" 0 0 [].

Definition IOP_TAG_DISTORT : Z := Z.shiftl 1 0.
Definition IOP_FLAGS_ALLOW_TILING : Z := Z.shiftl 1 4.
Definition DT_DEV_PIXELPIPE_PREVIEW : Z := Z.shiftl 1 2.

(** What processing a module can change besides its output: pipe->dsc,
    pipe->mask_display, and the number of colours of a pixel, piece->colors, which
    is handed on through pipe->colors. *)
Record flow := Flow { f_dsc : dt_iop_buffer_dsc_t; f_mask_display : Z; f_colors : Z }.

(** ** The functions of a module

    Each gets the operation's name and the data of the node, and what else it reads. *)

Class iop_api (D : Type) := Iop_api {
  init_pipe : string -> D;
  (* parameters, data, tiling flag: the new data, whether the node stays enabled, the tiling flag *)
  commit_params : string -> list ascii -> D -> bool -> D * bool * bool;
  modify_roi_out : string -> D -> dt_iop_roi_t -> dt_iop_roi_t;
  modify_roi_in : string -> D -> dt_iop_roi_t -> dt_iop_roi_t;
  (* with the module, for its place in the pipe, and pipe->dsc *)
  output_format : string -> nat -> D -> dt_iop_buffer_dsc_t -> dt_iop_buffer_dsc_t -> dt_iop_buffer_dsc_t;
  default_colors : string -> bool;      (* default_colorspace is iop_cs_RAW *)
  input_colorspace : string -> D -> Z;
  output_colorspace : string -> D -> Z;
  blend_colorspace : string -> D -> Z;
  (* dt_ioppr_transform_image_colorspace: from, to; the pixels and the space they are in *)
  transform_colorspace : string -> list ascii -> Z -> Z -> list ascii * Z;
  (* piece->dsc_in, input, the region it is for, the wanted region: output, and the flow *)
  process : string -> D -> dt_iop_buffer_dsc_t -> list ascii -> dt_iop_roi_t -> dt_iop_roi_t -> flow -> list ascii * flow;
  process_tiling : string -> D -> dt_iop_buffer_dsc_t -> list ascii -> dt_iop_roi_t -> dt_iop_roi_t -> flow -> list ascii * flow;
  (* tiling_callback and dt_tiling_piece_fits_host_memory for the larger bytes per pixel *)
  fits_host_memory : string -> D -> dt_iop_roi_t -> dt_iop_roi_t -> Z -> bool;
  (* dt_develop_blend_process on input and output *)
  blend_process : string -> dt_develop_blend_params_t -> list ascii -> list ascii ->
                  dt_iop_roi_t -> dt_iop_roi_t -> flow -> list ascii * flow;
  (* dt_iop_clip_and_zoom: input, wanted region, region of the input *)
  clip_and_zoom : list ascii -> dt_iop_roi_t -> dt_iop_roi_t -> list ascii;
}.

(** ** Nodes *)

Section nodes.
Context {D : Type} {api : iop_api D}.

Record node := Node {
  n_piece : dt_dev_pixelpipe_iop_t;
  n_op : string;
  n_flags : Z;
  n_data : D;
  n_blendop_data : dt_develop_blend_params_t;
  n_colors : Z;
  n_tiling_ready : bool;
  n_buf_in : dt_iop_roi_t;
  n_buf_out : dt_iop_roi_t;
}.

Definition set_piece (v : dt_dev_pixelpipe_iop_t) (n : node) : node :=
  Node v (n_op n) (n_flags n) (n_data n) (n_blendop_data n) (n_colors n) (n_tiling_ready n) (n_buf_in n) (n_buf_out n).
Definition set_p_enabled (v : bool) (p : dt_dev_pixelpipe_iop_t) : dt_dev_pixelpipe_iop_t :=
  Piece (p_module p) (p_hash p) v (p_operation_tags p) (p_request_color_pick p) (p_color_picker_box p) (p_color_picker_point p).
Definition set_p_hash (v : Z) (p : dt_dev_pixelpipe_iop_t) : dt_dev_pixelpipe_iop_t :=
  Piece (p_module p) v (p_enabled p) (p_operation_tags p) (p_request_color_pick p) (p_color_picker_box p) (p_color_picker_point p).
Definition n_set_enabled (v : bool) (n : node) : node := set_piece (set_p_enabled v (n_piece n)) n.
Definition n_set_hash (v : Z) (n : node) : node := set_piece (set_p_hash v (n_piece n)) n.

Definition n_module (n : node) : nat := p_module (n_piece n).
Definition n_enabled (n : node) : bool := p_enabled (n_piece n).

(** The part of a [dt_dev_pixelpipe_t] that is about nodes. *)
Record pipe_t := Pipe_t {
  pp_nodes : list node;
  pp_iop_order_list : list dt_iop_order_entry_t;
  pp_changed : Z;
  pp_iwidth : Z;
  pp_iheight : Z;
  pp_processed_width : Z;
  pp_processed_height : Z;
  pp_raw : bool;       (* dt_image_is_raw of the image *)
  pp_shutdown : bool;
}.

Definition set_nodes (v : list node) (p : pipe_t) : pipe_t :=
  Pipe_t v (pp_iop_order_list p) (pp_changed p) (pp_iwidth p) (pp_iheight p) (pp_processed_width p)
         (pp_processed_height p) (pp_raw p) (pp_shutdown p).

(** ** The hash of the parameters *)

(** The size of a struct, and the bytes of blend parameters. *)
Context (blend_bytes : dt_develop_blend_params_t -> list ascii) (mask_id : dt_develop_blend_params_t -> Z).

Definition DT_MASKS_GROUP : Z := Z.shiftl 1 2.

Definition dt_masks_get_from_id_ext (forms : list dt_masks_form_t) (id : Z) : option dt_masks_form_t :=
  List.find (fun f => formid f =? id) forms.

(** A point of a group: formid, parentid, state, opacity. *)
Definition group_formid (point : list ascii) : Z := load_s32 (take 4 point).
Definition group_state_opacity (point : list ascii) : list ascii := take 8 (drop 8 point).

(** The recursion into groups ends if no group contains itself; [None] otherwise. *)
Fixpoint dt_masks_group_get_hash_buffer (fuel : nat) (forms : list dt_masks_form_t) (form : dt_masks_form_t)
    : option (list ascii) :=
  match fuel with
  | O => None
  | S fuel =>
      let point (p : list ascii) : option (list ascii) :=
        if negb (Z.land (form_type form) DT_MASKS_GROUP =? 0) then
          match dt_masks_get_from_id_ext forms (group_formid p) with
          | Some f => b ← dt_masks_group_get_hash_buffer fuel forms f; Some (group_state_opacity p ++ b)
          | None => Some []
          end
        else Some (take (point_struct_size form) p) in
      points ← mapM point (form_points form);
      Some (store_s32 (form_type form) ++ store_s32 (formid form) ++ store_s32 (form_version form) ++
            take 8 (form_source form) ++ concat points)
  end.

Fixpoint dt_masks_group_get_hash_buffer_length (fuel : nat) (forms : list dt_masks_form_t) (form : dt_masks_form_t)
    : option nat :=
  match fuel with
  | O => None
  | S fuel =>
      let point (p : list ascii) : option nat :=
        if negb (Z.land (form_type form) DT_MASKS_GROUP =? 0) then
          match dt_masks_get_from_id_ext forms (group_formid p) with
          | Some f => n ← dt_masks_group_get_hash_buffer_length fuel forms f; Some (8 + n)%nat
          | None => Some 0%nat
          end
        else Some (point_struct_size form) in
      points ← mapM point (form_points form);
      Some (4 + 4 + 4 + 8 + list_sum points)%nat
  end.

(** The bytes that are hashed. The buffer is as long as the lengths say: more bytes do
    not fit, and the bytes of a shorter one would not be determined. *)
Definition hashed_params (fuel : nat) (m : module_t) (blendop_params : dt_develop_blend_params_t)
    (forms : list dt_masks_form_t) : option (c_result (list ascii)) :=
  let blends := negb (Z.land (mod_flags (m_base m)) IOP_FLAGS_SUPPORTS_BLENDING =? 0) in
  let bp := if blends then blend_bytes blendop_params else [] in
  masks ← match dt_masks_get_from_id_ext forms (mask_id blendop_params) with
          | Some grp =>
              n ← dt_masks_group_get_hash_buffer_length fuel forms grp;
              b ← dt_masks_group_get_hash_buffer fuel forms grp;
              Some (n, b)
          | None => Some (0%nat, [])
          end;
  Some (if (m_params_size m <=? length (m_params m))%nat && (length (snd masks) =? fst masks)%nat
        then Done (take (m_params_size m) (m_params m) ++ bp ++ snd masks) else Undefined).

Definition params_hash (str : list ascii) : Z := hash_bytes 5381 str.

(** dt_iop_commit_params, with darktable.develop as [d]. *)
Definition dt_iop_commit_params (fuel : nat) (ptr : nat) (params : list ascii)
    (blendop_params : dt_develop_blend_params_t) (d : develop_t) (n : node)
    : option (c_result (node * develop_t)) :=
  let n := n_set_hash 0 n in
  if n_enabled n then
    match deref d ptr with
    | Undefined => Some Undefined
    | Done m =>
        str ← hashed_params fuel m blendop_params (d_forms d);
        Some (
          let* str := str in
          let* d := dt_iop_commit_blend_params ptr blendop_params d in
          let tiling := if negb (Z.land (mod_flags (m_base m)) IOP_FLAGS_ALLOW_TILING =? 0)
                        then true else n_tiling_ready n in
          let '(data, enabled, tiling) := commit_params (mod_op (m_base m)) params (n_data n) tiling in
          let n := Node (set_p_hash (params_hash str) (set_p_enabled enabled (n_piece n))) (n_op n) (n_flags n)
                        data blendop_params (n_colors n) tiling (n_buf_in n) (n_buf_out n) in
          Done (n, d))
    end
  else Some (Done (n, d)).

(** ** The nodes follow the modules and the history *)

(** The tags of an operation, and the colour picker of a module as the hash sees it. *)
Context (operation_tags : string -> Z) (picker : nat -> bool * list ascii * list ascii).

Definition new_node (pipe : pipe_t) (m : module_t) : node :=
  let ptr := mod_ptr (m_base m) in
  let op := mod_op (m_base m) in
  let '(request, box, point) := picker ptr in
  Node (Piece ptr 0 (mod_enabled (m_base m)) (operation_tags op) request box point)
       op (mod_flags (m_base m)) (init_pipe op) no_blend
       (if default_colors op && pp_raw pipe then 1 else 4) false no_roi no_roi.

Fixpoint new_nodes (pipe : pipe_t) (d : develop_t) (iop : list nat) : c_result (list node) :=
  match iop with
  | [] => Done []
  | ptr :: iop =>
      let* m := deref d ptr in
      let* ns := new_nodes pipe d iop in
      Done (new_node pipe m :: ns)
  end.

Definition dt_dev_pixelpipe_cleanup_nodes (pipe : pipe_t) : pipe_t :=
  Pipe_t [] [] (pp_changed pipe) (pp_iwidth pipe) (pp_iheight pipe) (pp_processed_width pipe)
         (pp_processed_height pipe) (pp_raw pipe) true.

(** The nodes must have been cleaned up. *)
Definition dt_dev_pixelpipe_create_nodes (pipe : pipe_t) (d : develop_t) : c_result pipe_t :=
  match pp_nodes pipe with
  | _ :: _ => Undefined
  | [] =>
      let* ns := new_nodes pipe d (d_iop d) in
      Done (Pipe_t ns (d_iop_order_list d) (pp_changed pipe) (pp_iwidth pipe) (pp_iheight pipe)
                   (pp_processed_width pipe) (pp_processed_height pipe) (pp_raw pipe) false)
  end.

(** A commit to each of the nodes that [sel] chooses, in order. *)
Fixpoint commit_nodes (fuel : nat) (sel : node -> option (node * list ascii * dt_develop_blend_params_t))
    (ns : list node) (d : develop_t) : option (c_result (list node * develop_t)) :=
  match ns with
  | [] => Some (Done ([], d))
  | n :: ns =>
      r ← match sel n with
          | Some (n, params, bp) => dt_iop_commit_params fuel (n_module n) params bp d n
          | None => Some (Done (n, d))
          end;
      match r with
      | Undefined => Some Undefined
      | Done (n, d) =>
          r ← commit_nodes fuel sel ns d;
          Some (let* (ns, d) := r in Done (n :: ns, d))
      end
  end.

(** One item of the history into the nodes of its module. *)
Definition dt_dev_pixelpipe_synch (fuel : nat) (hist : item_t) (ns : list node) (d : develop_t)
    : option (c_result (list node * develop_t)) :=
  commit_nodes fuel (fun n =>
    if (n_module n =? h_module hist)%nat
    then Some (n_set_enabled (h_enabled hist) n, h_params hist, h_blend_params hist) else None) ns d.

Fixpoint synch_items (fuel : nat) (items : list item_t) (ns : list node) (d : develop_t)
    : option (c_result (list node * develop_t)) :=
  match items with
  | [] => Some (Done (ns, d))
  | h :: items =>
      r ← dt_dev_pixelpipe_synch fuel h ns d;
      match r with Undefined => Some Undefined | Done (ns, d) => synch_items fuel items ns d end
  end.

(** The defaults of a module into its node. *)
Fixpoint reset_nodes (fuel : nat) (ns : list node) (d : develop_t) : option (c_result (list node * develop_t)) :=
  match ns with
  | [] => Some (Done ([], d))
  | n :: ns =>
      match deref d (n_module n) with
      | Undefined => Some Undefined
      | Done m =>
          let n := n_set_enabled (mod_default_enabled (m_base m)) (n_set_hash 0 n) in
          r ← dt_iop_commit_params fuel (n_module n) (m_default_params m) (m_default_blendop_params m) d n;
          match r with
          | Undefined => Some Undefined
          | Done (n, d) =>
              r ← reset_nodes fuel ns d;
              Some (let* (ns, d) := r in Done (n :: ns, d))
          end
      end
  end.

Definition dt_dev_pixelpipe_synch_all (fuel : nat) (pipe : pipe_t) (d : develop_t)
    : option (c_result (pipe_t * develop_t)) :=
  r ← reset_nodes fuel (pp_nodes pipe) d;
  match r with
  | Undefined => Some Undefined
  | Done (ns, d) =>
      r ← synch_items fuel (take (Z.to_nat (d_history_end d)) (d_history d)) ns d;
      Some (let* (ns, d) := r in Done (set_nodes ns pipe, d))
  end.

Definition dt_dev_pixelpipe_synch_top (fuel : nat) (pipe : pipe_t) (d : develop_t)
    : option (c_result (pipe_t * develop_t)) :=
  match g_list_nth (d_history d) (d_history_end d - 1) with
  | None => Some (Done (pipe, d))
  | Some hist =>
      r ← dt_dev_pixelpipe_synch fuel hist (pp_nodes pipe) d;
      Some (let* (ns, d) := r in Done (set_nodes ns pipe, d))
  end.

(** The filter of the module that has the focus, if any. *)
Context (gui_module_filter : option Z).

Definition skipped (n : node) : bool := negb (n_enabled n) || filtered_out gui_module_filter (n_piece n).

(** The nodes with their full regions, and the last region. *)
Fixpoint dimensions (roi_in : dt_iop_roi_t) (ns : list node) : list node * dt_iop_roi_t :=
  match ns with
  | [] => ([], roi_in)
  | n :: ns =>
      let roi_out := if skipped n then roi_in else modify_roi_out (n_op n) (n_data n) roi_in in
      let n := Node (n_piece n) (n_op n) (n_flags n) (n_data n) (n_blendop_data n) (n_colors n)
                    (n_tiling_ready n) roi_in roi_out in
      let '(ns, roi) := dimensions roi_out ns in
      (n :: ns, roi)
  end.

(** Without any node the result is an uninitialised variable. *)
Definition dt_dev_pixelpipe_get_dimensions (pipe : pipe_t) (width_in height_in : Z) : c_result (pipe_t * (Z * Z)) :=
  match pp_nodes pipe with
  | [] => Undefined
  | _ =>
      let '(ns, roi) := dimensions (Roi 0 0 width_in height_in (float_of 24 false 1)) (pp_nodes pipe) in
      Done (set_nodes ns pipe, (roi_width roi, roi_height roi))
  end.

Definition DT_DEV_PIPE_UNCHANGED : Z := 0.
Definition DT_DEV_PIPE_ZOOMED : Z := Z.shiftl 1 3.

Definition has_flag (flag : Z) (pipe : pipe_t) : bool := negb (Z.land (pp_changed pipe) flag =? 0).

Definition set_dimensions (wd ht changed : Z) (p : pipe_t) : pipe_t :=
  Pipe_t (pp_nodes p) (pp_iop_order_list p) changed (pp_iwidth p) (pp_iheight p) wd ht (pp_raw p) (pp_shutdown p).

Definition dt_dev_pixelpipe_change (fuel : nat) (pipe : pipe_t) (d : develop_t)
    : option (c_result (pipe_t * develop_t)) :=
  let when (b : bool) (f : pipe_t -> develop_t -> option (c_result (pipe_t * develop_t)))
      (r : c_result (pipe_t * develop_t)) : option (c_result (pipe_t * develop_t)) :=
    match r with
    | Undefined => Some Undefined
    | Done (p, d) => if b then f p d else Some r
    end in
  r ← when (has_flag DT_DEV_PIPE_TOP_CHANGED pipe) (dt_dev_pixelpipe_synch_top fuel) (Done (pipe, d));
  r ← when (has_flag DT_DEV_PIPE_SYNCH pipe) (dt_dev_pixelpipe_synch_all fuel) r;
  r ← when (has_flag DT_DEV_PIPE_REMOVE pipe)
        (fun p d => match dt_dev_pixelpipe_create_nodes (dt_dev_pixelpipe_cleanup_nodes p) d with
                    | Undefined => Some Undefined
                    | Done p => dt_dev_pixelpipe_synch_all fuel p d
                    end) r;
  Some (let* (p, d) := r in
        let* (p, dim) := dt_dev_pixelpipe_get_dimensions p (pp_iwidth p) (pp_iheight p) in
        Done (set_dimensions (fst dim) (snd dim) DT_DEV_PIPE_UNCHANGED p, d)).

(** All nodes behind the last node of the operation, or all. *)
Fixpoint disable_until (op : string) (ns : list node) : list node :=
  match ns with
  | [] => []
  | n :: ns => if String.eqb (n_op n) op then n :: ns else n_set_enabled false n :: disable_until op ns
  end.

Definition dt_dev_pixelpipe_disable_after (pipe : pipe_t) (op : string) : c_result pipe_t :=
  if decide (pp_nodes pipe = []) then Undefined
  else Done (set_nodes (rev (disable_until op (rev (pp_nodes pipe)))) pipe).

Definition dt_dev_pixelpipe_disable_before (pipe : pipe_t) (op : string) : c_result pipe_t :=
  if decide (pp_nodes pipe = []) then Undefined
  else Done (set_nodes (disable_until op (pp_nodes pipe)) pipe).

End nodes.
Arguments node : clear implicits.
Arguments pipe_t : clear implicits.
