(* ===== verification/PixelpipeSpec.v ===== *)
(** What the nodes of a pipe are after they followed the history: each node holds the
    defaults of its module and then the items of that module, whatever happened to the
    other nodes in between; and following only the newest item is enough after a new
    item. The buffer for the hash of the masks is exactly filled. *)

From Stdlib Require Import Ascii String SpecFloat.
From S2P Require Import Prelude Floats Utility IopOrder IopModules Undo History HistorySpec PixelpipeCache Pixelpipe.
Local Open Scope Z_scope.

(** ** The specification of a node *)

Section spec.
Context {D : Type} {api : iop_api D}.
Context (blend_bytes : dt_develop_blend_params_t -> list ascii) (mask_id : dt_develop_blend_params_t -> Z).
Context (fuel : nat).

(** Enabled, parameters, blend parameters. *)
Definition source_t : Type := bool * list ascii * dt_develop_blend_params_t.
Definition default_source (m : module_t) : source_t :=
  (mod_default_enabled (m_base m), m_default_params m, m_default_blendop_params m).
Definition item_source (h : item_t) : source_t := (h_enabled h, h_params h, h_blend_params h).

Definition hashable (m : module_t) (forms : list dt_masks_form_t) (s : source_t) : Prop :=
  fst (fst s) = true -> exists str, hashed_params blend_bytes mask_id fuel m (snd s) forms = Some (Done str).

Definition node_hash (m : module_t) (bp : dt_develop_blend_params_t) (forms : list dt_masks_form_t) : Z :=
  match hashed_params blend_bytes mask_id fuel m bp forms with Some (Done str) => params_hash str | _ => 0 end.

(** One source into a node. *)
Definition commit_source (m : module_t) (forms : list dt_masks_form_t) (n : node D) (s : source_t) : node D :=
  let '(enabled, params, bp) := s in
  let n := n_set_enabled enabled (n_set_hash 0 n) in
  if enabled : bool then
    let tiling := if negb (Z.land (mod_flags (m_base m)) IOP_FLAGS_ALLOW_TILING =? 0) then true else n_tiling_ready n in
    let '(data, enabled, tiling) := commit_params (mod_op (m_base m)) params (n_data n) tiling in
    Node (set_p_hash (node_hash m bp forms) (set_p_enabled enabled (n_piece n))) (n_op n) (n_flags n)
         data bp (n_colors n) tiling (n_buf_in n) (n_buf_out n)
  else n.

Definition items_of (ptr : nat) (items : list item_t) : list item_t := List.filter (fun h => (h_module h =? ptr)%nat) items.

Definition sources (m : module_t) (ptr : nat) (items : list item_t) : list source_t :=
  default_source m :: map item_source (items_of ptr items).

(** The fields of a module that a commit reads: all but the blend parameters. *)
Definition some_module : module_t := Mod (Module_t 0 "" 0 0 false false 0) 0 "" "" 0 [] [] no_blend no_blend false.
Definition view (d : develop_t) (ptr : nat) : module_t :=
  m_set_blend no_blend (default some_module (d_modules d !! ptr)).

Definition commit_all (d : develop_t) (n : node D) (ss : list source_t) : node D :=
  foldl (commit_source (view d (n_module n)) (d_forms d)) n ss.

Definition node_after (d : develop_t) (items : list item_t) (n : node D) : node D :=
  commit_all d n (sources (view d (n_module n)) (n_module n) items).

(** The items that are done. *)
Definition done_items (d : develop_t) : list item_t := take (Z.to_nat (d_history_end d)) (d_history d).

Definition same_view (d d' : develop_t) : Prop :=
  (forall ptr, view d' ptr = view d ptr) /\ d_forms d' = d_forms d /\ d_history d' = d_history d /\
  d_history_end d' = d_history_end d.

Definition node_live (d : develop_t) (n : node D) : Prop := is_Some (d_modules d !! n_module n).

Definition can_commit (d : develop_t) (n : node D) (s : source_t) : Prop :=
  node_live d n /\ hashable (view d (n_module n)) (d_forms d) s.

(** ** Lemmas *)

Lemma same_view_refl d : same_view d d.
Proof. done. Qed.

Lemma same_view_trans d d' d'' : same_view d d' -> same_view d' d'' -> same_view d d''.
Proof. intros (H1 & H2 & H3 & H4) (H5 & H6 & H7 & H8). split_and!; [intros ptr; by rewrite H5|congruence..]. Qed.

Lemma same_view_commit d p m bp r :
  d_modules d !! p = Some m -> same_view d (set_raster r (store p (m_set_blend bp m) d)).
Proof.
  intros Hm. split_and!; [|done..]. intros q. unfold view. cbn. destruct (decide (p = q)) as [<-|Hne].
  - by rewrite lookup_insert_eq, Hm.
  - by rewrite lookup_insert_ne.
Qed.

Lemma commit_source_module m forms n s : n_module (commit_source m forms n s) = n_module n.
Proof.
  destruct s as [[en ps] bp]. unfold commit_source. destruct en; [|done].
  by destruct (commit_params _ _ _ _) as [[data en] t].
Qed.

Lemma commit_all_module d n ss : n_module (commit_all d n ss) = n_module n.
Proof.
  unfold commit_all. generalize (view d (n_module n)) as m. intros m. revert n.
  induction ss as [|s ss IH]; intros n; [done|]. cbn. by rewrite IH, commit_source_module.
Qed.

Lemma commit_all_app d n ss ss' : commit_all d n (ss ++ ss') = commit_all d (commit_all d n ss) ss'.
Proof. unfold commit_all at 1 2. rewrite commit_all_module. apply foldl_app. Qed.

Lemma commit_all_view d d' n ss : same_view d d' -> commit_all d' n ss = commit_all d n ss.
Proof. intros (Hv & Hf & _). unfold commit_all. by rewrite Hv, Hf. Qed.

Lemma can_commit_view d d' n s :
  same_view d d' -> (forall p, is_Some (d_modules d !! p) -> is_Some (d_modules d' !! p)) ->
  can_commit d n s -> can_commit d' n s.
Proof. intros (Hv & Hf & _) Hl [H1 H2]. split; [by apply Hl|]. by rewrite Hv, Hf. Qed.

Lemma node_set_enabled_id (n : node D) : n_set_enabled (n_enabled n) n = n.
Proof. by destruct n as [[] ? ? ? ? ? ? ? ?]. Qed.

(** The whole of a [develop_t] that a commit keeps. *)
Definition commit_keeps (d d' : develop_t) : Prop :=
  same_view d d' /\ ok d' /\ forall p, is_Some (d_modules d !! p) -> is_Some (d_modules d' !! p).

Lemma commit_keeps_refl d : ok d -> commit_keeps d d.
Proof. intros Hok. by split_and!. Qed.

Lemma commit_keeps_trans d d' d'' : commit_keeps d d' -> commit_keeps d' d'' -> commit_keeps d d''.
Proof.
  intros (H1 & _ & H2) (H3 & H4 & H5). split_and!; [by eapply same_view_trans|done|auto].
Qed.

Lemma view_at d p m : d_modules d !! p = Some m -> view d p = m_set_blend no_blend m.
Proof. intros Hm. unfold view. by rewrite Hm. Qed.

Lemma commit_params_done d n enabled params bp :
  ok d -> can_commit d n (enabled, params, bp) ->
  exists d', dt_iop_commit_params blend_bytes mask_id fuel (n_module n) params bp d (n_set_enabled enabled n)
               = Some (Done (commit_all d n [(enabled, params, bp)], d')) /\ commit_keeps d d'.
Proof.
  intros Hok [[m Hm] Hh]. unfold dt_iop_commit_params, commit_all. cbn [foldl commit_source].
  change (n_enabled (n_set_hash 0 (n_set_enabled enabled n))) with enabled.
  destruct enabled; [|by exists d; split; [|by apply commit_keeps_refl]].
  rewrite (view_at d _ m Hm) in Hh |- *. destruct (Hh eq_refl) as [str Hstr]. cbn [snd] in Hstr.
  unfold node_hash. rewrite Hstr. unfold deref. rewrite Hm.
  assert (hashed_params blend_bytes mask_id fuel m bp (d_forms d) = Some (Done str)) as -> by exact Hstr.
  cbn [mbind option_bind c_bind].
  destruct (commit_blend_spec d (n_module n) m bp) as (r & -> & Hr); [apply Hok..|done|]. cbn [c_bind].
  exists (set_raster r (store (n_module n) (m_set_blend bp m) d)). split.
  - cbn [m_base m_set_blend]. change (n_data (n_set_hash 0 (n_set_enabled true n))) with (n_data (n_set_enabled true (n_set_hash 0 n))).
    change (n_tiling_ready (n_set_hash 0 (n_set_enabled true n))) with (n_tiling_ready (n_set_enabled true (n_set_hash 0 n))).
    by destruct (commit_params _ _ _ _) as [[data en] t].
  - split_and!; [by apply same_view_commit| |].
    + apply (ok_set _ _ m); [done..|exact (proj1 Hok _ _ Hm)|done].
    + intros q. by apply (is_Some_store _ _ m).
Qed.

(** The nodes one after the other, each with the source that is meant for it. *)
Definition with_source (sel : node D -> option source_t) (d : develop_t) (n : node D) : node D :=
  match sel n with Some s => commit_all d n [s] | None => n end.

Lemma with_source_view sel d d' ns : same_view d d' -> map (with_source sel d') ns = map (with_source sel d) ns.
Proof. intros Hv. apply map_ext. intros n. unfold with_source. destruct (sel n); [by apply commit_all_view|done]. Qed.

Lemma commit_nodes_done sel ns d :
  ok d -> Forall (fun n => forall s, sel n = Some s -> can_commit d n s) ns ->
  exists d', commit_nodes blend_bytes mask_id fuel (fun n =>
      match sel n with Some (enabled, params, bp) => Some (n_set_enabled enabled n, params, bp) | None => None end) ns d
    = Some (Done (map (with_source sel d) ns, d')) /\ commit_keeps d d'.
Proof.
  intros Hok Hns. revert d Hok Hns. induction ns as [|n ns IH]; intros d Hok Hns; [by exists d; split; [|by apply commit_keeps_refl]|].
  apply Forall_cons in Hns as [Hn Hns]. cbn [commit_nodes map]. unfold with_source at 1.
  assert (exists d1, match sel n with
    | Some (enabled, params, bp) =>
        dt_iop_commit_params blend_bytes mask_id fuel (n_module n) params bp d (n_set_enabled enabled n)
    | None => Some (Done (n, d)) end = Some (Done (match sel n with Some s => commit_all d n [s] | None => n end, d1)) /\
    commit_keeps d d1) as (d1 & H1 & Hk1).
  { destruct (sel n) as [[[en ps] bp]|]; [|by exists d; split; [|by apply commit_keeps_refl]].
    apply commit_params_done; [done|by apply Hn]. }
  destruct (IH d1) as (d2 & H2 & Hk2); [apply Hk1| |].
  { eapply Forall_impl; [exact Hns|]. intros n' H s Hs. destruct Hk1 as (Hv & _ & Hl). eapply can_commit_view; eauto. }
  exists d2. split; [|by eapply commit_keeps_trans]. rewrite (with_source_view sel d d1 ns (proj1 Hk1)) in H2.
  destruct (sel n) as [[[en ps] bp]|]; cbn [mbind option_bind];
    [change (n_module (n_set_enabled en n)) with (n_module n); rewrite H1|injection H1 as <-]; cbn [mbind option_bind];
    by rewrite H2.
Qed.

Lemma commit_nodes_ext f g ns d :
  (forall n, f n = g n) -> commit_nodes blend_bytes mask_id fuel f ns d = commit_nodes blend_bytes mask_id fuel g ns d.
Proof.
  intros Hfg. revert d. induction ns as [|n ns IH]; intros d; [done|]. cbn [commit_nodes]. rewrite Hfg.
  destruct (match g n with Some _ => _ | None => _ end) as [[[n' d']|]|]; [|done..]. cbn [mbind option_bind]. by rewrite IH.
Qed.

(** The items of a node's module. *)
Definition with_items (d : develop_t) (items : list item_t) (n : node D) : node D :=
  commit_all d n (map item_source (items_of (n_module n) items)).

Lemma with_items_module d items n : n_module (with_items d items n) = n_module n.
Proof. apply commit_all_module. Qed.

Lemma with_items_cons d h items n : with_items d (h :: items) n = with_items d items (with_items d [h] n).
Proof.
  unfold with_items. rewrite commit_all_module, <- commit_all_app, <- map_app. cbn. by destruct (h_module h =? n_module n)%nat.
Qed.

Lemma with_items_view d d' items ns : same_view d d' -> map (with_items d' items) ns = map (with_items d items) ns.
Proof. intros Hv. apply map_ext. intros n. by apply commit_all_view. Qed.

Definition item_can (d : develop_t) (ns : list (node D)) (h : item_t) : Prop :=
  Forall (fun n => n_module n = h_module h -> can_commit d n (item_source h)) ns.

Lemma item_can_map d d' f ns h :
  (forall n, n_module (f n) = n_module n) -> commit_keeps d d' -> item_can d ns h -> item_can d' (map f ns) h.
Proof.
  intros Hf (Hv & _ & Hl) Hc. apply List.Forall_map. eapply Forall_impl; [exact Hc|]. intros n Hn Hm. rewrite Hf in Hm.
  destruct (can_commit_view d d' n _ Hv Hl (Hn Hm)) as [H1 H2]. split; [unfold node_live|]; by rewrite Hf.
Qed.

Lemma synch_done h ns d :
  ok d -> item_can d ns h ->
  exists d', dt_dev_pixelpipe_synch blend_bytes mask_id fuel h ns d = Some (Done (map (with_items d [h]) ns, d')) /\ commit_keeps d d'.
Proof.
  intros Hok Hns.
  destruct (commit_nodes_done (fun n => if (n_module n =? h_module h)%nat then Some (item_source h) else None) ns d Hok)
    as (d' & Hd & Hk).
  { eapply Forall_impl; [exact Hns|]. intros n Hn s. destruct (Nat.eqb_spec (n_module n) (h_module h)); [|done].
    intros [= <-]. by apply Hn. }
  exists d'. split; [|done]. unfold dt_dev_pixelpipe_synch.
  erewrite commit_nodes_ext; [etransitivity; [exact Hd|]|].
  - do 3 f_equal. apply map_ext. intros n. unfold with_source, with_items. cbn. rewrite (Nat.eqb_sym (h_module h)).
    by destruct (n_module n =? h_module h)%nat.
  - intros n. cbn. by destruct (n_module n =? h_module h)%nat.
Qed.

Lemma synch_items_done items ns d :
  ok d -> Forall (item_can d ns) items ->
  exists d', synch_items blend_bytes mask_id fuel items ns d = Some (Done (map (with_items d items) ns, d')) /\ commit_keeps d d'.
Proof.
  revert ns d. induction items as [|h items IH]; intros ns d Hok Hc.
  { exists d. split; [|by apply commit_keeps_refl]. cbn. do 3 f_equal. unfold with_items. cbn. symmetry. apply map_id. }
  apply Forall_cons in Hc as [Hh Hc]. destruct (synch_done h ns d Hok Hh) as (d1 & H1 & Hk1).
  destruct (IH (map (with_items d [h]) ns) d1) as (d2 & H2 & Hk2); [apply Hk1| |].
  { eapply Forall_impl; [exact Hc|]. intros h'. apply item_can_map; [|done]. intros n. apply with_items_module. }
  exists d2. split; [|by eapply commit_keeps_trans]. cbn [synch_items]. rewrite H1. cbn [mbind option_bind]. rewrite H2.
  do 3 f_equal. rewrite (with_items_view d d1) by apply Hk1. rewrite map_map. apply map_ext. intros n. symmetry. apply with_items_cons.
Qed.

Lemma reset_done ns d :
  ok d -> Forall (fun n => can_commit d n (default_source (view d (n_module n)))) ns ->
  exists d', reset_nodes blend_bytes mask_id fuel ns d =
      Some (Done (map (fun n => commit_all d n [default_source (view d (n_module n))]) ns, d')) /\ commit_keeps d d'.
Proof.
  intros Hok Hns. revert d Hok Hns. induction ns as [|n ns IH]; intros d Hok Hns; [by exists d; split; [|by apply commit_keeps_refl]|].
  apply Forall_cons in Hns as [Hn Hns]. pose proof Hn as [[m Hm] _].
  destruct (commit_params_done d (n_set_hash 0 n) (mod_default_enabled (m_base m)) (m_default_params m) (m_default_blendop_params m) Hok)
    as (d1 & H1 & Hk1).
  { by rewrite (view_at _ _ _ Hm) in Hn. }
  destruct (IH d1) as (d2 & H2 & Hk2); [apply Hk1| |].
  { eapply Forall_impl; [exact Hns|]. intros n' H'. pose proof Hk1 as (Hv & _ & Hl).
    rewrite (proj1 Hv). by eapply can_commit_view. }
  exists d2. split; [|by eapply commit_keeps_trans]. cbn [reset_nodes map]. unfold deref. rewrite Hm.
  change (n_module (n_set_enabled (mod_default_enabled (m_base m)) (n_set_hash 0 n))) with (n_module (n_set_hash 0 n)).
  rewrite H1. cbn [mbind option_bind]. rewrite H2. cbn [mbind option_bind c_bind]. do 3 f_equal. f_equal.
  - by rewrite (view_at _ _ _ Hm).
  - apply map_ext. intros n'. rewrite (proj1 (proj1 Hk1)). by apply commit_all_view, Hk1.
Qed.

(** What the nodes need so that every commit is defined: their modules are there, and
    the bytes that are hashed for an enabled source. *)
Record synchable (ns : list (node D)) (d : develop_t) : Prop := Synchable {
  sy_ok : ok d;
  sy_default : Forall (fun n => can_commit d n (default_source (view d (n_module n)))) ns;
  sy_items : Forall (item_can d ns) (done_items d);
}.

Lemma synch_all_done pipe d :
  synchable (pp_nodes pipe) d ->
  exists d', dt_dev_pixelpipe_synch_all blend_bytes mask_id fuel pipe d =
      Some (Done (set_nodes (map (node_after d (done_items d)) (pp_nodes pipe)) pipe, d')) /\ commit_keeps d d'.
Proof.
  intros [Hok Hd Hi]. unfold dt_dev_pixelpipe_synch_all.
  destruct (reset_done (pp_nodes pipe) d Hok Hd) as (d1 & -> & Hk1). cbn [mbind option_bind].
  pose proof Hk1 as ((_ & _ & Hh & He) & _). rewrite Hh, He. fold (done_items d).
  set (f := fun n => commit_all d n [default_source (view d (n_module n))]).
  destruct (synch_items_done (done_items d) (map f (pp_nodes pipe)) d1) as (d2 & -> & Hk2); [apply Hk1| |].
  { eapply Forall_impl; [exact Hi|]. intros h. apply item_can_map; [|done]. intros n. apply commit_all_module. }
  exists d2. split; [|by eapply commit_keeps_trans]. cbn [mbind option_bind c_bind]. do 3 f_equal. f_equal.
  rewrite (with_items_view d d1) by apply Hk1. rewrite map_map. apply map_ext. intros n.
  unfold with_items, node_after, f. rewrite commit_all_module, <- commit_all_app. done.
Qed.

Lemma sources_snoc m ptr items h :
  sources m ptr (items ++ [h]) = sources m ptr items ++ map item_source (items_of ptr [h]).
Proof. unfold sources, items_of. by rewrite List.filter_app, map_app. Qed.

(** ** Modules that differ in their parameters *)

(** What a commit reads of a module besides its parameters. *)
Definition same_code (m m' : module_t) : Prop :=
  mod_op (m_base m') = mod_op (m_base m) /\ mod_flags (m_base m') = mod_flags (m_base m) /\
  m_params_size m' = m_params_size m /\ default_source m' = default_source m.

Lemma commit_source_params m m' forms n s :
  same_code m m' -> m_params m' = m_params m -> commit_source m' forms n s = commit_source m forms n s.
Proof.
  intros (Ho & Hf & Hs & _) Hp. destruct s as [[en ps] bp]. unfold commit_source, node_hash, hashed_params.
  by rewrite Ho, Hf, Hs, Hp.
Qed.

Definition same_but_hash (n n' : node D) : Prop := n_set_hash 0 n' = n_set_hash 0 n.

Lemma commit_source_hash m m' forms n n' s :
  same_code m m' -> same_but_hash n n' -> same_but_hash (commit_source m forms n s) (commit_source m' forms n' s).
Proof.
  intros (Ho & Hf & Hs & _) Hn. destruct s as [[en ps] bp], n as [[] ? ? ? ? ? ? ? ?], n' as [[] ? ? ? ? ? ? ? ?].
  unfold same_but_hash, commit_source in *. cbn in *. simplify_eq. destruct en; [|done]. rewrite Ho, Hf.
  by destruct (commit_params _ _ _ _) as [[data en] t].
Qed.

(** The last commit decides about the hash. *)
Lemma commit_source_last m forms n n' s : same_but_hash n n' -> commit_source m forms n' s = commit_source m forms n s.
Proof.
  intros Hn. destruct s as [[en ps] bp], n as [[] ? ? ? ? ? ? ? ?], n' as [[] ? ? ? ? ? ? ? ?].
  unfold same_but_hash, commit_source in *. cbn in *. by simplify_eq.
Qed.

Lemma fold_hash m m' forms n n' ss :
  same_code m m' -> same_but_hash n n' ->
  same_but_hash (foldl (commit_source m forms) n ss) (foldl (commit_source m' forms) n' ss).
Proof.
  intros Hc. revert n n'. induction ss as [|s ss IH]; intros n n' Hn; [done|]. cbn. apply IH. by apply commit_source_hash.
Qed.

Lemma fold_params m m' forms n ss :
  same_code m m' -> m_params m' = m_params m -> foldl (commit_source m' forms) n ss = foldl (commit_source m forms) n ss.
Proof.
  intros Hc Hp. revert n. induction ss as [|s ss IH]; intros n; [done|]. cbn. by rewrite (commit_source_params m m'), IH.
Qed.

(** A new item on top, committed to the nodes as they were, or everything again. *)
Lemma node_after_snoc d d2 items h n :
  d_forms d2 = d_forms d ->
  (forall ptr, same_code (view d ptr) (view d2 ptr) /\ (ptr <> h_module h -> m_params (view d2 ptr) = m_params (view d ptr))) ->
  node_after d2 (items ++ [h]) n = with_items d2 [h] (node_after d items n).
Proof.
  intros Hf Hm. destruct (Hm (n_module n)) as [Hc Hp]. unfold node_after, with_items.
  rewrite sources_snoc, commit_all_app, commit_all_module.
  assert (sources (view d2 (n_module n)) (n_module n) items = sources (view d (n_module n)) (n_module n) items) as ->.
  { unfold sources. by destruct Hc as (_ & _ & _ & ->). }
  set (ss := sources _ _ items). clearbody ss. cbn [items_of List.filter].
  destruct (Nat.eqb_spec (h_module h) (n_module n)) as [Heq|Hne]; cbn [map].
  - unfold commit_all at 1 3. rewrite !commit_all_module. cbn [foldl]. apply commit_source_last.
    unfold commit_all. rewrite Hf. by apply fold_hash.
  - unfold commit_all at 1 3. cbn [foldl]. unfold commit_all. rewrite Hf. apply fold_params; [done|]. apply Hp. congruence.
Qed.

Lemma last_source_commit d n ss enabled params bp :
  last ss = Some (enabled, params, bp) ->
  p_hash (n_piece (commit_all d n ss)) = (if enabled then node_hash (view d (n_module n)) bp (d_forms d) else 0) /\
  (enabled = false -> n_enabled (commit_all d n ss) = false) /\
  (enabled = true -> n_blendop_data (commit_all d n ss) = bp).
Proof.
  intros [ss' ->]%last_Some. rewrite commit_all_app. set (n' := commit_all d n ss').
  assert (n_module n' = n_module n) as Hn by apply commit_all_module. clearbody n'.
  unfold commit_all. cbn [foldl]. rewrite Hn. unfold commit_source.
  destruct enabled; [|by split_and!]. destruct (commit_params _ _ _ _) as [[data en] t]. by split_and!.
Qed.

(** ** Properties *)

(** Two histories whose last items of a module differ only in their parameters give its
    node the same hash: what is hashed are the current parameters of the module. *)
Lemma hash_ignores_committed_params d n items items' enabled params params' bp :
  last (sources (view d (n_module n)) (n_module n) items) = Some (enabled, params, bp) ->
  last (sources (view d (n_module n)) (n_module n) items') = Some (enabled, params', bp) ->
  p_hash (n_piece (node_after d items n)) = p_hash (n_piece (node_after d items' n)).
Proof.
  intros Hl Hl'. unfold node_after. by destruct (last_source_commit d n _ _ _ _ Hl) as [-> _], (last_source_commit d n _ _ _ _ Hl') as [-> _].
Qed.


(** After a new item on top of the history, following only that item
    (dt_dev_pixelpipe_synch_top) gives the same nodes as following all items again. *)
Theorem synch_top_is_synch_all pipe d d2 h
    (Hs : synchable (pp_nodes pipe) d) (Hs2 : synchable (pp_nodes pipe) d2)
    (Hforms : d_forms d2 = d_forms d)
    (Hhist : d_history d2 = done_items d ++ [h]) (Hend : d_history_end d2 = Z.of_nat (length (d_history d2)))
    (Hmods : forall ptr, same_code (view d ptr) (view d2 ptr) /\
                         (ptr <> h_module h -> m_params (view d2 ptr) = m_params (view d ptr))) :
  exists pipe1 d1 pipe2 d3 d4,
    dt_dev_pixelpipe_synch_all blend_bytes mask_id fuel pipe d = Some (Done (pipe1, d1)) /\
    dt_dev_pixelpipe_synch_top blend_bytes mask_id fuel pipe1 d2 = Some (Done (pipe2, d3)) /\
    dt_dev_pixelpipe_synch_all blend_bytes mask_id fuel pipe d2 = Some (Done (pipe2, d4)).
Proof.
  destruct (synch_all_done pipe d Hs) as (d1 & H1 & _). destruct (synch_all_done pipe d2 Hs2) as (d4 & H4 & _).
  assert (done_items d2 = done_items d ++ [h]) as Hdone.
  { unfold done_items at 1. rewrite Hend, Nat2Z.id, Hhist. by rewrite firstn_all. }
  set (pipe1 := set_nodes _ pipe) in H1.
  destruct (synch_done h (pp_nodes pipe1) d2) as (d3 & H3 & _); [apply Hs2| |].
  { pose proof (sy_items _ _ Hs2) as Hi. rewrite Hdone in Hi. apply Forall_app in Hi as [_ Hi]. apply Forall_cons in Hi as [Hi _].
    apply (item_can_map d2); [intros n; apply commit_all_module|by apply commit_keeps_refl, Hs2|done]. }
  exists pipe1, d1. do 3 eexists. split_and!; [exact H1| |exact H4]. unfold dt_dev_pixelpipe_synch_top.
  rewrite Hend, g_list_nth_last, Hhist, last_snoc, H3. cbn [mbind option_bind c_bind]. do 3 f_equal.
  unfold pipe1. cbn [set_nodes pp_nodes pp_iop_order_list pp_changed]. unfold set_nodes. cbn. f_equal.
  rewrite map_map, Hdone. apply map_ext. intros n. symmetry. by apply node_after_snoc.
Qed.

End spec.

(** ** The bytes of the masks *)

Definition is_group (f : dt_masks_form_t) : bool := negb (Z.land (form_type f) DT_MASKS_GROUP =? 0).

(** The structures behind the pointers have their sizes. *)
Definition wf_form (f : dt_masks_form_t) : Prop :=
  (8 <= length (form_source f))%nat /\
  Forall (fun p => (if is_group f then 16 else point_struct_size f) <= length p)%nat (form_points f).

(** Groups contain only forms of a lower rank: no group contains itself. *)
Definition ranked (rank : dt_masks_form_t -> nat) (forms : list dt_masks_form_t) (f : dt_masks_form_t) : Prop :=
  is_group f = true -> forall p g, p ∈ form_points f ->
    dt_masks_get_from_id_ext forms (group_formid p) = Some g -> (rank g < rank f)%nat.

Lemma get_from_id_elem forms id f : dt_masks_get_from_id_ext forms id = Some f -> f ∈ forms.
Proof. intros [H _]%find_some. by apply list_elem_of_In. Qed.

Lemma concat_length {A} (ls : list (list A)) : length (concat ls) = list_sum (map length ls).
Proof. induction ls as [|l ls IH]; [done|]. cbn. by rewrite length_app, IH. Qed.

Lemma mapM_both {A} (f : A -> option (list ascii)) (g : A -> option nat) l :
  Forall (fun a => exists b, f a = Some b /\ g a = Some (length b)) l ->
  exists bs, mapM f l = Some bs /\ mapM g l = Some (map length bs).
Proof.
  induction 1 as [|a l (b & Hf & Hg) _ (bs & IH1 & IH2)]; [by exists []|].
  exists (b :: bs). cbn. by rewrite Hf, Hg, IH1, IH2.
Qed.

(** C36: the recursion into groups ends when no group contains itself, and the buffer that
    dt_iop_commit_params allocates for the masks is filled exactly. *)
Theorem hash_buffer_fits rank forms form fuel
    (Hwf : Forall wf_form (form :: forms)) (Hrank : Forall (ranked rank forms) (form :: forms)) (Hfuel : (rank form < fuel)%nat) :
  exists b, dt_masks_group_get_hash_buffer fuel forms form = Some b /\
            dt_masks_group_get_hash_buffer_length fuel forms form = Some (length b).
Proof.
  apply Forall_cons in Hwf as [Hf Hwf]. apply Forall_cons in Hrank as [Hr Hrank].
  revert form Hf Hr Hfuel. induction fuel as [|fuel IH]; intros form [Hsrc Hpts] Hr Hfuel; [lia|].
  cbn [dt_masks_group_get_hash_buffer dt_masks_group_get_hash_buffer_length]. fold (is_group form).
  assert (Forall (fun p => exists b,
    (if is_group form then match dt_masks_get_from_id_ext forms (group_formid p) with
       | Some f => b ← dt_masks_group_get_hash_buffer fuel forms f; Some (group_state_opacity p ++ b)
       | None => Some [] end else Some (take (point_struct_size form) p)) = Some b /\
    (if is_group form then match dt_masks_get_from_id_ext forms (group_formid p) with
       | Some f => n ← dt_masks_group_get_hash_buffer_length fuel forms f; Some (8 + n)%nat
       | None => Some 0%nat end else Some (point_struct_size form)) = Some (length b)) (form_points form)) as Hall.
  { apply List.Forall_forall. intros p Hp. rewrite List.Forall_forall in Hpts. specialize (Hpts p Hp). apply list_elem_of_In in Hp.
    destruct (is_group form) eqn:Eg.
    - destruct (dt_masks_get_from_id_ext forms (group_formid p)) as [g|] eqn:Ef; [|by exists []].
      pose proof (get_from_id_elem _ _ _ Ef) as Hg. pose proof (Hr Eg p g Hp Ef).
      rewrite Forall_forall in Hwf, Hrank. destruct (IH g (Hwf g Hg) (Hrank g Hg)) as (b & -> & ->); [lia|].
      exists (group_state_opacity p ++ b). split; [done|]. cbn [mbind option_bind]. rewrite length_app. unfold group_state_opacity.
      rewrite length_take, length_drop. do 2 f_equal. lia.
    - eexists. split; [done|]. rewrite length_take. f_equal. lia. }
  destruct (mapM_both _ _ _ Hall) as (bs & H1 & H2). rewrite H1, H2. cbn [mbind option_bind].
  eexists. split; [done|]. rewrite !length_app, !length_store_s32, length_take, concat_length. f_equal. lia.
Qed.

(** ** An example: two modules, the first of them with two items and a group of masks *)

Module Example.

Definition add_params (ps : list ascii) : Z := foldl (fun a c => a + Z.of_nat (nat_of_ascii c)) 0 ps.

#[export] Instance api : iop_api Z := {|
  init_pipe _ := 0;
  commit_params _ ps k t := (k + add_params ps, true, t);
  modify_roi_out _ _ roi := roi;
  modify_roi_in _ _ roi := roi;
  output_format _ _ _ _ dsc := dsc;
  default_colors _ := false;
  input_colorspace _ _ := 0;
  output_colorspace _ _ := 0;
  blend_colorspace _ _ := 0;
  transform_colorspace _ px _ to := (px, to);
  process _ _ _ px _ _ fl := (px, fl);
  process_tiling _ _ _ px _ _ fl := (px, fl);
  fits_host_memory _ _ _ _ _ := true;
  blend_process _ _ _ out _ _ fl := (out, fl);
  clip_and_zoom px _ _ := px;
|}.

Definition circle : dt_masks_form_t := Form [list_ascii_of_string "0123"] 4 1 (list_ascii_of_string "srcsrcsr") "circle" 7 6.
Definition group : dt_masks_form_t :=
  Form [store_s32 7 ++ store_s32 0 ++ store_s32 3 ++ store_s32 1; store_s32 99 ++ store_s32 0 ++ store_s32 3 ++ store_s32 1]
       16 DT_MASKS_GROUP (list_ascii_of_string "srcsrcsr") "group" 8 6.

Lemma hash_buffer_fits_witness :
  exists b, dt_masks_group_get_hash_buffer 2 [circle; group] group = Some b /\
            dt_masks_group_get_hash_buffer_length 2 [circle; group] group = Some (length b).
Proof.
  apply (hash_buffer_fits (fun f => if is_group f then 1%nat else 0%nat)).
  - repeat (constructor; [split; [cbn; lia|repeat constructor; cbn; lia]|]). constructor.
  - assert (forall f, f ∈ [circle; group] -> ranked (fun f => if is_group f then 1%nat else 0%nat) [circle; group] f) as H.
    { intros f [->|[->|Hf%elem_of_nil]%elem_of_cons]%elem_of_cons; [done| |done].
      intros _ p g Hp. apply list_elem_of_In in Hp. destruct Hp as [<-|[<-|[]]]; vm_compute; [|done]. intros [= <-]. vm_compute. lia. }
    apply Forall_forall. intros f Hf. apply H. set_solver.
  - vm_compute. lia.
Defined.

Definition blend_bytes (bp : dt_develop_blend_params_t) : list ascii := store_s32 (mask_mode bp).
Definition mask_id (bp : dt_develop_blend_params_t) : Z := 8.

Definition mod0 (params : string) : module_t :=
  Mod (Module_t 1 "exposure" 0 10 true true IOP_FLAGS_SUPPORTS_BLENDING) 1 "exposure" "" 3 (list_ascii_of_string params)
      (list_ascii_of_string "aaa") no_blend no_blend false.
Definition mod1 : module_t :=
  Mod (Module_t 2 "filmic" 0 20 true false 0) 2 "filmic" "" 3 (list_ascii_of_string "fff")
      (list_ascii_of_string "ccc") no_blend no_blend false.

Definition item (ptr : nat) (op params : string) (enabled : bool) : item_t :=
  Item op ptr enabled (list_ascii_of_string params) no_blend 0 0 "" [] 0.

Definition state (params : string) (items : list item_t) (history_end : Z) : develop_t :=
  Dev (<[1%nat := mod0 params]> (<[2%nat := mod1]> ∅))
      (<[1%nat := Raster None ∅ 0 0]> (<[2%nat := Raster None ∅ 0 0]> ∅))
      [1; 2]%nat [] items history_end [circle; group] [] 0 true [] [].

Definition older : list item_t := [item 1 "exposure" "bbb" true; item 2 "filmic" "fff" true].
Definition newest : item_t := item 1 "exposure" "ddd" true.
Definition before : develop_t := state "bbb" (older ++ [item 1 "exposure" "zzz" false]) 2.
Definition after : develop_t := state "ddd" (older ++ [newest]) 3.

Definition node_of (ptr : nat) (op : string) : node Z :=
  Node (Piece ptr 0 true 0 false [] []) op 0 0 no_blend 4 false no_roi no_roi.
Definition pipe : pipe_t Z := Pipe_t [node_of 1 "exposure"; node_of 2 "filmic"] [] 0 4 4 0 0 false false.

Lemma develop_state_ok params items history_end : String.length params = 3%nat -> ok (state params items history_end).
Proof.
  intros Hp. split; [|split; [split|]].
  - apply map_Forall_insert_2; [|apply map_Forall_insert_2; [|apply map_Forall_empty]].
    + split_and!; [done|done| |done]. cbn. rewrite <- Hp. clear Hp. induction params as [|c params IH]; [done|]. cbn. by rewrite IH.
    + by split_and!.
  - intros p [m Hm]. cbn in Hm |- *. apply lookup_insert_Some in Hm as [[<- _]|[_ Hm]]; [by eexists|].
    apply lookup_insert_Some in Hm as [[<- _]|[_ Hm]]; [by eexists|done].
  - intros p r Hr. cbn in Hr. apply lookup_insert_Some in Hr as [[_ <-]|[_ Hr]]; [done|].
    apply lookup_insert_Some in Hr as [[_ <-]|[_ Hr]]; [done|done].
  - repeat constructor; by eexists.
Qed.

Lemma synchable_before : synchable blend_bytes mask_id 2 (pp_nodes pipe) before.
Proof.
  split; [by apply develop_state_ok| |].
  - repeat (constructor; [split; [by eexists|intros _; eexists; vm_compute; reflexivity]|]). constructor.
  - repeat (constructor; [repeat (constructor; [intros _; split; [by eexists|intros _; eexists; vm_compute; reflexivity]|]); constructor|]).
    constructor.
Qed.

Lemma synchable_after : synchable blend_bytes mask_id 2 (pp_nodes pipe) after.
Proof.
  split; [by apply develop_state_ok| |].
  - repeat (constructor; [split; [by eexists|intros _; eexists; vm_compute; reflexivity]|]). constructor.
  - repeat (constructor; [repeat (constructor; [intros _; split; [by eexists|intros _; eexists; vm_compute; reflexivity]|]); constructor|]).
    constructor.
Qed.


Lemma synch_top_is_synch_all_witness :
  exists pipe1 d1 pipe2 d3 d4,
    dt_dev_pixelpipe_synch_all blend_bytes mask_id 2 pipe before = Some (Done (pipe1, d1)) /\
    dt_dev_pixelpipe_synch_top blend_bytes mask_id 2 pipe1 after = Some (Done (pipe2, d3)) /\
    dt_dev_pixelpipe_synch_all blend_bytes mask_id 2 pipe after = Some (Done (pipe2, d4)).
Proof.
  apply (synch_top_is_synch_all blend_bytes mask_id 2 pipe before after newest synchable_before synchable_after);
    [reflexivity..|].
  intros ptr. destruct (decide (ptr = 1%nat)) as [->|Hne]; [by repeat split|].
  assert (view after ptr = view before ptr) as ->; [|by repeat split].
  unfold view. cbn [after before state d_modules]. by rewrite !(lookup_insert_ne _ 1%nat) by congruence.
Defined.

End Example.
