(* ===== verification/PixelpipeProcess.v ===== *)
(** Processing an image through the pipe: dt_dev_pixelpipe_process and its recursion of
    develop/pixelpipe_hb.c, with the pixel cache of [PixelpipeCache] and the buffers
    behind it.

    Buffers are bytes at addresses; the cache lines own some of them, pipe->input is
    another one, and a buffer that the cache replaces is gone. A pointer to the format
    of a cached buffer is a pointer into its cache line, so changes of a format go
    there. The conditions that end a run early (shutdown, changed history, changed
    image) can become true at any time: [stop n] is what the [n]-th test of them sees.
    Colour pickers and the histogram, which only read, are left out. *)

From Stdlib Require Import Ascii String SpecFloat.
From S2P Require Import Prelude Floats Utility IopOrder IopModules Undo History PixelpipeCache Rows Pixelpipe.
Local Open Scope Z_scope.

Definition DT_DEV_PIXELPIPE_DISPLAY_NONE : Z := 0.
Definition DT_DEV_PIXELPIPE_DISPLAY_MASK : Z := Z.shiftl 1 0.
Definition DT_DEV_PIXELPIPE_DISPLAY_ANY : Z := Z.shiftl 255 2.

Create HintDb keeps.

Section process.
Context {D : Type} {api : iop_api D}.

Abbreviation dsc_t := dt_iop_buffer_dsc_t.
Abbreviation roi_t := dt_iop_roi_t.

(** ** The state of a run *)

Record run_t := Run {
  r_cache : dt_dev_pixelpipe_cache_t dsc_t;
  r_mem : gmap Z (list ascii);
  r_flow : flow;
  r_rois : gmap nat (roi_t * roi_t);    (* processed_roi_in and _out, by position *)
  r_checks : nat;
}.

Definition r_set_cache v st := Run v (r_mem st) (r_flow st) (r_rois st) (r_checks st).
Definition r_set_mem v st := Run (r_cache st) v (r_flow st) (r_rois st) (r_checks st).
Definition r_set_flow v st := Run (r_cache st) (r_mem st) v (r_rois st) (r_checks st).
Definition r_set_rois v st := Run (r_cache st) (r_mem st) (r_flow st) v (r_checks st).

Definition fl_set_dsc (v : dsc_t) (f : flow) : flow := Flow v (f_mask_display f) (f_colors f).

Context (stop : nat -> bool).
(** dt_alloc_align for the buffers in use and a size. *)
Context (alloc : gmap Z (list ascii) -> Z -> Z).
(** The pipe: its image, with address, size and format of the input buffer; its nodes;
    its type, with the fast flag as the focused module wants it; who has the focus. *)
Context (imgid : Z) (input iwidth iheight : Z) (image_dsc : dsc_t) (raw : bool).
Context (all_nodes : list (node D)) (type : Z).
Context (gui_module : option nat) (gui_module_filter : option Z) (colorpicker_size : bool).
(** The bytes of a region in memory. *)
Context (roi_bytes : roi_t -> list ascii).

(** A test of the conditions that end the run. *)
Definition check (st : run_t) : bool * run_t :=
  (stop (r_checks st), Run (r_cache st) (r_mem st) (r_flow st) (r_rois st) (S (r_checks st))).

(** ** Buffers *)

Definition read (st : run_t) (addr : Z) (n : Z) : c_result (list ascii) :=
  match r_mem st !! addr with
  | Some b => if (0 <=? n) && (n <=? Z.of_nat (length b)) then Done (take (Z.to_nat n) b) else Undefined
  | None => Undefined
  end.

Definition write (st : run_t) (addr : Z) (bytes : list ascii) : c_result run_t :=
  match r_mem st !! addr with
  | Some b => if (length bytes <=? length b)%nat
              then Done (r_set_mem (<[addr := bytes ++ drop (length bytes) b]> (r_mem st)) st) else Undefined
  | None => Undefined
  end.

(** The format of a cached buffer changes in its cache line. *)
Definition set_line_dsc (addr : Z) (dsc : dsc_t) (st : run_t) : run_t :=
  r_set_cache (on_lines (fun l => if l_data l =? addr
    then Line (l_data l) (l_size l) dsc (l_basichash l) (l_hash l) (l_used l) else l) (r_cache st)) st.

Definition addresses (cache : dt_dev_pixelpipe_cache_t dsc_t) : list Z := map l_data (lines cache).

(** A query of the cache; a new buffer comes from the allocator, a replaced one is
    freed. Addresses are names: the one of a freed buffer is not used again. *)
Definition get_weighted (basichash hash size : Z) (dsc : dsc_t) (weight : Z) (st : run_t)
    : c_result (Z * Z * dsc_t * run_t) :=
  let* r := dt_dev_pixelpipe_cache_get_weighted (alloc (r_mem st) size) (r_cache st) basichash hash size dsc weight in
  let '(ret, data, dsc, cache) := r in
  let mem := match r_mem st !! data with
             | Some _ => r_mem st
             | None => if data =? 0 then r_mem st else <[data := replicate (Z.to_nat size) NUL]> (r_mem st)
             end in
  let mem := filter (fun '(a, _) => a = input \/ a ∈ addresses cache) mem in
  Done (ret, data, dsc, r_set_mem mem (r_set_cache cache st)).

(** ** Hashes *)

Definition preview : bool := Z.land type DT_DEV_PIXELPIPE_PREVIEW =? DT_DEV_PIXELPIPE_PREVIEW.

(** What the hash functions see of the pipe. *)
Definition hash_view : dt_dev_pixelpipe_t := Pipe type (map n_piece all_nodes) (map n_module all_nodes).

(** Basic and full hash at a position; none for gamma on the preview pipe. *)
Definition hashes (op : option string) (pos : nat) (roi_out : roi_t) : option (Z * Z) :=
  if preview && (match op with Some op => String.eqb op "gamma" | None => false end) then None
  else Some (dt_dev_pixelpipe_cache_fullhash gui_module_filter colorpicker_size imgid (roi_bytes roi_out)
                                             hash_view (Z.of_nat pos)).

Definition important (op : string) : bool :=
  if preview then String.eqb op "colorout" else String.eqb op "gamma".

(** ** The input of the pipe *)

Definition float_one : spec_float := float_of 24 false 1.

Definition base_format : dsc_t :=
  if raw then image_dsc
  else Buffer_dsc (channels image_dsc) (datatype image_dsc) (repeat float_one 4) (cst image_dsc) (other_dsc image_dsc).

(** The whole buffer at its own size. *)
Definition whole_input (roi : roi_t) : bool :=
  SFeqb (roi_scale roi) float_one && (roi_x roi =? 0) && (roi_y roi =? 0) &&
  (iwidth =? roi_width roi) && (iheight =? roi_height roi).

(** [x /= scale] for an int and a float. *)
Definition div_scale (x : Z) (scale : spec_float) : c_result Z :=
  match float_trunc (SFdiv 24 128 (float_of_int x) scale) with
  | Some z => if is_s32 z then Done z else Undefined
  | None => Undefined
  end.

(** The part of the input that is wanted, scaled, in a buffer of [bufsize] bytes. *)
Definition base_pixels (roi_out : roi_t) (bpp bufsize : Z) (inb : list ascii) : c_result (list ascii) :=
  let zeros := replicate (Z.to_nat bufsize) NUL in
  if SFeqb (roi_scale roi_out) float_one then
    let in_x := Z.max (roi_x roi_out) 0 in
    let in_y := Z.max (roi_y roi_out) 0 in
    let cp_width := Z.min (roi_width roi_out) (iwidth - in_x) in
    let cp_height := Z.min (roi_height roi_out) (iheight - in_y) in
    copy_rows (Z.to_nat cp_height) inb (bpp * (in_x + in_y * iwidth)) (bpp * iwidth) zeros 0 (bpp * roi_width roi_out)
      (bpp * cp_width)
  else
    let* x := div_scale (roi_x roi_out) (roi_scale roi_out) in
    let* y := div_scale (roi_y roi_out) (roi_scale roi_out) in
    Done (put_bytes 0 (clip_and_zoom inb roi_out (Roi x y iwidth iheight float_one)) zeros).

Definition size_of (bpp : Z) (roi : roi_t) : Z := wrap_u64 (bpp * roi_width roi * roi_height roi).

(** ** One module *)

Definition _transform_for_blend (n : node D) : bool :=
  negb (Z.land (n_flags n) IOP_FLAGS_SUPPORTS_BLENDING =? 0) && negb (mask_mode (n_blendop_data n) =? 0).

(** The pixels at an address in another colour space, in place, and their format. *)
Definition transform_in_place (op : string) (addr : Z) (n : Z) (dsc : dsc_t) (to : Z) (st : run_t)
    : c_result (list ascii * dsc_t * run_t) :=
  let* px := read st addr n in
  let '(px, c) := transform_colorspace op px (cst dsc) to in
  let* st := write st addr px in
  let dsc := set_cst c dsc in
  Done (px, dsc, set_line_dsc addr dsc st).

(** True is the result 1. Input and output must be different buffers. *)
Definition pixelpipe_process_on_CPU (n : node D) (dsc_in : dsc_t) (inp : Z) (input_format : dsc_t) (roi_in : roi_t)
    (out : Z) (out_format : dsc_t) (roi_out : roi_t) (st : run_t) : c_result (bool * run_t) :=
  let op := n_op n in
  let* in_bpp := dt_iop_buffer_dsc_to_bpp input_format in
  let in_size := size_of in_bpp roi_in in
  let* (px, input_format, st) := transform_in_place op inp in_size input_format (input_colorspace op (n_data n)) st in
  let (stopped, st) := check st in
  if stopped then Done (true, st) else
  let* bpp := dt_iop_buffer_dsc_to_bpp out_format in
  if inp =? out then Undefined else
  let run := if n_tiling_ready n && negb (fits_host_memory op (n_data n) roi_in roi_out (Z.max in_bpp bpp))
             then process_tiling else process in
  let (res, fl) := run op (n_data n) dsc_in px roi_in roi_out (r_flow st) in
  let fl := fl_set_dsc (set_cst (output_colorspace op (n_data n)) (f_dsc fl)) fl in
  let* st := write (r_set_flow fl st) out res in
  let (stopped, st) := check st in
  if stopped then Done (true, st) else
  let (stopped, st) := check st in
  if stopped then Done (true, st) else
  let* (px, res, st) :=
    if _transform_for_blend n then
      let* (px, _, st) := transform_in_place op inp in_size input_format (blend_colorspace op (n_data n)) st in
      let (res, c) := transform_colorspace op res (cst (f_dsc (r_flow st))) (blend_colorspace op (n_data n)) in
      let* st := write st out res in
      Done (px, res, r_set_flow (fl_set_dsc (set_cst c (f_dsc (r_flow st))) (r_flow st)) st)
    else Done (px, res, st) in
  let (stopped, st) := check st in
  if stopped then Done (true, st) else
  let (res, fl) := blend_process op (n_blendop_data n) px res roi_in roi_out (r_flow st) in
  let* st := write (r_set_flow fl st) out res in
  Done (false, st).

(** A mask is displayed instead of the image, and the module does not move pixels. *)
Definition shows_mask (n : node D) (in_bpp out_bpp : Z) (roi_in roi_out : roi_t) (fl : flow) : bool :=
  negb (String.eqb (n_op n) "gamma") &&
  negb (Z.land (f_mask_display fl) (Z.lor DT_DEV_PIXELPIPE_DISPLAY_ANY DT_DEV_PIXELPIPE_DISPLAY_MASK) =? 0) &&
  (Z.land (p_operation_tags (n_piece n)) IOP_TAG_DISTORT =? 0) &&
  (in_bpp =? out_bpp) && bool_decide (roi_bytes roi_in = roi_bytes roi_out).

(** post_process_collect_info: three tests with the colour pickers and the histogram
    between them. *)
Definition collect_info (addr : Z) (dsc : dsc_t) (st : run_t) : c_result (option (Z * dsc_t) * run_t) :=
  let (stopped, st) := check st in
  if stopped then Done (None, st) else
  let (stopped, st) := check st in
  if stopped then Done (None, st) else
  let (stopped, st) := check st in
  if stopped then Done (None, st) else Done (Some (addr, dsc), st).

(** ** The recursion *)

(** The part without modules: the input array with the wanted scale and region. *)
Definition process_base (roi_out : roi_t) (st : run_t) : c_result (option (Z * dsc_t) * run_t) :=
  let fmt := base_format in
  let* bpp := dt_iop_buffer_dsc_to_bpp fmt in
  let bufsize := size_of bpp roi_out in
  let (stopped, st) := check st in
  if stopped then Done (None, st) else
  let '(basichash, hash) := default (0, 0) (hashes None 0 roi_out) in
  if dt_dev_pixelpipe_cache_available (r_cache st) hash then
    let* (_, addr, fmt, st) := get_weighted basichash hash bufsize fmt 0 st in
    Done (Some (addr, fmt), st)
  else
  let (stopped, st) := check st in
  if stopped then Done (None, st) else
  let (stopped, st) := check st in
  if stopped then Done (None, st) else
  if whole_input roi_out then Done (Some (input, fmt), st)
  else
    let* (ret, addr, fmt, st) := get_weighted basichash hash bufsize fmt 0 st in
    if ret =? 0 then Done (Some (addr, fmt), st)
    else
      let* inb := match r_mem st !! input with Some b => Done b | None => Undefined end in
      let* px := base_pixels roi_out bpp bufsize inb in
      let* st := write st addr px in
      Done (Some (addr, fmt), st).

(** One module with the image below it: the format of the output, the buffer for it, the
    module itself. *)
Definition process_module (n : node D) (basichash hash bufsize : Z) (roi_in roi_out : roi_t) (inp : Z)
    (input_format : dsc_t) (st : run_t) : c_result (option (Z * dsc_t) * run_t) :=
  let* in_bpp := dt_iop_buffer_dsc_to_bpp input_format in
  let dsc_out := output_format (n_op n) (n_module n) (n_data n) (f_dsc (r_flow st)) input_format in
  let st := r_set_flow (fl_set_dsc dsc_out (r_flow st)) st in
  let fmt := set_channels (f_colors (r_flow st)) dsc_out in
  let* out_bpp := dt_iop_buffer_dsc_to_bpp fmt in
  let (stopped, st) := check st in
  if stopped then Done (None, st) else
  let weight := if important (n_op n) then - entries (r_cache st) else 0 in
  let* (_, out, fmt, st) := get_weighted basichash hash bufsize fmt weight st in
  let (stopped, st) := check st in
  if stopped then Done (None, st) else
  if shows_mask n in_bpp out_bpp roi_in roi_out (r_flow st) then
    let* px := read st inp (size_of in_bpp roi_in) in
    let* st := write st out px in
    let st := set_line_dsc out input_format (r_set_flow (fl_set_dsc input_format (r_flow st)) st) in
    Done (Some (out, input_format), st)
  else
  let (stopped, st) := check st in
  if stopped then Done (None, st) else
  let* (stopped, st) := pixelpipe_process_on_CPU n input_format inp input_format roi_in out fmt roi_out st in
  if stopped : bool then Done (None, st) else
  let fmt := f_dsc (r_flow st) in
  let st := set_line_dsc out fmt st in
  let st := if match gui_module with Some g => (g =? n_module n)%nat | None => false end
            then r_set_cache (dt_dev_pixelpipe_cache_reweight (r_cache st) inp) st else st in
  collect_info out fmt st.

(** [rest]: the nodes from here down to the first one. The result is [None] when the
    run was ended, and otherwise the address and the format of the output. *)
Fixpoint dt_dev_pixelpipe_process_rec (rest : list (node D)) (roi_out : roi_t) (fmt : dsc_t) (st : run_t)
    : c_result (option (Z * dsc_t) * run_t) :=
  match rest with
  | [] => process_base roi_out st
  | n :: below =>
      if skipped gui_module_filter n then dt_dev_pixelpipe_process_rec below roi_out fmt st
      else
      let fmt := output_format (n_op n) (n_module n) (n_data n) (f_dsc (r_flow st)) fmt in
      let* bpp := dt_iop_buffer_dsc_to_bpp fmt in
      let bufsize := size_of bpp roi_out in
      let (stopped, st) := check st in
      if stopped then Done (None, st) else
      let hs := hashes (Some (n_op n)) (length rest) roi_out in
      let '(basichash, hash) := default (0, 0) hs in
      if match hs with Some _ => dt_dev_pixelpipe_cache_available (r_cache st) hash | None => false end then
        let* (_, addr, fmt, st) := get_weighted basichash hash bufsize fmt 0 st in
        collect_info addr fmt st
      else
      let (stopped, st) := check st in
      if stopped then Done (None, st) else
      let (stopped, st) := check st in
      if stopped then Done (None, st) else
      let roi_in := modify_roi_in (n_op n) (n_data n) roi_out in
      let st := r_set_rois (<[length rest := (roi_in, roi_out)]> (r_rois st)) st in
      let* (r, st) := dt_dev_pixelpipe_process_rec below roi_in no_dsc st in
      match r with
      | None => Done (None, st)
      | Some (inp, input_format) => process_module n basichash hash bufsize roi_in roi_out inp input_format st
      end
  end.

(** ** A run

    dt_dev_pixelpipe_process up to the change of the nodes: the part about buffers. The
    result is the output with its format, or [None] for an error. *)

Definition dt_dev_pixelpipe_process (cache_obsolete : bool) (x y width height : Z) (scale : spec_float) (st : run_t)
    : c_result (option (Z * dsc_t) * run_t) :=
  let roi := Roi x y width height scale in
  let st := if cache_obsolete then r_set_cache (dt_dev_pixelpipe_cache_flush (r_cache st)) st else st in
  let fl := r_flow st in
  let st := r_set_flow (Flow (f_dsc fl) DT_DEV_PIXELPIPE_DISPLAY_NONE (f_colors fl)) st in
  let* (r, st) := dt_dev_pixelpipe_process_rec (rev all_nodes) roi no_dsc st in
  Done (r, r_set_cache (dt_dev_pixelpipe_cache_flush (r_cache st)) st).

(** What is shown of the output on the pipes with a display: four bytes a pixel. *)
Definition output_backbuf (width height : Z) (r : option (Z * dsc_t)) (st : run_t) : c_result (option (list ascii)) :=
  match r with
  | Some (buf, _) => let* b := read st buf (width * height * 4) in Done (Some b)
  | None => Done None
  end.

(** ** What a run computes: the modules one after the other, without cache and
    without addresses. A buffer is its contents; [cap] is the room in an output. *)

Definition buf_read (content : list ascii) (n : Z) : c_result (list ascii) :=
  if (0 <=? n) && (n <=? Z.of_nat (length content)) then Done (take (Z.to_nat n) content) else Undefined.

Definition buf_write (cap : Z) (bytes content : list ascii) : c_result (list ascii) :=
  if Z.of_nat (length bytes) <=? cap then Done (bytes ++ drop (length bytes) content) else Undefined.

Definition render_transform (op : string) (content : list ascii) (n : Z) (dsc : dsc_t) (to : Z)
    : c_result (list ascii * dsc_t * list ascii) :=
  let* px := buf_read content n in
  let '(px, c) := transform_colorspace op px (cst dsc) to in
  let* content := buf_write (Z.of_nat (length content)) px content in
  Done (px, set_cst c dsc, content).

Definition render_module (n : node D) (dsc_in : dsc_t) (content : list ascii) (input_format : dsc_t) (roi_in : roi_t)
    (cap : Z) (out_format : dsc_t) (roi_out : roi_t) (fl : flow) : c_result (list ascii * flow) :=
  let op := n_op n in
  let* in_bpp := dt_iop_buffer_dsc_to_bpp input_format in
  let in_size := size_of in_bpp roi_in in
  let* (px, input_format, content) := render_transform op content in_size input_format (input_colorspace op (n_data n)) in
  let* bpp := dt_iop_buffer_dsc_to_bpp out_format in
  let run := if n_tiling_ready n && negb (fits_host_memory op (n_data n) roi_in roi_out (Z.max in_bpp bpp))
             then process_tiling else process in
  let (res, fl) := run op (n_data n) dsc_in px roi_in roi_out fl in
  let fl := fl_set_dsc (set_cst (output_colorspace op (n_data n)) (f_dsc fl)) fl in
  let* out := buf_write cap res [] in
  let* (px, res, out, fl) :=
    if _transform_for_blend n then
      let* (px, _, _) := render_transform op content in_size input_format (blend_colorspace op (n_data n)) in
      let (res, c) := transform_colorspace op res (cst (f_dsc fl)) (blend_colorspace op (n_data n)) in
      let* out := buf_write cap res out in
      Done (px, res, out, fl_set_dsc (set_cst c (f_dsc fl)) fl)
    else Done (px, res, out, fl) in
  let (res, fl) := blend_process op (n_blendop_data n) px res roi_in roi_out fl in
  let* out := buf_write cap res out in
  Done (out, fl).

Definition render_base (roi_out : roi_t) (inb : list ascii) : c_result (list ascii * dsc_t) :=
  let* bpp := dt_iop_buffer_dsc_to_bpp base_format in
  let bufsize := size_of bpp roi_out in
  if whole_input roi_out then Done (inb, base_format)
  else if bufsize =? 0 then Undefined
  else
    let* px := base_pixels roi_out bpp bufsize inb in
    let* out := buf_write bufsize px [] in
    Done (out, base_format).

(** One module, or its input while a mask is displayed. *)
Definition render_node (n : node D) (bufsize : Z) (roi_in roi_out : roi_t) (content : list ascii) (input_format : dsc_t)
    (fl : flow) : c_result (list ascii * dsc_t * flow) :=
  let* in_bpp := dt_iop_buffer_dsc_to_bpp input_format in
  let dsc_out := output_format (n_op n) (n_module n) (n_data n) (f_dsc fl) input_format in
  let fl := fl_set_dsc dsc_out fl in
  let out_format := set_channels (f_colors fl) dsc_out in
  let* out_bpp := dt_iop_buffer_dsc_to_bpp out_format in
  if shows_mask n in_bpp out_bpp roi_in roi_out fl then
    let* px := buf_read content (size_of in_bpp roi_in) in
    let* out := buf_write bufsize px [] in
    Done (out, input_format, fl_set_dsc input_format fl)
  else
    let* (out, fl) := render_module n input_format content input_format roi_in bufsize out_format roi_out fl in
    Done (out, f_dsc fl, fl).

(** The contents, the format and the flow behind the nodes [rest]. *)
Fixpoint render (rest : list (node D)) (roi_out : roi_t) (fmt : dsc_t) (inb : list ascii) (fl : flow)
    : c_result (list ascii * dsc_t * flow) :=
  match rest with
  | [] => let* (b, fmt) := render_base roi_out inb in Done (b, fmt, fl)
  | n :: below =>
      if skipped gui_module_filter n then render below roi_out fmt inb fl
      else
      let* bpp := dt_iop_buffer_dsc_to_bpp (output_format (n_op n) (n_module n) (n_data n) (f_dsc fl) fmt) in
      let bufsize := size_of bpp roi_out in
      if bufsize =? 0 then Undefined else
      let roi_in := modify_roi_in (n_op n) (n_data n) roi_out in
      let* (content, input_format, fl) := render below roi_in no_dsc inb fl in
      render_node n bufsize roi_in roi_out content input_format fl
  end.

(** The hashes a run asks for, from the top. *)
Definition hash_at (op : option string) (pos : nat) (roi : roi_t) : Z := snd (default (0, 0) (hashes op pos roi)).

Fixpoint run_hashes (rest : list (node D)) (roi : roi_t) : list Z :=
  match rest with
  | [] => [hash_at None 0 roi]
  | n :: below =>
      if skipped gui_module_filter n then run_hashes below roi
      else hash_at (Some (n_op n)) (length rest) roi :: run_hashes below (modify_roi_in (n_op n) (n_data n) roi)
  end.

(** The lines that a run gives more weight than their age, and the lines it needs so
    that the input of a module is never the one that is replaced by its output. *)
Definition special (n : node D) : nat :=
  (if important (n_op n) then 1 else 0) +
  (if match gui_module with Some g => (g =? n_module n)%nat | None => false end then 1 else 0).

Fixpoint specials (rest : list (node D)) : nat :=
  match rest with
  | [] => 0
  | n :: below => (if skipped gui_module_filter n then 0 else special n) + specials below
  end.

Fixpoint lines_needed (rest : list (node D)) : nat :=
  match rest with
  | [] => 1
  | n :: below => if skipped gui_module_filter n then lines_needed below
                  else Nat.max (specials below + 2) (lines_needed below)
  end.

(** ** Lemmas: buffers *)

(** The buffer at an address starts with these bytes. *)
Definition holds (st : run_t) (addr : Z) (content : list ascii) : Prop :=
  exists rest, r_mem st !! addr = Some (content ++ rest).

(** Two caches that differ in formats only. *)
Definition line_key (l : cache_line dsc_t) := (l_data l, l_size l, l_hash l, l_used l).
Definition same_lines (c c' : dt_dev_pixelpipe_cache_t dsc_t) : Prop :=
  map line_key (lines c') = map line_key (lines c).

(** Everything but one buffer and formats is the same, and buffers keep their lengths. *)
Definition same_but (addr : Z) (st st' : run_t) : Prop :=
  same_lines (r_cache st) (r_cache st') /\ r_flow st' = r_flow st /\
  (forall a, a <> addr -> r_mem st' !! a = r_mem st !! a) /\
  (forall b, r_mem st !! addr = Some b -> exists b', r_mem st' !! addr = Some b' /\ length b' = length b).

Lemma read_holds st addr content n px :
  holds st addr content -> buf_read content n = Done px -> read st addr n = Done px.
Proof.
  intros [rest Hb]. unfold buf_read, read. rewrite Hb, length_app.
  destruct (Z.leb_spec 0 n), (Z.leb_spec n (Z.of_nat (length content))); cbn [andb]; try done. intros [= <-].
  destruct (Z.leb_spec n (Z.of_nat (length content + length rest))); [|lia].
  f_equal. apply take_app_le. lia.
Qed.

Lemma write_room st addr b bytes :
  r_mem st !! addr = Some b -> (length bytes <= length b)%nat ->
  exists st', write st addr bytes = Done st' /\ same_but addr st st' /\
              r_mem st' !! addr = Some (bytes ++ drop (length bytes) b).
Proof.
  intros Hb Hl. unfold write. rewrite Hb. destruct (Nat.leb_spec (length bytes) (length b)); [|lia].
  eexists. split; [done|]. split; [|by apply lookup_insert_eq].
  split_and!; [done|done| |].
  - intros a Ha. by apply lookup_insert_ne.
  - intros b' Hb'. cbn [r_mem r_set_mem]. simplify_eq. eexists. split; [by apply lookup_insert_eq|].
    rewrite length_app, length_drop. lia.
Qed.

Lemma write_holds st addr content bytes content' :
  holds st addr content -> buf_write (Z.of_nat (length content)) bytes content = Done content' ->
  exists st', write st addr bytes = Done st' /\ same_but addr st st' /\ holds st' addr content'.
Proof.
  intros [rest Hb] Hw. unfold buf_write in Hw. destruct (Z.leb_spec (Z.of_nat (length bytes)) (Z.of_nat (length content))); [|done].
  simplify_eq. destruct (write_room st addr _ bytes Hb) as (st' & Hst & Hsame & Hmem); [rewrite length_app; lia|].
  exists st'. split_and!; try done. exists rest. rewrite Hmem, drop_app_le by lia. by rewrite app_assoc.
Qed.

(** A write to an output buffer with room for [cap] bytes. *)
Definition has_room (st : run_t) (addr cap : Z) : Prop :=
  exists b, r_mem st !! addr = Some b /\ cap <= Z.of_nat (length b).

Lemma write_output st addr cap content bytes content' :
  holds st addr content -> has_room st addr cap -> buf_write cap bytes content = Done content' ->
  exists st', write st addr bytes = Done st' /\ same_but addr st st' /\ holds st' addr content' /\ has_room st' addr cap.
Proof.
  intros [rest Hb] (b & Hb' & Hcap) Hw. unfold buf_write in Hw.
  destruct (Z.leb_spec (Z.of_nat (length bytes)) cap); [|done]. simplify_eq.
  destruct (write_room st addr _ bytes Hb) as (st' & Hst & Hsame & Hmem); [rewrite length_app in *; lia|].
  exists st'. split_and!; try done.
  - unfold holds. rewrite Hmem, drop_app. exists (drop (length bytes - length content) rest). by rewrite app_assoc.
  - eexists. split; [exact Hmem|]. rewrite length_app, length_drop. lia.
Qed.

Lemma holds_nil st addr b : r_mem st !! addr = Some b -> holds st addr [].
Proof. intros Hb. by exists b. Qed.

Lemma same_but_holds addr st st' a content :
  same_but addr st st' -> a <> addr -> holds st a content -> holds st' a content.
Proof. intros (_ & _ & Hm & _) Ha [rest Hb]. exists rest. by rewrite Hm. Qed.

Lemma same_but_room addr st st' a cap :
  same_but addr st st' -> has_room st a cap -> has_room st' a cap.
Proof.
  intros (_ & _ & Hm & Hl) (b & Hb & Hc). destruct (decide (a = addr)) as [->|Hne].
  - destruct (Hl b Hb) as (b' & Hb' & Hlen). exists b'. split; [done|lia].
  - exists b. split; [by rewrite Hm|done].
Qed.

(** ** Lemmas: the cache and its buffers *)

Record cache_ok (st : run_t) : Prop := Cache_ok {
  ok_distinct : forall i j l l', lines (r_cache st) !! i = Some l -> lines (r_cache st) !! j = Some l' ->
                l_data l = l_data l' -> l_data l <> 0 -> i = j;
  ok_null : forall l, l ∈ lines (r_cache st) -> l_data l = 0 -> l_size l = 0;
  ok_buffer : forall l, l ∈ lines (r_cache st) -> l_data l <> 0 ->
              exists b, r_mem st !! l_data l = Some b /\ Z.of_nat (length b) = l_size l;
  ok_input : input <> 0 /\ is_Some (r_mem st !! input) /\ input ∉ addresses (r_cache st);
}.

Lemma same_lines_lookup c c' i l :
  same_lines c c' -> lines c' !! i = Some l -> exists l0, lines c !! i = Some l0 /\ line_key l0 = line_key l.
Proof.
  intros Hs Hi. pose proof (f_equal (fun x => x !! i) Hs) as H. cbn beta in H. rewrite !list_lookup_fmap, Hi in H.
  destruct (lines c !! i) as [l0|]; [|done]. cbn [fmap option_fmap option_map] in H. exists l0. split; [done|congruence].
Qed.

Lemma same_lines_addresses c c' : same_lines c c' -> addresses c' = addresses c.
Proof.
  intros H. unfold addresses. apply (f_equal (map (fun k => fst (fst (fst k))))) in H. rewrite !map_map in H. exact H.
Qed.

(** The lines with their buffers and sizes. *)
Definition owners (c : dt_dev_pixelpipe_cache_t dsc_t) : list (Z * Z) := map (fun l => (l_data l, l_size l)) (lines c).

Lemma owners_lookup c c' i l :
  owners c' = owners c -> lines c' !! i = Some l ->
  exists l0, lines c !! i = Some l0 /\ l_data l0 = l_data l /\ l_size l0 = l_size l.
Proof.
  intros Hs Hi. pose proof (f_equal (fun x => x !! i) Hs) as H. unfold owners in H. cbn beta in H.
  rewrite !list_lookup_fmap, Hi in H. destruct (lines c !! i) as [l0|]; [|done]. cbn in H. exists l0. by simplify_eq.
Qed.

Lemma owners_addresses c c' : owners c' = owners c -> addresses c' = addresses c.
Proof. intros H. apply (f_equal (map fst)) in H. unfold owners in H. by rewrite !map_map in H. Qed.

Lemma cache_ok_owners st st' :
  cache_ok st -> owners (r_cache st') = owners (r_cache st) ->
  (forall a b, a = input \/ a ∈ addresses (r_cache st) -> r_mem st !! a = Some b ->
               exists b', r_mem st' !! a = Some b' /\ length b' = length b) ->
  cache_ok st'.
Proof.
  intros [H1 H2 H3 (H4 & H5 & H6)] Hs Hm. split.
  - intros i j l l' Hi Hj He Hn.
    destruct (owners_lookup _ _ _ _ Hs Hi) as (l0 & Hi0 & Hd & _).
    destruct (owners_lookup _ _ _ _ Hs Hj) as (l1 & Hj1 & Hd1 & _).
    apply (H1 i j l0 l1); congruence.
  - intros l [i Hi]%list_elem_of_lookup Hd. destruct (owners_lookup _ _ _ _ Hs Hi) as (l0 & Hi0 & Hd0 & <-).
    apply H2; [by eapply list_elem_of_lookup_2|congruence].
  - intros l [i Hi]%list_elem_of_lookup Hd. destruct (owners_lookup _ _ _ _ Hs Hi) as (l0 & Hi0 & Hd0 & Hs0).
    rewrite <- Hd0, <- Hs0 in *. apply list_elem_of_lookup_2 in Hi0. destruct (H3 l0) as (b & Hb & Hl); [done..|].
    destruct (Hm (l_data l0) b) as (b' & Hb' & Hl'); [right; by apply list_elem_of_fmap_2|done|].
    exists b'. split; [done|lia].
  - split_and!; [done| |by rewrite (owners_addresses _ _ Hs)].
    destruct H5 as [b Hb]. destruct (Hm input b) as (b' & Hb' & _); [by left|done|by exists b'].
Qed.

Lemma same_lines_owners c c' : same_lines c c' -> owners c' = owners c.
Proof.
  intros H. unfold owners. apply (f_equal (map (fun '(d, s, _, _) => (d, s)))) in H. rewrite !map_map in H. exact H.
Qed.

Lemma cache_ok_frame st st' :
  cache_ok st -> same_lines (r_cache st) (r_cache st') ->
  (forall a b, r_mem st !! a = Some b -> exists b', r_mem st' !! a = Some b' /\ length b' = length b) ->
  cache_ok st'.
Proof. intros Hok Hs Hm. eapply cache_ok_owners; [exact Hok|by apply same_lines_owners|eauto]. Qed.

Lemma same_but_lengths addr st st' :
  same_but addr st st' ->
  forall a b, r_mem st !! a = Some b -> exists b', r_mem st' !! a = Some b' /\ length b' = length b.
Proof.
  intros (_ & _ & Hm & Hl) a b Hb. destruct (decide (a = addr)) as [->|Hne]; [by apply Hl|].
  exists b. split; [by rewrite Hm|done].
Qed.

(** The allocator gives addresses that are not in use. *)
Definition alloc_fresh : Prop :=
  forall mem size, 0 < size -> alloc mem size <> 0 /\ mem !! alloc mem size = None.

(** The address is the input of the pipe or the buffer of another line than [v]. *)
Definition kept_by (v : nat) (st : run_t) (a : Z) : Prop :=
  a = input \/ exists k l, k <> v /\ lines (r_cache st) !! k = Some l /\ l_data l = a /\ a <> 0.

(** A miss: the line that changes, the buffer it gets, and that all others are as they
    were. *)
Record missed (basichash hash size weight : Z) (dsc : dsc_t) (st st' : run_t) (v : nat) (addr sz : Z) : Prop := Missed {
  ms_victim : oldest_at v (lines (r_cache st));
  ms_addr : addr <> 0 /\ addr <> input;
  ms_size : size <= sz;
  ms_lines : lines (r_cache st') = <[v := Line addr sz dsc basichash hash weight]>
                                     (map (aged hash weight) (lines (r_cache st)));
  ms_flow : r_flow st' = r_flow st;
  ms_buffer : exists b, r_mem st' !! addr = Some b /\ Z.of_nat (length b) = sz;
  ms_kept : forall a, kept_by v st a -> r_mem st' !! a = r_mem st !! a /\ a <> addr;
}.

Lemma aged_data hash weight (l : cache_line dsc_t) : l_data (aged hash weight l) = l_data l.
Proof. done. Qed.

Lemma missed_lookup basichash hash size weight dsc st st' v addr sz k l :
  missed basichash hash size weight dsc st st' v addr sz -> lines (r_cache st') !! k = Some l ->
  (k = v /\ l = Line addr sz dsc basichash hash weight) \/
  (k <> v /\ exists l0, lines (r_cache st) !! k = Some l0 /\ l = aged hash weight l0).
Proof.
  intros Hm Hk. rewrite (ms_lines _ _ _ _ _ _ _ _ _ _ Hm) in Hk. destruct (decide (k = v)) as [->|Hne].
  - left. split; [done|]. apply list_lookup_insert_Some in Hk as [(_ & ? & _)|[? _]]; [done|done].
  - right. split; [done|]. rewrite list_lookup_insert_ne in Hk by done. by apply aged_lookup_inv in Hk.
Qed.

(** One line gets another buffer. *)
Lemma replaced_ok v addr sz st st' :
  cache_ok st -> addr <> 0 -> addr <> input ->
  (forall k l, lines (r_cache st') !! k = Some l ->
     (k = v /\ l_data l = addr /\ l_size l = sz) \/
     (k <> v /\ exists l0, lines (r_cache st) !! k = Some l0 /\ l_data l0 = l_data l /\ l_size l0 = l_size l)) ->
  (exists b, r_mem st' !! addr = Some b /\ Z.of_nat (length b) = sz) ->
  (forall a, kept_by v st a -> r_mem st' !! a = r_mem st !! a /\ a <> addr) -> cache_ok st'.
Proof.
  intros Hok Ha1 Ha2 Hl Hbuf Hkept.
  assert (forall k l0, k <> v -> lines (r_cache st) !! k = Some l0 -> l_data l0 <> 0 ->
                       r_mem st' !! l_data l0 = r_mem st !! l_data l0 /\ l_data l0 <> addr) as Hother.
  { intros k l0 Hk Hl0 Hd. apply Hkept. right. by exists k, l0. }
  split.
  - intros i j l l' Hi Hj He Hn.
    destruct (Hl _ _ Hi) as [(-> & Hd & _)|(Hi1 & li & Hi2 & Hdi & _)], (Hl _ _ Hj) as [(-> & Hd' & _)|(Hj1 & lj & Hj2 & Hdj & _)]; [done|..].
    + destruct (Hother j lj Hj1 Hj2); congruence.
    + destruct (Hother i li Hi1 Hi2); congruence.
    + apply (ok_distinct _ Hok i j li lj); congruence.
  - intros l [k Hk]%list_elem_of_lookup Hd. destruct (Hl _ _ Hk) as [(_ & ? & _)|(_ & l0 & Hl0 & Hd0 & <-)]; [congruence|].
    apply (ok_null _ Hok l0); [by eapply list_elem_of_lookup_2|congruence].
  - intros l [k Hk]%list_elem_of_lookup Hd. destruct (Hl _ _ Hk) as [(_ & -> & ->)|(Hne & l0 & Hl0 & Hd0 & <-)]; [done|].
    rewrite <- Hd0 in *. destruct (Hother k l0 Hne Hl0 Hd) as [-> _].
    apply (ok_buffer _ Hok); [by eapply list_elem_of_lookup_2|done].
  - destruct (ok_input _ Hok) as (H1 & H2 & H3). split_and!; [done| |].
    + destruct (Hkept input) as [-> _]; [by left|done].
    + intros (l & Heq & Hin)%list_elem_of_fmap. apply list_elem_of_lookup in Hin as [k Hk].
      destruct (Hl _ _ Hk) as [(_ & ? & _)|(_ & l0 & Hl0 & Hd0 & _)]; [congruence|].
      apply H3. rewrite Heq, <- Hd0. apply list_elem_of_fmap_2. by eapply list_elem_of_lookup_2.
Qed.

Lemma missed_ok basichash hash size weight dsc st st' v addr sz :
  missed basichash hash size weight dsc st st' v addr sz -> cache_ok st -> cache_ok st'.
Proof.
  intros Hm Hok. pose proof Hm as [_ [Ha1 Ha2] _ _ _ Hbuf Hkept]. apply (replaced_ok v addr sz st); [done..| |done|done].
  intros k l Hk. destruct (missed_lookup _ _ _ _ _ _ _ _ _ _ _ _ Hm Hk) as [[-> ->]|(Hne & l0 & Hl0 & ->)]; [by left|].
  right. split; [done|]. by exists l0.
Qed.

(** The memory after a query: the buffer asked for, the input and the lines. *)
Lemma kept_in_mem (cache : dt_dev_pixelpipe_cache_t dsc_t) (mem : gmap Z (list ascii)) a :
  a = input \/ a ∈ addresses cache ->
  filter (fun '(a, _) => a = input \/ a ∈ addresses cache) mem !! a = mem !! a.
Proof.
  intros Ha. destruct (mem !! a) as [b|] eqn:E; [by apply map_lookup_filter_Some|].
  apply map_lookup_filter_None. by left.
Qed.

Lemma owners_aged hash weight (ls : list (cache_line dsc_t)) :
  map (fun l => (l_data l, l_size l)) (map (aged hash weight) ls) = map (fun l => (l_data l, l_size l)) ls.
Proof. by rewrite map_map. Qed.

Lemma size_nonneg st l : cache_ok st -> l ∈ lines (r_cache st) -> 0 <= l_size l.
Proof.
  intros Hok Hl. destruct (decide (l_data l = 0)) as [Hd|Hd]; [by rewrite (ok_null _ Hok l Hl Hd)|].
  destruct (ok_buffer _ Hok l Hl Hd) as (b & _ & <-). lia.
Qed.

(** No line gets another buffer. *)
Lemma same_owners_ok st cache (mem : gmap Z (list ascii)) :
  cache_ok st -> owners cache = owners (r_cache st) -> (forall a b, r_mem st !! a = Some b -> mem !! a = Some b) ->
  cache_ok (r_set_mem (filter (fun '(a, _) => a = input \/ a ∈ addresses cache) mem) (r_set_cache cache st)).
Proof.
  intros Hok Ho Hm. apply (cache_ok_owners st); [done..|]. intros a b Ha Hb. exists b. split; [|done].
  cbn [r_mem r_set_mem]. rewrite kept_in_mem; [by apply Hm|]. by rewrite (owners_addresses _ _ Ho).
Qed.

(** A line gets a new buffer. *)
Lemma new_buffer_ok st v l data size dsc basichash hash weight queries misses :
  cache_ok st -> lines (r_cache st) !! v = Some l -> data <> 0 -> r_mem st !! data = None -> 0 <= size ->
  let cache := PCache (<[v := Line data size dsc basichash hash weight]> (map (aged hash weight) (lines (r_cache st)))) queries misses in
  cache_ok (r_set_mem (filter (fun '(a, _) => a = input \/ a ∈ addresses cache)
                              (<[data := replicate (Z.to_nat size) NUL]> (r_mem st))) (r_set_cache cache st)).
Proof.
  intros Hok Hv Hd Hnone Hs cache. destruct (ok_input _ Hok) as (Hi1 & [bi Hi2] & Hi3).
  apply lookup_lt_Some in Hv as Hlt.
  apply (replaced_ok v data size st); [done..|congruence| | |].
  - intros k l' Hk. cbn [r_cache r_set_cache r_set_mem cache lines] in Hk. destruct (decide (k = v)) as [->|Hne].
    + apply list_lookup_insert_Some in Hk as [(_ & <- & _)|[? _]]; [by left|done].
    + right. split; [done|]. rewrite list_lookup_insert_ne in Hk by done. apply aged_lookup_inv in Hk as (l0 & Hk & ->). by exists l0.
  - exists (replicate (Z.to_nat size) NUL). split; [|rewrite length_replicate; lia]. cbn [r_mem r_set_mem].
    rewrite kept_in_mem; [by apply lookup_insert_eq|]. right. unfold addresses, cache. cbn [lines].
    apply list_elem_of_fmap. eexists. split; [|apply (list_elem_of_lookup_2 _ v), list_lookup_insert_eq; by rewrite length_map]. done.
  - intros a Ha. cbn [r_mem r_set_mem].
    assert (is_Some (r_mem st !! a) /\ (a = input \/ a ∈ addresses cache)) as [[b Hb] Hin].
    { destruct Ha as [->|(k & l0 & Hk & Hl0 & <- & Ha)]; [split; [by eexists|by left]|]. split.
      - destruct (ok_buffer _ Hok l0) as (b & Hb & _); [by eapply list_elem_of_lookup_2|done|by eexists].
      - right. unfold addresses, cache. cbn [lines]. apply list_elem_of_fmap. exists (aged hash weight l0). split; [done|].
        apply (list_elem_of_lookup_2 _ k). rewrite list_lookup_insert_ne by done. by apply aged_lookup. }
    assert (a <> data) as Hne by congruence. split; [|done]. rewrite kept_in_mem by done. by rewrite lookup_insert_ne.
Qed.

Lemma get_keeps basichash hash size dsc weight st ret data d st' :
  alloc_fresh -> 0 <= size -> cache_ok st -> get_weighted basichash hash size dsc weight st = Done (ret, data, d, st') ->
  cache_ok st'.
Proof.
  intros Hal Hs Hok. unfold get_weighted, dt_dev_pixelpipe_cache_get_weighted.
  pose proof (search_loop_lines hash weight 0 (lines (r_cache st)) (Search (-1) 0 0 0 dsc)) as Hl.
  destruct (search_loop _ _ _ _ _) as [ls sr]. cbn [fst] in Hl. subst ls.
  assert (forall data a b, r_mem st !! a = Some b ->
    match r_mem st !! data with Some _ => r_mem st
    | None => if data =? 0 then r_mem st else <[data := replicate (Z.to_nat size) NUL]> (r_mem st) end !! a = Some b) as Hmem.
  { intros data' a b Ha. destruct (r_mem st !! data') eqn:E; [done|]. destruct (data' =? 0); [done|].
    rewrite lookup_insert_ne; [done|congruence]. }
  destruct ((s_data sr =? 0) || (s_sz sr <? size)).
  - destruct (map (aged hash weight) (lines (r_cache st)) !! max sr) as [l|] eqn:Ev; [|done].
    apply aged_lookup_inv in Ev as (l0 & Hv & ->). cbn [l_size l_data aged].
    pose proof (size_nonneg st l0 Hok ltac:(by eapply list_elem_of_lookup_2)) as Hl0.
    change (l_size (aged hash weight l0)) with (l_size l0). change (l_data (aged hash weight l0)) with (l_data l0).
    destruct (Z.ltb_spec (l_size l0) size); cbn [c_bind]; intros [= _ _ _ <-].
    + destruct (Hal (r_mem st) size) as [Ha1 Ha2]; [lia|]. rewrite Ha2. destruct (Z.eqb_spec (alloc (r_mem st) size) 0); [done|].
      by apply (new_buffer_ok st (max sr) l0).
    + apply same_owners_ok; [done| |by apply Hmem]. unfold owners. cbn [lines].
      etransitivity; [apply (list_fmap_insert (fun l => (l_data l, l_size l)))|]. cbn [l_data l_size].
      etransitivity; [apply list_insert_id; by rewrite !list_lookup_fmap, Hv|apply owners_aged].
  - cbn [c_bind]. intros [= _ _ _ <-]. apply same_owners_ok; [done|apply owners_aged|by apply Hmem].
Qed.

Lemma get_missed basichash hash size dsc weight st :
  alloc_fresh -> cache_ok st -> lines (r_cache st) <> [] -> Forall (fun l => l_hash l <> hash) (lines (r_cache st)) -> 0 < size ->
  exists v addr sz st', get_weighted basichash hash size dsc weight st = Done (1, addr, dsc, st') /\
                        missed basichash hash size weight dsc st st' v addr sz.
Proof.
  intros Hal Hok Hne Hno Hsize. unfold get_weighted.
  destruct (lines_miss (alloc (r_mem st) size) (r_cache st) basichash hash size dsc weight Hne Hno)
    as (v & l & data & sz & Hv & Hold & Hd & ->). cbn [c_bind].
  set (cache := PCache _ _ _). destruct (Hal (r_mem st) size Hsize) as [Hal1 Hal2].
  pose proof (list_elem_of_lookup_2 _ _ _ Hv) as Hin.
  assert (v < length (lines (r_cache st)))%nat as Hlt by by eapply lookup_lt_Some.
  destruct (ok_input _ Hok) as (Hi1 & [bi Hi2] & Hi3).
  assert (data ∈ addresses cache) as Hdin.
  { unfold addresses, cache. cbn [lines]. apply list_elem_of_In, in_map_iff.
    eexists. split; [|apply list_elem_of_In, (list_elem_of_lookup_2 _ v), list_lookup_insert_eq; by rewrite length_map]. done. }
  assert (forall a, kept_by v st a -> a = input \/ a ∈ addresses cache) as Hlive.
  { intros a [->|(k & l0 & Hk & Hl0 & <- & _)]; [by left|right]. unfold addresses, cache. cbn [lines].
    apply list_elem_of_In, in_map_iff. exists (aged hash weight l0). split; [done|].
    apply list_elem_of_In, (list_elem_of_lookup_2 _ k). rewrite list_lookup_insert_ne by done. by apply aged_lookup. }
  assert (forall a, kept_by v st a -> is_Some (r_mem st !! a) /\ (a = input \/ exists k, k <> v /\ exists l0,
            lines (r_cache st) !! k = Some l0 /\ l_data l0 = a /\ a <> 0)) as Hin_mem.
  { intros a [->|(k & l0 & Hk & Hl0 & <- & Ha)]; [split; [by eexists|by left]|]. split; [|right; eauto 10].
    destruct (ok_buffer _ Hok l0) as (b & Hb & _); [by eapply list_elem_of_lookup_2|done|by eexists]. }
  destruct (Z.ltb_spec (l_size l) size) as [Hs|Hs]; injection Hd as -> ->.
  - rewrite Hal2. destruct (Z.eqb_spec (alloc (r_mem st) size) 0) as [|_]; [done|].
    exists v, (alloc (r_mem st) size), size. eexists. split; [reflexivity|]. split; cbn [r_mem r_cache r_set_mem r_set_cache].
    + done.
    + split; [done|]. intros Heq. by rewrite Heq, Hi2 in Hal2.
    + lia.
    + done.
    + done.
    + exists (replicate (Z.to_nat size) NUL). split; [|rewrite length_replicate; lia].
      apply map_lookup_filter_Some. split; [by apply lookup_insert_eq|by right].
    + intros a Ha. destruct (Hin_mem a Ha) as [[b Hb] _].
      assert (a <> alloc (r_mem st) size) as Hna by congruence. split; [|done].
      rewrite Hb. apply map_lookup_filter_Some. split; [by rewrite lookup_insert_ne|by apply Hlive].
  - assert (l_data l <> 0) as Hdata. { intros H0. rewrite (ok_null _ Hok l Hin H0) in Hs. lia. }
    destruct (ok_buffer _ Hok l Hin Hdata) as (b & Hb & Hlb). rewrite Hb.
    exists v, (l_data l), (l_size l). eexists. split; [reflexivity|]. split; cbn [r_mem r_cache r_set_mem r_set_cache].
    + done.
    + split; [done|]. intros Heq. apply Hi3. rewrite <- Heq. apply list_elem_of_In, in_map_iff. exists l. split; [done|]. by apply list_elem_of_In.
    + done.
    + done.
    + done.
    + exists b. split; [|done]. apply map_lookup_filter_Some. split; [done|by right].
    + intros a Ha. destruct (Hin_mem a Ha) as [[b' Hb'] Hcase]. split.
      * rewrite Hb'. apply map_lookup_filter_Some. split; [done|by apply Hlive].
      * destruct Hcase as [->|(k & Hk & l0 & Hl0 & <- & Hn0)].
        -- intros ->. apply Hi3. apply list_elem_of_In, in_map_iff. exists l. split; [done|]. by apply list_elem_of_In.
        -- intros Heq. apply Hk. by apply (ok_distinct _ Hok k v l0 l).
Qed.

(** ** Lemmas: ages *)

Definition neg (ls : list (cache_line dsc_t)) : nat := length (List.filter (fun l => l_used l <? 0) ls).
Definition young (ls : list (cache_line dsc_t)) : nat := length (List.filter (fun l => l_used l <=? 0) ls).

Lemma filter_insert_le (f : cache_line dsc_t -> bool) v x ls :
  (length (List.filter f (<[v := x]> ls)) <= length (List.filter f ls) + (if f x then 1 else 0))%nat.
Proof.
  revert v. induction ls as [|l ls IH]; intros v; [destruct v; cbn; lia|].
  destruct v as [|v]; [change (<[0%nat := x]> (l :: ls)) with (x :: ls)|change (<[S v := x]> (l :: ls)) with (l :: <[v := x]> ls)];
    cbn [List.filter]; [destruct (f x), (f l); cbn; lia|].
  specialize (IH v). destruct (f l); cbn [length]; lia.
Qed.

Lemma filter_map_le (f h : cache_line dsc_t -> bool) g ls :
  Forall (fun l => f (g l) = true -> h l = true) ls ->
  (length (List.filter f (map g ls)) <= length (List.filter h ls))%nat.
Proof.
  induction 1 as [|l ls Hl _ IH]; [done|]. cbn. destruct (f (g l)) eqn:E; [rewrite (Hl eq_refl); cbn; lia|destruct (h l); cbn; lia].
Qed.

(** After a miss the lines below zero are at most one more, and the young ones are
    those that were below zero and the new one. *)
Lemma missed_ages basichash hash size weight dsc st st' v addr sz :
  missed basichash hash size weight dsc st st' v addr sz -> Forall (fun l => l_hash l <> hash) (lines (r_cache st)) ->
  (neg (lines (r_cache st')) <= neg (lines (r_cache st)) + (if (weight <? 0)%Z then 1 else 0))%nat /\
  (young (lines (r_cache st')) <= neg (lines (r_cache st)) + 1)%nat.
Proof.
  intros Hm Hno. rewrite (ms_lines _ _ _ _ _ _ _ _ _ _ Hm). split.
  - etransitivity; [apply filter_insert_le|]. cbn [l_used]. apply Nat.add_le_mono_r. apply filter_map_le.
    eapply Forall_impl; [exact Hno|]. intros l Hl. unfold aged. destruct (Z.eqb_spec (l_hash l) hash); [done|].
    cbn [l_used set_used]. rewrite !Z.ltb_lt. lia.
  - etransitivity; [apply filter_insert_le|]. cbn [l_used]. apply Nat.add_le_mono; [|destruct (weight <=? 0); lia].
    apply filter_map_le. eapply Forall_impl; [exact Hno|]. intros l Hl. unfold aged. destruct (Z.eqb_spec (l_hash l) hash); [done|].
    cbn [l_used set_used]. rewrite Z.leb_le, Z.ltb_lt. lia.
Qed.

(** A line that was used just now is not the oldest one while there are old ones. *)
Lemma oldest_not_young v k l ls :
  oldest_at v ls -> ls !! k = Some l -> l_used l <= 0 -> (young ls < length ls)%nat -> k <> v.
Proof.
  intros (lv & Hv & Hold) Hk Hl Hy ->. simplify_eq.
  assert (Forall (fun l' => l_used l' <= 0) ls) as Hall.
  { destruct Hold as [H|[_ H]]; (eapply Forall_impl; [exact H|]); cbn; lia. }
  assert (young ls = length ls) as Heq; [|lia]. clear -Hall. unfold young.
  induction Hall as [|l ls Hl _ IH]; [done|]. cbn. destruct (Z.leb_spec (l_used l) 0); [|lia]. cbn. by rewrite IH.
Qed.

(** ** Lemmas: levels of a run *)

(** The cache after some modules: no line has a hash but theirs, at most [s] lines have
    been given more weight. *)
Record level (n s : nat) (hs : list Z) (st : run_t) : Prop := Level {
  lv_ok : cache_ok st;
  lv_entries : length (lines (r_cache st)) = n;
  lv_hashes : Forall (fun l => l_hash l = INVALID \/ l_hash l ∈ hs) (lines (r_cache st));
  lv_neg : (neg (lines (r_cache st)) <= s)%nat;
}.

(** The output of the last module: not the next line to be replaced. *)
Definition safe_output (s : nat) (st : run_t) (addr : Z) : Prop :=
  addr = input \/
  addr <> 0 /\ (exists k l, lines (r_cache st) !! k = Some l /\ l_data l = addr /\ l_used l <= 0) /\
  (young (lines (r_cache st)) <= s + 1)%nat.

Lemma same_lines_forall c c' (P : Z * Z * Z * Z -> Prop) :
  same_lines c c' -> Forall (fun l => P (line_key l)) (lines c) -> Forall (fun l => P (line_key l)) (lines c').
Proof.
  intros Hs H. apply List.Forall_map in H. apply List.Forall_map. unfold same_lines in Hs. by rewrite Hs.
Qed.

Lemma same_lines_count c c' (f : Z * Z * Z * Z -> bool) :
  same_lines c c' -> length (List.filter (fun l => f (line_key l)) (lines c')) = length (List.filter (fun l => f (line_key l)) (lines c)).
Proof.
  assert (forall ls, length (List.filter (fun l => f (line_key l)) ls) = length (List.filter f (map line_key ls))) as H.
  { intros ls. induction ls as [|l ls IH]; [done|]. cbn. destruct (f (line_key l)); cbn; by rewrite IH. }
  intros Hs. rewrite !H. unfold same_lines in Hs. by rewrite Hs.
Qed.

Lemma same_lines_length c c' : same_lines c c' -> length (lines c') = length (lines c).
Proof. intros Hs. apply (f_equal length) in Hs. by rewrite !length_map in Hs. Qed.

(** Formats and the contents of buffers may differ, and the flow. *)
Definition alike (st st' : run_t) : Prop :=
  same_lines (r_cache st) (r_cache st') /\
  forall a b, r_mem st !! a = Some b -> exists b', r_mem st' !! a = Some b' /\ length b' = length b.

Lemma alike_refl st st' : r_cache st' = r_cache st -> r_mem st' = r_mem st -> alike st st'.
Proof. intros Hc Hm. split; [by unfold same_lines; rewrite Hc|]. rewrite Hm. eauto. Qed.

Lemma alike_trans st1 st2 st3 : alike st1 st2 -> alike st2 st3 -> alike st1 st3.
Proof.
  intros [H1 H2] [H3 H4]. split; [unfold same_lines in *; congruence|]. intros a b Hb.
  destruct (H2 a b Hb) as (b' & Hb' & Hl). destruct (H4 a b' Hb') as (b'' & Hb'' & Hl'). exists b''. split; [done|congruence].
Qed.

Lemma same_but_alike addr st st' : same_but addr st st' -> alike st st'.
Proof. intros H. split; [apply H|]. by apply (same_but_lengths addr). Qed.

Lemma level_alike n s hs st st' : alike st st' -> level n s hs st -> level n s hs st'.
Proof.
  intros [Hl Hm] [H1 H2 H3 H4]. split.
  - by apply (cache_ok_frame st).
  - by rewrite (same_lines_length _ _ Hl).
  - exact (same_lines_forall _ _ (fun '(_, _, h, _) => h = INVALID \/ h ∈ hs) Hl H3).
  - etransitivity; [apply Nat.eq_le_incl; exact (same_lines_count _ _ (fun '(_, _, _, u) => u <? 0) Hl)|exact H4].
Qed.

Lemma safe_output_alike s st st' a : alike st st' -> safe_output s st a -> safe_output s st' a.
Proof.
  intros (Hl & _) [->|(Ha & (k & l & Hk & Hd & Hu) & Hy)]; [by left|right]. split; [done|]. split.
  - assert (same_lines (r_cache st') (r_cache st)) as Hl' by done.
    destruct (same_lines_lookup _ _ _ _ Hl' Hk) as (l0 & Hk0 & [= Hd0 _ _ Hu0]). exists k, l0. split_and!; [done|congruence|lia].
  - etransitivity; [apply Nat.eq_le_incl; exact (same_lines_count _ _ (fun '(_, _, _, u) => u <=? 0) Hl)|exact Hy].
Qed.

Lemma room_alike st st' addr cap : alike st st' -> has_room st addr cap -> has_room st' addr cap.
Proof. intros [_ Hm] (b & Hb & Hc). destruct (Hm _ _ Hb) as (b' & Hb' & Hl). exists b'. split; [done|lia]. Qed.

Lemma set_line_dsc_same addr dsc st :
  same_lines (r_cache st) (r_cache (set_line_dsc addr dsc st)).
Proof.
  unfold same_lines, set_line_dsc. cbn. rewrite map_map. apply map_ext. intros l. by destruct (l_data l =? addr).
Qed.

(** ** One module computes its image *)

Lemma transform_renders op addr n dsc to st content px dsc' content' :
  holds st addr content -> render_transform op content n dsc to = Done (px, dsc', content') ->
  exists st', transform_in_place op addr n dsc to st = Done (px, dsc', st') /\ same_but addr st st' /\ holds st' addr content'.
Proof.
  intros Hh. unfold render_transform, transform_in_place.
  destruct (buf_read content n) as [p|] eqn:Er; [|done]. rewrite (read_holds _ _ _ _ _ Hh Er). cbn [c_bind].
  destruct (transform_colorspace op p (cst dsc) to) as [p' c].
  destruct (buf_write _ p' content) as [content1|] eqn:Ew; [|done]. cbn [c_bind]. intros [= <- <- <-].
  destruct (write_holds _ _ _ _ _ Hh Ew) as (st1 & -> & (H1 & H2 & H3 & H4) & Hh1). cbn [c_bind].
  eexists. split; [done|]. split; [|done]. split_and!; try done.
  pose proof (set_line_dsc_same addr (set_cst c dsc) st1) as Hs. unfold same_lines in *. congruence.
Qed.

(** ** Lemmas: every run, ended early or not, keeps the cache and its buffers together *)

Lemma alike_keeps st st' : alike st st' -> cache_ok st -> cache_ok st'.
Proof. intros [Hl Hm] Hok. by apply (cache_ok_frame st). Qed.

Lemma check_keeps st b st' : check st = (b, st') -> cache_ok st -> cache_ok st'.
Proof. intros [= _ <-]. apply alike_keeps. by apply alike_refl. Qed.

Lemma write_keeps st addr bytes st' : write st addr bytes = Done st' -> cache_ok st -> cache_ok st'.
Proof.
  unfold write. destruct (r_mem st !! addr) as [b|] eqn:Hb; [|done]. destruct (Nat.leb_spec (length bytes) (length b)); [|done].
  intros [= <-]. apply alike_keeps. split; [done|]. intros a b' Hb'. cbn [r_mem r_set_mem]. destruct (decide (a = addr)) as [->|Hne].
  - simplify_eq. eexists. split; [by apply lookup_insert_eq|]. rewrite length_app, length_drop. lia.
  - exists b'. split; [by rewrite lookup_insert_ne|done].
Qed.

Lemma set_line_dsc_keeps addr dsc st : cache_ok st -> cache_ok (set_line_dsc addr dsc st).
Proof. apply alike_keeps. split; [apply set_line_dsc_same|]. eauto. Qed.

Lemma set_flow_keeps fl st : cache_ok st -> cache_ok (r_set_flow fl st).
Proof. apply alike_keeps. by apply alike_refl. Qed.

Lemma set_rois_keeps rois st : cache_ok st -> cache_ok (r_set_rois rois st).
Proof. apply alike_keeps. by apply alike_refl. Qed.

(** The ages of the lines do not matter. *)
Lemma on_lines_keeps f st :
  (forall l : cache_line dsc_t, l_data (f l) = l_data l /\ l_size (f l) = l_size l) -> cache_ok st ->
  cache_ok (r_set_cache (on_lines f (r_cache st)) st).
Proof.
  intros Hf Hok. apply (cache_ok_owners st); [done| |eauto]. unfold owners. cbn. rewrite map_map. apply map_ext.
  intros l. by destruct (Hf l) as [-> ->].
Qed.

Lemma reweight_keeps addr st : cache_ok st -> cache_ok (r_set_cache (dt_dev_pixelpipe_cache_reweight (r_cache st) addr) st).
Proof. apply on_lines_keeps. intros l. by destruct (l_data l =? addr). Qed.

Lemma flush_keeps st : cache_ok st -> cache_ok (r_set_cache (dt_dev_pixelpipe_cache_flush (r_cache st)) st).
Proof. by apply on_lines_keeps. Qed.

Lemma size_of_nonneg bpp roi : 0 <= size_of bpp roi.
Proof. unfold size_of, wrap_u64. apply Z.mod_pos_bound. lia. Qed.

(** The cases of a computation that returned, and the state after each step. *)
Ltac run_cases :=
  repeat match goal with
  | H : Undefined = Done _ |- _ => discriminate H
  | H : Done _ = Done _ |- _ => injection H as H; subst
  | H : c_bind ?x _ = Done _ |- _ => let E := fresh "E" in destruct x eqn:E; cbn [c_bind] in H
  | H : match ?x with _ => _ end = Done _ |- _ => let E := fresh "E" in destruct x eqn:E
  | H : (let _ := _ in _) = Done _ |- _ => cbv zeta in H
  end.

Lemma transform_keeps op addr n dsc to st px d st' :
  transform_in_place op addr n dsc to st = Done (px, d, st') -> cache_ok st -> cache_ok st'.
Proof.
  unfold transform_in_place. intros H Hok. run_cases. by apply set_line_dsc_keeps; eapply write_keeps.
Qed.

Ltac run_keeps :=
  repeat match goal with
  | E : check ?st = (_, ?st') |- _ => apply check_keeps in E; [|solve [eauto with keeps]]
  | E : write ?st _ _ = Done ?st' |- _ => apply write_keeps in E; [|solve [eauto with keeps]]
  | E : transform_in_place _ _ _ _ _ ?st = Done (_, ?st') |- _ => apply transform_keeps in E; [|solve [eauto with keeps]]
  | E : get_weighted _ _ _ _ _ ?st = Done (_, ?st') |- _ =>
      apply get_keeps in E; [|assumption|apply size_of_nonneg|solve [eauto with keeps]]
  end; eauto with keeps.
#[local] Hint Resolve set_line_dsc_keeps set_flow_keeps set_rois_keeps reweight_keeps flush_keeps : keeps.

Lemma collect_info_keeps addr dsc st r st' : collect_info addr dsc st = Done (r, st') -> cache_ok st -> cache_ok st'.
Proof. unfold collect_info. intros H Hok. run_cases; run_keeps. Qed.

Lemma cpu_keeps n dsc_in inp input_format roi_in out out_format roi_out st b st' :
  pixelpipe_process_on_CPU n dsc_in inp input_format roi_in out out_format roi_out st = Done (b, st') ->
  cache_ok st -> cache_ok st'.
Proof. unfold pixelpipe_process_on_CPU. intros H Hok. run_cases; run_keeps. Qed.

Lemma base_keeps roi st r st' : alloc_fresh -> process_base roi st = Done (r, st') -> cache_ok st -> cache_ok st'.
Proof. unfold process_base. intros Hal H Hok. run_cases; run_keeps. Qed.

Lemma module_keeps n basichash hash bpp roi_in roi_out inp input_format st r st' : alloc_fresh ->
  process_module n basichash hash (size_of bpp roi_out) roi_in roi_out inp input_format st = Done (r, st') ->
  cache_ok st -> cache_ok st'.
Proof.
  unfold process_module. intros Hal H Hok. run_cases; run_keeps;
    repeat match goal with E : pixelpipe_process_on_CPU _ _ _ _ _ _ _ _ ?s = Done _ |- _ => apply cpu_keeps in E; [|by eauto with keeps] end;
    eauto with keeps;
    match goal with E : collect_info _ _ _ = Done _ |- _ => apply collect_info_keeps in E; [done|] end;
    destruct gui_module as [g|]; [destruct (g =? n_module n)%nat|]; eauto with keeps.
Qed.

Lemma rec_keeps rest roi fmt st r st' : alloc_fresh ->
  dt_dev_pixelpipe_process_rec rest roi fmt st = Done (r, st') -> cache_ok st -> cache_ok st'.
Proof.
  intros Hal. revert roi fmt st r st'. induction rest as [|n below IH]; intros roi fmt st r st' H Hok; cbn [dt_dev_pixelpipe_process_rec] in H.
  - by eapply base_keeps.
  - destruct (skipped gui_module_filter n); [by eapply IH|]. run_cases; run_keeps.
    + eapply collect_info_keeps; [done|]. done.
    + eapply module_keeps; [done..|]. eapply IH; [done|]. eauto with keeps.
Qed.

(** Between runs: the cache and its buffers fit together and no line is valid. *)
Definition idle (st : run_t) : Prop :=
  cache_ok st /\ Forall (fun l => l_hash l = INVALID /\ l_used l = 0) (lines (r_cache st)).

Lemma flush_idle st : cache_ok st -> idle (r_set_cache (dt_dev_pixelpipe_cache_flush (r_cache st)) st).
Proof. intros Hok. split; [by apply flush_keeps|]. cbn. apply List.Forall_map, Forall_true. done. Qed.

Lemma start_keeps cache_obsolete st :
  cache_ok st -> cache_ok (if cache_obsolete : bool then r_set_cache (dt_dev_pixelpipe_cache_flush (r_cache st)) st else st).
Proof. destruct cache_obsolete; [apply flush_keeps|done]. Qed.

(** C15: a run that returns, with an image or ended at any of its tests, leaves a cache that
    fits its buffers and has no valid line: no later run is answered with a buffer of
    this one. *)
Theorem process_leaves_idle cache_obsolete x y width height scale st r st'
    (Hal : alloc_fresh) (Hok : cache_ok st)
    (Hp : dt_dev_pixelpipe_process cache_obsolete x y width height scale st = Done (r, st')) : idle st'.
Proof.
  unfold dt_dev_pixelpipe_process in Hp.
  destruct (dt_dev_pixelpipe_process_rec _ _ _ _) as [[r1 st1]|] eqn:E; [|done]. injection Hp as _ <-.
  apply flush_idle. eapply rec_keeps; [done|exact E|]. apply set_flow_keeps. by apply start_keeps.
Qed.

Context (Hstop : forall k, stop k = false).

Definition tick (st : run_t) : run_t := Run (r_cache st) (r_mem st) (r_flow st) (r_rois st) (S (r_checks st)).

Lemma check_false st : check st = (false, tick st).
Proof. unfold check. by rewrite Hstop. Qed.

Lemma tick_alike st : alike st (tick st).
Proof. by apply alike_refl. Qed.

Lemma blend_stage n inp out cap in_size input_format st content px res o :
  holds st inp content -> holds st out o -> has_room st out cap -> inp <> out ->
  forall px' res' o' fl',
  (if _transform_for_blend n then
     let* (px, _, _) := render_transform (n_op n) content in_size input_format (blend_colorspace (n_op n) (n_data n)) in
     let (res, c) := transform_colorspace (n_op n) res (cst (f_dsc (r_flow st))) (blend_colorspace (n_op n) (n_data n)) in
     let* out := buf_write cap res o in
     Done (px, res, out, fl_set_dsc (set_cst c (f_dsc (r_flow st))) (r_flow st))
   else Done (px, res, o, r_flow st)) = Done (px', res', o', fl') ->
  exists st',
  (if _transform_for_blend n then
     let* (px, _, st) := transform_in_place (n_op n) inp in_size input_format (blend_colorspace (n_op n) (n_data n)) st in
     let (res, c) := transform_colorspace (n_op n) res (cst (f_dsc (r_flow st))) (blend_colorspace (n_op n) (n_data n)) in
     let* st := write st out res in
     Done (px, res, r_set_flow (fl_set_dsc (set_cst c (f_dsc (r_flow st))) (r_flow st)) st)
   else Done (px, res, st)) = Done (px', res', st') /\
  alike st st' /\ r_flow st' = fl' /\ holds st' out o' /\ has_room st' out cap.
Proof.
  intros Hi Ho Hr Hne px' res' o' fl'. destruct (_transform_for_blend n); [|intros [= <- <- <- <-]; exists st; split_and!; try done; by apply alike_refl].
  destruct (render_transform (n_op n) content in_size input_format _) as [[[p d] content1]|] eqn:Et; [|done]. cbn [c_bind].
  destruct (transform_renders _ _ _ _ _ _ _ _ _ _ Hi Et) as (st1 & -> & Hs1 & Hi1). cbn [c_bind].
  pose proof Hs1 as (_ & Hf1 & _). rewrite Hf1.
  destruct (transform_colorspace (n_op n) res _ _) as [r c].
  destruct (buf_write cap r o) as [o1|] eqn:Ew; [|done]. cbn [c_bind]. intros [= <- <- <- <-].
  assert (holds st1 out o) as Ho1 by (eapply same_but_holds; [exact Hs1|congruence|done]).
  assert (has_room st1 out cap) as Hr1 by (by eapply room_alike; [eapply same_but_alike|]).
  destruct (write_output _ _ _ _ _ _ Ho1 Hr1 Ew) as (st2 & -> & Hs2 & Ho2 & Hr2). cbn [c_bind].
  pose proof Hs2 as (_ & Hf2 & _). eexists. split; [reflexivity|]. split_and!; [|by cbn; rewrite Hf2, Hf1|done|done].
  eapply alike_trans; [by eapply same_but_alike|]. eapply alike_trans; [by eapply same_but_alike|]. by apply alike_refl.
Qed.

Lemma cpu_renders n dsc_in inp input_format roi_in out cap out_format roi_out st content out' fl' :
  holds st inp content -> has_room st out cap -> inp <> out ->
  render_module n dsc_in content input_format roi_in cap out_format roi_out (r_flow st) = Done (out', fl') ->
  exists st', pixelpipe_process_on_CPU n dsc_in inp input_format roi_in out out_format roi_out st = Done (false, st') /\
              alike st st' /\ r_flow st' = fl' /\ holds st' out out'.
Proof.
  intros Hi Hr Hne. unfold render_module, pixelpipe_process_on_CPU.
  destruct (dt_iop_buffer_dsc_to_bpp input_format) as [in_bpp|]; [|done]. cbn [c_bind].
  destruct (render_transform _ content _ input_format _) as [[[px ifmt] content1]|] eqn:Et; [|done]. cbn [c_bind].
  destruct (transform_renders _ _ _ _ _ _ _ _ _ _ Hi Et) as (st1 & -> & Hs1 & Hi1). cbn [c_bind].
  pose proof (same_but_alike _ _ _ Hs1) as Ha1. pose proof Hs1 as (_ & Hf1 & _). rewrite check_false. cbv iota beta.
  destruct (dt_iop_buffer_dsc_to_bpp out_format) as [bpp|]; [|done]. cbn [c_bind].
  destruct (Z.eqb_spec inp out); [done|]. change (r_flow (tick st1)) with (r_flow st1). rewrite Hf1.
  destruct ((if _ : bool then _ else _) _ _ _ _ _ _ _) as [res fl].
  destruct (buf_write cap res []) as [o|] eqn:Ew; [|done]. cbn [c_bind].
  set (fl1 := fl_set_dsc _ fl). set (st2 := r_set_flow fl1 (tick st1)).
  assert (alike st st2) as Ha2 by (eapply alike_trans; [exact Ha1|by apply alike_refl]).
  assert (has_room st2 out cap) as Hr2 by (by eapply room_alike).
  assert (holds st2 inp content1) as Hi2 by done.
  destruct Hr2 as (b & Hb & Hb'). pose proof (holds_nil _ _ _ Hb) as Ho2.
  destruct (write_output _ _ _ _ _ _ Ho2 (ex_intro _ b (conj Hb Hb')) Ew) as (st3 & -> & Hs3 & Ho3 & Hr3). cbn [c_bind].
  pose proof Hs3 as (_ & Hf3 & _). repeat (rewrite check_false; cbv iota beta).
  set (st4 := tick (tick st3)). assert (alike st st4) as Ha4.
  { eapply alike_trans; [exact Ha2|]. eapply alike_trans; [by eapply same_but_alike|]. by apply alike_refl. }
  assert (holds st4 inp content1) as Hi4 by (apply (same_but_holds out st2 st3); [done..]).
  assert (r_flow st4 = fl1) as Hf4 by (cbn; by rewrite Hf3). rewrite <- Hf4.
  destruct (if _transform_for_blend n then _ else _) as [[[[px' res'] o'] fl2]|] eqn:Eb; [|done]. cbn [c_bind].
  destruct (blend_stage n inp out cap _ ifmt st4 content1 px res o Hi4 Ho3 Hr3 Hne px' res' o' fl2 Eb)
    as (st5 & -> & Ha5 & Hf5 & Ho5 & Hr5). cbn [c_bind]. rewrite check_false. cbv iota beta.
  change (r_flow (tick st5)) with (r_flow st5). rewrite Hf5.
  destruct (blend_process _ _ px' res' roi_in roi_out fl2) as [res2 fl3].
  destruct (buf_write cap res2 o') as [o2|] eqn:Ew2; [|done]. cbn [c_bind]. intros [= <- <-].
  destruct (write_output (r_set_flow fl3 (tick st5)) out cap o' res2 o2) as (st6 & -> & Hs6 & Ho6 & _); [done..|].
  cbn [c_bind]. exists st6. split; [done|]. pose proof Hs6 as (_ & Hf6 & _). split_and!; [|by rewrite Hf6|done].
  eapply alike_trans; [exact Ha4|]. eapply alike_trans; [exact Ha5|].
  eapply alike_trans; [by apply (alike_refl _ (r_set_flow fl3 (tick st5)))|by eapply same_but_alike].
Qed.

(** ** Lemmas: a query and a reweighting between levels *)

Lemma safe_output_mono s s' st addr : (s <= s')%nat -> safe_output s st addr -> safe_output s' st addr.
Proof. intros Hs [->|(Ha & Hk & Hy)]; [by left|right]. split_and!; [done|done|lia]. Qed.

Lemma level_mono n s s' hs st : (s <= s')%nat -> level n s hs st -> level n s' hs st.
Proof. intros Hs [H1 H2 H3 H4]. split; [done..|lia]. Qed.

Lemma level_no_hash n s hs st hash :
  level n s hs st -> hash ∉ hs -> hash <> INVALID -> Forall (fun l => l_hash l <> hash) (lines (r_cache st)).
Proof. intros Hl Hh Hi. eapply Forall_impl; [exact (lv_hashes _ _ _ _ Hl)|]. cbn. intros l [H|H] He; [congruence|by rewrite He in H]. Qed.

Lemma not_available n s hs st hash :
  level n s hs st -> hash ∉ hs -> hash <> INVALID -> dt_dev_pixelpipe_cache_available (r_cache st) hash = false.
Proof.
  intros Hl Hh Hi. unfold dt_dev_pixelpipe_cache_available. apply not_true_is_false. intros (l & Hin & Heq)%existsb_exists.
  apply Z.eqb_eq in Heq. pose proof (level_no_hash _ _ _ _ _ Hl Hh Hi) as Hno. rewrite List.Forall_forall in Hno.
  by apply (Hno l).
Qed.

Lemma missed_level n s hs basichash hash size weight dsc st st' v addr sz :
  missed basichash hash size weight dsc st st' v addr sz -> level n s hs st -> hash ∉ hs -> hash <> INVALID -> weight <= 0 ->
  level n (s + (if (weight <? 0)%Z then 1 else 0)) (hash :: hs) st' /\ safe_output s st' addr.
Proof.
  intros Hm Hl Hh Hi Hw. pose proof (level_no_hash _ _ _ _ _ Hl Hh Hi) as Hno.
  destruct (missed_ages _ _ _ _ _ _ _ _ _ _ Hm Hno) as [Hneg Hyoung]. pose proof (lv_neg _ _ _ _ Hl) as Hs.
  destruct (ms_victim _ _ _ _ _ _ _ _ _ _ Hm) as (lv & Hv & _). apply lookup_lt_Some in Hv as Hlt.
  pose proof (ms_lines _ _ _ _ _ _ _ _ _ _ Hm) as Hlines. split; [split|].
  - eapply missed_ok; [exact Hm|exact (lv_ok _ _ _ _ Hl)].
  - by rewrite Hlines, length_insert, length_map, (lv_entries _ _ _ _ Hl).
  - rewrite Hlines. apply Forall_insert; [|right; by left]. apply List.Forall_map.
    eapply Forall_impl; [exact (lv_hashes _ _ _ _ Hl)|]. cbn. intros l [H|H]; [by left|right; by right].
  - lia.
  - right. split; [exact (proj1 (ms_addr _ _ _ _ _ _ _ _ _ _ Hm))|]. split; [|lia].
    exists v, (Line addr sz dsc basichash hash weight). split_and!; [|done|done].
    rewrite Hlines. apply list_lookup_insert_eq. by rewrite length_map.
Qed.

(** A miss does not take the buffer of the output before. *)
Lemma missed_keeps n s hs basichash hash size weight dsc st st' v addr sz inp content :
  missed basichash hash size weight dsc st st' v addr sz -> level n s hs st -> (s + 2 <= n)%nat ->
  safe_output s st inp -> holds st inp content -> inp <> addr /\ holds st' inp content.
Proof.
  intros Hm Hl Hn Hsafe [rest Hh].
  assert (kept_by v st inp) as Hk.
  { destruct Hsafe as [->|(H0 & (k & l & Hk & Hd & Hu) & Hy)]; [by left|right]. exists k, l. split_and!; try done.
    eapply oldest_not_young; [exact (ms_victim _ _ _ _ _ _ _ _ _ _ Hm)|done|done|]. rewrite (lv_entries _ _ _ _ Hl). lia. }
  destruct (ms_kept _ _ _ _ _ _ _ _ _ _ Hm inp Hk) as [Heq Hne]. split; [done|]. exists rest. by rewrite Heq.
Qed.

Lemma filter_map_plus (f h : cache_line dsc_t -> bool) g ls :
  (forall l, f (g l) = true -> f l = true \/ h l = true) ->
  (length (List.filter f (map g ls)) <= length (List.filter f ls) + length (List.filter h ls))%nat.
Proof.
  intros Hg. induction ls as [|l ls IH]; [done|]. cbn. specialize (Hg l).
  destruct (f (g l)); [|destruct (f l), (h l); cbn [length]; lia].
  destruct (Hg eq_refl) as [->| ->]; cbn [length]; [destruct (h l)|destruct (f l)]; cbn [length]; lia.
Qed.

Lemma one_owner (ls : list (cache_line dsc_t)) addr :
  (forall i j l l', ls !! i = Some l -> ls !! j = Some l' -> l_data l = l_data l' -> l_data l <> 0 -> i = j) ->
  addr <> 0 -> (length (List.filter (fun l => (l_data l =? addr)%Z) ls) <= 1)%nat.
Proof.
  intros Hd Ha. induction ls as [|l ls IH]; [cbn; lia|]. cbn.
  assert (length (List.filter (fun l => (l_data l =? addr)%Z) ls) <= 1)%nat as IH'.
  { apply IH. intros i j l1 l2 Hi Hj He Hn. specialize (Hd (S i) (S j) l1 l2 Hi Hj He Hn). lia. }
  destruct (Z.eqb_spec (l_data l) addr) as [Heq|]; [|done]. cbn [length].
  destruct (List.filter _ ls) as [|x xs] eqn:E; [cbn; lia|]. exfalso.
  assert (In x (List.filter (fun l => l_data l =? addr) ls)) as Hx by (rewrite E; by left).
  apply filter_In in Hx as [Hx Hxa]. apply Z.eqb_eq in Hxa. apply list_elem_of_In, list_elem_of_lookup in Hx as [j Hj].
  assert (0%nat = S j) as ?; [|done]. apply (Hd 0%nat (S j) l x); [done|done|congruence|congruence].
Qed.

Definition reweighted (inp : Z) (st : run_t) : run_t :=
  r_set_cache (dt_dev_pixelpipe_cache_reweight (r_cache st) inp) st.

Lemma reweight_level n s hs st inp addr :
  level n s hs st -> inp <> 0 -> addr <> inp -> safe_output s st addr ->
  level n (s + 1) hs (reweighted inp st) /\ safe_output (s + 1) (reweighted inp st) addr.
Proof.
  intros Hl H0 Hne Hsafe. pose proof Hl as [Hok Hn Hh Hneg].
  set (g := fun l : cache_line dsc_t => if l_data l =? inp then set_used (- entries (r_cache st)) l else l).
  assert (lines (r_cache (reweighted inp st)) = map g (lines (r_cache st))) as Hlines by done.
  assert (forall l, l_data (g l) = l_data l /\ l_size (g l) = l_size l /\ l_hash (g l) = l_hash l) as Hg.
  { intros l. unfold g. by destruct (l_data l =? inp). }
  pose proof (one_owner (lines (r_cache st)) inp (ok_distinct _ Hok) H0) as Hone.
  assert (forall f : cache_line dsc_t -> bool, length (List.filter f (map g (lines (r_cache st)))) <=
            length (List.filter f (lines (r_cache st))) + 1)%nat as Hcount.
  { intros f. etransitivity; [apply (filter_map_plus f (fun l => l_data l =? inp))|lia].
    intros l. unfold g. destruct (l_data l =? inp); [by right|by left]. }
  assert (forall k l, map g (lines (r_cache st)) !! k = Some l -> exists l0, lines (r_cache st) !! k = Some l0 /\ l = g l0) as Hlook.
  { intros k l Hk. rewrite list_lookup_fmap in Hk. destruct (lines (r_cache st) !! k) as [l0|]; [|done]. cbn in Hk. exists l0. by simplify_eq. }
  split; [split|].
  - split; rewrite ?Hlines.
    + intros i j l l' (li & Hi & ->)%Hlook (lj & Hj & ->)%Hlook. rewrite !(proj1 (Hg _)). by apply (ok_distinct _ Hok).
    + intros l [k (l0 & Hk & ->)%Hlook]%list_elem_of_lookup. destruct (Hg l0) as (-> & -> & _).
      apply (ok_null _ Hok). by eapply list_elem_of_lookup_2.
    + intros l [k (l0 & Hk & ->)%Hlook]%list_elem_of_lookup. destruct (Hg l0) as (-> & -> & _).
      apply (ok_buffer _ Hok). by eapply list_elem_of_lookup_2.
    + destruct (ok_input _ Hok) as (H1 & H2 & H3). split_and!; [done|done|]. unfold addresses in *. rewrite Hlines, map_map.
      erewrite map_ext; [exact H3|]. intros l. apply Hg.
  - by rewrite Hlines, length_map.
  - rewrite Hlines. apply List.Forall_map. eapply Forall_impl; [exact Hh|]. cbn. intros l. by destruct (Hg l) as (_ & _ & ->).
  - unfold neg. rewrite Hlines. etransitivity; [apply Hcount|]. unfold neg in Hneg. lia.
  - destruct Hsafe as [->|(Ha & (k & l & Hk & Hd & Hu) & Hy)]; [by left|right]. split_and!; [done| |].
    + exists k, l. rewrite Hlines, list_lookup_fmap, Hk. split_and!; [|done|done]. cbn. unfold g.
      destruct (Z.eqb_spec (l_data l) inp); [congruence|done].
    + unfold young. rewrite Hlines. etransitivity; [apply Hcount|]. unfold young in Hy. lia.
Qed.

Lemma level_hashes n s hs hs' st : (forall h, h ∈ hs -> h ∈ hs') -> level n s hs st -> level n s hs' st.
Proof.
  intros Hs [H1 H2 H3 H4]. split; [done..| |done]. eapply Forall_impl; [exact H3|]. cbn. intros l [H|H]; auto.
Qed.

(** ** Lemmas: a run computes the image *)

Lemma missed_room basichash hash size weight dsc st st' v addr sz :
  missed basichash hash size weight dsc st st' v addr sz -> has_room st' addr size.
Proof.
  intros Hm. destruct (ms_buffer _ _ _ _ _ _ _ _ _ _ Hm) as (b & Hb & Hl).
  exists b. split; [done|]. pose proof (ms_size _ _ _ _ _ _ _ _ _ _ Hm). lia.
Qed.

(** What a query that misses does on a level. *)
Lemma get_level n s hs basichash hash size dsc weight st :
  alloc_fresh -> level n s hs st -> (0 < n)%nat -> hash ∉ hs -> hash <> INVALID -> 0 < size -> weight <= 0 ->
  exists addr st', get_weighted basichash hash size dsc weight st = Done (1, addr, dsc, st') /\
    level n (s + (if (weight <? 0)%Z then 1 else 0)) (hash :: hs) st' /\ safe_output s st' addr /\ has_room st' addr size /\
    r_flow st' = r_flow st /\ addr <> input /\ addr <> 0 /\
    (forall inp content, (s + 2 <= n)%nat -> safe_output s st inp -> holds st inp content -> inp <> addr /\ holds st' inp content) /\
    r_mem st' !! input = r_mem st !! input.
Proof.
  intros Hal Hl Hn Hh Hi Hs Hw.
  assert (lines (r_cache st) <> []) as Hne. { intros E. pose proof (lv_entries _ _ _ _ Hl) as H. rewrite E in H. cbn in H. lia. }
  destruct (get_missed basichash hash size dsc weight st Hal (lv_ok _ _ _ _ Hl) Hne (level_no_hash _ _ _ _ _ Hl Hh Hi) Hs)
    as (v & addr & sz & st' & Hget & Hm).
  destruct (missed_level _ _ _ _ _ _ _ _ _ _ _ _ _ Hm Hl Hh Hi Hw) as [Hl' Hsafe].
  destruct (ms_addr _ _ _ _ _ _ _ _ _ _ Hm) as [Ha1 Ha2].
  exists addr, st'. split_and!; [done..|by eapply missed_room|exact (ms_flow _ _ _ _ _ _ _ _ _ _ Hm)|done|done| |].
  - intros inp content. by eapply missed_keeps.
  - by apply (ms_kept _ _ _ _ _ _ _ _ _ _ Hm); left.
Qed.

Lemma base_renders n st roi inb content fmt :
  alloc_fresh -> level n 0 [] st -> (0 < n)%nat -> r_mem st !! input = Some inb -> hash_at None 0 roi <> INVALID ->
  render_base roi inb = Done (content, fmt) ->
  exists addr st', process_base roi st = Done (Some (addr, fmt), st') /\ level n 0 [hash_at None 0 roi] st' /\
    r_flow st' = r_flow st /\ holds st' addr content /\ safe_output 0 st' addr.
Proof.
  intros Hal Hl Hn Hin Hi. unfold render_base, process_base.
  destruct (dt_iop_buffer_dsc_to_bpp base_format) as [bpp|]; [|done]. cbn [c_bind]. rewrite check_false. cbv iota beta.
  assert (hash_at None 0 roi ∉ []) as Hh by apply not_elem_of_nil.
  pose proof (not_available _ _ _ _ _ Hl Hh Hi) as Hav.
  unfold hash_at in *. destruct (default (0, 0) (hashes None 0 roi)) as [basichash hash]. cbn [snd] in *.
  change (r_cache (tick st)) with (r_cache st). rewrite Hav. repeat (rewrite check_false; cbv iota beta).
  set (st1 := tick (tick (tick st))).
  assert (alike st st1) as Ha by (by apply alike_refl). pose proof (level_alike _ _ _ _ _ Ha Hl) as Hl1.
  destruct (whole_input roi).
  - intros [= <- <-]. exists input, st1. split_and!; [done| |done| |by left].
    + by apply (level_hashes _ _ []); [intros ? ?%not_elem_of_nil|].
    + exists []. by rewrite app_nil_r.
  - destruct (Z.eqb_spec (size_of bpp roi) 0) as [|Hz]; [done|]. pose proof (size_of_nonneg bpp roi).
    destruct (base_pixels roi bpp (size_of bpp roi) inb) as [px|] eqn:Epx; [|done]. cbn [c_bind].
    destruct (buf_write (size_of bpp roi) px []) as [out|] eqn:Ew; [|done]. cbn [c_bind]. intros [= <- <-].
    destruct (get_level n 0 [] basichash hash (size_of bpp roi) base_format 0 st1)
      as (addr & st2 & -> & Hl2 & Hs2 & Hr2 & Hf2 & Hne & _ & _ & Hk); [done..|lia|lia|]. cbn [c_bind].
    change (1 =? 0) with false. cbv iota.
    rewrite Hk. change (r_mem st1) with (r_mem st). rewrite Hin. cbn [c_bind]. rewrite Epx. cbn [c_bind].
    pose proof Hr2 as (b & Hb & _).
    destruct (write_output st2 addr _ [] px out (holds_nil _ _ _ Hb) Hr2 Ew) as (st3 & -> & Hs3 & Ho3 & _). cbn [c_bind].
    pose proof (same_but_alike _ _ _ Hs3) as Ha3. exists addr, st3. split_and!; [done| | |done|].
    + by eapply level_alike.
    + destruct Hs3 as (_ & -> & _). by rewrite Hf2.
    + by eapply safe_output_alike.
Qed.

Lemma collect_info_done addr dsc st : exists st', collect_info addr dsc st = Done (Some (addr, dsc), st') /\
  r_cache st' = r_cache st /\ r_mem st' = r_mem st /\ r_flow st' = r_flow st.
Proof.
  unfold collect_info. repeat (rewrite check_false; cbv iota beta). by exists (tick (tick (tick st))).
Qed.

Lemma safe_output_not_null n s hs st inp : level n s hs st -> safe_output s st inp -> inp <> 0.
Proof. intros Hl [->|[H _]]; [exact (proj1 (ok_input _ (lv_ok _ _ _ _ Hl)))|done]. Qed.

Definition focused (n : node D) : bool := match gui_module with Some g => (g =? n_module n)%nat | None => false end.

(** The weight of the lines after a module was processed. *)
Lemma processed_level n s hs nd st inp addr :
  level n s hs st -> inp <> 0 -> addr <> inp -> safe_output s st addr ->
  let st' := if focused nd then r_set_cache (dt_dev_pixelpipe_cache_reweight (r_cache st) inp) st else st in
  level n (s + (if focused nd then 1 else 0)) hs st' /\ safe_output (s + (if focused nd then 1 else 0)) st' addr.
Proof.
  intros Hl H0 Hne Hs. cbn zeta. destruct (focused nd); [by apply reweight_level|]. by rewrite Nat.add_0_r.
Qed.

Lemma set_line_dsc_alike addr dsc st : alike st (set_line_dsc addr dsc st).
Proof. split; [apply set_line_dsc_same|]. intros a b Hb. by exists b. Qed.

Lemma module_renders n s hs nd basichash hash bufsize roi_in roi_out inp input_format st content out' dsc' fl' :
  alloc_fresh -> level n s hs st -> (s + 2 <= n)%nat -> hash ∉ hs -> hash <> INVALID -> 0 < bufsize ->
  safe_output s st inp -> holds st inp content ->
  render_node nd bufsize roi_in roi_out content input_format (r_flow st) = Done (out', dsc', fl') ->
  exists addr st', process_module nd basichash hash bufsize roi_in roi_out inp input_format st = Done (Some (addr, dsc'), st') /\
    level n (s + special nd) (hash :: hs) st' /\ r_flow st' = fl' /\ holds st' addr out' /\
    safe_output (s + special nd) st' addr.
Proof.
  intros Hal Hl Hn Hh Hi Hsize Hsafe Hc. unfold render_node, process_module.
  destruct (dt_iop_buffer_dsc_to_bpp input_format) as [in_bpp|]; [|done]. cbn [c_bind].
  set (dsc_out := output_format _ _ _ _ _). set (fl1 := fl_set_dsc dsc_out (r_flow st)).
  cbn [r_flow r_set_flow]. destruct (dt_iop_buffer_dsc_to_bpp (set_channels _ _)) as [out_bpp|]; [|done]. cbn [c_bind].
  rewrite check_false. cbv iota beta. set (st1 := tick (r_set_flow fl1 st)).
  assert (alike st st1) as Ha1 by (by apply alike_refl).
  change (r_cache st1) with (r_cache st). set (weight := if important (n_op nd) then _ else 0).
  assert ((weight <= 0)%Z /\ ((if (weight <? 0)%Z then 1 else 0) <= (if important (n_op nd) then 1 else 0))%nat) as [Hw1 Hw2].
  { unfold weight, entries. destruct (important (n_op nd)); [|by cbn]. destruct (Z.ltb_spec (- Z.of_nat (length (lines (r_cache st)))) 0); lia. }
  destruct (get_level n s hs basichash hash bufsize (set_channels (f_colors fl1) dsc_out) weight st1)
    as (out & st2 & -> & Hl2 & Hs2 & Hr2 & Hf2 & _ & H0 & Hk & _);
    [done|by eapply level_alike|lia|done..|]. cbn [c_bind].
  destruct (Hk inp content Hn) as [Hne Hc2]; [by eapply safe_output_alike|done|].
  apply (level_mono _ _ (s + if important (n_op nd) then 1 else 0)) in Hl2; [|lia].
  apply (safe_output_mono _ (s + if important (n_op nd) then 1 else 0)) in Hs2; [|lia].
  rewrite check_false. cbv iota beta. set (st3 := tick st2). assert (alike st2 st3) as Ha3 by (by apply alike_refl).
  change (r_flow st3) with (r_flow st2). rewrite Hf2. change (r_flow st1) with fl1.
  destruct (shows_mask _ _ _ _ _ _).
  - destruct (buf_read content _) as [px|] eqn:Er; [|done]. cbn [c_bind].
    rewrite (read_holds st3 inp content _ px Hc2 Er). cbn [c_bind].
    destruct (buf_write bufsize px []) as [o|] eqn:Ew; [|done]. cbn [c_bind]. intros [= <- <- <-].
    pose proof Hr2 as (b & Hb & _).
    destruct (write_output st3 out _ [] px o (holds_nil _ _ _ Hb) Hr2 Ew) as (st4 & -> & Hs4 & Ho4 & _). cbn [c_bind].
    eexists out, _. split; [reflexivity|]. pose proof Hs4 as (_ & Hf4 & _).
    set (st5 := set_line_dsc _ _ _).
    assert (alike st2 st5) as Ha5.
    { eapply alike_trans; [exact Ha3|]. eapply alike_trans; [by eapply same_but_alike|].
      eapply alike_trans; [|apply set_line_dsc_alike]. by apply alike_refl. }
    split_and!; [| |done|].
    + eapply level_alike; [exact Ha5|]. eapply level_mono; [|exact Hl2]. unfold special. lia.
    + cbn. by rewrite Hf4; cbn; rewrite Hf2.
    + eapply safe_output_alike; [exact Ha5|]. eapply safe_output_mono; [|exact Hs2]. unfold special. lia.
  - rewrite check_false. cbv iota beta. set (st4 := tick st3).
    destruct (render_module _ _ _ _ _ _ _ _ _) as [[o fl]|] eqn:Em; [|done]. cbn [c_bind]. intros [= <- <- <-].
    destruct (cpu_renders nd input_format inp input_format roi_in out bufsize (set_channels (f_colors fl1) dsc_out) roi_out st4 content o fl)
      as (st5 & -> & Ha5 & Hf5 & Ho5); [done|done|done|change (r_flow st4) with (r_flow st2); rewrite Hf2; exact Em|]. cbn [c_bind].
    rewrite Hf5. set (st6 := set_line_dsc out (f_dsc fl) st5).
    assert (alike st2 st6) as Ha6.
    { eapply alike_trans; [exact (alike_refl st2 st4 eq_refl eq_refl)|]. eapply alike_trans; [exact Ha5|apply set_line_dsc_alike]. }
    assert (inp <> 0) as Hi0 by (by apply (safe_output_not_null n s hs st)).
    destruct (processed_level n (s + if important (n_op nd) then 1 else 0) (hash :: hs) nd st6 inp out) as [Hl7 Hs7];
      [by eapply level_alike|done|congruence|by eapply safe_output_alike|].
    change (match gui_module with Some g => _ | None => false end) with (focused nd).
    set (st7 := if focused nd then r_set_cache _ _ else _) in *.
    destruct (collect_info_done out (f_dsc fl) st7) as (st8 & -> & Hc8 & Hm8 & Hf8).
    assert (alike st7 st8) as Ha8 by (by apply alike_refl).
    assert (r_mem st7 = r_mem st5 /\ r_flow st7 = r_flow st5) as [Hm7 Hf7] by (unfold st7; by destruct (focused nd)).
    assert (s + special nd = s + (if important (n_op nd) then 1 else 0) + (if focused nd then 1 else 0))%nat as ->
      by (unfold special, focused; lia).
    exists out, st8. split_and!; [done|by eapply level_alike|congruence| |by eapply safe_output_alike].
    destruct Ho5 as [rest Ho5]. exists rest. by rewrite Hm8, Hm7.
Qed.

(** ** Lemmas: a run from the last module *)

Lemma lines_needed_pos rest : (1 <= lines_needed rest)%nat.
Proof. induction rest as [|n rest IH]; cbn; [done|]. destruct (skipped _ n); lia. Qed.

Lemma default_hash op pos roi :
  exists basichash, default (0, 0) (hashes op pos roi) = (basichash, hash_at op pos roi).
Proof. unfold hash_at. destruct (default _ _) as [b h]. by exists b. Qed.

Lemma rec_renders rest n roi fmt st inb content dsc fl :
  alloc_fresh -> level n 0 [] st -> (lines_needed rest <= n)%nat ->
  NoDup (run_hashes rest roi) -> INVALID ∉ run_hashes rest roi ->
  r_mem st !! input = Some inb -> render rest roi fmt inb (r_flow st) = Done (content, dsc, fl) ->
  exists addr st', dt_dev_pixelpipe_process_rec rest roi fmt st = Done (Some (addr, dsc), st') /\
    level n (specials rest) (run_hashes rest roi) st' /\ r_flow st' = fl /\ holds st' addr content /\
    safe_output (specials rest) st' addr.
Proof.
  intros Hal Hl Hn Hnd Hinv Hin. revert roi fmt st content dsc fl Hl Hnd Hinv Hin.
  induction rest as [|nd below IH]; intros roi fmt st content dsc fl Hl Hnd Hinv Hin; cbn [render dt_dev_pixelpipe_process_rec].
  - destruct (render_base roi inb) as [[b f]|] eqn:Eb; [|done]. cbn [c_bind]. intros [= -> -> <-].
    apply (base_renders n st roi inb content dsc); [done|done|exact Hn|done| |done].
    intros E. apply Hinv. cbn. rewrite E. by left.
  - cbn [lines_needed run_hashes specials] in *. destruct (skipped gui_module_filter nd); [by apply IH|].
    apply NoDup_cons in Hnd as [Hh Hnd]. apply not_elem_of_cons in Hinv as [Hi Hinv].
    set (hash := hash_at (Some (n_op nd)) (length (nd :: below)) roi) in *.
    destruct (dt_iop_buffer_dsc_to_bpp _) as [bpp|]; [|done]. cbn [c_bind].
    destruct (Z.eqb_spec (size_of bpp roi) 0) as [|Hz]; [done|]. pose proof (size_of_nonneg bpp roi).
    destruct (render below _ no_dsc inb (r_flow st)) as [[[c1 d1] fl1]|] eqn:Er; [|done]. cbn [c_bind]. intros Hm.
    rewrite check_false. cbv iota beta.
    pose proof (not_available n 0 [] (tick st) hash (level_alike _ _ _ _ _ (tick_alike st) Hl)
                  (not_elem_of_nil _) (not_eq_sym Hi)) as Hav.
    destruct (default_hash (Some (n_op nd)) (length (nd :: below)) roi) as [basichash ->]. cbv iota beta. fold hash.
    rewrite Hav. assert (forall o : option (Z * Z), (match o with Some _ => false | None => false end) = false) as -> by (by intros []).
    repeat (rewrite check_false; cbv iota beta). set (st1 := r_set_rois _ _).
    destruct (IH ltac:(lia) (modify_roi_in (n_op nd) (n_data nd) roi) no_dsc st1 c1 d1 fl1) as (inp & st2 & -> & Hl2 & Hf2 & Hc2 & Hs2);
      [by eapply level_alike; [by apply (alike_refl st st1)|]|done..|]. cbn [c_bind].
    rewrite <- Hf2 in Hm.
    destruct (module_renders n (specials below) _ nd basichash hash (size_of bpp roi)
                (modify_roi_in (n_op nd) (n_data nd) roi) roi inp d1 st2 c1 content dsc fl Hal Hl2)
      as (addr & st3 & -> & Hl3 & H3); [lia|done|done|lia|done..|].
    rewrite (Nat.add_comm (special nd)). eauto 10.
Qed.

Lemma idle_level st n : idle st -> length (lines (r_cache st)) = n -> level n 0 [] st.
Proof.
  intros [Hok Hl] Hn. split; [done..| |].
  - eapply Forall_impl; [exact Hl|]. intros l [H _]. by left.
  - apply Nat.le_0_r. unfold neg. clear Hn. induction Hl as [|l ls [_ Hu] _ IH]; [done|]. cbn. by rewrite Hu.
Qed.

(** C3: a run that is not ended computes what the modules compute one after the other: the
    output has the contents, the format and the flow of [render], whatever lines and
    buffers the cache had from earlier runs and however it reuses them. *)
Theorem process_renders cache_obsolete x y width height scale st inb content dsc fl
    (Hal : alloc_fresh) (Hidle : idle st) (Hin : r_mem st !! input = Some inb)
    (Hlines : (lines_needed (rev all_nodes) <= length (lines (r_cache st)))%nat)
    (Hnd : NoDup (run_hashes (rev all_nodes) (Roi x y width height scale)))
    (Hinv : INVALID ∉ run_hashes (rev all_nodes) (Roi x y width height scale))
    (Hr : render (rev all_nodes) (Roi x y width height scale) no_dsc inb
            (Flow (f_dsc (r_flow st)) DT_DEV_PIXELPIPE_DISPLAY_NONE (f_colors (r_flow st))) = Done (content, dsc, fl)) :
  exists addr st', dt_dev_pixelpipe_process cache_obsolete x y width height scale st = Done (Some (addr, dsc), st') /\
    r_flow st' = fl /\ holds st' addr content /\
    forall px, buf_read content (width * height * 4) = Done px ->
      output_backbuf width height (Some (addr, dsc)) st' = Done (Some px).
Proof.
  unfold dt_dev_pixelpipe_process.
  set (st0 := if cache_obsolete : bool then _ else st).
  assert (idle st0 /\ r_mem st0 = r_mem st /\ r_flow st0 = r_flow st /\ length (lines (r_cache st0)) = length (lines (r_cache st)))
    as (Hid & Hm & Hf & Hlen).
  { unfold st0. destruct cache_obsolete; [|done]. split_and!; [apply flush_idle; apply Hidle|done|done|]. cbn. by rewrite length_map. }
  set (st1 := r_set_flow _ st0).
  destruct (rec_renders (rev all_nodes) (length (lines (r_cache st))) (Roi x y width height scale) no_dsc st1 inb content dsc fl)
    as (addr & st2 & -> & _ & Hf2 & [b Hb] & _); [done| |done..|by unfold st1; cbn; rewrite Hm|by unfold st1; cbn; rewrite Hf|].
  - eapply level_alike; [by apply (alike_refl st0 st1)|]. by apply idle_level.
  - cbn [c_bind]. set (st3 := r_set_cache _ st2). exists addr, st3. split_and!; [done|done|by exists b|].
    intros px Hpx. unfold output_backbuf. rewrite (read_holds st3 addr content _ px); [done|by exists b|done].
Qed.

End process.

(** ** An example: two modules on a part of an image of four pixels with two bytes each *)

Module Example.

Definition add (k : Z) (px : list ascii) : list ascii :=
  map (fun c => ascii_of_nat (Z.to_nat (Z.of_nat (nat_of_ascii c) + k))) px.

Definition pixel : dt_iop_buffer_dsc_t := Buffer_dsc 1 TYPE_UINT16 [] 0 [].

#[export] Instance api : iop_api Z := {|
  init_pipe _ := 0;
  commit_params _ _ k t := (k, true, t);
  modify_roi_out _ _ roi := roi;
  modify_roi_in _ _ roi := roi;
  output_format _ _ _ _ _ := pixel;
  default_colors _ := true;
  input_colorspace _ _ := 0;
  output_colorspace _ _ := 0;
  blend_colorspace _ _ := 0;
  transform_colorspace _ px _ to := (px, to);
  process _ k _ px _ _ fl := (add k px, fl);
  process_tiling _ k _ px _ _ fl := (add k px, fl);
  fits_host_memory _ _ _ _ _ := true;
  blend_process _ _ _ out _ _ fl := (out, fl);
  clip_and_zoom px _ _ := px;
|}.

Definition module (ptr : nat) (op : string) (k : Z) : node Z :=
  Node (Piece ptr (k + 7) true 0 false [] []) op 0 k no_blend 1 false no_roi no_roi.

Definition nodes : list (node Z) := [module 0 "exposure" 1; module 1 "filmic" 3; module 2 "gamma" 5].

(** An address above all that are in use. *)
Definition alloc (mem : gmap Z (list ascii)) (_ : Z) : Z := 1 + map_fold (fun a _ m => Z.max a m) 0 mem.

Lemma alloc_ok : alloc_fresh alloc.
Proof.
  intros mem size _. unfold alloc.
  assert (0 <= map_fold (fun a (_ : list ascii) m => Z.max a m) 0 mem /\
          forall a b, mem !! a = Some b -> a <= map_fold (fun a (_ : list ascii) m => Z.max a m) 0 mem) as [H1 H2].
  { apply (map_fold_weak_ind (fun r m => 0 <= r /\ forall a b, m !! a = Some b -> a <= r)).
    - split; [lia|]. intros a b H. by rewrite lookup_empty in H.
    - intros a b m r Hm [H1 H2]. split; [lia|]. intros a' b' [[-> ->]|[_ H]]%lookup_insert_Some; [lia|]. specialize (H2 _ _ H). lia. }
  split; [lia|]. destruct (mem !! _) eqn:E; [|done]. apply H2 in E. lia.
Qed.

Definition state : run_t := Run
  (PCache [Line 200 4 pixel INVALID INVALID 0; Line 0 0 pixel INVALID INVALID 0] 0 0)
  (<[100 := list_ascii_of_string "abcdefgh"]> (<[200 := list_ascii_of_string "XXXX"]> ∅))
  (Flow pixel 3 1) ∅ 0.

Definition roi_bytes (roi : dt_iop_roi_t) : list ascii :=
  store_s32 (roi_x roi) ++ store_s32 (roi_y roi) ++ store_s32 (roi_width roi) ++ store_s32 (roi_height roi).

Abbreviation run stop :=
  (dt_dev_pixelpipe_process stop alloc 1 100 4 1 pixel true nodes 1 None None false roi_bytes false 1 0 2 1 float_one state).

Lemma run_state_ok : cache_ok 100 state.
Proof.
  split.
  - intros [|[|i]] [|[|j]] l l' Hi Hj He Hn; cbn in Hi, Hj; simplify_eq; done.
  - intros l Hl%list_elem_of_In. cbn in Hl. by destruct Hl as [<-|[<-|[]]].
  - intros l Hl%list_elem_of_In Hd. cbn in Hl. destruct Hl as [<-|[<-|[]]]; [|done]. by eexists.
  - split_and!; [done|by eexists|]. intros H%list_elem_of_In. cbn in H. by destruct H as [|[]].
Qed.

Lemma process_leaves_idle_witness :
  exists st', run (fun n => n =? 11)%nat = Done (None, st') /\ idle 100 st'.
Proof.
  eexists. split; [vm_compute; reflexivity|].
  apply (process_leaves_idle (fun n => n =? 11)%nat alloc 1 100 4 1 pixel true nodes 1 None None false roi_bytes
           false 1 0 2 1 float_one state None _ alloc_ok run_state_ok).
  vm_compute. reflexivity.
Defined.

Lemma process_renders_witness :
  exists addr st', run (fun _ => false) = Done (Some (addr, pixel), st') /\
    holds st' addr (list_ascii_of_string "lmno").
Proof.
  destruct (process_renders (fun _ => false) alloc 1 100 4 1 pixel true nodes 1 None None false roi_bytes (fun _ => eq_refl)
              false 1 0 2 1 float_one state (list_ascii_of_string "abcdefgh") (list_ascii_of_string "lmno") pixel (Flow pixel 0 1))
    as (addr & st' & H & _ & Hh & _).
  - exact alloc_ok.
  - split; [exact run_state_ok|]. by repeat constructor.
  - reflexivity.
  - vm_compute. lia.
  - apply (bool_decide_unpack _). vm_compute. exact I.
  - apply (bool_decide_unpack _). vm_compute. exact I.
  - vm_compute. reflexivity.
  - exists addr, st'. by split.
Defined.

End Example.
