(* ===== verification/Tiling.v ===== *)
(** Tiling of a pixel-to-pixel module: develop/tiling.c with its default tiling
    callback, the memory test and [_default_process_tiling_ptp].

    The functions of a module are those of [iop_api] in [Pixelpipe]; its tiling callback
    is an argument. Pixels are bytes; the sizes of the tiles are computed in float and
    int as the code does, and a conversion of a float that does not fit an int is
    undefined. Asserts are compiled out. *)

From Stdlib Require Import Ascii String SpecFloat.
From S2P Require Import Prelude Floats Utility IopOrder IopModules PixelpipeCache Rows Pixelpipe.
Local Open Scope Z_scope.

(** ** Floats *)

Definition f_2_2 : spec_float := S754_finite false 9227469 (-22).
Definition f_0_2 : spec_float := S754_finite false 13421773 (-26).
Definition f_0_333 : spec_float := S754_finite false 11173626 (-25).

(** ** Integers *)

Fixpoint gcd_loop (fuel : nat) (a b : Z) : Z :=
  match fuel with
  | O => a
  | S fuel => if b =? 0 then a else gcd_loop fuel b (a mod b)
  end.

(** The loop ends after at most [b + 1] tests. *)
Definition _gcd (a b : Z) : Z := gcd_loop (S (Z.to_nat b)) a b.

Definition _lcm (a b : Z) : c_result Z :=
  if _gcd a b =? 0 then Undefined else Done (wrap_u32 (a * b / _gcd a b)).

(** ** What a module needs *)

Record dt_develop_tiling_t := Tiling {
  factor : spec_float;
  maxbuf : spec_float;
  overhead : Z;
  overlap : Z;
  xalign : Z;
  yalign : Z;
}.

Definition IOP_FLAGS_TILING_FULL_ROI : Z := Z.shiftl 1 6.

(** [filters]: pipe->dsc.filters; [module_order]: module->iop_order. *)
Definition default_tiling_callback (flags module_order : Z) (iop_order_list : list dt_iop_order_entry_t) (filters : Z)
    (roi_in roi_out : dt_iop_roi_t) : dt_develop_tiling_t :=
  let area r := fmul (float_of_int (roi_width r)) (float_of_int (roi_height r)) in
  let ioratio := fdiv (area roi_out) (area roi_in) in
  let ov := if Z.land flags IOP_FLAGS_TILING_FULL_ROI =? IOP_FLAGS_TILING_FULL_ROI then 4 else 0 in
  let align :=
    if module_order >? dt_ioppr_get_iop_order iop_order_list "demosaic" 0 then 1
    else if filters =? 0 then 1
    else if filters =? 9 then 6 else 2 in
  Tiling (fadd (float_of_int 1) ioratio) (float_of_int 1) 0 ov align align.

(** The limit is read once, clamped and written back; then it is kept. *)
Definition host_limit (conf : Z) : Z :=
  if conf =? 0 then 0 else if conf <? 500 then 500 else if conf >? 50000 then 50000 else conf.

Definition dt_tiling_piece_fits_host_memory (limit : Z) (width height bpp : Z) (factor : spec_float) (overhead : Z) : bool :=
  let requirement :=
    fadd (fmul (fmul (fmul factor (float_of_int width)) (float_of_int height)) (float_of_int bpp)) (float_of_int overhead) in
  (limit =? 0) ||
  SFleb requirement (fmul (fmul (float_of_int limit) (float_of_int 1024)) (float_of_int 1024)).

(** ** The tiles *)

Record grid_t := Grid {
  g_width : Z;
  g_height : Z;
  g_overlap : Z;
  tile_wd : Z;
  tile_ht : Z;
  tiles_x : Z;
  tiles_y : Z;
}.

Section tiling.
Context {D : Type} {api : iop_api D}.
Context (tiling_callback : string -> D -> dt_iop_roi_t -> dt_iop_roi_t -> dt_develop_tiling_t).
(** host_memory_limit, singlebuffer_limit and maximum_number_tiles of the configuration. *)
Context (host_memory_limit singlebuffer_limit : spec_float) (maximum_number_tiles : Z).
(** Whether dt_alloc_align gives a buffer of that size. *)
Context (alloc : Z -> bool).

Definition area_bytes (width height bpp : Z) : spec_float :=
  fmul (fmul (float_of_int width) (float_of_int height)) (float_of_int bpp).

Definition no_gain (t : dt_develop_tiling_t) (roi_in : dt_iop_roi_t) (max_bpp : Z) : bool :=
  SFltb (factor t) f_2_2 &&
  SFltb (float_of_int (overhead t))
        (fmul (fmul (fmul f_0_2 (float_of_int (roi_width roi_in))) (float_of_int (roi_height roi_in))) (float_of_int max_bpp)).

Definition megabytes (limit : spec_float) : spec_float := fmul (fmul limit (float_of_int 1024)) (float_of_int 1024).

Definition single_buffer (t : dt_develop_tiling_t) (roi_in roi_out : dt_iop_roi_t) (in_bpp out_bpp : Z) : spec_float :=
  let available :=
    fmax (fsub (fsub (fsub (megabytes host_memory_limit)
                           (area_bytes (roi_width roi_out) (roi_height roi_out) out_bpp))
                     (area_bytes (roi_width roi_in) (roi_height roi_in) in_bpp))
               (float_of_int (overhead t))) (S754_zero false) in
  let singlebuffer := fmax (megabytes singlebuffer_limit) (fmul (fmul (float_of_int 2) (float_of_int 1024)) (float_of_int 1024)) in
  fmax (fdiv available (fmax (factor t) (float_of_int 1))) singlebuffer.

(** [floorf(size * sqrt(scale))], the root and the product in double. *)
Definition scaled_root (size : Z) (scale : spec_float) : option Z :=
  float_floor (narrow (SFmul 53 1024 (binary_normalize 53 1024 size 0 false) (SFsqrt 53 1024 (widen scale)))).

(** Width and height of a tile before its alignment. *)
Definition tile_size (t : dt_develop_tiling_t) (roi_in : dt_iop_roi_t) (max_bpp : Z) (singlebuffer : spec_float)
    : c_result (Z * Z) :=
  let width := roi_width roi_in in
  let height := roi_height roi_in in
  let need := fmul (area_bytes width height max_bpp) (fmax (maxbuf t) (float_of_int 1)) in
  let* (width, height) :=
    if SFltb singlebuffer need then
      let scale := fdiv singlebuffer need in
      if (width <? height) && SFleb f_0_333 scale then
        let* height := to_int (float_floor (fmul (float_of_int height) scale)) in Done (width, height)
      else if (height <=? width) && SFleb f_0_333 scale then
        let* width := to_int (float_floor (fmul (float_of_int width) scale)) in Done (width, height)
      else
        let* width := to_int (scaled_root width scale) in
        let* height := to_int (scaled_root height scale) in
        Done (width, height)
    else Done (width, height) in
  if (wrap_u32 (3 * overlap t) >? wrap_u32 width) || (wrap_u32 (3 * overlap t) >? wrap_u32 height) then
    let* side := to_int (float_floor (SFsqrt 24 128 (fmul (float_of_int width) (float_of_int height)))) in
    Done (side, side)
  else Done (width, height).

(** The grid of tiles; [None] is the fallback to a single call of the module. *)
Definition ptp_grid (t : dt_develop_tiling_t) (roi_in roi_out : dt_iop_roi_t) (in_bpp out_bpp : Z)
    : c_result (option grid_t) :=
  let max_bpp := Z.max in_bpp out_bpp in
  if no_gain t roi_in max_bpp then Done None else
  let* (width, height) := tile_size t roi_in max_bpp (single_buffer t roi_in roi_out in_bpp out_bpp) in
  let* xyalign := _lcm (xalign t) (yalign t) in
  if xyalign =? 0 then Undefined else
  let align_down n full := if n <? full then wrap_s32 (wrap_u32 n / xyalign * xyalign) else n in
  let width := align_down width (roi_width roi_in) in
  let height := align_down height (roi_height roi_in) in
  let ov := wrap_s32 (if negb (overlap t mod xyalign =? 0) then wrap_u32 ((overlap t / xyalign + 1) * xyalign) else overlap t) in
  let tile size := if size - 2 * ov >? 0 then size - 2 * ov else 1 in
  let tiles size full :=
    if size <? full then to_int (float_ceil (fdiv (float_of_int full) (float_of_int (tile size)))) else Done 1 in
  let* nx := tiles width (roi_width roi_in) in
  let* ny := tiles height (roi_height roi_in) in
  if negb (is_s32 (nx * ny)) then Undefined else
  if nx * ny >? maximum_number_tiles then Done None else
  if negb (alloc (width * height * in_bpp)) || negb (alloc (width * height * out_bpp)) then Done None else
  Done (Some (Grid width height ov (tile width) (tile height) nx ny)).

(** ** The loop over the tiles *)

Definition fl_maximum (fl : flow) : list spec_float := processed_maximum (f_dsc fl).
Definition set_maximum (v : list spec_float) (fl : flow) : flow :=
  let d := f_dsc fl in
  Flow (Buffer_dsc (channels d) (datatype d) v (cst d) (other_dsc d)) (f_mask_display fl) (f_colors fl).

Definition sub_roi (roi : dt_iop_roi_t) (x y wd ht : Z) : dt_iop_roi_t :=
  Roi (roi_x roi + x) (roi_y roi + y) wd ht (roi_scale roi).

(** The output buffer, the flow and processed_maximum_new after a tile. *)
Definition tiling_state : Type := list ascii * flow * list spec_float.

Definition process_tile (op : string) (data : D) (dsc_in : dt_iop_buffer_dsc_t) (ivoid : list ascii) (roi_in roi_out : dt_iop_roi_t)
    (in_bpp out_bpp : Z) (saved : list spec_float) (g : grid_t) (tx ty : Z) (st : tiling_state) : c_result tiling_state :=
  let '(ovoid, fl, _) := st in
  let ipitch := roi_width roi_in * in_bpp in
  let opitch := roi_width roi_out * out_bpp in
  let x := tx * tile_wd g in
  let y := ty * tile_ht g in
  let wd := if x + g_width g >? roi_width roi_in then roi_width roi_in - x else g_width g in
  let ht := if y + g_height g >? roi_height roi_in then roi_height roi_in - y else g_height g in
  if ((wd <=? 2 * g_overlap g) && (tx >? 0)) || ((ht <=? 2 * g_overlap g) && (ty >? 0)) then Done st else
  let* input := copy_rows (Z.to_nat ht) ivoid (y * ipitch + x * in_bpp) ipitch
                          (replicate (Z.to_nat (wd * ht * in_bpp)) NUL) 0 (wd * in_bpp) (wd * in_bpp) in
  let (output, fl) := process op data dsc_in input (sub_roi roi_in x y wd ht) (sub_roi roi_out x y wd ht) (set_maximum saved fl) in
  let left := if tx >? 0 then g_overlap g else 0 in
  let top := if ty >? 0 then g_overlap g else 0 in
  let* ovoid := copy_rows (Z.to_nat (ht - top)) output ((top * wd + left) * out_bpp) (wd * out_bpp)
                          ovoid (y * opitch + x * out_bpp + left * out_bpp + top * opitch) opitch ((wd - left) * out_bpp) in
  Done (ovoid, fl, fl_maximum fl).

Fixpoint for_tiles (f : Z -> tiling_state -> c_result tiling_state) (k : Z) (n : nat) (st : tiling_state) : c_result tiling_state :=
  match n with
  | O => Done st
  | S n => let* st := f k st in for_tiles f (k + 1) n st
  end.

(** The output is [ovoid], with what it held before where nothing is written. *)
Definition _default_process_tiling_ptp (op : string) (module : nat) (data : D) (dsc_in : dt_iop_buffer_dsc_t)
    (ivoid ovoid : list ascii) (roi_in roi_out : dt_iop_roi_t) (in_bpp : Z) (fl : flow) : c_result (list ascii * flow) :=
  let* out_bpp := dt_iop_buffer_dsc_to_bpp (output_format op module data (f_dsc fl) no_dsc) in
  if negb (is_s32 (roi_width roi_in * in_bpp)) || negb (is_s32 (roi_width roi_out * out_bpp)) then Undefined else
  let* g := ptp_grid (tiling_callback op data roi_in roi_out) roi_in roi_out in_bpp out_bpp in
  match g with
  | None =>
      let (res, fl) := process op data dsc_in ivoid roi_in roi_out fl in
      if (length res <=? length ovoid)%nat then Done (put_bytes 0 res ovoid, fl) else Undefined
  | Some g =>
      let saved := fl_maximum fl in
      let one := float_of_int 1 in
      let zero := S754_zero false in
      let column tx := for_tiles (process_tile op data dsc_in ivoid roi_in roi_out in_bpp out_bpp saved g tx) 0 (Z.to_nat (tiles_y g)) in
      let* (ovoid, fl, maximum) := for_tiles column 0 (Z.to_nat (tiles_x g)) (ovoid, fl, [one; zero; zero; zero]) in
      Done (ovoid, set_maximum maximum fl)
  end.

(** ** Lemmas: integers *)

End tiling.

Lemma gcd_loop_spec fuel a b : 0 <= b < Z.of_nat fuel -> 0 <= a -> gcd_loop fuel a b = Z.gcd a b.
Proof.
  revert a b. induction fuel as [|fuel IH]; intros a b Hb Ha; [lia|]. cbn [gcd_loop].
  destruct (Z.eqb_spec b 0) as [->|Hne]; [rewrite Z.gcd_0_r; lia|].
  pose proof (Z.mod_pos_bound a b ltac:(lia)). rewrite IH by lia. rewrite (Z.gcd_comm b), Z.gcd_mod by lia. apply Z.gcd_comm.
Qed.

Lemma gcd_spec a b : 0 <= a -> 0 <= b -> _gcd a b = Z.gcd a b.
Proof. intros Ha Hb. apply gcd_loop_spec; lia. Qed.

Lemma lcm_spec a b : 0 < a -> 0 < b -> Z.lcm a b < 2 ^ 32 -> _lcm a b = Done (Z.lcm a b).
Proof.
  intros Ha Hb Hl. unfold _lcm. rewrite gcd_spec by lia.
  assert (0 < Z.gcd a b) as Hg. { pose proof (Z.gcd_nonneg a b). pose proof (Z.gcd_eq_0_l a b). lia. }
  destruct (Z.eqb_spec (Z.gcd a b) 0); [lia|].
  assert (a * b / Z.gcd a b = Z.lcm a b) as ->.
  { unfold Z.lcm. rewrite Z.divide_div_mul_exact by (lia || apply Z.gcd_divide_r). rewrite Z.abs_eq; [done|].
    apply Z.mul_nonneg_nonneg; [lia|]. apply Z.div_pos; lia. }
  rewrite wrap_u32_id; [done|]. pose proof (Z.lcm_nonneg a b). lia.
Qed.

(** ** Lemmas: the tiles along one axis *)

Section axis.
Context (full size ov tile count : Z).

Definition axis_ok : Prop :=
  0 < full /\ 0 <= ov /\
  (full <= size /\ count = 1 \/ size < full /\ 2 * ov < size /\ tile = size - 2 * ov /\ (count - 1) * tile < full <= count * tile).

Definition extent (k : Z) : Z := if k * tile + size >? full then full - k * tile else size.
Definition skips (k : Z) : bool := (extent k <=? 2 * ov) && (k >? 0).
Definition margin (k : Z) : Z := if k >? 0 then ov else 0.
Definition writes (k p : Z) : Prop := skips k = false /\ k * tile + margin k <= p < k * tile + extent k.
(** The margins that touch the border of the image are as good as the rest. *)
Definition good (k p : Z) : Prop :=
  (k * tile = 0 \/ ov <= p - k * tile) /\ (k * tile + extent k = full \/ p - k * tile + ov < extent k).

Lemma extent_bounds k : axis_ok -> 0 <= k < count -> 0 <= k * tile /\ 0 < extent k /\ k * tile + extent k <= full /\ extent k <= size.
Proof.
  intros (Hf & Ho & [[Hs ->]|(Hs & H2 & Ht & Hc)]) Hk; unfold extent.
  - assert (k = 0) as -> by lia. destruct (Z.gtb_spec (0 * tile + size) full); lia.
  - assert (k * tile <= (count - 1) * tile) by (apply Z.mul_le_mono_nonneg_r; lia).
    assert (0 <= k * tile) by (apply Z.mul_nonneg_nonneg; lia).
    destruct (Z.gtb_spec (k * tile + size) full); lia.
Qed.

(** Every point has a last tile that writes it, and that tile is good there. *)
Lemma axis_owner p : axis_ok -> 0 <= p < full ->
  exists k, 0 <= k < count /\ writes k p /\ good k p /\ forall k', k < k' < count -> ~ writes k' p.
Proof.
  intros Hok Hp. pose proof Hok as (Hf & Ho & [[Hs Hc]|(Hs & H2 & Ht & Hc)]).
  - exists 0. unfold writes, good, skips, margin, extent. change (0 >? 0) with false. rewrite andb_false_r.
    destruct (Z.gtb_spec (0 * tile + size) full); split_and!; lia.
  - assert (forall k', 0 < k' -> writes k' p -> k' * tile + ov <= p /\ k' * tile < full - 2 * ov) as Hw.
    { intros k' Hk' [Hsk Hr]. unfold skips, margin, extent in *. destruct (Z.gtb_spec k' 0); [|lia]. rewrite andb_true_r in Hsk.
      destruct (Z.gtb_spec (k' * tile + size) full); apply Z.leb_gt in Hsk; lia. }
    assert (0 < tile) as Ht0 by lia.
    destruct (Z.lt_ge_cases p (tile + ov)) as [Hlt|Hge].
    + exists 0. split; [nia|]. unfold writes, good. split_and!.
      * unfold skips. change (0 >? 0) with false. by rewrite andb_false_r.
      * change (margin 0) with 0. lia.
      * unfold extent. destruct (Z.gtb_spec (0 * tile + size) full); lia.
      * by left.
      * unfold extent. destruct (Z.gtb_spec (0 * tile + size) full); lia.
      * intros k' Hk' Hwr. apply Hw in Hwr as [Hk1 _]; [|lia]. nia.
    + set (k := Z.min ((p - ov) / tile) ((full - 2 * ov - 1) / tile)).
      assert (k * tile <= p - ov) as Hk1.
      { pose proof (Z.mul_div_le (p - ov) tile Ht0). assert (k <= (p - ov) / tile) by lia. nia. }
      assert (k * tile < full - 2 * ov) as Hk2.
      { pose proof (Z.mul_div_le (full - 2 * ov - 1) tile Ht0). assert (k <= (full - 2 * ov - 1) / tile) by lia. nia. }
      assert (1 <= k) as Hk0.
      { unfold k. apply Z.min_glb; apply Z.div_le_lower_bound; lia. }
      assert (p < k * tile + tile + ov \/ full - 2 * ov <= k * tile + tile) as Hk3.
      { pose proof (Z.mul_succ_div_gt (p - ov) tile Ht0). pose proof (Z.mul_succ_div_gt (full - 2 * ov - 1) tile Ht0).
        unfold k. destruct (Z.min_spec ((p - ov) / tile) ((full - 2 * ov - 1) / tile)) as [[_ ->]|[_ ->]]; [left|right]; lia. }
      clearbody k. exists k. unfold writes, good, skips, margin, extent. destruct (Z.gtb_spec k 0); [|lia]. rewrite andb_true_r.
      split; [nia|]. split_and!.
      * apply Z.leb_gt. destruct (Z.gtb_spec (k * tile + size) full); lia.
      * lia.
      * destruct (Z.gtb_spec (k * tile + size) full); lia.
      * right. lia.
      * destruct (Z.gtb_spec (k * tile + size) full); lia.
      * intros k' Hk' Hwr. apply Hw in Hwr as [Hk1' Hk2']; [|lia]. nia.
Qed.

End axis.

(** ** Lemmas: the grid *)

Section grid.
Context {D : Type} {api : iop_api D}.
Context (tiling_callback : string -> D -> dt_iop_roi_t -> dt_iop_roi_t -> dt_develop_tiling_t).
Context (host_memory_limit singlebuffer_limit : spec_float) (maximum_number_tiles : Z) (alloc : Z -> bool).

Abbreviation grid_of := (ptp_grid host_memory_limit singlebuffer_limit maximum_number_tiles alloc).

(** What a module asks for is in range. *)
Record wf_tiling (t : dt_develop_tiling_t) : Prop := Wf_tiling {
  wt_overlap : 0 <= overlap t < 2 ^ 30;
  wt_xalign : 0 < xalign t;
  wt_yalign : 0 < yalign t;
  wt_lcm : Z.lcm (xalign t) (yalign t) < 2 ^ 16;
}.

(** The tiles are wider than the margins on both sides of a tile, if there are several. *)
Definition wide (g : grid_t) (roi : dt_iop_roi_t) : Prop :=
  (roi_width roi <= g_width g \/ 2 * g_overlap g < g_width g) /\
  (roi_height roi <= g_height g \/ 2 * g_overlap g < g_height g).

Lemma align_up_spec o a : 0 <= o < 2 ^ 30 -> 0 < a < 2 ^ 16 ->
  let ov := wrap_s32 (if negb (o mod a =? 0) then wrap_u32 ((o / a + 1) * a) else o) in
  o <= ov < 2 ^ 31 /\ (a | ov).
Proof.
  intros Ho Ha ov. pose proof (Z.div_mod o a ltac:(lia)) as Hd. pose proof (Z.mod_pos_bound o a ltac:(lia)).
  assert (0 <= o / a) by (apply Z.div_pos; lia).
  unfold ov, wrap_s32, wrap_u32. destruct (Z.eqb_spec (o mod a) 0) as [Hz|Hz]; cbn [negb].
  - rewrite Z.mod_small by lia. split; [lia|]. exists (o / a). lia.
  - assert (o < (o / a + 1) * a <= o + a) by lia. rewrite (Z.mod_small ((o / a + 1) * a)) by lia. rewrite Z.mod_small by lia.
    split; [lia|]. exists (o / a + 1). lia.
Qed.

Lemma align_down_spec n a full : 0 <= n < 2 ^ 31 -> 0 < a < 2 ^ 16 ->
  let n' := if n <? full then wrap_s32 (wrap_u32 n / a * a) else n in
  0 <= n' <= n /\ ((a | n') \/ full <= n').
Proof.
  intros Hn Ha n'. unfold n'. destruct (Z.ltb_spec n full); [|split; [lia|by right]].
  rewrite wrap_u32_id by lia. pose proof (Z.mul_div_le n a ltac:(lia)). assert (0 <= n / a) by (apply Z.div_pos; lia).
  unfold wrap_s32. rewrite Z.mod_small by lia. split; [nia|left]. exists (n / a). lia.
Qed.
Lemma single_buffer_nonneg t roi_in roi_out in_bpp out_bpp :
  nonneg (single_buffer host_memory_limit singlebuffer_limit t roi_in roi_out in_bpp out_bpp).
Proof.
  unfold single_buffer. apply positive_nonneg, fmax_positive, fmax_positive. done.
Qed.

Lemma tile_size_nonneg t roi max_bpp singlebuffer w h :
  nonneg singlebuffer -> 0 <= max_bpp -> 0 <= roi_width roi < 2 ^ 31 -> 0 <= roi_height roi < 2 ^ 31 ->
  tile_size t roi max_bpp singlebuffer = Done (w, h) -> 0 <= w < 2 ^ 31 /\ 0 <= h < 2 ^ 31.
Proof.
  intros Hs Hb Hw Hh. unfold tile_size. set (need := fmul (area_bytes _ _ _) _).
  assert (nonneg need) as Hneed by (unfold need, area_bytes; auto with nonneg zarith).
  set (scale := fdiv singlebuffer need). assert (nonneg scale) as Hscale by (unfold scale; auto with nonneg). clearbody scale need.
  assert (forall r : c_result (Z * Z), (forall a b, r = Done (a, b) -> 0 <= a < 2 ^ 31 /\ 0 <= b < 2 ^ 31) ->
    (let* (width, height) := r in
     if (wrap_u32 (3 * overlap t) >? wrap_u32 width) || (wrap_u32 (3 * overlap t) >? wrap_u32 height) then
       let* side := to_int (float_floor (SFsqrt 24 128 (fmul (float_of_int width) (float_of_int height)))) in Done (side, side)
     else Done (width, height)) = Done (w, h) -> 0 <= w < 2 ^ 31 /\ 0 <= h < 2 ^ 31) as Hsquare.
  { intros r Hr. destruct r as [[a b]|]; [|done]. cbn [c_bind]. specialize (Hr a b eq_refl). destruct (_ || _); [|by intros [= -> ->]].
    destruct (to_int _) as [side|] eqn:E; [|done]. cbn [c_bind]. intros [= <- <-].
    apply to_int_floor in E; [lia|]. apply sqrt_nonneg, mul_nonneg; apply of_int_nonneg; lia. }
  apply Hsquare. clear Hsquare. intros a b. destruct (SFltb singlebuffer need); [|intros [= <- <-]; lia].
  destruct (_ && _); [|destruct (_ && _)]; cbn [c_bind].
  - destruct (to_int _) as [z|] eqn:E; [|done]. apply to_int_floor in E; [|auto with nonneg zarith]. intros [= <- <-]. lia.
  - destruct (to_int _) as [z|] eqn:E; [|done]. apply to_int_floor in E; [|auto with nonneg zarith]. intros [= <- <-]. lia.
  - unfold scaled_root. destruct (to_int _) as [z|] eqn:E; [|done]. cbn [c_bind]. destruct (to_int (float_floor (narrow (SFmul 53 1024 (binary_normalize 53 1024 (roi_height roi) 0 false) _)))) as [z'|] eqn:E'; [|done].
    apply to_int_floor in E; [|auto 7 with nonneg zarith]. apply to_int_floor in E'; [|auto 7 with nonneg zarith]. intros [= <- <-]. lia.
Qed.

(** One axis: the number of tiles covers it, and tiles start at aligned places. *)
Lemma tiles_axis full size ov a x count :
  0 < full < 2 ^ 24 -> 0 <= ov < 2 ^ 31 -> (full <= size \/ 2 * ov < size) -> (a | ov) -> (a | size) \/ full <= size -> (x | a) ->
  (if size <? full
   then to_int (float_ceil (fdiv (float_of_int full) (float_of_int (if size - 2 * ov >? 0 then size - 2 * ov else 1)))) else Done 1)
    = Done count ->
  let tile := if size - 2 * ov >? 0 then size - 2 * ov else 1 in
  axis_ok full size ov tile count /\ (forall k, 0 <= k < count -> (x | k * tile)).
Proof.
  intros Hf Ho Hwide Hov Hsize Hx Hc tile. destruct (Z.ltb_spec size full) as [Hlt|Hge].
  - destruct Hwide as [|Hwide]; [lia|]. unfold tile. destruct (Z.gtb_spec (size - 2 * ov) 0); [|lia].
    rewrite ceil_quotient in Hc by lia. set (n := - (- full / (size - 2 * ov))) in *.
    pose proof (ceil_spec full (size - 2 * ov) ltac:(lia)) as Hn. fold n in Hn.
    unfold to_int in Hc. destruct (is_s32 n); [|done]. injection Hc as <-. split.
    + split; [lia|]. split; [lia|]. right. split_and!; try done; lia.
    + intros k _. apply Z.divide_mul_r. apply Z.divide_sub_r.
      * destruct Hsize as [Hsize|]; [|lia]. by transitivity a.
      * apply Z.divide_mul_r. by transitivity a.
  - injection Hc as <-. split.
    + split; [lia|]. split; [lia|]. left. lia.
    + intros k Hk. assert (k = 0) as -> by lia. apply Z.divide_0_r.
Qed.

(** The grid along both axes. *)
Lemma grid_axes t roi_in roi_out in_bpp out_bpp g :
  wf_tiling t -> 0 < roi_width roi_in < 2 ^ 24 -> 0 < roi_height roi_in < 2 ^ 24 -> 0 < in_bpp -> 0 < out_bpp ->
  grid_of t roi_in roi_out in_bpp out_bpp = Done (Some g) -> wide g roi_in ->
  overlap t <= g_overlap g /\
  axis_ok (roi_width roi_in) (g_width g) (g_overlap g) (tile_wd g) (tiles_x g) /\
  axis_ok (roi_height roi_in) (g_height g) (g_overlap g) (tile_ht g) (tiles_y g) /\
  (forall k, 0 <= k < tiles_x g -> (xalign t | k * tile_wd g)) /\ (forall k, 0 <= k < tiles_y g -> (yalign t | k * tile_ht g)).
Proof.
  intros [Ho Hx Hy Hlcm] Hw Hh Hi Hob. unfold ptp_grid. destruct (no_gain _ _ _); [done|].
  destruct (tile_size t roi_in _ _) as [[w h]|] eqn:Es; [|done]. cbn [c_bind].
  apply tile_size_nonneg in Es as [Hw0 Hh0]; [|apply single_buffer_nonneg|lia|lia|lia].
  rewrite lcm_spec by lia. cbn [c_bind]. set (a := Z.lcm (xalign t) (yalign t)) in *.
  assert (0 < a) as Ha.
  { pose proof (Z.lcm_nonneg (xalign t) (yalign t)). pose proof (Z.lcm_eq_0 (xalign t) (yalign t)). lia. }
  destruct (Z.eqb_spec a 0); [lia|].
  destruct (align_up_spec (overlap t) a Ho ltac:(lia)) as [Hov Hova]. set (ov := wrap_s32 _) in *.
  destruct (align_down_spec w a (roi_width roi_in) Hw0 ltac:(lia)) as [Hw1 Hwa]. set (w1 := if w <? _ then _ else w) in *.
  destruct (align_down_spec h a (roi_height roi_in) Hh0 ltac:(lia)) as [Hh1 Hha]. set (h1 := if h <? _ then _ else h) in *.
  destruct (if w1 <? _ then _ else _) as [nx|] eqn:Enx; [|done]. cbn [c_bind].
  destruct (if h1 <? _ then _ else _) as [ny|] eqn:Eny; [|done]. cbn [c_bind].
  destruct (negb (is_s32 (nx * ny))); [done|]. destruct (nx * ny >? maximum_number_tiles); [done|].
  destruct (_ || _); [done|]. intros [= <-] [Hwx Hwy]. cbn [g_width g_height g_overlap tile_wd tile_ht tiles_x tiles_y] in *.
  destruct (tiles_axis (roi_width roi_in) w1 ov a (xalign t) nx) as [H1 H2]; try done; [lia|apply Z.divide_lcm_l|].
  destruct (tiles_axis (roi_height roi_in) h1 ov a (yalign t) ny) as [H3 H4]; try done; [lia|apply Z.divide_lcm_r|].
  split_and!; try done; lia.
Qed.

End grid.

(** ** Lemmas: the loop over the tiles *)

Lemma for_tiles_spec (Inv Q : tiling_state -> Prop) f owner n k st :
  (forall i st, k <= i < k + Z.of_nat n -> Inv st -> exists st', f i st = Done st' /\ Inv st' /\ (i = owner -> Q st') /\ (owner < i -> Q st -> Q st')) ->
  Inv st -> (owner < k -> Q st) -> owner < k + Z.of_nat n ->
  exists st', for_tiles f k n st = Done st' /\ Inv st' /\ Q st'.
Proof.
  revert k st. induction n as [|n IH]; intros k st Hf Hi Hq Ho.
  - exists st. split_and!; [done|done|]. apply Hq. lia.
  - cbn [for_tiles]. destruct (Hf k st ltac:(lia) Hi) as (st1 & -> & Hi1 & Hq1 & Hq2). cbn [c_bind].
    apply IH; [|done| |lia].
    + intros i st2 Hr. apply Hf. lia.
    + intros Hlt. destruct (Z.eq_dec k owner) as [->|]; [by apply Hq1|]. apply Hq2; [lia|]. apply Hq. lia.
Qed.

(** Offsets in different rows. *)
Lemma other_row pitch r r' q lo hi :
  0 <= q < pitch -> 0 <= lo -> hi <= pitch -> r <> r' -> r * pitch + q < r' * pitch + lo \/ r' * pitch + hi <= r * pitch + q.
Proof.
  intros Hq Hlo Hhi Hr. destruct (Z.lt_ge_cases r r') as [Hlt|Hge]; [left|right].
  - assert ((r + 1) * pitch <= r' * pitch) by (apply Z.mul_le_mono_nonneg_r; lia). lia.
  - assert ((r' + 1) * pitch <= r * pitch) by (apply Z.mul_le_mono_nonneg_r; lia). lia.
Qed.

Section run.
Context {D : Type} {api : iop_api D}.
Context (op : string) (data : D) (dsc_in : dt_iop_buffer_dsc_t) (ivoid : list ascii) (roi : dt_iop_roi_t).
Context (in_bpp out_bpp : Z) (fl : flow).

Abbreviation W := (roi_width roi).
Abbreviation H := (roi_height roi).

(** The module on the whole image. *)
Definition whole : list ascii * flow := process op data dsc_in ivoid roi roi fl.

(** The pixels of a part of the image. *)
Definition is_part (x y w h : Z) (part : list ascii) : Prop :=
  Z.of_nat (length part) = w * h * in_bpp /\
  forall j c, 0 <= j < h -> 0 <= c < w * in_bpp ->
    byte_at part (j * (w * in_bpp) + c) = byte_at ivoid ((y + j) * (W * in_bpp) + x * in_bpp + c).

(** The module on a part that starts at an aligned place gives the pixels of the whole
    image, but for those nearer than [radius] to a side of the part that is not a side
    of the image; and it changes the flow in the same way every time. *)
Definition computes_parts (radius ax ay : Z) : Prop :=
  Z.of_nat (length (fst whole)) = W * H * out_bpp /\
  forall x y w h part fl',
    0 <= x -> 0 <= y -> 0 < w -> 0 < h -> x + w <= W -> y + h <= H -> (ax | x) -> (ay | y) ->
    fl' = fl \/ fl' = set_maximum (fl_maximum fl) (snd whole) -> is_part x y w h part ->
    exists res, process op data dsc_in part (sub_roi roi x y w h) (sub_roi roi x y w h) fl' = (res, snd whole) /\
      Z.of_nat (length res) = w * h * out_bpp /\
      forall i j b, 0 <= i < w -> 0 <= j < h -> 0 <= b < out_bpp ->
        (x = 0 \/ radius <= i) -> (x + w = W \/ i + radius < w) -> (y = 0 \/ radius <= j) -> (y + h = H \/ j + radius < h) ->
        byte_at res ((j * w + i) * out_bpp + b) = byte_at (fst whole) (((y + j) * W + (x + i)) * out_bpp + b).

Context (g : grid_t) (radius ax ay : Z).
Context (Hin : 0 < in_bpp) (Hout : 0 < out_bpp) (Hiv : Z.of_nat (length ivoid) = W * H * in_bpp).
Context (Hov : radius <= g_overlap g).
Context (Hx : axis_ok W (g_width g) (g_overlap g) (tile_wd g) (tiles_x g)).
Context (Hy : axis_ok H (g_height g) (g_overlap g) (tile_ht g) (tiles_y g)).
Context (Hax : forall k, 0 <= k < tiles_x g -> (ax | k * tile_wd g)).
Context (Hay : forall k, 0 <= k < tiles_y g -> (ay | k * tile_ht g)).
Context (Hparts : computes_parts radius ax ay).

Abbreviation tile := (process_tile op data dsc_in ivoid roi roi in_bpp out_bpp (fl_maximum fl) g).
Abbreviation extent_x := (extent W (g_width g) (tile_wd g)).
Abbreviation extent_y := (extent H (g_height g) (tile_ht g)).
Abbreviation writes_x := (writes W (g_width g) (g_overlap g) (tile_wd g)).
Abbreviation writes_y := (writes H (g_height g) (g_overlap g) (tile_ht g)).
Abbreviation good_x := (good W (g_width g) (g_overlap g) (tile_wd g)).
Abbreviation good_y := (good H (g_height g) (g_overlap g) (tile_ht g)).

Definition pixel (buf : list ascii) (x y b : Z) : option ascii := byte_at buf ((y * W + x) * out_bpp + b).

Definition inv (st : tiling_state) : Prop :=
  let '(out, fl', _) := st in Z.of_nat (length out) = W * H * out_bpp /\ (fl' = fl \/ fl' = snd whole).

(** The flow after at least one tile. *)
Definition flowed (st : tiling_state) : Prop :=
  let '(_, fl', maximum) := st in fl' = snd whole /\ maximum = fl_maximum (snd whole).

Lemma set_own_maximum fl' : set_maximum (fl_maximum fl') fl' = fl'.
Proof. by destruct fl' as [[] ? ?]. Qed.

(** The input of a tile. *)
Lemma tile_input x y w h :
  0 <= x -> 0 <= y -> 0 < w -> 0 < h -> x + w <= W -> y + h <= H ->
  exists part, copy_rows (Z.to_nat h) ivoid (y * (W * in_bpp) + x * in_bpp) (W * in_bpp)
                         (replicate (Z.to_nat (w * h * in_bpp)) NUL) 0 (w * in_bpp) (w * in_bpp) = Done part /\
               is_part x y w h part.
Proof.
  intros Hx0 Hy0 Hw Hh Hxw Hyh.
  assert (0 <= w * in_bpp /\ 0 <= x * in_bpp) as [Hwb Hxb] by (split; apply Z.mul_nonneg_nonneg; lia).
  assert ((x + w) * in_bpp <= W * in_bpp) as Hpitch by (apply Z.mul_le_mono_nonneg_r; lia).
  assert (0 <= y * (W * in_bpp)) as Hyp by (apply Z.mul_nonneg_nonneg; lia).
  assert ((y + h) * (W * in_bpp) <= H * (W * in_bpp)) as Hrows by (apply Z.mul_le_mono_nonneg_r; lia).
  assert (0 <= h * (w * in_bpp)) as Hsize by (apply Z.mul_nonneg_nonneg; lia).
  assert (w * h * in_bpp = h * (w * in_bpp)) as Hwh by ring. rewrite Hwh.
  destruct (copy_rows_spec (Z.to_nat h) ivoid (y * (W * in_bpp) + x * in_bpp) (W * in_bpp)
              (replicate (Z.to_nat (h * (w * in_bpp))) NUL) 0 (w * in_bpp) (w * in_bpp))
    as (part & Hc & Hl & Hb & _); rewrite ?length_replicate, ?Z2Nat.id in * by lia; [lia..|].
  exists part. split; [done|]. split; [lia|]. intros j c Hj Hcc. specialize (Hb j c Hj Hcc). rewrite Z.add_0_l in Hb.
  rewrite Hb. f_equal. lia.
Qed.

(** The part of a tile without its left and top margins goes to its place. *)
Lemma tile_output x y w h left top res out :
  0 <= x -> 0 <= y -> x + w <= W -> y + h <= H -> 0 <= left < w -> 0 <= top < h ->
  Z.of_nat (length res) = w * h * out_bpp -> Z.of_nat (length out) = W * H * out_bpp ->
  exists out', copy_rows (Z.to_nat (h - top)) res ((top * w + left) * out_bpp) (w * out_bpp) out
      (y * (W * out_bpp) + x * out_bpp + left * out_bpp + top * (W * out_bpp)) (W * out_bpp) ((w - left) * out_bpp) = Done out' /\
    length out' = length out /\
    forall px py b, 0 <= px < W -> 0 <= py < H -> 0 <= b < out_bpp ->
      (x + left <= px < x + w -> y + top <= py < y + h ->
         pixel out' px py b = byte_at res (((py - y) * w + (px - x)) * out_bpp + b)) /\
      (~ (x + left <= px < x + w /\ y + top <= py < y + h) -> pixel out' px py b = pixel out px py b).
Proof.
  intros Hx0 Hy0 Hxw Hyh Hl Ht Hres Hlen. set (pitch := W * out_bpp).
  assert (0 <= left * out_bpp /\ 0 <= x * out_bpp /\ 0 <= (w - left) * out_bpp) as (Hlb & Hxb & Hnb) by (split_and!; apply Z.mul_nonneg_nonneg; lia).
  assert ((x + w) * out_bpp <= pitch) as Hpitch by (apply Z.mul_le_mono_nonneg_r; lia).
  assert (0 <= (y + top) * pitch) as Hyp by (apply Z.mul_nonneg_nonneg; lia).
  assert ((y + h) * pitch <= H * pitch) as Hrows by (apply Z.mul_le_mono_nonneg_r; lia).
  assert (0 <= top * w) as Htw by (apply Z.mul_nonneg_nonneg; lia).
  assert (0 <= (top * w + left) * out_bpp) as Hso by (apply Z.mul_nonneg_nonneg; lia).
  set (off := y * pitch + x * out_bpp + left * out_bpp + top * pitch).
  assert (off = (y + top) * pitch + (x + left) * out_bpp) as Hoff by (unfold off; ring).
  destruct (copy_rows_spec (Z.to_nat (h - top)) res ((top * w + left) * out_bpp) (w * out_bpp) out off pitch ((w - left) * out_bpp))
    as (out' & Hc & Hlen' & Hb & Hother); rewrite ?Z2Nat.id in * by lia; [lia..|].
  exists out'. split_and!; [done|done|]. intros px py b Hpx Hpy Hbb. unfold pixel.
  replace ((py * W + px) * out_bpp + b) with (py * pitch + (px * out_bpp + b)) by (unfold pitch; ring).
  assert (0 <= px * out_bpp) as Hpb by (apply Z.mul_nonneg_nonneg; lia).
  assert ((px + 1) * out_bpp <= pitch) as Hpb' by (apply Z.mul_le_mono_nonneg_r; lia). split.
  - intros Hxr Hyr. specialize (Hb (py - y - top) ((px - x - left) * out_bpp + b) ltac:(lia)).
    replace (off + (py - y - top) * pitch + ((px - x - left) * out_bpp + b)) with (py * pitch + (px * out_bpp + b)) in Hb by lia.
    rewrite Hb; [f_equal; ring|].
    assert (0 <= (px - x - left) * out_bpp) by (apply Z.mul_nonneg_nonneg; lia).
    assert ((px - x - left + 1) * out_bpp <= (w - left) * out_bpp) by (apply Z.mul_le_mono_nonneg_r; lia). lia.
  - intros Hnot. apply Hother; [assert (0 <= py * pitch) by (apply Z.mul_nonneg_nonneg; lia); lia|].
    intros j Hj. destruct (Z.eq_dec py (y + top + j)) as [Heq|Hne].
    + assert (px < x + left \/ x + w <= px) as [Hlt|Hge] by lia; [left|right].
      * assert ((px + 1) * out_bpp <= (x + left) * out_bpp) by (apply Z.mul_le_mono_nonneg_r; lia). lia.
      * assert ((x + w) * out_bpp <= px * out_bpp) by (apply Z.mul_le_mono_nonneg_r; lia). lia.
    + pose proof (other_row pitch py (y + top + j) (px * out_bpp + b) ((x + left) * out_bpp) ((x + w) * out_bpp)) as Hrow.
      destruct Hrow as [Hrow|Hrow]; [lia|lia|lia|lia|left|right]; lia.
Qed.

(** One tile. *)
Lemma tile_step tx ty out fl1 maximum :
  0 <= tx < tiles_x g -> 0 <= ty < tiles_y g -> inv (out, fl1, maximum) ->
  exists st', tile tx ty (out, fl1, maximum) = Done st' /\ inv st' /\
    (tx = 0 -> ty = 0 -> flowed st') /\ (flowed (out, fl1, maximum) -> flowed st') /\
    forall px py b, 0 <= px < W -> 0 <= py < H -> 0 <= b < out_bpp ->
      (writes_x tx px -> writes_y ty py -> good_x tx px -> good_y ty py ->
         pixel (fst (fst st')) px py b = pixel (fst whole) px py b) /\
      (~ (writes_x tx px /\ writes_y ty py) -> pixel (fst (fst st')) px py b = pixel out px py b).
Proof.
  intros Htx Hty [Hlen Hfl1].
  destruct (extent_bounds _ _ _ _ _ tx Hx Htx) as (Hx0 & Hw0 & Hxw & _).
  destruct (extent_bounds _ _ _ _ _ ty Hy Hty) as (Hy0 & Hh0 & Hyh & _).
  unfold process_tile. set (x := tx * tile_wd g) in *. set (y := ty * tile_ht g) in *.
  change (if x + g_width g >? W then W - x else g_width g) with (extent_x tx).
  change (if y + g_height g >? H then H - y else g_height g) with (extent_y ty).
  set (w := extent_x tx) in *. set (h := extent_y ty) in *.
  change ((w <=? 2 * g_overlap g) && (tx >? 0)) with (skips W (g_width g) (g_overlap g) (tile_wd g) tx).
  change ((h <=? 2 * g_overlap g) && (ty >? 0)) with (skips H (g_height g) (g_overlap g) (tile_ht g) ty).
  destruct (skips W _ _ _ tx) eqn:Esx; cbn [orb]; [|destruct (skips H _ _ _ ty) eqn:Esy].
  - exists (out, fl1, maximum). split; [done|]. split; [by split|]. split; [|split; [done|]].
    + intros ->. unfold skips in Esx. change (0 >? 0) with false in Esx. by rewrite andb_false_r in Esx.
    + intros px py b _ _ _. split; [by intros [? _]; congruence|done].
  - exists (out, fl1, maximum). split; [done|]. split; [by split|]. split; [|split; [done|]].
    + intros _ ->. unfold skips in Esy. change (0 >? 0) with false in Esy. by rewrite andb_false_r in Esy.
    + intros px py b _ _ _. split; [by intros _ [? _]; congruence|done].
  - destruct (tile_input x y w h) as (part & -> & Hpart); [lia..|]. cbn [c_bind].
    destruct (proj2 Hparts x y w h part (set_maximum (fl_maximum fl) fl1)) as (res & -> & Hres & Hpix);
      [lia..|by apply Hax|by apply Hay|destruct Hfl1 as [->| ->]; [left; apply set_own_maximum|by right]|done|].
    set (left := if tx >? 0 then g_overlap g else 0). set (top := if ty >? 0 then g_overlap g else 0).
    assert (0 <= left < w) as Hleft.
    { destruct Hx as (_ & Hog & _). unfold left. unfold skips in Esx. fold w in Esx. destruct (tx >? 0); [|lia].
      rewrite andb_true_r in Esx. apply Z.leb_gt in Esx. lia. }
    assert (0 <= top < h) as Htop.
    { destruct Hy as (_ & Hog & _). unfold top. unfold skips in Esy. fold h in Esy. destruct (ty >? 0); [|lia].
      rewrite andb_true_r in Esy. apply Z.leb_gt in Esy. lia. }
    destruct (tile_output x y w h left top res out) as (out' & -> & Hlen' & Hpx); [lia..|]. cbn [c_bind].
    eexists. split; [reflexivity|]. split; [split; [lia|by right]|]. split; [done|]. split; [done|].
    intros px py b Hpxr Hpyr Hb. destruct (Hpx px py b Hpxr Hpyr Hb) as [Hpx1 Hpx2]. cbn [fst]. split.
    + intros [_ Hwx] [_ Hwy] Hgx Hgy. change (margin (g_overlap g) tx) with left in Hwx. change (margin (g_overlap g) ty) with top in Hwy.
      fold x w in Hwx. fold y h in Hwy. rewrite Hpx1 by lia. unfold good in Hgx, Hgy. fold x w in Hgx. fold y h in Hgy.
      destruct Hgx as [Hgx1 Hgx2], Hgy as [Hgy1 Hgy2].
      rewrite Hpix by lia. unfold pixel. f_equal. ring.
    + intros Hnot. apply Hpx2. intros [Hxr Hyr]. apply Hnot. split; (split; [done|]).
      * change (margin (g_overlap g) tx) with left. fold x w. lia.
      * change (margin (g_overlap g) ty) with top. fold y h. lia.
Qed.

Definition out_of (st : tiling_state) : list ascii := fst (fst st).

(** The tiles of a column. *)
Abbreviation column tx := (for_tiles (tile tx) 0 (Z.to_nat (tiles_y g))).

Lemma column_step tx st :
  0 <= tx < tiles_x g -> inv st ->
  exists st', column tx st = Done st' /\ inv st' /\ (tx = 0 -> flowed st') /\ (flowed st -> flowed st') /\
    forall px py b, 0 <= px < W -> 0 <= py < H -> 0 <= b < out_bpp ->
      (writes_x tx px -> good_x tx px -> pixel (out_of st') px py b = pixel (fst whole) px py b) /\
      (~ writes_x tx px -> pixel (out_of st') px py b = pixel (out_of st) px py b).
Proof.
  intros Htx Hinv.
  assert (0 < tiles_y g) as Hny by (destruct (axis_owner _ _ _ _ _ 0 Hy) as (k & Hk & _); [destruct Hy; lia|lia]).
  destruct (for_tiles_spec (fun s => inv s /\ (flowed st -> flowed s)) (fun s => tx = 0 -> flowed s) (tile tx) 0
              (Z.to_nat (tiles_y g)) 0 st) as (st' & Hst' & [Hi Hf] & Hq).
  - intros i s Hr [Hs1 Hs2]. destruct s as [[out fl1] mx].
    destruct (tile_step tx i out fl1 mx Htx ltac:(lia) Hs1) as (s' & Hs' & Hi' & Hf0 & Hfk & _).
    exists s'. split; [done|]. split; [split; [done|auto]|]. split; [auto|]. auto.
  - by split.
  - lia.
  - lia.
  - exists st'. split; [done|]. split; [done|]. split; [done|]. split; [done|]. intros px py b Hpx Hpy Hb. split.
    + intros Hwx Hgx. destruct (axis_owner _ _ _ _ _ py Hy Hpy) as (ko & Hko & Hwo & Hgo & Hlast).
      destruct (for_tiles_spec inv (fun s => pixel (out_of s) px py b = pixel (fst whole) px py b) (tile tx) ko
              (Z.to_nat (tiles_y g)) 0 st) as (st2 & Hst2 & _ & Hq2); [|done|lia|lia|].
      * intros i s Hr Hs. destruct s as [[out fl1] mx].
        destruct (tile_step tx i out fl1 mx Htx ltac:(lia) Hs) as (s' & Hs' & Hi' & _ & _ & Hpix). exists s'.
        destruct (Hpix px py b Hpx Hpy Hb) as [Hp1 Hp2]. split_and!; [done|done| |].
        -- intros ->. by apply Hp1.
        -- intros Hlt Hq0. etransitivity; [apply Hp2|exact Hq0]. intros [_ Hwi]. by apply (Hlast i); [lia|].
      * rewrite Hst' in Hst2. by injection Hst2 as <-.
    + intros Hnw.
      destruct (for_tiles_spec (fun s => inv s /\ pixel (out_of s) px py b = pixel (out_of st) px py b) (fun _ => True) (tile tx) 0
              (Z.to_nat (tiles_y g)) 0 st) as (st2 & Hst2 & [_ Hq2] & _); [|by split|done|lia|].
      * intros i s Hr [Hs Hp]. destruct s as [[out fl1] mx].
        destruct (tile_step tx i out fl1 mx Htx ltac:(lia) Hs) as (s' & Hs' & Hi' & _ & _ & Hpix). exists s'.
        destruct (Hpix px py b Hpx Hpy Hb) as [_ Hp2]. split_and!; try done. etransitivity; [apply Hp2|exact Hp].
        by intros [? _].
      * rewrite Hst' in Hst2. by injection Hst2 as <-.
Qed.

(** A buffer is its pixels. *)
Lemma pixels_eq out out' :
  Z.of_nat (length out) = W * H * out_bpp -> Z.of_nat (length out') = W * H * out_bpp -> 0 < W ->
  (forall px py b, 0 <= px < W -> 0 <= py < H -> 0 <= b < out_bpp -> pixel out px py b = pixel out' px py b) -> out = out'.
Proof.
  intros Hl Hl' Hw Hp. apply list_eq_same_length with (length out'); [done|lia|].
  intros i c c' Hi Hc Hc'. set (z := Z.of_nat i). set (q := z / out_bpp).
  pose proof (Z.div_mod z out_bpp ltac:(lia)) as Hz. pose proof (Z.mod_pos_bound z out_bpp Hout) as Hb.
  pose proof (Z.div_mod q W ltac:(lia)) as Hq. pose proof (Z.mod_pos_bound q W Hw) as Hx0.
  assert (0 <= q) as Hq0 by (apply Z.div_pos; lia). assert (0 <= q / W) as Hy0 by (apply Z.div_pos; lia).
  assert (q < W * H) as Hqlt by (apply Z.div_lt_upper_bound; lia).
  assert (q / W < H) as Hy1 by (apply Z.div_lt_upper_bound; lia).
  specialize (Hp (q mod W) (q / W) (z mod out_bpp) ltac:(lia) ltac:(lia) ltac:(lia)). unfold pixel, byte_at in Hp.
  fold q in Hz.
  replace ((q / W * W + q mod W) * out_bpp + z mod out_bpp) with z in Hp by lia.
  unfold z in Hp. rewrite Nat2Z.id, Hc, Hc' in Hp. by injection Hp.
Qed.

(** All tiles: every pixel is that of the whole image. *)
Lemma tiles_done out :
  Z.of_nat (length out) = W * H * out_bpp ->
  exists out' fl' maximum, for_tiles (fun tx => column tx) 0 (Z.to_nat (tiles_x g))
      (out, fl, [float_of_int 1; S754_zero false; S754_zero false; S754_zero false]) = Done (out', fl', maximum) /\
    out' = fst whole /\ set_maximum maximum fl' = snd whole.
Proof.
  intros Hlen. set (st := (out, fl, _)). assert (inv st) as Hinv by (split; [done|by left]).
  assert (0 < tiles_x g) as Hnx by (destruct (axis_owner _ _ _ _ _ 0 Hx) as (k & Hk & _); [destruct Hx; lia|lia]).
  destruct (for_tiles_spec inv flowed (fun tx => column tx) 0 (Z.to_nat (tiles_x g)) 0 st) as (st' & Hst' & Hi & Hf); [|done|lia|lia|].
  { intros i s Hr Hs. destruct (column_step i s ltac:(lia) Hs) as (s' & Hs' & Hi' & Hf0 & Hfk & _). exists s'. by split_and!. }
  destruct st' as [[out' fl'] maximum]. exists out', fl', maximum. split; [done|]. destruct Hi as [Hlen' _], Hf as [-> ->].
  split; [|by apply set_own_maximum]. apply pixels_eq; [done|apply Hparts|destruct Hx; lia|]. intros px py b Hpx Hpy Hb.
  destruct (axis_owner _ _ _ _ _ px Hx Hpx) as (ko & Hko & Hwo & Hgo & Hlast).
  destruct (for_tiles_spec inv (fun s => pixel (out_of s) px py b = pixel (fst whole) px py b) (fun tx => column tx) ko
              (Z.to_nat (tiles_x g)) 0 st) as (st2 & Hst2 & _ & Hq2); [|done|lia|lia|].
  - intros i s Hr Hs. destruct (column_step i s ltac:(lia) Hs) as (s' & Hs' & Hi' & _ & _ & Hpix). exists s'.
    destruct (Hpix px py b Hpx Hpy Hb) as [Hp1 Hp2]. split_and!; [done|done| |].
    + intros ->. by apply Hp1.
    + intros Hlt Hq0. etransitivity; [apply Hp2|exact Hq0]. apply (Hlast i). lia.
  - rewrite Hst' in Hst2. by injection Hst2 as <-.
Qed.

End run.

(** A module that computes every byte from the byte in its place computes the parts of
    an image apart, with no margin. *)
Lemma bytewise_parts {D} {api : iop_api D} f op data dsc_in ivoid roi bpp fl radius ax ay :
  (forall px r1 r2 fl', process op data dsc_in px r1 r2 fl' = (map f px, fl')) -> 0 < bpp ->
  Z.of_nat (length ivoid) = roi_width roi * roi_height roi * bpp ->
  computes_parts op data dsc_in ivoid roi bpp bpp fl radius ax ay.
Proof.
  intros Hf Hb Hl. unfold computes_parts, whole. rewrite Hf. cbn [fst snd]. split; [by rewrite length_map|].
  intros x y w h part fl' Hx Hy Hw Hh Hxw Hyh _ _ Hfl [Hpl Hpb]. rewrite Hf. exists (map f part). split.
  { destruct Hfl as [->| ->]; [done|]. by rewrite set_own_maximum. }
  split; [by rewrite length_map|]. intros i j b Hi Hj Hbb _ _ _ _. unfold byte_at in *.
  assert (0 <= i * bpp /\ (i + 1) * bpp <= w * bpp) as [Hi0 Hi1]
    by (split; [apply Z.mul_nonneg_nonneg|apply Z.mul_le_mono_nonneg_r]; lia).
  specialize (Hpb j (i * bpp + b) Hj ltac:(lia)).
  rewrite !(list_lookup_fmap f).
  replace ((j * w + i) * bpp + b) with (j * (w * bpp) + (i * bpp + b)) by ring. rewrite Hpb. do 3 f_equal. ring.
Qed.

(** When the tiles are not wider than two margins, every tile but those of the first
    column is left out, though nothing else writes their pixels. *)
Lemma narrow_tiles_skipped {D} {api : iop_api D} op data dsc_in ivoid roi roi' in_bpp out_bpp saved g tx ty st :
  g_width g <= 2 * g_overlap g -> 0 < tx -> roi_width roi - tx * tile_wd g <= 2 * g_overlap g \/ tx * tile_wd g + g_width g <= roi_width roi ->
  process_tile op data dsc_in ivoid roi roi' in_bpp out_bpp saved g tx ty st = Done st.
Proof.
  intros Hg Htx Hr. destruct st as [[out fl] mx]. unfold process_tile.
  assert (((if tx * tile_wd g + g_width g >? roi_width roi then roi_width roi - tx * tile_wd g else g_width g) <=? 2 * g_overlap g) = true) as ->
    by (destruct (Z.gtb_spec (tx * tile_wd g + g_width g) (roi_width roi)); lia).
  destruct (Z.gtb_spec tx 0); [done|lia].
Qed.

(** ** Properties *)

Section properties.
Context {D : Type} {api : iop_api D}.
Context (tiling_callback : string -> D -> dt_iop_roi_t -> dt_iop_roi_t -> dt_develop_tiling_t).
Context (host_memory_limit singlebuffer_limit : spec_float) (maximum_number_tiles : Z) (alloc : Z -> bool).

(** C14: a pixel-to-pixel module that is run tile by tile gives the image and the flow that
    it gives in one run, if the parts of an image can be computed apart but for margins
    of the overlap it asks for: whatever tile size the memory limits lead to, and
    whatever the output buffer held before. The tiles must be wider than two margins. *)
Theorem tiling_is_process op module data dsc_in ivoid ovoid roi in_bpp out_bpp fl g
    (t := tiling_callback op data roi roi)
    (Hbpp : dt_iop_buffer_dsc_to_bpp (output_format op module data (f_dsc fl) no_dsc) = Done out_bpp)
    (Hin : 0 < in_bpp) (Hout : 0 < out_bpp)
    (Hw : 0 < roi_width roi < 2 ^ 24) (Hh : 0 < roi_height roi < 2 ^ 24)
    (Hpitch : roi_width roi * in_bpp < 2 ^ 31) (Hopitch : roi_width roi * out_bpp < 2 ^ 31)
    (Hivoid : Z.of_nat (length ivoid) = roi_width roi * roi_height roi * in_bpp)
    (Hovoid : Z.of_nat (length ovoid) = roi_width roi * roi_height roi * out_bpp)
    (Ht : wf_tiling t)
    (Hg : ptp_grid host_memory_limit singlebuffer_limit maximum_number_tiles alloc t roi roi in_bpp out_bpp = Done g)
    (Hwide : forall g', g = Some g' -> wide g' roi)
    (Hparts : computes_parts op data dsc_in ivoid roi in_bpp out_bpp fl (overlap t) (xalign t) (yalign t)) :
  _default_process_tiling_ptp tiling_callback host_memory_limit singlebuffer_limit maximum_number_tiles alloc
    op module data dsc_in ivoid ovoid roi roi in_bpp fl = Done (process op data dsc_in ivoid roi roi fl).
Proof.
  unfold _default_process_tiling_ptp. rewrite Hbpp. cbn [c_bind]. unfold is_s32.
  assert (0 <= roi_width roi * in_bpp /\ 0 <= roi_width roi * out_bpp) as [Hp1 Hp2] by (split; apply Z.mul_nonneg_nonneg; lia).
  assert (negb ((- 2 ^ 31 <=? roi_width roi * in_bpp) && (roi_width roi * in_bpp <? 2 ^ 31)) ||
          negb ((- 2 ^ 31 <=? roi_width roi * out_bpp) && (roi_width roi * out_bpp <? 2 ^ 31)) = false) as -> by lia.
  fold t. rewrite Hg. cbn [c_bind]. destruct g as [g|].
  - destruct (grid_axes _ _ _ _ _ _ _ _ _ g Ht Hw Hh Hin Hout Hg (Hwide g eq_refl)) as (Hov & Hx & Hy & Hax & Hay).
    destruct (tiles_done op data dsc_in ivoid roi in_bpp out_bpp fl g (overlap t) (xalign t) (yalign t)) with (out := ovoid)
      as (out' & fl' & mx & Hd & -> & Hm); [done..|]. rewrite Hd. cbn [c_bind]. rewrite Hm. unfold whole.
    by destruct (process _ _ _ _ _ _ _).
  - destruct Hparts as [Hlen _]. unfold whole in Hlen. destruct (process _ _ _ _ _ _ _) as [res fl'] eqn:E. cbn [fst] in Hlen.
    destruct (Nat.leb_spec (length res) (length ovoid)); [|lia]. do 2 f_equal. unfold put_bytes. cbn [take app].
    rewrite drop_ge by lia. by rewrite app_nil_r.
Qed.

End properties.

(** ** Examples *)

Module Example.

Definition bump (c : ascii) : ascii := ascii_of_nat (S (nat_of_ascii c)).
Definition dsc : dt_iop_buffer_dsc_t := Buffer_dsc 1 TYPE_UINT16 [] 0 [].

(** A module that adds one to every byte. *)
#[export] Instance api : iop_api unit := {|
  init_pipe _ := tt;
  commit_params _ _ d t := (d, true, t);
  modify_roi_out _ _ roi := roi;
  modify_roi_in _ _ roi := roi;
  output_format _ _ _ _ _ := dsc;
  default_colors _ := true;
  input_colorspace _ _ := 0;
  output_colorspace _ _ := 0;
  blend_colorspace _ _ := 0;
  transform_colorspace _ px _ to := (px, to);
  process _ _ _ px _ _ fl := (map bump px, fl);
  process_tiling _ _ _ px _ _ fl := (map bump px, fl);
  fits_host_memory _ _ _ _ _ := true;
  blend_process _ _ _ out _ _ fl := (out, fl);
  clip_and_zoom px _ _ := px;
|}.

(** Three buffers, [2 ^ e] bytes of scratch memory for every byte. *)
Definition needs (e : Z) (ov align : Z) : string -> unit -> dt_iop_roi_t -> dt_iop_roi_t -> dt_develop_tiling_t :=
  fun _ _ _ _ => Tiling (float_of_int 3) (float_of_int (2 ^ e)) 0 ov align align.

Abbreviation zero := (S754_zero false).
Definition image (w h : Z) : list ascii := map (fun k => ascii_of_nat k) (seq 0 (Z.to_nat (w * h * 2))).
Definition square : dt_iop_roi_t := Roi 0 0 16 16 (float_of_int 1).
Definition strip : dt_iop_roi_t := Roi 0 0 12 2 (float_of_int 1).
Definition start : flow := Flow dsc 0 0.

(** Sixteen tiles of 8 x 8 pixels that overlap by 4. *)
Lemma tiling_is_process_witness :
  let ivoid := image 16 16 in
  let ovoid := replicate 512 "X"%char in
  _default_process_tiling_ptp (needs 14 1 2) zero zero 10000 (fun _ => true) "exposure" 0 tt dsc ivoid ovoid square square 2 start =
    Done (process "exposure" tt dsc ivoid square square start).
Proof.
  intros ivoid ovoid.
  assert (ptp_grid zero zero 10000 (fun _ => true) (needs 14 1 2 "" tt square square) square square 2 2 =
          Done (Some (Grid 8 8 2 4 4 4 4))) as Hg by (vm_compute; reflexivity).
  apply (tiling_is_process (needs 14 1 2) zero zero 10000 (fun _ => true) "exposure" 0 tt dsc ivoid ovoid square 2 2 start
           (Some (Grid 8 8 2 4 4 4 4)));
    [reflexivity|lia|lia|split; reflexivity|split; reflexivity|reflexivity|reflexivity|reflexivity|reflexivity| |exact Hg| |].
  - split; cbn; try lia; vm_compute; done.
  - intros g' [= <-]. split; right; reflexivity.
  - apply (bytewise_parts bump); [reflexivity|lia|reflexivity].
Defined.

(** Two rows of twelve pixels and margins of three: only the first two columns are
    written. *)
Lemma narrow_tiles_lose_pixels :
  exists out, _default_process_tiling_ptp (needs 17 3 1) zero zero 10000 (fun _ => true) "exposure" 0 tt dsc (image 12 2)
      (replicate 48 "X"%char) strip strip 2 start = Done (out, start) /\
    count_occ Ascii.ascii_dec out "X"%char = 40%nat.
Proof. eexists. split; [vm_compute; reflexivity|vm_compute; reflexivity]. Qed.

End Example.
