(* ===== verification/Library.v ===== *)
(** The tables of the library database in which the attributes of images are kept:
    data.tags, main.tagged_images, main.color_labels, main.meta_data,
    main.selected_images and memory.darktable_tags, and the SQL that the C code runs on
    them.

    A table is the list of its rows. SQL leaves the order of the rows of a SELECT
    without ORDER BY open: it is the function [scan] of the class [RowOrder], of which
    only that it permutes rows is known. An INSERT that would break a unique index
    inserts none of its rows. A list of numbers in a statement ("1,2,3") is the list,
    and a NULL text is no statement. *)

From Stdlib Require Import Ascii String.
From S2P Require Import Prelude.
Local Open Scope Z_scope.

Class RowOrder := Row_order {
  scan : forall {A : Type}, list A -> list A;
  scan_Permutation : forall A (l : list A), scan l ≡ₚ l;
}.

(** A row of data.tags; NULL is [None]. *)
Record tag_row := Tag_row {
  t_id : Z;
  t_name : string;
  t_synonyms : option string;
  t_flags : option Z;
}.

(** A row of main.tagged_images, with the primary key (imgid, tagid). *)
Record tagged_row := Tagged {
  ti_imgid : Z;
  ti_tagid : Z;
  ti_position : Z;
}.

(** A row of main.meta_data. *)
Record meta_row := Meta {
  md_id : Z;
  md_key : Z;
  md_value : option string;
}.

Record library := Library {
  tags : list tag_row;
  tagged_images : list tagged_row;
  color_labels : list (Z * Z);     (* imgid, color: unique *)
  meta_data : list meta_row;
  selected_images : list Z;
  darktable_tags : list Z;         (* memory.darktable_tags *)
}.

Definition set_tags (v : list tag_row) (l : library) : library :=
  Library v (tagged_images l) (color_labels l) (meta_data l) (selected_images l) (darktable_tags l).
Definition set_tagged_images (v : list tagged_row) (l : library) : library :=
  Library (tags l) v (color_labels l) (meta_data l) (selected_images l) (darktable_tags l).
Definition set_color_labels (v : list (Z * Z)) (l : library) : library :=
  Library (tags l) (tagged_images l) v (meta_data l) (selected_images l) (darktable_tags l).
Definition set_meta_data (v : list meta_row) (l : library) : library :=
  Library (tags l) (tagged_images l) (color_labels l) v (selected_images l) (darktable_tags l).
Definition set_darktable_tags (v : list Z) (l : library) : library :=
  Library (tags l) (tagged_images l) (color_labels l) (meta_data l) (selected_images l) v.

(** INSERT of rows into a table whose [key] is unique. *)
Definition insert_unique {R K} `{EqDecision K} (key : R -> K) (rows table : list R) : list R :=
  if decide (NoDup (key <$> (table ++ rows))) then table ++ rows else table.

(** A NULL number is read as 0. *)
Definition column_int (v : option Z) : Z := default 0 v.

Definition ti_key (r : tagged_row) : Z * Z := (ti_imgid r, ti_tagid r).

(** ** Text *)

(** The text behind the last [c] ([g_strrstr] of a single character, plus one). *)
Fixpoint after_last (c : ascii) (s : string) : option string :=
  match s with
  | "" => None
  | String d s' =>
      match after_last c s' with
      | Some t => Some t
      | None => if Ascii.eqb d c then Some s' else None
      end
  end.

(** [atoi]: 0 when there is no number; one that does not fit is undefined. *)
Definition atoi (s : string) : c_result Z :=
  let* v := sscanf_int s in Done (default 0 v).

(** [g_strsplit] at a single character without a limit: nothing for the empty text. *)
Fixpoint split_on (c : ascii) (s : string) : list string :=
  match s with
  | "" => [""]
  | String d s' =>
      if Ascii.eqb d c then "" :: split_on c s'
      else match split_on c s' with t :: ts => String d t :: ts | [] => [String d ""] end
  end.
Definition g_strsplit (c : ascii) (s : string) : list string := if String.eqb s "" then [] else split_on c s.

Definition str_rev (s : string) : string := string_of_list_ascii (rev (list_ascii_of_string s)).

Fixpoint drop_while (p : ascii -> bool) (s : string) : string :=
  match s with
  | String c s' => if p c then drop_while p s' else s
  | "" => ""
  end.

(** [g_ascii_isspace]: without the vertical tab. *)
Definition g_ascii_isspace (c : ascii) : bool := is_space c && negb (Z_of_byte c =? 11).

(** Without the characters of [p] at the end, and on both sides. *)
Definition strip_end (p : ascii -> bool) (s : string) : string := str_rev (drop_while p (str_rev s)).
Definition strip (p : ascii -> bool) (s : string) : string := drop_while p (strip_end p s).

(** ** Lemmas *)

Lemma column_int_Some z : column_int (Some z) = z.
Proof. done. Qed.

Lemma insert_unique_fresh {R K} `{EqDecision K} (key : R -> K) rows table :
  NoDup (key <$> (table ++ rows)) -> insert_unique key rows table = table ++ rows.
Proof. intros H. unfold insert_unique. by rewrite decide_True. Qed.

Lemma NoDup_fmap_filter {A B} (f : A -> B) (P : A -> Prop) `{!forall x, Decision (P x)} l :
  NoDup (f <$> l) -> NoDup (f <$> filter P l).
Proof. intros Hnd. eapply sublist_NoDup; [exact Hnd|]. apply fmap_sublist, sublist_filter. Qed.

Lemma NoDup_key {A B} (f : A -> B) (l : list A) a b : NoDup (f <$> l) -> a ∈ l -> b ∈ l -> f a = f b -> a = b.
Proof.
  intros Hnd [i Hi]%list_elem_of_lookup [j Hj]%list_elem_of_lookup He. assert (i = j) as ->; [|congruence].
  eapply NoDup_lookup; [exact Hnd|..]; rewrite list_lookup_fmap; [by rewrite Hi|]. by rewrite Hj, He.
Qed.

Section order.
Context `{RowOrder}.

Lemma elem_of_scan {A} (x : A) l : x ∈ scan l <-> x ∈ l.
Proof. by rewrite scan_Permutation. Qed.

Lemma NoDup_scan {A} (l : list A) : NoDup (scan l) <-> NoDup l.
Proof. by rewrite scan_Permutation. Qed.

Lemma length_scan {A} (l : list A) : length (scan l) = length l.
Proof. by rewrite scan_Permutation. Qed.

End order.
