(* ===== verification/Attributes.v ===== *)
(** What changing the tags, the metadata and the colour labels of images has in common:
    common/tags.c, common/metadata.c and common/colorlabels.c each record what every
    image had before and has after, apply the difference to the database, and leave the
    record in the undo lists with a callback that applies the difference in the other
    direction.

    [Attribute] is what such a file provides, [AttributeSpec] what it promises; the loops
    and the use of the undo lists are here once, and [attribute_undo_redo] is proved
    against the interface. The state that the undo callbacks work on is a result of C,
    since applying a difference can be undefined. *)

From S2P Require Import Prelude Undo.
Local Open Scope Z_scope.

(** ** A change that is one recorded item in a group of its own *)

Section recorded.
Context {World D : Type} (cb : undo_callback (World := World) (U := unit) (D := D)).

(** The item that a change leaves in the undo lists. *)
Definition recorded_item (ty : Z) (records : D) (t : Z) : dt_undo_item_t World unit D :=
  Item None ty (Some records) t false (Some cb) true.

(** The group of a change on top of the undo list. *)
Definition changed_lists (ty t1 t2 t3 : Z) (records : D) (u : dt_undo_t World unit D) : dt_undo_t World unit D :=
  Undo (group_item ty t3 :: recorded_item ty records t2 :: group_item ty t1 :: undo_list u) [] DT_UNDO_NONE 0 false false.

Lemma group_recorded ty t1 t2 t3 records (u : dt_undo_t World unit D) :
  ty <> DT_UNDO_NONE -> group u = DT_UNDO_NONE -> locked u = false -> disable_next u = false ->
  exists freed,
    dt_undo_end_group (fst (dt_undo_record (fst (dt_undo_start_group u ty t1)) None ty (Some records) (Some cb) true t2)) t3 =
      Done (changed_lists ty t1 t2 t3 records u, freed).
Proof. destruct u as [ul rl g indent lk dn]. cbn. intros Hty -> -> ->. by eexists. Qed.

(** Undo or redo of a group with that item. *)
Lemma undo_one_item (u : dt_undo_t World unit D) filter action ty t records g1 g2 rest w w' imgs :
  is_group g1 = true -> is_group g2 = true -> Z.land (type g1) filter <> 0 ->
  match action with DT_ACTION_UNDO => undo_list u | _ => redo_list u end = g1 :: recorded_item ty records t :: g2 :: rest ->
  (forall disable, cb None ty (Some records) action w disable [] = (w', disable, imgs)) ->
  let to := g2 :: recorded_item ty records t :: g1 :: match action with DT_ACTION_UNDO => redo_list u | _ => undo_list u end in
  _undo_do_undo_redo u filter action w =
    Done (match action with
          | DT_ACTION_UNDO => Undo rest to (group u) (group_indent u) false (disable_next u)
          | _ => Undo to rest (group u) (group_indent u) false (disable_next u)
          end, w', remove_duplicates (g_list_sort _images_list_cmp imgs)).
Proof.
  intros Hg1 Hg2 Hf Hl Hcb to. unfold _undo_do_undo_redo. rewrite Hl. cbn [move_first].
  apply Z.eqb_neq in Hf. rewrite Hf, Hg1. unfold recorded_item, to.
  destruct action; cbn [negb move_group is_group]; unfold call_undo; cbn [undo];
    cbn [user_data type Undo.data add_to w_world w_disable w_imgs w_to]; rewrite Hcb;
    cbn [c_bind add_to w_to w_world w_disable w_imgs move_group]; by rewrite Hg2.
Qed.

(** A recorded change is undone and redone by its callback. *)
Lemma undo_redo_recorded (u : dt_undo_t World unit D) filter ty t1 t2 t3 records w1 w2 w3 imgs imgs' :
  Z.land ty filter <> 0 ->
  (forall disable, cb None ty (Some records) DT_ACTION_UNDO w1 disable [] = (w2, disable, imgs)) ->
  (forall disable, cb None ty (Some records) DT_ACTION_REDO w2 disable [] = (w3, disable, imgs')) ->
  exists u2, dt_undo_do_undo (changed_lists ty t1 t2 t3 records u) filter w1 =
      Done (u2, w2, remove_duplicates (g_list_sort _images_list_cmp imgs)) /\ undo_list u2 = undo_list u /\
    dt_undo_do_redo u2 filter w2 =
      Done (changed_lists ty t1 t2 t3 records u, w3, remove_duplicates (g_list_sort _images_list_cmp imgs')).
Proof.
  intros Hf Hu Hr. eexists. split; [|split].
  - apply (undo_one_item _ _ DT_ACTION_UNDO ty t2 records (group_item ty t3) (group_item ty t1) (undo_list u) w1 w2 imgs);
      [reflexivity|reflexivity|exact Hf|reflexivity|exact Hu].
  - done.
  - unfold dt_undo_do_redo. etransitivity.
    + apply (undo_one_item _ _ DT_ACTION_REDO ty t2 records (group_item ty t1) (group_item ty t3) [] w2 w3 imgs');
        [reflexivity|reflexivity|exact Hf|reflexivity|exact Hr].
    + reflexivity.
Qed.

(** The images of a change are synchronised, each once. *)
Lemma synchronised_elem imgs i : Forall (fun i => 0 < i < 2 ^ 31) imgs ->
  i ∈ remove_duplicates (g_list_sort _images_list_cmp (rev imgs)) <-> i ∈ imgs.
Proof.
  intros Hpos. assert (Forall (fun i => 0 <= i < 2 ^ 31) (rev imgs)) as Hr.
  { apply Forall_forall. intros j Hj%list_elem_of_In. apply in_rev, list_elem_of_In in Hj.
    rewrite Forall_forall in Hpos. specialize (Hpos j Hj). cbn in Hpos. lia. }
  rewrite (proj2 (synchronised_images_spec _ Hr)), !list_elem_of_In. symmetry. apply in_rev.
Qed.

End recorded.

(** ** The interface *)

(** [get_before]: the list that is recorded; [execute imgid before after] applies the
    difference (_pop_undo_execute). *)
Class Attribute (S V : Type) := Attr {
  get_before : Z -> S -> V * S;
  execute : Z -> V -> V -> S -> c_result S;
}.

Section attribute.
Context {S V : Type} `{!Attribute S V}.

Abbreviation data_t := (list (Z * V * V)).
Abbreviation undo_t := (dt_undo_t (c_result S) unit data_t).

(** The loop over the images. [change imgid before] computes the list after, and whether
    the result of the function is TRUE. *)
Fixpoint attr_execute (change : Z -> V -> S -> c_result (V * bool * S)) (imgs : list Z) (s : S) : c_result (S * bool * data_t) :=
  match imgs with
  | [] => Done (s, false, [])
  | imgid :: imgs =>
      let '(before, s) := get_before imgid s in
      let* (after, res, s) := change imgid before s in
      let* s := execute imgid before after s in
      let* (s, res', undo) := attr_execute change imgs s in
      Done (s, res || res', (imgid, before, after) :: undo)
  end.

(** The loop of _pop_undo; the images are prepended to those to be synchronised. *)
Fixpoint attr_pop_undo (action : dt_undo_action_t) (data : data_t) (s : S) (imgs : list Z) : c_result (S * list Z) :=
  match data with
  | [] => Done (s, imgs)
  | (imgid, before, after) :: data =>
      let* s := match action with
                | DT_ACTION_UNDO => execute imgid after before s
                | DT_ACTION_REDO => execute imgid before after s
                end in
      attr_pop_undo action data s (imgid :: imgs)
  end.

Definition attr_callback (ty : Z) : undo_callback (World := c_result S) (U := unit) (D := data_t) :=
  fun _ type data action world disable imgs =>
    if type =? ty then
      match (let* s := world in attr_pop_undo action (default [] data) s imgs) with
      | Done (s, imgs) => (Done s, disable, imgs)
      | Undefined => (Undefined, disable, imgs)
      end
    else (world, disable, imgs).

(** A change with its group in the undo lists. [clock]: the times of its three calls. *)
Definition attr_change (ty : Z) (undo_on : bool) (clock : Z * Z * Z) (change : Z -> V -> S -> c_result (V * bool * S))
    (imgs : list Z) (u : undo_t) (s : S) : c_result (undo_t * S * bool) :=
  let '(t1, t2, t3) := clock in
  let u := if undo_on then fst (dt_undo_start_group u ty t1) else u in
  let* (s, res, undo) := attr_execute change imgs s in
  if undo_on then
    let u := fst (dt_undo_record u None ty (Some undo) (Some (attr_callback ty)) true t2) in
    let* (u, _) := dt_undo_end_group u t3 in
    Done (u, s, res)
  else Done (u, s, res).

End attribute.

(** ** The promise *)

(** [view s i]: what image [i] has; [repr v]: the meaning of a recorded list; [ok s v]:
    lists that may be recorded. *)
Class AttributeSpec (S V W : Type) `{!Attribute S V} (view : S -> Z -> W) (repr : V -> W) (inv : S -> Prop)
    (ok : S -> V -> Prop) := {
  before_spec i s : inv s -> 0 < i ->
    exists v s', get_before i s = (v, s') /\ inv s' /\ ok s' v /\ repr v = view s i /\
      (forall j, view s' j = view s j) /\ (forall w, ok s w -> ok s' w);
  execute_spec i b a s : inv s -> 0 < i -> ok s b -> ok s a -> repr b = view s i ->
    exists s', execute i b a s = Done s' /\ inv s' /\ view s' i = repr a /\
      (forall j, j <> i -> view s' j = view s j) /\ (forall w, ok s w -> ok s' w);
}.

Section spec.
Context {S V W : Type} `{!Attribute S V} {view : S -> Z -> W} {repr : V -> W} {inv : S -> Prop} {ok : S -> V -> Prop}.
Context `{!AttributeSpec S V W view repr inv ok}.

Abbreviation data_t := (list (Z * V * V)).
Abbreviation undo_t := (dt_undo_t (c_result S) unit data_t).

(** A change that records an admissible list with the meaning [F]. *)
Definition good_change (F : Z -> W -> W) (change : Z -> V -> S -> c_result (V * bool * S)) : Prop :=
  forall i v s, inv s -> 0 < i -> ok s v -> repr v = view s i ->
    exists a res s', change i v s = Done (a, res, s') /\ inv s' /\ ok s' a /\ repr a = F i (repr v) /\
      (forall j, view s' j = view s j) /\ (forall w, ok s w -> ok s' w).

Definition img_of (r : Z * V * V) : Z := r.1.1.
Definition before_of (r : Z * V * V) : V := r.1.2.
Definition after_of (r : Z * V * V) : V := r.2.

(** The records of a change fit its states before and after. *)
Definition recorded (data : data_t) (s s' : S) : Prop :=
  Forall (fun r => 0 < img_of r /\ ok s' (before_of r) /\ ok s' (after_of r) /\
                   repr (before_of r) = view s (img_of r) /\ repr (after_of r) = view s' (img_of r)) data /\
  forall i, i ∉ (img_of <$> data) -> view s' i = view s i.

Lemma execute_changes F change imgs s :
  good_change F change -> inv s -> NoDup imgs -> Forall (fun i => 0 < i) imgs ->
  exists s' res data, attr_execute change imgs s = Done (s', res, data) /\ inv s' /\
    img_of <$> data = imgs /\ recorded data s s' /\ (forall i, i ∈ imgs -> view s' i = F i (view s i)) /\
    (forall w, ok s w -> ok s' w).
Proof.
  intros Hc. revert s. induction imgs as [|i imgs IH]; intros s Hs Hnd Hpos; cbn [attr_execute].
  { exists s, false, []. split_and!; [done|done|done|by split|set_solver|done]. }
  inversion_clear Hnd as [|? ? Hni Hnd']. inversion_clear Hpos as [|? ? Hi Hpos'].
  destruct (before_spec i s Hs Hi) as (b & s1 & -> & Hs1 & Hb & Hrb & Hv1 & Hok1).
  destruct (Hc i b s1 Hs1 Hi Hb) as (a & res & s2 & -> & Hs2 & Ha & Hra & Hv2 & Hok2); [by rewrite Hv1|]. cbn [c_bind].
  destruct (execute_spec i b a s2 Hs2 Hi) as (s3 & -> & Hs3 & Hi3 & Hv3 & Hok3); [auto|done|by rewrite Hrb, Hv2, Hv1|].
  cbn [c_bind]. destruct (IH s3 Hs3 Hnd' Hpos') as (s' & res' & data & -> & Hs' & Himg & [Hall Hrest] & HF & Hok).
  cbn [c_bind]. exists s', (res || res'), ((i, b, a) :: data).
  assert (forall j, j <> i -> view s3 j = view s j) as Hv by (intros j Hj; by rewrite Hv3, Hv2, Hv1).
  assert (view s' i = repr a) as Hvi by (rewrite Hrest; [done|by rewrite Himg]).
  split_and!; [done|done|cbn; by rewrite Himg| | |auto].
  - split.
    + constructor; [cbn; split_and!; auto|]. apply Forall_forall. intros r Hr.
      rewrite Forall_forall in Hall. destruct (Hall r Hr) as (? & ? & ? & Hr1 & ?). split_and!; [done..| |done].
      rewrite Hr1. apply Hv. intros <-. apply Hni. rewrite <- Himg. by apply list_elem_of_fmap_2.
    + intros j Hj. cbn in Hj. apply not_elem_of_cons in Hj as [Hji Hj]. rewrite Hrest by done. by apply Hv.
  - intros j Hj. apply elem_of_cons in Hj as [->|Hj]; [by rewrite Hvi, Hra, Hrb|].
    rewrite HF by done. f_equal. apply Hv. by intros ->.
Qed.

(** Applying the records in one direction. *)
Lemma pop_undo_applies action data s imgs :
  inv s -> NoDup (img_of <$> data) ->
  Forall (fun r => 0 < img_of r /\ ok s (before_of r) /\ ok s (after_of r) /\
            repr (match action with DT_ACTION_UNDO => after_of r | _ => before_of r end) = view s (img_of r)) data ->
  exists s', attr_pop_undo action data s imgs = Done (s', rev (img_of <$> data) ++ imgs) /\ inv s' /\
    Forall (fun r => view s' (img_of r) = repr (match action with DT_ACTION_UNDO => before_of r | _ => after_of r end)) data /\
    (forall i, i ∉ (img_of <$> data) -> view s' i = view s i) /\ (forall w, ok s w -> ok s' w).
Proof.
  revert s imgs. induction data as [|[[i b] a] data IH]; intros s imgs Hs Hnd Hall; cbn [attr_pop_undo].
  { exists s. split_and!; [done|done|by constructor|done|done]. }
  cbn [fmap list_fmap] in Hnd. inversion_clear Hnd as [|? ? Hni Hnd']. inversion_clear Hall as [|? ? H1 Hall'].
  destruct H1 as (Hi & Hb & Ha & Hr). cbn in Hi, Hb, Ha, Hr, Hni.
  assert (exists s1, match action with DT_ACTION_UNDO => execute i a b s | _ => execute i b a s end = Done s1 /\ inv s1 /\
            view s1 i = repr (match action with DT_ACTION_UNDO => b | _ => a end) /\
            (forall j, j <> i -> view s1 j = view s j) /\ (forall w, ok s w -> ok s1 w)) as (s1 & -> & Hs1 & Hv1 & Hv & Hok).
  { destruct action; [destruct (execute_spec i a b s Hs Hi Ha Hb Hr) as (s1 & ?)|destruct (execute_spec i b a s Hs Hi Hb Ha Hr) as (s1 & ?)];
      by exists s1. }
  cbn [c_bind]. destruct (IH s1 (i :: imgs) Hs1 Hnd') as (s' & -> & Hs' & HF & Hrest & Hok').
  { apply Forall_forall. intros r Hin. rewrite Forall_forall in Hall'. destruct (Hall' r Hin) as (? & ? & ? & Hrr).
    split_and!; [done|by apply Hok..|]. rewrite Hrr. symmetry. apply Hv. intros <-. apply Hni. by apply list_elem_of_fmap_2. }
  exists s'. split_and!; [|done| | |auto].
  - do 2 f_equal. cbn. by rewrite <- app_assoc.
  - constructor; [|done]. cbn. rewrite Hrest; [|done]. by rewrite Hv1; destruct action.
  - intros j Hj. cbn in Hj. apply not_elem_of_cons in Hj as [Hji Hj]. rewrite Hrest by done. by apply Hv.
Qed.

(** The callback of a change on its own record. *)
Lemma callback_applies ty action records s s' imgs disable :
  attr_pop_undo action records s [] = Done (s', imgs) ->
  attr_callback ty None ty (Some records) action (Done s) disable [] = (Done s', disable, imgs).
Proof. intros Hp. unfold attr_callback. rewrite Z.eqb_refl. cbn [c_bind default from_option]. unfold id. by rewrite Hp. Qed.

(** What undo and redo of a recorded change do. *)
Lemma attribute_undo_redo F change ty clock imgs u s filter :
  good_change F change -> inv s -> NoDup imgs -> Forall (fun i => 0 < i < 2 ^ 31) imgs ->
  ty <> DT_UNDO_NONE -> Z.land ty filter <> 0 ->
  group u = DT_UNDO_NONE -> locked u = false -> disable_next u = false ->
  exists u1 s1 res, attr_change ty true clock change imgs u s = Done (u1, s1, res) /\ inv s1 /\
    (forall i, i ∈ imgs -> view s1 i = F i (view s i)) /\ (forall i, i ∉ imgs -> view s1 i = view s i) /\
    exists u2 s2 synched, dt_undo_do_undo u1 filter (Done s1) = Done (u2, Done s2, synched) /\ inv s2 /\
      undo_list u2 = undo_list u /\ (forall i, view s2 i = view s i) /\ (forall i, i ∈ synched <-> i ∈ imgs) /\
      exists s3 synched', dt_undo_do_redo u2 filter (Done s2) = Done (u1, Done s3, synched') /\ inv s3 /\
        (forall i, view s3 i = view s1 i).
Proof.
  intros Hc Hs Hnd Hpos Hty Hf Hgr Hlk Hdn. destruct clock as [[t1 t2] t3]. unfold attr_change.
  assert (Forall (fun i => 0 < i) imgs) as Hpos' by (eapply Forall_impl; [exact Hpos|cbn; lia]).
  destruct (execute_changes F change imgs s Hc Hs Hnd Hpos') as (s1 & res & records & -> & Hs1 & Himg & [Hall Hrest] & HF & _).
  cbn [c_bind]. destruct (group_recorded (attr_callback ty) ty t1 t2 t3 records u Hty Hgr Hlk Hdn) as (freed & ->). cbn [c_bind].
  eexists _, s1, res. split; [reflexivity|]. split; [done|]. split; [done|]. split; [by rewrite Himg in Hrest|].
  destruct (pop_undo_applies DT_ACTION_UNDO records s1 []) as (s2 & Hp2 & Hs2 & HF2 & Hr2 & Hok2); [done|by rewrite Himg| |].
  { eapply Forall_impl; [exact Hall|]. intros r (? & ? & ? & ? & ?). done. }
  rewrite Himg, app_nil_r in Hp2.
  destruct (pop_undo_applies DT_ACTION_REDO records s2 []) as (s3 & Hp3 & Hs3 & HF3 & Hr3 & _); [done|by rewrite Himg| |].
  { rewrite Forall_forall in HF2, Hall |- *. intros r Hr. destruct (Hall r Hr) as (? & ? & ? & ? & ?). cbn in HF2.
    split_and!; [done|by apply Hok2..|]. by rewrite HF2. }
  rewrite Himg, app_nil_r in Hp3.
  assert (forall i, view s2 i = view s i) as Hv2.
  { intros i. destruct (decide (i ∈ (img_of <$> records))) as [Hi|Hi]; [|by rewrite Hr2, Hrest].
    apply list_elem_of_fmap in Hi as (r & -> & Hr). rewrite Forall_forall in HF2, Hall. rewrite (HF2 r Hr).
    by destruct (Hall r Hr) as (? & ? & ? & ? & ?). }
  assert (forall i, view s3 i = view s1 i) as Hv3.
  { intros i. destruct (decide (i ∈ (img_of <$> records))) as [Hi|Hi]; [|by rewrite Hr3, Hr2].
    apply list_elem_of_fmap in Hi as (r & -> & Hr). rewrite Forall_forall in HF3, Hall. rewrite (HF3 r Hr).
    by destruct (Hall r Hr) as (? & ? & ? & ? & ?). }
  destruct (undo_redo_recorded (attr_callback ty) u filter ty t1 t2 t3 records (Done s1) (Done s2) (Done s3) (rev imgs) (rev imgs) Hf)
    as (u2 & Hundo & Hl2 & Hredo); [intros; by apply callback_applies..|].
  eexists u2, s2, _. split; [exact Hundo|]. split; [done|]. split; [done|]. split; [done|].
  split; [intros i; by apply synchronised_elem|]. by eexists s3, _.
Qed.

End spec.
