(* ===== verification/ColorLabels.v ===== *)
(** Colour labels of images: common/colorlabels.c.

    A set of labels is a byte with a bit for each of the five colours. Signals, hints for
    the collection view and the writing of sidecar files are left out. *)

From S2P Require Import Prelude Undo Library Attributes.
Local Open Scope Z_scope.

Definition DT_COLORLABELS_LAST : Z := 5.

Definition dt_colorlabels_name : list string := ["red"; "yellow"; "green"; "blue"; "purple"].

Inductive dt_colorlabels_actions_t := DT_CA_SET | DT_CA_ADD | DT_CA_TOGGLE.

(** The labels of an image, removed and inserted rows. *)
Definition dt_colorlabels_remove_labels (imgid : Z) (l : library) : library :=
  set_color_labels (filter (fun r => r.1 <> imgid) (color_labels l)) l.

Definition dt_colorlabels_set_label (imgid color : Z) (l : library) : library :=
  set_color_labels (insert_unique id [(imgid, color)] (color_labels l)) l.

Definition dt_colorlabels_remove_label (imgid color : Z) (l : library) : library :=
  set_color_labels (filter (fun r => r <> (imgid, color)) (color_labels l)) l.

Definition dt_colorlabels_check_label (imgid color : Z) (l : library) : bool :=
  if imgid <=? 0 then false else bool_decide ((imgid, color) ∈ color_labels l).

Definition dt_colorlabels_to_string (label : Z) : string :=
  if (label <? 0) || (label >=? DT_COLORLABELS_LAST) then ""
  else default "" (dt_colorlabels_name !! Z.to_nat label).

Section labels.
Context `{RowOrder}.

Definition dt_colorlabels_get_labels (imgid : Z) (l : library) : Z :=
  foldl (fun colors r => Z.lor colors (Z.shiftl 1 r.2)) 0 (scan (filter (fun r => r.1 = imgid) (color_labels l))).

(** The loop over the five colours. *)
Fixpoint pop_colors (imgid before after : Z) (colors : list Z) (l : library) : library :=
  match colors with
  | [] => l
  | color :: colors =>
      pop_colors imgid before after colors
        (if Z.testbit after color then
           if Z.testbit before color then l else dt_colorlabels_set_label imgid color l
         else if Z.testbit before color then dt_colorlabels_remove_label imgid color l else l)
  end.

Definition all_colors : list Z := [0; 1; 2; 3; 4].

Definition _pop_undo_execute (imgid before after : Z) (l : library) : library :=
  pop_colors imgid before after all_colors l.

#[export] Instance labels_attribute : Attribute library Z := {
  get_before imgid l := (wrap_u8 (dt_colorlabels_get_labels imgid l), l);
  execute imgid before after l := Done (_pop_undo_execute imgid before after l);
}.

(** What a label operation makes of the labels before, as a byte. *)
Definition labels_after (action : dt_colorlabels_actions_t) (labels before : Z) : Z :=
  wrap_u8 (match action with
           | DT_CA_SET => labels
           | DT_CA_ADD => Z.lor before labels
           | DT_CA_TOGGLE => if negb (Z.land before labels =? 0) then Z.land before (Z.lnot labels) else Z.lor before labels
           end).

Definition labels_change (action : dt_colorlabels_actions_t) (labels : Z) : Z -> Z -> library -> c_result (Z * bool * library) :=
  fun _ before l => Done (labels_after action labels before, false, l).

Definition _colorlabels_execute (action : dt_colorlabels_actions_t) (labels : Z) := attr_execute (labels_change action labels).

Abbreviation undo_t := (dt_undo_t (c_result library) unit (list (Z * Z * Z))).

(** The undo lists and the library after a call. *)
Definition dt_colorlabels_set_labels (clock : Z * Z * Z) (img : list Z) (labels : Z) (clear_on undo_on : bool)
    (u : undo_t) (l : library) : c_result (undo_t * library) :=
  match img with
  | [] => Done (u, l)
  | _ =>
      let* (u, l, _) := attr_change DT_UNDO_COLORLABELS undo_on clock
                          (labels_change (if clear_on then DT_CA_SET else DT_CA_ADD) labels) img u l in
      Done (u, l)
  end.

Definition dt_colorlabels_toggle_label_on_list (clock : Z * Z * Z) (img : list Z) (color : Z) (undo_on : bool)
    (u : undo_t) (l : library) : c_result (undo_t * library) :=
  let label := Z.shiftl 1 color in
  let change := if color =? 5 then labels_change DT_CA_SET 0 else labels_change DT_CA_TOGGLE label in
  let* (u, l, _) := attr_change DT_UNDO_COLORLABELS undo_on clock change img u l in
  Done (u, l).

(** ** Lemmas *)

(** Every row has one of the five colours, once. *)
Definition labels_ok (l : library) : Prop :=
  NoDup (color_labels l) /\ Forall (fun r => r.2 ∈ all_colors) (color_labels l).

(** The colours of an image, as a byte. *)
Definition has_label (l : library) (imgid color : Z) : Prop := (imgid, color) ∈ color_labels l.
#[global] Instance has_label_dec l imgid color : Decision (has_label l imgid color).
Proof. unfold has_label. apply _. Defined.

Definition label_view (l : library) (imgid : Z) : list bool :=
  map (fun c => bool_decide (has_label l imgid c)) all_colors.

Definition label_bits (v : Z) : list bool := map (Z.testbit v) all_colors.

Lemma testbit_color c color : 0 <= color -> 0 <= c -> Z.testbit (Z.shiftl 1 color) c = (c =? color).
Proof. intros H1 H2. rewrite Z.shiftl_1_l, Z.pow2_bits_eqb by lia. apply Z.eqb_sym. Qed.

Lemma color_range c : c ∈ all_colors -> 0 <= c < 5.
Proof. unfold all_colors. rewrite !elem_of_cons, elem_of_nil. lia. Qed.

Lemma foldl_labels rows c a :
  0 <= c -> Forall (fun r : Z * Z => 0 <= r.2) rows ->
  Z.testbit (foldl (fun colors r => Z.lor colors (Z.shiftl 1 r.2)) a rows) c =
    Z.testbit a c || bool_decide (c ∈ rows.*2).
Proof.
  intros Hc Hr. revert a. induction Hr as [|[i d] rows Hd _ IH]; intros a; cbn [foldl].
  { rewrite bool_decide_false by apply not_elem_of_nil. by rewrite orb_false_r. }
  cbn in Hd. rewrite IH, Z.lor_spec, testbit_color by (cbn; lia). cbn. rewrite <- orb_assoc. f_equal.
  destruct (Z.eqb_spec c d) as [->|Hne]; cbn.
  - symmetry. apply bool_decide_true. by left.
  - apply bool_decide_ext. rewrite elem_of_cons. tauto.
Qed.

Lemma wrap_u8_testbit v c : 0 <= c < 8 -> Z.testbit (wrap_u8 v) c = Z.testbit v c.
Proof. intros Hc. unfold wrap_u8. by rewrite Z.mod_pow2_bits_low by lia. Qed.

Lemma get_labels_bits l imgid : labels_ok l -> label_bits (wrap_u8 (dt_colorlabels_get_labels imgid l)) = label_view l imgid.
Proof.
  intros [_ Hc]. unfold label_bits, label_view. apply map_ext_in. intros c Hin%list_elem_of_In%color_range.
  rewrite wrap_u8_testbit by lia. unfold dt_colorlabels_get_labels. rewrite foldl_labels; [|lia|].
  - rewrite Z.bits_0. cbn [orb]. apply bool_decide_ext. unfold has_label. rewrite list_elem_of_fmap. split.
    + intros ([i c'] & -> & Hi). rewrite elem_of_scan, list_elem_of_filter in Hi. by destruct Hi as [<- Hi].
    + intros Hi. exists (imgid, c). by rewrite elem_of_scan, list_elem_of_filter.
  - apply Forall_forall. intros r. rewrite elem_of_scan, list_elem_of_filter. intros [_ Hr].
    rewrite Forall_forall in Hc. specialize (Hc r Hr). cbn in Hc. apply color_range in Hc. lia.
Qed.

Lemma insert_label l imgid color :
  labels_ok l -> color ∈ all_colors -> ~ has_label l imgid color ->
  labels_ok (dt_colorlabels_set_label imgid color l) /\
  forall i c, has_label (dt_colorlabels_set_label imgid color l) i c <-> has_label l i c \/ (i = imgid /\ c = color).
Proof.
  intros [Hnd Hc] Hcol Hno. unfold dt_colorlabels_set_label, labels_ok, has_label in *. cbn.
  rewrite insert_unique_fresh.
  - split; [split|].
    + apply NoDup_app. split; [done|]. split; [|apply NoDup_singleton]. intros r Hr ->%list_elem_of_singleton. done.
    + apply Forall_app. split; [done|]. apply Forall_singleton. done.
    + intros i c. rewrite elem_of_app, list_elem_of_singleton. naive_solver.
  - rewrite list_fmap_id. apply NoDup_app. split; [done|]. split; [|apply NoDup_singleton].
    intros r Hr ->%list_elem_of_singleton. done.
Qed.

Lemma remove_label l imgid color :
  labels_ok l -> labels_ok (dt_colorlabels_remove_label imgid color l) /\
  forall i c, has_label (dt_colorlabels_remove_label imgid color l) i c <-> has_label l i c /\ ~ (i = imgid /\ c = color).
Proof.
  intros [Hnd Hc]. unfold dt_colorlabels_remove_label, labels_ok, has_label. cbn. split; [split|].
  - by apply NoDup_filter.
  - rewrite Forall_forall in Hc |- *. intros r [_ Hr]%list_elem_of_filter. by apply Hc.
  - intros i c. rewrite list_elem_of_filter. naive_solver.
Qed.

(** The loop moves an image from one set of labels to another. *)
Lemma pop_colors_spec imgid before after colors l :
  labels_ok l -> NoDup colors -> (forall c, c ∈ colors -> c ∈ all_colors) ->
  (forall c, c ∈ colors -> Z.testbit before c = bool_decide (has_label l imgid c)) ->
  labels_ok (pop_colors imgid before after colors l) /\
  (forall c, has_label (pop_colors imgid before after colors l) imgid c <->
     if decide (c ∈ colors) then Z.testbit after c = true else has_label l imgid c) /\
  (forall i c, i <> imgid -> has_label (pop_colors imgid before after colors l) i c <-> has_label l i c).
Proof.
  revert l. induction colors as [|color colors IH]; intros l Hok Hnd Hin Hb; cbn [pop_colors].
  { split; [done|]. split; [|done]. intros c. by rewrite decide_False by apply not_elem_of_nil. }
  inversion_clear Hnd as [|? ? Hni Hnd']. set (l1 := if Z.testbit after color then _ else _).
  assert (labels_ok l1 /\ (has_label l1 imgid color <-> Z.testbit after color = true) /\
          forall i c, ~ (i = imgid /\ c = color) -> has_label l1 i c <-> has_label l i c) as (Hok1 & H1 & H2).
  { specialize (Hb color ltac:(by left)). unfold l1. rewrite Hb.
    destruct (Z.testbit after color), (bool_decide (has_label l imgid color)) eqn:E.
    - apply bool_decide_eq_true in E. done.
    - apply bool_decide_eq_false in E. destruct (insert_label l imgid color Hok ltac:(apply Hin; by left) E) as [Ho Hh].
      split; [done|]. rewrite Hh. split; [by split; auto|]. intros i c Hn. rewrite Hh. tauto.
    - destruct (remove_label l imgid color Hok) as [Ho Hh]. split; [done|]. rewrite Hh. split; [by split; [intros [_ []]|]|].
      intros i c Hn. rewrite Hh. tauto.
    - apply bool_decide_eq_false in E. done. }
  destruct (IH l1 Hok1 Hnd') as (Ho & Hi & Hother); [intros; apply Hin; by right| |].
  { intros c Hc. rewrite Hb by (by right). apply bool_decide_ext. symmetry. apply H2. intros [_ ->]. done. }
  split; [done|]. split.
  - intros c. rewrite Hi. destruct (decide (c ∈ colors)) as [Hc|Hc]; [by rewrite decide_True by (by right)|].
    destruct (decide (c = color)) as [->|Hne].
    + rewrite decide_True by (by left). done.
    + rewrite decide_False by (rewrite elem_of_cons; tauto). apply H2. tauto.
  - intros i c Hne. rewrite Hother by done. apply H2. tauto.
Qed.

Lemma label_view_ext l l' i : (forall c, has_label l i c <-> has_label l' i c) -> label_view l i = label_view l' i.
Proof. intros Hv. unfold label_view. apply map_ext. intros c. by apply bool_decide_ext. Qed.

#[export] Instance labels_spec :
  AttributeSpec library Z (list bool) label_view label_bits labels_ok (fun _ _ => True).
Proof.
  split.
  - intros i s Hs _. do 2 eexists. split; [reflexivity|]. split_and!; try done. by apply get_labels_bits.
  - intros i b a s Hs Hi _ _ Hb. eexists. split; [reflexivity|]. unfold _pop_undo_execute.
    destruct (pop_colors_spec i b a all_colors s Hs) as (Ho & Hv & Hother); [|done| |].
    + unfold all_colors. apply (bool_decide_unpack _). vm_compute. done.
    + intros c Hc%list_elem_of_In. unfold label_bits, label_view in Hb. rewrite map_ext_in_iff in Hb. by apply Hb.
    + split; [done|]. split; [|split; [|done]].
      * unfold label_view, label_bits. apply map_ext_in. intros c Hc%list_elem_of_In.
        destruct (Z.testbit a c) eqn:E; [apply bool_decide_true|apply bool_decide_false]; rewrite Hv, decide_True by done;
          [done|congruence].
      * intros j Hj. apply label_view_ext. intros c. by apply Hother.
Qed.

(** What an action makes of a set of labels. *)
Definition labels_result (action : dt_colorlabels_actions_t) (new old : list bool) : list bool :=
  match action with
  | DT_CA_SET => new
  | DT_CA_ADD => zip_with orb old new
  | DT_CA_TOGGLE =>
      if existsb id (zip_with andb old new) then zip_with (fun b n => b && negb n) old new else zip_with orb old new
  end.

Lemma zip_bits (f : bool -> bool -> bool) a b : zip_with f (label_bits a) (label_bits b) = map (fun c => f (Z.testbit a c) (Z.testbit b c)) all_colors.
Proof. done. Qed.

Lemma toggle_test before labels : 0 <= labels < 32 ->
  negb (Z.land before labels =? 0) = existsb id (zip_with andb (label_bits before) (label_bits labels)).
Proof.
  intros Hl. destruct (existsb _ _) eqn:E.
  - apply existsb_exists in E as (x & Hx & Hid). rewrite zip_bits in Hx. apply in_map_iff in Hx as (c & <- & Hc).
    apply negb_true_iff, Z.eqb_neq. intros H0. apply list_elem_of_In, color_range in Hc.
    pose proof (Z.land_spec before labels c) as Hs. rewrite H0, Z.bits_0 in Hs. unfold id in Hid. congruence.
  - apply negb_false_iff, Z.eqb_eq. apply Z.bits_inj'. intros c Hc. rewrite Z.bits_0, Z.land_spec.
    destruct (Z.lt_ge_cases c 5) as [Hlt|Hge].
    + assert (In c all_colors) as Hin by (apply list_elem_of_In; unfold all_colors; rewrite !elem_of_cons; lia).
      destruct (Z.testbit before c && Z.testbit labels c) eqn:E'; [|done]. rewrite <- E. symmetry.
      apply existsb_exists. exists true. split; [|done]. rewrite zip_bits. apply in_map_iff. exists c. by rewrite E'.
    + rewrite (Z.bits_above_log2 labels c), andb_false_r; [done|lia|].
      destruct (Z.eq_dec labels 0) as [->|]; [cbn; lia|]. apply Z.log2_lt_pow2; [lia|].
      assert (2 ^ 5 <= 2 ^ c) by (apply Z.pow_le_mono_r; lia). lia.
Qed.

Lemma labels_good_change action labels :
  0 <= labels < 32 -> good_change (view := label_view) (repr := label_bits) (inv := labels_ok) (ok := fun _ _ => True)
    (fun _ old => labels_result action (label_bits labels) old) (labels_change action labels).
Proof.
  intros Hl i v s Hs _ _. do 3 eexists. split; [reflexivity|]. split_and!; try done.
  unfold labels_after, label_bits at 1. destruct action; cbn [labels_result].
  - apply map_ext_in. intros c Hc%list_elem_of_In%color_range. rewrite wrap_u8_testbit by lia. done.
  - rewrite zip_bits. apply map_ext_in. intros c Hc%list_elem_of_In%color_range. rewrite wrap_u8_testbit by lia. apply Z.lor_spec.
  - rewrite <- toggle_test by done. destruct (negb _); rewrite zip_bits; apply map_ext_in;
      intros c Hc%list_elem_of_In%color_range; rewrite wrap_u8_testbit by lia; [|apply Z.lor_spec].
    by rewrite Z.land_spec, Z.lnot_spec by lia.
Qed.

(** Setting, adding or toggling labels of several images gives every image the labels
    the action says and leaves the others alone; undo gives all images their labels back
    and redo sets them again. *)
Theorem labels_undo_redo clock img color (u : undo_t) l filter
    (Hl : labels_ok l) (Hcolor : 0 <= color <= 5) (Himg : NoDup img) (Hids : Forall (fun i => 0 < i < 2 ^ 31) img)
    (Hfilter : Z.land DT_UNDO_COLORLABELS filter <> 0)
    (Hgroup : group u = DT_UNDO_NONE) (Hlock : locked u = false) (Hnext : disable_next u = false) :
  let result old := if color =? 5 then label_bits 0 else labels_result DT_CA_TOGGLE (label_bits (Z.shiftl 1 color)) old in
  exists u1 l1, dt_colorlabels_toggle_label_on_list clock img color true u l = Done (u1, l1) /\
    (forall i, label_view l1 i = if decide (i ∈ img) then result (label_view l i) else label_view l i) /\
    exists u2 l2 synched, dt_undo_do_undo u1 filter (Done l1) = Done (u2, Done l2, synched) /\
      (forall i, label_view l2 i = label_view l i) /\ (forall i, i ∈ synched <-> i ∈ img) /\
      exists l3 synched', dt_undo_do_redo u2 filter (Done l2) = Done (u1, Done l3, synched') /\
        (forall i, label_view l3 i = label_view l1 i).
Proof.
  cbn zeta. unfold dt_colorlabels_toggle_label_on_list.
  set (change := if color =? 5 then _ else _). set (F := fun (_ : Z) old => if color =? 5 then label_bits 0 else labels_result DT_CA_TOGGLE (label_bits (Z.shiftl 1 color)) old).
  assert (good_change (view := label_view) (repr := label_bits) (inv := labels_ok) (ok := fun _ _ => True) F change) as Hc.
  { unfold F, change. destruct (Z.eqb_spec color 5); [apply (labels_good_change DT_CA_SET); lia|].
    apply labels_good_change. rewrite Z.shiftl_1_l. split; [apply Z.pow_nonneg; lia|].
    apply (Z.pow_lt_mono_r 2 color 5); lia. }
  destruct (attribute_undo_redo F change DT_UNDO_COLORLABELS clock img u l filter) as
    (u1 & l1 & res & -> & _ & HF & Hrest & u2 & l2 & synched & Hu & _ & _ & Hv2 & Hs & l3 & synched' & Hr & _ & Hv3); try done.
  cbn [c_bind]. exists u1, l1. split; [done|]. split; [|by eauto 10].
  intros i. case_decide; [|by apply Hrest]. rewrite HF by done. done.
Qed.

End labels.

Module Example.

(** Rows in the order of the table. *)
#[export] Instance in_order : RowOrder := { scan _ l := l; scan_Permutation _ _ := reflexivity _ }.

Definition labelled : library := Library [] [] [(7, 0); (3, 1); (7, 4)] [] [] [].

Lemma labels_undo_redo_witness :
  exists u1 l1, dt_colorlabels_toggle_label_on_list (1, 2, 3) [7; 3] 4 true dt_undo_init labelled = Done (u1, l1) /\
    (forall i, label_view l1 i =
       if decide (i ∈ [7; 3]) then labels_result DT_CA_TOGGLE [false; false; false; false; true] (label_view labelled i)
       else label_view labelled i) /\
    exists u2 l2 synched, dt_undo_do_undo u1 DT_UNDO_LIGHTTABLE (Done l1) = Done (u2, Done l2, synched) /\
      (forall i, label_view l2 i = label_view labelled i) /\ (forall i, i ∈ synched <-> i ∈ [7; 3]) /\
      exists l3 synched', dt_undo_do_redo u2 DT_UNDO_LIGHTTABLE (Done l2) = Done (u1, Done l3, synched') /\
        (forall i, label_view l3 i = label_view l1 i).
Proof.
  apply (labels_undo_redo (1, 2, 3) [7; 3] 4 dt_undo_init labelled DT_UNDO_LIGHTTABLE); try done; try lia.
  - split; [apply (bool_decide_unpack _); vm_compute; done|]. repeat constructor; apply (bool_decide_unpack _); vm_compute; done.
  - apply (bool_decide_unpack _). vm_compute. done.
  - repeat constructor.
Defined.

End Example.
