(* ===== verification/Metadata.v ===== *)
(** Metadata of images: common/metadata.c and common/metadata.h.

    In the lists of the code keys and values take turns, both as texts; the key of an
    image's title is "2". [g_list_find_custom] looks at all of them, also at the values.
    The configuration is read through an argument; signals are left out, and so is the
    freeing of the undo data. *)

From Stdlib Require Import Ascii String.
From S2P Require Import Prelude Utility Undo Library Attributes.
Local Open Scope Z_scope.

Definition DT_METADATA_TYPE_USER : Z := 0.
Definition DT_METADATA_TYPE_OPTIONAL : Z := 1.
Definition DT_METADATA_TYPE_INTERNAL : Z := 2.

Definition DT_METADATA_FLAG_HIDDEN : Z := Z.shiftl 1 0.
Definition DT_METADATA_FLAG_IMPORTED : Z := Z.shiftl 1 2.

Record metadata_def := Metadata_def {
  key : string;
  name : string;
  type : Z;
  display_order : Z;
}.

Definition dt_metadata_def : list metadata_def := [
  Metadata_def "Xmp.dc.creator" "creator" DT_METADATA_TYPE_USER 2;
  Metadata_def "Xmp.dc.publisher" "publisher" DT_METADATA_TYPE_USER 3;
  Metadata_def "Xmp.dc.title" "title" DT_METADATA_TYPE_USER 0;
  Metadata_def "Xmp.dc.description" "description" DT_METADATA_TYPE_USER 1;
  Metadata_def "Xmp.dc.rights" "rights" DT_METADATA_TYPE_USER 4;
  Metadata_def "Xmp.acdsee.notes" "notes" DT_METADATA_TYPE_USER 5;
  Metadata_def "Xmp.darktable.version_name" "version name" DT_METADATA_TYPE_OPTIONAL 6
].

Definition DT_METADATA_NUMBER : Z := 7.

(** The entry of a key id; ids are unsigned. *)
Definition def_of (keyid : Z) : option metadata_def :=
  if (0 <=? keyid) && (keyid <? DT_METADATA_NUMBER) then dt_metadata_def !! Z.to_nat keyid else None.

(** The loops over the table: the first entry that fits, with its place. *)
Fixpoint first_def (p : metadata_def -> bool) (i : Z) (l : list metadata_def) : option (Z * metadata_def) :=
  match l with
  | [] => None
  | d :: l => if p d then Some (i, d) else first_def p (i + 1) l
  end.

Definition def_by_display_order (order : Z) : option (Z * metadata_def) :=
  if (0 <=? order) && (order <? DT_METADATA_NUMBER)
  then first_def (fun d => order =? display_order d) 0 dt_metadata_def else None.

Definition dt_metadata_get_name_by_display_order (order : Z) : option string :=
  name ∘ snd <$> def_by_display_order order.

Definition dt_metadata_get_keyid_by_display_order (order : Z) : Z :=
  default (-1) (fst <$> def_by_display_order order).

Definition dt_metadata_get_type_by_display_order (order : Z) : Z :=
  default 0 (type ∘ snd <$> def_by_display_order order).

Definition dt_metadata_get_name (keyid : Z) : option string := name <$> def_of keyid.

(** [strncmp] over the length of the key: a key that begins with one of the table. *)
Definition dt_metadata_get_keyid (k : option string) : Z :=
  match k with
  | None => -1
  | Some k => default (-1) (fst <$> first_def (fun d => String.prefix (key d) k) 0 dt_metadata_def)
  end.

Definition dt_metadata_get_key (keyid : Z) : option string := key <$> def_of keyid.

Definition dt_metadata_get_subkey (keyid : Z) : option string :=
  d ← def_of keyid; after_last "." (key d).

Definition dt_metadata_get_key_by_subkey (subkey : option string) : option string :=
  s ← subkey;
  key ∘ snd <$> first_def (fun d => match after_last "." (key d) with Some t => String.eqb t s | None => false end) 0 dt_metadata_def.

Definition dt_metadata_get_type (keyid : Z) : Z := default 0 (type <$> def_of keyid).

Definition flag_setting (name : string) : string := "plugins/lighttable/metadata/" +:+ name +:+ "_flag".

(** The settings that dt_metadata_init writes. *)
Definition dt_metadata_init (exists_ : string -> bool) : list (string * Z) :=
  dt_metadata_def ≫= fun d =>
    let setting := flag_setting (name d) in
    if exists_ setting then [] else
    [(setting, if type d =? DT_METADATA_TYPE_OPTIONAL
               then Z.lor DT_METADATA_FLAG_IMPORTED DT_METADATA_FLAG_HIDDEN else DT_METADATA_FLAG_IMPORTED)].

(** ** Lists of keys and values *)

(** The data behind the first element that equals the key: [Some None] at the end of the
    list. *)
Fixpoint find_key (k : string) (l : list string) : option (option string) :=
  match l with
  | [] => None
  | x :: l => if String.eqb x k then Some (head l) else find_key k l
  end.

(** Whether the key is in the list, and with another value; the element behind it is
    dereferenced. *)
Definition compare_key (k v : string) (l : list string) : c_result (bool * bool) :=
  match find_key k l with
  | None => Done (false, false)
  | Some None => Undefined
  | Some (Some v') => Done (true, negb (String.eqb v' v))
  end.

(** The numbers of the keys to be deleted. *)
Fixpoint _get_tb_removed_metadata_string_values (before after : list string) : c_result (list Z) :=
  match before with
  | [] => Done []
  | [_] => Undefined
  | k :: v :: before =>
      let* (same_key, different_value) := compare_key k v after in
      let* n := atoi k in
      let* l := _get_tb_removed_metadata_string_values before after in
      Done (if negb same_key || different_value || String.eqb v "" then n :: l else l)
  end.

(** The rows to be inserted. *)
Fixpoint _get_tb_added_metadata_string_values (img : Z) (before after : list string) : c_result (list meta_row) :=
  match after with
  | [] => Done []
  | [_] => Undefined
  | k :: v :: after =>
      let* (same_key, different_value) := compare_key k v before in
      let* n := atoi k in
      let* l := _get_tb_added_metadata_string_values img before after in
      Done (if (negb same_key || different_value) && negb (String.eqb v "") then Meta img n (Some v) :: l else l)
  end.

Definition _bulk_remove_metadata (img : Z) (keys : list Z) (l : library) : library :=
  if (img >? 0) && negb (bool_decide (keys = []))
  then set_meta_data (filter (fun r => ~ (md_id r = img /\ md_key r ∈ keys)) (meta_data l)) l else l.

Definition _bulk_add_metadata (rows : list meta_row) (l : library) : library :=
  set_meta_data (meta_data l ++ rows) l.

Definition _pop_undo_execute (imgid : Z) (before after : list string) (l : library) : c_result library :=
  let* removed := _get_tb_removed_metadata_string_values before after in
  let* added := _get_tb_added_metadata_string_values imgid before after in
  Done (_bulk_add_metadata added (_bulk_remove_metadata imgid removed l)).

(** ** Changes *)

(** The list with the value behind the first element that equals [k] replaced. *)
Fixpoint replace_value (k v : string) (l : list string) : list string :=
  match l with
  | [] => []
  | x :: l => if String.eqb x k then match l with [] => [x] | _ :: l => x :: v :: l end else x :: replace_value k v l
  end.

Fixpoint _metadata_add_metadata_to_list (l metadata : list string) : c_result (list string) :=
  match metadata with
  | [] => Done l
  | [_] => Undefined
  | k :: v :: metadata =>
      let* (same_key, different_value) := compare_key k v l in
      _metadata_add_metadata_to_list
        (if same_key then if different_value then replace_value k v l else l else l ++ [k; v]) metadata
  end.

(** The list without the first element that equals [k] and the one behind it. *)
Fixpoint remove_key (k : string) (l : list string) : c_result (list string) :=
  match l with
  | [] => Done []
  | x :: l =>
      if String.eqb x k then match l with [] => Undefined | _ :: l => Done l end
      else let* l := remove_key k l in Done (x :: l)
  end.

(** [metadata] is a list of keys here. *)
Fixpoint _metadata_remove_metadata_from_list (l metadata : list string) : c_result (list string) :=
  match metadata with
  | [] => Done l
  | k :: metadata => let* l := remove_key k l in _metadata_remove_metadata_from_list l metadata
  end.

Inductive dt_tag_actions_t := DT_MA_SET | DT_MA_ADD | DT_MA_REMOVE.

(** Without the spaces in front and at the end; NULL becomes the empty text. *)
Definition _cleanup_metadata_value (value : option string) : string := strip (Ascii.eqb " ") (default "" value).

Section metadata.
Context `{RowOrder}.

Definition rows_of (id : Z) (l : library) : list meta_row := scan (filter (fun r => md_id r = id) (meta_data l)).

Definition dt_metadata_get_list_id (id : Z) (l : library) : list string :=
  rows_of id l ≫= fun r => [c_show_int (md_key r); default "" (md_value r)].

#[export] Instance metadata_attribute : Attribute library (list string) := {
  get_before id l := (dt_metadata_get_list_id id l, l);
  execute := _pop_undo_execute;
}.

Definition metadata_change (action : dt_tag_actions_t) (metadata : list string)
    : Z -> list string -> library -> c_result (list string * bool * library) :=
  fun _ before l =>
    let* after := match action with
                  | DT_MA_SET => Done metadata
                  | DT_MA_ADD => _metadata_add_metadata_to_list before metadata
                  | DT_MA_REMOVE => _metadata_remove_metadata_from_list before metadata
                  end in
    Done (after, false, l).

Definition _metadata_execute (action : dt_tag_actions_t) (metadata : list string) := attr_execute (metadata_change action metadata).

Abbreviation undo_t := (dt_undo_t (c_result library) unit (list (Z * list string * list string))).

(** With its group in the undo lists. *)
Definition change_metadata (clock : Z * Z * Z) (action : dt_tag_actions_t) (metadata : list string) (undo_on : bool)
    (imgs : list Z) (u : undo_t) (l : library) : c_result (undo_t * library) :=
  let* (u, l, _) := attr_change DT_UNDO_METADATA undo_on clock (metadata_change action metadata) imgs u l in Done (u, l).

(** [act_on]: dt_view_get_images_to_act_on. *)
Definition dt_metadata_set (clock : Z * Z * Z) (act_on : list Z) (imgid : Z) (k value : option string) (undo_on : bool)
    (u : undo_t) (l : library) : c_result (undo_t * library) :=
  match k with
  | None => Done (u, l)
  | Some _ =>
      if imgid =? 0 then Done (u, l) else
      let keyid := dt_metadata_get_keyid k in
      if keyid =? -1 then Done (u, l) else
      let imgs := if imgid =? -1 then act_on else [imgid] in
      match imgs with
      | [] => Done (u, l)
      | _ => change_metadata clock DT_MA_ADD [c_show_int keyid; _cleanup_metadata_value value] undo_on imgs u l
      end
  end.

(** [get_bool] and [get_int]: the configuration. *)
Definition dt_metadata_set_import (get_bool : string -> bool) (get_int : string -> Z) (imgid : Z) (k value : option string)
    (l : library) : c_result library :=
  match k with
  | None => Done l
  | Some _ =>
      if (imgid =? 0) || (imgid =? -1) then Done l else
      let keyid := dt_metadata_get_keyid k in
      if keyid =? -1 then Done l else
      let imported :=
        get_bool "write_sidecar_files" ||
        (negb (dt_metadata_get_type keyid =? DT_METADATA_TYPE_INTERNAL) &&
         negb (Z.land (get_int (flag_setting (default "" (dt_metadata_get_name keyid)))) DT_METADATA_FLAG_IMPORTED =? 0)) in
      if imported then
        let* (l, _, _) := _metadata_execute DT_MA_ADD [c_show_int keyid; _cleanup_metadata_value value] [imgid] l in Done l
      else Done l
  end.

(** Keys and values as they come from the form; a NULL value is left out. *)
Fixpoint collect_key_values (kv : list (option string)) : c_result (list string) :=
  match kv with
  | [] => Done []
  | k :: kv =>
      let keyid := dt_metadata_get_keyid k in
      match kv with
      | [] => if keyid =? -1 then Done [] else Undefined
      | value :: kv =>
          let* l := collect_key_values kv in
          Done (if keyid =? -1 then l
                else match value with Some _ => c_show_int keyid :: _cleanup_metadata_value value :: l | None => l end)
      end
  end.

Definition dt_metadata_set_list (clock : Z * Z * Z) (imgs : list Z) (key_value : list (option string)) (undo_on : bool)
    (u : undo_t) (l : library) : c_result (undo_t * library) :=
  let* metadata := collect_key_values key_value in
  match metadata, imgs with
  | _ :: _, _ :: _ => change_metadata clock DT_MA_ADD metadata undo_on imgs u l
  | _, _ => Done (u, l)
  end.

(** The keys that dt_metadata_clear removes. *)
Definition keys_to_clear (get_int : string -> Z) : list string :=
  map (fun i => c_show_int i)
    (filter (fun i => negb (dt_metadata_get_type i =? DT_METADATA_TYPE_INTERNAL) &&
                      (Z.land (get_int (flag_setting (default "" (dt_metadata_get_name i)))) DT_METADATA_FLAG_HIDDEN =? 0))
            (seqZ 0 DT_METADATA_NUMBER)).

Definition dt_metadata_clear (clock : Z * Z * Z) (get_int : string -> Z) (imgs : list Z) (undo_on : bool)
    (u : undo_t) (l : library) : c_result (undo_t * library) :=
  match keys_to_clear get_int with
  | [] => Done (u, l)
  | metadata => change_metadata clock DT_MA_REMOVE metadata undo_on imgs u l
  end.

Definition dt_metadata_set_list_id (clock : Z * Z * Z) (img : list Z) (metadata : list string) (clear_on undo_on : bool)
    (u : undo_t) (l : library) : c_result (undo_t * library) :=
  match img with
  | [] => Done (u, l)
  | _ => change_metadata clock (if clear_on then DT_MA_SET else DT_MA_ADD) metadata undo_on img u l
  end.

(** ** Queries *)

(** What a query gives: numbers for ratings and labels, texts otherwise. *)
Inductive metadata_value := Number (n : Z) | Text (t : string).

Definition opt_str_cmp (a b : option string) : Z :=
  match a, b with
  | None, None => 0
  | None, Some _ => -1
  | Some _, None => 1
  | Some a, Some b => g_strcmp0 a b
  end.

(** [flags]: id and flags of main.images. An [id] of -1 stands for the selection. *)
Definition dt_metadata_get (flags : list (Z * Z)) (id : Z) (k : string) (l : library) : list metadata_value :=
  let chosen i := if id =? -1 then bool_decide (i ∈ selected_images l) else i =? id in
  let keyid := dt_metadata_get_keyid (Some k) in
  if keyid =? -1 then
    if String.prefix "Xmp.xmp.Rating" k then
      map (fun r => Number (Z.land r.2 7 - 1)) (scan (filter (fun r => chosen r.1) flags))
    else if String.prefix "Xmp.dc.subject" k then
      map (fun r => Text r.1) (scan (filter (fun r => chosen r.2)
        (tags l ≫= fun t => (fun r => (t_name t, ti_imgid r)) <$> filter (fun r => ti_tagid r = t_id t) (tagged_images l))))
    else if String.prefix "Xmp.darktable.colorlabels" k then
      let colors := map snd (scan (filter (fun r => chosen r.1) (color_labels l))) in
      map Number (if id =? -1 then colors else g_list_sort Z.sub colors)
    else []
  else
    map (fun v => Text (default "" v))
      (g_list_sort opt_str_cmp (map md_value (scan (filter (fun r => chosen (md_id r) && (md_key r =? keyid)) (meta_data l))))).

End metadata.

(** ** Lemmas: lists of pairs *)

Definition all_keys : list Z := seqZ 0 DT_METADATA_NUMBER.
Definition key_texts : list string := map (fun k => c_show_int k) all_keys.

Definition flat (ps : list (Z * string)) : list string := ps ≫= fun p => [c_show_int p.1; p.2].

(** Pairs of a key and a value that is not itself the number of a key. *)
Definition plain (ps : list (Z * string)) : Prop := Forall (fun p => p.1 ∈ all_keys /\ p.2 ∉ key_texts) ps.

(** A list that the functions understand: every key is there only once. *)
Definition list_ok (l : list string) : Prop := exists ps, l = flat ps /\ NoDup ps.*1 /\ plain ps.

Fixpoint assoc (k : Z) (ps : list (Z * string)) : option string :=
  match ps with
  | [] => None
  | (k', v) :: ps => if k' =? k then Some v else assoc k ps
  end.

Lemma all_keys_range k : k ∈ all_keys <-> 0 <= k < 7.
Proof. unfold all_keys. rewrite elem_of_seqZ. done. Qed.

Lemma key_text k : k ∈ all_keys -> c_show_int k ∈ key_texts.
Proof. intros Hk. apply list_elem_of_In, in_map, list_elem_of_In, Hk. Qed.

Lemma atoi_show k : k ∈ all_keys -> atoi (c_show_int k) = Done k.
Proof. intros Hk%all_keys_range. unfold atoi. by rewrite sscanf_show_int by lia. Qed.

Lemma show_eqb k k' : k ∈ all_keys -> k' ∈ all_keys -> String.eqb (c_show_int k) (c_show_int k') = (k =? k').
Proof.
  intros Hk Hk'. destruct (Z.eqb_spec k k') as [->|Hne]; [apply String.eqb_refl|]. apply String.eqb_neq. intros He.
  pose proof (atoi_show k Hk) as H1. rewrite He, atoi_show in H1 by done. congruence.
Qed.

Lemma value_not_key v k : v ∉ key_texts -> k ∈ all_keys -> String.eqb v (c_show_int k) = false.
Proof. intros Hv Hk. apply String.eqb_neq. intros ->. by apply Hv, key_text. Qed.

Lemma assoc_elem k v ps : assoc k ps = Some v -> (k, v) ∈ ps.
Proof.
  induction ps as [|[k' v'] ps IH]; [done|]. cbn. destruct (Z.eqb_spec k' k) as [->|]; [intros [= ->]; by left|].
  intros H. right. auto.
Qed.

Lemma elem_assoc k v ps : NoDup ps.*1 -> (k, v) ∈ ps <-> assoc k ps = Some v.
Proof.
  intros Hnd. split; [|apply assoc_elem]. induction ps as [|[k' v'] ps IH]; [by intros ?%not_elem_of_nil|]. cbn.
  inversion_clear Hnd as [|? ? Hni Hnd']. intros [Heq|Hin]%elem_of_cons.
  - injection Heq as <- <-. by rewrite Z.eqb_refl.
  - destruct (Z.eqb_spec k' k) as [->|]; [|auto]. destruct Hni. by apply (list_elem_of_fmap_2 fst _ (k, v)).
Qed.

Lemma plain_cons k v ps : plain ((k, v) :: ps) <-> k ∈ all_keys /\ v ∉ key_texts /\ plain ps.
Proof. unfold plain. rewrite Forall_cons. cbn. tauto. Qed.

(** The look-up finds keys only. *)
Lemma find_key_flat k ps : k ∈ all_keys -> plain ps -> find_key (c_show_int k) (flat ps) = Some <$> assoc k ps.
Proof.
  intros Hk. induction ps as [|[k' v] ps IH]; [done|]. intros (Hk' & Hv & Hps)%plain_cons. cbn.
  rewrite show_eqb by done. destruct (k' =? k); [done|]. rewrite value_not_key by done. by apply IH.
Qed.

Lemma compare_key_flat k v ps :
  k ∈ all_keys -> plain ps ->
  compare_key (c_show_int k) v (flat ps) =
    Done (match assoc k ps with Some v' => (true, negb (String.eqb v' v)) | None => (false, false) end).
Proof. intros Hk Hps. unfold compare_key. rewrite find_key_flat by done. by destruct (assoc k ps). Qed.

(** ** Lemmas: the difference *)

Abbreviation removes pa p := (assoc p.1 pa <> Some p.2 \/ p.2 = "").
Abbreviation adds pb p := (assoc p.1 pb <> Some p.2 /\ p.2 <> "").

Lemma removed_flat pb pa : plain pb -> plain pa ->
  _get_tb_removed_metadata_string_values (flat pb) (flat pa) = Done (filter (fun p => removes pa p) pb).*1.
Proof.
  intros Hb Ha. induction pb as [|[k v] pb IH]; [done|]. apply plain_cons in Hb as (Hk & Hv & Hb).
  cbn [flat mbind list_bind app fst snd _get_tb_removed_metadata_string_values]. fold (flat pb).
  rewrite compare_key_flat by done. rewrite filter_cons. cbn [fst snd].
  destruct (assoc k pa) as [v'|] eqn:E; cbn [c_bind]; rewrite atoi_show by done; cbn [c_bind]; rewrite IH by done; cbn [c_bind].
  - destruct (String.eqb_spec v' v) as [->|Hne], (String.eqb_spec v "") as [Hv0|Hv0]; cbn [negb orb];
      case_decide as Hd; try done; exfalso; naive_solver.
  - cbn [negb orb]. case_decide as Hd; [done|]. exfalso. apply Hd. by left.
Qed.

Lemma added_flat img pb pa : plain pb -> plain pa ->
  _get_tb_added_metadata_string_values img (flat pb) (flat pa) =
    Done ((fun p => Meta img p.1 (Some p.2)) <$> filter (fun p => adds pb p) pa).
Proof.
  intros Hb Ha. induction pa as [|[k v] pa IH]; [done|]. apply plain_cons in Ha as (Hk & Hv & Ha).
  cbn [flat mbind list_bind app fst snd _get_tb_added_metadata_string_values]. fold (flat pa).
  rewrite compare_key_flat by done. rewrite filter_cons. cbn [fst snd].
  destruct (assoc k pb) as [v'|] eqn:E; cbn [c_bind]; rewrite atoi_show by done; cbn [c_bind]; rewrite IH by done; cbn [c_bind].
  - destruct (String.eqb_spec v' v) as [->|Hne], (String.eqb_spec v "") as [Hv0|Hv0]; cbn [negb orb andb];
      case_decide as Hd; try done; exfalso; naive_solver.
  - destruct (String.eqb_spec v "") as [Hv0|Hv0]; cbn [negb orb andb]; case_decide as Hd; try done; exfalso; naive_solver.
Qed.

(** ** Lemmas: the rows of an image *)

Definition row_key (r : meta_row) : Z * Z := (md_id r, md_key r).

(** Every key of an image has one row, with a text that is not empty and not the number
    of a key. *)
Definition metadata_ok (l : library) : Prop :=
  NoDup (row_key <$> meta_data l) /\
  Forall (fun r => md_key r ∈ all_keys /\ exists v, md_value r = Some v /\ v <> "" /\ v ∉ key_texts) (meta_data l).

Definition non_empty (v : option string) : option string :=
  match v with Some v => if String.eqb v "" then None else Some v | None => None end.

Definition row_value (id k : Z) (rows : list meta_row) : option string :=
  match filter (fun r => row_key r = (id, k)) rows with
  | r :: _ => non_empty (md_value r)
  | [] => None
  end.

(** What an image has for each key, and what a list says. *)
Definition metadata_view (l : library) (id : Z) : list (option string) := map (fun k => row_value id k (meta_data l)) all_keys.

Fixpoint pairs_of (l : list string) : list (Z * string) :=
  match l with
  | k :: v :: l => (match atoi k with Done n => n | Undefined => 0 end, v) :: pairs_of l
  | _ => []
  end.

Definition metadata_repr (l : list string) : list (option string) := map (fun k => non_empty (assoc k (pairs_of l))) all_keys.

Lemma pairs_of_flat ps : plain ps -> pairs_of (flat ps) = ps.
Proof.
  induction ps as [|[k v] ps IH]; [done|]. intros (Hk & _ & Hps)%plain_cons. cbn. rewrite atoi_show by done.
  f_equal. by apply IH.
Qed.

Lemma non_empty_Some v w : non_empty v = Some w <-> v = Some w /\ w <> "".
Proof. destruct v as [v|]; cbn; [destruct (String.eqb_spec v "") as [->|]|]; split; [done|intros []|..]; naive_solver. Qed.

Lemma row_value_Some id k rows v : NoDup (row_key <$> rows) ->
  row_value id k rows = Some v <-> Meta id k (Some v) ∈ rows /\ v <> "".
Proof.
  intros Hnd. unfold row_value. split.
  - destruct (filter _ rows) as [|r l] eqn:E; [done|]. intros [Hv Hne]%non_empty_Some.
    assert (r ∈ filter (fun r => row_key r = (id, k)) rows) as [Hk Hr]%list_elem_of_filter by (rewrite E; by left).
    destruct r as [i k' v']. cbn in Hv. injection Hk as -> ->. by subst v'.
  - intros [Hin Hne]. destruct (filter _ rows) as [|r l] eqn:E.
    { assert (Meta id k (Some v) ∈ filter (fun r => row_key r = (id, k)) rows) as Hf by (by apply list_elem_of_filter).
      rewrite E in Hf. by apply not_elem_of_nil in Hf. }
    assert (r ∈ filter (fun r => row_key r = (id, k)) rows) as [Hk Hr]%list_elem_of_filter by (rewrite E; by left).
    assert (r = Meta id k (Some v)) as ->; [|by apply non_empty_Some].
    apply list_elem_of_lookup in Hin as [i Hi], Hr as [j Hj].
    assert (i = j) as ->; [|congruence]. eapply NoDup_lookup; [exact Hnd|..]; rewrite list_lookup_fmap.
    + by rewrite Hi.
    + rewrite Hj. cbn. by rewrite Hk.
Qed.

Lemma option_ext {A} (x y : option A) : (forall v, x = Some v <-> y = Some v) -> x = y.
Proof. intros H. destruct x as [a|], y as [b|]; try done; [by apply H|symmetry; by apply H|by apply H]. Qed.

(** ** The promise *)

Lemma view_rows l id ps k v :
  metadata_ok l -> map (fun k => non_empty (assoc k ps)) all_keys = metadata_view l id -> k ∈ all_keys ->
  (assoc k ps = Some v /\ v <> "") <-> Meta id k (Some v) ∈ meta_data l.
Proof.
  intros [Hnd Hall] Hv Hk. unfold metadata_view in Hv. rewrite map_ext_in_iff in Hv.
  specialize (Hv k (proj1 (list_elem_of_In _ _) Hk)). cbn in Hv.
  rewrite <- non_empty_Some, Hv, row_value_Some by done. split; [tauto|]. intros Hin. split; [done|].
  rewrite Forall_forall in Hall. destruct (Hall _ Hin) as (_ & w & Hw & Hne & _). cbn in Hw. congruence.
Qed.

(** The rows after the difference has been applied. *)
Definition new_rows (i : Z) (pb pa : list (Z * string)) (rows : list meta_row) : list meta_row :=
  filter (fun r => ~ (md_id r = i /\ md_key r ∈ (filter (fun p => removes pa p) pb).*1)) rows ++
  ((fun p => Meta i p.1 (Some p.2)) <$> filter (fun p => adds pb p) pa).

Lemma execute_flat i pb pa l : 0 < i -> plain pb -> plain pa ->
  _pop_undo_execute i (flat pb) (flat pa) l = Done (set_meta_data (new_rows i pb pa (meta_data l)) l).
Proof.
  intros Hi Hb Ha. unfold _pop_undo_execute. rewrite removed_flat, added_flat by done. cbn [c_bind].
  unfold _bulk_add_metadata, _bulk_remove_metadata, new_rows. destruct (Z.gtb_spec i 0); [|lia]. cbn [andb].
  case_bool_decide as Hr; [|done]. cbn [negb]. rewrite Hr. do 2 f_equal. f_equal. symmetry. apply filter_all.
  intros r _ [_ Hn]. by apply not_elem_of_nil in Hn.
Qed.

Lemma elem_new_rows i pb pa rows r :
  r ∈ new_rows i pb pa rows <->
    (r ∈ rows /\ ~ (md_id r = i /\ exists v, (md_key r, v) ∈ pb /\ removes pa (md_key r, v))) \/
    (exists k v, r = Meta i k (Some v) /\ (k, v) ∈ pa /\ adds pb (k, v)).
Proof.
  unfold new_rows. rewrite elem_of_app, list_elem_of_filter, !list_elem_of_fmap.
  assert ((exists y, md_key r = y.1 /\ y ∈ filter (fun p => removes pa p) pb) <->
          exists v, (md_key r, v) ∈ pb /\ removes pa (md_key r, v)) as ->.
  { split; [intros ([k v] & Hk & [Hr Hin]%list_elem_of_filter); cbn in Hk; subst k; by exists v|].
    intros (v & Hin & Hr). exists (md_key r, v). by rewrite list_elem_of_filter. }
  assert ((exists y, r = Meta i y.1 (Some y.2) /\ y ∈ filter (fun p => adds pb p) pa) <->
          exists k v, r = Meta i k (Some v) /\ (k, v) ∈ pa /\ adds pb (k, v)) as ->; [|tauto].
  split; [intros ([k v] & -> & [Hr Hin]%list_elem_of_filter); by exists k, v|].
  intros (k & v & -> & Hin & Hr). exists (k, v). by rewrite list_elem_of_filter.
Qed.

Lemma new_rows_ok i pb pa l :
  metadata_ok l -> NoDup pb.*1 -> NoDup pa.*1 -> plain pb -> plain pa ->
  map (fun k => non_empty (assoc k pb)) all_keys = metadata_view l i ->
  metadata_ok (set_meta_data (new_rows i pb pa (meta_data l)) l).
Proof.
  intros Hok Hnb Hna Hb Ha Hv. pose proof Hok as [Hnd Hall]. split; cbn [meta_data set_meta_data].
  - unfold new_rows. rewrite fmap_app. apply NoDup_app. split; [by apply NoDup_fmap_filter|]. split.
    + intros rk (r & -> & [Hnot Hr]%list_elem_of_filter)%list_elem_of_fmap Hin.
      rewrite <- list_fmap_compose in Hin. apply list_elem_of_fmap in Hin as ([k v] & Hk & [[Hadd Hne] Hp]%list_elem_of_filter).
      cbn in Hk. destruct r as [id k' w]. injection Hk as -> ->. cbn in Hadd, Hne. apply Hnot. split; [done|]. cbn.
      rewrite Forall_forall in Hall. destruct (Hall _ Hr) as (Hk & w' & Hw & Hwne & _). cbn in Hk, Hw. subst w.
      apply (view_rows l i pb k w' Hok Hv Hk) in Hr as [Hr _]. apply elem_assoc in Hp; [|done].
      apply list_elem_of_fmap. exists (k, w'). split; [done|]. apply list_elem_of_filter. cbn. split; [|by apply elem_assoc].
      left. rewrite Hp. congruence.
    + rewrite <- list_fmap_compose. apply (NoDup_fmap_1 snd). rewrite <- list_fmap_compose. by apply NoDup_fmap_filter.
  - apply Forall_forall. intros r [[Hr _]|(k & v & -> & Hp & Hadd & Hne)]%elem_new_rows.
    + rewrite Forall_forall in Hall. by apply Hall.
    + unfold plain in Ha. rewrite Forall_forall in Ha. destruct (Ha _ Hp) as [Hk Hval]. cbn in *. eauto.
Qed.

Lemma new_rows_view i pb pa l k v :
  metadata_ok l -> NoDup pb.*1 -> NoDup pa.*1 -> k ∈ all_keys ->
  map (fun k => non_empty (assoc k pb)) all_keys = metadata_view l i ->
  Meta i k (Some v) ∈ new_rows i pb pa (meta_data l) <-> assoc k pa = Some v /\ v <> "".
Proof.
  intros Hok Hnb Hna Hk Hv. rewrite elem_new_rows. cbn. split.
  - intros [[Hin Hnot]|(k' & w & [= <- <-] & Hp & Hadd & Hne)].
    + apply (view_rows l i pb k v Hok Hv Hk) in Hin as [Hp Hne]. split; [|done].
      destruct (decide (assoc k pa = Some v)) as [|Hd]; [done|]. exfalso. apply Hnot. split; [done|].
      exists v. split; [by apply elem_assoc|by left].
    + split; [|done]. by apply elem_assoc.
  - intros [Hp Hne]. destruct (decide (assoc k pb = Some v)) as [Hb|Hd].
    + left. split; [by apply (view_rows l i pb k v Hok Hv Hk)|]. intros (_ & w & Hw & Hr). apply elem_assoc in Hw; [|done].
      assert (w = v) as -> by congruence. by destruct Hr.
    + right. exists k, v. split; [done|]. split; [by apply elem_assoc|done].
Qed.

#[export] Instance metadata_spec `{RowOrder} :
  AttributeSpec library (list string) (list (option string)) metadata_view metadata_repr metadata_ok (fun _ => list_ok).
Proof.
  split.
  - intros i s Hs _. pose proof Hs as [Hnd Hall]. do 2 eexists. split; [reflexivity|].
    set (ps := (fun r => (md_key r, default "" (md_value r))) <$> rows_of i s).
    assert (forall r, r ∈ rows_of i s <-> md_id r = i /\ r ∈ meta_data s) as Hrows.
    { intros r. unfold rows_of. by rewrite elem_of_scan, list_elem_of_filter. }
    assert (dt_metadata_get_list_id i s = flat ps) as ->.
    { unfold dt_metadata_get_list_id, flat, ps. clear. induction (rows_of i s) as [|r rs IH]; [done|]. cbn in *. by rewrite IH. }
    assert (NoDup ps.*1) as Hps.
    { unfold ps. rewrite <- list_fmap_compose. unfold rows_of. rewrite scan_Permutation.
      apply (NoDup_fmap_1 (pair i)). rewrite <- list_fmap_compose.
      rewrite (list_fmap_ext _ row_key); [by apply NoDup_fmap_filter|].
      intros j r Hr%list_elem_of_lookup_2%list_elem_of_filter. destruct Hr as [<- _]. done. }
    assert (plain ps) as Hplain.
    { unfold ps, plain. apply Forall_fmap, Forall_forall. intros r [_ Hr]%Hrows. cbn.
      rewrite Forall_forall in Hall. destruct (Hall r Hr) as (Hk & v & -> & _ & Hv). done. }
    split; [done|]. split; [by exists ps|]. split; [|done].
    unfold metadata_repr, metadata_view. rewrite pairs_of_flat by done. apply map_ext_in. intros k Hk%list_elem_of_In.
    apply option_ext. intros v. rewrite non_empty_Some, row_value_Some, <- elem_assoc by done. split.
    + intros [(r & [= -> ->] & [<- Hr]%Hrows)%list_elem_of_fmap Hne]. split; [|done].
      destruct r as [id k v]. rewrite Forall_forall in Hall. destruct (Hall _ Hr) as (_ & w & Hw & _). cbn in *. by subst v.
    + intros [Hr Hne]. split; [|done]. apply list_elem_of_fmap. exists (Meta i k (Some v)). split; [done|]. by apply Hrows.
  - intros i b a s Hs Hi (pb & -> & Hnb & Hb) (pa & -> & Hna & Ha) Hv.
    unfold metadata_repr in Hv. rewrite pairs_of_flat in Hv by done. eexists. split; [by apply execute_flat|].
    pose proof (new_rows_ok i pb pa s Hs Hnb Hna Hb Ha Hv) as Hok. split; [done|]. split; [|split; [|done]].
    + unfold metadata_view, metadata_repr. rewrite pairs_of_flat by done. apply map_ext_in. intros k Hk%list_elem_of_In.
      apply option_ext. intros v. rewrite row_value_Some, non_empty_Some by apply Hok. cbn.
      pose proof (new_rows_view i pb pa s k v Hs Hnb Hna Hk Hv). tauto.
    + intros j Hj. unfold metadata_view. apply map_ext. intros k. apply option_ext. intros v.
      rewrite !row_value_Some; [|apply Hs|apply Hok]. cbn. rewrite elem_new_rows. cbn.
      split; [|naive_solver]. intros [[[Hin _]|(k' & w & [= -> _ _] & _)] Hne]; [done|done].
Qed.

(** ** Lemmas: the changes *)

(** A value replaced or a pair appended. *)
Definition set_assoc (k : Z) (v : string) (ps : list (Z * string)) : list (Z * string) :=
  match assoc k ps with
  | Some _ => map (fun p => if p.1 =? k then (k, v) else p) ps
  | None => ps ++ [(k, v)]
  end.

Lemma set_assoc_keys k v ps : (set_assoc k v ps).*1 = if assoc k ps then ps.*1 else ps.*1 ++ [k].
Proof.
  unfold set_assoc. destruct (assoc k ps); [|by rewrite fmap_app].
  induction ps as [|[k' w] ps IH]; [done|]. cbn. rewrite IH. by destruct (Z.eqb_spec k' k) as [->|].
Qed.

Lemma assoc_None k ps : assoc k ps = None <-> k ∉ ps.*1.
Proof.
  induction ps as [|[k' v'] ps IH]; cbn; [split; [intros _; apply not_elem_of_nil|done]|].
  rewrite not_elem_of_cons. destruct (Z.eqb_spec k' k) as [->|Hne]; [split; [done|tauto]|]. rewrite IH. naive_solver.
Qed.

Lemma assoc_set k v ps k' : assoc k' (set_assoc k v ps) = if k' =? k then Some v else assoc k' ps.
Proof.
  unfold set_assoc. destruct (assoc k ps) as [w|] eqn:E; induction ps as [|[k2 w2] ps IH]; try done; cbn in *.
  - destruct (Z.eqb_spec k2 k) as [->|Hne]; cbn.
    + rewrite (Z.eqb_sym k k'). destruct (Z.eqb_spec k' k) as [->|Hk]; [done|].
      clear -Hk. induction ps as [|[k3 w3] ps IH]; [done|]. cbn. destruct (Z.eqb_spec k3 k) as [->|]; cbn; [|by rewrite IH].
      destruct (Z.eqb_spec k k'); [congruence|]. apply IH.
    + rewrite IH by done. destruct (Z.eqb_spec k2 k') as [->|]; [|done]. by destruct (Z.eqb_spec k' k).
  - by rewrite Z.eqb_sym.
  - destruct (Z.eqb_spec k2 k) as [->|Hne]; [done|]. rewrite IH by done.
    destruct (Z.eqb_spec k2 k') as [->|]; [|done]. by destruct (Z.eqb_spec k' k).
Qed.

Lemma set_assoc_ok k v ps :
  k ∈ all_keys -> v ∉ key_texts -> NoDup ps.*1 -> plain ps -> NoDup (set_assoc k v ps).*1 /\ plain (set_assoc k v ps).
Proof.
  intros Hk Hv Hnd Hps. split.
  - rewrite set_assoc_keys. destruct (assoc k ps) eqn:E; [done|]. apply assoc_None in E.
    apply NoDup_app. split; [done|]. split; [|apply NoDup_singleton]. intros j Hj ->%list_elem_of_singleton. done.
  - unfold set_assoc, plain in *. destruct (assoc k ps).
    + apply List.Forall_map. eapply Forall_impl; [exact Hps|]. intros p Hp. cbn. by destruct (p.1 =? k).
    + apply Forall_app. split; [done|]. by apply Forall_singleton.
Qed.

Lemma replace_flat k v ps :
  k ∈ all_keys -> NoDup ps.*1 -> plain ps -> is_Some (assoc k ps) -> replace_value (c_show_int k) v (flat ps) = flat (set_assoc k v ps).
Proof.
  intros Hk. unfold set_assoc. induction ps as [|[k' w] ps IH]; cbn; [by intros _ _ [? ?]|].
  intros Hnd (Hk' & Hw & Hps)%plain_cons Ha. inversion_clear Hnd as [|? ? Hni Hnd'].
  rewrite show_eqb by done. destruct (Z.eqb_spec k' k) as [->|Hne]; cbn.
  - do 2 f_equal. fold (flat ps). f_equal. symmetry. rewrite <- (map_id ps) at 2. apply map_ext_in.
    intros [k2 w2] Hin. cbn. destruct (Z.eqb_spec k2 k) as [->|]; [|done]. destruct Hni.
    by apply (list_elem_of_fmap_2 fst _ (k, w2)), list_elem_of_In.
  - rewrite value_not_key by done. fold (flat ps). rewrite IH by done. by destruct Ha as [? ->].
Qed.

Lemma add_flat pm ps :
  NoDup pm.*1 -> plain pm -> NoDup ps.*1 -> plain ps ->
  exists ps', _metadata_add_metadata_to_list (flat ps) (flat pm) = Done (flat ps') /\ NoDup ps'.*1 /\ plain ps' /\
    forall k, assoc k ps' = match assoc k pm with Some v => Some v | None => assoc k ps end.
Proof.
  revert ps. induction pm as [|[k v] pm IH]; intros ps Hndm Hm Hnd Hps; [by exists ps|].
  apply plain_cons in Hm as (Hk & Hv & Hm). inversion_clear Hndm as [|? ? Hni Hndm'].
  cbn [flat mbind list_bind app fst snd _metadata_add_metadata_to_list]. fold (flat pm).
  rewrite compare_key_flat by done.
  assert (exists ps1, (let* (same_key, different_value) :=
            Done (match assoc k ps with Some v' => (true, negb (String.eqb v' v)) | None => (false, false) end) in
            _metadata_add_metadata_to_list (if same_key : bool then if different_value : bool then replace_value (c_show_int k) v (flat ps)
                                            else flat ps else flat ps ++ [c_show_int k; v]) (flat pm)) =
          _metadata_add_metadata_to_list (flat ps1) (flat pm) /\ NoDup ps1.*1 /\ plain ps1 /\
          forall k', assoc k' ps1 = if k' =? k then Some v else assoc k' ps) as (ps1 & -> & Hnd1 & Hps1 & Has).
  { destruct (assoc k ps) as [w|] eqn:E; [destruct (String.eqb_spec w v) as [->|Hne]|]; cbn [c_bind negb].
    - exists ps. split_and!; try done. intros k'. by destruct (Z.eqb_spec k' k) as [->|].
    - rewrite replace_flat by done. exists (set_assoc k v ps). destruct (set_assoc_ok k v ps Hk Hv Hnd Hps).
      split_and!; try done. apply assoc_set.
    - exists (set_assoc k v ps). destruct (set_assoc_ok k v ps Hk Hv Hnd Hps). split_and!; try done; [|apply assoc_set].
      f_equal. unfold set_assoc. rewrite E. unfold flat. by rewrite bind_app. }
  destruct (IH ps1 Hndm' Hm Hnd1 Hps1) as (ps' & -> & Hnd' & Hps' & Has'). exists ps'. split_and!; try done.
  intros k'. rewrite Has', Has. cbn. rewrite (Z.eqb_sym k k'). destruct (Z.eqb_spec k' k) as [->|]; [|done].
  apply assoc_None in Hni. by rewrite Hni.
Qed.

Lemma plain_filter (P : Z * string -> Prop) `{!forall p, Decision (P p)} ps : plain ps -> plain (filter P ps).
Proof. unfold plain. rewrite !Forall_forall. intros Hps p [_ Hp]%list_elem_of_filter. by apply Hps. Qed.

Lemma remove_flat k ps :
  k ∈ all_keys -> NoDup ps.*1 -> plain ps ->
  remove_key (c_show_int k) (flat ps) = Done (flat (filter (fun p => p.1 <> k) ps)).
Proof.
  intros Hk. induction ps as [|[k' w] ps IH]; [done|]. intros Hnd (Hk' & Hw & Hps)%plain_cons.
  inversion_clear Hnd as [|? ? Hni Hnd']. cbn [flat mbind list_bind app fst snd remove_key]. fold (flat ps).
  rewrite show_eqb by done. rewrite filter_cons. cbn [fst]. destruct (Z.eqb_spec k' k) as [->|Hne].
  - rewrite decide_False by tauto. do 2 f_equal. symmetry. apply filter_all. intros [k2 w2] Hin. cbn. intros ->.
    apply Hni. by apply (list_elem_of_fmap_2 fst _ (k, w2)).
  - rewrite decide_True by done. rewrite value_not_key by done. rewrite IH by done. done.
Qed.

Lemma remove_all_flat ks ps :
  Forall (fun k => k ∈ all_keys) ks -> NoDup ps.*1 -> plain ps ->
  _metadata_remove_metadata_from_list (flat ps) (map (fun k => c_show_int k) ks) = Done (flat (filter (fun p => p.1 ∉ ks) ps)).
Proof.
  intros Hks. revert ps. induction Hks as [|k ks Hk _ IH]; intros ps Hnd Hps; cbn [map _metadata_remove_metadata_from_list].
  { f_equal. f_equal. symmetry. apply filter_all. intros p _. apply not_elem_of_nil. }
  rewrite remove_flat by done. cbn [c_bind]. rewrite IH.
  - do 2 f_equal. rewrite list_filter_filter. apply list_filter_iff. intros p. rewrite not_elem_of_cons. tauto.
  - by apply NoDup_fmap_filter.
  - by apply plain_filter.
Qed.

Lemma assoc_filter (k : Z) (ks : list Z) ps :
  assoc k (filter (fun p => p.1 ∉ ks) ps) = if decide (k ∈ ks) then None else assoc k ps.
Proof.
  induction ps as [|[k' v] ps IH]; [by destruct (decide (k ∈ ks))|]. rewrite filter_cons. cbn [fst assoc].
  destruct (Z.eqb_spec k' k) as [->|Hne].
  - destruct (decide (k ∈ ks)) as [Hin|Hin]; [rewrite decide_False by tauto|rewrite decide_True by done; cbn [assoc]]; [done|].
    by rewrite Z.eqb_refl.
  - destruct (decide (k' ∉ ks)); cbn [assoc]; [|exact IH]. destruct (Z.eqb_spec k' k); [done|exact IH].
Qed.

(** ** Properties *)

Section properties.
Context `{RowOrder}.

Abbreviation undo_t := (dt_undo_t (c_result library) unit (list (Z * list string * list string))).

(** What an action makes of the values of an image. *)
Definition metadata_result (action : dt_tag_actions_t) (metadata : list string) (old : list (option string)) : list (option string) :=
  match action with
  | DT_MA_SET => metadata_repr metadata
  | DT_MA_ADD =>
      zip_with (fun k o => match assoc k (pairs_of metadata) with Some v => non_empty (Some v) | None => o end) all_keys old
  | DT_MA_REMOVE => zip_with (fun k o => if decide (c_show_int k ∈ metadata) then None else o) all_keys old
  end.

(** Keys and values, or keys alone for a removal. *)
Definition argument_ok (action : dt_tag_actions_t) (metadata : list string) : Prop :=
  match action with
  | DT_MA_REMOVE => exists ks, metadata = map (fun k => c_show_int k) ks /\ Forall (fun k => k ∈ all_keys) ks
  | _ => list_ok metadata
  end.

Lemma zip_map {A B C} (f : A -> B -> C) (g : A -> B) l : zip_with f l (map g l) = map (fun a => f a (g a)) l.
Proof. induction l as [|a l IH]; [done|]. cbn. by rewrite IH. Qed.

Lemma metadata_good_change action metadata :
  argument_ok action metadata ->
  good_change (view := metadata_view) (repr := metadata_repr) (inv := metadata_ok) (ok := fun _ => list_ok)
    (fun _ => metadata_result action metadata) (metadata_change action metadata).
Proof.
  intros Ha i v s Hs _ (ps & -> & Hnd & Hps) _. unfold metadata_change.
  assert (exists ps', match action with
            | DT_MA_SET => Done metadata
            | DT_MA_ADD => _metadata_add_metadata_to_list (flat ps) metadata
            | DT_MA_REMOVE => _metadata_remove_metadata_from_list (flat ps) metadata
            end = Done (flat ps') /\ NoDup ps'.*1 /\ plain ps' /\
          metadata_repr (flat ps') = metadata_result action metadata (metadata_repr (flat ps))) as (ps' & -> & Hnd' & Hps' & Hr).
  { destruct action; cbn [argument_ok] in Ha.
    - destruct Ha as (pm & -> & Hndm & Hm). exists pm. by split_and!.
    - destruct Ha as (pm & -> & Hndm & Hm). destruct (add_flat pm ps Hndm Hm Hnd Hps) as (ps' & -> & Hnd' & Hps' & Has).
      exists ps'. split_and!; try done. unfold metadata_repr. cbn [metadata_result]. rewrite !pairs_of_flat, zip_map by done.
      apply map_ext. intros k. rewrite Has. by destruct (assoc k pm).
    - destruct Ha as (ks & -> & Hks). rewrite remove_all_flat by done. eexists. split; [reflexivity|].
      split; [by apply NoDup_fmap_filter|]. assert (plain (filter (fun p => p.1 ∉ ks) ps)) as Hf by (by apply plain_filter).
      split; [done|]. unfold metadata_repr. cbn [metadata_result]. rewrite !pairs_of_flat, zip_map by done.
      apply map_ext_in. intros k Hk%list_elem_of_In. rewrite assoc_filter.
      assert (c_show_int k ∈ map (fun k => c_show_int k) ks <-> k ∈ ks) as He.
      { rewrite list_elem_of_In, in_map_iff. split; [|intros Hin; exists k; by rewrite <- list_elem_of_In].
        intros (k' & Heq & Hin%list_elem_of_In). rewrite Forall_forall in Hks. specialize (Hks k' Hin). cbn in Hks.
        apply String.eqb_eq in Heq. rewrite show_eqb in Heq by done. by apply Z.eqb_eq in Heq as ->. }
      destruct (decide (k ∈ ks)); case_decide; try done; tauto. }
  cbn [c_bind]. do 3 eexists. split; [reflexivity|]. split; [done|]. split; [by exists ps'|]. done.
Qed.

(** C21: setting, adding or removing metadata of several images does to every image what the
    action says and leaves the others alone; undo gives all images their metadata back
    and redo changes them again, provided that no value is the number of a key. *)
Theorem metadata_undo_redo clock img metadata clear_on (u : undo_t) l filter
    (Hl : metadata_ok l) (Hmetadata : list_ok metadata) (Hne : img <> [])
    (Himg : NoDup img) (Hids : Forall (fun i => 0 < i < 2 ^ 31) img) (Hfilter : Z.land DT_UNDO_METADATA filter <> 0)
    (Hgroup : group u = DT_UNDO_NONE) (Hlock : locked u = false) (Hnext : disable_next u = false) :
  let result := metadata_result (if clear_on : bool then DT_MA_SET else DT_MA_ADD) metadata in
  exists u1 l1, dt_metadata_set_list_id clock img metadata clear_on true u l = Done (u1, l1) /\ metadata_ok l1 /\
    (forall i, metadata_view l1 i = if decide (i ∈ img) then result (metadata_view l i) else metadata_view l i) /\
    exists u2 l2 synched, dt_undo_do_undo u1 filter (Done l1) = Done (u2, Done l2, synched) /\
      (forall i, metadata_view l2 i = metadata_view l i) /\ (forall i, i ∈ synched <-> i ∈ img) /\
      exists l3 synched', dt_undo_do_redo u2 filter (Done l2) = Done (u1, Done l3, synched') /\
        (forall i, metadata_view l3 i = metadata_view l1 i).
Proof.
  cbn zeta. destruct img as [|i0 img]; [done|]. unfold dt_metadata_set_list_id, change_metadata.
  set (action := if clear_on then _ else _).
  assert (argument_ok action metadata) as Ha by (by destruct clear_on).
  destruct (attribute_undo_redo _ _ DT_UNDO_METADATA clock (i0 :: img) u l filter (metadata_good_change action metadata Ha)) as
    (u1 & l1 & res & -> & Hl1 & HF & Hrest & u2 & l2 & synched & Hu & _ & _ & Hv2 & Hs & l3 & synched' & Hr & _ & Hv3); try done.
  cbn [c_bind]. exists u1, l1. split; [done|]. split; [done|]. split; [|by eauto 10].
  intros i. case_decide; [|by apply Hrest]. by rewrite HF.
Qed.

(** An image whose only metadata is a text that is the number of another key: setting
    that other key reads behind the end of the list. *)
Theorem numeral_value_undefined clock act_on imgid n n' value undo_on (u : undo_t) l
    (Hid : 0 < imgid) (Hn : n ∈ all_keys) (Hn' : n' ∈ all_keys) (Hne : n <> n')
    (Hrows : filter (fun r => md_id r = imgid) (meta_data l) = [Meta imgid n (Some (c_show_int n'))]) :
  dt_metadata_set clock act_on imgid (dt_metadata_get_key n') value undo_on u l = Undefined.
Proof.
  assert (dt_metadata_get_keyid (dt_metadata_get_key n') = n' /\ is_Some (dt_metadata_get_key n')) as [Hk [k Hks]].
  { unfold all_keys in Hn'. apply list_elem_of_In in Hn'. cbn in Hn'.
    repeat destruct Hn' as [<-|Hn']; [(split; [done|by eexists])..|done]. }
  unfold dt_metadata_set. rewrite Hks in Hk |- *. rewrite Hk. apply all_keys_range in Hn' as Hr.
  destruct (Z.eqb_spec imgid 0), (Z.eqb_spec n' (-1)), (Z.eqb_spec imgid (-1)); [lia..|].
  unfold change_metadata, attr_change. destruct clock as [[t1 t2] t3]. cbn [attr_execute get_before metadata_attribute].
  assert (dt_metadata_get_list_id imgid l = [c_show_int n; c_show_int n']) as ->.
  { unfold dt_metadata_get_list_id, rows_of. rewrite Hrows.
    assert (scan [Meta imgid n (Some (c_show_int n'))] = [Meta imgid n (Some (c_show_int n'))]) as ->
      by (apply Permutation_singleton_r, scan_Permutation). done. }
  unfold metadata_change. cbn [_metadata_add_metadata_to_list]. unfold compare_key. cbn [find_key].
  rewrite show_eqb by done. destruct (Z.eqb_spec n n'); [done|]. rewrite String.eqb_refl. done.
Qed.

End properties.

Module Example.

#[export] Instance backwards : RowOrder := { scan := rev; scan_Permutation A l := symmetry (Permutation_rev l) }.

Definition described : library :=
  Library [] [] [] [Meta 7 2 (Some "Sunset"); Meta 3 0 (Some "me"); Meta 7 0 (Some "you")] [] [].

Lemma metadata_undo_redo_witness :
  exists u1 l1, dt_metadata_set_list_id (1, 2, 3) [3; 7] ["2"; "Dawn"; "0"; ""] false true dt_undo_init described = Done (u1, l1) /\
    metadata_ok l1 /\
    (forall i, metadata_view l1 i =
       if decide (i ∈ [3; 7]) then metadata_result DT_MA_ADD ["2"; "Dawn"; "0"; ""] (metadata_view described i)
       else metadata_view described i) /\
    exists u2 l2 synched, dt_undo_do_undo u1 DT_UNDO_LIGHTTABLE (Done l1) = Done (u2, Done l2, synched) /\
      (forall i, metadata_view l2 i = metadata_view described i) /\ (forall i, i ∈ synched <-> i ∈ [3; 7]) /\
      exists l3 synched', dt_undo_do_redo u2 DT_UNDO_LIGHTTABLE (Done l2) = Done (u1, Done l3, synched') /\
        (forall i, metadata_view l3 i = metadata_view l1 i).
Proof.
  apply (metadata_undo_redo (1, 2, 3) [3; 7] ["2"; "Dawn"; "0"; ""] false dt_undo_init described DT_UNDO_LIGHTTABLE); try done.
  - split; [apply (bool_decide_unpack _); vm_compute; done|].
    repeat constructor; try (apply (bool_decide_unpack _); vm_compute; done); eexists; (split; [reflexivity|]);
      (split; [done|]); apply (bool_decide_unpack _); vm_compute; done.
  - exists [(2, "Dawn"); (0, "")]. split; [reflexivity|]. split; [apply (bool_decide_unpack _); vm_compute; done|].
    repeat constructor; apply (bool_decide_unpack _); vm_compute; done.
  - apply (bool_decide_unpack _). vm_compute. done.
  - repeat constructor.
Defined.

(** Image 7 has the title "3"; it is given a description. *)
Lemma numeral_value_undefined_witness :
  dt_metadata_set (1, 2, 3) [] 7 (Some "Xmp.dc.description") (Some "Sunset") true dt_undo_init
    (Library [] [] [] [Meta 7 2 (Some "3")] [] []) = Undefined.
Proof.
  apply (numeral_value_undefined (1, 2, 3) [] 7 2 3); [reflexivity| | |done|reflexivity];
    apply (bool_decide_unpack _); vm_compute; done.
Defined.

(** With another text behind it, a value is taken for a key: removing the description of
    an image with creator "3" and title "x" makes "x" the creator and deletes the title. *)
Lemma numeral_value_shifts_pairs :
  _metadata_remove_metadata_from_list ["0"; "3"; "2"; "x"] ["3"] = Done ["0"; "x"].
Proof. reflexivity. Qed.

End Example.
