(* ===== verification/Tags.v ===== *)
(** Tags of images: common/tags.c as far as it keeps tags in the database and attaches
    them to images. Lists of tags for display and export are in [TagLists], keyword
    files are not modelled.

    A tag has a number and a name with its place in the hierarchy ("places|Rome"). Tags
    below "darktable|" are the program's own; their numbers are cached in the table
    memory.darktable_tags, which is filled before it is used when it is empty. Signals and
    the freeing of lists are left out. *)

From Stdlib Require Import Ascii String.
From S2P Require Import Prelude Utility Undo Library Attributes.
Local Open Scope Z_scope.

(** [LIKE 'darktable|%%']: ASCII letters of either case. *)
Definition ascii_lower (c : ascii) : ascii :=
  if (65 <=? Z_of_byte c) && (Z_of_byte c <=? 90) then byte_of_Z (Z_of_byte c + 32) else c.

Fixpoint like_prefix (p s : string) : bool :=
  match p, s with
  | "", _ => true
  | String a p, String b s => Ascii.eqb (ascii_lower a) (ascii_lower b) && like_prefix p s
  | _, _ => false
  end.

Definition is_dt_name (name : string) : bool := like_prefix "darktable|" name.

Inductive dt_tag_type_t := DT_TAG_TYPE_DT | DT_TAG_TYPE_USER | DT_TAG_TYPE_ALL.
Inductive dt_tag_actions_t := DT_TA_ATTACH | DT_TA_DETACH | DT_TA_SET | DT_TA_SET_ALL.

Definition set_tag (f : tag_row -> tag_row) (tagid : Z) (l : library) : library :=
  set_tags (map (fun t => if t_id t =? tagid then f t else t) (tags l)) l.

(** INSERT ... SELECT (IFNULL(MAX(position),0) & 0xFFFFFFFF00000000) + (1 << 32): SQLite
    reads the table before it inserts. *)
Definition next_position (l : library) : Z :=
  let m := match map ti_position (tagged_images l) with [] => 0 | p :: ps => foldr Z.max p ps end in
  Z.land m (- 2 ^ 32) + 2 ^ 32.

(** The numbers of the tags to be removed, and of those to be attached. *)
Definition _get_tb_removed_tag_string_values (before after : list Z) : list Z := filter (fun t => t ∉ after) before.
Definition _get_tb_added_tag_string_values (before after : list Z) : list Z := filter (fun t => t ∉ before) after.

Definition _bulk_remove_tags (img : Z) (tag_list : list Z) (l : library) : library :=
  if (img >? 0) && negb (bool_decide (tag_list = []))
  then set_tagged_images (filter (fun r => ~ (ti_imgid r = img /\ ti_tagid r ∈ tag_list)) (tagged_images l)) l else l.

Definition _bulk_add_tags (img : Z) (tag_list : list Z) (l : library) : library :=
  set_tagged_images (insert_unique ti_key (map (fun t => Tagged img t (next_position l)) tag_list) (tagged_images l)) l.

Definition _pop_undo_execute (imgid : Z) (before after : list Z) (l : library) : c_result library :=
  Done (_bulk_add_tags imgid (_get_tb_added_tag_string_values before after)
          (_bulk_remove_tags imgid (_get_tb_removed_tag_string_values before after) l)).

(** [g_list_prepend] of those that are not in the list yet, and whether there was one. *)
Fixpoint _tag_add_tags_to_list (l tags : list Z) : list Z * bool :=
  match tags with
  | [] => (l, false)
  | t :: tags =>
      if decide (t ∈ l) then _tag_add_tags_to_list l tags
      else (fst (_tag_add_tags_to_list (t :: l) tags), true)
  end.

(** [g_list_remove]: the first link with that data. *)
Fixpoint g_list_remove (t : Z) (l : list Z) : list Z :=
  match l with
  | [] => []
  | x :: l => if x =? t then l else x :: g_list_remove t l
  end.

Definition _tag_remove_tags_from_list (l tags : list Z) : list Z * bool :=
  let l' := foldl (fun l t => g_list_remove t l) l tags in
  (l', negb (length l' =? length l)%nat).

Section tags.
Context `{RowOrder}.

(** ** The table of tags *)

Definition find_tag (name : string) (l : library) : option Z :=
  head (t_id <$> scan (filter (fun t => t_name t = name) (tags l))).

Definition tag_by_id (tagid : Z) (l : library) : option tag_row :=
  head (scan (filter (fun t => t_id t = tagid) (tags l))).

Definition next_tag_id (l : library) : Z := foldr Z.max 0 (t_id <$> tags l) + 1.

(** The number of the tag, [None] when the function returns FALSE. *)
Definition dt_tag_new (name : option string) (l : library) : option Z * library :=
  match name with
  | None | Some "" => (None, l)
  | Some name =>
      match find_tag name l with
      | Some tagid => (Some tagid, l)
      | None =>
          let l := if String.prefix "darktable|" name then set_darktable_tags [] l else l in
          let l := set_tags (insert_unique t_name [Tag_row (next_tag_id l) name None None] (tags l)) l in
          (Some (default 0 (find_tag name l)), l)
      end
  end.

(** The number of images that had the tag. *)
Definition dt_tag_remove (tagid : Z) (final : bool) (l : library) : Z * library :=
  let count := Z.of_nat (length (filter (fun r => ti_tagid r = tagid) (tagged_images l))) in
  (count,
   if final then
     set_tagged_images (filter (fun r => ti_tagid r <> tagid) (tagged_images l))
       (set_tags (filter (fun t => t_id t <> tagid) (tags l)) l)
   else l).

Definition dt_tag_delete_tag_batch (flatlist : list Z) (l : library) : library :=
  set_tagged_images (filter (fun r => ti_tagid r ∉ flatlist) (tagged_images l))
    (set_tags (filter (fun t => t_id t ∉ flatlist) (tags l)) l).

(** Batches of 1001 tags; [flatlist] is the batch so far, of [count] tags. *)
Fixpoint remove_batches (tag_list flatlist : list Z) (count tcount : Z) (l : library) : Z * library :=
  match tag_list with
  | [] => if bool_decide (flatlist = []) then (tcount, l) else (wrap_u32 (tcount + count), dt_tag_delete_tag_batch flatlist l)
  | tagid :: tag_list =>
      let flatlist := flatlist ++ [tagid] in
      let count := count + 1 in
      if count >? 1000 then remove_batches tag_list [] 0 (wrap_u32 (tcount + count)) (dt_tag_delete_tag_batch flatlist l)
      else remove_batches tag_list flatlist count tcount l
  end.

Definition dt_tag_remove_list (tag_list : list Z) (l : library) : Z * library := remove_batches tag_list [] 0 0 l.

Definition dt_tag_get_name (tagid : Z) (l : library) : option string := t_name <$> tag_by_id tagid l.

Definition dt_tag_exists (name : string) (l : library) : option Z := find_tag name l.

Definition dt_tag_rename (tagid : Z) (new_tagname : option string) (l : library) : library :=
  match new_tagname with
  | None | Some "" => l
  | Some name =>
      match dt_tag_exists name l with
      | Some _ => l
      | None => set_tag (fun t => Tag_row (t_id t) name (t_synonyms t) (t_flags t)) tagid l
      end
  end.

Definition dt_tag_get_tag_id_by_name (name : option string) (l : library) : Z :=
  default 0 (n ← name; find_tag n l).

(** ** Tags of images *)

Definition dt_set_darktable_tags (l : library) : library :=
  if bool_decide (darktable_tags l = [])
  then set_darktable_tags (t_id <$> filter (fun t => is_dt_name (t_name t)) (tags l)) l else l.

Definition _tag_get_tags (imgid : Z) (type : dt_tag_type_t) (l : library) : list Z * library :=
  if imgid <? 0 then ([], l)
  else
    let l := dt_set_darktable_tags l in
    let ids := filter (fun t => Exists (fun r => t_id r = t) (tags l))
                      (ti_tagid <$> filter (fun r => ti_imgid r = imgid) (tagged_images l)) in
    let ids := match type with
               | DT_TAG_TYPE_ALL => ids
               | DT_TAG_TYPE_DT => filter (fun t => t ∈ darktable_tags l) ids
               | DT_TAG_TYPE_USER => filter (fun t => t ∉ darktable_tags l) ids
               end in
    (rev (scan (remove_dups ids)), l).

Definition dt_tag_get_tags (imgid : Z) (ignore_dt_tags : bool) (l : library) : list Z * library :=
  _tag_get_tags imgid (if ignore_dt_tags then DT_TAG_TYPE_USER else DT_TAG_TYPE_ALL) l.

#[export] Instance tags_attribute : Attribute library (list Z) := {
  get_before imgid l := _tag_get_tags imgid DT_TAG_TYPE_ALL l;
  execute := _pop_undo_execute;
}.

Definition tags_change (action : dt_tag_actions_t) (tags : list Z) : Z -> list Z -> library -> c_result (list Z * bool * library) :=
  fun imgid before l =>
    match action with
    | DT_TA_ATTACH => let (after, res) := _tag_add_tags_to_list before tags in Done (after, res, l)
    | DT_TA_DETACH => let (after, res) := _tag_remove_tags_from_list before tags in Done (after, res, l)
    | DT_TA_SET => let (dttags, l) := _tag_get_tags imgid DT_TAG_TYPE_DT l in Done (tags ++ dttags, true, l)
    | DT_TA_SET_ALL => Done (tags, true, l)
    end.

Definition _tag_execute (action : dt_tag_actions_t) (tags : list Z) := attr_execute (tags_change action tags).

Abbreviation undo_t := (dt_undo_t (c_result library) unit (list (Z * list Z * list Z))).

(** With its group in the undo lists, if there are images. *)
Definition change_tags (clock : Z * Z * Z) (action : dt_tag_actions_t) (tags : list Z) (undo_on : bool) (imgs : list Z)
    (u : undo_t) (l : library) : c_result (undo_t * library * bool) :=
  match imgs with
  | [] => Done (u, l, false)
  | _ => attr_change DT_UNDO_TAGS undo_on clock (tags_change action tags) imgs u l
  end.

Definition dt_tag_attach_images (clock : Z * Z * Z) (tagid : Z) (img : list Z) (undo_on : bool) :=
  change_tags clock DT_TA_ATTACH [tagid] undo_on img.

Definition dt_tag_detach_images (clock : Z * Z * Z) (tagid : Z) (img : list Z) (undo_on : bool) :=
  change_tags clock DT_TA_DETACH [tagid] undo_on img.

Definition dt_tag_set_tags (clock : Z * Z * Z) (tags img : list Z) (ignore_dt_tags clear_on undo_on : bool) :=
  change_tags clock (if clear_on then if ignore_dt_tags then DT_TA_SET else DT_TA_SET_ALL else DT_TA_ATTACH) tags undo_on img.

Definition dt_is_tag_attached (tagid imgid : Z) (l : library) : bool :=
  bool_decide ((imgid, tagid) ∈ (ti_key <$> tagged_images l)).

(** [act_on group]: dt_view_get_images_to_act_on. *)
Definition dt_tag_attach (clock : Z * Z * Z) (act_on : bool -> list Z) (tagid imgid : Z) (undo_on group_on : bool)
    (u : undo_t) (l : library) : c_result (undo_t * library * bool) :=
  if imgid =? -1 then dt_tag_attach_images clock tagid (act_on (negb group_on)) undo_on u l
  else if dt_is_tag_attached tagid imgid l then Done (u, l, false)
  else dt_tag_attach_images clock tagid [imgid] undo_on u l.

(** [grouped]: dt_grouping_add_grouped_images. *)
Definition dt_tag_detach (clock : Z * Z * Z) (act_on : bool -> list Z) (grouped : list Z -> list Z) (tagid imgid : Z)
    (undo_on group_on : bool) : undo_t -> library -> c_result (undo_t * library * bool) :=
  let imgs := if imgid =? -1 then act_on true else [imgid] in
  dt_tag_detach_images clock tagid (if group_on then grouped imgs else imgs) undo_on.

Definition dt_tag_detach_by_string (clock : Z * Z * Z) (act_on : bool -> list Z) (grouped : list Z -> list Z)
    (name : option string) (imgid : Z) (undo_on group_on : bool) (u : undo_t) (l : library) : c_result (undo_t * library * bool) :=
  match name with
  | None | Some "" => Done (u, l, false)
  | Some name =>
      match dt_tag_exists name l with
      | None => Done (u, l, false)
      | Some tagid => dt_tag_detach clock act_on grouped tagid imgid undo_on group_on u l
      end
  end.

(** The tags of the text, created where they do not exist; in reverse order. *)
Fixpoint create_tags (tokens : list string) (tagl : list Z) (l : library) : list Z * library :=
  match tokens with
  | [] => (tagl, l)
  | e :: tokens =>
      let e := strip g_ascii_isspace e in
      if String.eqb e "" then create_tags tokens tagl l
      else let (tagid, l) := dt_tag_new (Some e) l in create_tags tokens (default 0 tagid :: tagl) l
  end.

Definition dt_tag_attach_string_list (clock : Z * Z * Z) (tags : string) (img : list Z) (undo_on : bool)
    (u : undo_t) (l : library) : c_result (undo_t * library * bool) :=
  let (tagl, l) := create_tags (g_strsplit "," tags) [] l in
  change_tags clock DT_TA_ATTACH tagl undo_on img u l.

Definition dt_tag_get_images_from_list (img : list Z) (tagid : Z) (l : library) : list Z :=
  ti_imgid <$> scan (filter (fun r => ti_tagid r = tagid /\ ti_imgid r ∈ img) (tagged_images l)).

Definition dt_tag_images_count (tagid : Z) (l : library) : Z :=
  Z.of_nat (length (remove_dups (ti_imgid <$> filter (fun r => ti_tagid r = tagid) (tagged_images l)))).

Definition dt_selected_images_count (l : library) : Z := Z.of_nat (length (selected_images l)).

(** ** Lemmas: lists *)

Lemma add_tags_spec l tags :
  NoDup l -> NoDup (fst (_tag_add_tags_to_list l tags)) /\
  (forall t, t ∈ fst (_tag_add_tags_to_list l tags) <-> t ∈ l \/ t ∈ tags) /\
  (snd (_tag_add_tags_to_list l tags) = true <-> exists t, t ∈ tags /\ t ∉ l).
Proof.
  revert l. induction tags as [|t0 tags IH]; intros l Hnd; cbn [_tag_add_tags_to_list].
  { split; [done|]. split; [intros t; set_solver|]. split; [done|]. intros (t & Ht & _). by apply not_elem_of_nil in Ht. }
  case_decide as Hin.
  - destruct (IH l Hnd) as (H1 & H2 & H3). split; [done|]. split; [intros t; rewrite H2; set_solver|].
    rewrite H3. split; intros (t & Ht & Hn); exists t; set_solver.
  - destruct (IH (t0 :: l)) as (H1 & H2 & _); [by constructor|]. cbn [fst snd]. split; [done|].
    split; [intros t; rewrite H2; set_solver|]. split; [|done]. intros _. exists t0. set_solver.
Qed.

Lemma g_list_remove_spec t l : NoDup l ->
  NoDup (g_list_remove t l) /\ forall x, x ∈ g_list_remove t l <-> x ∈ l /\ x <> t.
Proof.
  induction 1 as [|y l Hy Hnd IH]; cbn; [split; [constructor|set_solver]|]. destruct IH as [IH1 IH2].
  destruct (Z.eqb_spec y t) as [->|Hne]; [split; [done|set_solver]|].
  split; [constructor; [|done]; rewrite IH2; tauto|]. intros x. rewrite !elem_of_cons, IH2. naive_solver.
Qed.

Lemma remove_tags_spec l tags : NoDup l ->
  NoDup (fst (_tag_remove_tags_from_list l tags)) /\
  forall t, t ∈ fst (_tag_remove_tags_from_list l tags) <-> t ∈ l /\ t ∉ tags.
Proof.
  unfold _tag_remove_tags_from_list. cbn [fst]. revert l. induction tags as [|t0 tags IH]; intros l Hnd; cbn [foldl].
  { split; [done|set_solver]. }
  destruct (g_list_remove_spec t0 l Hnd) as [H1 H2]. destruct (IH _ H1) as [H3 H4]. split; [done|].
  intros t. rewrite H4, H2. set_solver.
Qed.

(** ** Lemmas: the tags of an image *)

Definition dt_ids (T : list tag_row) : list Z := t_id <$> filter (fun t => is_dt_name (t_name t)) T.

(** Numbers of tags are unique, an image has a tag once, and only tags that exist; the
    cached numbers are right if there are any. *)
Record tags_ok (T : list tag_row) (l : library) : Prop := {
  tok_table : tags l = T;
  tok_ids : NoDup (t_id <$> T);
  tok_keys : NoDup (ti_key <$> tagged_images l);
  tok_exist : Forall (fun r => ti_tagid r ∈ (t_id <$> T)) (tagged_images l);
  tok_dt : darktable_tags l = [] \/ darktable_tags l = dt_ids T;
}.

Definition tag_view (l : library) (imgid : Z) : gset Z :=
  list_to_set (ti_tagid <$> filter (fun r => ti_imgid r = imgid) (tagged_images l)).

Lemma elem_tag_view l i t : t ∈ tag_view l i <-> (i, t) ∈ (ti_key <$> tagged_images l).
Proof.
  unfold tag_view. rewrite elem_of_list_to_set, !list_elem_of_fmap. split.
  - intros (r & -> & [<- Hr]%list_elem_of_filter). by exists r.
  - intros (r & [= -> ->] & Hr). exists r. by rewrite list_elem_of_filter.
Qed.

Definition tag_list_ok (T : list tag_row) (l : library) (v : list Z) : Prop := NoDup v /\ Forall (fun t => t ∈ (t_id <$> T)) v.

Lemma set_dt_ok T l : tags_ok T l ->
  tags_ok T (dt_set_darktable_tags l) /\ tagged_images (dt_set_darktable_tags l) = tagged_images l /\
  darktable_tags (dt_set_darktable_tags l) = dt_ids T.
Proof.
  intros [H1 H2 H3 H4 H5]. unfold dt_set_darktable_tags. case_bool_decide as Hd.
  - rewrite H1. split; [|done]. split; cbn; auto.
  - destruct H5 as [|H5]; [done|]. split; [|done]. split; auto.
Qed.

Lemma get_tags_spec T i ty l : tags_ok T l -> 0 < i ->
  exists v l', _tag_get_tags i ty l = (v, l') /\ tags_ok T l' /\ tag_list_ok T l' v /\ (forall j, tag_view l' j = tag_view l j) /\
    (forall t, t ∈ v <-> t ∈ tag_view l i /\ match ty with
                                              | DT_TAG_TYPE_ALL => True
                                              | DT_TAG_TYPE_DT => t ∈ dt_ids T
                                              | DT_TAG_TYPE_USER => t ∉ dt_ids T
                                              end).
Proof.
  intros Hl Hi. unfold _tag_get_tags. destruct (Z.ltb_spec i 0); [lia|].
  destruct (set_dt_ok T l Hl) as (Hl' & Ht & Hd). do 2 eexists. split; [reflexivity|]. split; [done|].
  set (ids := match ty with DT_TAG_TYPE_ALL => _ | _ => _ end).
  assert (forall t, t ∈ ids <-> t ∈ tag_view l i /\ match ty with
            | DT_TAG_TYPE_ALL => True | DT_TAG_TYPE_DT => t ∈ dt_ids T | DT_TAG_TYPE_USER => t ∉ dt_ids T end) as Hids.
  { intros t. assert (Exists (fun r => t_id r = t) (tags (dt_set_darktable_tags l)) /\
        t ∈ (ti_tagid <$> filter (fun r => ti_imgid r = i) (tagged_images (dt_set_darktable_tags l))) <-> t ∈ tag_view l i) as Hall.
    { rewrite Ht. unfold tag_view. rewrite elem_of_list_to_set. split; [tauto|]. intros Hin. split; [|done].
      apply list_elem_of_fmap in Hin as (r & -> & [_ Hr]%list_elem_of_filter). rewrite (tok_table _ _ Hl'), Exists_exists.
      pose proof (tok_exist _ _ Hl) as He. rewrite Forall_forall in He. specialize (He r Hr).
      apply list_elem_of_fmap in He as (x & He & Hx). exists x. by rewrite He. }
    unfold ids. destruct ty; rewrite ?list_elem_of_filter, <- Hall, ?Hd; tauto. }
  assert (forall t, t ∈ rev (scan (remove_dups ids)) <-> t ∈ ids) as Hv.
  { intros t. rewrite list_elem_of_In, <- in_rev, <- list_elem_of_In, elem_of_scan, elem_of_remove_dups. done. }
  split; [split|split].
  - rewrite <- Permutation_rev. apply NoDup_scan, NoDup_remove_dups.
  - apply Forall_forall. intros t [Hin _]%Hv%Hids. apply elem_tag_view, list_elem_of_fmap in Hin as (r & [= _ ->] & Hr).
    pose proof (tok_exist _ _ Hl) as He. rewrite Forall_forall in He. by apply He.
  - intros j. unfold tag_view. by rewrite Ht.
  - intros t. by rewrite Hv, Hids.
Qed.

(** The rows after the difference has been applied. *)
Lemma execute_tags T i b a l :
  tags_ok T l -> 0 < i -> tag_list_ok T l b -> tag_list_ok T l a -> list_to_set b = tag_view l i ->
  exists l', _pop_undo_execute i b a l = Done l' /\ tags_ok T l' /\ tag_view l' i = list_to_set a /\
    (forall j, j <> i -> tag_view l' j = tag_view l j).
Proof.
  intros Hl Hi [Hnb Hb] [Hna Ha] Hv. unfold _pop_undo_execute. eexists. split; [reflexivity|].
  set (removed := _get_tb_removed_tag_string_values b a). set (added := _get_tb_added_tag_string_values b a).
  set (l1 := _bulk_remove_tags i removed l).
  assert (tagged_images l1 = filter (fun r => ~ (ti_imgid r = i /\ ti_tagid r ∈ removed)) (tagged_images l) /\
          tags l1 = tags l /\ darktable_tags l1 = darktable_tags l) as (Hl1 & Ht1 & Hd1).
  { unfold l1, _bulk_remove_tags. destruct (Z.gtb_spec i 0); [|lia]. cbn [andb]. case_bool_decide as Hr; cbn; [|done].
    split; [|done]. symmetry. apply filter_all. intros r _ [_ Hn]. rewrite Hr in Hn. by apply not_elem_of_nil in Hn. }
  assert (forall j t, (j, t) ∈ (ti_key <$> tagged_images l1) <-> (j, t) ∈ (ti_key <$> tagged_images l) /\ ~ (j = i /\ t ∈ removed)) as Hk1.
  { intros j t. rewrite Hl1, !list_elem_of_fmap. split.
    - intros (r & [= -> ->] & [Hn Hr]%list_elem_of_filter). split; [by exists r|done].
    - intros [(r & [= -> ->] & Hr) Hn]. exists r. by rewrite list_elem_of_filter. }
  assert (forall t, t ∈ b <-> (i, t) ∈ (ti_key <$> tagged_images l)) as Hbv.
  { intros t. rewrite <- elem_tag_view, <- Hv. by rewrite elem_of_list_to_set. }
  set (rows := map (fun t => Tagged i t (next_position l1)) added).
  assert (forall r, r ∈ rows <-> exists t, r = Tagged i t (next_position l1) /\ t ∈ added) as Hrows.
  { intros r. unfold rows. rewrite list_elem_of_In, in_map_iff. setoid_rewrite <- list_elem_of_In. naive_solver. }
  assert (NoDup (ti_key <$> (tagged_images l1 ++ rows))) as Hnd.
  { rewrite fmap_app. apply NoDup_app. split; [|split].
    - rewrite Hl1. apply NoDup_fmap_filter, Hl.
    - intros [j t] Hin (r & Hr & (t' & -> & [Hnb' _]%list_elem_of_filter)%Hrows)%list_elem_of_fmap.
      apply Hk1 in Hin as [Hin _]. injection Hr as -> ->. by apply Hnb', Hbv.
    - unfold rows. replace (ti_key <$> map (fun t => Tagged i t (next_position l1)) added) with (pair i <$> added)
        by (clear; induction added as [|t ts IH]; [done|cbn; by rewrite <- IH]).
      apply NoDup_fmap_2; [intros ?? [= ->]; done|]. by apply NoDup_filter. }
  assert (tagged_images (_bulk_add_tags i added l1) = tagged_images l1 ++ rows) as Hnew by (cbn; by apply insert_unique_fresh).
  assert (forall j t, t ∈ tag_view (_bulk_add_tags i added l1) j <->
            ((j, t) ∈ (ti_key <$> tagged_images l) /\ ~ (j = i /\ t ∈ removed)) \/ (j = i /\ t ∈ added)) as Hview.
  { intros j t. rewrite elem_tag_view, Hnew, fmap_app, elem_of_app, Hk1. f_equiv. rewrite list_elem_of_fmap. setoid_rewrite Hrows. split.
    - by intros (r & Hr & t' & -> & Ht'); injection Hr as -> ->.
    - intros [-> Ht]. exists (Tagged i t (next_position l1)). split; [done|]. by exists t. }
  split; [split|split].
  - cbn. by rewrite Ht1, (tok_table _ _ Hl).
  - apply Hl.
  - by rewrite Hnew.
  - rewrite Hnew. apply Forall_app. split.
    + rewrite Hl1. apply Forall_forall. intros r [_ Hr]%list_elem_of_filter. pose proof (tok_exist _ _ Hl) as He.
      rewrite Forall_forall in He. by apply He.
    + apply Forall_forall. intros r (t & -> & [_ Ht]%list_elem_of_filter)%Hrows. rewrite Forall_forall in Ha. by apply Ha.
  - cbn. rewrite Hd1. apply Hl.
  - apply set_eq. intros t. rewrite Hview, elem_of_list_to_set, <- Hbv. unfold removed, added.
    unfold _get_tb_removed_tag_string_values, _get_tb_added_tag_string_values. rewrite !list_elem_of_filter.
    destruct (decide (t ∈ a)), (decide (t ∈ b)); tauto.
  - intros j Hj. apply set_eq. intros t. rewrite Hview, elem_tag_view. tauto.
Qed.

#[export] Instance tags_spec T :
  AttributeSpec library (list Z) (gset Z) tag_view list_to_set (tags_ok T) (tag_list_ok T).
Proof.
  split.
  - intros i s Hs Hi. destruct (get_tags_spec T i DT_TAG_TYPE_ALL s Hs Hi) as (v & s' & Hg & Hs' & Hv & Hview & Hin).
    exists v, s'. split; [done|]. split; [done|]. split; [done|]. split; [|done].
    apply set_eq. intros t. rewrite elem_of_list_to_set, Hin. tauto.
  - intros i b a s Hs Hi Hb Ha Hv. destruct (execute_tags T i b a s Hs Hi Hb Ha Hv) as (s' & ? & ? & ? & ?).
    by exists s'.
Qed.

(** ** Properties *)

(** What an action makes of the tags of an image. *)
Definition tags_result (T : list tag_row) (action : dt_tag_actions_t) (tags : list Z) (old : gset Z) : gset Z :=
  match action with
  | DT_TA_ATTACH => old ∪ list_to_set tags
  | DT_TA_DETACH => old ∖ list_to_set tags
  | DT_TA_SET => list_to_set tags ∪ (old ∩ list_to_set (dt_ids T))
  | DT_TA_SET_ALL => list_to_set tags
  end.

(** Tags that exist and, when they replace others, each once and not one of the tags that
    are kept. *)
Definition argument_ok (T : list tag_row) (action : dt_tag_actions_t) (tags : list Z) : Prop :=
  Forall (fun t => t ∈ (t_id <$> T)) tags /\
  match action with
  | DT_TA_SET => NoDup tags /\ Forall (fun t => t ∉ dt_ids T) tags
  | DT_TA_SET_ALL => NoDup tags
  | _ => True
  end.

Lemma tags_good_change T action tags :
  argument_ok T action tags ->
  good_change (view := tag_view) (repr := list_to_set) (inv := tags_ok T) (ok := tag_list_ok T)
    (fun _ => tags_result T action tags) (tags_change action tags).
Proof.
  intros [Hin Hact] i v s Hs Hi [Hnd Hv] Hr. rewrite Forall_forall in Hin, Hv. unfold tags_change.
  destruct action; cbn [tags_result].
  - destruct (add_tags_spec v tags Hnd) as (H1 & H2 & _). destruct (_tag_add_tags_to_list v tags) as [a res]. cbn [fst] in H1, H2.
    exists a, res, s. split_and!; try done.
    + split; [done|]. apply Forall_forall. intros t [Ht|Ht]%H2; auto.
    + apply set_eq. intros t. rewrite elem_of_union, !elem_of_list_to_set. apply H2.
  - destruct (remove_tags_spec v tags Hnd) as (H1 & H2). destruct (_tag_remove_tags_from_list v tags) as [a res]. cbn [fst] in H1, H2.
    exists a, res, s. split_and!; try done.
    + split; [done|]. apply Forall_forall. intros t [Ht _]%H2; auto.
    + apply set_eq. intros t. rewrite elem_of_difference, !elem_of_list_to_set. apply H2.
  - destruct (get_tags_spec T i DT_TAG_TYPE_DT s Hs Hi) as (d & s' & -> & Hs' & [Hdn Hd] & Hview & Hdin).
    destruct Hact as [Htn Htd]. rewrite Forall_forall in Htd. do 3 eexists. split; [reflexivity|]. split; [done|]. split; [|split].
    + split; [apply NoDup_app; split; [done|split; [|done]]; intros t Ht [_ Hdt]%Hdin; by apply (Htd t)|].
      apply Forall_app. split; [by apply Forall_forall|done].
    + apply set_eq. intros t. rewrite elem_of_union, elem_of_intersection, Hr, !elem_of_list_to_set, elem_of_app, Hdin. done.
    + split; [done|]. done.
  - exists tags, true, s. split_and!; try done. split; [done|]. by apply Forall_forall.
Qed.

(** C13: attaching, detaching or setting the tags of several images gives every image the
    tags the action says, setting them without the program's own keeps those, and the
    other images stay as they are; undo gives all images their tags back and redo
    changes them again. *)
Theorem tags_undo_redo T clock action tags img (u : undo_t) l filter
    (Hl : tags_ok T l) (Htags : argument_ok T action tags) (Hne : img <> [])
    (Himg : NoDup img) (Hids : Forall (fun i => 0 < i < 2 ^ 31) img) (Hfilter : Z.land DT_UNDO_TAGS filter <> 0)
    (Hgroup : group u = DT_UNDO_NONE) (Hlock : locked u = false) (Hnext : disable_next u = false) :
  exists u1 l1 res, change_tags clock action tags true img u l = Done (u1, l1, res) /\ tags_ok T l1 /\
    (forall i, tag_view l1 i = if decide (i ∈ img) then tags_result T action tags (tag_view l i) else tag_view l i) /\
    exists u2 l2 synched, dt_undo_do_undo u1 filter (Done l1) = Done (u2, Done l2, synched) /\
      (forall i, tag_view l2 i = tag_view l i) /\ (forall i, i ∈ synched <-> i ∈ img) /\
      exists l3 synched', dt_undo_do_redo u2 filter (Done l2) = Done (u1, Done l3, synched') /\
        (forall i, tag_view l3 i = tag_view l1 i).
Proof.
  destruct img as [|i0 img]; [done|]. unfold change_tags.
  destruct (attribute_undo_redo _ _ DT_UNDO_TAGS clock (i0 :: img) u l filter (tags_good_change T action tags Htags)) as
    (u1 & l1 & res & -> & Hl1 & HF & Hrest & u2 & l2 & synched & Hu & _ & _ & Hv2 & Hs & l3 & synched' & Hr & _ & Hv3); try done.
  exists u1, l1, res. split; [done|]. split; [done|]. split; [|by eauto 10].
  intros i. case_decide; [|by apply Hrest]. by rewrite HF.
Qed.

(** A new tag gets a number of its own; an existing one is found again. *)
Lemma find_tag_spec name l tagid : NoDup (t_name <$> tags l) ->
  find_tag name l = Some tagid <-> exists r, r ∈ tags l /\ t_name r = name /\ t_id r = tagid.
Proof.
  intros Hnd. unfold find_tag. set (f := scan _).
  assert (forall r, r ∈ f <-> r ∈ tags l /\ t_name r = name) as Hf.
  { intros r. unfold f. rewrite elem_of_scan, list_elem_of_filter. tauto. }
  assert (forall r r', r ∈ f -> r' ∈ f -> r = r') as Huniq.
  { intros r r' [Hr <-]%Hf [Hr' He]%Hf. apply list_elem_of_lookup in Hr as [i Hi], Hr' as [j Hj].
    assert (i = j) as ->; [|congruence]. eapply NoDup_lookup; [exact Hnd|..]; rewrite list_lookup_fmap; [by rewrite Hi|].
    rewrite Hj. cbn. by rewrite He. }
  destruct f as [|r f']; cbn.
  - split; [done|]. intros (r & Hr & Hn & _). exfalso. apply (not_elem_of_nil r). by apply Hf.
  - split; [intros [= <-]; destruct (proj1 (Hf r)) as [Hr Hn]; [by left|by exists r]|].
    intros (r' & Hr' & Hn & <-). f_equal. f_equal. apply Huniq; [by left|by apply Hf].
Qed.

End tags.

Module Example.

#[export] Instance in_order : RowOrder := { scan _ l := l; scan_Permutation _ _ := reflexivity _ }.

Definition table : list tag_row :=
  [Tag_row 4 "places|Rome" None None; Tag_row 5 "darktable|changed" None None; Tag_row 9 "red" None (Some 1)].

Definition tagged : library := Library table [Tagged 7 5 (2 ^ 32); Tagged 3 9 (2 ^ 33); Tagged 7 9 (2 ^ 33)] [] [] [] [].

(** The tags of two images are set to Rome; image 7 keeps the tag of the program. *)
Lemma tags_undo_redo_witness :
  exists u1 l1 res, change_tags (1, 2, 3) DT_TA_SET [4] true [7; 3] dt_undo_init tagged = Done (u1, l1, res) /\ tags_ok table l1 /\
    (forall i, tag_view l1 i = if decide (i ∈ [7; 3]) then tags_result table DT_TA_SET [4] (tag_view tagged i) else tag_view tagged i) /\
    exists u2 l2 synched, dt_undo_do_undo u1 DT_UNDO_LIGHTTABLE (Done l1) = Done (u2, Done l2, synched) /\
      (forall i, tag_view l2 i = tag_view tagged i) /\ (forall i, i ∈ synched <-> i ∈ [7; 3]) /\
      exists l3 synched', dt_undo_do_redo u2 DT_UNDO_LIGHTTABLE (Done l2) = Done (u1, Done l3, synched') /\
        (forall i, tag_view l3 i = tag_view l1 i).
Proof.
  apply (tags_undo_redo table (1, 2, 3) DT_TA_SET [4] [7; 3] dt_undo_init tagged DT_UNDO_LIGHTTABLE); try done.
  - split; [reflexivity| | | |by left]; try (apply (bool_decide_unpack _); vm_compute; done).
  - split; [|split]; apply (bool_decide_unpack _); vm_compute; done.
  - apply (bool_decide_unpack _). vm_compute. done.
  - repeat constructor.
Defined.

End Example.
