(* ===== verification/TagLists.v ===== *)
(** Lists of tags for display, search and export, synonyms, flags and the order of images
    of a tag: the other half of common/tags.c.

    Flags are a 32-bit int; the order of images is kept in their upper half. *)

From Stdlib Require Import Ascii String.
From S2P Require Import Prelude Utility Library Tags.
Local Open Scope Z_scope.

Definition DT_TF_CATEGORY : Z := Z.shiftl 1 0.
Definition DT_TF_PRIVATE : Z := Z.shiftl 1 1.
Definition DT_TF_ORDER_SET : Z := Z.shiftl 1 2.
Definition DT_TF_DESCENDING : Z := Z.shiftl 1 31.
Definition DT_TF_ALL : Z := Z.lor (Z.lor DT_TF_CATEGORY DT_TF_PRIVATE) DT_TF_ORDER_SET.

Definition DT_META_PRIVATE_TAG : Z := Z.shiftl 1 16.
Definition DT_META_SYNONYMS_TAG : Z := Z.shiftl 1 17.
Definition DT_META_OMIT_HIERARCHY : Z := Z.shiftl 1 18.

Definition DT_TS_NO_IMAGE : Z := 0.
Definition DT_TS_SOME_IMAGES : Z := 1.
Definition DT_TS_ALL_IMAGES : Z := 2.

Record dt_tag_t := Tag {
  id : Z;
  tag : string;
  leave : string;
  synonym : option string;
  count : Z;
  select : Z;
  flags : Z;
}.

(** What stands behind the last bar of a name. *)
Definition leave_of (name : string) : string := default name (after_last "|" name).

Definition tag_of_row (count select : Z) (t : tag_row) : dt_tag_t :=
  Tag (t_id t) (t_name t) (leave_of (t_name t)) (t_synonyms t) count select (column_int (t_flags t)).

Definition selection (nb_selected imgnb : Z) : Z :=
  if nb_selected =? 0 then DT_TS_NO_IMAGE
  else if imgnb =? nb_selected then DT_TS_ALL_IMAGES
  else if imgnb =? 0 then DT_TS_NO_IMAGE else DT_TS_SOME_IMAGES.

(** ** Sorting *)

(** Bytes, capital letters as small ones. *)
Fixpoint g_ascii_strcasecmp (a b : string) : Z :=
  match a, b with
  | "", "" => 0
  | "", String d _ => 0 - Z_of_byte d
  | String c _, "" => Z_of_byte c
  | String c a, String d b =>
      let c1 := Z_of_byte (ascii_lower c) in
      let c2 := Z_of_byte (ascii_lower d) in
      if c1 =? c2 then g_ascii_strcasecmp a b else c1 - c2
  end.

Fixpoint replace_char (c d : ascii) (s : string) : string :=
  match s with
  | "" => ""
  | String x s => String (if Ascii.eqb x c then d else x) (replace_char c d s)
  end.

Definition one : ascii := "001"%char.

Definition set_tag_name (f : string -> string) (t : dt_tag_t) : dt_tag_t :=
  Tag (id t) (f (tag t)) (f (leave t)) (synonym t) (count t) (select t) (flags t).

Definition sort_tag_by_path (a b : dt_tag_t) : Z := g_ascii_strcasecmp (tag a) (tag b).
Definition sort_tag_by_leave (a b : dt_tag_t) : Z := g_ascii_strcasecmp (leave a) (leave b).
Definition sort_tag_by_count (a b : dt_tag_t) : Z := wrap_s32 (count b - count a).

(** The bars are replaced and put back in place; the leave of a tag is the end of the same
    text. *)
Definition dt_sort_tag (ts : list dt_tag_t) (sort_type : Z) : list dt_tag_t :=
  if sort_type <=? 1 then
    let ts := map (set_tag_name (replace_char "|" one)) ts in
    map (set_tag_name (replace_char one "|"))
        (g_list_sort (if sort_type =? 0 then sort_tag_by_path else sort_tag_by_leave) ts)
  else g_list_sort sort_tag_by_count ts.

Section lists.
Context `{RowOrder}.

(** ** Tags of images *)

Definition images_with (tagid : Z) (imgs : list Z) (l : library) : Z :=
  Z.of_nat (length (remove_dups (ti_imgid <$> filter (fun r => ti_tagid r = tagid /\ ti_imgid r ∈ imgs) (tagged_images l)))).

Definition by_name (a b : tag_row) : Z := g_strcmp0 (t_name a) (t_name b).

(** [act_on]: dt_view_get_images_to_act_on. *)
Definition dt_tag_get_attached (act_on : list Z) (imgid : Z) (ignore_dt_tags : bool) (l : library) : list dt_tag_t * library :=
  let l := dt_set_darktable_tags l in
  let images := if imgid >? 0 then [imgid] else act_on in
  let nb_selected := Z.of_nat (length images) in
  let chosen t := (0 <? images_with (t_id t) images l) && negb (ignore_dt_tags && bool_decide (t_id t ∈ darktable_tags l)) in
  (map (fun t => let imgnb := images_with (t_id t) images l in tag_of_row imgnb (selection nb_selected imgnb) t)
       (g_list_sort by_name (scan (filter chosen (tags l)))), l).

(** All tags whose name is the beginning of the name of a tag of the image. *)
Definition _tag_get_attached_export (imgid : Z) (l : library) : list dt_tag_t * library :=
  if imgid <=? 0 then ([], l)
  else
    let l := dt_set_darktable_tags l in
    let attached := filter (fun t => (imgid, t_id t) ∈ (ti_key <$> tagged_images l) /\ t_id t ∉ darktable_tags l) (tags l) in
    (map (tag_of_row 0 0) (scan (filter (fun t => existsb (fun t1 => String.prefix (t_name t) (t_name t1)) attached) (tags l))), l).

Definition dt_tag_get_list (omit_tag_hierarchy : bool) (act_on : list Z) (imgid : Z) (l : library) : list string * library :=
  let (taglist, l) := dt_tag_get_attached act_on imgid true l in
  let elements t :=
    let pch := g_strsplit "|" (tag t) in
    if omit_tag_hierarchy then match last pch with Some e => [e] | None => [] end else rev pch in
  (dt_util_glist_uniq (rev taglist ≫= elements), l).

Definition dt_tag_get_hierarchical (act_on : list Z) (imgid : Z) (l : library) : list string * library :=
  let (taglist, l) := dt_tag_get_attached act_on imgid true l in (tag <$> taglist, l).

Definition dt_tag_get_hierarchical_export (act_on : list Z) (imgid eflags : Z) (l : library) : list string * library :=
  let (taglist, l) := dt_tag_get_attached act_on imgid true l in
  let export_private_tags := negb (Z.land eflags DT_META_PRIVATE_TAG =? 0) in
  (tag <$> filter (fun t => export_private_tags || (Z.land (flags t) DT_TF_PRIVATE =? 0)) taglist, l).

(** ** Export *)

(** The text in front of the last [c]. *)
Fixpoint before_last (c : ascii) (s : string) : option string :=
  match s with
  | "" => None
  | String d s' =>
      match before_last c s' with
      | Some t => Some (String d t)
      | None => if Ascii.eqb d c then Some "" else None
      end
  end.

(** An entry of the same name that is a category or private. *)
Definition _is_not_exportable_tag (name : string) (a : dt_tag_t) : bool :=
  String.eqb (tag a) name && negb (Z.land (flags a) (Z.lor DT_TF_CATEGORY DT_TF_PRIVATE) =? 0).

(** The loop over the path of a tag; [fuel] is the length of its name. *)
Fixpoint path_elements (fuel : nat) (next : list dt_tag_t) (name : string) (acc : list string) : list string :=
  match fuel with
  | O => acc
  | S fuel =>
      match before_last "|" name with
      | None => acc
      | Some name =>
          path_elements fuel next name
            (if existsb (_is_not_exportable_tag name) next then acc else leave_of name :: acc)
      end
  end.

Definition skip_space (s : string) : string := match s with String " " s => s | _ => s end.

Definition synonym_list (synonyms : option string) : list string :=
  match synonyms with
  | None | Some "" => []
  | Some s => map skip_space (g_strsplit "," s)
  end.

Fixpoint export_loop (omit_tag_hierarchy export_private_tags export_tag_synonyms : bool) (sorted_tags : list dt_tag_t)
    (acc : list string) : list string :=
  match sorted_tags with
  | [] => acc
  | t :: next =>
      let acc :=
        if (export_private_tags || (Z.land (flags t) DT_TF_PRIVATE =? 0)) && (Z.land (flags t) DT_TF_CATEGORY =? 0) then
          let acc := leave t :: acc in
          let acc := if omit_tag_hierarchy then acc else path_elements (String.length (tag t)) next (tag t) acc in
          if export_tag_synonyms then acc ++ synonym_list (synonym t) else acc
        else acc in
      export_loop omit_tag_hierarchy export_private_tags export_tag_synonyms next acc
  end.

(** The loop that makes private tags exportable changes the first entry again and again. *)
Definition reset_private (ts : list dt_tag_t) : list dt_tag_t :=
  match ts with
  | [] => []
  | t :: ts => Tag (id t) (tag t) (leave t) (synonym t) (count t) (select t) (Z.land (flags t) (Z.lnot DT_TF_PRIVATE)) :: ts
  end.

Definition dt_tag_get_list_export (imgid eflags : Z) (l : library) : list string * library :=
  let has f := negb (Z.land eflags f =? 0) in
  let (taglist, l) := _tag_get_attached_export imgid l in
  let sorted_tags := rev (dt_sort_tag taglist 0) in
  let sorted_tags := if has DT_META_PRIVATE_TAG then reset_private sorted_tags else sorted_tags in
  (dt_util_glist_uniq
     (export_loop (has DT_META_OMIT_HIERARCHY) (has DT_META_PRIVATE_TAG) (has DT_META_SYNONYMS_TAG) sorted_tags []), l).

(** ** Searching *)

Definition usage (tagid : Z) (l : library) : Z := Z.of_nat (length (filter (fun r => ti_tagid r = tagid) (tagged_images l))).

(** All tags that are not the program's own, by name; how often they are used. *)
Definition dt_tag_get_with_usage (l : library) : list dt_tag_t * library :=
  let l := dt_set_darktable_tags l in
  let nb_selected := dt_selected_images_count l in
  (map (fun t => tag_of_row (usage (t_id t) l) (selection nb_selected (images_with (t_id t) (selected_images l) l)) t)
       (g_list_sort by_name (scan (filter (fun t => t_id t ∉ darktable_tags l) (tags l)))), l).

Definition suggestion_cmp (l : library) (a b : tag_row) : Z := usage (t_id b) l - usage (t_id a) l.

(** The most used tags that not all selected images have, without categories. *)
Definition dt_tag_get_suggestions (l : library) : list dt_tag_t * library :=
  let l := dt_set_darktable_tags l in
  let nb_selected := dt_selected_images_count l in
  let imgnb t := images_with (t_id t) (selected_images l) l in
  let chosen t :=
    (0 <? usage (t_id t) l) && negb (bool_decide (t_id t ∈ darktable_tags l)) &&
    negb ((0 <? imgnb t) && (imgnb t =? nb_selected)) && (Z.land (column_int (t_flags t)) 1 =? 0) in
  (map (fun t => tag_of_row (usage (t_id t) l) (selection nb_selected (imgnb t)) t)
       (take 500 (g_list_sort (suggestion_cmp l) (scan (filter chosen (tags l))))), l).

(** The tag of that name and those below it. *)
Definition similar_tags (keyword : string) (l : library) : list tag_row :=
  scan (filter (fun t => String.eqb (t_name t) keyword || String.prefix (keyword +:+ "|") (t_name t)) (tags l)).

Definition similar_images (keyword : string) (l : library) : list Z :=
  remove_dups (ti_imgid <$> filter (fun r => ti_tagid r ∈ (t_id <$> similar_tags keyword l)) (tagged_images l)).

Definition dt_tag_count_tags_images (keyword : option string) (l : library) : Z * Z :=
  match keyword with
  | None => (0, 0)
  | Some k => (Z.of_nat (length (similar_tags k l)), Z.of_nat (length (similar_images k l)))
  end.

(** Numbers and names of the tags, and the images. *)
Definition dt_tag_get_tags_images (keyword : option string) (l : library) : list (Z * string) * list Z :=
  match keyword with
  | None => ([], [])
  | Some k => ((fun t => (t_id t, t_name t)) <$> similar_tags k l, scan (similar_images k l))
  end.

Definition dt_tag_get_subtags (imgid : Z) (category : option string) (level : Z) (l : library) : option string :=
  match category with
  | None => None
  | Some category =>
      let rootnb := dt_util_string_count_char category "|" in
      let names := remove_dups (t_name <$> filter (fun t => (imgid, t_id t) ∈ (ti_key <$> tagged_images l) /\
                                                             String.prefix category (t_name t)) (tags l)) in
      let subtags := scan names ≫= fun tag =>
        if dt_util_string_count_char tag "|" >=? rootnb + level
        then match g_strsplit "|" tag !! Z.to_nat (rootnb + level) with Some t => [t] | None => [] end else [] in
      match subtags with [] => None | _ => Some (String.concat "," subtags) end
  end.

(** ** Synonyms and flags *)

Definition separator_of (c : ascii) : ascii :=
  if Ascii.eqb c ";" || Ascii.eqb c "010" then "," else if Ascii.eqb c "013" then " " else c.

Fixpoint str_map (f : ascii -> ascii) (s : string) : string :=
  match s with "" => "" | String c s => String (f c) (str_map f s) end.

(** The character in front of an empty token is read. *)
Fixpoint cleanup_tokens (tokens : list string) : c_result (list string) :=
  match tokens with
  | [] => Done []
  | t :: tokens =>
      if String.eqb t "" then Undefined else
      let* l := cleanup_tokens tokens in
      let e := strip (Ascii.eqb " ") t in
      Done (if String.eqb e "" then l else e :: l)
  end.

Definition dt_cleanup_synonyms (synonyms_entry : string) : c_result (option string) :=
  let* l := cleanup_tokens (g_strsplit "," (str_map separator_of synonyms_entry)) in
  Done (dt_util_glist_to_str ", " l).

Definition dt_tag_get_synonyms (tagid : Z) (l : library) : option string := t ← tag_by_id tagid l; t_synonyms t.

Definition put_synonyms (tagid : Z) (synonyms : option string) : library -> library :=
  set_tag (fun t => Tag_row (t_id t) (t_name t) synonyms (t_flags t)) tagid.

Definition dt_tag_set_synonyms (tagid : Z) (synonyms_entry : option string) (l : library) : c_result library :=
  match synonyms_entry with
  | None => Done l
  | Some entry => let* s := dt_cleanup_synonyms entry in Done (put_synonyms tagid s l)
  end.

Definition dt_tag_add_synonym (tagid : Z) (synonym : string) (l : library) : library :=
  put_synonyms tagid
    (Some (match dt_tag_get_synonyms tagid l with Some s => s +:+ ", " +:+ synonym | None => synonym end)) l.

Definition dt_tag_get_flags (tagid : Z) (l : library) : Z :=
  match tag_by_id tagid l with Some t => wrap_s32 (column_int (t_flags t)) | None => 0 end.

Definition dt_tag_set_flags (tagid flags : Z) : library -> library :=
  set_tag (fun t => Tag_row (t_id t) (t_name t) (t_synonyms t) (Some flags)) tagid.

(** Sort criterion and direction; flags are read into an unsigned int. *)
Definition dt_tag_get_tag_order_by_id (tagid : Z) (l : library) : option (Z * bool) :=
  t ← tag_by_id tagid l;
  let flags := wrap_u32 (column_int (t_flags t)) in
  if Z.land flags DT_TF_ORDER_SET =? DT_TF_ORDER_SET
  then Some (Z.shiftr (Z.land flags (wrap_u32 (Z.lnot DT_TF_DESCENDING))) 16, negb (Z.land flags DT_TF_DESCENDING =? 0))
  else None.

Definition dt_tag_set_tag_order_by_id (tagid sort : Z) (descending : bool) : library -> library :=
  let flags := Z.lor (Z.lor (wrap_u32 (Z.shiftl sort 16)) (if descending then DT_TF_DESCENDING else 0)) DT_TF_ORDER_SET in
  set_tag (fun t => Tag_row (t_id t) (t_name t) (t_synonyms t)
                      (Some (Z.lor (Z.land (column_int (t_flags t)) DT_TF_ALL) (wrap_s32 flags)))) tagid.

(** ** Lemmas: flags *)

Lemma tag_by_id_unique tagid (t : tag_row) l : NoDup (t_id <$> tags l) -> t ∈ tags l -> t_id t = tagid -> tag_by_id tagid l = Some t.
Proof.
  intros Hnd Ht Hid. unfold tag_by_id. set (f := scan _).
  assert (forall r, r ∈ f <-> r ∈ tags l /\ t_id r = tagid) as Hf by (intros r; unfold f; rewrite elem_of_scan, list_elem_of_filter; tauto).
  assert (t ∈ f) as Htf by (by apply Hf). destruct f as [|r f']; [by apply not_elem_of_nil in Htf|]. cbn. f_equal.
  destruct (proj1 (Hf r)) as [Hr He]; [by left|].
  apply list_elem_of_lookup in Hr as [i Hi], Ht as [j Hj]. assert (i = j) as ->; [|congruence].
  eapply NoDup_lookup; [exact Hnd|..]; rewrite list_lookup_fmap; [by rewrite Hi|]. rewrite Hj. cbn. by rewrite He, Hid.
Qed.

Lemma set_tag_ids f tagid l : (forall t, t_id (f t) = t_id t) -> t_id <$> tags (set_tag f tagid l) = t_id <$> tags l.
Proof.
  intros Hf. cbn. induction (tags l) as [|t ts IH]; [done|]. cbn. rewrite IH. destruct (t_id t =? tagid); [|done]. by rewrite Hf.
Qed.

Lemma set_tag_found f tagid (t : tag_row) l :
  NoDup (t_id <$> tags l) -> (forall t, t_id (f t) = t_id t) -> t ∈ tags l -> t_id t = tagid ->
  tag_by_id tagid (set_tag f tagid l) = Some (f t).
Proof.
  intros Hnd Hf Ht Hid. apply tag_by_id_unique; [by rewrite set_tag_ids| |by rewrite Hf].
  cbn. apply list_elem_of_In, in_map_iff. exists t. rewrite <- list_elem_of_In. split; [|done].
  rewrite Hid, Z.eqb_refl. done.
Qed.

(** The order of images that is stored with a tag is read back; the flags of the tag
    itself stay as they are. *)
Theorem tag_order_round_trip tagid t sort descending l
    (Hids : NoDup (t_id <$> tags l)) (Ht : t ∈ tags l) (Hid : t_id t = tagid) (Hsort : 0 <= sort < 2 ^ 15) :
  let l' := dt_tag_set_tag_order_by_id tagid sort descending l in
  dt_tag_get_tag_order_by_id tagid l' = Some (sort, descending) /\
  exists t', tag_by_id tagid l' = Some t' /\ t_name t' = t_name t /\ t_synonyms t' = t_synonyms t /\
    Z.land (column_int (t_flags t')) (Z.lor DT_TF_CATEGORY DT_TF_PRIVATE) =
    Z.land (column_int (t_flags t)) (Z.lor DT_TF_CATEGORY DT_TF_PRIVATE).
Proof.
  cbn zeta. unfold dt_tag_get_tag_order_by_id, dt_tag_set_tag_order_by_id.
  rewrite (set_tag_found _ tagid t l Hids) by done. cbn [mbind option_bind t_flags].
  set (old := column_int (t_flags t)). set (new := Z.lor (Z.lor (wrap_u32 (Z.shiftl sort 16)) _) _).
  rewrite column_int_Some, wrap_u32_lor, wrap_u32_s32.
  assert (forall n, 0 <= n -> Z.testbit (Z.lor (wrap_u32 (Z.land old DT_TF_ALL)) (wrap_u32 new)) n =
            (n <? 32) && ((n <? 3) && Z.testbit old n || (16 <=? n) && Z.testbit sort (n - 16) || (n =? 31) && descending || (n =? 2))) as Hbits.
  { intros n Hn. rewrite Z.lor_spec, !wrap_u32_testbit by done. unfold new. rewrite !Z.lor_spec, Z.land_spec, wrap_u32_testbit by done.
    rewrite Z.shiftl_spec by done. unfold DT_TF_ALL, DT_TF_CATEGORY, DT_TF_PRIVATE, DT_TF_ORDER_SET, DT_TF_DESCENDING.
    destruct (Z.ltb_spec n 32); [|done]. cbn [andb].
    assert (Z.testbit 7 n = (n <? 3)) as H7.
    { change 7 with (Z.ones 3). destruct (Z.ltb_spec n 3); [by rewrite Z.ones_spec_low by lia|by rewrite Z.ones_spec_high by lia]. }
    assert (Z.testbit 4 n = (n =? 2)) as H4 by (change 4 with (2 ^ 2); rewrite Z.pow2_bits_eqb by lia; apply Z.eqb_sym).
    assert (Z.testbit (if descending then Z.shiftl 1 31 else 0) n = (n =? 31) && descending) as H31.
    { destruct descending; [|by rewrite Z.bits_0, andb_false_r]. rewrite andb_true_r, Z.shiftl_1_l, Z.pow2_bits_eqb by lia. apply Z.eqb_sym. }
    change (Z.lor (Z.lor (Z.shiftl 1 0) (Z.shiftl 1 1)) (Z.shiftl 1 2)) with 7. change (Z.shiftl 1 2) with 4.
    rewrite H7, H4, H31. destruct (Z.leb_spec 16 n); cbn [andb].
    - destruct (Z.ltb_spec n 3); [lia|]. rewrite andb_false_r. cbn. done.
    - rewrite (Z.testbit_neg_r sort (n - 16)) by lia. rewrite andb_comm. by destruct (n <? 3), (Z.testbit old n), ((n =? 31) && descending), (n =? 2). }
  assert (forall n, 15 <= n -> Z.testbit sort n = false) as Hhigh.
  { intros n Hn. destruct (Z.eq_dec sort 0) as [->|Hne]; [apply Z.bits_0|]. apply Z.bits_above_log2; [lia|].
    apply Z.log2_lt_pow2; [lia|]. assert (2 ^ 15 <= 2 ^ n) by (apply Z.pow_le_mono_r; lia). lia. }
  set (fl := Z.lor (wrap_u32 _) (wrap_u32 new)) in *. split.
  - assert (Z.land fl DT_TF_ORDER_SET = DT_TF_ORDER_SET) as Hset.
    { apply Z.bits_inj'. intros n Hn. rewrite Z.land_spec, Hbits by done.
      change DT_TF_ORDER_SET with (2 ^ 2). rewrite Z.pow2_bits_eqb by lia.
      destruct (Z.eqb_spec 2 n) as [<-|]; [by rewrite !orb_true_r|]. by rewrite andb_false_r. }
    rewrite Hset, Z.eqb_refl. f_equal. f_equal.
    + apply Z.bits_inj'. intros n Hn. rewrite Z.shiftr_spec, Z.land_spec, Hbits, wrap_u32_testbit, Z.lnot_spec by lia.
      unfold DT_TF_DESCENDING. rewrite Z.shiftl_1_l, Z.pow2_bits_eqb by lia. replace (n + 16 - 16) with n by lia.
      destruct (Z.ltb_spec (n + 16) 32); cbn [andb]; [|symmetry; apply Hhigh; lia].
      destruct (Z.eqb_spec 31 (n + 16)).
      * rewrite andb_false_r. symmetry. apply Hhigh. lia.
      * destruct (Z.ltb_spec (n + 16) 3), (Z.leb_spec 16 (n + 16)), (Z.eqb_spec (n + 16) 31), (Z.eqb_spec (n + 16) 2); try lia.
        cbn. by rewrite !orb_false_r, andb_true_r.
    + assert (Z.land fl DT_TF_DESCENDING = if descending then 2 ^ 31 else 0) as ->; [|by destruct descending].
      apply Z.bits_inj'. intros n Hn. rewrite Z.land_spec, Hbits by done. unfold DT_TF_DESCENDING.
      rewrite Z.shiftl_1_l, Z.pow2_bits_eqb by lia. destruct (Z.eqb_spec 31 n) as [<-|Hne].
      * rewrite (Hhigh (31 - 16)) by lia. cbn. by destruct descending.
      * rewrite andb_false_r. destruct descending; [|by rewrite Z.bits_0]. rewrite Z.pow2_bits_eqb by lia. symmetry. by apply Z.eqb_neq.
  - eexists. split; [reflexivity|]. split; [done|]. split; [done|]. cbn [t_flags].
    rewrite column_int_Some. fold old. apply Z.bits_inj'. intros n Hn.
    rewrite !Z.land_spec. change (Z.lor DT_TF_CATEGORY DT_TF_PRIVATE) with (Z.ones 2).
    destruct (Z.lt_ge_cases n 2) as [Hlt|Hge]; [|by rewrite Z.ones_spec_high, !andb_false_r by lia].
    rewrite Z.ones_spec_low, !andb_true_r by lia. pose proof (Hbits n Hn) as Hb. unfold fl in Hb.
    rewrite <- (wrap_u32_s32 new), <- wrap_u32_lor, wrap_u32_testbit in Hb by done. fold new.
    assert (Z.testbit (Z.lor (Z.land old DT_TF_ALL) (wrap_s32 new)) n = Z.testbit old n) as Hx; [|exact Hx].
    destruct (Z.ltb_spec n 32), (Z.ltb_spec n 3), (Z.leb_spec 16 n), (Z.eqb_spec n 31), (Z.eqb_spec n 2); try lia.
    cbn in Hb. by rewrite Hb, !orb_false_r.
Qed.

End lists.

Module Example.
Import Tags.Example.

(** Tag 9 of the example table is a category; its images are to be sorted by criterion 3. *)
Lemma tag_order_round_trip_witness :
  let l' := dt_tag_set_tag_order_by_id 9 3 true tagged in
  dt_tag_get_tag_order_by_id 9 l' = Some (3, true) /\
  exists t', tag_by_id 9 l' = Some t' /\ t_name t' = "red"%string /\ t_synonyms t' = None /\
    Z.land (column_int (t_flags t')) (Z.lor DT_TF_CATEGORY DT_TF_PRIVATE) =
    Z.land 1 (Z.lor DT_TF_CATEGORY DT_TF_PRIVATE).
Proof.
  apply (tag_order_round_trip 9 (Tag_row 9 "red" None (Some 1)) 3 true tagged); [| |done|lia].
  - apply (bool_decide_unpack _). vm_compute. done.
  - right. right. by left.
Defined.

End Example.
