(* ===== verification/TagFiles.v ===== *)
(** Keyword files: dt_tag_import and dt_tag_export of common/tags.c.

    A keyword file has one tag on a line, below its parent and indented by one tab more;
    categories are in brackets, synonyms stand in braces below their tag. A file is the
    text it holds. The number of a tag is taken to fit into an int. *)

From Stdlib Require Import Ascii String.
From S2P Require Import Prelude Utility Library Tags TagLists.
Local Open Scope Z_scope.

(** ** Lines *)

(** What [getline] returns one after the other, each with its line end. *)
Fixpoint getlines (s : string) : list string :=
  match s with
  | "" => []
  | String c s' =>
      if Ascii.eqb c "010" then String c "" :: getlines s'
      else match getlines s' with
           | [] => [String c ""]
           | t :: ts => String c t :: ts
           end
  end.

Definition is_indent (c : ascii) : bool := Ascii.eqb c "009" || Ascii.eqb c " " || Ascii.eqb c "," || Ascii.eqb c ";".
Definition is_line_end (c : ascii) : bool := Ascii.eqb c "010" || Ascii.eqb c "013" || Ascii.eqb c "," || Ascii.eqb c ";".

(** The text between two marks of one character each. *)
Definition enclosed (a b : ascii) (s : string) : option string :=
  match s with
  | String c s => if Ascii.eqb c a then match rev (list_ascii_of_string s) with
                                        | d :: r => if Ascii.eqb d b then Some (string_of_list_ascii (rev r)) else None
                                        | [] => None
                                        end else None
  | "" => None
  end.

Record keyword_line := Keyword_line {
  depth : nat;
  skip : bool;
  category : bool;
  is_synonym : bool;
  keyword : string;
}.

(** The head of the loop. When everything behind the indentation is cut off, the character
    in front of it is read, which for an empty line is outside the buffer. *)
Definition read_line (line : string) : c_result keyword_line :=
  let line := c_string (list_ascii_of_string line) in
  let start := drop_while is_indent line in
  let depth := (String.length line - String.length start)%nat in
  let start := strip_end is_line_end start in
  if (depth =? 0)%nat && String.eqb start "" then Undefined
  else
    let '(category, synonym, start) :=
      match enclosed "[" "]" start, enclosed "{" "}" start with
      | Some s, _ => (true, false, s)
      | None, Some s => (false, true, s)
      | None, None => (false, false, start)
      end in
    Done (match start with
          | String "~" s => Keyword_line depth true category synonym s
          | _ => Keyword_line depth false category synonym start
          end).

Section files.
Context `{RowOrder}.

(** ** Import *)

(** The variables of the loop. *)
Record import_state := Import {
  hierarchy : list string;
  count : Z;
  tagid : Z;
  previous_category_depth : nat;
  previous_category : bool;
  previous_synonym : bool;
}.

Definition import_synonym (k : keyword_line) (st : import_state) (l : library) : c_result (import_state * library) :=
  let* l :=
    if tagid st =? 0 then Done l
    else
      let* l := if previous_synonym st then Done l else dt_tag_set_synonyms (tagid st) (Some "") l in
      Done (dt_tag_add_synonym (tagid st) (keyword k) l) in
  Done (st, l).

Definition import_tag (k : keyword_line) (st : import_state) (l : library) : import_state * library :=
  let hierarchy := take (depth k) (hierarchy st) ++ [keyword k] in
  let st := Import hierarchy (count st) (tagid st) (previous_category_depth st) (previous_category st) (previous_synonym st) in
  if skip k then (st, l)
  else
    let tag := dt_util_glist_to_str "|" hierarchy in
    if previous_category st && (previous_category_depth st + 1 <? depth k)%nat then
      let l := dt_tag_rename (tagid st) tag l in
      (st, if category k then l else dt_tag_set_flags (tagid st) 0 l)
    else
      let (new, l) := dt_tag_new tag l in
      let tagid := default 1 new in
      (Import hierarchy (count st + 1) tagid (previous_category_depth st) (previous_category st) (previous_synonym st),
       if category k then dt_tag_set_flags tagid DT_TF_CATEGORY l else l).

Definition import_line (line : string) (st : import_state) (l : library) : c_result (import_state * library) :=
  let* k := read_line line in
  let* (st, l) := if is_synonym k then import_synonym k st l else Done (import_tag k st l) in
  Done (Import (hierarchy st) (count st) (tagid st) (if category k then depth k else 0) (category k) (is_synonym k), l).

Fixpoint import_lines (lines : list string) (st : import_state) (l : library) : c_result (import_state * library) :=
  match lines with
  | [] => Done (st, l)
  | line :: lines => let* (st, l) := import_line line st l in import_lines lines st l
  end.

Definition import_start : import_state := Import [] 0 0 0 false false.

(** [None]: the file cannot be opened. *)
Definition dt_tag_import (file : option string) (l : library) : c_result (Z * library) :=
  match file with
  | None => Done (-1, l)
  | Some text => let* (st, l) := import_lines (getlines text) import_start l in Done (count st, l)
  end.

(** ** Export *)

Definition tab : ascii := "009"%char.
Definition nl : ascii := "010"%char.

Fixpoint tabs (n : nat) (s : string) : string := match n with O => s | S n => String tab (tabs n s) end.

(** How many levels the tag shares with the one before. *)
Fixpoint common_start (hierarchy tokens : list string) : nat :=
  match hierarchy, tokens with
  | h :: hierarchy, t :: tokens => if String.eqb h t then S (common_start hierarchy tokens) else O
  | _, _ => O
  end.

Definition synonym_lines (n : nat) (synonyms : option string) : string :=
  match synonyms with
  | None | Some "" => ""
  | Some s => String.concat "" (map (fun e => tabs n ("{" +:+ skip_space e +:+ "}" +:+ String nl "")) (g_strsplit "," s))
  end.

(** The lines of the levels from the [i]th on, and how many tags they count. *)
Fixpoint token_lines (i : nat) (tokens : list string) (flags : Z) (synonyms : option string) : string * Z :=
  match tokens with
  | [] => ("", 0)
  | [t] =>
      (tabs i ((if Z.land flags DT_TF_CATEGORY =? 0 then t else "[" +:+ t +:+ "]") +:+ String nl "") +:+
       synonym_lines (i + 1) synonyms, 1)
  | t :: tokens =>
      let (s, n) := token_lines (i + 1) tokens flags synonyms in (tabs i (t +:+ String nl s), n)
  end.

Fixpoint export_tags (hierarchy : list string) (ts : list dt_tag_t) : string * Z :=
  match ts with
  | [] => ("", 0)
  | t :: ts =>
      let tokens := g_strsplit "|" (tag t) in
      let start := common_start hierarchy tokens in
      let (s, n) := token_lines start (drop start tokens) (flags t) (synonym t) in
      let (s', n') := export_tags tokens ts in
      (s +:+ s', n + n')
  end.

(** The file that is written, if it can be opened, and the result of the function. *)
Definition dt_tag_export (writable : bool) (l : library) : option string * Z * library :=
  if writable then
    let (tags, l) := dt_tag_get_with_usage l in
    let (s, n) := export_tags [] (dt_sort_tag tags 0) in
    (Some s, n, l)
  else (None, -1, l).

(** ** Lemmas: the table of tags *)

(** Synonyms and flags of the tag of that name. *)
Definition tag_at (l : library) (x : string) : option (option string * option Z) :=
  head ((fun t => (t_synonyms t, t_flags t)) <$> filter (fun t => t_name t = x) (tags l)).












End files.

(** ** Lemmas: lines *)





Lemma tabs_app n s : tabs n s = tabs n "" +:+ s.
Proof. induction n as [|n IH]; [done|]. cbn. by rewrite IH. Qed.




















Section import.
Context `{RowOrder}.


(** ** Lemmas: one line *)













(** ** Lemmas: the lines of a tag *)




















(** ** Lemmas: names and their levels *)









(** ** Lemmas: the whole file *)















(** ** Lemmas: reading all tags *)










(** ** Lemmas: the order of the file *)















End import.

(** An empty line makes the loop read in front of its buffer. *)
Lemma empty_line_undefined `{RowOrder} s l : dt_tag_import (Some (String nl s)) l = Undefined.
Proof. done. Qed.

Module Example.
Import Tags.Example.
Local Open Scope string_scope.

(** Two trees that differ in the case of their root, a category with private flag, and a tag
    of the program. *)
Definition tree : library :=
  Library [Tag_row 1 "places" None (Some 3%Z); Tag_row 2 "places|Rome" (Some "Roma, eternal city") None;
           Tag_row 4 "Places|a|b" None (Some 5%Z); Tag_row 7 "darktable|x" None None; Tag_row 9 "places|zoo" None (Some 2%Z)]
    [] [] [] [] [].



(** Names that are none of that: one in brackets comes back as a category without them, and
    one with a tilde does not come back. *)
Example marks_are_read :
  match dt_tag_export true (Library [Tag_row 1 "[wip]" None None; Tag_row 2 "~draft" None None] [] [] [] [] []) with
  | (Some text, 2%Z, _) =>
      match dt_tag_import (Some text) (Library [] [] [] [] [] []) with
      | Done (n, l) => (n, tag_at l "[wip]", tag_at l "wip", tag_at l "~draft") = (1%Z, None, Some (None, Some 1%Z), None)
      | Undefined => False
      end
  | _ => False
  end.
Proof. vm_compute. reflexivity. Qed.

(** The private flag is not in the file, and the levels of a tag become tags. *)
Example private_flag_is_lost :
  match dt_tag_export true tree with
  | (Some text, _, _) =>
      match dt_tag_import (Some text) (Library [] [] [] [] [] []) with
      | Done (n, l) => (n, tag_at l "places", tag_at l "places|zoo", tag_at l "Places|a") =
                       (7%Z, Some (None, Some 1%Z), Some (None, None), Some (None, None))
      | Undefined => False
      end
  | _ => False
  end.
Proof. vm_compute. reflexivity. Qed.

End Example.
