(* ===== verification/Images.v ===== *)
(** An image as the program holds it in memory ([dt_image_t] of common/image.h), its row
    in the table main.images, and how common/image_cache.c reads the one from the other
    and writes it back.

    Floats are the specification floats of the Standard Library; a REAL column holds a
    double or NULL, and SQLite stores a NaN as NULL. INTEGER columns hold 64 bits; a NULL
    in them is read as 0. The
    names that dt_image_refresh_makermodel looks up in a camera database, the pointers of
    the struct and its running number are left out. Memory that is not initialised is a
    parameter. *)

From Stdlib Require Import Ascii String SpecFloat.
From S2P Require Import Prelude Floats.
Local Open Scope Z_scope.

(** ** Flags and constants *)

Definition DT_IMAGE_REJECTED : Z := 8.
Definition DT_IMAGE_LDR : Z := 32.
Definition DT_IMAGE_RAW : Z := 64.
Definition DT_IMAGE_HDR : Z := 128.

Definition ORIENTATION_NULL : Z := -1.
Definition ORIENTATION_SWAP_XY : Z := Z.shiftl 1 2.

Definition LOADER_UNKNOWN : Z := 0.
Definition DT_IMAGE_COLORSPACE_NONE : Z := 0.

Inductive dt_iop_buffer_type_t := TYPE_UNKNOWN | TYPE_FLOAT | TYPE_UINT16.

Definition iop_cs_RAW : Z := 0.
Definition iop_cs_rgb : Z := 2.

Definition f32_zero : spec_float := S754_zero false.
Definition f32_one : spec_float := float_of_int 1.

(** ** The struct, in the parts that its comments name *)

Record dt_image_exif := Exif {
  exif_inited : Z;
  orientation : Z;
  exif_exposure : spec_float;
  exif_exposure_bias : spec_float;
  exif_aperture : spec_float;
  exif_iso : spec_float;
  exif_focal_length : spec_float;
  exif_focus_distance : spec_float;
  exif_crop : spec_float;
  exif_maker : string;
  exif_model : string;
  exif_lens : string;
  exif_datetime_taken : string;
}.

Record dt_image_dimensions := Dimensions {
  width : Z;
  height : Z;
  verified_size : Z;
  final_width : Z;
  final_height : Z;
  p_width : Z;
  p_height : Z;
  crop_x : Z;
  crop_y : Z;
  crop_width : Z;
  crop_height : Z;
}.

(** time_t, 64 bits *)
Record dt_image_timestamps := Timestamps {
  import_timestamp : Z;
  change_timestamp : Z;
  export_timestamp : Z;
  print_timestamp : Z;
}.

Record dt_iop_buffer_dsc_t := Buffer_dsc {
  channels : Z;
  datatype : dt_iop_buffer_type_t;
  cst : Z;
}.

Record dt_image_raw_parameters_t := Raw_parameters {
  legacy : Z;      (* 24 bits *)
  user_flip : Z;   (* 8 bits *)
}.

Record dt_image_geoloc_t := Geoloc {
  longitude : spec_float;
  latitude : spec_float;
  elevation : spec_float;
}.

Record dt_image_levels := Levels {
  raw_black_level : Z;
  raw_black_level_separate : list Z;
  raw_white_point : Z;
}.

Record dt_image_t := Image {
  exif : dt_image_exif;
  filename : string;
  dimensions : dt_image_dimensions;
  aspect_ratio : spec_float;
  flags : Z;
  film_id : Z;
  id : Z;
  group_id : Z;
  version : Z;
  timestamps : dt_image_timestamps;
  loader : Z;
  buf_dsc : dt_iop_buffer_dsc_t;
  d65_color_matrix : list spec_float;
  profile_size : Z;
  colorspace : Z;
  legacy_flip : dt_image_raw_parameters_t;
  geoloc : dt_image_geoloc_t;
  levels : dt_image_levels;
  fuji_rotation_pos : Z;
  pixel_aspect_ratio : spec_float;
  wb_coeffs : list spec_float;
  usercrop : list spec_float;
}.

Definition set_aspect_ratio (v : spec_float) (i : dt_image_t) : dt_image_t :=
  Image (exif i) (filename i) (dimensions i) v (flags i) (film_id i) (id i) (group_id i) (version i) (timestamps i)
        (loader i) (buf_dsc i) (d65_color_matrix i) (profile_size i) (colorspace i) (legacy_flip i) (geoloc i) (levels i)
        (fuji_rotation_pos i) (pixel_aspect_ratio i) (wb_coeffs i) (usercrop i).
Definition set_flags (v : Z) (i : dt_image_t) : dt_image_t :=
  Image (exif i) (filename i) (dimensions i) (aspect_ratio i) v (film_id i) (id i) (group_id i) (version i) (timestamps i)
        (loader i) (buf_dsc i) (d65_color_matrix i) (profile_size i) (colorspace i) (legacy_flip i) (geoloc i) (levels i)
        (fuji_rotation_pos i) (pixel_aspect_ratio i) (wb_coeffs i) (usercrop i).
Definition set_id (v : Z) (i : dt_image_t) : dt_image_t :=
  Image (exif i) (filename i) (dimensions i) (aspect_ratio i) (flags i) (film_id i) v (group_id i) (version i) (timestamps i)
        (loader i) (buf_dsc i) (d65_color_matrix i) (profile_size i) (colorspace i) (legacy_flip i) (geoloc i) (levels i)
        (fuji_rotation_pos i) (pixel_aspect_ratio i) (wb_coeffs i) (usercrop i).
Definition set_group_id (v : Z) (i : dt_image_t) : dt_image_t :=
  Image (exif i) (filename i) (dimensions i) (aspect_ratio i) (flags i) (film_id i) (id i) v (version i) (timestamps i)
        (loader i) (buf_dsc i) (d65_color_matrix i) (profile_size i) (colorspace i) (legacy_flip i) (geoloc i) (levels i)
        (fuji_rotation_pos i) (pixel_aspect_ratio i) (wb_coeffs i) (usercrop i).
Definition set_timestamps (v : dt_image_timestamps) (i : dt_image_t) : dt_image_t :=
  Image (exif i) (filename i) (dimensions i) (aspect_ratio i) (flags i) (film_id i) (id i) (group_id i) (version i) v
        (loader i) (buf_dsc i) (d65_color_matrix i) (profile_size i) (colorspace i) (legacy_flip i) (geoloc i) (levels i)
        (fuji_rotation_pos i) (pixel_aspect_ratio i) (wb_coeffs i) (usercrop i).

(** dt_image_init; [mem]: what malloc left in the eight numbers of the colour matrix that
    are not set. *)
Definition dt_image_init (mem : list spec_float) : dt_image_t :=
  Image
    (Exif 0 ORIENTATION_NULL f32_zero S754_nan f32_zero f32_zero f32_zero f32_zero f32_one "" "" "" "0000:00:00 00:00:00")
    "(unknown)" (Dimensions 0 0 0 0 0 0 0 0 0 0 0) f32_zero 0 (-1) (-1) (-1) (-1) (Timestamps (-1) (-1) (-1) (-1))
    LOADER_UNKNOWN (Buffer_dsc 0 TYPE_UNKNOWN 0) (S754_nan :: mem) 0 DT_IMAGE_COLORSPACE_NONE (Raw_parameters 0 0)
    (Geoloc S754_nan S754_nan S754_nan) (Levels 0 [0; 0; 0; 0] 16384) 0 f32_one
    [S754_nan; S754_nan; S754_nan; S754_nan] [f32_zero; f32_zero; f32_one; f32_one].

(** ** The row *)

(** The columns of main.images that the cache reads; the blobs of color_matrix are those
    it writes, nine floats. *)
Record image_row := Image_row {
  c_id : Z;
  c_group_id : Z;
  c_film_id : Z;
  c_width : Z;
  c_height : Z;
  c_filename : option string;
  c_maker : option string;
  c_model : option string;
  c_lens : option string;
  c_exposure : option spec_float;
  c_aperture : option spec_float;
  c_iso : option spec_float;
  c_focal_length : option spec_float;
  c_datetime_taken : option string;
  c_flags : Z;
  c_crop : option spec_float;
  c_orientation : Z;
  c_focus_distance : option spec_float;
  c_raw_parameters : Z;
  c_longitude : option spec_float;
  c_latitude : option spec_float;
  c_altitude : option spec_float;
  c_color_matrix : option (list spec_float);
  c_colorspace : Z;
  c_version : Z;
  c_raw_black : Z;
  c_raw_maximum : Z;
  c_aspect_ratio : option spec_float;
  c_exposure_bias : option spec_float;
  c_import_timestamp : Z;
  c_change_timestamp : Z;
  c_export_timestamp : Z;
  c_print_timestamp : Z;
}.

(** The id of a row is its INTEGER PRIMARY KEY. *)
Definition set_c_group_id (v : Z) (r : image_row) : image_row :=
  Image_row (c_id r) v (c_film_id r) (c_width r) (c_height r) (c_filename r) (c_maker r) (c_model r) (c_lens r)
    (c_exposure r) (c_aperture r) (c_iso r) (c_focal_length r) (c_datetime_taken r) (c_flags r) (c_crop r) (c_orientation r)
    (c_focus_distance r) (c_raw_parameters r) (c_longitude r) (c_latitude r) (c_altitude r) (c_color_matrix r)
    (c_colorspace r) (c_version r) (c_raw_black r) (c_raw_maximum r) (c_aspect_ratio r) (c_exposure_bias r)
    (c_import_timestamp r) (c_change_timestamp r) (c_export_timestamp r) (c_print_timestamp r).

(** ** Reading a row *)

(** [sqlite3_column_double], as a float; [sqlite3_column_int]. *)
Definition column_float (v : option spec_float) : spec_float := narrow (default f32_zero v).
Definition column_s32 (v : Z) : Z := wrap_s32 v.

(** A text that is NULL leaves the empty text. *)
Definition column_text (size : nat) (v : option string) : string := g_strlcpy size (default "" v).

(** The two bit fields share 32 bits. *)
Definition flip_of_u32 (u : Z) : dt_image_raw_parameters_t := Raw_parameters (u mod 2 ^ 24) (u / 2 ^ 24).
Definition u32_of_flip (p : dt_image_raw_parameters_t) : Z := legacy p + user_flip p * 2 ^ 24.

Definition buffer_of_flags (flags : Z) : dt_iop_buffer_dsc_t :=
  if negb (Z.land flags DT_IMAGE_LDR =? 0) then Buffer_dsc 4 TYPE_FLOAT iop_cs_rgb
  else if negb (Z.land flags DT_IMAGE_HDR =? 0) then
    if negb (Z.land flags DT_IMAGE_RAW =? 0) then Buffer_dsc 1 TYPE_FLOAT iop_cs_RAW else Buffer_dsc 4 TYPE_FLOAT iop_cs_rgb
  else Buffer_dsc 1 TYPE_UINT16 iop_cs_RAW.

(** The fields of [img] are kept where the code does not assign them. *)
Definition image_of_row (mem : list spec_float) (r : image_row) : dt_image_t :=
  let img := dt_image_init mem in
  let orientation := column_s32 (c_orientation r) in
  let focus := column_float (c_focus_distance r) in
  Image
    (Exif (if SFleb f32_zero focus && (0 <=? orientation) then 1 else exif_inited (exif img)) orientation
       (column_float (c_exposure r)) (narrow (default S754_nan (c_exposure_bias r))) (column_float (c_aperture r))
       (column_float (c_iso r)) (column_float (c_focal_length r)) focus (column_float (c_crop r))
       (column_text 64 (c_maker r)) (column_text 64 (c_model r)) (column_text 128 (c_lens r)) (column_text 20 (c_datetime_taken r)))
    (column_text 256 (c_filename r))
    (Dimensions (column_s32 (c_width r)) (column_s32 (c_height r)) (verified_size (dimensions img)) (final_width (dimensions img))
       (final_height (dimensions img)) (p_width (dimensions img)) (p_height (dimensions img)) 0 0 0 0)
    (narrow (default f32_zero (c_aspect_ratio r))) (column_s32 (c_flags r)) (column_s32 (c_film_id r)) (column_s32 (c_id r))
    (column_s32 (c_group_id r)) (column_s32 (c_version r))
    (Timestamps (column_s32 (c_import_timestamp r)) (column_s32 (c_change_timestamp r)) (column_s32 (c_export_timestamp r))
       (column_s32 (c_print_timestamp r)))
    LOADER_UNKNOWN (buffer_of_flags (column_s32 (c_flags r)))
    (match c_color_matrix r with Some m => m | None => d65_color_matrix img end) 0 (column_s32 (c_colorspace r))
    (flip_of_u32 (wrap_u32 (column_s32 (c_raw_parameters r))))
    (Geoloc (default S754_nan (c_longitude r)) (default S754_nan (c_latitude r)) (default S754_nan (c_altitude r)))
    (Levels (column_s32 (c_raw_black r) mod 2 ^ 16) [0; 0; 0; 0] (wrap_u32 (column_s32 (c_raw_maximum r))))
    (fuji_rotation_pos img) (pixel_aspect_ratio img) (wb_coeffs img) (usercrop img).

(** ** Writing a row *)

(** A NaN is stored as NULL. *)
Definition bind_double (x : spec_float) : option spec_float := match x with S754_nan => None | _ => Some x end.
Definition bind_float (x : spec_float) : option spec_float := bind_double (widen x).
Definition bind_s32 (v : Z) : Z := wrap_s32 v.

(** 0.0001, as a double *)
Definition double_0_0001 : spec_float := S754_finite false 7378697629483821 (-66).

(** An image without an aspect ratio gets that of its sensor data. *)
Definition complete_aspect_ratio (i : dt_image_t) : dt_image_t :=
  if SFltb (widen (aspect_ratio i)) double_0_0001 then
    let w := float_of_int (width (dimensions i)) in
    let h := float_of_int (height (dimensions i)) in
    set_aspect_ratio (if orientation (exif i) <? ORIENTATION_SWAP_XY then SFdiv 24 128 w h else SFdiv 24 128 h w) i
  else i.

Section rounding.

(** SQLite's ROUND(x, 1). *)
Context (ROUND1 : spec_float -> spec_float).

(** The UPDATE of dt_image_cache_write_release: id and version stay. *)
Definition row_of_image (i : dt_image_t) (old : image_row) : image_row :=
  Image_row (c_id old) (bind_s32 (group_id i)) (bind_s32 (film_id i)) (bind_s32 (width (dimensions i)))
    (bind_s32 (height (dimensions i))) (Some (filename i)) (Some (exif_maker (exif i))) (Some (exif_model (exif i)))
    (Some (exif_lens (exif i))) (bind_float (exif_exposure (exif i))) (bind_float (exif_aperture (exif i)))
    (bind_float (exif_iso (exif i))) (bind_float (exif_focal_length (exif i))) (Some (exif_datetime_taken (exif i)))
    (bind_s32 (flags i)) (bind_float (exif_crop (exif i))) (bind_s32 (orientation (exif i)))
    (bind_float (exif_focus_distance (exif i))) (bind_s32 (u32_of_flip (legacy_flip i)))
    (bind_double (longitude (geoloc i))) (bind_double (latitude (geoloc i))) (bind_double (elevation (geoloc i)))
    (Some (d65_color_matrix i)) (bind_s32 (colorspace i)) (c_version old) (bind_s32 (raw_black_level (levels i)))
    (bind_s32 (raw_white_point (levels i))) (ROUND1 <$> bind_float (aspect_ratio i)) (bind_float (exif_exposure_bias (exif i)))
    (bind_s32 (import_timestamp (timestamps i))) (bind_s32 (change_timestamp (timestamps i)))
    (bind_s32 (export_timestamp (timestamps i))) (bind_s32 (print_timestamp (timestamps i))).


(** ** Images that the row can hold *)

(** A float that is not subnormal. *)
Definition float_ok (f : spec_float) : Prop :=
  match f with
  | S754_nan => False
  | S754_finite _ m e => digits m = 24 /\ -149 <= e <= 104
  | _ => True
  end.

#[global] Instance float_ok_dec f : Decision (float_ok f).
Proof. destruct f; cbn; apply _. Defined.

Definition float_or_nan (f : spec_float) : Prop := match f with S754_nan => True | _ => float_ok f end.

#[global] Instance float_or_nan_dec f : Decision (float_or_nan f).
Proof. destruct f; cbn; apply _. Defined.

Definition s32 (z : Z) : Prop := - 2 ^ 31 <= z < 2 ^ 31.

Definition exif_ok (x : dt_image_exif) : Prop :=
  s32 (orientation x) /\ float_or_nan (exif_exposure_bias x) /\
  Forall float_ok [exif_exposure x; exif_aperture x; exif_iso x; exif_focal_length x; exif_focus_distance x; exif_crop x] /\
  (String.length (exif_maker x) < 64)%nat /\ (String.length (exif_model x) < 64)%nat /\
  (String.length (exif_lens x) < 128)%nat /\ (String.length (exif_datetime_taken x) < 20)%nat.

(** Times until 2038. *)
Definition image_ok (i : dt_image_t) : Prop :=
  exif_ok (exif i) /\ (String.length (filename i) < 256)%nat /\
  Forall s32 [width (dimensions i); height (dimensions i); flags i; film_id i; group_id i; colorspace i;
              import_timestamp (timestamps i); change_timestamp (timestamps i);
              export_timestamp (timestamps i); print_timestamp (timestamps i)] /\
  0 <= legacy (legacy_flip i) < 2 ^ 24 /\ 0 <= user_flip (legacy_flip i) < 2 ^ 8 /\
  0 <= raw_black_level (levels i) < 2 ^ 16 /\ 0 <= raw_white_point (levels i) < 2 ^ 32.

#[global] Instance s32_dec z : Decision (s32 z).
Proof. unfold s32. apply _. Defined.
#[global] Instance image_ok_dec i : Decision (image_ok i).
Proof. unfold image_ok, exif_ok. apply _. Defined.

(** A colour matrix is there unless its first number is a NaN. *)
Definition known_matrix (m : list spec_float) : list spec_float := match m with S754_nan :: _ => [] | _ => m end.

(** What a row holds of an image, apart from the aspect ratio, which is rounded; the rest
    is reset, as it is when a row is read. *)
Definition persistent (i : dt_image_t) : dt_image_t :=
  Image
    (Exif 0 (orientation (exif i)) (exif_exposure (exif i)) (exif_exposure_bias (exif i)) (exif_aperture (exif i))
       (exif_iso (exif i)) (exif_focal_length (exif i)) (exif_focus_distance (exif i)) (exif_crop (exif i))
       (exif_maker (exif i)) (exif_model (exif i)) (exif_lens (exif i)) (exif_datetime_taken (exif i)))
    (filename i) (Dimensions (width (dimensions i)) (height (dimensions i)) 0 0 0 0 0 0 0 0 0) f32_zero
    (flags i) (film_id i) (id i) (group_id i) (version i) (timestamps i) LOADER_UNKNOWN (Buffer_dsc 0 TYPE_UNKNOWN 0)
    (known_matrix (d65_color_matrix i)) 0 (colorspace i) (legacy_flip i) (geoloc i)
    (Levels (raw_black_level (levels i)) [0; 0; 0; 0] (raw_white_point (levels i))) 0 f32_one
    [S754_nan; S754_nan; S754_nan; S754_nan] [f32_zero; f32_zero; f32_one; f32_one].

(** Images that differ in nothing that is stored. *)
#[global] Instance image_equiv : Equiv dt_image_t := fun i j => persistent i = persistent j.

#[global] Instance image_equiv_equivalence : Equivalence image_equiv.
Proof. split; unfold image_equiv; [by intros ?|by intros ???|by intros ??? -> ->]. Qed.

(** The flag that the Exif data is known, as it is after reading the row. *)
Definition inited (x : dt_image_exif) : Z :=
  if SFleb f32_zero (exif_focus_distance x) && (0 <=? orientation x) then 1 else 0.

(** The image that is read after [i] was written. *)
Definition reread (aspect : spec_float) (i : dt_image_t) : dt_image_t :=
  let p := persistent i in
  Image
    (Exif (inited (exif p)) (orientation (exif p)) (exif_exposure (exif p)) (exif_exposure_bias (exif p)) (exif_aperture (exif p))
       (exif_iso (exif p)) (exif_focal_length (exif p)) (exif_focus_distance (exif p)) (exif_crop (exif p))
       (exif_maker (exif p)) (exif_model (exif p)) (exif_lens (exif p)) (exif_datetime_taken (exif p)))
    (filename p) (dimensions p) aspect (flags p) (film_id p) (id p) (group_id p) (version p) (timestamps p) (loader p)
    (buffer_of_flags (flags p)) (d65_color_matrix i) (profile_size p) (colorspace p) (legacy_flip p) (geoloc p) (levels p)
    (fuji_rotation_pos p) (pixel_aspect_ratio p) (wb_coeffs p) (usercrop p).

(** ** Lemmas *)

(** Every float is a double. *)
Lemma widen_normal s m e : digits m = 24 -> -149 <= e <= 104 ->
  widen (S754_finite s m e) = S754_finite s (shl m 29) (e - 29).
Proof.
  intros Hd He. cbn [widen].
  change (if s then Zneg m else Zpos m) with (if s then Zneg (shl m 0) else Zpos (shl m 0)).
  rewrite (normalize_exact 53 1024 s m 0) by (unfold emin; lia). rewrite Hd. change (Z.to_nat (53 - 24)) with 29%nat. f_equal. lia.
Qed.

Lemma narrow_widen f : float_ok f -> narrow (widen f) = f.
Proof.
  destruct f as [s|s| |s m e]; cbn [float_ok]; [done|done|done|]. intros [Hd He].
  rewrite widen_normal by done. cbn [narrow].
  rewrite (normalize_exact 24 128 s m) by (unfold emin; lia). rewrite Hd. change (Z.to_nat (24 - 24)) with O.
  unfold shl. cbn [Nat.iter nat_rect]. f_equal. lia.
Qed.

Lemma read_float f d : float_ok f -> narrow (default d (bind_float f)) = f.
Proof.
  intros Hf. unfold bind_float. rewrite <- (narrow_widen f Hf) at 2.
  destruct f as [s|s| |s m e]; cbn [float_ok] in Hf; [done|done|done|]. destruct Hf. by rewrite widen_normal.
Qed.

Lemma read_float_or_nan f : float_or_nan f -> narrow (default S754_nan (bind_float f)) = f.
Proof. intros Hf. destruct f; [by apply read_float..|done|by apply read_float]. Qed.

Lemma read_double f : default S754_nan (bind_double f) = f.
Proof. by destruct f. Qed.

Lemma read_s32 z : s32 z -> column_s32 (bind_s32 z) = z.
Proof. intros Hz. unfold column_s32, bind_s32. by rewrite !wrap_s32_id by (rewrite ?wrap_s32_id; exact Hz). Qed.

Lemma column_s32_id z : s32 z -> column_s32 z = z.
Proof. apply wrap_s32_id. Qed.

Lemma read_text n t : (String.length t < n)%nat -> column_text n (Some t) = t.
Proof. intros Hn. unfold column_text, g_strlcpy. cbn [default]. apply str_take_all. lia. Qed.

Lemma s32_wrap z : s32 (wrap_s32 z).
Proof. unfold s32, wrap_s32. pose proof (Z.mod_pos_bound (z + 2 ^ 31) (2 ^ 32)). lia. Qed.

Lemma read_u32 z : 0 <= z < 2 ^ 32 -> wrap_u32 (column_s32 (bind_s32 z)) = z.
Proof. intros Hz. unfold column_s32, bind_s32. rewrite !wrap_u32_s32. by apply wrap_u32_id. Qed.

Lemma flip_of_u32_of_flip p : 0 <= legacy p < 2 ^ 24 -> flip_of_u32 (u32_of_flip p) = p.
Proof.
  intros Hl. destruct p as [l u]. unfold flip_of_u32, u32_of_flip. cbn [legacy user_flip] in *.
  by rewrite Z_mod_plus_full, Z.div_add, Z.mod_small, Z.div_small by lia.
Qed.

Lemma image_of_written mem (i : dt_image_t) (old : image_row) (Hi : image_ok i) (Hid : s32 (id i)) (Hver : s32 (version i))
    (Hold : c_id old = id i) (Hversion : c_version old = version i) :
  image_of_row mem (row_of_image i old) =
    reread (narrow (default f32_zero (ROUND1 <$> bind_float (aspect_ratio i)))) i.
Proof.
  destruct Hi as ((? & ? & Hfloats & ? & ? & ? & ?) & ? & Hints & ? & ? & ? & ?).
  repeat (apply Forall_cons in Hints as [? Hints]). repeat (apply Forall_cons in Hfloats as [? Hfloats]).
  unfold image_of_row, row_of_image, reread, persistent, inited. cbv zeta.
  cbn [c_id c_group_id c_film_id c_width c_height c_filename c_maker c_model c_lens c_exposure c_aperture c_iso c_focal_length
       c_datetime_taken c_flags c_crop c_orientation c_focus_distance c_raw_parameters c_longitude c_latitude c_altitude
       c_color_matrix c_colorspace c_version c_raw_black c_raw_maximum c_aspect_ratio c_exposure_bias c_import_timestamp
       c_change_timestamp c_export_timestamp c_print_timestamp].
  assert (0 <= u32_of_flip (legacy_flip i) < 2 ^ 32) by (unfold u32_of_flip; lia).
  rewrite (read_u32 (u32_of_flip _)), (read_u32 (raw_white_point _)), (read_s32 (raw_black_level _)) by (unfold s32; lia).
  rewrite flip_of_u32_of_flip, Z.mod_small by lia. unfold column_float.
  rewrite read_float_or_nan, !read_float, !read_double, Hold, Hversion, !read_s32, !read_text, !column_s32_id by done.
  by destruct (timestamps i), (geoloc i).
Qed.

(** C17: writing an image and reading it again gives all that the row holds, with the aspect
    ratio rounded to one digit; the rest of the struct is as for an image that was not
    opened yet. *)
Theorem image_round_trip mem (i : dt_image_t) (old : image_row) (Hi : image_ok i) (Hid : s32 (id i)) (Hver : s32 (version i))
    (Hold : c_id old = id i) (Hversion : c_version old = version i) :
  image_of_row mem (row_of_image i old) =
    reread (narrow (default f32_zero (ROUND1 <$> bind_float (aspect_ratio i)))) i.
Proof. by apply image_of_written. Qed.

Lemma reread_equiv a i : reread a i ≡ i.
Proof. reflexivity. Qed.

End rounding.

Lemma persistent_idem i : persistent (persistent i) = persistent i.
Proof. unfold persistent at 1 3. cbn. by destruct (d65_color_matrix i) as [|[]]. Qed.

Lemma persistent_equiv i : persistent i ≡ i.
Proof. apply persistent_idem. Qed.

(** What is not initialised makes no difference. *)
Lemma image_of_row_mem mem mem' r : image_of_row mem r ≡ image_of_row mem' r.
Proof. unfold equiv, image_equiv, image_of_row, persistent. cbn. by destruct (c_color_matrix r). Qed.

#[global] Instance image_ok_proper : Proper ((≡) ==> iff) image_ok.
Proof.
  intros i j Hij. change (image_ok (persistent i) <-> image_ok (persistent j)). by rewrite (Hij : persistent i = persistent j).
Qed.

#[global] Instance id_proper : Proper ((≡) ==> (=)) id.
Proof. intros i j Hij. exact (f_equal id Hij). Qed.

#[global] Instance set_group_id_proper g : Proper ((≡) ==> (≡)) (set_group_id g).
Proof. intros i j Hij. exact (f_equal (set_group_id g) Hij). Qed.

#[global] Instance set_flags_proper f : Proper ((≡) ==> (≡)) (set_flags f).
Proof. intros i j Hij. exact (f_equal (set_flags f) Hij). Qed.

(** A group and flags that are in range may be stored. *)
Lemma image_ok_group g i : s32 g -> image_ok i -> image_ok (set_group_id g i).
Proof.
  intros Hg (He & Hf & Hints & Hr). split; [exact He|]. split; [exact Hf|]. split; [|exact Hr]. cbn.
  repeat (apply Forall_cons in Hints as [? Hints]). repeat (apply Forall_cons_2; [done|]). apply Forall_nil_2.
Qed.

Lemma image_ok_flags f i : s32 f -> image_ok i -> image_ok (set_flags f i).
Proof.
  intros Hg (He & Hf & Hints & Hr). split; [exact He|]. split; [exact Hf|]. split; [|exact Hr]. cbn.
  repeat (apply Forall_cons in Hints as [? Hints]). repeat (apply Forall_cons_2; [done|]). apply Forall_nil_2.
Qed.

Lemma complete_aspect_ratio_equiv i : complete_aspect_ratio i ≡ i.
Proof. unfold complete_aspect_ratio. by destruct (SFltb _ _). Qed.

Module Example.

(** One digit, halves rounded up. *)
Definition round1 (x : spec_float) : spec_float :=
  let ten := binary_normalize 53 1024 10 0 false in
  match float_floor (SFadd 53 1024 (SFmul 53 1024 x ten) double_half) with
  | Some z => SFdiv 53 1024 (binary_normalize 53 1024 z 0 false) ten
  | None => x
  end.

(** A photograph, 1/250 s at f/2.8 and ISO 100, taken with a lens of 50 mm; the distance
    is not known. *)
Definition photo : dt_image_t :=
  Image
    (Exif 1 1 (SFdiv 24 128 f32_one (float_of_int 250)) S754_nan (SFdiv 24 128 (float_of_int 28) (float_of_int 10))
       (float_of_int 100) (float_of_int 50) f32_zero f32_one "Canon" "EOS 6D" "50mm" "2020:05:01 10:00:00")
    "IMG_0007.CR2" (Dimensions 5472 3648 0 0 0 0 0 0 0 0 0) (SFdiv 24 128 (float_of_int 5472) (float_of_int 3648))
    (DT_IMAGE_RAW + 2) 1 7 7 0 (Timestamps 1588320000 (-1) (-1) (-1)) 9 (Buffer_dsc 1 TYPE_UINT16 iop_cs_RAW)
    (replicate 9 f32_zero) 0 0 (Raw_parameters 0 255) (Geoloc S754_nan S754_nan S754_nan) (Levels 2048 [0; 0; 0; 0] 15000)
    0 f32_one [] [].

Lemma photo_ok : image_ok photo.
Proof. apply (bool_decide_unpack _). vm_compute. done. Defined.

Definition empty_row (i : Z) : image_row :=
  Image_row i 0 0 0 0 None None None None None None None None None 0 None 0 None 0 None None None None 0 0 0 0 None None 0 0 0 0.

(** Its aspect ratio, 1.5, is one digit already. *)
Lemma image_round_trip_witness :
  image_of_row [] (row_of_image round1 photo (empty_row 7)) = reread (SFdiv 24 128 (float_of_int 3) (float_of_int 2)) photo.
Proof.
  etransitivity; [apply (image_round_trip round1 [] photo (empty_row 7)); [exact photo_ok|by vm_compute|by vm_compute|done|done]|].
  vm_compute. done.
Defined.

End Example.
