(* ===== verification/ImageCache.v ===== *)
(** common/image_cache.c: the cache of the images of the library, a client of
    common/cache.c that writes every change through to main.images and, if told so, to
    the sidecar file.

    The cache, its entries and their locks are those of [Cache]. What entry->data points
    to is a map from addresses to images, filled by the allocate callback and emptied by
    the cleanup callback. A pointer to an image that a client holds is the handle of its
    entry, as img->cache_entry leads back to the entry; NULL is [None]. Fresh addresses
    and the memory that malloc returns are arguments. Writing a sidecar file
    (common/image.c) is a record in a log.

    A get that finds the entry locked starts over: one attempt is one step, and
    [image_machine] interleaves the steps of all threads. *)

From Stdlib Require Import Ascii String SpecFloat.
From S2P Require Import Prelude Floats Cache Images.
Local Open Scope Z_scope.

(** [updating]: the entries that were got for writing and not released; what the clients
    keep to is stated with it. *)
Record image_cache := Image_cache {
  ic_sys : system;
  images : gmap Z dt_image_t;
  db : gmap Z image_row;
  sidecars : list Z;
  updating : list Z;
}.

Inductive dt_image_cache_write_mode_t := DT_IMAGE_CACHE_SAFE | DT_IMAGE_CACHE_RELAXED.

#[global] Instance write_mode_eq_dec : EqDecision dt_image_cache_write_mode_t.
Proof. solve_decision. Defined.

(** The attempts of functions that lock. *)
Definition blocking (A : Type) : Type := c_result (attempt A).

Definition block_bind {A B} (m : blocking A) (f : A -> blocking B) : blocking B :=
  let* r := m in match r with Return a => f a | Restart => Done Restart end.

Notation "'wait*' x ':=' m 'in' k" := (block_bind m (fun x => k))
  (at level 10, x pattern, m at level 100, k at level 200) : c_scope.

Section image_cache.

(** [sizeof_dt_image_t] depends on the platform. *)
Context (ROUND1 : spec_float -> spec_float) (sizeof_dt_image_t : Z).

Definition dt_image_cache_init (rows : gmap Z image_row) : image_cache :=
  let max_mem := 50 * 1024 * 1024 in
  let c := dt_cache_init sizeof_dt_image_t max_mem in
  let c := dt_cache_set_allocate_callback c (Some (fun e => Allocation 0 (data_size e) sizeof_dt_image_t)) in
  Image_cache (Sys (dt_cache_set_cleanup_callback c (Some 0)) []) ∅ rows [] [].

(** dt_image_cache_allocate: what it does to the entry, when malloc returns [mem], and to
    the image. *)
Definition allocate_callback (mem : Z) (e : dt_cache_entry_t) : allocation := Allocation mem (data_size e) sizeof_dt_image_t.

Definition dt_image_cache_allocate (garbage : list spec_float) (key : Z) (rows : gmap Z image_row) : dt_image_t :=
  match rows !! key with
  | Some r => image_of_row garbage r
  | None => set_id (-1) (dt_image_init garbage)
  end.

Definition dt_image_cache_deallocate (d : disposal) (m : gmap Z dt_image_t) : gmap Z dt_image_t :=
  match d with CleanupCallback _ e => delete (data e) m | FreeAlign a => delete a m end.

(** Following a pointer to an image; writing to it. *)
Definition data_of (s : image_cache) (h : handle) : c_result Z :=
  let* e := deref (sys_cache (ic_sys s)) (h_entry h) in Done (data e).

Definition image_at (s : image_cache) (h : handle) : c_result dt_image_t :=
  let* d := data_of s h in match images s !! d with Some img => Done img | None => Undefined end.

Definition store_image (h : handle) (img : dt_image_t) (s : image_cache) : c_result image_cache :=
  let* d := data_of s h in
  match images s !! d with
  | Some _ => Done (Image_cache (ic_sys s) (<[d := img]> (images s)) (db s) (sidecars s) (updating s))
  | None => Undefined
  end.

(** ** Operations *)

Definition dt_image_cache_get (thread addr mem : Z) (garbage : list spec_float) (imgid : Z) (mode : ascii) (s : image_cache)
    : blocking (option handle * image_cache) :=
  if imgid <=? 0 then Done (Return (None, s))
  else
    let c := dt_cache_set_allocate_callback (sys_cache (ic_sys s)) (Some (allocate_callback mem)) in
    wait* (a, write, disposed, c') := dt_cache_get c addr 0 imgid mode in
    let h := Handle thread a write in
    let kept := foldr dt_image_cache_deallocate (images s) disposed in
    let images' := match hashtable c !! imgid with
                   | Some _ => kept
                   | None => <[mem := dt_image_cache_allocate garbage imgid (db s)]> kept
                   end in
    Done (Return (Some h, Image_cache (Sys c' (h :: handles (ic_sys s))) images' (db s) (sidecars s)
                            (if mode_w mode then a :: updating s else updating s))).

Definition dt_image_cache_testget (thread imgid : Z) (mode : ascii) (s : image_cache) : c_result (option handle * image_cache) :=
  if imgid <=? 0 then Done (None, s)
  else
    let* (r, c') := dt_cache_testget (sys_cache (ic_sys s)) imgid mode in
    match r with
    | None => Done (None, Image_cache (Sys c' (handles (ic_sys s))) (images s) (db s) (sidecars s) (updating s))
    | Some a =>
        let h := Handle thread a (mode_w mode) in
        Done (Some h, Image_cache (Sys c' (h :: handles (ic_sys s))) (images s) (db s) (sidecars s)
                        (if mode_w mode then a :: updating s else updating s))
    end.

(** dt_cache_release of the entry of an image. *)
Definition release_entry (h : handle) (s : image_cache) : c_result image_cache :=
  let* c' := dt_cache_release (sys_cache (ic_sys s)) (h_entry h) in
  Done (Image_cache (Sys c' (drop_handle h (handles (ic_sys s)))) (images s) (db s) (sidecars s)
          (filter (fun a => a <> h_entry h) (updating s))).

Definition dt_image_cache_read_release (img : option handle) (s : image_cache) : c_result image_cache :=
  match img with
  | None => Done s
  | Some h =>
      let* i := image_at s h in
      if id i <=? 0 then Done s else release_entry h s
  end.

(** UPDATE main.images ... WHERE id = ?32 *)
Definition update_row (i : dt_image_t) (rows : gmap Z image_row) : gmap Z image_row :=
  match rows !! id i with Some r => <[id i := row_of_image ROUND1 i r]> rows | None => rows end.

Definition dt_image_cache_write_release (img : option handle) (mode : dt_image_cache_write_mode_t) (s : image_cache)
    : c_result image_cache :=
  match img with
  | None => Undefined
  | Some h =>
      let* i := image_at s h in
      let i := complete_aspect_ratio i in
      let* s := store_image h i s in
      if id i <=? 0 then Done s
      else
        release_entry h
          (Image_cache (ic_sys s) (images s) (update_row i (db s))
             (if decide (mode = DT_IMAGE_CACHE_SAFE) then sidecars s ++ [id i] else sidecars s) (updating s))
  end.

Definition dt_image_cache_remove (imgid : Z) (s : image_cache) : blocking image_cache :=
  wait* (_, disposed, c') := dt_cache_remove (sys_cache (ic_sys s)) imgid in
  Done (Return (Image_cache (Sys c' (handles (ic_sys s))) (foldr dt_image_cache_deallocate (images s) disposed)
                  (db s) (sidecars s) (updating s))).

(** The functions that set a time stamp pass the mode DT_IMAGE_CACHE_SAFE, which is 0, to
    dt_cache_get. *)
Definition set_timestamp (change : dt_image_timestamps -> dt_image_timestamps) (thread addr mem : Z) (garbage : list spec_float)
    (imgid : Z) (s : image_cache) : blocking image_cache :=
  if imgid <=? 0 then Done (Return s)
  else
    wait* (img, s) := dt_image_cache_get thread addr mem garbage imgid NUL s in
    match img with
    | None => Done (Return s)
    | Some h =>
        let* i := image_at s h in
        let* s := store_image h (set_timestamps (change (timestamps i)) i) s in
        let* s := dt_image_cache_write_release (Some h) DT_IMAGE_CACHE_SAFE s in
        Done (Return s)
    end.

Definition dt_image_cache_set_change_timestamp (now : Z) :=
  set_timestamp (fun t => Timestamps (import_timestamp t) now (export_timestamp t) (print_timestamp t)).
Definition dt_image_cache_unset_change_timestamp :=
  set_timestamp (fun t => Timestamps (import_timestamp t) (-1) (export_timestamp t) (print_timestamp t)).
Definition dt_image_cache_set_export_timestamp (now : Z) :=
  set_timestamp (fun t => Timestamps (import_timestamp t) (change_timestamp t) now (print_timestamp t)).
Definition dt_image_cache_set_print_timestamp (now : Z) :=
  set_timestamp (fun t => Timestamps (import_timestamp t) (change_timestamp t) (export_timestamp t) now).

(** ** The threads *)

(** [IStore] is a client that changes the image it got for writing, [IInsert] the INSERT of
    an image that is imported. *)
Inductive image_action :=
  | IGet (thread addr mem : Z) (garbage : list spec_float) (imgid : Z) (mode : ascii)
  | ITestget (thread imgid : Z) (mode : ascii)
  | IStore (h : handle) (img : dt_image_t)
  | IReadRelease (h : handle)
  | IWriteRelease (h : handle) (mode : dt_image_cache_write_mode_t)
  | IRemove (imgid : Z)
  | IInsert (imgid : Z) (row : image_row).

(** The row of an image: nothing in it is out of range. *)
Definition row_ok (imgid : Z) (r : image_row) : Prop :=
  0 < imgid < 2 ^ 31 /\ c_id r = imgid /\ s32 (c_version r) /\ s32 (c_group_id r) /\ image_ok (image_of_row [] r).

(** The clients keep id and version of an image and the ranges of its other fields. *)
Definition storable (img : dt_image_t) (old : c_result dt_image_t) : Prop :=
  match old with Done i => id img = id i /\ version img = version i /\ image_ok img | Undefined => False end.

Definition image_allowed (s : image_cache) (act : image_action) : Prop :=
  match act with
  | IGet _ addr mem _ _ _ => heap (sys_cache (ic_sys s)) !! addr = None /\ images s !! mem = None
  | ITestget _ _ _ | IRemove _ => True
  | IStore h img => h ∈ handles (ic_sys s) /\ h_entry h ∈ updating s /\ storable img (image_at s h)
  | IReadRelease h => h ∈ handles (ic_sys s) /\ h_entry h ∉ updating s
  | IWriteRelease h _ => h ∈ handles (ic_sys s) /\ h_entry h ∈ updating s
  | IInsert imgid row => db s !! imgid = None /\ hashtable (sys_cache (ic_sys s)) !! imgid = None /\ row_ok imgid row
  end.

#[global] Instance storable_dec img old : Decision (storable img old).
Proof. destruct old; cbn; apply _. Defined.
#[global] Instance image_allowed_dec s act : Decision (image_allowed s act).
Proof. destruct act; cbn; unfold row_ok; apply _. Defined.

Definition image_perform (s : image_cache) (act : image_action) : c_result image_cache :=
  match act with
  | IGet thread addr mem garbage imgid mode =>
      let* r := dt_image_cache_get thread addr mem garbage imgid mode s in
      match r with Return (_, s') => Done s' | Restart => Done s end
  | ITestget thread imgid mode => let* (_, s') := dt_image_cache_testget thread imgid mode s in Done s'
  | IStore h img => store_image h img s
  | IReadRelease h => dt_image_cache_read_release (Some h) s
  | IWriteRelease h mode => dt_image_cache_write_release (Some h) mode s
  | IRemove imgid =>
      let* r := dt_image_cache_remove imgid s in
      match r with Return s' => Done s' | Restart => Done s end
  | IInsert imgid row => Done (Image_cache (ic_sys s) (images s) (<[imgid := row]> (db s)) (sidecars s) (updating s))
  end.

#[global] Instance image_machine : Machine image_cache image_action :=
  {| m_allowed := image_allowed; m_perform := image_perform |}.

End image_cache.

(** ** The invariant *)

Section coherence.
Context (ROUND1 : spec_float -> spec_float) (sizeof_dt_image_t : Z).

(** A cached image and its row hold the same, the aspect ratio up to rounding. *)
Definition agrees (img : dt_image_t) (r : image_row) : Prop :=
  img ≡ image_of_row [] r /\
  (aspect_ratio (image_of_row [] r) = aspect_ratio img \/
   aspect_ratio (image_of_row [] r) = narrow (default f32_zero (ROUND1 <$> bind_float (aspect_ratio img)))).

(** The image of an entry, unless the id is not in the database, in which case the entry
    is locked for writing. *)
Definition entry_ok (imgs : gmap Z dt_image_t) (rows : gmap Z image_row) (upd : list Z) (a : Z) (e : dt_cache_entry_t) : Prop :=
  0 < key e /\ exists img, imgs !! data e = Some img /\
    ((id img = key e /\ image_ok img /\
      exists r, rows !! key e = Some r /\ version img = c_version r /\ (a ∉ upd -> agrees img r)) \/
     (id img = -1 /\ rows !! key e = None /\ writer (lock e) = true)).

Record ic_inv (s : image_cache) : Prop := {
  ici_cache : inv (ic_sys s);
  ici_cleanup : is_Some (c_cleanup (sys_cache (ic_sys s)));
  ici_entries : forall a e, heap (sys_cache (ic_sys s)) !! a = Some e -> entry_ok (images s) (db s) (updating s) a e;
  ici_data : forall a b e f, heap (sys_cache (ic_sys s)) !! a = Some e -> heap (sys_cache (ic_sys s)) !! b = Some f ->
    data e = data f -> a = b;
  ici_updating : forall a, a ∈ updating s -> exists e, heap (sys_cache (ic_sys s)) !! a = Some e /\ writer (lock e) = true;
  ici_rows : forall k r, db s !! k = Some r -> row_ok k r;
}.

Lemma agrees_loaded mem r : agrees (image_of_row mem r) r.
Proof. split; [apply image_of_row_mem|by left]. Qed.

Lemma row_ok_s32 k r : row_ok k r -> s32 k.
Proof. intros (? & _). unfold s32. lia. Qed.

Lemma loaded_ok mem k r : row_ok k r -> image_ok (image_of_row mem r) /\ id (image_of_row mem r) = k /\
  version (image_of_row mem r) = c_version r.
Proof.
  intros (Hk & Hid & Hv & _ & Hok). split; [by rewrite (image_of_row_mem mem [] r)|]. unfold image_of_row. cbn.
  rewrite Hid. split; apply column_s32_id; [unfold s32; lia|done].
Qed.

(** Writing an image that may be stored makes row and image agree. *)
Lemma written_agrees i r : image_ok i -> row_ok (id i) r -> version i = c_version r ->
  agrees i (row_of_image ROUND1 i r) /\ row_ok (id i) (row_of_image ROUND1 i r).
Proof.
  intros Hi Hr Hv. pose proof Hr as (Hk & Hid & Hver & _).
  assert (forall mem, image_of_row mem (row_of_image ROUND1 i r) =
            reread (narrow (default f32_zero (ROUND1 <$> bind_float (aspect_ratio i)))) i) as Hread.
  { intros mem. apply image_of_written; try done; [by apply (row_ok_s32 _ r)|by rewrite Hv]. }
  unfold agrees, row_ok. rewrite !Hread. split; [split; [done|by right]|].
  split; [done|]. split; [done|]. split; [done|]. split; [apply s32_wrap|by rewrite reread_equiv].
Qed.

(** *** Entries that are given up *)

Lemma gc_outcome_disposes fill l c c' ds : gc_outcome fill l c c' ds ->
  exists vs, c' = foldl delete_at c vs /\ ds = vs ≫= dispose_at c /\ forall a, a ∈ vs -> ~ busy (heap c) a.
Proof. intros (n & -> & -> & _). eexists. split; [done|]. split; [done|]. by intros a [? _]%list_elem_of_filter. Qed.

Lemma after_gc_disposes c c' ds : after_gc c c' ds ->
  exists vs, c' = foldl delete_at c vs /\ ds = vs ≫= dispose_at c /\ forall a, a ∈ vs -> ~ busy (heap c) a.
Proof.
  unfold after_gc. destruct (gc_needed c); [apply gc_outcome_disposes|]. intros [-> ->]. exists []. split; [done|].
  split; [done|]. by intros ? []%not_elem_of_nil.
Qed.

Lemma deallocated c vs imgs d : is_Some (c_cleanup c) ->
  (forall a e, a ∈ vs -> heap c !! a = Some e -> data e <> d) ->
  foldr dt_image_cache_deallocate imgs (vs ≫= dispose_at c) !! d = imgs !! d.
Proof.
  intros [u Hu] Hd. induction vs as [|a vs IH]; [done|]. cbn [mbind list_bind]. rewrite foldr_app.
  assert (forall m, foldr dt_image_cache_deallocate m (dispose_at c a) !! d = m !! d) as Ha.
  { intros m. unfold dispose_at. destruct (heap c !! a) as [e|] eqn:He; [|done]. cbn. unfold dispose. rewrite Hu. cbn.
    rewrite lookup_delete_ne; [done|]. eapply Hd; [|exact He]. by left. }
  rewrite Ha. apply IH. intros b e Hb. apply Hd. by right.
Qed.

Lemma deallocated_none c vs imgs d : imgs !! d = None -> foldr dt_image_cache_deallocate imgs (vs ≫= dispose_at c) !! d = None.
Proof.
  intros Hd. induction vs as [|a vs IH]; [done|]. cbn [mbind list_bind]. rewrite foldr_app.
  set (m := foldr _ imgs _) in *. clearbody m. unfold dispose_at.
  destruct (heap c !! a) as [e|]; [|exact IH]. cbn. unfold dispose.
  destruct (c_cleanup c); cbn; apply lookup_delete_None; auto.
Qed.

Lemma ic_delete c hs imgs rows log upd vs :
  ic_inv (Image_cache (Sys c hs) imgs rows log upd) -> (forall a, a ∈ vs -> ~ busy (heap c) a) ->
  ic_inv (Image_cache (Sys (foldl delete_at c vs) hs) (foldr dt_image_cache_deallocate imgs (vs ≫= dispose_at c)) rows log upd).
Proof.
  intros [Hc Hcl He Hd Hu Hr] Hvs. cbn in *. pose proof (delete_all_fixed vs c) as (_ & _ & _ & Hfix).
  split; cbn; [by apply inv_delete_all|by rewrite Hfix| | | |done].
  - intros a e. rewrite delete_all_lookup. case_decide as Ha; [done|]. intros Hae.
    destruct (He a e Hae) as (Hk & img & Himg & Hcase). split; [done|]. exists img. split; [|done].
    rewrite deallocated; [done|done|]. intros b f Hb Hbf Hdf. by rewrite (Hd b a f e Hbf Hae Hdf) in Hb.
  - intros a b e f. rewrite !delete_all_lookup. do 2 (case_decide; [done|]). by apply Hd.
  - intros a Ha. destruct (Hu a Ha) as (e & Hae & Hw). exists e. split; [|done]. rewrite delete_all_lookup.
    case_decide as Hin; [|done]. destruct (Hvs a Hin). rewrite (busy_cases _ _ _ Hae). left.
    unfold dt_pthread_rwlock_trywrlock. by rewrite Hw.
Qed.

(** *** Entries that are locked *)

Lemma trylock_free mode l l' : trylock mode l = Some l' -> writer l = false /\ writer l' = mode_w mode.
Proof.
  unfold trylock, dt_pthread_rwlock_trywrlock, dt_pthread_rwlock_tryrdlock.
  destruct (mode_w mode), (writer l); cbn; try done; [destruct (readers l =? 0); cbn|]; intros; by simplify_eq.
Qed.

(** An entry that a thread could lock holds an image, and it agrees with the database. *)
Lemma entry_free s a e : ic_inv s -> heap (sys_cache (ic_sys s)) !! a = Some e -> writer (lock e) = false ->
  0 < key e /\ exists img r, images s !! data e = Some img /\ id img = key e /\ image_ok img /\
    db s !! key e = Some r /\ version img = c_version r /\ agrees img r.
Proof.
  intros [Hc Hcl He Hd Hu Hr] Ha Hw. destruct (He a e Ha) as (Hk & img & Himg & [(Hid & Hok & r & Hrow & Hv & Hag)|(_ & _ & Hw')]).
  - split; [done|]. exists img, r. split_and!; try done. apply Hag. intros Hin. destruct (Hu a Hin) as (e' & Ha' & Hw').
    rewrite Ha in Ha'. simplify_eq. congruence.
  - congruence.
Qed.

Lemma ic_lock c hs imgs rows log upd a e t l mode :
  ic_inv (Image_cache (Sys c hs) imgs rows log upd) -> heap c !! a = Some e -> trylock mode (lock e) = Some l ->
  ic_inv (Image_cache (Sys (bubble_up a (update_entry a (with_lock l e) c)) (Handle t a (mode_w mode) :: hs)) imgs rows log
            (if mode_w mode then a :: upd else upd)).
Proof.
  intros Hinv Ha Ht. pose proof Hinv as [Hc Hcl He Hd Hu Hr]. cbn in *. destruct (trylock_free _ _ _ Ht) as [Hw Hw'].
  destruct (entry_free _ a e Hinv Ha Hw) as (Hk & img & r & Himg & Hid & Hok & Hrow & Hv & Hag). cbn in *.
  assert (forall b f, <[a:=with_lock l e]> (heap c) !! b = Some f -> exists g, heap c !! b = Some g /\ data g = data f /\ key g = key f) as Hold.
  { intros b f. destruct (decide (b = a)) as [->|]; [rewrite lookup_insert_eq|rewrite lookup_insert_ne by done; by eauto].
    intros; simplify_eq. by exists e. }
  split; cbn; [|done| | | |done].
  - apply inv_lock; try done. apply (wf_lru_heap c (proj1 Hc)). by rewrite Ha.
  - intros b f Hb. destruct (decide (b = a)) as [->|Hne].
    + rewrite lookup_insert_eq in Hb. simplify_eq. split; [done|]. exists img. split; [done|]. left.
      split_and!; [done|done|]. by exists r.
    + rewrite lookup_insert_ne in Hb by done. destruct (He b f Hb) as (Hkf & img' & Himg' & Hcase). split; [done|].
      exists img'. split; [done|]. destruct Hcase as [(? & ? & r' & ? & ? & Hag')|?]; [left|by right].
      split_and!; [done..|]. exists r'. split_and!; [done..|]. intros Hni. apply Hag'. destruct (mode_w mode); [set_solver|done].
  - intros b1 b2 f1 f2 H1 H2 Hdf. destruct (Hold _ _ H1) as (g1 & Hg1 & Hd1 & _), (Hold _ _ H2) as (g2 & Hg2 & Hd2 & _).
    apply (Hd b1 b2 g1 g2 Hg1 Hg2). congruence.
  - intros b Hb. destruct (decide (b = a)) as [->|Hne].
    + rewrite lookup_insert_eq. eexists. split; [done|]. cbn. rewrite Hw'. destruct (mode_w mode); [done|].
      destruct (Hu a Hb) as (e' & Ha' & Hx). rewrite Ha in Ha'. simplify_eq. congruence.
    + rewrite lookup_insert_ne by done. apply Hu. destruct (mode_w mode); [set_solver|done].
Qed.

(** A new entry: its image is loaded, and it is locked for writing. *)
Lemma ic_insert c hs imgs rows log upd a mem garbage k t mode :
  ic_inv (Image_cache (Sys c hs) imgs rows log upd) -> heap c !! a = None -> imgs !! mem = None -> hashtable c !! k = None ->
  0 < k -> c_allocate c = Some (allocate_callback sizeof_dt_image_t mem) ->
  fst (insert_entry c a 0 k mode) = true /\
  ic_inv (Image_cache (Sys (snd (insert_entry c a 0 k mode)) (Handle t a true :: hs))
            (<[mem := dt_image_cache_allocate garbage k rows]> imgs) rows log (if mode_w mode then a :: upd else upd)).
Proof.
  intros Hinv Ha Hmem Hk Hpos Hal. pose proof Hinv as [Hc Hcl He Hd Hu Hr]. cbn in *.
  assert (fst (insert_entry c a 0 k mode) = true) as Hfst by (unfold insert_entry; cbn; rewrite Hal; by destruct (mode_w mode)).
  split; [done|].
  assert (inv (Sys (snd (insert_entry c a 0 k mode)) (Handle t a true :: hs))) as Hinv'.
  { destruct Hc as [Hwf Hlk]. cbn in Hwf, Hlk. split; cbn; [by apply wf_insert_entry|]. apply locks_insert; [done|done|]. cbn. by rewrite Hal; destruct (mode_w mode). }
  revert Hinv'. unfold insert_entry. cbn [fst snd]. set (e := with_lock _ _). intros Hinv'.
  assert (key e = k /\ data e = mem /\ writer (lock e) = true) as (Hke & Hde & Hwe).
  { unfold e, allocate_entry. rewrite Hal. cbn. by destruct (mode_w mode). }
  split; cbn; [exact Hinv'|done| | | |done]; clearbody e.
  - intros b f Hb. destruct (decide (b = a)) as [->|Hne].
    + rewrite lookup_insert_eq in Hb. simplify_eq. split; [done|]. eexists. split; [apply lookup_insert_eq|].
      unfold dt_image_cache_allocate. destruct (rows !! key f) as [r|] eqn:Hrow; [left|by right].
      destruct (loaded_ok garbage _ _ (Hr _ _ Hrow)) as (? & ? & ?). split_and!; [done..|]. exists r. split_and!; [done..|].
      intros _. apply agrees_loaded.
    + rewrite lookup_insert_ne in Hb by done. destruct (He b f Hb) as (Hkf & img' & Himg' & Hcase). split; [done|].
      exists img'. split; [rewrite lookup_insert_ne; [done|]; intros ->; congruence|].
      destruct Hcase as [(? & ? & r' & ? & ? & Hag')|?]; [left|by right].
      split_and!; [done..|]. exists r'. split_and!; [done..|]. intros Hni. apply Hag'. destruct (mode_w mode); [set_solver|done].
  - assert (forall b f, heap c !! b = Some f -> data f <> data e) as Hfresh.
    { intros b f Hb Hfe. destruct (He b f Hb) as (_ & img & Himg & _). congruence. }
    intros b1 b2 f1 f2. destruct (decide (b1 = a)) as [->|], (decide (b2 = a)) as [->|];
      rewrite ?lookup_insert_eq, ?lookup_insert_ne by done; intros H1 H2 Hdf; simplify_eq; [done|..].
    + by destruct (Hfresh b2 f2 H2).
    + by destruct (Hfresh b1 f1 H1).
    + by apply (Hd b1 b2 f1 f2).
  - intros b Hb. destruct (decide (b = a)) as [->|Hne]; [rewrite lookup_insert_eq; by eauto|].
    rewrite lookup_insert_ne by done. apply Hu. destruct (mode_w mode); [set_solver|done].
Qed.

(** *** Operations of the cache *)

Lemma ic_set_allocate c hs imgs rows log upd f :
  ic_inv (Image_cache (Sys c hs) imgs rows log upd) ->
  ic_inv (Image_cache (Sys (dt_cache_set_allocate_callback c f) hs) imgs rows log upd).
Proof. intros [[[] ?] ? ? ? ? ?]. by split; [split; [split|]|..]. Qed.

(** What a get that returns gives: the image as the database has it, or one with the
    number -1. *)
Definition got (s : image_cache) (k : Z) (img : dt_image_t) : Prop :=
  match db s !! k with
  | Some r => id img = k /\ image_ok img /\ version img = c_version r /\ agrees img r
  | None => id img = -1
  end.

Definition holds (s : image_cache) (h : handle) (k : Z) (img : dt_image_t) : Prop :=
  exists e, heap (sys_cache (ic_sys s)) !! h_entry h = Some e /\ key e = k /\ images s !! data e = Some img.

Lemma holds_image_at s h k img : holds s h k img -> image_at s h = Done img.
Proof. intros (e & He & _ & Hi). unfold image_at, data_of, deref. rewrite He. cbn. by rewrite Hi. Qed.

Lemma image_get_spec s t a mem garbage k mode :
  ic_inv s -> 0 < k -> heap (sys_cache (ic_sys s)) !! a = None -> images s !! mem = None ->
  (dt_image_cache_get sizeof_dt_image_t t a mem garbage k mode s = Done Restart /\
   exists b e, hashtable (sys_cache (ic_sys s)) !! k = Some b /\ heap (sys_cache (ic_sys s)) !! b = Some e /\ trylock mode (lock e) = None) \/
  exists h s', dt_image_cache_get sizeof_dt_image_t t a mem garbage k mode s = Done (Return (Some h, s')) /\ ic_inv s' /\
    db s' = db s /\ sidecars s' = sidecars s /\ handles (ic_sys s') = h :: handles (ic_sys s) /\
    updating s' = (if mode_w mode then h_entry h :: updating s else updating s) /\ (mode_w mode = true -> h_write h = true) /\
    (forall b e, heap (sys_cache (ic_sys s)) !! b = Some e -> writer (lock e) = true -> heap (sys_cache (ic_sys s')) !! b = Some e) /\
    exists img, holds s' h k img /\ got s k img.
Proof.
  intros Hinv Hk Ha Hmem. destruct s as [[c hs] imgs rows log upd]. cbn in Ha, Hmem.
  unfold dt_image_cache_get. destruct (Z.leb_spec k 0); [lia|]. cbn [ic_sys sys_cache handles images db sidecars updating].
  set (c0 := dt_cache_set_allocate_callback c _).
  pose proof (ic_set_allocate c hs imgs rows log upd (Some (allocate_callback sizeof_dt_image_t mem)) Hinv) as Hinv0. fold c0 in Hinv0.
  change (hashtable c) with (hashtable c0). change (heap c) with (heap c0) in *.
  destruct (hashtable c0 !! k) as [b|] eqn:Hb.
  - destruct (wf_found c0 (proj1 (ici_cache _ Hinv0)) k b Hb) as (e & He & Hke & _).
    unfold dt_cache_get. rewrite Hb. unfold deref. rewrite He. cbn [c_bind].
    destruct (trylock mode (lock e)) as [l|] eqn:Ht; [right|left; split; [done|by exists b, e]].
    destruct (trylock_free _ _ _ Ht) as [Hw _].
    destruct (entry_free _ b e Hinv0 He Hw) as (_ & img & r & Himg & Hid & Hok & Hrow & Hv & Hag). cbn in Himg, Hrow.
    eexists (Handle t b (mode_w mode)), _. split; [reflexivity|]. split; [by eapply ic_lock|].
    split_and!; try done.
    { cbn. change (heap c) with (heap c0). intros b' e' He' Hw'. rewrite lookup_insert_ne; [done|]. intros <-.
      rewrite He in He'. simplify_eq. congruence. }
    exists img. split.
    + eexists. split; [apply lookup_insert_eq|]. done.
    + unfold got. cbn. rewrite Hke in Hrow, Hid. by rewrite Hrow.
  - right. destruct (get_miss c0 hs t a 0 k mode (ici_cache _ Hinv0) Hb Ha) as (c1 & ds & Hgc & Hk1 & Hg & _).
    rewrite Hg. unfold block_bind. cbn [c_bind].
    destruct (after_gc_disposes _ _ _ Hgc) as (vs & -> & -> & Hvs).
    pose proof (ic_delete c0 hs imgs rows log upd vs Hinv0 Hvs) as Hinv1.
    pose proof (delete_all_fixed vs c0) as (_ & _ & Hal & _).
    destruct (ic_insert _ hs _ rows log upd a mem garbage k t mode Hinv1) as [Hfst Hinv2]; [|by apply deallocated_none|done|done|by rewrite Hal|].
    { rewrite delete_all_lookup. by case_decide. }
    rewrite Hfst. eexists (Handle t a true), _. split; [reflexivity|]. split; [exact Hinv2|].
    split_and!; try done.
    { cbn. change (heap c) with (heap c0). intros b' e' He' Hw'. rewrite lookup_insert_ne, delete_all_lookup by (intros <-; congruence).
      case_decide as Hin; [|done]. destruct (Hvs _ Hin). rewrite (busy_cases _ _ _ He'). left.
      unfold dt_pthread_rwlock_trywrlock. by rewrite Hw'. }
    eexists. split.
    + eexists. split; [apply lookup_insert_eq|]. cbn. unfold allocate_entry. rewrite Hal. cbn. split; [done|]. apply lookup_insert_eq.
    + unfold got, dt_image_cache_allocate. cbn. destruct (rows !! k) as [r|] eqn:Hrow; [|done].
      destruct (loaded_ok garbage k r (ici_rows _ Hinv k r Hrow)) as (? & ? & ?). split_and!; try done. apply agrees_loaded.
Qed.

(** A held entry has its image. *)
Lemma held_image s h : ic_inv s -> h ∈ handles (ic_sys s) ->
  exists e img, heap (sys_cache (ic_sys s)) !! h_entry h = Some e /\ holds s h (key e) img /\
    images s !! data e = Some img /\ entry_ok (images s) (db s) (updating s) (h_entry h) e.
Proof.
  intros [[Hwf Hlk] Hcl He Hd Hu Hr] Hh. destruct (locks_held _ _ Hlk h Hh) as [e Hhe]. pose proof (He _ _ Hhe) as Hok.
  destruct Hok as (Hk & img & Himg & Hcase) eqn:E. exists e, img. split; [done|]. split; [by exists e|]. by split.
Qed.

Definition same_image_id (img img' : dt_image_t) : Prop := id img' = id img /\ version img' = version img.

(** The image of an entry that is being updated, or whose aspect ratio is set, changes. *)
Lemma ic_store c hs imgs rows log upd a e img img' :
  ic_inv (Image_cache (Sys c hs) imgs rows log upd) -> heap c !! a = Some e -> imgs !! data e = Some img ->
  same_image_id img img' -> (id img' = key e -> image_ok img') ->
  a ∈ upd \/ id img' = -1 ->
  ic_inv (Image_cache (Sys c hs) (<[data e := img']> imgs) rows log upd).
Proof.
  intros [Hc Hcl He Hd Hu Hr] Ha Himg [Hid Hv] Hok Hupd. cbn in *. split; cbn; try done.
  intros b f Hb. destruct (He b f Hb) as (Hk & img1 & Himg1 & Hcase). split; [done|].
  destruct (decide (data e = data f)) as [Heq|Hne]; [|exists img1; by rewrite lookup_insert_ne].
  pose proof (Hd _ _ _ _ Ha Hb Heq) as <-. rewrite Ha in Hb. simplify_eq.
  exists img'. rewrite lookup_insert_eq. split; [done|]. destruct Hcase as [(Hk1 & _ & r & Hrow & Hvr & _)|(Hk1 & Hn & Hw)].
  - left. split; [congruence|]. split; [apply Hok; congruence|]. exists r. split; [done|]. split; [congruence|].
    destruct Hupd as [Hin|Hm]; [done|lia].
  - right. split_and!; try done. congruence.
Qed.

Lemma ic_release s h e img r :
  ic_inv s -> h ∈ handles (ic_sys s) -> heap (sys_cache (ic_sys s)) !! h_entry h = Some e -> images s !! data e = Some img ->
  id img = key e -> db s !! key e = Some r -> agrees img r ->
  exists s', release_entry h s = Done s' /\ ic_inv s' /\ images s' = images s /\ db s' = db s /\ sidecars s' = sidecars s /\
    handles (ic_sys s') = drop_handle h (handles (ic_sys s)) /\ updating s' = filter (fun a => a <> h_entry h) (updating s) /\
    hashtable (sys_cache (ic_sys s')) = hashtable (sys_cache (ic_sys s)) /\
    exists l, heap (sys_cache (ic_sys s')) = <[h_entry h := with_lock l e]> (heap (sys_cache (ic_sys s))).
Proof.
  destruct s as [[c hs] imgs rows log upd]. intros [[Hwf Hlk] Hcl He Hd Hu Hr] Hh Hhe Himg Hid Hrow Hag. cbn in *.
  destruct (locks_release _ _ Hlk h e Hh Hhe) as (l & Hl & Hlk').
  unfold release_entry, dt_cache_release, deref. cbn. rewrite Hhe. cbn. rewrite Hl. cbn.
  eexists. split; [reflexivity|]. cbn. split; [|by eauto 10].
  assert (forall b f, <[h_entry h:=with_lock l e]> (heap c) !! b = Some f ->
            (b = h_entry h /\ f = with_lock l e) \/ (b <> h_entry h /\ heap c !! b = Some f)) as Hold.
  { intros b f. destruct (decide (b = h_entry h)) as [->|]; [rewrite lookup_insert_eq|rewrite lookup_insert_ne by done]; naive_solver. }
  split; cbn; [split; [by apply (wf_update_entry c Hwf _ e)|done]|done| | | |done].
  - intros b f [[-> ->]|[Hne Hb]]%Hold; cbn.
    + destruct (He _ _ Hhe) as (Hk & img' & Himg' & Hcase). rewrite Himg in Himg'. simplify_eq. split; [done|]. cbn. exists img'.
      split; [done|]. left. destruct Hcase as [(? & ? & r' & ? & ? & _)|(? & ? & _)]; [|congruence].
      simplify_eq. split_and!; [done..|]. eexists. by split.
    + destruct (He b f Hb) as (Hk & img' & Himg' & Hcase). split; [done|]. exists img'. split; [done|].
      destruct Hcase as [(? & ? & r' & ? & ? & Hag')|?]; [left|by right]. split_and!; [done..|]. exists r'. split_and!; [done..|].
      intros Hni. apply Hag'. intros Hin. apply Hni. by apply list_elem_of_filter.
  - intros b1 b2 f1 f2 [[-> ->]|[H1 Hb1]]%Hold [[-> ->]|[H2 Hb2]]%Hold Hdf; cbn in Hdf; [done|..]; by eapply Hd.
  - intros b [Hne Hb]%list_elem_of_filter. destruct (Hu b Hb) as (f & Hf & Hw). exists f. by rewrite lookup_insert_ne.
Qed.

(** The row of an image that is being updated is written. *)
Lemma ic_write_row c hs imgs rows log upd a e img r log' :
  ic_inv (Image_cache (Sys c hs) imgs rows log upd) -> heap c !! a = Some e -> imgs !! data e = Some img ->
  id img = key e -> rows !! key e = Some r -> version img = c_version r -> image_ok img ->
  agrees img (row_of_image ROUND1 img r) /\
  ic_inv (Image_cache (Sys c hs) imgs (<[key e := row_of_image ROUND1 img r]> rows) log' upd).
Proof.
  intros [Hc Hcl He Hd Hu Hr] Ha Himg Hid Hrow Hv Hok. cbn in *.
  destruct (written_agrees img r Hok) as [Hag Hrok]; [rewrite Hid; by apply Hr|done|]. split; [done|]. split; cbn; try done.
  - intros b f Hb. destruct (He b f Hb) as (Hk & img' & Himg' & Hcase). split; [done|]. exists img'. split; [done|].
    destruct (decide (key f = key e)) as [Hke|Hne].
    + assert (b = a) as ->.
      { assert (hashtable c !! key e = Some a) by (apply (wf_table c (proj1 Hc)); by exists e).
        assert (hashtable c !! key e = Some b) by (apply (wf_table c (proj1 Hc)); by exists f). congruence. }
      simplify_eq. left. split_and!; [done..|]. rewrite lookup_insert_eq. eexists. split; [done|]. by split.
    + by rewrite lookup_insert_ne.
  - intros k r'. destruct (decide (k = key e)) as [->|]; [rewrite lookup_insert_eq|rewrite lookup_insert_ne by done; apply Hr].
    intros; simplify_eq. by rewrite <- Hid.
Qed.

Lemma image_cases s h : ic_inv s -> h ∈ handles (ic_sys s) ->
  exists e k img, heap (sys_cache (ic_sys s)) !! h_entry h = Some e /\ key e = k /\ images s !! data e = Some img /\
    data_of s h = Done (data e) /\ image_at s h = Done img /\ 0 < k /\
    ((id img = k /\ image_ok img /\ exists r, db s !! k = Some r /\ version img = c_version r /\
        (h_entry h ∉ updating s -> agrees img r)) \/
     (id img = -1 /\ db s !! k = None /\ writer (lock e) = true)).
Proof.
  intros Hinv Hh. destruct (held_image s h Hinv Hh) as (e & img & He & Hhold & Himg & Hk & img' & Himg' & Hcase).
  rewrite Himg in Himg'. simplify_eq. exists e, (key e), img'. split_and!; try done.
  - unfold data_of, deref. by rewrite He.
  - by apply (holds_image_at s h (key e)).
Qed.

Lemma read_release_spec s h :
  ic_inv s -> h ∈ handles (ic_sys s) -> h_entry h ∉ updating s ->
  exists e k img, heap (sys_cache (ic_sys s)) !! h_entry h = Some e /\ key e = k /\ image_at s h = Done img /\
  ((id img = -1 /\ dt_image_cache_read_release (Some h) s = Done s) \/
   (id img = k /\ exists s', dt_image_cache_read_release (Some h) s = Done s' /\ ic_inv s' /\ images s' = images s /\
      db s' = db s /\ sidecars s' = sidecars s /\ handles (ic_sys s') = drop_handle h (handles (ic_sys s)) /\
      updating s' = filter (fun a => a <> h_entry h) (updating s) /\
      hashtable (sys_cache (ic_sys s')) = hashtable (sys_cache (ic_sys s)) /\
      exists l, heap (sys_cache (ic_sys s')) = <[h_entry h := with_lock l e]> (heap (sys_cache (ic_sys s))))).
Proof.
  intros Hinv Hh Hupd. destruct (image_cases s h Hinv Hh) as (e & k & img & He & Hk & Himg & _ & Hat & Hpos & Hcase).
  exists e, k, img. split_and!; try done. unfold dt_image_cache_read_release. rewrite Hat. cbn [c_bind].
  destruct Hcase as [(Hid & Hok & r & Hrow & Hv & Hag)|(Hid & _)]; [right|left; by rewrite Hid].
  split; [done|]. destruct (Z.leb_spec (id img) 0); [lia|].
  eapply ic_release; [done|done|exact He|exact Himg|congruence|by rewrite Hk|by apply Hag].
Qed.

(** A release after writing stores the completed image in the row, if there is one. *)
Lemma write_release_spec s h mode :
  ic_inv s -> h ∈ handles (ic_sys s) -> h_entry h ∈ updating s ->
  exists e k img s', heap (sys_cache (ic_sys s)) !! h_entry h = Some e /\ key e = k /\ image_at s h = Done img /\
    dt_image_cache_write_release ROUND1 (Some h) mode s = Done s' /\ ic_inv s' /\
    images s' = <[data e := complete_aspect_ratio img]> (images s) /\
    ((id img = -1 /\ db s !! k = None /\ s' = Image_cache (ic_sys s) (images s') (db s) (sidecars s) (updating s)) \/
     (id img = k /\ image_ok img /\ exists r, db s !! k = Some r /\ version img = c_version r /\
      db s' = <[k := row_of_image ROUND1 (complete_aspect_ratio img) r]> (db s) /\
      handles (ic_sys s') = drop_handle h (handles (ic_sys s)) /\
      updating s' = filter (fun a => a <> h_entry h) (updating s) /\
      hashtable (sys_cache (ic_sys s')) = hashtable (sys_cache (ic_sys s)) /\
      exists l, heap (sys_cache (ic_sys s')) = <[h_entry h := with_lock l e]> (heap (sys_cache (ic_sys s))))).
Proof.
  intros Hinv Hh Hupd. destruct (image_cases s h Hinv Hh) as (e & k & img & He & Hk & Himg & Hdat & Hat & Hpos & Hcase).
  exists e, k, img. unfold dt_image_cache_write_release. rewrite Hat. cbn [c_bind].
  set (img' := complete_aspect_ratio img). pose proof (complete_aspect_ratio_equiv img) as Heq. fold img' in Heq.
  assert (id img' = id img) as Hid' by by apply id_proper.
  assert (version img' = version img) as Hv' by exact (f_equal version Heq).
  unfold store_image. rewrite Hdat. cbn [c_bind]. rewrite Himg. cbn [c_bind]. rewrite Hid'.
  destruct s as [[c hs] imgs rows log upd]. cbn in Hh, Hupd, He, Himg, Hcase. cbn [ic_sys images db sidecars updating].
  assert (ic_inv (Image_cache (Sys c hs) (<[data e := img']> imgs) rows log upd)) as Hinv1.
  { eapply ic_store; [done|exact He|exact Himg|done| |by left]. intros Hke. rewrite Heq.
    destruct Hcase as [(? & ? & _)|(? & _)]; [done|congruence || lia]. }
  destruct Hcase as [(Hid & Hok & r & Hrow & Hv & Hag)|(Hid & Hn & _)].
  - destruct (Z.leb_spec (id img) 0); [lia|]. cbn [ic_sys images db sidecars updating sys_cache handles].
    rewrite <- Hk in Hrow, Hid.
    destruct (ic_write_row c hs _ rows log upd (h_entry h) e img' r
                (if decide (mode = DT_IMAGE_CACHE_SAFE) then log ++ [key e] else log) Hinv1) as [Hag' Hinv2];
      [done|apply lookup_insert_eq|congruence|done|congruence|by rewrite Heq|].
    unfold update_row. rewrite Hid', Hid, Hrow.
    destruct (ic_release _ h e img' (row_of_image ROUND1 img' r) Hinv2) as (s' & -> & Hs' & Hi & Hd & _ & Hhs & Hu & Ht & Hl);
      [done|done|apply lookup_insert_eq|congruence|apply lookup_insert_eq|done|].
    exists s'. split_and!; try done. right. split; [congruence|]. split; [done|]. exists r. rewrite <- Hk. by split_and!.
  - rewrite Hid. cbn. eexists. split_and!; try done. by left.
Qed.

#[global] Instance ic_inv_preserved : Invariant (M:=image_machine ROUND1 sizeof_dt_image_t) ic_inv.
Proof.
  intros s act Hinv Hal. cbn [m_allowed m_perform image_machine] in *.
  destruct act as [t a mem garbage k mode|t k mode|h img|h|h mode|k|k r]; cbn [image_allowed image_perform] in *.
  - destruct Hal as [Ha Hmem]. destruct (Z.leb_spec k 0) as [Hk|Hk].
    { unfold dt_image_cache_get. destruct (Z.leb_spec k 0); [|lia]. by exists s. }
    destruct (image_get_spec s t a mem garbage k mode Hinv Hk Ha Hmem) as [(-> & _)|(h & s' & -> & Hs' & _)]; by eexists.
  - unfold dt_image_cache_testget. destruct (Z.leb_spec k 0); [by exists s|].
    destruct s as [[c hs] imgs rows log upd]. cbn. unfold dt_cache_testget.
    destruct (hashtable c !! k) as [b|] eqn:Hb; [|by eexists].
    destruct (wf_found c (proj1 (ici_cache _ Hinv)) k b Hb) as (e & He & _). unfold deref. rewrite He. cbn.
    destruct (trylock mode (lock e)) as [l|] eqn:Ht; [|by eexists]. cbn. eexists. split; [done|]. by eapply ic_lock.
  - destruct Hal as (Hh & Hupd & Hst). destruct (image_cases s h Hinv Hh) as (e & k & img0 & He & Hk & Himg & Hdat & Hat & _).
    rewrite Hat in Hst. destruct Hst as (Hid & Hv & Hok). unfold store_image. rewrite Hdat. cbn. rewrite Himg.
    eexists. split; [done|]. destruct s as [[c hs] imgs rows log upd]. cbn in *.
    eapply ic_store; [done|exact He|exact Himg|by split|done|by left].
  - destruct Hal as [Hh Hupd]. destruct (read_release_spec s h Hinv Hh Hupd) as (e & k & img & _ & _ & _ & [(_ & ->)|(_ & s' & -> & ? & _)]); by eexists.
  - destruct Hal as [Hh Hupd]. destruct (write_release_spec s h mode Hinv Hh Hupd) as (e & k & img & s' & _ & _ & _ & -> & ? & _). by eexists.
  - unfold dt_image_cache_remove, dt_cache_remove. destruct s as [[c hs] imgs rows log upd]. cbn.
    destruct (hashtable c !! k) as [b|] eqn:Hb; [|by eexists].
    destruct (wf_found c (proj1 (ici_cache _ Hinv)) k b Hb) as (e & He & Hke & _). unfold deref. rewrite He. cbn.
    destruct (dt_pthread_rwlock_trywrlock (lock e)) eqn:Ht; [|by eexists].
    destruct (_lock_demoting e) eqn:Hdm; [by eexists|]. cbn. eexists. split; [done|].
    assert (forall a, a ∈ [b] -> ~ busy (heap c) a) as Hvs.
    { intros a ->%list_elem_of_singleton. rewrite (busy_cases _ _ _ He). rewrite Ht, Hdm; by intros [|]. }
    pose proof (ic_delete c hs imgs rows log upd [b] Hinv Hvs) as Hi. cbn in Hi. unfold delete_at, dispose_at in Hi.
    rewrite He, Hke in Hi. exact Hi.
  - destruct Hal as (Hn & Ht & Hok). eexists. split; [done|]. destruct s as [[c hs] imgs rows log upd].
    destruct Hinv as [Hc Hcl He Hd Hu Hr]. cbn in *. split; cbn; try done.
    + intros a e Ha. destruct (He a e Ha) as (Hk & img & Himg & Hcase). split; [done|]. exists img.
      assert (key e <> k). { intros <-. enough (hashtable c !! key e = Some a) by congruence. apply (wf_table c (proj1 Hc)). by exists e. }
      by rewrite lookup_insert_ne.
    + intros k' r'. destruct (decide (k' = k)) as [->|]; [rewrite lookup_insert_eq|rewrite lookup_insert_ne by done; apply Hr]. naive_solver.
Qed.

(** *** What a step leaves as it is *)

Abbreviation image_step := (m_step (M:=image_machine ROUND1 sizeof_dt_image_t)).

(** The action writes the row of image [k]. *)
Definition writes (k : Z) (s : image_cache) (act : image_action) : Prop :=
  match act with
  | IWriteRelease h _ => match image_at s h with Done img => id img = k | Undefined => False end
  | IInsert k' _ => k' = k
  | _ => False
  end.

Lemma step_keeps_row s act s' k :
  ic_inv s -> image_allowed s act -> image_perform ROUND1 sizeof_dt_image_t s act = Done s' -> ~ writes k s act ->
  db s' !! k = db s !! k.
Proof.
  intros Hinv Hal Hp Hw. destruct act as [t a mem garbage k' mode|t k' mode|h img|h|h mode|k'|k' r]; cbn [image_allowed image_perform writes] in *.
  - destruct (Z.leb_spec k' 0) as [Hk|Hk].
    { unfold dt_image_cache_get in Hp. destruct (Z.leb_spec k' 0); [|lia]. cbn in Hp. by simplify_eq. }
    destruct Hal as [Ha Hmem].
    destruct (image_get_spec s t a mem garbage k' mode Hinv Hk Ha Hmem) as [(Hg & _)|(h & s1 & Hg & _ & Hd & _)];
      rewrite Hg in Hp; cbn in Hp; simplify_eq; by rewrite ?Hd.
  - unfold dt_image_cache_testget in Hp. destruct (k' <=? 0); [cbn in Hp; by simplify_eq|].
    destruct (dt_cache_testget _ _ _) as [[[b|] c']|]; cbn in Hp; by simplify_eq.
  - unfold store_image in Hp. destruct (data_of s h) as [d|]; [|done]. cbn in Hp. destruct (images s !! d); by simplify_eq.
  - destruct Hal as [Hh Hupd].
    destruct (read_release_spec s h Hinv Hh Hupd) as (e & k1 & img & _ & _ & _ & [(_ & Hr)|(_ & s1 & Hr & _ & _ & Hd & _)]);
      rewrite Hr in Hp; simplify_eq; by rewrite ?Hd.
  - destruct Hal as [Hh Hupd].
    destruct (write_release_spec s h mode Hinv Hh Hupd) as (e & k1 & img & s1 & _ & _ & Hat & Hr & _ & _ & [(_ & _ & Hs1)|(Hid & _ & r & _ & _ & Hd & _)]);
      rewrite Hr in Hp; simplify_eq; [by rewrite Hs1|]. rewrite Hat in Hw. rewrite Hd, lookup_insert_ne; congruence.
  - unfold dt_image_cache_remove, block_bind in Hp. destruct (dt_cache_remove _ _) as [[[[? ds] c']|]|]; cbn in Hp; by simplify_eq.
  - simplify_eq. cbn. by rewrite lookup_insert_ne.
Qed.

(** The entry of an image that is not in the database stays, and so does its lock. *)
Lemma step_keeps_missing s act s' a e :
  ic_inv s -> image_allowed s act -> image_perform ROUND1 sizeof_dt_image_t s act = Done s' ->
  heap (sys_cache (ic_sys s)) !! a = Some e -> db s !! key e = None ->
  heap (sys_cache (ic_sys s')) !! a = Some e /\ db s' !! key e = None.
Proof.
  intros Hinv Hal Hp Ha Hn. pose proof Hinv as [[Hwf Hlk] Hcl Hes Hd Hu Hr].
  destruct (Hes a e Ha) as (Hk & img & Himg & [(_ & _ & r & Hrow & _)|(Hid & _ & Hw)]); [congruence|].
  assert (hashtable (sys_cache (ic_sys s)) !! key e = Some a) as Ht by (apply (wf_table _ Hwf); by exists e).
  assert (forall h, h ∈ handles (ic_sys s) -> h_entry h = a -> image_at s h = Done img) as Hat.
  { intros h Hh <-. destruct (image_cases s h Hinv Hh) as (e' & k' & img' & He' & _ & Himg' & _ & Hat' & _). congruence. }
  split; [|rewrite (step_keeps_row s act s' (key e) Hinv Hal Hp); [done|]].
  2:{ destruct act as [| | | |h mode| |k' r]; cbn in Hal |- *; try tauto.
      - intros Hx. destruct Hal as [Hh _]. destruct (image_cases s h Hinv Hh) as (e' & k' & img' & He' & Hk' & _ & _ & Hat' & _ & Hcase).
        rewrite Hat' in Hx. destruct Hcase as [(Hid' & _ & r & Hrow & _)|(Hid' & _)]; [congruence|lia].
      - intros ->. destruct Hal as (_ & Ht' & _). congruence. }
  destruct act as [t b mem garbage k' mode|t k' mode|h img1|h|h mode|k'|k' r]; cbn [image_allowed image_perform] in *.
  - destruct (Z.leb_spec k' 0) as [Hk'|Hk'].
    { unfold dt_image_cache_get in Hp. destruct (Z.leb_spec k' 0); [|lia]. cbn in Hp. by simplify_eq. }
    destruct Hal as [Hb Hmem].
    destruct (image_get_spec s t b mem garbage k' mode Hinv Hk' Hb Hmem) as [(Hg & _)|(h & s1 & Hg & _ & _ & _ & _ & _ & _ & Hkeep & _)];
      rewrite Hg in Hp; cbn in Hp; simplify_eq; auto.
  - unfold dt_image_cache_testget in Hp. destruct (k' <=? 0); [cbn in Hp; by simplify_eq|].
    unfold dt_cache_testget in Hp. destruct (hashtable _ !! k') as [b|] eqn:Hb; [|cbn in Hp; by simplify_eq].
    destruct (wf_found _ Hwf k' b Hb) as (f & Hf & _). unfold deref in Hp. rewrite Hf in Hp. cbn in Hp.
    destruct (trylock mode (lock f)) as [l|] eqn:Htl; cbn in Hp; simplify_eq; [|done]. cbn.
    rewrite lookup_insert_ne; [done|]. intros ->. rewrite Ha in Hf. simplify_eq. destruct (trylock_free _ _ _ Htl). congruence.
  - unfold store_image in Hp. destruct (data_of s h) as [d|]; [|done]. cbn in Hp. destruct (images s !! d); by simplify_eq.
  - destruct Hal as [Hh Hupd].
    destruct (read_release_spec s h Hinv Hh Hupd) as (e' & k1 & img1 & He' & Hk1 & Hat1 & [(_ & Hrr)|(Hid1 & s1 & Hrr & _ & _ & _ & _ & _ & _ & _ & l & Hl)]);
      rewrite Hrr in Hp; simplify_eq; [done|].
    rewrite Hl, lookup_insert_ne; [done|]. intros Hha. rewrite Hha in He'. pose proof (Hat h Hh Hha). enough (id img = key e) by lia. congruence.
  - destruct Hal as [Hh Hupd].
    destruct (write_release_spec s h mode Hinv Hh Hupd) as (e' & k1 & img1 & s1 & He' & Hk1 & Hat1 & Hrr & _ & _ & [(_ & _ & Hs1)|(Hid1 & _ & r & _ & _ & _ & _ & _ & _ & l & Hl)]);
      rewrite Hrr in Hp; simplify_eq; [by rewrite Hs1|].
    rewrite Hl, lookup_insert_ne; [done|]. intros Hha. rewrite Hha in He'. pose proof (Hat h Hh Hha). enough (id img = key e) by lia. congruence.
  - unfold dt_image_cache_remove, dt_cache_remove in Hp. destruct (hashtable _ !! k') as [b|] eqn:Hb; [|cbn in Hp; by simplify_eq].
    destruct (wf_found _ Hwf k' b Hb) as (f & Hf & _). unfold deref in Hp. rewrite Hf in Hp. cbn in Hp.
    destruct (dt_pthread_rwlock_trywrlock (lock f)) eqn:Htl; [|cbn in Hp; by simplify_eq].
    destruct (_lock_demoting f); cbn in Hp; simplify_eq; [done|]. cbn. rewrite lookup_delete_ne; [done|]. intros ->.
    rewrite Ha in Hf. simplify_eq. unfold dt_pthread_rwlock_trywrlock in Htl. by rewrite Hw in Htl.
  - by simplify_eq.
Qed.

(** ** Properties *)

(** A new cache on a database whose rows are in range. *)
Definition image_initial (s : image_cache) : Prop :=
  exists rows, s = dt_image_cache_init sizeof_dt_image_t rows /\ forall k r, rows !! k = Some r -> row_ok k r.

Lemma ic_inv_initial s : image_initial s -> ic_inv s.
Proof.
  intros (rows & -> & Hr).
  split; [apply cache_inv_initial; do 4 eexists; reflexivity|..]; cbn; try done.
  by intros a ?%not_elem_of_nil.
Qed.

Lemma image_reachable s s' : image_initial s -> rtc image_step s s' -> ic_inv s'.
Proof. intros Hi. by apply (m_reachable (Inv:=ic_inv)), ic_inv_initial. Qed.


(** Steps that do not write image [k]. *)
Definition step_sparing (k : Z) (s s' : image_cache) : Prop :=
  exists act, image_allowed s act /\ ~ writes k s act /\ image_perform ROUND1 sizeof_dt_image_t s act = Done s'.

Lemma sparing_keeps_row k s s' : ic_inv s -> rtc (step_sparing k) s s' -> ic_inv s' /\ db s' !! k = db s !! k.
Proof.
  intros Hinv Hr. revert Hinv. induction Hr as [|s s1 s2 (act & Hal & Hw & Hp) _ IH]; intros Hinv; [done|].
  destruct IH as [Hinv2 ->]; [by eapply (m_preserve_Done (M:=image_machine ROUND1 sizeof_dt_image_t))|]. split; [done|].
  by eapply step_keeps_row.
Qed.

(** C4: what a thread wrote is what every thread reads from then on, until the image is written
    again: in between the image may be dropped from the cache and loaded anew any number
    of times. A get either finds the image locked and has to start over, or gives an image
    that differs from the written one in nothing that is stored; its aspect ratio is one
    that the row gives for the written one. *)
Theorem reader_sees_last_write s0 s h mode img k s1 s2 thread addr mem garbage mode'
    (Hi : image_initial s0) (Hr : rtc image_step s0 s) (Hh : h ∈ handles (ic_sys s)) (Hupd : h_entry h ∈ updating s)
    (Himg : image_at s h = Done img) (Hid : id img = k) (Hpos : 0 < k)
    (Hw : dt_image_cache_write_release ROUND1 (Some h) mode s = Done s1) (Hs : rtc (step_sparing k) s1 s2)
    (Haddr : heap (sys_cache (ic_sys s2)) !! addr = None) (Hmem : images s2 !! mem = None) :
  dt_image_cache_get sizeof_dt_image_t thread addr mem garbage k mode' s2 = Done Restart \/
  exists h' s3 img', dt_image_cache_get sizeof_dt_image_t thread addr mem garbage k mode' s2 = Done (Return (Some h', s3)) /\
    image_at s3 h' = Done img' /\ img' ≡ img /\
    (let a := aspect_ratio (complete_aspect_ratio img) in
     let stored := narrow (default f32_zero (ROUND1 <$> bind_float a)) in
     stored = aspect_ratio img' \/ stored = narrow (default f32_zero (ROUND1 <$> bind_float (aspect_ratio img')))).
Proof.
  pose proof (image_reachable s0 s Hi Hr) as Hinv.
  destruct (write_release_spec s h mode Hinv Hh Hupd) as (e & k1 & img1 & s1' & He & Hk1 & Hat & Hrel & Hinv1 & _ & Hcase).
  rewrite Himg in Hat. rewrite Hw in Hrel. simplify_eq.
  destruct Hcase as [(Hm & _)|(Hid & Hok & r & Hrow & Hv & Hdb & _)]; [lia|]. rewrite Hid in *.
  destruct (sparing_keeps_row _ _ _ Hinv1 Hs) as [Hinv2 Hrow2]. rewrite Hdb, lookup_insert_eq in Hrow2.
  destruct (image_get_spec s2 thread addr mem garbage (key e) mode' Hinv2 Hpos Haddr Hmem)
    as [(Hg & _)|(h' & s3 & Hg & _ & _ & _ & _ & _ & _ & _ & img' & Hhold & Hgot)]; [by left|right].
  exists h', s3, img'. split; [done|]. split; [by apply (holds_image_at _ _ (key e))|].
  unfold got in Hgot. rewrite Hrow2 in Hgot. destruct Hgot as (_ & _ & _ & Hag & Hasp).
  assert (row_ok (key e) r) as Hrok by by apply (ici_rows _ Hinv).
  pose proof (complete_aspect_ratio_equiv img1) as Heq. set (img2 := complete_aspect_ratio img1) in *.
  assert (image_of_row [] (row_of_image ROUND1 img2 r) =
            reread (narrow (default f32_zero (ROUND1 <$> bind_float (aspect_ratio img2)))) img2) as Hread.
  { assert (id img2 = key e) as Hid2 by (rewrite <- Hid; by apply id_proper).
    assert (version img2 = c_version r) as Hv2 by (rewrite <- Hv; exact (f_equal version Heq)).
    apply image_of_written; [by rewrite Heq|rewrite Hid2; by eapply row_ok_s32|rewrite Hv2; apply Hrok|rewrite Hid2; apply Hrok|done]. }
  rewrite Hread in Hag, Hasp. split; [by rewrite Hag, reread_equiv|exact Hasp].
Qed.

(** C22: getting an image that is not in the database gives an image with the number -1. Its
    entry is locked, and neither release function ever unlocks it: whatever the threads do
    afterwards, every get of that number starts over for ever, and a testget gives NULL. *)
Theorem missing_image_locks_for_good s0 s h s1 s2 thread addr mem garbage k mode
    (Hi : image_initial s0) (Hr : rtc image_step s0 s) (Hpos : 0 < k) (Hmissing : db s !! k = None)
    (Haddr : heap (sys_cache (ic_sys s)) !! addr = None) (Hmem : images s !! mem = None)
    (Hget : dt_image_cache_get sizeof_dt_image_t thread addr mem garbage k mode s = Done (Return (Some h, s1)))
    (Hs : rtc image_step s1 s2) :
  (exists img, image_at s1 h = Done img /\ id img = -1) /\
  forall thread' addr' mem' garbage' mode',
    dt_image_cache_get sizeof_dt_image_t thread' addr' mem' garbage' k mode' s2 = Done Restart /\
    dt_image_cache_testget thread' k mode' s2 =
      Done (None, Image_cache (Sys (sys_cache (ic_sys s2)) (handles (ic_sys s2))) (images s2) (db s2) (sidecars s2) (updating s2)).
Proof.
  pose proof (image_reachable s0 s Hi Hr) as Hinv.
  destruct (image_get_spec s thread addr mem garbage k mode Hinv Hpos Haddr Hmem)
    as [(Hg & _)|(h' & s1' & Hg & Hinv1 & Hdb & _ & _ & _ & _ & _ & img & Hhold & Hgot)]; rewrite Hget in Hg; [done|].
  symmetry in Hg. simplify_eq. unfold got in Hgot. rewrite Hmissing in Hgot.
  split; [exists img; split; [by apply (holds_image_at _ _ k)|done]|].
  destruct Hhold as (e & He & Hke & _). rewrite <- Hdb in Hmissing. clear Hget Hgot Haddr Hmem Hr Hi Hinv Hdb. subst k.
  assert (ic_inv s2 /\ heap (sys_cache (ic_sys s2)) !! h_entry h = Some e /\ db s2 !! key e = None) as (Hinv2 & He2 & Hm2).
  { revert Hinv1 He Hmissing. induction Hs as [|x y z (act & Hal & Hp) _ IH]; intros Hx Hex Hmx; [done|].
    destruct (step_keeps_missing x act y (h_entry h) e Hx Hal Hp Hex Hmx).
    apply IH; [|done..]. by eapply (m_preserve_Done (M:=image_machine ROUND1 sizeof_dt_image_t)). }
  destruct (ici_entries _ Hinv2 _ e He2) as (_ & img2 & _ & [(_ & _ & r & Hrow & _)|(_ & _ & Hw)]); [congruence|].
  pose proof (ici_cache _ Hinv2) as [Hwf _].
  assert (hashtable (sys_cache (ic_sys s2)) !! key e = Some (h_entry h)) as Ht by (apply (wf_table _ Hwf); by exists e).
  intros thread' addr' mem' garbage' mode'.
  assert (trylock mode' (lock e) = None) as Hlock.
  { unfold trylock, dt_pthread_rwlock_trywrlock, dt_pthread_rwlock_tryrdlock. rewrite Hw. by destruct (mode_w mode'). }
  unfold dt_image_cache_get, dt_image_cache_testget. destruct (Z.leb_spec (key e) 0); [lia|]. split.
  - unfold dt_cache_get. cbn [hashtable dt_cache_set_allocate_callback heap]. rewrite Ht. unfold deref. cbn [heap dt_cache_set_allocate_callback].
    rewrite He2. cbn [c_bind]. by rewrite Hlock.
  - unfold dt_cache_testget. rewrite Ht. unfold deref. rewrite He2. cbn [c_bind]. rewrite Hlock. done.
Qed.

End coherence.

Module Example.
Import Images.Example.

Definition size : Z := 1824.

(** The database holds image 7. *)
Definition row7 : image_row := row_of_image round1 photo (empty_row 7).
Definition start : image_cache := dt_image_cache_init size {[7 := row7]}.

Lemma row7_ok : row_ok 7 row7.
Proof. apply (bool_decide_unpack _). vm_compute. done. Defined.

Lemma start_initial : image_initial size start.
Proof.
  exists {[7 := row7]}. split; [done|]. intros k r Hk. apply lookup_singleton_Some in Hk as [<- <-]. exact row7_ok.
Defined.

Abbreviation run := (m_run_or (M:=image_machine round1 size)).
Abbreviation reached := (m_run_reachable (M:=image_machine round1 size)).

(** Thread 1 opens image 7 for writing and gives it three stars. *)
Definition stars : dt_image_t := set_flags (DT_IMAGE_RAW + 3) (reread (aspect_ratio photo) photo).
Definition starring : image_cache := run start [IGet 1 100 500 [] 7 "w"; IStore (Handle 1 100 true) stars].
Definition starred : image_cache := run starring [IWriteRelease (Handle 1 100 true) DT_IMAGE_CACHE_SAFE].
(** Meanwhile the entry is removed. *)
Definition dropped : image_cache := run starred [IRemove 7].


(** Thread 2 reads it from the database and finds the stars. *)
Lemma reader_sees_last_write_witness :
  dt_image_cache_get size 2 200 600 [] 7 "r" dropped = Done Restart \/
  exists h' s3 img', dt_image_cache_get size 2 200 600 [] 7 "r" dropped = Done (Return (Some h', s3)) /\
    image_at s3 h' = Done img' /\ img' ≡ stars /\
    (let a := aspect_ratio (complete_aspect_ratio stars) in
     let stored := narrow (default f32_zero (round1 <$> bind_float a)) in
     stored = aspect_ratio img' \/ stored = narrow (default f32_zero (round1 <$> bind_float (aspect_ratio img')))).
Proof.
  apply (reader_sees_last_write round1 size start starring (Handle 1 100 true) DT_IMAGE_CACHE_SAFE stars 7 starred dropped 2 200 600 [] "r" start_initial).
  - apply (reached [IGet 1 100 500 [] 7 "w"; IStore (Handle 1 100 true) stars]). vm_compute. reflexivity.
  - apply (bool_decide_unpack _). vm_compute. done.
  - apply (bool_decide_unpack _). vm_compute. done.
  - vm_compute. reflexivity.
  - reflexivity.
  - done.
  - vm_compute. reflexivity.
  - apply rtc_once. exists (IRemove 7). split; [done|]. split; [by intros []|]. vm_compute. reflexivity.
  - vm_compute. reflexivity.
  - vm_compute. reflexivity.
Defined.

(** Image 8 does not exist; it is opened for reading and released. *)
Definition missing : image_cache := run start [IGet 1 100 500 [] 8 "r"].
Definition released : image_cache := run missing [IReadRelease (Handle 1 100 true)].

Lemma missing_image_locks_for_good_witness :
  (exists img, image_at missing (Handle 1 100 true) = Done img /\ id img = -1) /\
  forall thread' addr' mem' garbage' mode',
    dt_image_cache_get size thread' addr' mem' garbage' 8 mode' released = Done Restart /\
    dt_image_cache_testget thread' 8 mode' released =
      Done (None, Image_cache (Sys (sys_cache (ic_sys released)) (handles (ic_sys released))) (images released) (db released)
                    (sidecars released) (updating released)).
Proof.
  apply (missing_image_locks_for_good round1 size start start (Handle 1 100 true) missing released 1 100 500 [] 8 "r" start_initial);
    [reflexivity|done|vm_compute; reflexivity..|].
  apply (reached [IReadRelease (Handle 1 100 true)]). vm_compute. reflexivity.
Defined.

(** Thread 2 holds image 7 for reading while thread 1 sets its time stamp. *)
Definition reading : image_cache :=
  run start [IGet 1 100 500 [] 7 "r"; IReadRelease (Handle 1 100 true); IGet 2 200 600 [] 7 "r"].

Lemma timestamp_written_under_read_lock :
  handles (ic_sys reading) = [Handle 2 100 false] /\
  match dt_image_cache_set_change_timestamp round1 size 1700000000 1 300 700 [] 7 reading with
  | Done (Return s) => handles (ic_sys s) = [Handle 2 100 false] /\
      (change_timestamp ∘ timestamps <$> images reading !! 500) = Some (-1) /\
      (change_timestamp ∘ timestamps <$> images s !! 500) = Some 1700000000
  | _ => False
  end.
Proof. split; [vm_compute; reflexivity|]. vm_compute. done. Qed.

End Example.
