(* ===== verification/ImageStore.v ===== *)
(** The images of the library as the code outside common/image_cache.c uses them: an image
    is got for reading, looked at and released, or got for writing, changed and released,
    and main.images is searched with SQL.

    [ImageStore] is that use and [ImageStoreSpec] what it promises while no other thread
    holds an image: one reads what the database says, and a change reaches the database at
    once. The image cache of [ImageCache] is the instance, so that image groups and ratings
    are proved against the promise alone. *)

From Stdlib Require Import Ascii String SpecFloat.
From S2P Require Import Prelude Cache Images ImageCache Library.
Local Open Scope Z_scope.

(** [change_image] also gives the image as it was. A get that gives NULL is [None] in
    [read_image]; a client that changes an image does not check, or releases NULL, which is
    undefined. *)
Class ImageStore (S : Type) := Image_store {
  read_image : Z -> S -> blocking (option dt_image_t * S);
  change_image : (dt_image_t -> dt_image_t) -> Z -> S -> blocking (dt_image_t * S);
  select_group : Z -> S -> list Z;
  update_group : Z -> Z -> Z -> S -> S;
}.

(** [view s k]: what is stored of image [k]. *)
Class ImageStoreSpec (S : Type) `{!ImageStore S} (ok : S -> Prop) (view : S -> Z -> option dt_image_t) := {
  view_persistent s k p : view s k = Some p -> persistent p = p;
  view_id s k p : ok s -> view s k = Some p -> id p = k /\ 0 < k < 2 ^ 31 /\ image_ok p;
  read_spec s k p : ok s -> view s k = Some p ->
    exists i s', read_image k s = Done (Return (Some i, s')) /\ ok s' /\ i ≡ p /\ forall j, view s' j = view s j;
  change_spec f s k p : ok s -> view s k = Some p -> Proper ((≡) ==> (≡)) f ->
    id (f p) = id p -> version (f p) = version p -> image_ok (f p) ->
    exists i s', change_image f k s = Done (Return (i, s')) /\ ok s' /\ i ≡ p /\
      forall j, view s' j = if decide (j = k) then Some (persistent (f p)) else view s j;
  select_spec g s : ok s -> NoDup (select_group g s) /\
    forall k, k ∈ select_group g s <-> exists p, view s k = Some p /\ group_id p = g;
  update_none new old except s :
    (forall k p, view s k = Some p -> group_id p = old -> k = except) -> ok s -> update_group new old except s = s;
}.

(** ** The image cache *)

Section instance.
Context (ROUND1 : spec_float -> spec_float) (sizeof_dt_image_t : Z) `{RowOrder}.

(** An address that is not in use. *)
Definition fresh_address {A} (m : gmap Z A) : Z := 1 + foldr Z.max 0 (map_to_list m).*1.

Definition get_image (imgid : Z) (mode : ascii) (s : image_cache) : blocking (option handle * image_cache) :=
  dt_image_cache_get sizeof_dt_image_t 0 (fresh_address (heap (sys_cache (ic_sys s)))) (fresh_address (images s)) [] imgid mode s.

Definition read_cached (imgid : Z) (s : image_cache) : blocking (option dt_image_t * image_cache) :=
  wait* (img, s) := get_image imgid "r" s in
  match img with
  | None => Done (Return (None, s))
  | Some h =>
      let* i := image_at s h in
      let* s := dt_image_cache_read_release img s in
      Done (Return (Some i, s))
  end.

Definition change_cached (f : dt_image_t -> dt_image_t) (imgid : Z) (s : image_cache) : blocking (dt_image_t * image_cache) :=
  wait* (img, s) := get_image imgid "w" s in
  match img with
  | None => Undefined
  | Some h =>
      let* i := image_at s h in
      let* s := store_image h (f i) s in
      let* s := dt_image_cache_write_release ROUND1 img DT_IMAGE_CACHE_SAFE s in
      Done (Return (i, s))
  end.

(** SELECT id FROM main.images WHERE group_id = ?1 *)
Definition select_rows (g : Z) (s : image_cache) : list Z :=
  scan (filter (fun kr => c_group_id kr.2 = g) (map_to_list (db s))).*1.

(** UPDATE main.images SET group_id = ?1 WHERE group_id = ?2 AND id != ?3 *)
Definition update_rows (new old except : Z) (s : image_cache) : image_cache :=
  Image_cache (ic_sys s) (images s)
    ((fun r => if decide (c_group_id r = old /\ c_id r <> except) then set_c_group_id new r else r) <$> db s)
    (sidecars s) (updating s).

#[global] Instance image_cache_store : ImageStore image_cache :=
  {| read_image := read_cached; change_image := change_cached; select_group := select_rows; update_group := update_rows |}.

(** No thread holds an image. *)
Definition quiet (s : image_cache) : Prop := ic_inv ROUND1 s /\ handles (ic_sys s) = [] /\ updating s = [].

Definition stored (s : image_cache) (k : Z) : option dt_image_t := (fun r => persistent (image_of_row [] r)) <$> db s !! k.

Lemma fresh_address_spec {A} (m : gmap Z A) : m !! fresh_address m = None.
Proof.
  apply eq_None_not_Some. intros [x Hx]. unfold fresh_address in Hx. set (ks := (map_to_list m).*1) in *.
  assert (1 + foldr Z.max 0 ks ∈ ks) as Hin by (apply list_elem_of_fmap; eexists (_, x); split; [done|by apply elem_of_map_to_list]).
  assert (forall k, k ∈ ks -> k <= foldr Z.max 0 ks) as Hle; [|specialize (Hle _ Hin); lia].
  clear. induction ks as [|y ks IH]; intros k Hk; [by apply not_elem_of_nil in Hk|]. cbn.
  apply elem_of_cons in Hk as [->|Hk]; [lia|]. specialize (IH k Hk). lia.
Qed.

(** With no handles given out every lock is free, so a get succeeds. *)
Lemma get_quiet s k mode p : quiet s -> stored s k = Some p ->
  exists h s' img, get_image k mode s = Done (Return (Some h, s')) /\ ic_inv ROUND1 s' /\ db s' = db s /\
    handles (ic_sys s') = [h] /\ updating s' = (if mode_w mode then [h_entry h] else []) /\
    holds s' h k img /\ id img = k /\ img ≡ p /\ image_ok img /\ version img = version p /\ 0 < k < 2 ^ 31.
Proof.
  intros (Hinv & Hh & Hu) Hp. unfold stored in Hp. destruct (db s !! k) as [r|] eqn:Hr; [|done]. cbn in Hp. simplify_eq.
  pose proof (ici_rows _ _ Hinv k r Hr) as (Hk & _).
  destruct (image_get_spec ROUND1 sizeof_dt_image_t s 0 (fresh_address (heap (sys_cache (ic_sys s)))) (fresh_address (images s)) [] k mode)
    as [(_ & b & e & Hb & He & Ht)|(h & s' & Hg & Hinv' & Hdb & _ & Hhs & Hupd & _ & _ & img & Hhold & Hgot)];
    [done|lia|apply fresh_address_spec|apply fresh_address_spec| |].
  - exfalso. pose proof (ici_cache _ _ Hinv) as [_ Hlk]. rewrite Hh in Hlk. specialize (Hlk b). rewrite He in Hlk.
    destruct Hlk as (Hrd & Hwr & _). cbn in Hrd, Hwr. unfold trylock, dt_pthread_rwlock_trywrlock, dt_pthread_rwlock_tryrdlock in Ht.
    destruct (writer (lock e)); [done|]. rewrite Hrd in Ht. by destruct (mode_w mode).
  - exists h, s', img. unfold got in Hgot. rewrite Hr in Hgot. destruct Hgot as (Hid & Hok & Hv & Hag & _).
    split_and!; try done; try lia.
    + by rewrite Hhs, Hh.
    + by rewrite Hupd, Hu.
    + by rewrite Hag, persistent_equiv.
    + exact (f_equal version Hag).
Qed.

Lemma drop_only (h : handle) : drop_handle h [h] = [].
Proof. cbn. by rewrite decide_True. Qed.

Lemma filter_only (a : Z) : filter (fun b => b <> a) [a] = [].
Proof. by rewrite filter_cons_False by tauto. Qed.

#[global] Instance image_cache_store_spec : ImageStoreSpec image_cache quiet stored.
Proof.
  split.
  - intros s k p (r & _ & ->)%fmap_Some. apply persistent_idem.
  - intros s k p (Hinv & _) (r & Hr & ->)%fmap_Some. pose proof (ici_rows _ _ Hinv k r Hr) as Hrow. pose proof Hrow as (Hk & _).
    destruct (loaded_ok [] k r Hrow) as (Hok & Hid & _). split; [done|]. split; [done|]. by rewrite persistent_equiv.
  - intros s k p Hq Hp. cbn [read_image image_cache_store]. unfold read_cached.
    destruct (get_quiet s k "r" p Hq Hp) as (h & s1 & img & -> & Hinv1 & Hdb & Hhs & Hu & Hhold & Hid & Heq & Hok & Hv & Hk).
    cbn [block_bind c_bind]. rewrite (holds_image_at _ _ _ _ Hhold). cbn [c_bind].
    destruct (read_release_spec ROUND1 s1 h Hinv1) as (e & k' & img' & He & Hke & Hat & Hcase); [rewrite Hhs; by left|rewrite Hu; apply not_elem_of_nil|].
    rewrite (holds_image_at _ _ _ _ Hhold) in Hat. simplify_eq.
    destruct Hcase as [(? & _)|(_ & s2 & -> & Hinv2 & _ & Hdb2 & _ & Hhs2 & Hu2 & _)]; [lia|]. cbn [c_bind].
    exists img', s2. split; [done|]. split; [|split; [done|]].
    + split; [done|]. by rewrite Hhs2, Hhs, Hu2, Hu, drop_only.
    + intros j. unfold stored. by rewrite Hdb2, Hdb.
  - intros f s k p Hq Hp Hf Hfid Hfv Hfok. cbn [change_image image_cache_store]. unfold change_cached.
    destruct (get_quiet s k "w" p Hq Hp) as (h & s1 & img & -> & Hinv1 & Hdb & Hhs & Hu & Hhold & Hid & Heq & Hok & Hv & Hk).
    cbn [block_bind c_bind]. rewrite (holds_image_at _ _ _ _ Hhold). cbn [c_bind].
    pose proof (Hf _ _ Heq) as Hfi.
    assert (id (f img) = id img) as Hid' by (rewrite (id_proper _ _ Hfi), (id_proper _ _ Heq); done).
    assert (version (f img) = version img) as Hv' by (etransitivity; [exact (f_equal version Hfi)|]; cbn; congruence).
    destruct Hhold as (e & He & Hke & Himg). unfold store_image, data_of, deref. rewrite He. cbn [c_bind]. rewrite Himg. cbn [c_bind].
    set (s2 := Image_cache _ _ _ _ _).
    assert (ic_inv ROUND1 s2) as Hinv2.
    { destruct s1 as [[c hs] imgs rows log upd]. cbn in Hhs, Hu, He, Himg. apply (ic_store ROUND1 c hs imgs rows log upd (h_entry h) e img);
        try done; [intros _; by rewrite Hfi|]. rewrite Hu. left. by left. }
    destruct (write_release_spec ROUND1 s2 h DT_IMAGE_CACHE_SAFE Hinv2) as (e' & k' & img' & s3 & He' & Hke' & Hat & -> & Hinv3 & _ & Hcase);
      [cbn; rewrite Hhs; by left|cbn; rewrite Hu; by left|]. cbn [c_bind].
    cbn in He'. rewrite He in He'. simplify_eq.
    assert (image_at s2 h = Done (f img)) as Hat2.
    { unfold image_at, data_of, deref. cbn. rewrite He. cbn. by rewrite lookup_insert_eq. }
    rewrite Hat2 in Hat. simplify_eq. rewrite Hid', Hid in Hcase.
    destruct Hcase as [(? & _)|(_ & _ & r & Hrow & Hvr & Hdb3 & Hhs3 & Hu3 & _)]; [lia|].
    exists img, s3. split; [done|]. split; [|split; [done|]].
    + split; [done|]. cbn in Hhs3, Hu3. by rewrite Hhs3, Hhs, Hu3, Hu, drop_only, filter_only.
    + intros j. unfold stored. rewrite Hdb3. change (db s2) with (db s1). case_decide as Hj; [subst j|by rewrite lookup_insert_ne, Hdb].
      rewrite lookup_insert_eq. cbn. f_equal. pose proof (complete_aspect_ratio_equiv (f img)) as Hc.
      set (i := complete_aspect_ratio (f img)) in *. cbn in Hrow. rewrite Hdb in Hrow.
      pose proof (ici_rows _ _ (proj1 Hq) _ _ Hrow) as Hrok.
      assert (id i = key e') as Hii by (rewrite (id_proper _ _ Hc); congruence).
      rewrite (image_of_written ROUND1 [] i r).
      * rewrite (reread_equiv _ i : persistent _ = persistent _). by rewrite (Hc : persistent _ = persistent _), (Hfi : persistent _ = persistent _).
      * by rewrite Hc, Hfi.
      * rewrite Hii. by eapply row_ok_s32.
      * replace (version i) with (c_version r) by (rewrite <- Hvr; symmetry; exact (f_equal version Hc)). apply Hrok.
      * rewrite Hii. apply Hrok.
      * rewrite <- Hvr. symmetry. exact (f_equal version Hc).
  - intros g s (Hinv & _). cbn [select_group image_cache_store]. unfold select_rows. split.
    + rewrite NoDup_scan. apply NoDup_fmap_filter, NoDup_fst_map_to_list.
    + intros k. rewrite elem_of_scan, list_elem_of_fmap. unfold stored. split.
      * intros ([k' r] & -> & [Hg Hin]%list_elem_of_filter). apply elem_of_map_to_list in Hin. cbn in *.
        eexists. rewrite Hin. split; [done|]. cbn. pose proof (ici_rows _ _ Hinv k' r Hin) as (_ & _ & _ & Hgr & _). by rewrite column_s32_id.
      * intros (p & (r & Hr & ->)%fmap_Some & Hg). exists (k, r). split; [done|]. apply list_elem_of_filter. split; [|by apply elem_of_map_to_list].
        cbn in *. pose proof (ici_rows _ _ Hinv k r Hr) as (_ & _ & _ & Hgr & _). by rewrite column_s32_id in Hg.
  - intros new old except s Hnone (Hinv & _). cbn [update_group image_cache_store]. unfold update_rows. destruct s as [sys imgs rows log upd]. cbn in *.
    f_equal. apply map_eq. intros k. rewrite lookup_fmap. destruct (rows !! k) as [r|] eqn:Hr; [|done]. cbn. f_equal.
    rewrite decide_False; [done|]. intros [Hg Hid]. pose proof (ici_rows _ _ Hinv k r Hr) as (_ & Hk & _ & Hgr & _). apply Hid. rewrite Hk.
    apply (Hnone k (persistent (image_of_row [] r))); [unfold stored; cbn; by rewrite Hr|]. cbn. by rewrite column_s32_id.
Qed.

End instance.
