(* ===== verification/Grouping.v ===== *)
(** Groups of images: common/grouping.c.

    The group of an image is the number of the image that leads it, and a leader leads
    itself ([groups_ok]). The functions are written against [ImageStore]; a result is what
    the function returns, the images of the signal it raises, and the new state. The rows
    of a SELECT are those of its beginning: the loops move the rows they visit out of the
    group that is searched. [gui]: whether grouping is on, and which group is open; [None]
    without a user interface. *)

From Stdlib Require Import Ascii String.
From S2P Require Import Prelude Cache Images ImageCache ImageStore Library Tags.
Local Open Scope Z_scope.

Section grouping.
Context {S : Type} `{!ImageStore S}.

(** The loop over the others of a group; the first of them is the new leader. *)
Fixpoint regroup (others : list Z) (new_group_id : Z) (imgs : list Z) (s : S) : blocking (Z * list Z * S) :=
  match others with
  | [] => Done (Return (new_group_id, imgs, s))
  | other_id :: others =>
      let new_group_id := if new_group_id =? -1 then other_id else new_group_id in
      wait* (_, s) := change_image (set_group_id new_group_id) other_id s in
      regroup others new_group_id (other_id :: imgs) s
  end.

Definition dt_grouping_remove_from_group (image_id : Z) (s : S) : blocking (Z * list Z * S) :=
  wait* (img, s) := read_image image_id s in
  match img with
  | None => Undefined
  | Some img =>
      let img_group_id := group_id img in
      if img_group_id =? image_id then
        let others := filter (fun id => id <> image_id) (select_group img_group_id s) in
        wait* (new_group_id, imgs, s) := regroup others (-1) [] s in
        Done (Return (new_group_id, imgs, update_group new_group_id img_group_id image_id s))
      else
        wait* (wimg, s) := change_image (set_group_id image_id) image_id s in
        Done (Return (group_id wimg, [img_group_id; image_id], s))
  end.

Definition dt_grouping_add_to_group (group_id image_id : Z) (s : S) : blocking (list Z * S) :=
  wait* (_, _, s) := dt_grouping_remove_from_group image_id s in
  wait* (_, s) := change_image (set_group_id group_id) image_id s in
  Done (Return ([image_id], s)).

Definition dt_grouping_change_representative (image_id : Z) (s : S) : blocking (Z * list Z * S) :=
  wait* (img, s) := read_image image_id s in
  match img with
  | None => Undefined
  | Some img =>
      wait* (_, imgs, s) := regroup (select_group (group_id img) s) image_id [] s in
      Done (Return (image_id, imgs, s))
  end.

(** The loop of [_group_helper_function] over the selected images (libs/image.c): without
    an open group the first image is the new leader, and joins itself. *)
Fixpoint group_selected (selected : list Z) (new_group_id : Z) (imgs : list Z) (s : S) : blocking (Z * list Z * S) :=
  match selected with
  | [] => Done (Return (new_group_id, imgs, s))
  | id :: selected =>
      let new_group_id := if new_group_id =? -1 then id else new_group_id in
      wait* (_, s) := dt_grouping_add_to_group new_group_id id s in
      group_selected selected new_group_id (imgs ++ [id]) s
  end.

(** The first result is the group that is open then; [-1]: none. *)
Definition _group_helper_function (grouping : bool) (expanded_group_id : Z) (selected : list Z) (s : S) : blocking (Z * list Z * S) :=
  wait* (new_group_id, imgs, s) := group_selected selected expanded_group_id [] s in
  Done (Return (if grouping then new_group_id else -1, imgs, s)).

Fixpoint ungroup_selected (selected : list Z) (imgs : list Z) (s : S) : blocking (list Z * S) :=
  match selected with
  | [] => Done (Return (imgs, s))
  | id :: selected =>
      wait* (_, _, s) := dt_grouping_remove_from_group id s in
      ungroup_selected selected (imgs ++ [id]) s
  end.

Definition _ungroup_helper_function (selected : list Z) (s : S) : blocking (Z * list Z * S) :=
  wait* (imgs, s) := ungroup_selected selected [] s in
  Done (Return (-1, imgs, s)).

(** Only the leader of the group is shown. *)
Definition collapsed (gui : option (bool * Z)) (group : Z) : bool :=
  match gui with Some (grouping, expanded_group_id) => grouping && negb (expanded_group_id =? group) | None => false end.

Definition dt_grouping_get_group_images (gui : option (bool * Z)) (imgid : Z) (s : S) : blocking (list Z * S) :=
  wait* (image, s) := read_image imgid s in
  Done (Return (match image with
                | None => []
                | Some image => if collapsed gui (group_id image) then select_group (group_id image) s else [imgid]
                end, s)).

Fixpoint grouped_images (gui : option (bool * Z)) (images : list Z) (s : S) : blocking (list Z * S) :=
  match images with
  | [] => Done (Return ([], s))
  | imgid :: images =>
      wait* (image, s) := read_image imgid s in
      let gimgs := match image with
                   | None => []
                   | Some image =>
                       if collapsed gui (group_id image) then filter (fun id => id <> imgid) (select_group (group_id image) s) else []
                   end in
      wait* (rest, s) := grouped_images gui images s in
      Done (Return (gimgs ++ rest, s))
  end.

Definition dt_grouping_add_grouped_images (gui : option (bool * Z)) (images : list Z) (s : S) : blocking (list Z * S) :=
  wait* (gimgs, s) := grouped_images gui images s in
  Done (Return (images ++ gimgs, s)).

(** ** What the functions keep *)

Context {ok : S -> Prop} {view : S -> Z -> option dt_image_t} `{!ImageStoreSpec S ok view}.

Definition group_of (s : S) (k : Z) : option Z := group_id <$> view s k.

(** Every group is led by an image that is in it. *)
Definition groups_ok (s : S) : Prop := forall k g, group_of s k = Some g -> group_of s g = Some g.

Definition same_group (s : S) (j k : Z) : Prop := exists g, group_of s j = Some g /\ group_of s k = Some g.

(** Nothing but groups changed. *)
Definition only_groups_differ (s s' : S) : Prop :=
  forall k, view s' k = match group_of s' k with Some g => set_group_id g <$> view s k | None => view s k end.

(** One image changes its group. *)
Lemma change_group_spec g s k p : ok s -> view s k = Some p -> s32 g ->
  exists i s', change_image (set_group_id g) k s = Done (Return (i, s')) /\ ok s' /\ i ≡ p /\
    forall j, view s' j = if decide (j = k) then Some (set_group_id g p) else view s j.
Proof.
  intros Hs Hp Hg. destruct (view_id s k p Hs Hp) as (_ & _ & Hok).
  destruct (change_spec (set_group_id g) s k p) as (i & s' & Hc & Hs' & Hi & Hv); try done; [apply _|by apply image_ok_group|].
  exists i, s'. split; [done|]. split; [done|]. split; [done|]. intros j. rewrite Hv.
  change (persistent (set_group_id g p)) with (set_group_id g (persistent p)). by rewrite (view_persistent s k p Hp).
Qed.

(** The leader that the loop ends with. *)
Definition final_leader (others : list Z) (new : Z) : Z :=
  if new =? -1 then default (-1) (head others) else new.

Lemma regroup_spec others new imgs s :
  ok s -> NoDup others -> Forall (fun k => is_Some (view s k)) others -> s32 new ->
  exists s', regroup others new imgs s = Done (Return (final_leader others new, rev others ++ imgs, s')) /\ ok s' /\
    forall j, view s' j = if decide (j ∈ others) then set_group_id (final_leader others new) <$> view s j else view s j.
Proof.
  revert new imgs s. induction others as [|o others IH]; intros new imgs s Hs Hnd Hall Hnew; cbn [regroup].
  { exists s. split; [|by split]. unfold final_leader. cbn. destruct (Z.eqb_spec new (-1)); by subst. }
  apply NoDup_cons in Hnd as [Hno Hnd]. apply Forall_cons in Hall as [[p Hp] Hall].
  destruct (view_id s o p Hs Hp) as (_ & Ho & _).
  set (new' := if new =? -1 then o else new).
  assert (s32 new') as Hnew' by (unfold new', s32; destruct (new =? -1); [lia|exact Hnew]).
  destruct (change_group_spec new' s o p Hs Hp Hnew') as (i & s1 & -> & Hs1 & _ & Hv1). cbn [block_bind c_bind].
  destruct (IH new' (o :: imgs) s1 Hs1 Hnd) as (s' & -> & Hs' & Hv); [|done|].
  { apply Forall_forall. intros k Hk. rewrite Forall_forall in Hall. rewrite Hv1. case_decide; [by eexists|by apply Hall]. }
  assert (final_leader others new' = final_leader (o :: others) new) as Hfl'.
  { unfold final_leader, new'. cbn. destruct (Z.eqb_spec new (-1)); [|by destruct (Z.eqb_spec new (-1))].
    destruct (Z.eqb_spec o (-1)); [lia|done]. }
  rewrite Hfl' in Hv |- *. assert (final_leader (o :: others) new = new') as Hfl by done.
  exists s'. split; [cbn; by rewrite <- app_assoc|]. split; [done|]. intros j. rewrite Hv, Hv1.
  destruct (decide (j = o)) as [->|Hj].
  - rewrite decide_False by done. rewrite decide_True by by left. by rewrite Hp, Hfl.
  - destruct (decide (j ∈ others)) as [Hin|Hin]; [rewrite decide_True by (by right); done|].
    rewrite decide_False; [done|]. by intros [|]%elem_of_cons.
Qed.

(** Images that leave [i] alone. *)
Definition alone (s : S) (i : Z) : Prop := group_of s i = Some i /\ forall j, j <> i -> group_of s j <> Some i.

Lemma group_of_set s s' (f : Z -> option Z) :
  (forall j, view s' j = match f j with Some g => set_group_id g <$> view s j | None => view s j end) ->
  forall j, group_of s' j = match group_of s j with Some g => Some (default g (f j)) | None => None end.
Proof. intros Hv j. unfold group_of. rewrite Hv. by destruct (f j), (view s j). Qed.

Lemma only_groups s s' (f : Z -> option Z) :
  (forall j, view s' j = match f j with Some g => set_group_id g <$> view s j | None => view s j end) -> only_groups_differ s s'.
Proof.
  intros Hv j. rewrite (group_of_set s s' f Hv j). rewrite Hv. unfold group_of. destruct (view s j) as [p|]; [|by destruct (f j)].
  cbn. destruct (f j); [done|]. cbn. f_equal. by destruct p.
Qed.

(** The groups after [i] left group [g], whose others are led by [new] now. *)
Definition groups_without (i g new : Z) (s : S) (j : Z) : option Z :=
  if decide (j = i) then Some i else if decide (group_of s j = Some g) then Some new else group_of s j.

Lemma taken_out_groups i g new s s' :
  groups_ok s -> group_of s i = Some g -> (forall j, group_of s' j = groups_without i g new s j) ->
  (forall j, j <> i -> group_of s j = Some g -> new <> i /\ group_of s new = Some g) ->
  groups_ok s' /\ alone s' i /\ forall j k, j <> i -> k <> i -> same_group s' j k <-> same_group s j k.
Proof.
  intros Hg Hi Hg' Hnew. split; [|split; [split|]].
  - intros k h. rewrite !Hg'. unfold groups_without. destruct (decide (k = i)) as [->|Hk]; [intros [= <-]; by rewrite decide_True|].
    destruct (decide (group_of s k = Some g)) as [Hkg|Hkg].
    + intros [= <-]. destruct (Hnew k Hk Hkg) as [? ?]. by rewrite decide_False, decide_True.
    + intros Hkh. pose proof (Hg k h Hkh) as Hh. rewrite decide_False by (intros ->; congruence). rewrite decide_False; [done|]. congruence.
  - rewrite Hg'. unfold groups_without. by rewrite decide_True.
  - intros j Hj. rewrite Hg'. unfold groups_without. rewrite decide_False by done.
    destruct (decide (group_of s j = Some g)) as [Hjg|Hjg]; [destruct (Hnew j Hj Hjg); congruence|]. intros Hji. pose proof (Hg j i Hji). congruence.
  - intros j k Hj Hk. unfold same_group. setoid_rewrite Hg'. unfold groups_without. rewrite !(decide_False (P:=_ = i)) by done.
    destruct (decide (group_of s j = Some g)) as [Hjg|Hjg], (decide (group_of s k = Some g)) as [Hkg|Hkg]; split; intros (h & Hjh & Hkh).
    + by exists g.
    + by exists new.
    + simplify_eq. destruct (Hnew j Hj Hjg) as [_ Hn]. pose proof (Hg k h Hkh). congruence.
    + congruence.
    + simplify_eq. destruct (Hnew k Hk Hkg) as [_ Hn]. pose proof (Hg j h Hjh). congruence.
    + congruence.
    + by exists h.
    + by exists h.
Qed.

Lemma remove_from_group_spec s i p : ok s -> groups_ok s -> view s i = Some p ->
  exists new imgs s', dt_grouping_remove_from_group i s = Done (Return (new, imgs, s')) /\ ok s' /\ only_groups_differ s s' /\
    (forall j, group_of s' j = groups_without i (group_id p) new s j) /\ (group_id p <> i -> new = group_id p) /\
    (forall j, j <> i -> group_of s j = Some (group_id p) -> new <> i /\ group_of s new = Some (group_id p)).
Proof.
  intros Hs Hg Hp. unfold dt_grouping_remove_from_group.
  destruct (read_spec s i p Hs Hp) as (img & s1 & -> & Hs1 & Hi & Hv1). cbn [block_bind c_bind].
  rewrite (f_equal group_id Hi : group_id img = group_id p). assert (group_of s i = Some (group_id p)) as Hgo by (unfold group_of; by rewrite Hp).
  destruct (view_id s i p Hs Hp) as (_ & Hi31 & _). unfold groups_without.
  destruct (Z.eqb_spec (group_id p) i) as [Hgi|Hne].
  - rewrite Hgi in *. set (others := filter (fun id => id <> i) (select_group i s1)).
    destruct (select_spec i s1 Hs1) as [Hnd Hsel].
    assert (forall j, j ∈ others <-> j <> i /\ group_of s j = Some i) as Hoth.
    { intros j. unfold others. rewrite list_elem_of_filter, Hsel. unfold group_of. setoid_rewrite Hv1.
      split; intros [Hj Hx]; (split; [done|]); [destruct Hx as (q & -> & <-); done|].
      apply fmap_Some in Hx as (q & Hq & ->). by exists q. }
    destruct (regroup_spec others (-1) [] s1 Hs1) as (s2 & -> & Hs2 & Hv2); [by apply NoDup_filter| |unfold s32; lia|].
    { apply Forall_forall. intros j [_ Hj]%Hoth. rewrite Hv1. unfold group_of in Hj. by destruct (view s j); [eexists|]. }
    cbn [block_bind c_bind]. set (new := final_leader others (-1)) in *.
    assert (forall j, view s2 j = match (if decide (j ∈ others) then Some new else None) with Some g => set_group_id g <$> view s j | None => view s j end) as Hv.
    { intros j. rewrite Hv2, Hv1. by destruct (decide (j ∈ others)). }
    assert (forall j, j ∈ others -> new ∈ others) as Hnew.
    { intros j. unfold new, final_leader. change (-1 =? -1) with true. cbv iota. destruct others; [by intros ?%not_elem_of_nil|by left]. }
    assert (forall j, group_of s2 j = if decide (j ∈ others) then Some new else group_of s j) as Hgrp.
    { intros j. rewrite (group_of_set s s2 _ Hv). destruct (decide (j ∈ others)) as [Hj|Hj]; [by apply Hoth in Hj as [_ ->]|]. by destruct (group_of s j). }
    rewrite (update_none new i i s2); [|intros k q Hk Hq|done].
    2:{ destruct (decide (k = i)) as [|Hki]; [done|]. exfalso. assert (group_of s2 k = Some i) as Hx by (unfold group_of; rewrite Hk; cbn; by f_equal).
        rewrite Hgrp in Hx. case_decide as Hj; [|by apply Hj, Hoth]. injection Hx as Hx. by destruct (proj1 (Hoth new) (Hnew k Hj)). }
    exists new, (rev others ++ []), s2. split; [done|]. split; [done|]. split; [exact (only_groups s s2 _ Hv)|]. split.
    + intros j. rewrite Hgrp. destruct (decide (j = i)) as [->|Hji]; [rewrite decide_False; [done|by intros [? _]%Hoth]|].
      destruct (decide (group_of s j = Some i)); [by rewrite decide_True by by apply Hoth|]. rewrite decide_False; [done|]. by intros [_ ?]%Hoth.
    + split; [done|]. intros j Hj Hjg. by apply Hoth, (Hnew j), Hoth.
  - rewrite <- Hv1 in Hp.
    destruct (change_group_spec i s1 i p Hs1 Hp ltac:(unfold s32; lia)) as (w & s2 & -> & Hs2 & Hw & Hv2). cbn [block_bind c_bind].
    assert (forall j, view s2 j = match (if decide (j = i) then Some i else None) with Some g => set_group_id g <$> view s j | None => view s j end) as Hv.
    { intros j. rewrite Hv2. destruct (decide (j = i)) as [->|]; [by rewrite <- Hv1, Hp|by rewrite Hv1]. }
    assert (group_id w = group_id p) as -> by exact (f_equal group_id Hw).
    eexists _, _, s2. split; [done|]. split; [done|]. split; [exact (only_groups s s2 _ Hv)|]. split.
    + intros j. rewrite (group_of_set s s2 _ Hv). destruct (decide (j = i)) as [->|]; [by rewrite Hgo|].
      destruct (group_of s j) as [h|] eqn:Hj; [|done]. cbn. case_decide; [done|done].
    + split; [done|]. intros j Hj Hjg. split; [done|]. by apply (Hg j).
Qed.

(** An image that is taken out of its group is alone; the others of the group stay together
    under one of them, whose number is returned; all other groups, and everything else of
    the images, stay as they are. *)
Theorem leaving_a_group s i p (Hs : ok s) (Hg : groups_ok s) (Hp : view s i = Some p) :
  exists new imgs s', dt_grouping_remove_from_group i s = Done (Return (new, imgs, s')) /\ ok s' /\
    groups_ok s' /\ only_groups_differ s s' /\ alone s' i /\
    (forall j k, j <> i -> k <> i -> same_group s' j k <-> same_group s j k) /\
    forall j, j <> i -> same_group s j i -> group_of s' j = Some new.
Proof.
  destruct (remove_from_group_spec s i p Hs Hg Hp) as (new & imgs & s' & Hr & Hs' & Ho & Hg' & _ & Hnew).
  assert (group_of s i = Some (group_id p)) as Hgo by (unfold group_of; by rewrite Hp).
  destruct (taken_out_groups i (group_id p) new s s' Hg Hgo Hg' Hnew) as (Hg1 & Halone & Hsame).
  exists new, imgs, s'. do 6 (split; [done|]). intros j Hj (h & Hjh & Hih).
  rewrite Hg'. unfold groups_without. rewrite decide_False by done. rewrite decide_True; [done|]. congruence.
Qed.

Lemma only_groups_trans s s1 s2 : only_groups_differ s s1 -> only_groups_differ s1 s2 -> only_groups_differ s s2.
Proof.
  intros H1 H2 j. specialize (H1 j). specialize (H2 j). unfold group_of in *.
  destruct (view s j) as [p|], (view s1 j) as [p1|], (view s2 j) as [p2|]; cbn in *; try done.
  etransitivity; [exact H2|]. f_equal. generalize (group_id p2). intros g. injection H1 as H1. by rewrite H1.
Qed.

(** An image joins the group of leader [g], or itself, and nothing else changes. *)
Lemma joining_a_group g s i p q : ok s -> groups_ok s -> view s i = Some p -> view s g = Some q -> g = i \/ group_id q = g ->
  exists s', dt_grouping_add_to_group g i s = Done (Return ([i], s')) /\ ok s' /\ groups_ok s' /\ only_groups_differ s s' /\
    group_of s' i = Some g /\ forall j k, j <> i -> k <> i -> same_group s' j k <-> same_group s j k.
Proof.
  intros Hs Hg Hp Hq Hqg. unfold dt_grouping_add_to_group.
  destruct (remove_from_group_spec s i p Hs Hg Hp) as (new & imgs & s1 & -> & Hs1 & Ho & Hg1 & Hnl & Hnew). cbn [block_bind c_bind].
  assert (group_of s i = Some (group_id p)) as Hgo by (unfold group_of; by rewrite Hp).
  destruct (taken_out_groups i (group_id p) new s s1 Hg Hgo Hg1 Hnew) as (Hok1 & [Hi1 Hal1] & Hsame).
  assert (group_of s1 g = Some g) as Hgg1.
  { destruct (decide (g = i)) as [->|Hne]; [done|]. destruct Hqg as [?|Hqg]; [done|].
    assert (group_of s g = Some g) as Hgg by (unfold group_of; rewrite Hq; cbn; by f_equal).
    rewrite Hg1. unfold groups_without. rewrite decide_False by done. case_decide as Hd; [|done]. rewrite Hgg in Hd. f_equal. injection Hd as Hd.
    rewrite Hnl; congruence. }
  pose proof Hi1 as (p1 & Hp1 & _)%fmap_Some. destruct (view_id s g q Hs Hq) as (_ & Hg31 & _).
  destruct (change_group_spec g s1 i p1 Hs1 Hp1 ltac:(unfold s32; lia)) as (w & s2 & -> & Hs2 & _ & Hv2). cbn [block_bind c_bind].
  assert (forall j, view s2 j = match (if decide (j = i) then Some g else None) with Some g => set_group_id g <$> view s1 j | None => view s1 j end) as Hv.
  { intros j. rewrite Hv2. destruct (decide (j = i)) as [->|]; [by rewrite Hp1|done]. }
  assert (forall j, group_of s2 j = if decide (j = i) then Some g else group_of s1 j) as Hgrp.
  { intros j. rewrite (group_of_set s1 s2 _ Hv). destruct (decide (j = i)) as [->|]; [by rewrite Hi1|]. by destruct (group_of s1 j). }
  exists s2. split; [done|]. split; [done|]. split; [|split; [eapply only_groups_trans; [exact Ho|exact (only_groups s1 s2 _ Hv)]|split]].
  - intros k h. rewrite !Hgrp. destruct (decide (k = i)) as [->|Hk]; [intros [= <-]; by case_decide|].
    intros Hkh. rewrite decide_False; [by eapply Hok1|]. intros ->. by apply (Hal1 k).
  - by rewrite Hgrp, decide_True.
  - intros j k Hj Hk. rewrite <- Hsame by done. unfold same_group. rewrite !Hgrp. by rewrite !decide_False.
Qed.

(** The new leader keeps the group together. *)
Lemma changing_the_leader s i p : ok s -> groups_ok s -> view s i = Some p ->
  exists imgs s', dt_grouping_change_representative i s = Done (Return (i, imgs, s')) /\ ok s' /\ groups_ok s' /\ only_groups_differ s s' /\
    group_of s' i = Some i /\ forall j k, same_group s' j k <-> same_group s j k.
Proof.
  intros Hs Hg Hp. unfold dt_grouping_change_representative.
  destruct (read_spec s i p Hs Hp) as (img & s1 & -> & Hs1 & Hi & Hv1). cbn [block_bind c_bind].
  rewrite (f_equal group_id Hi : group_id img = group_id p). assert (group_of s i = Some (group_id p)) as Hgo by (unfold group_of; by rewrite Hp).
  destruct (view_id s i p Hs Hp) as (_ & Hi31 & _). set (g := group_id p) in *.
  destruct (select_spec g s1 Hs1) as [Hnd Hsel].
  assert (forall j, j ∈ select_group g s1 <-> group_of s j = Some g) as Hm.
  { intros j. rewrite Hsel. unfold group_of. setoid_rewrite Hv1. split; [intros (q & -> & <-); done|].
    intros (q & Hq & ->)%fmap_Some. by exists q. }
  destruct (regroup_spec (select_group g s1) i [] s1 Hs1 Hnd) as (s2 & -> & Hs2 & Hv2); [|unfold s32; lia|].
  { apply Forall_forall. intros j Hj%Hm. rewrite Hv1. unfold group_of in Hj. by destruct (view s j); [eexists|]. }
  cbn [block_bind c_bind]. assert (final_leader (select_group g s1) i = i) as Hfl by (unfold final_leader; destruct (Z.eqb_spec i (-1)); [lia|done]).
  rewrite Hfl in Hv2. eexists _, s2. split; [reflexivity|]. split; [done|].
  assert (forall j, view s2 j = match (if decide (j ∈ select_group g s1) then Some i else None) with Some g => set_group_id g <$> view s j | None => view s j end) as Hv.
  { intros j. rewrite Hv2, Hv1. by destruct (decide (j ∈ select_group g s1)). }
  assert (forall j, group_of s2 j = if decide (group_of s j = Some g) then Some i else group_of s j) as Hgrp.
  { intros j. rewrite (group_of_set s s2 _ Hv). destruct (decide (group_of s j = Some g)) as [Hj|Hj].
    - by rewrite decide_True, Hj by by apply Hm.
    - rewrite decide_False by by intros ?%Hm. by destruct (group_of s j). }
  split; [|split; [exact (only_groups s s2 _ Hv)|split]].
  - intros k h. rewrite !Hgrp. destruct (decide (group_of s k = Some g)) as [Hk|Hk]; [intros [= <-]; by rewrite decide_True|].
    intros Hkh. pose proof (Hg k h Hkh). rewrite decide_False; [done|congruence].
  - by rewrite Hgrp, decide_True.
  - intros j k. unfold same_group. setoid_rewrite Hgrp.
    assert (forall x h, group_of s x = Some h -> h = i -> h = g) as Hinj by (intros x h Hx ->; pose proof (Hg x i Hx); congruence).
    destruct (decide (group_of s j = Some g)) as [Hj|Hj], (decide (group_of s k = Some g)) as [Hk|Hk]; split; intros (h & Hjh & Hkh); try (by eauto); try congruence.
    + simplify_eq. rewrite (Hinj k h) in Hkh by done. congruence.
    + simplify_eq. rewrite (Hinj j h) in Hjh by done. congruence.
Qed.

Lemma only_groups_refl s : only_groups_differ s s.
Proof. intros k. unfold group_of. destruct (view s k) as [p|]; [|done]. cbn. f_equal. by destruct p. Qed.

(** A group that may be joined by the selected images: none yet, or one with a leader. *)
Definition joinable (g : Z) (s : S) : Prop := g = -1 \/ group_of s g = Some g.

Lemma exists_after s s' k : only_groups_differ s s' -> is_Some (view s k) -> is_Some (view s' k).
Proof. intros Ho [p Hp]. rewrite Ho, Hp. destruct (group_of s' k); by eexists. Qed.

Lemma group_selected_spec selected new imgs s :
  ok s -> groups_ok s -> Forall (fun k => is_Some (view s k)) selected -> joinable new s ->
  exists new' imgs' s', group_selected selected new imgs s = Done (Return (new', imgs', s')) /\ ok s' /\ groups_ok s' /\
    only_groups_differ s s' /\ joinable new' s'.
Proof.
  revert new imgs s. induction selected as [|i selected IH]; intros new imgs s Hs Hg Hall Hj; cbn [group_selected].
  { exists new, imgs, s. by split_and!; [..|apply only_groups_refl|]. }
  apply Forall_cons in Hall as [[p Hp] Hall]. set (g := if new =? -1 then i else new).
  assert (exists q, view s g = Some q /\ (g = i \/ group_id q = g)) as (q & Hq & Hqg).
  { unfold g. destruct (Z.eqb_spec new (-1)) as [|Hn]; [exists p; split; [done|by left]|].
    destruct Hj as [?|(q & Hq & He)%fmap_Some]; [done|]. exists q. split; [done|by right]. }
  destruct (joining_a_group g s i p q Hs Hg Hp Hq Hqg) as (s1 & -> & Hs1 & Hg1 & Ho1 & Hi1 & _). cbn [block_bind c_bind].
  destruct (IH g (imgs ++ [i]) s1 Hs1 Hg1) as (new' & imgs' & s' & -> & Hs' & Hg' & Ho' & Hj').
  - eapply Forall_impl; [exact Hall|]. intros k. by apply exists_after.
  - right. by eapply Hg1.
  - exists new', imgs', s'. split_and!; [done..| |done]. by eapply only_groups_trans.
Qed.

Lemma ungroup_selected_spec selected imgs s :
  ok s -> groups_ok s -> Forall (fun k => is_Some (view s k)) selected ->
  exists imgs' s', ungroup_selected selected imgs s = Done (Return (imgs', s')) /\ ok s' /\ groups_ok s' /\ only_groups_differ s s'.
Proof.
  revert imgs s. induction selected as [|i selected IH]; intros imgs s Hs Hg Hall; cbn [ungroup_selected].
  { exists imgs, s. by split_and!; [..|apply only_groups_refl]. }
  apply Forall_cons in Hall as [[p Hp] Hall].
  destruct (remove_from_group_spec s i p Hs Hg Hp) as (new & ims & s1 & -> & Hs1 & Ho1 & Hg' & _ & Hnew). cbn [block_bind c_bind].
  assert (group_of s i = Some (group_id p)) as Hgo by (unfold group_of; by rewrite Hp).
  destruct (taken_out_groups i (group_id p) new s s1 Hg Hgo Hg' Hnew) as (Hg1 & _).
  destruct (IH (imgs ++ [i]) s1 Hs1 Hg1) as (imgs' & s' & -> & Hs' & Hg2 & Ho').
  - eapply Forall_impl; [exact Hall|]. intros k. by apply exists_after.
  - exists imgs', s'. split_and!; [done..|]. by eapply only_groups_trans.
Qed.

(** Any of the changes, of images that exist: one image leaves its group, joins the group of
    a leader or itself, or becomes the leader; or the selected images are grouped, with an
    open group if that has a leader, or ungrouped. *)
Inductive group_step : S -> S -> Prop :=
  | step_leave i s new imgs s' :
      is_Some (view s i) -> dt_grouping_remove_from_group i s = Done (Return (new, imgs, s')) -> group_step s s'
  | step_join g i s imgs s' :
      is_Some (view s i) -> g = i \/ group_of s g = Some g ->
      dt_grouping_add_to_group g i s = Done (Return (imgs, s')) -> group_step s s'
  | step_lead i s new imgs s' :
      is_Some (view s i) -> dt_grouping_change_representative i s = Done (Return (new, imgs, s')) -> group_step s s'
  | step_group grouping expanded selected s expanded' imgs s' :
      Forall (fun k => is_Some (view s k)) selected -> joinable expanded s ->
      _group_helper_function grouping expanded selected s = Done (Return (expanded', imgs, s')) -> group_step s s'
  | step_ungroup selected s expanded imgs s' :
      Forall (fun k => is_Some (view s k)) selected ->
      _ungroup_helper_function selected s = Done (Return (expanded, imgs, s')) -> group_step s s'.

Lemma group_step_keeps s s' : ok s -> groups_ok s -> group_step s s' -> ok s' /\ groups_ok s' /\ only_groups_differ s s'.
Proof.
  intros Hs Hg Hst. revert Hs Hg.
  destruct Hst as [i x new imgs y [p Hp] He|g i x imgs y [p Hp] Hgg He|i x new imgs y [p Hp] He
    |grouping e l x e' imgs y Hall Hj He|l x e imgs y Hall He]; intros Hs Hg.
  - destruct (remove_from_group_spec x i p Hs Hg Hp) as (? & ? & z & Hr & Hz & Ho & Hg' & _ & Hnew). rewrite He in Hr. simplify_eq.
    assert (group_of x i = Some (group_id p)) as Hgo by (unfold group_of; by rewrite Hp).
    by destruct (taken_out_groups i (group_id p) _ x z Hg Hgo Hg' Hnew).
  - assert (exists q, view x g = Some q /\ (g = i \/ group_id q = g)) as (q & Hq & Hqg).
    { destruct Hgg as [->|(q & Hq & Hqg)%fmap_Some]; [exists p; split; [done|by left]|exists q; split; [done|by right]]. }
    destruct (joining_a_group g x i p q Hs Hg Hp Hq Hqg) as (z & Hr & Hz & Hgz & Ho & _).
    rewrite He in Hr. by simplify_eq.
  - destruct (changing_the_leader x i p Hs Hg Hp) as (? & z & Hr & Hz & Hgz & Ho & _). rewrite He in Hr. by simplify_eq.
  - destruct (group_selected_spec l e [] x Hs Hg Hall Hj) as (? & ? & z & Hr & Hz & Hgz & Ho & _).
    unfold _group_helper_function in He. rewrite Hr in He. cbn in He. by simplify_eq.
  - destruct (ungroup_selected_spec l [] x Hs Hg Hall) as (? & z & Hr & Hz & Hgz & Ho).
    unfold _ungroup_helper_function in He. rewrite Hr in He. cbn in He. by simplify_eq.
Qed.

(** C10: however often images leave groups, join the group of a leader or themselves, become
    leaders, and are grouped (in the open group, if that has a leader, or a new one) and
    ungrouped as the selected images, every group is led by one of its own images, and no
    image changes in anything but its group. *)
Theorem groups_stay_led s s' (Hs : ok s) (Hg : groups_ok s) (Hr : rtc group_step s s') :
  ok s' /\ groups_ok s' /\ only_groups_differ s s'.
Proof.
  revert Hs Hg. induction Hr as [s|s s1 s2 Hstep _ IH]; intros Hs Hg; [by split_and!; [..|apply only_groups_refl]|].
  destruct (group_step_keeps s s1 Hs Hg Hstep) as (Hs1 & Hg1 & Ho1). destruct (IH Hs1 Hg1) as (Hs2 & Hg2 & Ho2).
  split; [done|]. split; [done|]. by eapply only_groups_trans.
Qed.

(** The images that an image stands for: the other images of its group if that is not open. *)
Lemma grouped_images_one gui i s p : ok s -> view s i = Some p ->
  exists gimgs s', dt_grouping_add_grouped_images gui [i] s = Done (Return (i :: gimgs, s')) /\ ok s' /\ (forall j, view s' j = view s j) /\
    NoDup (i :: gimgs) /\
    forall j, j ∈ gimgs <-> j <> i /\ collapsed gui (group_id p) = true /\ group_of s j = Some (group_id p).
Proof.
  intros Hs Hp. unfold dt_grouping_add_grouped_images. cbn [grouped_images].
  destruct (read_spec s i p Hs Hp) as (img & s1 & -> & Hs1 & Hi & Hv1). cbn [block_bind c_bind grouped_images app].
  rewrite app_nil_r. rewrite (f_equal group_id Hi : group_id img = group_id p). eexists _, s1. split; [reflexivity|]. split; [done|]. split; [done|].
  destruct (collapsed gui (group_id p)).
  - destruct (select_spec (group_id p) s1 Hs1) as [Hnd Hsel]. split.
    + apply NoDup_cons. split; [by intros [? _]%list_elem_of_filter|]. by apply NoDup_filter.
    + intros j. rewrite list_elem_of_filter, Hsel. unfold group_of. setoid_rewrite Hv1. split.
      * intros [Hj (q & -> & <-)]. done.
      * intros (Hj & _ & (q & Hq & Hg)%fmap_Some). split; [done|]. by exists q.
  - split; [apply NoDup_singleton|]. intros j. split; [by intros ?%not_elem_of_nil|naive_solver].
Qed.

End grouping.

Module Example.
Import Tags.Example Images.Example ImageCache.Example.

#[local] Instance images_of_cache : ImageStore image_cache := image_cache_store round1 size.

(** Images 7 and 8 are a group that 7 leads; 9 is alone. *)
Definition row (k g : Z) : image_row := row_of_image round1 (set_group_id g photo) (empty_row k).
Definition grouped : image_cache := dt_image_cache_init size {[7 := row 7 7; 8 := row 8 7; 9 := row 9 9]}.

Lemma grouped_quiet : quiet round1 grouped.
Proof.
  split; [|done]. apply (ic_inv_initial round1 size). eexists. split; [reflexivity|].
  apply map_Forall_lookup. apply (bool_decide_unpack _). vm_compute. done.
Defined.

Lemma grouped_groups : groups_ok (view := stored) grouped.
Proof.
  intros k g (p & Hp & ->)%fmap_Some. apply fmap_Some in Hp as (r & Hr & ->). revert k r Hr.
  apply map_Forall_lookup. apply (bool_decide_unpack _). vm_compute. done.
Defined.

Lemma leaving_a_group_witness :
  exists new imgs s', dt_grouping_remove_from_group 7 grouped = Done (Return (new, imgs, s')) /\ quiet round1 s' /\
    groups_ok (view := stored) s' /\ only_groups_differ (view := stored) grouped s' /\ alone (view := stored) s' 7 /\
    (forall j k, j <> 7 -> k <> 7 -> same_group (view := stored) s' j k <-> same_group (view := stored) grouped j k) /\
    forall j, j <> 7 -> same_group (view := stored) grouped j 7 -> group_of (view := stored) s' j = Some new.
Proof.
  eapply (leaving_a_group (ok := quiet round1) (view := stored) grouped 7); [exact grouped_quiet|exact grouped_groups|].
  unfold stored. vm_compute. reflexivity.
Defined.

(** Image 9 joins the group, then 8 becomes its leader; then 9 and 7 are grouped, by the
    button without an open group. *)
Definition joined : image_cache :=
  match dt_grouping_add_to_group 7 9 grouped with Done (Return (_, s)) => s | _ => grouped end.
Definition led : image_cache :=
  match dt_grouping_change_representative 8 joined with Done (Return (_, _, s)) => s | _ => joined end.
Definition regrouped : image_cache :=
  match _group_helper_function false (-1) [9; 7] led with Done (Return (_, _, s)) => s | _ => led end.

Lemma groups_stay_led_witness :
  (quiet round1 regrouped /\ groups_ok (view := stored) regrouped /\ only_groups_differ (view := stored) grouped regrouped) /\
  map (group_of (view := stored) led) [7; 8; 9] = [Some 8; Some 8; Some 8] /\
  map (group_of (view := stored) regrouped) [7; 8; 9] = [Some 9; Some 8; Some 9].
Proof.
  split; [|split; vm_compute; reflexivity].
  apply (groups_stay_led (ok := quiet round1) (view := stored) grouped regrouped grouped_quiet grouped_groups).
  eapply rtc_l; [|eapply rtc_l; [|eapply rtc_once]].
  - eapply (step_join 7 9 grouped [9] joined); [by eexists; vm_compute|right; by vm_compute|by vm_compute].
  - eapply (step_lead 8 joined 8); [by eexists; vm_compute|by vm_compute].
  - eapply (step_group false (-1) [9; 7] led (-1) [9; 7]); [repeat constructor; by eexists; vm_compute|by left|by vm_compute].
Defined.

End Example.
