(* ===== verification/Ratings.v ===== *)
(** Star ratings of images and their undo: common/ratings.c.

    The rating is kept in the flags of an image: the lowest three bits are the stars, a
    fourth bit says that the image is rejected. [rating_one_double_tap] is the setting of
    that name. Whether the images of a group are rated together comes from [Grouping]. *)

From Stdlib Require Import Ascii String.
From S2P Require Import Prelude Cache Images ImageCache ImageStore Undo Attributes Grouping Library Tags.
Local Open Scope Z_scope.

Definition DT_VIEW_DESERT : Z := 0.
Definition DT_VIEW_STAR_1 : Z := 1.
Definition DT_VIEW_REJECT : Z := 6.
Definition DT_VIEW_RATINGS_MASK : Z := 7.

(** What an image is shown with. *)
Definition rating_of_flags (flags : Z) : Z :=
  if negb (Z.land flags DT_IMAGE_REJECTED =? 0) then DT_VIEW_REJECT else Z.land DT_VIEW_RATINGS_MASK flags.

(** The new flags; rejecting is a toggle, and so is one star. *)
Definition rated_flags (rating_one_double_tap : bool) (previous_rating rating flags : Z) : Z :=
  if rating =? DT_VIEW_REJECT then
    if negb (Z.land flags DT_IMAGE_REJECTED =? 0) then Z.land flags (Z.lnot DT_IMAGE_REJECTED) else Z.lor flags DT_IMAGE_REJECTED
  else
    let new_rating :=
      if negb rating_one_double_tap && (previous_rating =? DT_VIEW_STAR_1) && (rating =? DT_VIEW_STAR_1) then DT_VIEW_DESERT else rating in
    Z.lor (Z.land flags (Z.lnot (Z.lor DT_IMAGE_REJECTED DT_VIEW_RATINGS_MASK))) (Z.land DT_VIEW_RATINGS_MASK new_rating).

Section ratings.
Context {S : Type} `{!ImageStore S} (rating_one_double_tap : bool).

Record dt_undo_ratings_t := Undo_ratings { imgid : Z; before : Z; after : Z }.

Abbreviation undo_t := (dt_undo_t (blocking S) unit (list dt_undo_ratings_t)).

Definition dt_ratings_get (imgid : Z) (s : S) : blocking (Z * S) :=
  wait* (image, s) := read_image imgid s in
  Done (Return (match image with Some image => rating_of_flags (flags image) | None => 0 end, s)).

Definition _ratings_apply_to_image (imgid rating : Z) (s : S) : blocking S :=
  wait* (previous_rating, s) := dt_ratings_get imgid s in
  wait* (_, s) := change_image (fun image => set_flags (rated_flags rating_one_double_tap previous_rating rating (flags image)) image) imgid s in
  Done (Return s).

Fixpoint _ratings_apply (imgs : list Z) (rating : Z) (undo_on : bool) (s : S) : blocking (list dt_undo_ratings_t * S) :=
  match imgs with
  | [] => Done (Return ([], s))
  | image_id :: imgs =>
      wait* (undo, s) := (if undo_on then
                            wait* (before, s) := dt_ratings_get image_id s in
                            Done (Return ([Undo_ratings image_id before rating], s))
                          else Done (Return ([], s))) in
      wait* s := _ratings_apply_to_image image_id rating s in
      wait* (undo', s) := _ratings_apply imgs rating undo_on s in
      Done (Return (undo ++ undo', s))
  end.

(** The loop of _pop_undo. *)
Fixpoint pop_ratings (action : dt_undo_action_t) (l : list dt_undo_ratings_t) (s : S) (imgs : list Z) : blocking (S * list Z) :=
  match l with
  | [] => Done (Return (s, imgs))
  | ratings :: l =>
      wait* s := _ratings_apply_to_image (imgid ratings)
                   (match action with DT_ACTION_UNDO => before ratings | _ => after ratings end) s in
      pop_ratings action l s (imgid ratings :: imgs)
  end.

(** A callback that does not return, or that is undefined, is so for the whole undo. *)
Definition _pop_undo : undo_callback (World := blocking S) (U := unit) (D := list dt_undo_ratings_t) :=
  fun _ type data action world disable imgs =>
    if type =? DT_UNDO_RATINGS then
      match (wait* s := world in pop_ratings action (default [] data) s imgs) with
      | Done (Return (s, imgs)) => (Done (Return s), disable, imgs)
      | Done Restart => (Done Restart, disable, imgs)
      | Undefined => (Undefined, disable, imgs)
      end
    else (world, disable, imgs).

(** Start, record and end of the group of a change; [clock]: their times. *)
Definition start_undo (undo_on : bool) (now : Z) (u : undo_t) : undo_t :=
  if undo_on then fst (dt_undo_start_group u DT_UNDO_RATINGS now) else u.

Definition record_undo (undo_on : bool) (now1 now2 : Z) (undo : list dt_undo_ratings_t) (u : undo_t) : c_result undo_t :=
  if undo_on then
    let u := fst (dt_undo_record u None DT_UNDO_RATINGS (Some undo) (Some _pop_undo) true now1) in
    let* (u, _) := dt_undo_end_group u now2 in Done u
  else Done u.

Definition dt_ratings_apply_on_list (clock : Z * Z * Z) (img : list Z) (rating : Z) (undo_on : bool) (u : undo_t) (s : S)
    : blocking (undo_t * S) :=
  match img with
  | [] => Done (Return (u, s))
  | _ =>
      let '(t1, t2, t3) := clock in
      let u := start_undo undo_on t1 u in
      wait* (undo, s) := _ratings_apply img rating undo_on s in
      let* u := record_undo undo_on t2 t3 undo u in
      Done (Return (u, s))
  end.

Definition dt_ratings_apply_on_image (clock : Z * Z * Z) (gui : option (bool * Z)) (imgid rating : Z)
    (toggle_on undo_on group_on : bool) (u : undo_t) (s : S) : blocking (undo_t * S) :=
  if imgid >? 0 then
    let '(t1, t2, t3) := clock in
    wait* (previous_rating, s) := dt_ratings_get imgid s in
    let new_rating :=
      if toggle_on && negb rating_one_double_tap && (previous_rating =? DT_VIEW_STAR_1) && (rating =? DT_VIEW_STAR_1)
      then DT_VIEW_DESERT else rating in
    let u := start_undo undo_on t1 u in
    wait* (imgs, s) := (if group_on then dt_grouping_add_grouped_images gui [imgid] s else Done (Return ([imgid], s))) in
    wait* (undo, s) := _ratings_apply imgs new_rating undo_on s in
    let* u := record_undo undo_on t2 t3 undo u in
    Done (Return (u, s))
  else Done (Return (u, s)).

End ratings.

(** *** The lowest four bits *)

Lemma nibble_testbit h l n : 0 <= l < 16 -> 0 <= n ->
  Z.testbit (16 * h + l) n = if n <? 4 then Z.testbit l n else Z.testbit h (n - 4).
Proof.
  intros Hl Hn. destruct (Z.ltb_spec n 4).
  - rewrite <- (Z.mod_pow2_bits_low (16 * h + l) 4 n) by lia. f_equal. change (2 ^ 4) with 16.
    rewrite Z.add_comm, Z.mul_comm, Z_mod_plus_full. by apply Z.mod_small.
  - replace n with (n - 4 + 4) at 1 by lia. rewrite <- Z.div_pow2_bits by lia. f_equal. change (2 ^ 4) with 16.
    rewrite Z.add_comm, Z.mul_comm, Z.div_add, Z.div_small by lia. lia.
Qed.

Lemma small_testbit m n : 0 <= m < 16 -> 4 <= n -> Z.testbit m n = false.
Proof. intros Hm Hn. replace m with (16 * 0 + m) by lia. rewrite nibble_testbit by lia. destruct (Z.ltb_spec n 4); [lia|apply Z.bits_0]. Qed.

Ltac nibble_bits Hl Hm :=
  apply Z.bits_inj'; intros n Hn;
  rewrite ?Z.land_spec, ?Z.lor_spec, ?Z.lnot_spec, ?(nibble_testbit _ _ _ Hl Hn), ?Z.land_spec, ?Z.lor_spec, ?Z.lnot_spec by done;
  destruct (Z.ltb_spec n 4); [done|];
  rewrite ?(small_testbit _ n Hm), ?(small_testbit _ n Hl) by done;
  by rewrite ?andb_false_r, ?andb_true_r, ?orb_false_r.

Lemma nibble_land h l m : 0 <= l < 16 -> 0 <= m < 16 -> Z.land (16 * h + l) m = Z.land l m.
Proof. intros Hl Hm. nibble_bits Hl Hm. Qed.

Lemma nibble_lor h l m l' : 0 <= l < 16 -> 0 <= m < 16 -> Z.lor l m = l' -> 0 <= l' < 16 -> Z.lor (16 * h + l) m = 16 * h + l'.
Proof. intros Hl Hm He Hl'. apply Z.bits_inj'. intros n Hn. rewrite Z.lor_spec, !nibble_testbit, <- He, Z.lor_spec by done.
  destruct (Z.ltb_spec n 4); [done|]. by rewrite (small_testbit m n Hm), orb_false_r by done. Qed.

Lemma nibble_clear h l m l' : 0 <= l < 16 -> 0 <= m < 16 -> Z.land l (Z.lnot m) = l' -> 0 <= l' < 16 ->
  Z.land (16 * h + l) (Z.lnot m) = 16 * h + l'.
Proof. intros Hl Hm He Hl'. apply Z.bits_inj'. intros n Hn. rewrite Z.land_spec, !nibble_testbit, <- He, Z.land_spec, Z.lnot_spec by done.
  destruct (Z.ltb_spec n 4); [done|]. by rewrite (small_testbit m n Hm), andb_true_r by done. Qed.

Ltac sixteen l :=
  let H := fresh in
  assert (l = 0 \/ l = 1 \/ l = 2 \/ l = 3 \/ l = 4 \/ l = 5 \/ l = 6 \/ l = 7 \/ l = 8 \/ l = 9 \/ l = 10 \/ l = 11 \/ l = 12 \/
          l = 13 \/ l = 14 \/ l = 15) as H by lia;
  repeat destruct H as [->|H]; [..|subst l].

Lemma rating_nibble h l : 0 <= l < 16 -> rating_of_flags (16 * h + l) = rating_of_flags l.
Proof.
  intros Hl. unfold rating_of_flags. rewrite !(Z.land_comm DT_VIEW_RATINGS_MASK).
  by rewrite !nibble_land by (unfold DT_IMAGE_REJECTED, DT_VIEW_RATINGS_MASK; lia).
Qed.

(** A rating changes the lowest four bits only. *)
Lemma rated_nibble dt previous r h l : 0 <= l < 16 -> 0 <= r < 8 ->
  rated_flags dt previous r (16 * h + l) = 16 * h + rated_flags dt previous r l /\ 0 <= rated_flags dt previous r l < 16.
Proof.
  intros Hl Hr. unfold rated_flags. rewrite nibble_land by (unfold DT_IMAGE_REJECTED; lia).
  assert (0 <= Z.land l (Z.lnot DT_IMAGE_REJECTED) < 16 /\ 0 <= Z.lor l DT_IMAGE_REJECTED < 16 /\
          Z.land l (Z.lnot (Z.lor DT_IMAGE_REJECTED DT_VIEW_RATINGS_MASK)) = 0) as (H1 & H2 & H0) by (sixteen l; vm_compute; done).
  destruct (r =? DT_VIEW_REJECT).
  - destruct (negb _); (split; [|done]); [apply nibble_clear|apply nibble_lor]; (done || (unfold DT_IMAGE_REJECTED; lia)).
  - set (r' := if negb dt && _ && _ then _ else _). assert (0 <= r' < 8) as Hr' by (unfold r', DT_VIEW_DESERT; destruct (negb dt && _ && _); lia).
    clearbody r'. assert (Z.land DT_VIEW_RATINGS_MASK r' = r') as Hm.
    { rewrite Z.land_comm. change DT_VIEW_RATINGS_MASK with (Z.ones 3). rewrite Z.land_ones by lia. by apply Z.mod_small. }
    rewrite Hm, H0, Z.lor_0_l. split; [|lia]. rewrite (nibble_clear h l _ 0) by (done || (vm_compute; done)).
    apply nibble_lor; [lia|lia|apply Z.lor_0_l|lia].
Qed.

Lemma flags_nibble f : exists h l, f = 16 * h + l /\ 0 <= l < 16 /\ h = f / 16.
Proof.
  exists (f / 16), (f mod 16). split; [apply Z.div_mod; lia|]. split; [apply Z.mod_pos_bound; lia|done].
Qed.

Lemma rated_flags_high dt previous r f : 0 <= r < 8 -> rated_flags dt previous r f / 16 = f / 16.
Proof.
  intros Hr. destruct (flags_nibble f) as (h & l & -> & Hl & _). destruct (rated_nibble dt previous r h l Hl Hr) as [-> Hr'].
  set (l' := rated_flags dt previous r l) in *. rewrite !(Z.mul_comm 16), !(Z.add_comm (h * 16)), !Z.div_add by lia. by rewrite !Z.div_small by lia.
Qed.

Lemma s32_high f f' : s32 f -> f' / 16 = f / 16 -> s32 f'.
Proof.
  unfold s32. intros Hf He. pose proof (Z.div_mod f 16 ltac:(lia)). pose proof (Z.div_mod f' 16 ltac:(lia)).
  pose proof (Z.mod_pos_bound f 16 ltac:(lia)). pose proof (Z.mod_pos_bound f' 16 ltac:(lia)). lia.
Qed.

(** Undoing a rating that was applied to [f] gives the image its old rating, and applying
    the new one again the rating it had then. *)
Lemma rating_undone dt r f : 0 <= r <= 6 ->
  let rate r f := rated_flags dt (rating_of_flags f) r f in
  let f1 := rate r f in
  let f2 := rate (rating_of_flags f) f1 in
  rating_of_flags f2 = rating_of_flags f /\ rating_of_flags (rate r f2) = rating_of_flags f1.
Proof.
  intros Hr rate f1 f2. destruct (flags_nibble f) as (h & l & -> & Hl & _).
  assert (forall l r, 0 <= l < 16 -> 0 <= r < 8 -> rate r (16 * h + l) = 16 * h + rate r l /\ 0 <= rate r l < 16) as Hrate.
  { intros l' r' Hl' Hr'. unfold rate. rewrite rating_nibble by done. by apply rated_nibble. }
  unfold f2, f1. rewrite rating_nibble by done. destruct (Hrate l r Hl) as [-> H1]; [lia|].
  assert (0 <= rating_of_flags l < 8) as Hrl by (clear -Hl; sixteen l; vm_compute; done).
  destruct (Hrate (rate r l) (rating_of_flags l) H1 Hrl) as [-> H2].
  destruct (Hrate (rate (rating_of_flags l) (rate r l)) r H2) as [-> H3]; [lia|].
  rewrite !rating_nibble by done. unfold rate. clear -Hl Hr.
  assert (r = 0 \/ r = 1 \/ r = 2 \/ r = 3 \/ r = 4 \/ r = 5 \/ r = 6) as Hc by lia.
  sixteen l; repeat destruct Hc as [->|Hc]; try subst r; destruct dt; vm_compute; done.
Qed.

(** ** What the functions do to an image *)

Section ratings_spec.
Context {S : Type} `{!ImageStore S} (rating_one_double_tap : bool).
Context {ok : S -> Prop} {view : S -> Z -> option dt_image_t} `{!ImageStoreSpec S ok view}.

(** The rating of an image; 0 for an image that is not there. *)
Definition rating_at (s : S) (k : Z) : Z := default 0 ((fun p => rating_of_flags (flags p)) <$> view s k).

(** The flags after a rating was applied. *)
Definition apply_rating (rating : Z) (p : dt_image_t) : dt_image_t :=
  set_flags (rated_flags rating_one_double_tap (rating_of_flags (flags p)) rating (flags p)) p.

(** Nothing but the ratings changed: the flags above the fourth bit are as they were. *)
Definition only_ratings_differ (s s' : S) : Prop :=
  forall k, view s' k = view s k \/ exists p f, view s k = Some p /\ view s' k = Some (set_flags f p) /\ f / 16 = flags p / 16.

Lemma apply_spec k rating s p : ok s -> view s k = Some p -> s32 (flags (apply_rating rating p)) ->
  exists s', _ratings_apply_to_image rating_one_double_tap k rating s = Done (Return s') /\ ok s' /\
    forall j, view s' j = if decide (j = k) then Some (apply_rating rating p) else view s j.
Proof.
  intros Hs Hp Hok. unfold _ratings_apply_to_image, dt_ratings_get.
  destruct (read_spec s k p Hs Hp) as (i & s1 & -> & Hs1 & Hi & Hv1). cbn [block_bind c_bind].
  rewrite (f_equal flags Hi : flags i = flags p). 
  match goal with |- context [change_image ?g _ _] => set (f := g) end.
  destruct (view_id s k p Hs Hp) as (_ & _ & Hpok).
  destruct (change_spec f s1 k p Hs1) as (i' & s2 & -> & Hs2 & _ & Hv2); [by rewrite Hv1| |done|done|by apply image_ok_flags|].
  { intros x y Hxy. unfold f. rewrite (f_equal flags Hxy : flags x = flags y). by apply set_flags_proper. }
  cbn [block_bind c_bind]. exists s2. split; [done|]. split; [done|]. intros j. rewrite Hv2, Hv1.
  change (persistent (f p)) with (f (persistent p)). by rewrite (view_persistent s k p Hp).
Qed.

Lemma apply_rating_ok k r s p : ok s -> view s k = Some p -> 0 <= r < 8 -> s32 (flags (apply_rating r p)).
Proof.
  intros Hs Hp Hr. destruct (view_id s k p Hs Hp) as (_ & _ & _ & _ & Hints & _). apply (s32_high (flags p)).
  - do 2 apply Forall_cons in Hints as [_ Hints]. by apply Forall_cons in Hints as [? _].
  - cbn. by apply rated_flags_high.
Qed.

(** Several images, each rated with a rating of its own. *)
Definition rated (r : Z -> Z) (imgs : list Z) (s s' : S) : Prop :=
  forall j, view s' j = if decide (j ∈ imgs) then apply_rating (r j) <$> view s j else view s j.

Definition present (imgs : list Z) (s : S) : Prop := Forall (fun k => is_Some (view s k)) imgs.

Lemma rated_cons r k imgs s s1 s' p : k ∉ imgs -> view s k = Some p ->
  (forall j, view s1 j = if decide (j = k) then Some (apply_rating (r k) p) else view s j) -> rated r imgs s1 s' -> rated r (k :: imgs) s s'.
Proof.
  intros Hk Hp H1 H2 j. rewrite H2, H1. destruct (decide (j = k)) as [->|Hj].
  - rewrite decide_False, decide_True by (done || by left). by rewrite Hp.
  - destruct (decide (j ∈ imgs)); [rewrite decide_True by (by right); done|]. rewrite decide_False; [done|]. by intros [|]%elem_of_cons.
Qed.

Lemma present_after k imgs s s1 x : (forall j, view s1 j = if decide (j = k) then Some x else view s j) -> present imgs s -> present imgs s1.
Proof. intros Hv Hall. eapply Forall_impl; [exact Hall|]. cbn. intros j Hj. rewrite Hv. case_decide; [by eexists|done]. Qed.

Lemma ratings_apply_spec imgs r s : ok s -> NoDup imgs -> present imgs s -> 0 <= r < 8 ->
  exists s', _ratings_apply rating_one_double_tap imgs r true s =
      Done (Return (map (fun k => Undo_ratings k (rating_at s k) r) imgs, s')) /\ ok s' /\ rated (fun _ => r) imgs s s'.
Proof.
  intros Hs Hnd Hall Hr. revert s Hs Hall. induction imgs as [|k imgs IH]; intros s Hs Hall; cbn [_ratings_apply map].
  { exists s. split; [done|]. by split. }
  apply NoDup_cons in Hnd as [Hk Hnd]. apply Forall_cons in Hall as [[p Hp] Hall]. unfold dt_ratings_get at 1.
  destruct (read_spec s k p Hs Hp) as (i & s0 & -> & Hs0 & Hi & Hv0). cbn [block_bind c_bind].
  rewrite (f_equal flags Hi : flags i = flags p). rewrite <- Hv0 in Hp.
  destruct (apply_spec k r s0 p Hs0 Hp) as (s1 & -> & Hs1 & Hv1); [by eapply apply_rating_ok|]. cbn [block_bind c_bind].
  assert (forall j, view s1 j = if decide (j = k) then Some (apply_rating r p) else view s j) as Hv by (intros j; by rewrite Hv1, Hv0).
  destruct (IH Hnd s1 Hs1) as (s' & -> & Hs' & Hrest); [by eapply present_after|]. cbn [block_bind c_bind app].
  rewrite Hv0 in Hp. exists s'. split; [|split; [done|by eapply rated_cons]]. do 3 f_equal. f_equal.
  - unfold rating_at. by rewrite Hp.
  - apply map_ext_in. intros j Hj%list_elem_of_In. unfold rating_at. rewrite Hv, decide_False; [done|]. by intros ->.
Qed.

Lemma pop_ratings_spec action b r imgs s acc : ok s -> NoDup imgs -> present imgs s ->
  let target k := match action with DT_ACTION_UNDO => b k | _ => r end in
  (forall k, k ∈ imgs -> 0 <= target k < 8) ->
  exists s', pop_ratings rating_one_double_tap action (map (fun k => Undo_ratings k (b k) r) imgs) s acc =
      Done (Return (s', rev imgs ++ acc)) /\ ok s' /\ rated target imgs s s'.
Proof.
  intros Hs Hnd Hall target Hr. revert s acc Hs Hall Hr. induction imgs as [|k imgs IH]; intros s acc Hs Hall Hr; cbn [pop_ratings map imgid before after].
  { exists s. split; [done|]. by split. }
  apply NoDup_cons in Hnd as [Hk Hnd]. apply Forall_cons in Hall as [[p Hp] Hall]. fold (target k).
  destruct (apply_spec k (target k) s p Hs Hp) as (s1 & -> & Hs1 & Hv1); [eapply apply_rating_ok; [done|done|apply Hr; by left]|]. cbn [block_bind c_bind].
  destruct (IH Hnd s1 (k :: acc) Hs1) as (s' & -> & Hs' & Hrest); [by eapply present_after|intros j Hj; apply Hr; by right|].
  exists s'. split; [cbn; by rewrite <- app_assoc|]. split; [done|]. by eapply rated_cons.
Qed.

Abbreviation undo_t := (dt_undo_t (blocking S) unit (list dt_undo_ratings_t)).

Lemma pop_ratings_applies action records s s' imgs disable :
  pop_ratings rating_one_double_tap action records s [] = Done (Return (s', imgs)) ->
  _pop_undo rating_one_double_tap None DT_UNDO_RATINGS (Some records) action (Done (Return s)) disable [] = (Done (Return s'), disable, imgs).
Proof. intros Hp. unfold _pop_undo. rewrite Z.eqb_refl. cbn [block_bind c_bind default from_option]. unfold Datatypes.id. by rewrite Hp. Qed.

Lemma rated_at f imgs s s' k : rated f imgs s s' ->
  rating_at s' k = if decide (k ∈ imgs) then default 0 ((fun p => rating_of_flags (flags (apply_rating (f k) p))) <$> view s k) else rating_at s k.
Proof. intros Hr. unfold rating_at. rewrite Hr. case_decide; [|done]. by destruct (view s k). Qed.

Lemma rated_only f imgs s s1 g s2 : (forall k, 0 <= f k < 8) -> (forall k, 0 <= g k < 8) ->
  rated f imgs s s1 -> rated g imgs s1 s2 -> only_ratings_differ s s2.
Proof.
  intros Hf Hg H1 H2 k. rewrite H2, H1. destruct (decide (k ∈ imgs)); [|by left]. destruct (view s k) as [p|]; [right|by left].
  exists p, (flags (apply_rating (g k) (apply_rating (f k) p))). split; [done|]. split; [done|]. cbn. rewrite !rated_flags_high; done.
Qed.

Lemma rating_range f : 0 <= rating_of_flags f <= 7.
Proof.
  destruct (flags_nibble f) as (h & l & -> & Hl & _). rewrite rating_nibble by done. sixteen l; vm_compute; done.
Qed.

(** Rating images in a group of the undo lists, and what undo and redo do then. *)
Lemma rate_and_undo (t1 t2 t3 r : Z) imgs (u : undo_t) s filter :
  ok s -> NoDup imgs -> present imgs s -> 0 <= r <= 6 -> Z.land DT_UNDO_RATINGS filter <> 0 ->
  group u = DT_UNDO_NONE -> locked u = false -> disable_next u = false ->
  exists undo s1 u1, _ratings_apply rating_one_double_tap imgs r true s = Done (Return (undo, s1)) /\
    record_undo rating_one_double_tap true t2 t3 undo (start_undo true t1 u) = Done u1 /\ ok s1 /\ rated (fun _ => r) imgs s s1 /\
    exists u2 s2 synched, dt_undo_do_undo u1 filter (Done (Return s1)) = Done (u2, Done (Return s2), synched) /\ ok s2 /\
      undo_list u2 = undo_list u /\ (forall k, rating_at s2 k = rating_at s k) /\ only_ratings_differ s s2 /\ (forall k, k ∈ synched <-> k ∈ imgs) /\
      exists s3 synched', dt_undo_do_redo u2 filter (Done (Return s2)) = Done (u1, Done (Return s3), synched') /\ ok s3 /\
        forall k, rating_at s3 k = rating_at s1 k.
Proof.
  intros Hs Hnd Hall Hr Hf Hgr Hlk Hdn.
  destruct (ratings_apply_spec imgs r s Hs Hnd Hall) as (s1 & -> & Hs1 & Hr1); [lia|].
  set (b := rating_at s). set (records := map _ imgs). exists records, s1.
  destruct (group_recorded (_pop_undo rating_one_double_tap) DT_UNDO_RATINGS t1 t2 t3 records u) as (freed & Hrec); try done.
  eexists. split; [done|]. unfold record_undo, start_undo. rewrite Hrec. cbn [c_bind]. split; [reflexivity|]. split; [done|]. split; [done|].
  assert (forall s s' f, rated f imgs s s' -> present imgs s -> present imgs s') as Hpres.
  { intros x y f Hxy Hx. unfold present in *. rewrite Forall_forall in *. intros k Hk. rewrite Hxy, decide_True by done. destruct (Hx k Hk) as [p ->]. by eexists. }
  assert (forall k, 0 <= b k < 8) as Hb.
  { intros k. unfold b, rating_at. destruct (view s k) as [p|]; cbn; [|lia]. pose proof (rating_range (flags p)). lia. }
  destruct (pop_ratings_spec DT_ACTION_UNDO b r imgs s1 [] Hs1 Hnd) as (s2 & Hp2 & Hs2 & Hr2); [by eapply Hpres|by intros; apply Hb|].
  destruct (pop_ratings_spec DT_ACTION_REDO b r imgs s2 [] Hs2 Hnd) as (s3 & Hp3 & Hs3 & Hr3); [eapply Hpres; [exact Hr2|by eapply Hpres]|intros; lia|].
  cbn beta iota in Hr2, Hr3. rewrite app_nil_r in Hp2, Hp3.
  destruct (undo_redo_recorded (_pop_undo rating_one_double_tap) u filter DT_UNDO_RATINGS t1 t2 t3 records
              (Done (Return s1)) (Done (Return s2)) (Done (Return s3)) (rev imgs) (rev imgs) Hf) as (u2 & Hundo & Hl2 & Hredo);
    [intros; by apply pop_ratings_applies..|].
  eexists u2, s2, _. split; [exact Hundo|]. split; [done|]. split; [done|].
  assert (forall k p, view s k = Some p -> k ∈ imgs ->
            view s1 k = Some (apply_rating r p) /\ view s2 k = Some (apply_rating (rating_of_flags (flags p)) (apply_rating r p)) /\
            view s3 k = Some (apply_rating r (apply_rating (rating_of_flags (flags p)) (apply_rating r p)))) as Hviews.
  { intros k p Hp Hk. assert (b k = rating_of_flags (flags p)) as Hbk by (unfold b, rating_at; by rewrite Hp).
    rewrite Hr3, Hr2, Hr1. rewrite !decide_True by done. by rewrite Hp, Hbk. }
  assert (forall k, k ∉ imgs -> view s1 k = view s k /\ view s2 k = view s k /\ view s3 k = view s k) as Hothers.
  { intros k Hk. rewrite Hr3, Hr2, Hr1. by rewrite !decide_False. }
  split; [|split; [eapply rated_only; [| |exact Hr1|exact Hr2]; [intros; lia|done]|split; [intros k; apply synchronised_elem|]]].
  - intros k. unfold b, rating_at. destruct (decide (k ∈ imgs)) as [Hk|Hk]; [|by destruct (Hothers k Hk) as (_ & -> & _)].
    unfold present in Hall. rewrite Forall_forall in Hall. destruct (Hall k Hk) as [p Hp]. destruct (Hviews k p Hp Hk) as (_ & -> & _).
    unfold b, rating_at. rewrite Hp. cbn. by apply rating_undone.
  - unfold present in Hall. rewrite Forall_forall in *. intros j Hj. destruct (Hall j Hj) as [p Hp]. by destruct (view_id s j p Hs Hp) as (_ & ? & _).
  - eexists s3, _. split; [exact Hredo|]. split; [done|]. intros k. unfold rating_at.
    destruct (decide (k ∈ imgs)) as [Hk|Hk]; [|destruct (Hothers k Hk) as (-> & _ & ->); done].
    unfold present in Hall. rewrite Forall_forall in Hall. destruct (Hall k Hk) as [p Hp]. destruct (Hviews k p Hp Hk) as (-> & _ & ->).
    cbn. by apply rating_undone.
Qed.

(** C19: rating a list of images gives each its new rating and changes nothing else; undo gives
    all images the ratings they were shown with before, redo those they had after, although
    a rejection and a single star are toggles. *)
Theorem ratings_undo_redo clock imgs r (u : undo_t) s filter
    (Hs : ok s) (Hne : imgs <> []) (Hnd : NoDup imgs) (Hall : present imgs s) (Hr : 0 <= r <= 6)
    (Hfilter : Z.land DT_UNDO_RATINGS filter <> 0)
    (Hgroup : group u = DT_UNDO_NONE) (Hlock : locked u = false) (Hnext : disable_next u = false) :
  exists u1 s1, dt_ratings_apply_on_list rating_one_double_tap clock imgs r true u s = Done (Return (u1, s1)) /\ ok s1 /\
    rated (fun _ => r) imgs s s1 /\
    exists u2 s2 synched, dt_undo_do_undo u1 filter (Done (Return s1)) = Done (u2, Done (Return s2), synched) /\
      (forall k, rating_at s2 k = rating_at s k) /\ only_ratings_differ s s2 /\ (forall k, k ∈ synched <-> k ∈ imgs) /\
      exists s3 synched', dt_undo_do_redo u2 filter (Done (Return s2)) = Done (u1, Done (Return s3), synched') /\
        forall k, rating_at s3 k = rating_at s1 k.
Proof.
  destruct imgs as [|i imgs]; [done|]. destruct clock as [[t1 t2] t3]. unfold dt_ratings_apply_on_list.
  destruct (rate_and_undo t1 t2 t3 r (i :: imgs) u s filter Hs Hnd Hall Hr Hfilter Hgroup Hlock Hnext)
    as (undo & s1 & u1 & -> & Hrec & Hs1 & Hr1 & u2 & s2 & sy & Hu & _ & _ & Hv2 & Ho & Hsy & s3 & sy' & Hre & _ & Hv3).
  cbn [block_bind c_bind]. rewrite Hrec. exists u1, s1. by eauto 15.
Qed.

(** Rating an image rates the images of its group with it, if the group is collapsed. *)
Lemma group_rated clock gui k r (u : undo_t) s p :
  ok s -> view s k = Some p -> 0 <= r <= 6 -> group u = DT_UNDO_NONE -> locked u = false -> disable_next u = false ->
  exists u1 s1 imgs, dt_ratings_apply_on_image rating_one_double_tap clock gui k r false true true u s = Done (Return (u1, s1)) /\ ok s1 /\
    rated (fun _ => r) imgs s s1 /\
    forall j, j ∈ imgs <-> j = k \/ j <> k /\ collapsed gui (group_id p) = true /\ group_of (view := view) s j = Some (group_id p).
Proof.
  intros Hs Hp Hr Hgr Hlk Hdn. destruct clock as [[t1 t2] t3]. unfold dt_ratings_apply_on_image.
  destruct (view_id s k p Hs Hp) as (_ & Hk & _). destruct (Z.gtb_spec k 0); [|lia].
  unfold dt_ratings_get. destruct (read_spec s k p Hs Hp) as (i & s0 & -> & Hs0 & Hi & Hv0). cbn [block_bind c_bind andb].
  rewrite <- Hv0 in Hp. destruct (grouped_images_one gui k s0 p Hs0 Hp) as (gimgs & s' & -> & Hs' & Hv' & Hnd & Hin). cbn [block_bind c_bind].
  destruct (rate_and_undo t1 t2 t3 r (k :: gimgs) u s' DT_UNDO_ALL Hs' Hnd) as (undo & s1 & u1 & -> & Hrec & Hs1 & Hr1 & _); try done.
  { apply Forall_cons. split; [rewrite Hv', Hp; by eexists|]. apply Forall_forall. intros j (_ & _ & Hj)%Hin. rewrite Hv'.
    unfold group_of in Hj. by destruct (view s0 j); [eexists|]. }
  cbn [block_bind c_bind]. rewrite Hrec. exists u1, s1, (k :: gimgs). split; [done|]. split; [done|]. split.
  - intros j. by rewrite Hr1, Hv', Hv0.
  - intros j. rewrite elem_of_cons, Hin. unfold group_of. by rewrite Hv0.
Qed.

End ratings_spec.

Module Example.
Import Tags.Example Images.Example ImageCache.Example Grouping.Example.

#[local] Instance store : ImageStore image_cache := image_cache_store round1 size.

(** Images 7 and 9 get four stars. *)
Lemma ratings_undo_redo_witness :
  exists u1 s1, dt_ratings_apply_on_list false (1, 2, 3) [7; 9] 4 true dt_undo_init grouped = Done (Return (u1, s1)) /\ quiet round1 s1 /\
    rated (view := stored) false (fun _ => 4) [7; 9] grouped s1 /\
    exists u2 s2 synched, dt_undo_do_undo u1 DT_UNDO_LIGHTTABLE (Done (Return s1)) = Done (u2, Done (Return s2), synched) /\
      (forall k, rating_at (view := stored) s2 k = rating_at (view := stored) grouped k) /\
      only_ratings_differ (view := stored) grouped s2 /\ (forall k, k ∈ synched <-> k ∈ [7; 9]) /\
      exists s3 synched', dt_undo_do_redo u2 DT_UNDO_LIGHTTABLE (Done (Return s2)) = Done (u1, Done (Return s3), synched') /\
        forall k, rating_at (view := stored) s3 k = rating_at (view := stored) s1 k.
Proof.
  apply (ratings_undo_redo (ok := quiet round1) (view := stored) false (1, 2, 3) [7; 9] 4 dt_undo_init grouped DT_UNDO_LIGHTTABLE); try done.
  - exact grouped_quiet.
  - apply (bool_decide_unpack _). vm_compute. done.
  - repeat constructor; (eexists; unfold stored; vm_compute; reflexivity).
Defined.

(** One star given to an image with one star and to one with three: the first loses its
    star, the other gets one. *)
Lemma star_toggles_each_image :
  map (fun f => rated_flags false (rating_of_flags f) DT_VIEW_STAR_1 f) [1; 3] = [0; 1].
Proof. reflexivity. Qed.

(** A rejected image with three stars gets two stars, which is undone, and is not rejected
    any more: it has two stars instead of three. *)
Lemma hidden_stars_are_lost :
  let rate r f := rated_flags false (rating_of_flags f) r f in
  let rejected := DT_IMAGE_REJECTED + 3 in
  let undone := rate (rating_of_flags rejected) (rate 2 rejected) in
  rating_of_flags undone = rating_of_flags rejected /\
  rating_of_flags (rate DT_VIEW_REJECT undone) = 2 /\ rating_of_flags (rate DT_VIEW_REJECT rejected) = 3.
Proof. done. Qed.

End Example.
