(* ===== verification/Flip.v ===== *)
(** Orientation of images: dt_imageio_flip_buffers and its neighbours in common/imageio.c,
    the orientation bits of common/image.h, and the module iop/flip.c.

    An orientation is an int of three bits: mirror the columns, mirror the rows, exchange
    both. Buffers are lists of bytes, or of floats, and a copy outside of them is undefined.
    Coordinates and sizes of regions are taken to fit into an int; the floats that scale
    them are those of the code, and a float that does not fit an int is undefined. *)

From Stdlib Require Import Ascii SpecFloat.
From S2P Require Import Prelude Floats Rows Pixelpipe Images.
Local Open Scope Z_scope.

(** ** Orientations *)

Definition ORIENTATION_NONE : Z := 0.
Definition ORIENTATION_FLIP_Y : Z := Z.shiftl 1 0.
Definition ORIENTATION_FLIP_X : Z := Z.shiftl 1 1.
Definition ORIENTATION_FLIP_HORIZONTALLY : Z := ORIENTATION_FLIP_X.
Definition ORIENTATION_FLIP_VERTICALLY : Z := ORIENTATION_FLIP_Y.
Definition ORIENTATION_ROTATE_180_DEG : Z := Z.lor ORIENTATION_FLIP_Y ORIENTATION_FLIP_X.
Definition ORIENTATION_TRANSPOSE : Z := ORIENTATION_SWAP_XY.
Definition ORIENTATION_ROTATE_CCW_90_DEG : Z := Z.lor ORIENTATION_FLIP_X ORIENTATION_SWAP_XY.
Definition ORIENTATION_ROTATE_CW_90_DEG : Z := Z.lor ORIENTATION_FLIP_Y ORIENTATION_SWAP_XY.
Definition ORIENTATION_TRANSVERSE : Z := Z.lor (Z.lor ORIENTATION_FLIP_Y ORIENTATION_FLIP_X) ORIENTATION_SWAP_XY.

(** [orientation & bit] as a condition. *)
Definition has (bit orientation : Z) : bool := negb (Z.land orientation bit =? 0).

Definition dt_image_orientation (img : dt_image_t) : Z :=
  if orientation (exif img) =? ORIENTATION_NULL then ORIENTATION_NONE else orientation (exif img).

Definition dt_image_orientation_to_flip_bits (orient : Z) : Z :=
  match orient with
  | 1 => ORIENTATION_NONE
  | 2 => ORIENTATION_FLIP_HORIZONTALLY
  | 3 => ORIENTATION_ROTATE_180_DEG
  | 4 => ORIENTATION_FLIP_VERTICALLY
  | 5 => ORIENTATION_TRANSPOSE
  | 6 => ORIENTATION_ROTATE_CW_90_DEG
  | 7 => ORIENTATION_TRANSVERSE
  | 8 => ORIENTATION_ROTATE_CCW_90_DEG
  | _ => ORIENTATION_NONE
  end.

(** ** Buffers *)

(** The loop over the rows; [si] and [sj] are the steps of the output for a column and a row
    of the input, of which [n] elements of each pixel are copied. *)
Fixpoint flip_rows {A} (rows wd : nat) (src : list A) (src_off stride pixel : Z) (dst : list A) (dst_off sj si n : Z)
    : c_result (list A) :=
  match rows with
  | O => Done dst
  | S rows =>
      let* dst := copy_rows wd src src_off pixel dst dst_off si n in
      flip_rows rows wd src (src_off + stride) stride pixel dst (dst_off + sj) sj si n
  end.

(** The steps of columns and rows, and where the first pixel goes. *)
Definition flip_steps (orientation fwd fht si sj : Z) : Z * Z * Z :=
  let '(jj, sj) := if has ORIENTATION_FLIP_Y orientation then (fht - 0 - 1, - sj) else (0, sj) in
  let '(ii, si) := if has ORIENTATION_FLIP_X orientation then (fwd - 0 - 1, - si) else (0, si) in
  (si, sj, Z.abs sj * jj + Z.abs si * ii).

(** Steps are computed in size_t and kept in an int. *)
Definition dt_imageio_flip_buffers (out inp : list ascii) (bpp wd ht fwd fht stride orientation : Z) : c_result (list ascii) :=
  if orientation =? 0 then copy_rows (Z.to_nat ht) inp 0 stride out 0 (bpp * wd) (bpp * wd)
  else
    let '(si, sj) := if has ORIENTATION_SWAP_XY orientation then (wrap_s32 (ht * bpp), wrap_s32 bpp)
                     else (wrap_s32 bpp, wrap_s32 (wd * bpp)) in
    let '(si, sj, start) := flip_steps orientation fwd fht si sj in
    flip_rows (Z.to_nat ht) (Z.to_nat wd) inp 0 stride bpp out start sj si bpp.

(** A byte between black and white as a float. *)
Definition scaled (black scale : spec_float) (c : ascii) : spec_float :=
  fmul (fsub (float_of_int (Z.of_nat (nat_of_ascii c))) black) scale.

(** Here the steps are products of ints, [sj * j] among them, whose overflow is undefined.
    A pixel of the output has four floats, of which [ch] are written. *)
Definition dt_imageio_flip_buffers_ui8_to_float (out : list spec_float) (inp : list ascii) (black white : spec_float)
    (ch wd ht fwd fht stride orientation : Z) : c_result (list spec_float) :=
  let scale := fdiv (float_of_int 1) (fsub white black) in
  let values := map (scaled black scale) inp in
  if orientation =? 0 then flip_rows (Z.to_nat ht) (Z.to_nat wd) values 0 stride ch out 0 (4 * wd) 4 ch
  else
    let '(si, sj) := if has ORIENTATION_SWAP_XY orientation then (ht * 4, 4) else (4, wd * 4) in
    if is_s32 (ht * 4) && is_s32 (wd * 4) then
      let '(si, sj, start) := flip_steps orientation fwd fht si sj in
      if (0 <? ht) && negb (is_s32 (sj * (ht - 1))) then Undefined
      else flip_rows (Z.to_nat ht) (Z.to_nat wd) values 0 stride ch out start sj si ch
    else Undefined.

Definition dt_imageio_write_pos (i j wd ht : Z) (fwd fht : spec_float) (orientation : Z) : c_result Z :=
  let '(ii, jj, w, fw, fh) := if has ORIENTATION_SWAP_XY orientation then (j, i, ht, fht, fwd) else (i, j, wd, fwd, fht) in
  let* fw := to_int (float_trunc fw) in
  let* fh := to_int (float_trunc fh) in
  let ii := if has ORIENTATION_FLIP_X orientation then fw - ii - 1 else ii in
  let jj := if has ORIENTATION_FLIP_Y orientation then fh - jj - 1 else jj in
  Done (wrap_u64 (jj * w + ii)).

(** ** The module *)

(** The data of the module, with the sizes of the whole image in front of and behind it. *)
Record flip_piece := Flip_piece {
  d_orientation : Z;
  buf_in : dt_iop_roi_t;
  buf_out : dt_iop_roi_t;
  colors : Z;
}.

Definition get_corner (aabb : Z * Z * Z * Z) (i : Z) : Z * Z :=
  let '(x0, y0, x1, y1) := aabb in
  (if Z.testbit i 0 then x1 else x0, if Z.testbit i 1 then y1 else y0).

Definition adjust_aabb (p : Z * Z) (aabb : Z * Z * Z * Z) : Z * Z * Z * Z :=
  let '(x0, y0, x1, y1) := aabb in
  (Z.min x0 p.1, Z.min y0 p.2, Z.max x1 p.1, Z.max y1 p.2).

Definition merge_two_orientations (raw_orientation user_orientation : Z) : Z :=
  let swap := Z.land user_orientation ORIENTATION_SWAP_XY =? ORIENTATION_SWAP_XY in
  let raw_orientation_corrected :=
    if swap then
      let r := raw_orientation in
      let r := if Z.land raw_orientation ORIENTATION_FLIP_Y =? ORIENTATION_FLIP_Y then Z.lor r ORIENTATION_FLIP_X
               else Z.land r (Z.lnot ORIENTATION_FLIP_X) in
      let r := if Z.land raw_orientation ORIENTATION_FLIP_X =? ORIENTATION_FLIP_X then Z.lor r ORIENTATION_FLIP_Y
               else Z.land r (Z.lnot ORIENTATION_FLIP_Y) in
      if Z.land raw_orientation ORIENTATION_SWAP_XY =? ORIENTATION_SWAP_XY then Z.lor r ORIENTATION_SWAP_XY else r
    else raw_orientation in
  Z.lxor raw_orientation_corrected user_orientation.

Definition backtransform (x : Z * Z) (orientation iw ih : Z) : Z * Z :=
  let '(o0, o1, iw, ih) := if has ORIENTATION_SWAP_XY orientation then (x.2, x.1, ih, iw) else (x.1, x.2, iw, ih) in
  (if has ORIENTATION_FLIP_X orientation then iw - o0 - 1 else o0,
   if has ORIENTATION_FLIP_Y orientation then ih - o1 - 1 else o1).

(** Points are pairs of floats. *)
Definition distort_transform (piece : flip_piece) (points : list (spec_float * spec_float)) : list (spec_float * spec_float) :=
  map (fun '(px, py) =>
    let x := if has ORIENTATION_FLIP_X (d_orientation piece) then fsub (float_of_int (roi_width (buf_in piece))) px else px in
    let y := if has ORIENTATION_FLIP_Y (d_orientation piece) then fsub (float_of_int (roi_height (buf_in piece))) py else py in
    if has ORIENTATION_SWAP_XY (d_orientation piece) then (y, x) else (x, y)) points.

Definition distort_backtransform (piece : flip_piece) (points : list (spec_float * spec_float)) : list (spec_float * spec_float) :=
  map (fun '(px, py) =>
    let '(x, y) := if has ORIENTATION_SWAP_XY (d_orientation piece) then (py, px) else (px, py) in
    (if has ORIENTATION_FLIP_X (d_orientation piece) then fsub (float_of_int (roi_width (buf_in piece))) x else x,
     if has ORIENTATION_FLIP_Y (d_orientation piece) then fsub (float_of_int (roi_height (buf_in piece))) y else y)) points.

Definition distort_mask (piece : flip_piece) (inp out : list ascii) (roi_in : dt_iop_roi_t) : c_result (list ascii) :=
  let bpp := 4 in
  let stride := bpp * roi_width roi_in in
  dt_imageio_flip_buffers out inp bpp (roi_width roi_in) (roi_height roi_in) (roi_width roi_in) (roi_height roi_in)
    stride (d_orientation piece).

Definition modify_roi_out (piece : flip_piece) (roi_in : dt_iop_roi_t) : dt_iop_roi_t :=
  if has ORIENTATION_SWAP_XY (d_orientation piece)
  then Roi (roi_x roi_in) (roi_y roi_in) (roi_height roi_in) (roi_width roi_in) (roi_scale roi_in)
  else roi_in.

(** GLib's CLAMP. *)
Definition CLAMP (x low high : Z) : Z := if high <? x then high else if x <? low then low else x.

Definition INT_MAX : Z := 2 ^ 31 - 1.
Definition INT_MIN : Z := - 2 ^ 31.

Definition modify_roi_in (piece : flip_piece) (roi_out : dt_iop_roi_t) : c_result dt_iop_roi_t :=
  let aabb := (roi_x roi_out, roi_y roi_out, roi_x roi_out + roi_width roi_out - 1, roi_y roi_out + roi_height roi_out - 1) in
  let* iw := to_int (float_trunc (fmul (float_of_int (roi_width (buf_out piece))) (roi_scale roi_out))) in
  let* ih := to_int (float_trunc (fmul (float_of_int (roi_height (buf_out piece))) (roi_scale roi_out))) in
  let '(x0, y0, x1, y1) :=
    foldl (fun aabb_in c => adjust_aabb (backtransform (get_corner aabb c) (d_orientation piece) iw ih) aabb_in)
      (INT_MAX, INT_MAX, INT_MIN, INT_MIN) [0; 1; 2; 3] in
  let w := fmul (float_of_int (roi_width (buf_in piece))) (roi_scale roi_out) in
  let h := fmul (float_of_int (roi_height (buf_in piece))) (roi_scale roi_out) in
  let* floor_w := to_int (float_floor w) in
  let* floor_h := to_int (float_floor h) in
  let* ceil_w := to_int (float_ceil w) in
  let* ceil_h := to_int (float_ceil h) in
  let x := CLAMP x0 0 floor_w in
  let y := CLAMP y0 0 floor_h in
  Done (Roi x y (CLAMP (x1 - x0 + 1) 1 (ceil_w - x)) (CLAMP (y1 - y0 + 1) 1 (ceil_h - y)) (roi_scale roi_out)).

Definition process (piece : flip_piece) (ivoid ovoid : list ascii) (roi_in : dt_iop_roi_t) : c_result (list ascii) :=
  let bpp := 4 * colors piece in
  let stride := bpp * roi_width roi_in in
  dt_imageio_flip_buffers ovoid ivoid bpp (roi_width roi_in) (roi_height roi_in) (roi_width roi_in) (roi_height roi_in)
    stride (d_orientation piece).

(** The orientation of the parameters to that of the data, and whether the module is on. *)
Definition commit_params (orientation : Z) (image_storage : dt_image_t) (enabled : bool) : Z * bool :=
  let d := if orientation =? ORIENTATION_NULL then dt_image_orientation image_storage else orientation in
  (d, if d =? ORIENTATION_NONE then false else enabled).

(** The default orientation and [default_enabled]; [in_history]: there is a row for the module in
    main.history. Without an image the defaults stay. *)
Definition reload_defaults (dev : option dt_image_t) (in_history default_enabled : bool) : Z * bool :=
  match dev with
  | None => (ORIENTATION_NULL, default_enabled)
  | Some image_storage =>
      let flip := user_flip (legacy_flip image_storage) in
      if negb (flip =? 0) && negb (flip =? 255) && negb in_history
      then (merge_two_orientations (dt_image_orientation image_storage) flip, true)
      else (ORIENTATION_NULL, true)
  end.

Definition do_rotate (cw : Z) (orientation : Z) (image_storage : dt_image_t) : Z :=
  let orientation := if orientation =? ORIENTATION_NULL then dt_image_orientation image_storage else orientation in
  let orientation :=
    if cw =? 0 then
      if has ORIENTATION_SWAP_XY orientation then Z.lxor orientation ORIENTATION_FLIP_Y else Z.lxor orientation ORIENTATION_FLIP_X
    else
      if has ORIENTATION_SWAP_XY orientation then Z.lxor orientation ORIENTATION_FLIP_X else Z.lxor orientation ORIENTATION_FLIP_Y in
  Z.lxor orientation ORIENTATION_SWAP_XY.

Definition rotate_cw : Z -> dt_image_t -> Z := do_rotate 1.
Definition rotate_ccw : Z -> dt_image_t -> Z := do_rotate 0.

(** ** Where a pixel goes *)

(** The place of a pixel of an image of [wd] by [ht] pixels: it is mirrored, then the axes
    are exchanged. *)
Definition turned (orientation wd ht : Z) (p : Z * Z) : Z * Z :=
  let x := if has ORIENTATION_FLIP_X orientation then wd - 1 - p.1 else p.1 in
  let y := if has ORIENTATION_FLIP_Y orientation then ht - 1 - p.2 else p.2 in
  if has ORIENTATION_SWAP_XY orientation then (y, x) else (x, y).

(** The size of the turned image. *)
Definition turned_size (orientation wd ht : Z) : Z * Z :=
  if has ORIENTATION_SWAP_XY orientation then (ht, wd) else (wd, ht).

Definition inside (size p : Z * Z) : Prop := 0 <= p.1 < size.1 /\ 0 <= p.2 < size.2.

(** The number of a pixel in a buffer of rows. *)
Definition pixel_number (size p : Z * Z) : Z := p.2 * size.1 + p.1.

Definition is_orientation (o : Z) : Prop := 0 <= o < 8.

(** All cases of the three bits. *)
#[local] Ltac bits o :=
  unfold turned, turned_size, inside, backtransform;
  destruct (has ORIENTATION_SWAP_XY o), (has ORIENTATION_FLIP_X o), (has ORIENTATION_FLIP_Y o); cbn [fst snd].

Lemma turned_inside o wd ht p : inside (wd, ht) p -> inside (turned_size o wd ht) (turned o wd ht p).
Proof. bits o; lia. Qed.

Lemma turned_inj o wd ht p q : turned o wd ht p = turned o wd ht q -> p = q.
Proof. destruct p, q. bits o; intros [= ? ?]; f_equal; lia. Qed.

Lemma turned_back o wd ht p :
  backtransform (turned o wd ht p) o (turned_size o wd ht).1 (turned_size o wd ht).2 = p.
Proof. destruct p. bits o; f_equal; lia. Qed.

Lemma back_turned o wd ht q :
  turned o wd ht (backtransform q o (turned_size o wd ht).1 (turned_size o wd ht).2) = q.
Proof. destruct q. bits o; f_equal; lia. Qed.

Lemma pixel_number_inj size p q : inside size p -> inside size q -> pixel_number size p = pixel_number size q -> p = q.
Proof.
  destruct size as [w h], p as [x y], q as [x' y']. unfold inside, pixel_number. cbn [fst snd]. intros Hp Hq He.
  assert (y = y') as ->; [|f_equal; lia].
  destruct (Z.lt_trichotomy y y') as [Hlt|[|Hlt]]; [|done|].
  - assert ((y + 1) * w <= y' * w) by (apply Z.mul_le_mono_nonneg_r; lia). lia.
  - assert ((y' + 1) * w <= y * w) by (apply Z.mul_le_mono_nonneg_r; lia). lia.
Qed.

Lemma pixel_number_range w h p : inside (w, h) p -> 0 <= pixel_number (w, h) p /\ pixel_number (w, h) p + 1 <= w * h.
Proof.
  destruct p as [x y]. unfold inside, pixel_number. cbn [fst snd]. intros Hp.
  assert (0 <= y * w) by (apply Z.mul_nonneg_nonneg; lia).
  assert ((y + 1) * w <= h * w) by (apply Z.mul_le_mono_nonneg_r; lia). lia.
Qed.

(** The steps lead to it. *)
Lemma steps_place o wd ht unit x y : 0 <= unit -> 0 <= wd -> 0 <= ht ->
  let '(si, sj) := if has ORIENTATION_SWAP_XY o then (ht * unit, unit) else (unit, wd * unit) in
  let '(si, sj, start) := flip_steps o wd ht si sj in
  start + y * sj + x * si = pixel_number (turned_size o wd ht) (turned o wd ht (x, y)) * unit.
Proof.
  intros Hu Hw Hh. unfold flip_steps, pixel_number. bits o; rewrite ?Z.abs_opp, ?Z.abs_eq by (try apply Z.mul_nonneg_nonneg; lia); ring.
Qed.

(** ** Flipping of buffers *)

(** All copies of [flip_rows]. *)
Definition grid (rows wd : nat) (src_off stride pixel dst_off sj si : Z) : list (Z * Z) :=
  seq 0 rows ≫= fun j => row_moves wd (src_off + Z.of_nat j * stride) pixel (dst_off + Z.of_nat j * sj) si.

Lemma flip_rows_moves {A} rows wd (src : list A) src_off stride pixel dst dst_off sj si n :
  flip_rows rows wd src src_off stride pixel dst dst_off sj si n = moves (grid rows wd src_off stride pixel dst_off sj si) n src dst.
Proof.
  revert src_off dst dst_off. induction rows as [|rows IH]; intros src_off dst dst_off; [done|].
  cbn [flip_rows]. unfold grid. cbn [seq mbind list_bind]. rewrite moves_app, copy_rows_moves, !Z.mul_0_l, !Z.add_0_r.
  destruct (moves _ _ _ _) as [dst'|]; [|done]. cbn [c_bind]. rewrite IH. f_equal. unfold grid.
  rewrite <- fmap_S_seq. rewrite (list_fmap_bind S). apply list_bind_ext; [|done]. intros j. cbn. f_equal; lia.
Qed.

Lemma elem_of_grid rows wd src_off stride pixel dst_off sj si m :
  m ∈ grid rows wd src_off stride pixel dst_off sj si <->
  exists x y, 0 <= x < Z.of_nat wd /\ 0 <= y < Z.of_nat rows /\
    m = (src_off + y * stride + x * pixel, dst_off + y * sj + x * si).
Proof.
  unfold grid. rewrite list_elem_of_bind. split.
  - intros (j & (x & Hx & ->)%elem_of_row_moves & [_ Hj]%elem_of_seq). exists x, (Z.of_nat j). split_and!; [lia..|done].
  - intros (x & y & Hx & Hy & ->). exists (Z.to_nat y). split; [|apply elem_of_seq; lia].
    apply elem_of_row_moves. exists x. rewrite Z2Nat.id by lia. done.
Qed.

(** Each pixel of a source with rows of [stride] and pixels of [pixel] elements goes to its place
    in a buffer with pixels of [unit] elements, of which [n] are written. *)
Definition is_flipped {A} (o wd ht stride pixel unit n : Z) (src dst dst' : list A) : Prop :=
  length dst' = length dst /\
  (forall x y c, 0 <= x < wd -> 0 <= y < ht -> 0 <= c < n ->
     byte_at dst' (pixel_number (turned_size o wd ht) (turned o wd ht (x, y)) * unit + c) =
     byte_at src (y * stride + x * pixel + c)) /\
  (forall i c, (wd * ht <= i \/ n <= c) -> 0 <= i -> 0 <= c < unit -> byte_at dst' (i * unit + c) = byte_at dst (i * unit + c)).

(** The buffers are large enough. *)
Definition fits {A} (wd ht stride pixel unit n : Z) (src dst : list A) : Prop :=
  0 < wd /\ 0 < ht /\ 0 <= stride /\ 0 <= pixel /\ 0 < unit /\ 0 <= n <= unit /\
  (ht - 1) * stride + (wd - 1) * pixel + n <= Z.of_nat (length src) /\
  wd * ht * unit <= Z.of_nat (length dst).

Lemma flipped_rows {A} o wd ht stride pixel unit n (src dst : list A) start si sj :
  fits wd ht stride pixel unit n src dst ->
  (forall x y, start + y * sj + x * si = pixel_number (turned_size o wd ht) (turned o wd ht (x, y)) * unit) ->
  exists dst', flip_rows (Z.to_nat ht) (Z.to_nat wd) src 0 stride pixel dst start sj si n = Done dst' /\
    is_flipped o wd ht stride pixel unit n src dst dst'.
Proof.
  intros (Hw & Hh & Hs & Hp & Hu & Hn & Hsrc & Hdst) Hplace. rewrite flip_rows_moves.
  assert (forall x y, 0 <= x < wd -> 0 <= y < ht -> inside (turned_size o wd ht) (turned o wd ht (x, y))) as Hin
    by (intros; by apply turned_inside).
  assert (turned_size o wd ht = (wd, ht) \/ turned_size o wd ht = (ht, wd)) as Hsize by (unfold turned_size; case_match; auto).
  assert (forall x y, 0 <= x < wd -> 0 <= y < ht ->
    0 <= pixel_number (turned_size o wd ht) (turned o wd ht (x, y)) /\
    pixel_number (turned_size o wd ht) (turned o wd ht (x, y)) + 1 <= wd * ht) as Hrange.
  { intros x y Hx Hy. specialize (Hin x y Hx Hy). destruct Hsize as [He|He]; rewrite He in *; apply pixel_number_range in Hin; lia. }
  destruct (moves_spec (grid (Z.to_nat ht) (Z.to_nat wd) 0 stride pixel start sj si) n src dst) as (dst' & -> & Hl & Hto & Hout); [lia|..].
  - intros s d Hm. apply elem_of_grid in Hm as (x & y & Hx & Hy & [= -> ->]). rewrite Z2Nat.id in * by lia.
    rewrite Hplace. destruct (Hrange x y) as [Hr1 Hr2]; [done..|].
    set (q := pixel_number _ _) in *.
    assert (y * stride <= (ht - 1) * stride /\ x * pixel <= (wd - 1) * pixel) as [] by (split; apply Z.mul_le_mono_nonneg_r; lia).
    assert (0 <= y * stride /\ 0 <= x * pixel /\ 0 <= q * unit) as (? & ? & ?) by (split_and!; apply Z.mul_nonneg_nonneg; lia).
    assert ((q + 1) * unit <= wd * ht * unit) by (apply Z.mul_le_mono_nonneg_r; lia). lia.
  - intros m m' Hm Hm'. apply elem_of_grid in Hm as (x & y & Hx & Hy & ->), Hm' as (x' & y' & Hx' & Hy' & ->).
    rewrite Z2Nat.id in * by lia. cbn [snd]. rewrite !Hplace.
    destruct (decide (pixel_number (turned_size o wd ht) (turned o wd ht (x, y)) = pixel_number (turned_size o wd ht) (turned o wd ht (x', y'))))
      as [He|Hne].
    + left. apply pixel_number_inj in He; [|by apply Hin..]. apply turned_inj in He as [= -> ->]. done.
    + right. revert Hne. generalize (pixel_number (turned_size o wd ht) (turned o wd ht (x, y))), (pixel_number (turned_size o wd ht) (turned o wd ht (x', y'))).
      intros a b Hne. destruct (Z.lt_ge_cases a b) as [Hlt|Hge]; [left|right].
      * assert ((a + 1) * unit <= b * unit) by (apply Z.mul_le_mono_nonneg_r; lia). lia.
      * assert ((b + 1) * unit <= a * unit) by (apply Z.mul_le_mono_nonneg_r; lia). lia.
  - exists dst'. split; [done|]. split; [done|]. split.
    + intros x y c Hx Hy Hc. rewrite <- Hplace. apply Hto; [|done]. apply elem_of_grid. exists x, y. rewrite !Z2Nat.id by lia. done.
    + intros i c Hic Hi Hc. assert (0 <= i * unit) by (apply Z.mul_nonneg_nonneg; lia). apply Hout; [lia|].
      intros s d Hm. apply elem_of_grid in Hm as (x & y & Hx & Hy & [= -> ->]). rewrite Z2Nat.id in * by lia. rewrite Hplace.
      destruct (Hrange x y) as [Hr1 Hr2]; [done..|]. set (q := pixel_number _ _) in *.
      destruct (Z.lt_trichotomy i q) as [Hlt|[->|Hlt]].
      * assert ((i + 1) * unit <= q * unit) by (apply Z.mul_le_mono_nonneg_r; lia). lia.
      * lia.
      * assert ((q + 1) * unit <= i * unit) by (apply Z.mul_le_mono_nonneg_r; lia). lia.
Qed.

Lemma fits_moved {A} wd ht stride pixel unit n (src dst : list A) o :
  fits wd ht stride pixel unit n src dst ->
  let '(si, sj) := if has ORIENTATION_SWAP_XY o then (ht * unit, unit) else (unit, wd * unit) in
  let '(si, sj, start) := flip_steps o wd ht si sj in
  exists dst', flip_rows (Z.to_nat ht) (Z.to_nat wd) src 0 stride pixel dst start sj si n = Done dst' /\
    is_flipped o wd ht stride pixel unit n src dst dst'.
Proof.
  intros Hfit. pose proof Hfit as (Hw & Hh & _ & _ & Hu & _).
  pose proof (fun x y => steps_place o wd ht unit x y ltac:(lia) ltac:(lia) ltac:(lia)) as Hplace.
  destruct (if has ORIENTATION_SWAP_XY o then _ else _) as [si0 sj0].
  destruct (flip_steps o wd ht si0 sj0) as [[si sj] start]. by apply flipped_rows.
Qed.

(** Nothing is turned without a bit. *)
Lemma flip_steps_none wd ht si sj : flip_steps 0 wd ht si sj = (si, sj, 0).
Proof. unfold flip_steps. cbn. f_equal. lia. Qed.

(** A flip with the sizes of the buffer itself puts each pixel to its place, and
    nothing else is written. *)
Theorem flip_buffers_turn o wd ht stride bpp (inp out : list ascii)
    (Hfit : fits wd ht stride bpp bpp bpp inp out) (Hwd : wd * bpp < 2 ^ 31) (Hht : ht * bpp < 2 ^ 31) :
  exists out', dt_imageio_flip_buffers out inp bpp wd ht wd ht stride o = Done out' /\
    is_flipped o wd ht stride bpp bpp bpp inp out out'.
Proof.
  pose proof Hfit as (Hw & Hh & Hs & _ & Hb & _ & Hsrc & Hdst).
  assert (0 < wd * bpp /\ 0 < ht * bpp /\ 1 * bpp <= wd * bpp) as (? & ? & ?)
    by (split_and!; [apply Z.mul_pos_pos; lia..|apply Z.mul_le_mono_nonneg_r; lia]).
  unfold dt_imageio_flip_buffers. destruct (Z.eqb_spec o 0) as [->|_].
  - destruct (copy_rows_spec (Z.to_nat ht) inp 0 stride out 0 (bpp * wd) (bpp * wd)) as (out' & Hc & Hl & Hto & Hout);
      rewrite ?Z2Nat.id in * by lia; try lia.
    exists out'. split; [done|]. split; [done|]. split.
    + intros x y c Hx Hy Hcc. change (pixel_number (turned_size 0 wd ht) (turned 0 wd ht (x, y))) with (y * wd + x).
      assert (0 <= x * bpp) by (apply Z.mul_nonneg_nonneg; lia).
      assert ((x + 1) * bpp <= wd * bpp) by (apply Z.mul_le_mono_nonneg_r; lia).
      specialize (Hto y (x * bpp + c) ltac:(lia) ltac:(lia)). replace (0 + y * (bpp * wd) + (x * bpp + c)) with (y * (bpp * wd) + (x * bpp + c)) in Hto by lia.
      replace ((y * wd + x) * bpp + c) with (y * (bpp * wd) + (x * bpp + c)) by ring. rewrite Hto. f_equal. ring.
    + intros i c Hic Hi Hcc. assert (0 <= i * bpp) by (apply Z.mul_nonneg_nonneg; lia). apply Hout; [lia|].
      intros j Hj. right. assert (wd * ht * bpp <= i * bpp) by (apply Z.mul_le_mono_nonneg_r; lia).
      assert ((j + 1) * (bpp * wd) <= ht * (bpp * wd)) by (apply Z.mul_le_mono_nonneg_r; lia). lia.
  - rewrite !wrap_s32_id by lia. pose proof (fits_moved wd ht stride bpp bpp bpp inp out o Hfit) as Hmoved.
    destruct (if has ORIENTATION_SWAP_XY o then _ else _) as [si0 sj0].
    by destruct (flip_steps o wd ht si0 sj0) as [[si sj] start].
Qed.

(** The same for the conversion to floats; a pixel has [ch] of the four floats. *)
Theorem flip_to_float_turn o wd ht stride ch black white (inp : list ascii) (out : list spec_float)
    (Hfit : fits wd ht stride ch 4 ch (map (scaled black (fdiv (float_of_int 1) (fsub white black))) inp) out)
    (Hsize : wd * ht * 4 < 2 ^ 31) :
  exists out', dt_imageio_flip_buffers_ui8_to_float out inp black white ch wd ht wd ht stride o = Done out' /\
    is_flipped o wd ht stride ch 4 ch (map (scaled black (fdiv (float_of_int 1) (fsub white black))) inp) out out'.
Proof.
  pose proof Hfit as (Hw & Hh & _). pose proof (fits_moved _ _ _ _ _ _ _ _ o Hfit) as Hmoved.
  assert (1 * wd <= ht * wd /\ 1 * ht <= wd * ht /\ 0 <= (ht - 1) * (wd * 4)) as (? & ? & ?)
    by (split_and!; [apply Z.mul_le_mono_nonneg_r; lia..|apply Z.mul_nonneg_nonneg; lia]).
  unfold dt_imageio_flip_buffers_ui8_to_float. cbv zeta. destruct (Z.eqb_spec o 0) as [->|_].
  - change (has ORIENTATION_SWAP_XY 0) with false in Hmoved. cbv beta iota in Hmoved. rewrite flip_steps_none in Hmoved.
    by rewrite (Z.mul_comm 4 wd).
  - assert (is_s32 (ht * 4) = true) as Ht by (unfold is_s32; rewrite andb_true_iff, Z.leb_le, Z.ltb_lt; lia).
    assert (is_s32 (wd * 4) = true) as Hwt by (unfold is_s32; rewrite andb_true_iff, Z.leb_le, Z.ltb_lt; lia).
    rewrite Ht, Hwt. cbn [andb].
    assert (forall si sj start, (let '(si0, sj0) := if has ORIENTATION_SWAP_XY o then (ht * 4, 4) else (4, wd * 4) in
              flip_steps o wd ht si0 sj0) = (si, sj, start) -> is_s32 (sj * (ht - 1)) = true) as Hj.
    { intros si sj start. unfold flip_steps. destruct (has ORIENTATION_SWAP_XY o), (has ORIENTATION_FLIP_Y o), (has ORIENTATION_FLIP_X o);
        intros [= <- <- <-]; unfold is_s32; rewrite andb_true_iff, Z.leb_le, Z.ltb_lt; lia. }
    destruct (if has ORIENTATION_SWAP_XY o then _ else _) as [si0 sj0].
    destruct (flip_steps o wd ht si0 sj0) as [[si sj] start]. rewrite (Hj _ _ _ eq_refl), andb_false_r. done.
Qed.

(** A byte-to-float flip of more than 2^31 floats has a product [sj * j] that overflows. *)
Lemma large_to_float_undefined out inp black white ch stride :
  dt_imageio_flip_buffers_ui8_to_float out inp black white ch 32768 32768 32768 32768 stride ORIENTATION_FLIP_X = Undefined.
Proof. reflexivity. Qed.

(** ** Regions *)

(** The corner of the region of the input that becomes the region at [p] of [size]. *)
Definition region_start (o iw ih : Z) (p size : Z * Z) : Z * Z :=
  let '(x, y, w, h) := if has ORIENTATION_SWAP_XY o then (p.2, p.1, size.2, size.1) else (p.1, p.2, size.1, size.2) in
  (if has ORIENTATION_FLIP_X o then iw - x - w else x, if has ORIENTATION_FLIP_Y o then ih - y - h else y).

Lemma min_of_four (m a b c d l : Z) :
  l <= m -> l <= a -> l <= b -> l <= c -> l <= d -> a = l \/ b = l \/ c = l \/ d = l -> Z.min (Z.min (Z.min (Z.min m a) b) c) d = l.
Proof. lia. Qed.

Lemma max_of_four (m a b c d u : Z) :
  m <= u -> a <= u -> b <= u -> c <= u -> d <= u -> a = u \/ b = u \/ c = u \/ d = u -> Z.max (Z.max (Z.max (Z.max m a) b) c) d = u.
Proof. lia. Qed.

Lemma corners_box o iw ih x y w h :
  0 <= x -> 0 <= y -> 0 < w -> 0 < h -> iw < 2 ^ 31 -> ih < 2 ^ 31 ->
  x + w <= (turned_size o iw ih).1 -> y + h <= (turned_size o iw ih).2 ->
  let a := region_start o iw ih (x, y) (w, h) in
  let s := turned_size o w h in
  foldl (fun aabb_in c => adjust_aabb (backtransform (get_corner (x, y, x + w - 1, y + h - 1) c) o
                                         (turned_size o iw ih).1 (turned_size o iw ih).2) aabb_in)
      (INT_MAX, INT_MAX, INT_MIN, INT_MIN) [0; 1; 2; 3] = (a.1, a.2, a.1 + s.1 - 1, a.2 + s.2 - 1) /\
  0 <= a.1 /\ a.1 + s.1 <= iw /\ 0 <= a.2 /\ a.2 + s.2 <= ih /\
  forall p, turned o iw ih (a.1 + p.1, a.2 + p.2) = (x + (turned o s.1 s.2 p).1, y + (turned o s.1 s.2 p).2).
Proof.
  intros Hx Hy Hw Hh Hiw Hih. unfold region_start, adjust_aabb, get_corner, INT_MAX, INT_MIN. cbn [foldl].
  change (Z.testbit 0 0) with false; change (Z.testbit 0 1) with false; change (Z.testbit 1 0) with true;
  change (Z.testbit 1 1) with false; change (Z.testbit 2 0) with false; change (Z.testbit 2 1) with true;
  change (Z.testbit 3 0) with true; change (Z.testbit 3 1) with true.
  bits o; intros Hxw Hyh; (split_and!; [|lia..|intros p; f_equal; lia]);
    repeat f_equal; (apply min_of_four || apply max_of_four); lia.
Qed.

Lemma trunc_is_floor f : nonneg f -> float_trunc f = float_floor f.
Proof. destruct f as [| | |s m e]; cbn; try done. intros ->. by destruct (e <? 0). Qed.

Lemma floor_le_ceil f z : float_floor f = Some z -> exists z', float_ceil f = Some z' /\ z <= z' <= z + 1.
Proof.
  destruct f as [| | |s m e]; cbn; intros [= <-]; [by exists 0|]. eexists. split; [done|].
  destruct (Z.ltb_spec e 0) as [He|]; [|lia]. generalize (if s then Zneg m else Zpos m). intros a.
  assert (0 < 2 ^ (- e)) as Hb by (apply Z.pow_pos_nonneg; lia). revert Hb. generalize (2 ^ (- e)). intros b Hb.
  pose proof (Z.div_mod a b ltac:(lia)). pose proof (Z.mod_pos_bound a b Hb).
  pose proof (Z.div_mod (- a) b ltac:(lia)). pose proof (Z.mod_pos_bound (- a) b Hb).
  assert (b * (a / b + - a / b) = - (a mod b + - a mod b)) as Hsum by lia.
  assert (a / b + - a / b < 1) by (apply (Z.mul_lt_mono_pos_l b); lia).
  assert (-2 < a / b + - a / b) by (apply (Z.mul_lt_mono_pos_l b); lia). lia.
Qed.

Lemma to_int_Done f z : to_int f = Done z -> f = Some z /\ - 2 ^ 31 <= z < 2 ^ 31.
Proof.
  unfold to_int, is_s32. destruct f as [y|]; [|done].
  destruct (Z.leb_spec (- 2 ^ 31) y), (Z.ltb_spec y (2 ^ 31)); cbn [andb]; intros [= <-]. split; [done|lia].
Qed.

Lemma to_int_Some z : - 2 ^ 31 <= z < 2 ^ 31 -> to_int (Some z) = Done z.
Proof. intros Hz. unfold to_int, is_s32. by rewrite (proj2 (Z.leb_le _ _)), (proj2 (Z.ltb_lt _ _)) by lia. Qed.

(** The size of the image at a scale, when it is in range. *)
Definition scaled_size (size : Z) (scale : spec_float) (n : Z) : Prop :=
  to_int (float_trunc (fmul (float_of_int size) scale)) = Done n /\ n < 2 ^ 31 - 1.

Lemma scaled_size_spec size scale n : 0 <= size -> nonneg scale -> scaled_size size scale n ->
  to_int (float_floor (fmul (float_of_int size) scale)) = Done n /\
  exists c, to_int (float_ceil (fmul (float_of_int size) scale)) = Done c /\ n <= c.
Proof.
  intros Hs Hsc [Hn Hlt]. assert (nonneg (fmul (float_of_int size) scale)) as Hnn by auto with nonneg.
  rewrite trunc_is_floor in Hn by done. split; [done|]. apply to_int_Done in Hn as [Hf Hr].
  destruct (floor_le_ceil _ _ Hf) as (c & -> & Hc). exists c. split; [apply to_int_Some; lia|lia].
Qed.

(** The sizes behind the module are those that it announces. *)
Definition wf_piece (piece : flip_piece) : Prop :=
  0 <= roi_width (buf_in piece) /\ 0 <= roi_height (buf_in piece) /\ buf_out piece = modify_roi_out piece (buf_in piece).

Lemma CLAMP_id x low high : low <= x <= high -> CLAMP x low high = x.
Proof. intros Hx. unfold CLAMP. by rewrite !(proj2 (Z.ltb_ge _ _)) by lia. Qed.

(** The region asked for is the one that becomes the wanted region, at every scale. *)
Lemma modify_roi_in_spec piece roi_out iw ih :
  wf_piece piece -> nonneg (roi_scale roi_out) ->
  scaled_size (roi_width (buf_in piece)) (roi_scale roi_out) iw -> scaled_size (roi_height (buf_in piece)) (roi_scale roi_out) ih ->
  0 <= roi_x roi_out -> 0 <= roi_y roi_out -> 0 < roi_width roi_out -> 0 < roi_height roi_out ->
  roi_x roi_out + roi_width roi_out <= (turned_size (d_orientation piece) iw ih).1 ->
  roi_y roi_out + roi_height roi_out <= (turned_size (d_orientation piece) iw ih).2 ->
  let a := region_start (d_orientation piece) iw ih (roi_x roi_out, roi_y roi_out) (roi_width roi_out, roi_height roi_out) in
  let s := turned_size (d_orientation piece) (roi_width roi_out) (roi_height roi_out) in
  modify_roi_in piece roi_out = Done (Roi a.1 a.2 s.1 s.2 (roi_scale roi_out)).
Proof.
  intros (Hw0 & Hh0 & Hout) Hnn Hiw Hih Hx Hy Hw Hh Hxw Hyh a s.
  pose proof (scaled_size_spec _ _ _ Hw0 Hnn Hiw) as (Hfw & cw & Hcw & Hlw).
  pose proof (scaled_size_spec _ _ _ Hh0 Hnn Hih) as (Hfh & ch & Hch & Hlh).
  destruct Hiw as [Hiw Hiw'], Hih as [Hih Hih'].
  destruct (corners_box (d_orientation piece) iw ih (roi_x roi_out) (roi_y roi_out) (roi_width roi_out) (roi_height roi_out))
    as (Hbox & Ha1 & Ha2 & Ha3 & Ha4 & _); [lia..|done|done|]. fold a s in Hbox, Ha1, Ha2, Ha3, Ha4.
  assert (0 < s.1 /\ 0 < s.2) as [Hs1 Hs2] by (unfold s, turned_size; case_match; cbn; lia).
  unfold modify_roi_in. cbv zeta. rewrite Hout. unfold modify_roi_out.
  assert (forall A (f : Z -> Z -> c_result A),
    (let* n := to_int (float_trunc (fmul (float_of_int (roi_width (if has ORIENTATION_SWAP_XY (d_orientation piece)
        then Roi (roi_x (buf_in piece)) (roi_y (buf_in piece)) (roi_height (buf_in piece)) (roi_width (buf_in piece)) (roi_scale (buf_in piece))
        else buf_in piece))) (roi_scale roi_out))) in
     let* m := to_int (float_trunc (fmul (float_of_int (roi_height (if has ORIENTATION_SWAP_XY (d_orientation piece)
        then Roi (roi_x (buf_in piece)) (roi_y (buf_in piece)) (roi_height (buf_in piece)) (roi_width (buf_in piece)) (roi_scale (buf_in piece))
        else buf_in piece))) (roi_scale roi_out))) in f n m) =
    f (turned_size (d_orientation piece) iw ih).1 (turned_size (d_orientation piece) iw ih).2) as ->.
  { intros A f. unfold turned_size. destruct (has ORIENTATION_SWAP_XY (d_orientation piece)); cbn [roi_width roi_height fst snd];
      rewrite Hiw, Hih; done. }
  rewrite Hbox, Hfw, Hfh, Hcw, Hch. cbn [c_bind]. rewrite (CLAMP_id a.1), (CLAMP_id a.2) by lia.
  f_equal. f_equal; rewrite CLAMP_id by lia; lia.
Qed.

(** [part] is the region of an image of [width] pixels a row. *)
Definition is_region (bpp width : Z) (buf : list ascii) (roi : dt_iop_roi_t) (part : list ascii) : Prop :=
  Z.of_nat (length part) = roi_width roi * roi_height roi * bpp /\
  forall i j c, 0 <= i < roi_width roi -> 0 <= j < roi_height roi -> 0 <= c < bpp ->
    byte_at part ((j * roi_width roi + i) * bpp + c) = byte_at buf (((roi_y roi + j) * width + (roi_x roi + i)) * bpp + c).

Lemma fits_image wd ht bpp (inp out : list ascii) :
  0 < wd -> 0 < ht -> 0 < bpp -> Z.of_nat (length inp) = wd * ht * bpp -> Z.of_nat (length out) = wd * ht * bpp ->
  fits wd ht (bpp * wd) bpp bpp bpp inp out.
Proof.
  intros Hw Hh Hb Hi Ho. unfold fits. rewrite Hi, Ho.
  assert (0 <= bpp * wd) by (apply Z.mul_nonneg_nonneg; lia). split_and!; lia.
Qed.

Lemma process_spec piece inp out roi :
  0 < roi_width roi -> 0 < roi_height roi -> 0 < colors piece ->
  roi_width roi * (4 * colors piece) < 2 ^ 31 -> roi_height roi * (4 * colors piece) < 2 ^ 31 ->
  Z.of_nat (length inp) = roi_width roi * roi_height roi * (4 * colors piece) ->
  Z.of_nat (length out) = roi_width roi * roi_height roi * (4 * colors piece) ->
  exists res, process piece inp out roi = Done res /\
    is_flipped (d_orientation piece) (roi_width roi) (roi_height roi) (4 * colors piece * roi_width roi)
      (4 * colors piece) (4 * colors piece) (4 * colors piece) inp out res.
Proof. intros. apply flip_buffers_turn; [apply fits_image|..]; lia. Qed.

(** A pixel of the turned image comes from one of the image. *)
Lemma turned_from o wd ht q : inside (turned_size o wd ht) q -> exists p, inside (wd, ht) p /\ turned o wd ht p = q.
Proof.
  intros Hq. exists (backtransform q o (turned_size o wd ht).1 (turned_size o wd ht).2). split; [|apply back_turned].
  revert Hq. bits o; lia.
Qed.

Lemma turned_size_back o wd ht : turned_size o (turned_size o wd ht).1 (turned_size o wd ht).2 = (wd, ht).
Proof. by bits o. Qed.

(** C33: flipping the region that [modify_roi_in] asks for gives the wanted region of the
    flipped image, at every scale. *)
Theorem flip_region piece roi_out iw ih inp out
    (Hpiece : wf_piece piece) (Hscale : nonneg (roi_scale roi_out)) (Hcolors : 0 < colors piece)
    (Hiw : scaled_size (roi_width (buf_in piece)) (roi_scale roi_out) iw)
    (Hih : scaled_size (roi_height (buf_in piece)) (roi_scale roi_out) ih)
    (Hx : 0 <= roi_x roi_out) (Hy : 0 <= roi_y roi_out) (Hw : 0 < roi_width roi_out) (Hh : 0 < roi_height roi_out)
    (Hxw : roi_x roi_out + roi_width roi_out <= (turned_size (d_orientation piece) iw ih).1)
    (Hyh : roi_y roi_out + roi_height roi_out <= (turned_size (d_orientation piece) iw ih).2)
    (Hwb : iw * (4 * colors piece) < 2 ^ 31) (Hhb : ih * (4 * colors piece) < 2 ^ 31)
    (Hinp : Z.of_nat (length inp) = iw * ih * (4 * colors piece)) (Hout : length out = length inp) :
  exists whole roi_in,
    process piece inp out (Roi 0 0 iw ih (roi_scale roi_out)) = Done whole /\
    modify_roi_in piece roi_out = Done roi_in /\
    0 <= roi_x roi_in /\ roi_x roi_in + roi_width roi_in <= iw /\
    0 <= roi_y roi_in /\ roi_y roi_in + roi_height roi_in <= ih /\
    forall part ovoid, is_region (4 * colors piece) iw inp roi_in part -> length ovoid = length part ->
      exists res, process piece part ovoid roi_in = Done res /\
        is_region (4 * colors piece) (turned_size (d_orientation piece) iw ih).1 whole roi_out res.
Proof.
  set (o := d_orientation piece) in *. set (bpp := 4 * colors piece) in *.
  destruct (corners_box o iw ih (roi_x roi_out) (roi_y roi_out) (roi_width roi_out) (roi_height roi_out))
    as (_ & Ha1 & Ha2 & Ha3 & Ha4 & Hturn); [done..|destruct Hiw; lia|destruct Hih; lia|done|done|].
  pose proof (modify_roi_in_spec piece roi_out iw ih Hpiece Hscale Hiw Hih Hx Hy Hw Hh Hxw Hyh) as Hroi. fold o in Hroi. cbv zeta in Hroi.
  set (a := region_start _ _ _ _ _) in *.
  destruct (turned_size o (roi_width roi_out) (roi_height roi_out)) as [sw sh] eqn:Es. cbn [fst snd] in *.
  assert ((sw = roi_width roi_out /\ sh = roi_height roi_out \/ sw = roi_height roi_out /\ sh = roi_width roi_out)) as Hs
    by (revert Es; unfold turned_size; case_match; intros [= <- <-]; auto).
  assert (sw * bpp <= iw * bpp /\ sh * bpp <= ih * bpp) as [] by (split; apply Z.mul_le_mono_nonneg_r; lia).
  destruct (process_spec piece inp out (Roi 0 0 iw ih (roi_scale roi_out))) as (whole & Hwhole & Hwl & Hwf & _);
    cbn [roi_width roi_height]; [lia..|].
  eexists whole, _. split; [done|]. split; [exact Hroi|]. cbn [roi_x roi_y roi_width roi_height]. do 4 (split; [done|]).
  intros part ovoid [Hpl Hpart] Hol. cbn [roi_x roi_y roi_width roi_height] in *.
  destruct (process_spec piece part ovoid (Roi a.1 a.2 sw sh (roi_scale roi_out))) as (res & Hres & Hrl & Hrf & _);
    cbn [roi_width roi_height]; [lia..|]. cbn [roi_width roi_height] in *. fold o bpp in Hwf, Hrf.
  exists res. split; [done|]. split; [rewrite Hrl, Hol, Hpl; destruct Hs as [[-> ->]|[-> ->]]; lia|].
  pose proof (turned_size_back o (roi_width roi_out) (roi_height roi_out)) as Hback. rewrite Es in Hback. cbn [fst snd] in Hback.
  intros i j c Hi Hj Hc. destruct (turned_from o sw sh (i, j)) as ([x y] & [Hpx Hpy] & Hp); [by rewrite Hback|].
  cbn [fst snd] in Hpx, Hpy. specialize (Hrf x y c ltac:(done) ltac:(done) ltac:(lia)).
  rewrite Hback, Hp in Hrf. unfold pixel_number in Hrf. cbn [fst snd] in Hrf. rewrite Hrf.
  specialize (Hpart x y c ltac:(done) ltac:(done) ltac:(lia)).
  replace (y * (bpp * sw) + x * bpp + c) with ((y * sw + x) * bpp + c) by ring. rewrite Hpart.
  specialize (Hwf (a.1 + x) (a.2 + y) c ltac:(lia) ltac:(lia) ltac:(lia)).
  pose proof (Hturn (x, y)) as Ht. cbn [fst snd] in Ht. rewrite Ht, Hp in Hwf. unfold pixel_number in Hwf. cbn [fst snd] in Hwf.
  rewrite Hwf. f_equal. ring.
Qed.

(** ** Orientations: composition *)

Lemma orientation_cases o (P : Z -> Prop) : is_orientation o ->
  P 0 -> P 1 -> P 2 -> P 3 -> P 4 -> P 5 -> P 6 -> P 7 -> P o.
Proof.
  intros Ho. assert (o = 0 \/ o = 1 \/ o = 2 \/ o = 3 \/ o = 4 \/ o = 5 \/ o = 6 \/ o = 7) as Hcases
    by (unfold is_orientation in Ho; lia).
  by repeat destruct Hcases as [-> | Hcases]; [..|rewrite Hcases].
Qed.

(** A quarter turn of an image of [wd] by [ht] pixels. *)
Definition quarter_cw (wd ht : Z) (p : Z * Z) : Z * Z := (ht - 1 - p.2, p.1).
Definition quarter_ccw (wd ht : Z) (p : Z * Z) : Z * Z := (p.2, wd - 1 - p.1).

(** The sides of the scene at which the first row and the first column of the stored
    image are, as the EXIF standard defines the values of its orientation tag. *)
Inductive side := Top | Bottom | Left | Right.

Definition exif_sides (orient : Z) : option (side * side) :=
  match orient with
  | 1 => Some (Top, Left)
  | 2 => Some (Top, Right)
  | 3 => Some (Bottom, Right)
  | 4 => Some (Bottom, Left)
  | 5 => Some (Left, Top)
  | 6 => Some (Right, Top)
  | 7 => Some (Right, Bottom)
  | 8 => Some (Left, Bottom)
  | _ => None
  end.

(** [q] is as far from the side of a scene of [wd] by [ht] pixels as [n]. *)
Definition distance (s : side) (wd ht n : Z) (q : Z * Z) : Prop :=
  match s with
  | Top => q.2 = n
  | Bottom => q.2 = ht - 1 - n
  | Left => q.1 = n
  | Right => q.1 = wd - 1 - n
  end.

(** What is left to compute when an orientation is known. *)
#[local] Ltac compute_turned :=
  unfold turned, turned_size, quarter_cw, quarter_ccw, distance;
  repeat match goal with |- context [has ?b ?o] => let v := eval vm_compute in (has b o) in change (has b o) with v end;
  cbn [fst snd Z.eqb Pos.eqb]; cbv beta iota; cbn [fst snd].

(** The module turns by the user's flip first and by the orientation of the camera then. *)
Theorem merged_orientation raw user wd ht p (Hraw : is_orientation raw) (Huser : is_orientation user) :
  turned (merge_two_orientations raw user) wd ht p =
    (let (w, h) := turned_size user wd ht in turned raw w h (turned user wd ht p)) /\
  is_orientation (merge_two_orientations raw user).
Proof.
  destruct p as [x y].
  pattern raw. apply (orientation_cases raw); [done|..]; pattern user; apply (orientation_cases user); try done;
    (split; [compute_turned; f_equal; lia|done]).
Qed.

Lemma rotated_by_quarter cw o img wd ht p : cw = 0 \/ cw = 1 ->
  o = ORIENTATION_NULL \/ is_orientation o -> is_orientation (dt_image_orientation img) ->
  let shown := if o =? ORIENTATION_NULL then dt_image_orientation img else o in
  let (w, h) := turned_size shown wd ht in
  turned (do_rotate cw o img) wd ht p = (if cw =? 1 then quarter_cw else quarter_ccw) w h (turned shown wd ht p) /\
  is_orientation (do_rotate cw o img).
Proof.
  intros Hcw Ho Himg.
  unfold do_rotate. set (shown := if o =? ORIENTATION_NULL then _ else o).
  assert (is_orientation shown) as Hs.
  { unfold shown. destruct (Z.eqb_spec o ORIENTATION_NULL); [done|]. by destruct Ho. }
  clearbody shown. destruct p as [x y].
  destruct Hcw as [-> | ->]; pattern shown; apply (orientation_cases shown); try done; (split; [compute_turned; f_equal; lia|done]).
Qed.

(** The buttons turn the image that is shown by a quarter. *)
Theorem rotate_quarter cw o img wd ht p (Hcw : cw = 0 \/ cw = 1)
    (Ho : o = ORIENTATION_NULL \/ is_orientation o) (Himg : is_orientation (dt_image_orientation img)) :
  let shown := if o =? ORIENTATION_NULL then dt_image_orientation img else o in
  let (w, h) := turned_size shown wd ht in
  turned (do_rotate cw o img) wd ht p = (if cw =? 1 then quarter_cw else quarter_ccw) w h (turned shown wd ht p) /\
  is_orientation (do_rotate cw o img).
Proof. by apply rotated_by_quarter. Qed.

(** The orientation of a file puts its rows and columns upright. *)
Theorem exif_upright orient row column wd ht p (Hsides : exif_sides orient = Some (row, column)) :
  let o := dt_image_orientation_to_flip_bits orient in
  is_orientation o /\
  let (w, h) := turned_size o wd ht in
  distance row w h p.2 (turned o wd ht p) /\ distance column w h p.1 (turned o wd ht p).
Proof.
  assert (1 <= orient <= 8) as Hr by (revert Hsides; unfold exif_sides; repeat case_match; try done; lia).
  assert (exists k, 0 <= k < 8 /\ orient = 1 + k) as (k & Hk & ->) by (exists (orient - 1); lia).
  revert Hsides. apply (orientation_cases k); [done|..]; intros [= <- <-]; destruct p; (split; [done|]); (compute_turned; lia).
Qed.

(** Other values leave the image as it is. *)
Lemma exif_unknown orient : exif_sides orient = None -> dt_image_orientation_to_flip_bits orient = ORIENTATION_NONE.
Proof. unfold exif_sides, dt_image_orientation_to_flip_bits. repeat case_match; try done. Qed.

(** ** Points *)

Definition int_point (p : Z * Z) : spec_float * spec_float := (float_of_int p.1, float_of_int p.2).

(** Points at corners of pixels are turned as an image with one more column and row
    would be, without rounding, and turned back. *)
Theorem points_turn piece ps
    (Hw : 0 <= roi_width (buf_in piece) < 2 ^ 24) (Hh : 0 <= roi_height (buf_in piece) < 2 ^ 24)
    (Hps : Forall (inside (roi_width (buf_in piece) + 1, roi_height (buf_in piece) + 1)) ps) :
  distort_transform piece (map int_point ps) =
    map (fun p => int_point (turned (d_orientation piece) (roi_width (buf_in piece) + 1) (roi_height (buf_in piece) + 1) p)) ps /\
  distort_backtransform piece (distort_transform piece (map int_point ps)) = map int_point ps.
Proof.
  assert (distort_transform piece (map int_point ps) =
    map (fun p => int_point (turned (d_orientation piece) (roi_width (buf_in piece) + 1) (roi_height (buf_in piece) + 1) p)) ps) as He.
  { unfold distort_transform. rewrite map_map. apply map_ext_in. intros [x y] Hp%list_elem_of_In.
    rewrite Forall_forall in Hps. destruct (Hps _ Hp) as [Hpx Hpy]. cbn [fst snd] in Hpx, Hpy. unfold int_point. cbn [fst snd].
    rewrite !sub_int by lia. bits (d_orientation piece); f_equal; f_equal; lia. }
  split; [done|]. rewrite He. unfold distort_backtransform. rewrite map_map. apply map_ext_in. intros [x y] Hp%list_elem_of_In.
  rewrite Forall_forall in Hps. destruct (Hps _ Hp) as [Hpx Hpy]. cbn [fst snd] in Hpx, Hpy. unfold int_point.
  bits (d_orientation piece); rewrite ?sub_int by lia; f_equal; f_equal; lia.
Qed.

Module Example.

Definition bytes (n : nat) : list ascii := map ascii_of_nat (seq 0 n).
Definition blank (n : nat) : list ascii := replicate n "255"%char.

(** Two rows of three pixels turned clockwise. *)
Example turned_clockwise :
  dt_imageio_flip_buffers (blank 6) (bytes 6) 1 3 2 3 2 3 ORIENTATION_ROTATE_CW_90_DEG =
  Done (map ascii_of_nat [3; 0; 4; 1; 5; 2]%nat).
Proof. reflexivity. Qed.

(** dt_imageio_write_pos mirrors after it has exchanged the axes: it agrees with
    the flip of buffers but for quarter turns. *)
Example write_pos_differs :
  dt_imageio_write_pos 0 0 3 2 (float_of_int 3) (float_of_int 2) ORIENTATION_ROTATE_CW_90_DEG = Done 4 /\
  pixel_number (turned_size ORIENTATION_ROTATE_CW_90_DEG 3 2) (turned ORIENTATION_ROTATE_CW_90_DEG 3 2 (0, 0)) = 1.
Proof. split; reflexivity. Qed.

Lemma flip_buffers_turn_witness :
  exists out', dt_imageio_flip_buffers (blank 13) (bytes 14) 2 3 2 3 2 8 ORIENTATION_TRANSVERSE = Done out' /\
    is_flipped ORIENTATION_TRANSVERSE 3 2 8 2 2 2 (bytes 14) (blank 13) out'.
Proof. apply (flip_buffers_turn ORIENTATION_TRANSVERSE 3 2 8 2); [split_and!; vm_compute; done|done|done]. Defined.

Lemma flip_to_float_turn_witness :
  exists out', dt_imageio_flip_buffers_ui8_to_float (replicate 24 S754_nan) (bytes 18) (float_of_int 0) (float_of_int 255) 3 3 2 3 2 9 1 = Done out' /\
    is_flipped 1 3 2 9 3 4 3 (map (scaled (float_of_int 0) (fdiv (float_of_int 1) (fsub (float_of_int 255) (float_of_int 0)))) (bytes 18))
      (replicate 24 S754_nan) out'.
Proof. apply (flip_to_float_turn 1 3 2 9 3 (float_of_int 0) (float_of_int 255)); [split_and!; vm_compute; done|done]. Defined.

Definition image : dt_iop_roi_t := Roi 0 0 5 3 (float_of_int 1).
Definition clockwise : flip_piece := Flip_piece 5 image (Roi 0 0 3 5 (float_of_int 1)) 1.

(** A region of an image turned clockwise, at half its size. *)
Definition part : dt_iop_roi_t := Roi 0 1 1 1 (S754_finite false (shl 1 23) (-24)).

Lemma flip_region_witness :
  exists whole roi_in,
    process clockwise (bytes 8) (blank 8) (Roi 0 0 2 1 (roi_scale part)) = Done whole /\
    modify_roi_in clockwise part = Done roi_in /\
    0 <= roi_x roi_in /\ roi_x roi_in + roi_width roi_in <= 2 /\ 0 <= roi_y roi_in /\ roi_y roi_in + roi_height roi_in <= 1 /\
    forall input ovoid, is_region (4 * colors clockwise) 2 (bytes 8) roi_in input -> length ovoid = length input ->
      exists res, process clockwise input ovoid roi_in = Done res /\
        is_region (4 * colors clockwise) (turned_size (d_orientation clockwise) 2 1).1 whole part res.
Proof. apply (flip_region clockwise part 2 1 (bytes 8) (blank 8)); try (vm_compute; done); split_and!; vm_compute; done. Defined.

Lemma merged_orientation_witness :
  turned (merge_two_orientations 5 6) 3 2 (0, 0) = (let (w, h) := turned_size 6 3 2 in turned 5 w h (turned 6 3 2 (0, 0))) /\
  is_orientation (merge_two_orientations 5 6).
Proof. apply (merged_orientation 5 6 3 2 (0, 0)); by split. Defined.

Definition rotated : dt_image_t := Images.dt_image_init [].

Lemma rotate_quarter_witness :
  let shown := if 6 =? ORIENTATION_NULL then dt_image_orientation rotated else 6 in
  let (w, h) := turned_size shown 3 2 in
  turned (do_rotate 1 6 rotated) 3 2 (0, 0) = (if 1 =? 1 then quarter_cw else quarter_ccw) w h (turned shown 3 2 (0, 0)) /\
  is_orientation (do_rotate 1 6 rotated).
Proof. apply (rotate_quarter 1 6 rotated 3 2 (0, 0)); [by right|by right; split|by split]. Defined.

Lemma exif_upright_witness :
  let o := dt_image_orientation_to_flip_bits 6 in
  is_orientation o /\
  let (w, h) := turned_size o 3 2 in
  distance Right w h 1 (turned o 3 2 (2, 1)) /\ distance Top w h 2 (turned o 3 2 (2, 1)).
Proof. apply (exif_upright 6 Right Top 3 2 (2, 1)). reflexivity. Defined.

Lemma points_turn_witness :
  distort_transform clockwise (map int_point [(0, 0); (5, 3)]) =
    map (fun p => int_point (turned (d_orientation clockwise) (5 + 1) (3 + 1) p)) [(0, 0); (5, 3)] /\
  distort_backtransform clockwise (distort_transform clockwise (map int_point [(0, 0); (5, 3)])) = map int_point [(0, 0); (5, 3)].
Proof. apply (points_turn clockwise [(0, 0); (5, 3)]); [done|done|repeat constructor; cbn; lia]. Defined.

End Example.
