(* ===== verification/StoredHistory.v ===== *)
(** The history of edits as the library database keeps it: the tables main.history,
    main.masks_history, main.module_order and main.history_hash with two columns of
    main.images, the snapshots of them in the memory database, transactions on all of it,
    and the hashes of common/history.c that tell whether an image was edited.

    A row is kept as it is stored, and NULL is [None]. A statement without ORDER BY takes
    rows in the order [scan] of [Library]. The digest of GLib's MD5 checksum is a
    parameter. *)

From Stdlib Require Import Ascii String SpecFloat.
From S2P Require Import Prelude Utility IopOrder Library.
Local Open Scope Z_scope.

(** ** Tables *)

Abbreviation blob := (list ascii).

Record history_row := History_row {
  h_imgid : Z;
  h_num : option Z;
  h_module : option Z;
  h_operation : option string;
  h_op_params : option blob;
  h_enabled : option Z;
  h_blendop_params : option blob;
  h_blendop_version : option Z;
  h_multi_priority : option Z;
  h_multi_name : option string;
}.

Record masks_row := Masks_row {
  m_imgid : Z;
  m_num : option Z;
  m_formid : option Z;
  m_form : option Z;
  m_name : option string;
  m_version : option Z;
  m_points : option blob;
  m_points_count : option Z;
  m_source : option blob;
}.

(** A row of main.history_hash; its key is imgid. *)
Record hash_row := Hash_row {
  basic_hash : option blob;
  auto_hash : option blob;
  current_hash : option blob;
  mipmap_hash : option blob;
}.

(** Columns of main.images. *)
Record image_columns := Image_columns {
  c_history_end : option Z;
  c_aspect_ratio : spec_float;
}.

(** Rows of a memory table have the number of their snapshot in front. *)
Record tables := Tables {
  images : gmap Z image_columns;
  history : list history_row;
  masks_history : list masks_row;
  orders : module_order;
  history_hash : gmap Z hash_row;
  undo_history : list (Z * history_row);
  undo_masks_history : list (Z * masks_row);
  undo_module_order : list (Z * (Z * module_order_row));
}.

#[export] Instance history_row_eq_dec : EqDecision history_row.
Proof. solve_decision. Defined.
#[export] Instance masks_row_eq_dec : EqDecision masks_row.
Proof. solve_decision. Defined.
#[export] Instance order_row_eq_dec : EqDecision module_order_row.
Proof. solve_decision. Defined.

Definition set_images v t := Tables v (history t) (masks_history t) (orders t) (history_hash t)
  (undo_history t) (undo_masks_history t) (undo_module_order t).
Definition set_history v t := Tables (images t) v (masks_history t) (orders t) (history_hash t)
  (undo_history t) (undo_masks_history t) (undo_module_order t).
Definition set_masks_history v t := Tables (images t) (history t) v (orders t) (history_hash t)
  (undo_history t) (undo_masks_history t) (undo_module_order t).
Definition set_orders v t := Tables (images t) (history t) (masks_history t) v (history_hash t)
  (undo_history t) (undo_masks_history t) (undo_module_order t).
Definition set_history_hash v t := Tables (images t) (history t) (masks_history t) (orders t) v
  (undo_history t) (undo_masks_history t) (undo_module_order t).
Definition set_undo h m o t := Tables (images t) (history t) (masks_history t) (orders t) (history_hash t) h m o.

Definition h_set_num (n : option Z) (r : history_row) : history_row :=
  History_row (h_imgid r) n (h_module r) (h_operation r) (h_op_params r) (h_enabled r) (h_blendop_params r)
    (h_blendop_version r) (h_multi_priority r) (h_multi_name r).
Definition h_set_imgid (i : Z) (r : history_row) : history_row :=
  History_row i (h_num r) (h_module r) (h_operation r) (h_op_params r) (h_enabled r) (h_blendop_params r)
    (h_blendop_version r) (h_multi_priority r) (h_multi_name r).
Definition m_set_num (n : option Z) (r : masks_row) : masks_row :=
  Masks_row (m_imgid r) n (m_formid r) (m_form r) (m_name r) (m_version r) (m_points r) (m_points_count r) (m_source r).
Definition m_set_imgid (i : Z) (r : masks_row) : masks_row :=
  Masks_row i (m_num r) (m_formid r) (m_form r) (m_name r) (m_version r) (m_points r) (m_points_count r) (m_source r).

(** ** Statements *)

(** WHERE imgid = ?1 *)
Definition history_of (imgid : Z) (t : tables) : list history_row := filter (fun r => h_imgid r = imgid) (history t).
Definition masks_of (imgid : Z) (t : tables) : list masks_row := filter (fun r => m_imgid r = imgid) (masks_history t).

(** MAX of a column, which leaves NULL out. *)
Definition MAX (l : list (option Z)) : option Z :=
  foldr (fun x m => match x, m with
                    | None, _ => m
                    | Some n, None => Some n
                    | Some n, Some k => Some (Z.max n k)
                    end) None l.

(** SELECT history_end FROM main.images WHERE id = ?1; 0 without a row. *)
Definition select_history_end (imgid : Z) (t : tables) : Z := column_int (images t !! imgid ≫= c_history_end).

Definition update_history_end (imgid : Z) (v : option Z) (t : tables) : tables :=
  set_images (alter (fun c => Image_columns v (c_aspect_ratio c)) imgid (images t)) t.

(** DELETE FROM main.history WHERE imgid = ?1, and the like *)
Definition delete_history (imgid : Z) (t : tables) : tables :=
  set_history (filter (fun r => h_imgid r <> imgid) (history t)) t.
Definition delete_masks (imgid : Z) (t : tables) : tables :=
  set_masks_history (filter (fun r => m_imgid r <> imgid) (masks_history t)) t.

(** ** Transactions *)

(** What the connection sees, and the state at the begin of an open transaction. *)
Record connection := Connection {
  now : tables;
  begun : option tables;
}.

Definition on_tables (f : tables -> tables) (c : connection) : connection := Connection (f (now c)) (begun c).

(** A BEGIN in a transaction, and the end of none, are errors that change nothing. *)
Definition BEGIN (c : connection) : connection :=
  match begun c with
  | Some _ => c
  | None => Connection (now c) (Some (now c))
  end.

Definition COMMIT (c : connection) : connection := Connection (now c) None.

(** Closing the connection rolls an open transaction back. *)
Definition close (c : connection) : tables := default (now c) (begun c).

(** ** Hashes *)

Definition DT_HISTORY_HASH_BASIC : Z := Z.shiftl 1 0.
Definition DT_HISTORY_HASH_AUTO : Z := Z.shiftl 1 1.
Definition DT_HISTORY_HASH_CURRENT : Z := Z.shiftl 1 2.

Record dt_history_hash_values_t := Hash_values {
  basic : option blob;
  auto_apply : option blob;
  current : option blob;
}.

Definition num_cmp (a b : history_row) : Z :=
  match h_num a, h_num b with
  | None, None => 0
  | None, Some _ => -1
  | Some _, None => 1
  | Some n, Some k => n - k
  end.

(** The order of one list of rows by num. *)
Definition by_num : list history_row -> list history_row := g_list_sort num_cmp.

Section hashes.
Context (md5 : blob -> blob) `{RowOrder}.

(** A text to its terminator, a blob as it is. *)
Definition text_bytes (s : option string) : blob := default [] (list_ascii_of_string <$> s).

Definition row_bytes (r : history_row) : blob :=
  text_bytes (h_operation r) ++ default [] (h_op_params r) ++ default [] (h_blendop_params r).

(** A comparison with NULL is not true. *)
Definition num_is (p : Z -> bool) (n : option Z) : bool := match n with Some n => p n | None => false end.

(** The rows that count. *)
Definition hashed_rows (imgid : Z) (t : tables) : list history_row :=
  by_num (scan (filter (fun r => h_enabled r = Some 1 /\ num_is (fun n => n <=? select_history_end imgid t) (h_num r) = true)
                  (history_of imgid t))).

Definition order_bytes (row : option module_order_row) : blob :=
  match row with
  | None => []
  | Some row =>
      store_s32 (version row) ++ (if version row =? DT_IOP_ORDER_CUSTOM then text_bytes (iop_list row) else [])
  end.

Definition _history_hash_compute_from_db (imgid : Z) (t : tables) : option blob :=
  if imgid =? -1 then None
  else match hashed_rows imgid t with
       | [] => None
       | rows => Some (md5 (concat (row_bytes <$> rows) ++ order_bytes (orders t !! imgid)))
       end.

(** The row of the image, or the one that INSERT makes. *)
Definition hash_row_of (imgid : Z) (t : tables) : hash_row := default (Hash_row None None None None) (history_hash t !! imgid).

Definition dt_history_hash_write_from_history (imgid type : Z) (t : tables) : tables :=
  if imgid =? -1 then t
  else match _history_hash_compute_from_db imgid t with
       | None => t
       | Some hash =>
           if Z.land type (Z.lor (Z.lor DT_HISTORY_HASH_BASIC DT_HISTORY_HASH_AUTO) DT_HISTORY_HASH_CURRENT) =? 0 then t
           else
             let r := hash_row_of imgid t in
             let set bit old := if Z.land type bit =? 0 then old else Some hash in
             set_history_hash (<[imgid := Hash_row (set DT_HISTORY_HASH_BASIC (basic_hash r)) (set DT_HISTORY_HASH_AUTO (auto_hash r))
                                            (set DT_HISTORY_HASH_CURRENT (current_hash r)) (mipmap_hash r)]> (history_hash t)) t
       end.

(** The row is replaced, so that the hash of the thumbnails is lost. *)
Definition dt_history_hash_write (imgid : Z) (hash : dt_history_hash_values_t) (t : tables) : tables :=
  match hash with
  | Hash_values None None None => t
  | Hash_values b a c => set_history_hash (<[imgid := Hash_row b a c None]> (history_hash t)) t
  end.

(** An empty blob is read as NULL. *)
Definition column_blob (b : option blob) : option blob := match b with Some [] => None | _ => b end.

Definition dt_history_hash_read (imgid : Z) (t : tables) : dt_history_hash_values_t :=
  match history_hash t !! imgid with
  | None => Hash_values None None None
  | Some r => Hash_values (column_blob (basic_hash r)) (column_blob (auto_hash r)) (column_blob (current_hash r))
  end.

(** [a == b] in SQL is not true of NULL. *)
Definition sql_eq (a b : option blob) : bool :=
  match a, b with
  | Some a, Some b => bool_decide (a = b)
  | _, _ => false
  end.

Definition sql_ne (a b : option blob) : bool :=
  match a, b with
  | Some a, Some b => bool_decide (a <> b)
  | _, _ => false
  end.

Definition dt_history_hash_is_mipmap_synced (imgid : Z) (t : tables) : bool :=
  if imgid =? -1 then false
  else match history_hash t !! imgid with
       | Some r => sql_eq (mipmap_hash r) (current_hash r)
       | None => false
       end.

Definition dt_history_hash_set_mipmap (imgid : Z) (t : tables) : tables :=
  if imgid =? -1 then t
  else set_history_hash (alter (fun r => Hash_row (basic_hash r) (auto_hash r) (current_hash r) (current_hash r)) imgid (history_hash t)) t.

Definition dt_history_hash_get_status (imgid : Z) (t : tables) : Z :=
  if imgid =? -1 then 0
  else match history_hash t !! imgid with
       | Some r =>
           if sql_eq (basic_hash r) (current_hash r) then DT_HISTORY_HASH_BASIC
           else if sql_eq (auto_hash r) (current_hash r) then DT_HISTORY_HASH_AUTO
           else if (bool_decide (basic_hash r = None) || sql_ne (current_hash r) (basic_hash r)) &&
                   (bool_decide (auto_hash r = None) || sql_ne (current_hash r) (auto_hash r)) then DT_HISTORY_HASH_CURRENT
           else DT_HISTORY_HASH_BASIC
       | None => DT_HISTORY_HASH_BASIC
       end.

End hashes.

(** ** Lemmas: MAX *)

Lemma MAX_ge l n : Some n ∈ l -> exists m, MAX l = Some m /\ n <= m.
Proof.
  induction l as [|x l IH]; [by intros ?%not_elem_of_nil|]. intros [<-|Hn]%elem_of_cons; cbn.
  - fold (MAX l). destruct (MAX l) as [m|]; [exists (Z.max n m)|exists n]; (split; [done|lia]).
  - fold (MAX l). destruct (IH Hn) as (m & -> & Hle). destruct x as [k|]; [exists (Z.max k m)|exists m]; (split; [done|lia]).
Qed.

Lemma MAX_elem l m : MAX l = Some m -> Some m ∈ l.
Proof.
  revert m. induction l as [|x l IH]; intros m; [done|]. cbn. fold (MAX l). rewrite elem_of_cons.
  destruct x as [k|]; [|intros Hm; right; by apply IH]. destruct (MAX l) as [m'|]; intros [= <-]; [|by left].
  destruct (Z.max_spec k m') as [[_ ->]|[_ ->]]; [right; by apply IH|by left].
Qed.

Lemma MAX_Permutation l l' : l ≡ₚ l' -> MAX l = MAX l'.
Proof.
  intros Hp. destruct (MAX l) as [m|] eqn:E, (MAX l') as [m'|] eqn:E'; [|exfalso|exfalso|done].
  - destruct (MAX_ge l' m) as (k & Hk & Hle); [rewrite <- Hp; by apply MAX_elem|].
    destruct (MAX_ge l m') as (k' & Hk' & Hle'); [rewrite Hp; by apply MAX_elem|]. simplify_eq. f_equal. lia.
  - apply MAX_elem in E. rewrite Hp in E. destruct (MAX_ge l' m E) as (? & ? & _). congruence.
  - apply MAX_elem in E'. rewrite <- Hp in E'. destruct (MAX_ge l m' E') as (? & ? & _). congruence.
Qed.

#[export] Instance MAX_proper : Proper ((≡ₚ) ==> eq) MAX.
Proof. intros l l'. apply MAX_Permutation. Qed.

(** ** The history of one image *)

(** The row that stands for a history without edits. *)
Definition null_row (imgid : Z) : history_row := History_row imgid None None None None None None None None None.

(** The edits of an image. *)
Definition edits (i : Z) (t : tables) : list history_row := filter (fun r => r <> null_row i) (history_of i t).

(** Two states store the same history of an image. *)
Record same_history (i : Z) (t t' : tables) : Prop := Same_history {
  sh_edits : edits i t ≡ₚ edits i t';
  sh_masks : masks_of i t ≡ₚ masks_of i t';
  sh_order : orders t !! i = orders t' !! i;
  sh_end : select_history_end i t = select_history_end i t';
}.

#[export] Instance same_history_equiv i : Equivalence (same_history i).
Proof.
  split.
  - done.
  - intros t t' []. by split.
  - intros t t' t'' [] []. split; by etransitivity.
Qed.

(** All that is stored of an image. *)
Record untouched (i : Z) (t t' : tables) : Prop := Untouched {
  un_rows : history_of i t' = history_of i t;
  un_masks : masks_of i t' = masks_of i t;
  un_order : orders t' !! i = orders t !! i;
  un_columns : images t' !! i = images t !! i;
  un_hash : history_hash t' !! i = history_hash t !! i;
}.

#[export] Instance untouched_preorder i : PreOrder (untouched i).
Proof.
  split.
  - done.
  - intros t t' t'' [] []. split; by etransitivity.
Qed.

Lemma filter_none {A} (P : A -> Prop) `{!forall x, Decision (P x)} (l : list A) : (forall x, x ∈ l -> ~ P x) -> filter P l = [].
Proof.
  intros Hn. induction l as [|x l IH]; [done|]. rewrite filter_cons_False by (apply Hn; by left).
  apply IH. intros y Hy. apply Hn. by right.
Qed.

Lemma filter_keeps {A} (P Q : A -> Prop) `{!forall x, Decision (P x), !forall x, Decision (Q x)} (l : list A) :
  (forall x, x ∈ l -> Q x -> P x) -> filter Q (filter P l) = filter Q l.
Proof.
  intros Hn. rewrite list_filter_filter. apply filter_elem_ext. intros x Hx. split; [tauto|]. intros Hq. split; [done|]. by apply Hn.
Qed.
