(* ===== verification/Snapshots.v ===== *)
(** Undo of edits in the lighttable: common/history_snapshot.c, which copies the stored
    history of an image to the memory database and back, with the functions that it is
    used by: deleting a history (common/history.c) and turning an image
    (common/image.c).

    The state is that of [StoredHistory]. What the functions also do to the image cache, to
    thumbnails, tags and sidecar files is not part of it. Making and restoring a snapshot
    take whether each of their statements runs; the theorems on undo are about
    statements that run. *)

From Stdlib Require Import Ascii String SpecFloat.
From S2P Require Import Prelude Undo IopOrder Images Library Attributes Flip StoredHistory.
Local Open Scope Z_scope.

Section snapshots.
Context (md5 : blob -> blob) `{RowOrder}.

(** ** common/history_snapshot.c *)

Record dt_undo_lt_history_t := Lt_history {
  imgid : Z;
  before : Z;
  before_history_end : Z;
  after : Z;
  after_history_end : Z;
}.

Definition next_snapshot (imgid : Z) (t : tables) : Z :=
  column_int (MAX ((fun r => Some r.1) <$> filter (fun r => h_imgid r.2 = imgid) (undo_history t))) + 1.

(** Whether the statements of a function run, by their numbers in it: an error of the
    database (a full disk, a locked file) leaves nothing of a statement. *)
Definition runs := nat -> bool.
Definition all_run : runs := fun _ => true.

(** sqlite3_step: whether the result is SQLITE_DONE. [None]: a constraint refuses the rows. *)
Definition sqlite3_step (ran : bool) (stmt : tables -> option tables) (c : connection) : bool * connection :=
  match (if ran then stmt (now c) else None) with
  | Some t => (true, on_tables (fun _ => t) c)
  | None => (false, c)
  end.

(** The statement ROLLBACK_TRANSACTION is none of SQL: an error that changes nothing. *)
Definition ROLLBACK_TRANSACTION (c : connection) : connection := c.

Definition insert_undo_null_row (imgid snap_id : Z) (t : tables) : tables :=
  set_undo (undo_history t ++ [(snap_id, null_row imgid)]) (undo_masks_history t) (undo_module_order t) t.
Definition insert_undo_history (imgid snap_id : Z) (t : tables) : tables :=
  set_undo (undo_history t ++ (pair snap_id <$> scan (history_of imgid t))) (undo_masks_history t) (undo_module_order t) t.
Definition insert_undo_masks (imgid snap_id : Z) (t : tables) : tables :=
  set_undo (undo_history t) (undo_masks_history t ++ (pair snap_id <$> scan (masks_of imgid t))) (undo_module_order t) t.
Definition insert_undo_order (imgid snap_id : Z) (t : tables) : tables :=
  set_undo (undo_history t) (undo_masks_history t)
    (undo_module_order t ++ match orders t !! imgid with Some r => [(snap_id, (imgid, r))] | None => [] end) t.

(** The statements of a snapshot when all run. *)
Definition copy_history (imgid snap_id history_end : Z) (t : tables) : tables :=
  if history_end =? 0 then insert_undo_null_row imgid snap_id t
  else insert_undo_order imgid snap_id (insert_undo_masks imgid snap_id (insert_undo_history imgid snap_id t)).

(** The number of the snapshot, and the end of the history. A statement is run if the ones
    before it were. *)
Definition dt_history_snapshot_undo_create_run (ran : runs) (imgid : Z) (c : connection) : Z * Z * connection :=
  let history_end := select_history_end imgid (now c) in
  let snap_id := next_snapshot imgid (now c) in
  let c := BEGIN c in
  let '(all_ok, c) :=
    if history_end =? 0 then sqlite3_step (ran 0%nat) (fun t => Some (insert_undo_null_row imgid snap_id t)) c
    else
      let '(all_ok, c) := sqlite3_step (ran 0%nat) (fun t => Some (insert_undo_history imgid snap_id t)) c in
      let '(all_ok, c) := if all_ok then sqlite3_step (ran 1%nat) (fun t => Some (insert_undo_masks imgid snap_id t)) c else (false, c) in
      if all_ok then sqlite3_step (ran 2%nat) (fun t => Some (insert_undo_order imgid snap_id t)) c else (false, c) in
  (snap_id, history_end, if all_ok then COMMIT c else ROLLBACK_TRANSACTION c).

Definition dt_history_snapshot_undo_create : Z -> connection -> Z * Z * connection := dt_history_snapshot_undo_create_run all_run.

(** The tables of an image without history. *)
Definition delete_rows (imgid : Z) (t : tables) : tables :=
  let t := delete_history imgid t in
  let t := set_orders (delete imgid (orders t)) t in
  let t := set_images (alter (fun _ => Image_columns (Some 0) (S754_zero false)) imgid (images t)) t in
  let t := delete_masks imgid t in
  let t := set_history_hash (delete imgid (history_hash t)) t in
  dt_history_hash_write_from_history md5 imgid DT_HISTORY_HASH_CURRENT t.

(** The rows of a snapshot. *)
Definition snapshot_of (imgid snap_id : Z) (t : tables) : list history_row :=
  snd <$> filter (fun r => h_imgid r.2 = imgid /\ r.1 = snap_id) (undo_history t).
Definition snapshot_masks (imgid snap_id : Z) (t : tables) : list masks_row :=
  snd <$> filter (fun r => m_imgid r.2 = imgid /\ r.1 = snap_id) (undo_masks_history t).
Definition snapshot_orders (imgid snap_id : Z) (t : tables) : list module_order_row :=
  (snd ∘ snd) <$> filter (fun r => r.2.1 = imgid /\ r.1 = snap_id) (undo_module_order t).

Definition insert_history (imgid snap_id : Z) (t : tables) : tables :=
  set_history (history t ++ scan (snapshot_of imgid snap_id t)) t.
Definition insert_masks (imgid snap_id : Z) (t : tables) : tables :=
  set_masks_history (masks_history t ++ scan (snapshot_masks imgid snap_id t)) t.

(** imgid is the primary key: a second row is refused, with all rows of its statement. *)
Definition insert_orders (imgid snap_id : Z) (t : tables) : option tables :=
  match snapshot_orders imgid snap_id t, orders t !! imgid with
  | [], _ => Some t
  | [r], None => Some (set_orders (<[imgid := r]> (orders t)) t)
  | _, _ => None
  end.

(** The flag of success is combined with tests for its opposite. *)
Definition _history_snapshot_undo_restore (ran : runs) (imgid snap_id history_end : Z) (c : connection) : connection :=
  let all_ok := true in
  let c := on_tables (delete_rows imgid) (BEGIN c) in
  let '(done, c) := sqlite3_step (ran 0%nat) (fun t => Some (insert_history imgid snap_id t)) c in
  let all_ok := all_ok && negb done in
  let '(done, c) := sqlite3_step (ran 1%nat) (fun t => Some (insert_masks imgid snap_id t)) c in
  let all_ok := all_ok && negb done in
  let '(done, c) := sqlite3_step (ran 2%nat) (fun t => Some (update_history_end imgid (Some history_end) t)) c in
  let all_ok := all_ok && negb done in
  let '(done, c) := sqlite3_step (ran 3%nat) (insert_orders imgid snap_id) c in
  let all_ok := all_ok && negb done in
  if all_ok then COMMIT c else ROLLBACK_TRANSACTION c.

(** The statements of the restore when all run. *)
Definition restore_rows (imgid snap_id history_end : Z) (t : tables) : tables :=
  let t := insert_masks imgid snap_id (insert_history imgid snap_id (delete_rows imgid t)) in
  let t := update_history_end imgid (Some history_end) t in
  default t (insert_orders imgid snap_id t).

Definition _clear_undo_snapshot (imgid snap_id : Z) (t : tables) : tables :=
  set_undo (filter (fun r => ~ (r.1 = snap_id /\ h_imgid r.2 = imgid)) (undo_history t))
    (filter (fun r => ~ (r.1 = snap_id /\ m_imgid r.2 = imgid)) (undo_masks_history t))
    (filter (fun r => ~ (r.1 = snap_id /\ r.2.1 = imgid)) (undo_module_order t)) t.

Definition dt_history_snapshot_undo_lt_history_data_free (hist : dt_undo_lt_history_t) (t : tables) : tables :=
  let t := _clear_undo_snapshot (imgid hist) (after hist) t in
  if before hist =? 0 then _clear_undo_snapshot (imgid hist) (before hist) t else t.

Definition dt_history_snapshot_undo_pop_run (ran : runs) : undo_callback (World := connection) (U := unit) (D := dt_undo_lt_history_t) :=
  fun _ type data action c disable imgs =>
    match data with
    | Some hist =>
        if type =? DT_UNDO_LT_HISTORY then
          (match action with
           | DT_ACTION_UNDO => _history_snapshot_undo_restore ran (imgid hist) (before hist) (before_history_end hist) c
           | DT_ACTION_REDO => _history_snapshot_undo_restore ran (imgid hist) (after hist) (after_history_end hist) c
           end, disable, imgs ++ [imgid hist])
        else (c, disable, imgs)
    | None => (c, disable, imgs)
    end.

Abbreviation undo_t := (dt_undo_t connection unit dt_undo_lt_history_t).

Definition dt_history_snapshot_undo_pop : undo_callback := dt_history_snapshot_undo_pop_run all_run.

(** The data of items that leave the undo lists are freed. *)
Definition free_data (freed : list (option dt_undo_lt_history_t)) (c : connection) : connection :=
  on_tables (fun t => foldl (fun t d => match d with
                                        | Some hist => dt_history_snapshot_undo_lt_history_data_free hist t
                                        | None => t
                                        end) t freed) c.

(** ** Deleting a history *)

Definition dt_history_delete_on_image_ext (clock : Z * Z * Z) (imgid : Z) (undo : bool) (u : undo_t) (c : connection)
    : c_result (undo_t * connection) :=
  if undo then
    let '(t1, t2, t3) := clock in
    let '(before, before_end, c) := dt_history_snapshot_undo_create imgid c in
    let c := on_tables (delete_rows imgid) c in
    let '(after, after_end, c) := dt_history_snapshot_undo_create imgid c in
    let (u, freed1) := dt_undo_start_group u DT_UNDO_LT_HISTORY t1 in
    let (u, freed2) := dt_undo_record u None DT_UNDO_LT_HISTORY (Some (Lt_history imgid before before_end after after_end))
                         (Some dt_history_snapshot_undo_pop) true t2 in
    let* (u, freed3) := dt_undo_end_group u t3 in
    Done (u, free_data freed3 (free_data freed2 (free_data freed1 c)))
  else Done (u, on_tables (delete_rows imgid) c).

Definition dt_history_delete_on_image (clock : Z * Z * Z) (imgid : Z) (u : undo_t) (c : connection) : c_result (undo_t * connection) :=
  dt_history_delete_on_image_ext clock imgid true u c.

(** ** Turning an image *)

Definition next_num (imgid : Z) (t : tables) : Z :=
  match MAX (h_num <$> history_of imgid t) with Some n => n + 1 | None => 0 end.

Definition flip_row (imgid num orientation : Z) : history_row :=
  History_row imgid (Some num) (Some 2) (Some "flip") (Some (store_s32 orientation)) (Some 1) None (Some 0) (Some 0) (Some "").

Definition dt_image_set_flip (imgid orientation : Z) (t : tables) : tables :=
  let t := set_history (history t ++ [flip_row imgid (next_num imgid t) orientation]) t in
  let t := update_history_end imgid (Z.succ <$> MAX (h_num <$> history_of imgid t)) t in
  dt_history_hash_write_from_history md5 imgid DT_HISTORY_HASH_CURRENT t.

(** ORDER BY num DESC LIMIT 1 *)
Definition last_row (l : list history_row) : option history_row := head (g_list_sort (fun a b => num_cmp b a) (scan l)).

(** The first four bytes of the parameters; with [flip_known] the module flip is loaded.
    [img]: the image in the cache. *)
Definition dt_image_get_orientation (flip_known : bool) (img : dt_image_t) (imgid : Z) (t : tables) : c_result Z :=
  let* orientation :=
    if flip_known then
      match last_row (filter (fun r => h_operation r = Some "flip") (history_of imgid t)) with
      | Some r =>
          if column_int (h_enabled r) =? 0 then Done ORIENTATION_NULL
          else match h_op_params r with
               | Some params => if (length params <? 4)%nat then Undefined else Done (load_s32 (take 4 params))
               | None => Undefined
               end
      | None => Done ORIENTATION_NULL
      end
    else Done ORIENTATION_NULL in
  Done (if orientation =? ORIENTATION_NULL then dt_image_orientation img else orientation).

Definition flipped (cw orientation : Z) : Z :=
  let swap := has ORIENTATION_SWAP_XY orientation in
  let orientation :=
    if cw =? 1 then Z.lxor orientation (if swap then ORIENTATION_FLIP_Y else ORIENTATION_FLIP_X)
    else Z.lxor orientation (if swap then ORIENTATION_FLIP_X else ORIENTATION_FLIP_Y) in
  let orientation := Z.lxor orientation ORIENTATION_SWAP_XY in
  if cw =? 2 then ORIENTATION_NULL else orientation.

(** [in_darkroom]: the image is the one of the darkroom, and that is the view. *)
Definition dt_image_flip (flip_known in_darkroom : bool) (img : dt_image_t) (clock : Z) (imgid cw : Z) (u : undo_t) (c : connection)
    : c_result (undo_t * connection) :=
  if in_darkroom then Done (u, c)
  else
    let '(before, before_end, c) := dt_history_snapshot_undo_create imgid c in
    let* orientation := dt_image_get_orientation flip_known img imgid (now c) in
    let c := on_tables (dt_image_set_flip imgid (flipped cw orientation)) c in
    let '(after, after_end, c) := dt_history_snapshot_undo_create imgid c in
    let (u, freed) := dt_undo_record u None DT_UNDO_LT_HISTORY (Some (Lt_history imgid before before_end after after_end))
                        (Some dt_history_snapshot_undo_pop) true clock in
    Done (u, free_data freed c).

(** ** Lemmas: changes of one image *)

(** Only the image [i] is changed, and no snapshot. *)
Record edits_only (i : Z) (t t' : tables) : Prop := Edits_only {
  eo_others j : j <> i -> untouched j t t';
  eo_history : undo_history t' = undo_history t;
  eo_masks : undo_masks_history t' = undo_masks_history t;
  eo_orders : undo_module_order t' = undo_module_order t;
  eo_image : is_Some (images t !! i) -> is_Some (images t' !! i);
}.

#[export] Instance edits_only_preorder i : PreOrder (edits_only i).
Proof.
  split.
  - by split.
  - intros t t' t'' [] []. split; try (by etransitivity); [|by auto]. intros j Hj. etransitivity; eauto.
Qed.

Lemma hash_write_edits i type t : edits_only i t (dt_history_hash_write_from_history md5 i type t).
Proof.
  unfold dt_history_hash_write_from_history. destruct (i =? -1); [done|].
  destruct (_history_hash_compute_from_db md5 i t); [|done]. destruct (_ =? 0); [done|].
  split; try done. intros j Hj. split; try done. cbn. by rewrite lookup_insert_ne.
Qed.

Lemma hash_write_same i type t :
  let t' := dt_history_hash_write_from_history md5 i type t in
  history t' = history t /\ masks_history t' = masks_history t /\ orders t' = orders t /\ images t' = images t.
Proof. unfold dt_history_hash_write_from_history. by repeat case_match. Qed.

Lemma update_end_edits i v t : edits_only i t (update_history_end i v t).
Proof.
  split; try done.
  - intros j Hj. split; try done. cbn. by rewrite lookup_alter_ne.
  - intros [c Hc]. cbn. rewrite lookup_alter_eq, Hc. by eexists.
Qed.

Lemma update_end_selects i v t : is_Some (images t !! i) -> select_history_end i (update_history_end i v t) = column_int v.
Proof. intros [c Hc]. unfold select_history_end. cbn. by rewrite lookup_alter_eq, Hc. Qed.

Lemma delete_rows_spec i t :
  let t' := delete_rows i t in
  edits_only i t t' /\ history_of i t' = [] /\ masks_of i t' = [] /\ orders t' !! i = None /\
  (is_Some (images t !! i) -> select_history_end i t' = 0).
Proof.
  cbn zeta. unfold delete_rows. set (t5 := set_history_hash _ _).
  destruct (hash_write_same i DT_HISTORY_HASH_CURRENT t5) as (Hh & Hm & Ho & Hi).
  assert (edits_only i t t5) as He.
  { split; try done.
    - intros j Hj. split; cbn; [| |by rewrite lookup_delete_ne|by rewrite lookup_alter_ne|by rewrite lookup_delete_ne];
        unfold history_of, masks_of; apply filter_keeps; naive_solver.
    - intros [c Hc]. cbn. rewrite lookup_alter_eq, Hc. by eexists. }
  split; [etransitivity; [exact He|apply hash_write_edits]|]. unfold history_of, masks_of, select_history_end. rewrite Hh, Hm, Ho, Hi. cbn.
  split_and!.
  - apply filter_none. intros r [? _]%list_elem_of_filter. done.
  - apply filter_none. intros r [? _]%list_elem_of_filter. done.
  - by rewrite lookup_delete_eq.
  - intros [c Hc]. by rewrite lookup_alter_eq, Hc.
Qed.

(** ** Lemmas: snapshots *)

(** Snapshot [n] of image [i] is that of the state [t0]. *)
Definition has_snapshot (i n : Z) (t0 t : tables) : Prop :=
  if select_history_end i t0 =? 0
  then snapshot_of i n t = [null_row i] /\ snapshot_masks i n t = [] /\ snapshot_orders i n t = []
  else snapshot_of i n t ≡ₚ history_of i t0 /\ snapshot_masks i n t ≡ₚ masks_of i t0 /\
       snapshot_orders i n t = match orders t0 !! i with Some r => [r] | None => [] end.

(** What a snapshot does not keep when the end is 0 is not there. *)
Definition covered (i : Z) (t : tables) : Prop :=
  select_history_end i t = 0 -> edits i t = [] /\ masks_of i t = [] /\ orders t !! i = None.

Lemma snapshots_eq i n t t' :
  undo_history t' = undo_history t -> undo_masks_history t' = undo_masks_history t -> undo_module_order t' = undo_module_order t ->
  snapshot_of i n t' = snapshot_of i n t /\ snapshot_masks i n t' = snapshot_masks i n t /\ snapshot_orders i n t' = snapshot_orders i n t.
Proof. intros Hh Hm Ho. unfold snapshot_of, snapshot_masks, snapshot_orders. by rewrite Hh, Hm, Ho. Qed.

Lemma has_snapshot_edit i j n t0 t t' : edits_only j t t' -> has_snapshot i n t0 t -> has_snapshot i n t0 t'.
Proof.
  intros He. destruct (snapshots_eq i n t t') as (H1 & H2 & H3); [apply He..|]. unfold has_snapshot. by rewrite H1, H2, H3.
Qed.

(** The module orders that the last statement of a restore leaves. *)
Definition orders_with (i : Z) (rows : list module_order_row) (o : module_order) : module_order :=
  match rows, o !! i with
  | [r], None => <[i := r]> o
  | _, _ => o
  end.

Lemma insert_orders_eq i n t :
  default t (insert_orders i n t) = set_orders (orders_with i (snapshot_orders i n t) (orders t)) t.
Proof.
  unfold insert_orders, orders_with. assert (set_orders (orders t) t = t) as Hid by (by destruct t).
  destruct (snapshot_orders i n t) as [|r [|r' l]]; destruct (orders t !! i); cbn [default from_option]; by rewrite ?Hid.
Qed.

(** Restoring a snapshot gives the history that it was made of. *)
Lemma restore_spec i n t0 t :
  is_Some (images t !! i) -> covered i t0 -> has_snapshot i n t0 t ->
  same_history i (restore_rows i n (select_history_end i t0) t) t0 /\
  edits_only i t (restore_rows i n (select_history_end i t0) t).
Proof.
  intros Hi Hcov Hsnap. unfold restore_rows. cbv zeta.
  destruct (delete_rows_spec i t) as (He & Hh & Hm & Ho & _). set (t1 := delete_rows i t) in *.
  apply (has_snapshot_edit i i n t0) in He as Hsnap1; [|done].
  set (t2 := insert_history i n t1). set (t3 := insert_masks i n t2). set (t4 := update_history_end _ _ t3). rewrite insert_orders_eq.
  assert (edits_only i t1 t3) as He3.
  { split; try done. intros j Hj. split; try done.
    - unfold history_of. cbn. rewrite filter_app, (filter_none _ (scan _)), app_nil_r; [done|].
      intros r Hr. rewrite elem_of_scan in Hr. apply list_elem_of_fmap in Hr as ([m r'] & -> & [[Hr _] _]%list_elem_of_filter). cbn in *. congruence.
    - unfold masks_of. cbn. rewrite filter_app, (filter_none _ (scan _)), app_nil_r; [done|].
      intros r Hr. rewrite elem_of_scan in Hr. apply list_elem_of_fmap in Hr as ([m r'] & -> & [[Hr _] _]%list_elem_of_filter). cbn in *. congruence. }
  assert (edits_only i t4 (set_orders (orders_with i (snapshot_orders i n t4) (orders t4)) t4)) as He5.
  { split; try done. intros j Hj. split; try done. cbn. unfold orders_with. repeat case_match; try done. by rewrite lookup_insert_ne. }
  assert (is_Some (images t3 !! i)) as Hi3 by (apply He3, He, Hi).
  assert (edits_only i t (set_orders (orders_with i (snapshot_orders i n t4) (orders t4)) t4)) as Hall.
  { etransitivity; [exact He|]. etransitivity; [exact He3|]. etransitivity; [apply update_end_edits|exact He5]. }
  split; [|exact Hall].
  assert (snapshot_orders i n t4 = snapshot_orders i n t1) as -> by done.
  assert (history_of i (set_orders (orders_with i (snapshot_orders i n t1) (orders t4)) t4) ≡ₚ snapshot_of i n t1) as Hrows.
  { change (history_of i _) with (filter (fun r => h_imgid r = i) (history t1 ++ scan (snapshot_of i n t1))).
    rewrite filter_app. unfold history_of in Hh. rewrite Hh. cbn [app]. rewrite filter_all, scan_Permutation; [done|].
    intros r Hr. rewrite elem_of_scan in Hr. by apply list_elem_of_fmap in Hr as (x & -> & [[? _] _]%list_elem_of_filter). }
  assert (masks_of i (set_orders (orders_with i (snapshot_orders i n t1) (orders t4)) t4) ≡ₚ snapshot_masks i n t1) as Hmasks.
  { change (masks_of i _) with (filter (fun r => m_imgid r = i) (masks_history t1 ++ scan (snapshot_masks i n t2))).
    rewrite filter_app. unfold masks_of in Hm. rewrite Hm. cbn [app]. rewrite filter_all, scan_Permutation; [done|].
    intros r Hr. rewrite elem_of_scan in Hr. by apply list_elem_of_fmap in Hr as (x & -> & [[? _] _]%list_elem_of_filter). }
  assert (select_history_end i (set_orders (orders_with i (snapshot_orders i n t1) (orders t4)) t4) = select_history_end i t0) as Hend
    by exact (update_end_selects i (Some (select_history_end i t0)) t3 Hi3).
  assert (orders t4 !! i = None) as Ho4 by exact Ho.
  unfold has_snapshot in Hsnap1. destruct (Z.eqb_spec (select_history_end i t0) 0) as [E|_].
  - destruct (Hcov E) as (Hc1 & Hc2 & Hc3), Hsnap1 as (H1 & H2 & H3). split; [| | |done].
    + unfold edits at 1. rewrite Hrows, H1, Hc1. by rewrite filter_cons_False by tauto.
    + by rewrite Hmasks, H2, Hc2.
    + cbn. by rewrite H3, Hc3.
  - destruct Hsnap1 as (H1 & H2 & H3). split; [| | |done].
    + unfold edits. by rewrite Hrows, H1.
    + by rewrite Hmasks, H2.
    + cbn. rewrite H3. unfold orders_with. destruct (orders t0 !! i) as [r|]; [|done]. rewrite Ho. by rewrite lookup_insert_eq.
Qed.

(** The numbers of the snapshots of an image: those of its masks and module orders
    are among those of its rows. *)
Record snaps_ok (i : Z) (t : tables) : Prop := Snaps_ok {
  so_positive r : r ∈ undo_history t -> h_imgid r.2 = i -> 0 < r.1;
  so_masks r : r ∈ undo_masks_history t -> m_imgid r.2 = i -> r.1 < next_snapshot i t;
  so_orders r : r ∈ undo_module_order t -> r.2.1 = i -> r.1 < next_snapshot i t;
}.

(** A history with an end has rows. *)
Definition has_rows (i : Z) (t : tables) : Prop := select_history_end i t <> 0 -> history_of i t <> [].

Lemma next_snapshot_above i t r : r ∈ undo_history t -> h_imgid r.2 = i -> r.1 < next_snapshot i t.
Proof.
  intros Hr Hi. unfold next_snapshot.
  destruct (MAX_ge ((fun r => Some r.1) <$> filter (fun r => h_imgid r.2 = i) (undo_history t)) r.1) as (m & -> & Hle);
    [|cbn; lia]. apply list_elem_of_fmap. exists r. split; [done|]. by apply list_elem_of_filter.
Qed.

Lemma next_snapshot_positive i t : snaps_ok i t -> 0 < next_snapshot i t.
Proof.
  intros Hok. unfold next_snapshot. destruct (MAX _) as [m|] eqn:E; [|done].
  apply MAX_elem, list_elem_of_fmap in E as (r & [= ->] & [Hr Hin]%list_elem_of_filter). apply (so_positive i t Hok) in Hin; [|done]. cbn. lia.
Qed.

Lemma copy_history_eq i n e t : copy_history i n e t =
  if e =? 0 then set_undo (undo_history t ++ [(n, null_row i)]) (undo_masks_history t) (undo_module_order t) t
  else set_undo (undo_history t ++ (pair n <$> scan (history_of i t))) (undo_masks_history t ++ (pair n <$> scan (masks_of i t)))
         (undo_module_order t ++ match orders t !! i with Some r => [(n, (i, r))] | None => [] end) t.
Proof. by destruct t. Qed.

(** A new snapshot is one of the state, and leaves it and the older ones alone. *)
Lemma copy_history_spec i t :
  snaps_ok i t -> has_rows i t ->
  let n := next_snapshot i t in
  let t' := copy_history i n (select_history_end i t) t in
  (images t' = images t /\ history t' = history t /\ masks_history t' = masks_history t /\ orders t' = orders t /\
   history_hash t' = history_hash t) /\
  has_snapshot i n t t' /\ snaps_ok i t' /\ n < next_snapshot i t' /\
  (forall m t0, m < n -> has_snapshot i m t0 t -> has_snapshot i m t0 t').
Proof.
  intros Hok Hrows. cbv zeta. set (n := next_snapshot i t).
  assert (0 < n) as Hn by (by apply next_snapshot_positive).
  assert (forall (l : list (Z * history_row)) m, (forall r, r ∈ l -> r.1 <> m \/ h_imgid r.2 <> i) -> filter (fun r => h_imgid r.2 = i /\ r.1 = m) l = []) as Hnoneh
    by (intros l m Hl; apply filter_none; intros r Hr [? ?]; destruct (Hl r Hr); done).
  assert (forall (l : list (Z * masks_row)) m, (forall r, r ∈ l -> r.1 <> m \/ m_imgid r.2 <> i) -> filter (fun r => m_imgid r.2 = i /\ r.1 = m) l = []) as Hnonem
    by (intros l m Hl; apply filter_none; intros r Hr [? ?]; destruct (Hl r Hr); done).
  assert (forall (l : list (Z * (Z * module_order_row))) m, (forall r, r ∈ l -> r.1 <> m \/ r.2.1 <> i) -> filter (fun r => r.2.1 = i /\ r.1 = m) l = []) as Hnoneo
    by (intros l m Hl; apply filter_none; intros r Hr [? ?]; destruct (Hl r Hr); done).
  assert (snapshot_of i n t = [] /\ snapshot_masks i n t = [] /\ snapshot_orders i n t = []) as (Hs1 & Hs2 & Hs3).
  { unfold snapshot_of, snapshot_masks, snapshot_orders. rewrite Hnoneh, Hnonem, Hnoneo; [done|..]; intros r Hr.
    - destruct (decide (r.2.1 = i)) as [E|]; [|by right]. left. pose proof (so_orders i t Hok r Hr E). fold n in H0. lia.
    - destruct (decide (m_imgid r.2 = i)) as [E|]; [|by right]. left. pose proof (so_masks i t Hok r Hr E). fold n in H0. lia.
    - destruct (decide (h_imgid r.2 = i)) as [E|]; [|by right]. left. pose proof (next_snapshot_above i t r Hr E). fold n in H0. lia. }
  rewrite copy_history_eq. destruct (Z.eqb_spec (select_history_end i t) 0) as [E|E]; (split; [done|]).
  - set (t' := set_undo _ _ _ t).
    assert (n < next_snapshot i t') as Hlt by (apply (next_snapshot_above i t' (n, null_row i)); [apply elem_of_app; right; by left|done]).
    split_and!.
    + unfold has_snapshot. rewrite (proj2 (Z.eqb_eq _ _) E). split; [|done]. unfold snapshot_of, t'. cbn [undo_history set_undo].
      rewrite filter_app, fmap_app. unfold snapshot_of in Hs1. rewrite Hs1. by rewrite filter_cons_True.
    + split.
      * intros r [Hr|Hr%list_elem_of_singleton]%elem_of_app Hi; [by apply (so_positive i t Hok)|by subst].
      * intros r Hr Hi. pose proof (so_masks i t Hok r Hr Hi). fold n in H0. lia.
      * intros r Hr Hi. pose proof (so_orders i t Hok r Hr Hi). fold n in H0. lia.
    + done.
    + intros m t0 Hm Hsn. assert (snapshot_of i m t' = snapshot_of i m t) as Hsame.
      { unfold snapshot_of, t'. cbn [undo_history set_undo]. rewrite filter_app, (Hnoneh [_]), app_nil_r; [done|].
        intros r ->%list_elem_of_singleton. left. cbn. lia. }
      unfold has_snapshot. by rewrite Hsame.
  - set (t' := set_undo _ _ _ t). set (os := match orders t !! i with Some r => _ | None => _ end) in *.
    assert (forall r, r ∈ os -> r.1 = n) as Hos by (unfold os; destruct (orders t !! i); intros r Hr; [by apply list_elem_of_singleton in Hr as ->|by apply not_elem_of_nil in Hr]).
    assert (n < next_snapshot i t') as Hlt.
    { specialize (Hrows E). destruct (history_of i t) as [|r l] eqn:Eh; [done|].
      assert (r ∈ history_of i t) as Hr by (rewrite Eh; by left). pose proof Hr as [Hri _]%list_elem_of_filter.
      apply (next_snapshot_above i t' (n, r)); [|done]. apply elem_of_app. right. apply list_elem_of_fmap. exists r. split; [done|].
      by rewrite elem_of_scan, <- Eh. }
    split_and!.
    + unfold has_snapshot. rewrite (proj2 (Z.eqb_neq _ _) E). unfold snapshot_of, snapshot_masks, snapshot_orders, t'.
      cbn [undo_history undo_masks_history undo_module_order set_undo]. rewrite !filter_app, !fmap_app.
      unfold snapshot_of in Hs1. unfold snapshot_masks in Hs2. unfold snapshot_orders in Hs3. rewrite Hs1, Hs2, Hs3. cbn [app].
      split_and!.
      * rewrite filter_all, <- list_fmap_compose, list_fmap_id; [apply scan_Permutation|].
        intros r (x & -> & Hx)%list_elem_of_fmap. rewrite elem_of_scan in Hx. by apply list_elem_of_filter in Hx as [? _].
      * rewrite filter_all, <- list_fmap_compose, list_fmap_id; [apply scan_Permutation|].
        intros r (x & -> & Hx)%list_elem_of_fmap. rewrite elem_of_scan in Hx. by apply list_elem_of_filter in Hx as [? _].
      * unfold os. destruct (orders t !! i) as [r|]; [|done]. by rewrite filter_cons_True.
    + split.
      * intros r [Hr|(x & -> & _)%list_elem_of_fmap]%elem_of_app Hi; [by apply (so_positive i t Hok)|done].
      * intros r [Hr|(x & -> & _)%list_elem_of_fmap]%elem_of_app Hi; [|done]. pose proof (so_masks i t Hok r Hr Hi) as Hb. fold n in Hb. lia.
      * intros r [Hr|Hr]%elem_of_app Hi; [|rewrite Hos; done]. pose proof (so_orders i t Hok r Hr Hi) as Hb. fold n in Hb. lia.
    + done.
    + intros m t0 Hm Hsn. assert (snapshot_of i m t' = snapshot_of i m t /\ snapshot_masks i m t' = snapshot_masks i m t /\
        snapshot_orders i m t' = snapshot_orders i m t) as (Hsame1 & Hsame2 & Hsame3).
      { unfold snapshot_of, snapshot_masks, snapshot_orders, t'. cbn [undo_history undo_masks_history undo_module_order set_undo].
        rewrite !filter_app, (Hnoneh (_ <$> _)), (Hnonem (_ <$> _)), (Hnoneo os), !app_nil_r; [done|..].
        - intros r Hr. left. rewrite Hos by done. lia.
        - intros r (x & -> & _)%list_elem_of_fmap. left. cbn. lia.
        - intros r (x & -> & _)%list_elem_of_fmap. left. cbn. lia. }
      unfold has_snapshot. by rewrite Hsame1, Hsame2, Hsame3.
Qed.

(** ** Lemmas: an edit between two snapshots *)

(** The two snapshots of a record are those of [t0] and [t1]. *)
Record undoable (hist : dt_undo_lt_history_t) (t0 t1 t : tables) : Prop := Undoable {
  ua_image : is_Some (images t !! imgid hist);
  ua_covered0 : covered (imgid hist) t0;
  ua_covered1 : covered (imgid hist) t1;
  ua_end0 : before_history_end hist = select_history_end (imgid hist) t0;
  ua_end1 : after_history_end hist = select_history_end (imgid hist) t1;
  ua_before : has_snapshot (imgid hist) (before hist) t0 t;
  ua_after : has_snapshot (imgid hist) (after hist) t1 t;
}.

Lemma undoable_edit hist i t0 t1 t t' : edits_only i t t' -> undoable hist t0 t1 t -> undoable hist t0 t1 t'.
Proof.
  intros He [Hi]. split; try done; try (by eapply has_snapshot_edit).
  destruct (decide (imgid hist = i)) as [<-|Hne]; [by apply He|]. by rewrite (un_columns _ _ _ (eo_others _ _ _ He _ Hne)).
Qed.

(** The statements of a restore that all run. *)
Lemma restore_runs ran i n e c : (forall s, ran s = true) ->
  _history_snapshot_undo_restore ran i n e c = on_tables (restore_rows i n e) (BEGIN c).
Proof.
  intros Hr. unfold _history_snapshot_undo_restore, sqlite3_step. rewrite !Hr. cbn [now on_tables begun negb andb].
  unfold restore_rows, on_tables. cbn [now begun]. by destruct (insert_orders i n _).
Qed.

(** One success and the flag is unset for good. *)
Lemma restore_stays_open ran i n e c : (exists s, (s < 3)%nat /\ ran s = true) ->
  begun (_history_snapshot_undo_restore ran i n e c) = begun (BEGIN c) /\
  close (_history_snapshot_undo_restore ran i n e c) = default (now (_history_snapshot_undo_restore ran i n e c)) (begun (BEGIN c)).
Proof.
  intros (s & Hs & Hr).
  assert (begun (_history_snapshot_undo_restore ran i n e c) = begun (BEGIN c)) as Hb.
  { unfold _history_snapshot_undo_restore, sqlite3_step.
    destruct s as [|[|[|s]]]; [| | |lia]; rewrite Hr; repeat case_match; simplify_eq/=; try done; by destruct_and?. }
  split; [done|]. unfold close. by rewrite Hb.
Qed.

Lemma restore_fails ran i n e c : (forall s, ran s = false) ->
  _history_snapshot_undo_restore ran i n e c = COMMIT (on_tables (delete_rows i) (BEGIN c)).
Proof. intros Hr. unfold _history_snapshot_undo_restore, sqlite3_step. by rewrite !Hr. Qed.

(** Undo gives the history before, redo the one after. *)
Lemma snapshot_pop hist t0 t1 c action : undoable hist t0 t1 (now c) ->
  exists c', (forall disable imgs, dt_history_snapshot_undo_pop None DT_UNDO_LT_HISTORY (Some hist) action c disable imgs =
      (c', disable, imgs ++ [imgid hist])) /\
    same_history (imgid hist) (now c') (match action with DT_ACTION_UNDO => t0 | DT_ACTION_REDO => t1 end) /\
    edits_only (imgid hist) (now c) (now c') /\ undoable hist t0 t1 (now c').
Proof.
  intros Hu. pose proof Hu as [Hi Hc0 Hc1 He0 He1 Hs0 Hs1].
  assert (now (BEGIN c) = now c) as Hb by (unfold BEGIN; by destruct (begun c)).
  destruct action.
  - destruct (restore_spec (imgid hist) (before hist) t0 (now c)) as [Hsame Hed]; [done..|].
    eexists. split; [intros; reflexivity|]. rewrite restore_runs by done. cbn [now on_tables]. rewrite Hb, He0. split; [done|]. split; [done|]. by eapply undoable_edit.
  - destruct (restore_spec (imgid hist) (after hist) t1 (now c)) as [Hsame Hed]; [done..|].
    eexists. split; [intros; reflexivity|].
    rewrite restore_runs by done. cbn [now on_tables]. rewrite Hb, He1. split; [done|]. split; [done|]. by eapply undoable_edit.
Qed.

Lemma create_eq i c : begun c = None ->
  dt_history_snapshot_undo_create i c =
    (next_snapshot i (now c), select_history_end i (now c),
     Connection (copy_history i (next_snapshot i (now c)) (select_history_end i (now c)) (now c)) None).
Proof.
  intros Hb. unfold dt_history_snapshot_undo_create, dt_history_snapshot_undo_create_run, copy_history, BEGIN. rewrite Hb.
  by destruct (_ =? 0).
Qed.

Lemma selects_same i t t' : images t' = images t -> select_history_end i t' = select_history_end i t.
Proof. intros He. unfold select_history_end. by rewrite He. Qed.

(** All but the snapshots. *)
Definition same_main (t' t : tables) : Prop :=
  images t' = images t /\ history t' = history t /\ masks_history t' = masks_history t /\ orders t' = orders t /\
  history_hash t' = history_hash t.

(** An edit of one image with a snapshot before and after it. *)
Lemma bracket_spec i f c :
  begun c = None -> is_Some (images (now c) !! i) -> snaps_ok i (now c) -> has_rows i (now c) -> covered i (now c) ->
  (forall t, edits_only i t (f t)) -> (forall t, same_main t (now c) -> has_rows i (f t) /\ covered i (f t)) ->
  exists n1 c1 n2 c3,
    let t1 := f (now c1) in
    let hist := Lt_history i n1 (select_history_end i (now c)) n2 (select_history_end i t1) in
    dt_history_snapshot_undo_create i c = (n1, select_history_end i (now c), c1) /\ begun c1 = None /\
    (images (now c1) = images (now c) /\ history (now c1) = history (now c) /\ masks_history (now c1) = masks_history (now c) /\
     orders (now c1) = orders (now c) /\ history_hash (now c1) = history_hash (now c)) /\
    dt_history_snapshot_undo_create i (on_tables f c1) = (n2, select_history_end i t1, c3) /\
    begun c3 = None /\ 0 < n1 /\ n1 < n2 /\ n1 = next_snapshot i (now c) /\
    (images (now c3) = images t1 /\ history (now c3) = history t1 /\ masks_history (now c3) = masks_history t1 /\
     orders (now c3) = orders t1 /\ history_hash (now c3) = history_hash t1) /\
    undoable hist (now c) t1 (now c3).
Proof.
  intros Hb Hi Hok Hrows Hcov Hf Hafter. set (t := now c) in *.
  destruct (copy_history_spec i t Hok Hrows) as (Hmain & Hsnap & Hok1 & Hlt & _).
  set (n1 := next_snapshot i t) in *. set (t' := copy_history i n1 (select_history_end i t) t) in *.
  pose proof Hmain as (Hmi & Hmh & Hmm & Hmo & Hmx).
  destruct (Hafter t' Hmain) as [Hrows1 Hcov1]. set (t1 := f t') in *.
  pose proof (Hf t') as Hed. fold t1 in Hed.
  assert (next_snapshot i t1 = next_snapshot i t') as Hns by (unfold next_snapshot; by rewrite (eo_history _ _ _ Hed)).
  assert (snaps_ok i t1) as Hok2.
  { destruct Hok1 as [Hp1 Hp2 Hp3]. split; rewrite ?Hns, ?(eo_history _ _ _ Hed), ?(eo_masks _ _ _ Hed), ?(eo_orders _ _ _ Hed); done. }
  destruct (copy_history_spec i t1 Hok2 Hrows1) as (Hmain1 & Hsnap1 & _ & _ & Hkeep).
  exists n1, (Connection t' None), (next_snapshot i t1), (Connection (copy_history i (next_snapshot i t1) (select_history_end i t1) t1) None).
  cbv zeta. cbn [now begun]. fold t1. split; [by rewrite create_eq|]. split; [done|]. split; [done|].
  split; [by rewrite create_eq|]. split; [done|]. split; [by apply next_snapshot_positive|]. split; [lia|]. split; [done|]. split; [done|].
  split; cbn [imgid before before_history_end after after_history_end]; try done.
  - rewrite (proj1 Hmain1). apply Hed. by rewrite Hmi.
  - apply Hkeep; [lia|]. by eapply has_snapshot_edit.
Qed.

(** ** Lemmas: the undo lists *)

Lemma clear_keeps i n k m t0 t : k <> i \/ m <> n -> has_snapshot i n t0 t -> has_snapshot i n t0 (_clear_undo_snapshot k m t).
Proof.
  intros Hne. assert (snapshot_of i n (_clear_undo_snapshot k m t) = snapshot_of i n t /\
    snapshot_masks i n (_clear_undo_snapshot k m t) = snapshot_masks i n t /\
    snapshot_orders i n (_clear_undo_snapshot k m t) = snapshot_orders i n t) as (H1 & H2 & H3).
  { unfold snapshot_of, snapshot_masks, snapshot_orders. cbn [undo_history undo_masks_history undo_module_order _clear_undo_snapshot set_undo].
    split_and!; f_equal; apply filter_keeps; naive_solver. }
  unfold has_snapshot. by rewrite H1, H2, H3.
Qed.

Lemma free_keeps hist t0 t1 h t :
  (imgid h = imgid hist -> after h <> before hist /\ after h <> after hist) -> before hist <> 0 -> after hist <> 0 ->
  undoable hist t0 t1 t -> undoable hist t0 t1 (dt_history_snapshot_undo_lt_history_data_free h t).
Proof.
  intros Hh Hb Ha []. assert (forall n t0, (imgid h = imgid hist -> after h <> n) -> n <> 0 -> has_snapshot (imgid hist) n t0 t ->
    has_snapshot (imgid hist) n t0 (dt_history_snapshot_undo_lt_history_data_free h t)) as Hkeep.
  { intros n t0' Hn Hn0 Hs. unfold dt_history_snapshot_undo_lt_history_data_free.
    apply (clear_keeps _ _ (imgid h) (after h)) in Hs; [|destruct (decide (imgid h = imgid hist)); [right|left]; naive_solver].
    destruct (Z.eqb_spec (before h) 0) as [->|]; [apply clear_keeps; [by right|]|]; done. }
  split; try done.
  - unfold dt_history_snapshot_undo_lt_history_data_free. by destruct (before h =? 0).
  - apply Hkeep; naive_solver.
  - apply Hkeep; naive_solver.
Qed.

(** Freeing older records changes no history and not this record. *)
Lemma free_data_spec hist t0 t1 freed c :
  (forall h, Some h ∈ freed -> imgid h = imgid hist -> after h < before hist) -> 0 < before hist < after hist ->
  undoable hist t0 t1 (now c) ->
  undoable hist t0 t1 (now (free_data freed c)) /\ begun (free_data freed c) = begun c /\
  (images (now (free_data freed c)) = images (now c) /\ history (now (free_data freed c)) = history (now c) /\
   masks_history (now (free_data freed c)) = masks_history (now c) /\ orders (now (free_data freed c)) = orders (now c) /\
   history_hash (now (free_data freed c)) = history_hash (now c)).
Proof.
  intros Hfreed Hlt. destruct c as [t b]. unfold free_data. cbn [now begun on_tables]. revert t.
  induction freed as [|d freed IH]; intros t Hu; [done|]. cbn [foldl].
  assert (forall h, Some h ∈ freed -> imgid h = imgid hist -> after h < before hist) as Hfreed' by (intros h Hh; apply Hfreed; by right).
  destruct d as [h|]; [|by apply IH].
  destruct (IH Hfreed' (dt_history_snapshot_undo_lt_history_data_free h t)) as (H1 & H2 & H3).
  { apply free_keeps; [|lia|lia|done]. intros He. specialize (Hfreed h ltac:(by left) He). lia. }
  split; [done|]. split; [done|]. revert H3.
  unfold dt_history_snapshot_undo_lt_history_data_free. by destruct (before h =? 0).
Qed.

(** One item that is no group, with none of its period behind it. *)
Lemma undo_single (u : undo_t) filter action item cb rest w w' imgs :
  is_group item = false -> undo item = Some cb -> Z.land (type item) filter <> 0 ->
  match action with DT_ACTION_UNDO => undo_list u | _ => redo_list u end = item :: rest ->
  (forall y, head rest = Some y -> in_period filter (ts item) y = false) ->
  (forall disable, cb (user_data item) (type item) (data item) action w disable [] = (w', disable, imgs)) ->
  let to := item :: match action with DT_ACTION_UNDO => redo_list u | _ => undo_list u end in
  _undo_do_undo_redo u filter action w =
    Done (match action with
          | DT_ACTION_UNDO => Undo rest to (group u) (group_indent u) false (disable_next u)
          | _ => Undo to rest (group u) (group_indent u) false (disable_next u)
          end, w', remove_duplicates (g_list_sort _images_list_cmp imgs)).
Proof.
  intros Hg Hcb Hf Hl Hrest Hrun. cbv zeta. unfold _undo_do_undo_redo. rewrite Hl. cbn [move_first].
  apply Z.eqb_neq in Hf. rewrite Hf, Hg. cbn [negb].
  pose proof (move_period_run filter action (ts item) item [] rest (match action with DT_ACTION_UNDO => redo_list u | _ => undo_list u end)
    (w, disable_next u, []) (w', disable_next u, imgs)) as Hrun'.
  cbn [app] in Hrun'. change (Walk ?to w (disable_next u) []) with (walk_of to (w, disable_next u, @nil Z)).
  rewrite Hrun'; [by destruct action|by constructor|by constructor|done|]. cbn. by rewrite Hcb, Hrun.
Qed.

(** [u1] and [c1] are an undoable state in which image [i] was edited from [c0]: undo gives
    the history back and redo the edited one, and no other image is touched. *)
Definition restores (i filter : Z) (u0 u1 : undo_t) (c0 c1 : connection) : Prop :=
  (forall j, j <> i -> untouched j (now c0) (now c1)) /\
  exists u2 c2 u3 c3 imgs,
    dt_undo_do_undo u1 filter c1 = Done (u2, c2, imgs) /\ undo_list u2 = undo_list u0 /\
    same_history i (now c2) (now c0) /\ (forall j, j <> i -> untouched j (now c0) (now c2)) /\
    dt_undo_do_redo u2 filter c2 = Done (u3, c3, imgs) /\ undo_list u3 = undo_list u1 /\
    same_history i (now c3) (now c1) /\ (forall j, j <> i -> untouched j (now c0) (now c3)).

Lemma restores_callback i filter hist t1 (u0 u1 : undo_t) c0 c1 :
  imgid hist = i -> undoable hist (now c0) t1 (now c1) -> same_history i t1 (now c1) ->
  (forall j, j <> i -> untouched j (now c0) (now c1)) ->
  (forall w2 w3 imgs imgs',
    (forall disable, dt_history_snapshot_undo_pop None DT_UNDO_LT_HISTORY (Some hist) DT_ACTION_UNDO c1 disable [] = (w2, disable, imgs)) ->
    (forall disable, dt_history_snapshot_undo_pop None DT_UNDO_LT_HISTORY (Some hist) DT_ACTION_REDO w2 disable [] = (w3, disable, imgs')) ->
    exists u2 u3, dt_undo_do_undo u1 filter c1 = Done (u2, w2, remove_duplicates (g_list_sort _images_list_cmp imgs)) /\
      undo_list u2 = undo_list u0 /\
      dt_undo_do_redo u2 filter w2 = Done (u3, w3, remove_duplicates (g_list_sort _images_list_cmp imgs')) /\ undo_list u3 = undo_list u1) ->
  restores i filter u0 u1 c0 c1.
Proof.
  intros <- Hu Hsame Hothers Hlists. split; [done|].
  destruct (snapshot_pop hist (now c0) t1 c1 DT_ACTION_UNDO Hu) as (c2 & Hpop & Hs2 & He2 & Hu2).
  destruct (snapshot_pop hist (now c0) t1 c2 DT_ACTION_REDO Hu2) as (c3 & Hpop' & Hs3 & He3 & _).
  destruct (Hlists c2 c3 [imgid hist] [imgid hist]) as (u2 & u3 & Hundo & Hul & Hredo & Hrl).
  { intros disable. by rewrite Hpop. }
  { intros disable. by rewrite Hpop'. }
  assert (forall j, j <> imgid hist -> untouched j (now c0) (now c2)) as Ho2 by (intros j Hj; etransitivity; [by apply Hothers|by apply He2]).
  eexists u2, c2, u3, c3, _. split_and!; try done.
  - by etransitivity.
  - intros j Hj. etransitivity; [by apply Ho2|by apply He3].
Qed.

(** No edit is being recorded, no redo can bring numbers back that a new record uses. *)
Record quiet (i : Z) (u : undo_t) (c : connection) : Prop := Quiet {
  q_closed : begun c = None;
  q_image : is_Some (images (now c) !! i);
  q_snaps : snaps_ok i (now c);
  q_rows : has_rows i (now c);
  q_covered : covered i (now c);
  q_group : group u = DT_UNDO_NONE;
  q_locked : locked u = false;
  q_disable : disable_next u = false;
  q_freed h : Some h ∈ (redo_list u ≫= _free_undo_data) -> imgid h = i -> after h < next_snapshot i (now c);
}.

Lemma same_tables i t t' :
  same_main t' t -> same_history i t' t /\ forall j, untouched j t t'.
Proof.
  intros (Hi & Hh & Hm & Ho & Hx). split.
  - split; [unfold edits, history_of; by rewrite Hh|unfold masks_of; by rewrite Hm|by rewrite Ho|by apply selects_same].
  - intros j. split; [unfold history_of; by rewrite Hh|unfold masks_of; by rewrite Hm|by rewrite Ho|by rewrite Hi|by rewrite Hx].
Qed.

(** An edit recorded between snapshots is undone and redone, if the undo lists call
    its callback. *)
Lemma recorded_restores i f u c freed (u1 : dt_undo_lt_history_t -> undo_t) filter :
  quiet i u c -> (forall h, Some h ∈ freed -> Some h ∈ (redo_list u ≫= _free_undo_data)) ->
  (forall t, edits_only i t (f t)) -> (forall t, same_main t (now c) -> has_rows i (f t) /\ covered i (f t)) ->
  exists n1 c1 n2 c3,
    let t1 := f (now c1) in
    let hist := Lt_history i n1 (select_history_end i (now c)) n2 (select_history_end i t1) in
    dt_history_snapshot_undo_create i c = (n1, select_history_end i (now c), c1) /\
    same_main (now c1) (now c) /\ (forall j, untouched j (now c) (now c1)) /\
    dt_history_snapshot_undo_create i (on_tables f c1) = (n2, select_history_end i t1, c3) /\
    same_history i (now (free_data freed c3)) t1 /\ (forall j, untouched j t1 (now (free_data freed c3))) /\ begun (free_data freed c3) = None /\
    ((forall w2 w3 imgs imgs',
       (forall disable, dt_history_snapshot_undo_pop None DT_UNDO_LT_HISTORY (Some hist) DT_ACTION_UNDO (free_data freed c3) disable [] = (w2, disable, imgs)) ->
       (forall disable, dt_history_snapshot_undo_pop None DT_UNDO_LT_HISTORY (Some hist) DT_ACTION_REDO w2 disable [] = (w3, disable, imgs')) ->
       exists u2 u3, dt_undo_do_undo (u1 hist) filter (free_data freed c3) = Done (u2, w2, remove_duplicates (g_list_sort _images_list_cmp imgs)) /\
         undo_list u2 = undo_list u /\
         dt_undo_do_redo u2 filter w2 = Done (u3, w3, remove_duplicates (g_list_sort _images_list_cmp imgs')) /\ undo_list u3 = undo_list (u1 hist)) ->
     restores i filter u (u1 hist) c (free_data freed c3)).
Proof.
  intros [Hb Hi Hok Hrows Hcov _ _ _ Hfr] Hfreed Hf Hafter.
  destruct (bracket_spec i f c Hb Hi Hok Hrows Hcov Hf Hafter) as (n1 & c1 & n2 & c3 & Hcr & Hb1 & Hm1 & Hcr2 & Hb3 & Hp1 & Hlt & Hn1 & Hm3 & Hua).
  exists n1, c1, n2, c3. cbv zeta in *.
  destruct (same_tables i _ _ Hm1) as [Hs1 Hu1]. set (t1 := f (now c1)) in *. set (hist := Lt_history _ _ _ _ _) in *.
  destruct (free_data_spec hist (now c) t1 freed c3) as (Hua' & Hbeg & Hm4); [|cbn; lia|done|].
  { intros h Hh He. cbn. rewrite Hn1. apply Hfr; [by apply Hfreed|done]. }
  assert (images (now (free_data freed c3)) = images t1 /\ history (now (free_data freed c3)) = history t1 /\
    masks_history (now (free_data freed c3)) = masks_history t1 /\ orders (now (free_data freed c3)) = orders t1 /\
    history_hash (now (free_data freed c3)) = history_hash t1) as Hm5 by (destruct Hm3, Hm4; intuition congruence).
  destruct (same_tables i _ _ Hm5) as [Hs5 Hu5].
  split_and!; try done; try (by rewrite Hbeg).
  intros Hlists. apply (restores_callback i filter hist t1); [done|exact Hua'|by symmetry|..|exact Hlists].
  intros j Hj. etransitivity; [apply Hu1|]. etransitivity; [by apply Hf|]. apply Hu5.
Qed.

(** What the undo lists are at each call, and what they free. *)
Lemma group_lists hist t1 t2 t3 (u : undo_t) :
  group u = DT_UNDO_NONE -> locked u = false -> disable_next u = false ->
  exists ua ub, dt_undo_start_group u DT_UNDO_LT_HISTORY t1 = (ua, redo_list u ≫= _free_undo_data) /\
    dt_undo_record ua None DT_UNDO_LT_HISTORY (Some hist) (Some dt_history_snapshot_undo_pop) true t2 = (ub, []) /\
    dt_undo_end_group ub t3 = Done (changed_lists dt_history_snapshot_undo_pop DT_UNDO_LT_HISTORY t1 t2 t3 hist u, []).
Proof. destruct u as [ul rl g indent lk dn]. cbn. intros -> -> ->. by eexists _, _. Qed.

(** Deleting the history of an image leaves none; undo brings it back and redo deletes it
    again, and other images keep theirs. *)
Theorem deleting_undo_redo clock i u c filter (Hq : quiet i u c) (Hfilter : Z.land DT_UNDO_LT_HISTORY filter <> 0) :
  exists u1 c1, dt_history_delete_on_image clock i u c = Done (u1, c1) /\
    history_of i (now c1) = [] /\ masks_of i (now c1) = [] /\ orders (now c1) !! i = None /\ select_history_end i (now c1) = 0 /\
    restores i filter u u1 c c1.
Proof.
  destruct clock as [[t1 t2] t3]. pose proof Hq as [_ _ _ _ _ Hg Hl Hd _].
  set (u1 := fun hist => changed_lists dt_history_snapshot_undo_pop DT_UNDO_LT_HISTORY t1 t2 t3 hist u).
  destruct (recorded_restores i (delete_rows i) u c (redo_list u ≫= _free_undo_data) u1 filter Hq) as
    (n1 & c1 & n2 & c3 & Hcr & _ & Hu1 & Hcr2 & Hs3 & Hu3 & _ & Hrest); [done|intros t; apply delete_rows_spec|..].
  { intros t [Him _]. assert (is_Some (images t !! i)) as Hi by (rewrite Him; apply Hq). destruct (delete_rows_spec i t) as (_ & Hh & Hm & Ho & He). specialize (He Hi).
    split; [by intros ?|]. intros _. split_and!; [|done|done]. unfold edits. by rewrite Hh. }
  cbv zeta in *. eexists (u1 _), (free_data _ c3). split.
  - unfold dt_history_delete_on_image, dt_history_delete_on_image_ext. rewrite Hcr. cbv beta iota. rewrite Hcr2. cbv beta iota.
    destruct (group_lists (Lt_history i n1 (select_history_end i (now c)) n2 (select_history_end i (delete_rows i (now c1)))) t1 t2 t3 u Hg Hl Hd)
      as (ua & ub & Hua & Hub & Hend).
    cbn [now on_tables]. rewrite Hua. cbv beta iota. rewrite Hub. cbv beta iota. rewrite Hend. reflexivity.
  - destruct (delete_rows_spec i (now c1)) as (_ & Hh & Hm & Ho & He).
    pose proof (Hu3 i) as [Huh Hum Huo Hui _]. split_and!.
    + by rewrite Huh.
    + by rewrite Hum.
    + by rewrite Huo.
    + unfold select_history_end in *. rewrite Hui. apply He. rewrite (un_columns _ _ _ (Hu1 i)). by apply Hq.
    + apply Hrest. intros w2 w3 imgs imgs' Hu Hr.
      destruct (undo_redo_recorded dt_history_snapshot_undo_pop u filter DT_UNDO_LT_HISTORY t1 t2 t3 _ _ w2 w3 imgs imgs' Hfilter Hu Hr)
        as (u2 & H1 & H2 & H3). by exists u2, (u1 (Lt_history i n1 (select_history_end i (now c)) n2 (select_history_end i (delete_rows i (now c1))))).
Qed.

(** ** Turning an image *)

(** Rows are numbered from 0. *)
Definition nums_ok (i : Z) (t : tables) : Prop := Forall (fun r => forall n, h_num r = Some n -> 0 <= n) (history_of i t).

Lemma next_num_spec i t : nums_ok i t ->
  0 <= next_num i t /\ (forall r n, r ∈ history_of i t -> h_num r = Some n -> n < next_num i t) /\
  MAX ((h_num <$> history_of i t) ++ [Some (next_num i t)]) = Some (next_num i t).
Proof.
  unfold nums_ok. rewrite Forall_forall. intros Hn. set (l := h_num <$> history_of i t).
  assert (forall n, Some n ∈ l -> 0 <= n < next_num i t) as Hlt.
  { intros n Hin. destruct (MAX_ge l n Hin) as (m & Hm & Hle). apply list_elem_of_fmap in Hin as (r & Hr & Hin).
    specialize (Hn r Hin n (eq_sym Hr)). unfold next_num. fold l. rewrite Hm. lia. }
  assert (0 <= next_num i t) as H0.
  { unfold next_num. fold l. destruct (MAX l) as [m|] eqn:E; [|done]. apply MAX_elem in E. apply Hlt in E. lia. }
  split; [done|]. split; [intros r n Hr Hm; apply Hlt, list_elem_of_fmap; by exists r|].
  destruct (MAX_ge (l ++ [Some (next_num i t)]) (next_num i t)) as (m & Hm & Hle); [apply elem_of_app; right; by left|].
  rewrite Hm. apply MAX_elem, elem_of_app in Hm as [Hm|[= ->]%list_elem_of_singleton]; [|done]. apply Hlt in Hm. lia.
Qed.

Lemma nums_ok_same i t t' : same_history i t t' -> nums_ok i t' -> nums_ok i t.
Proof.
  unfold nums_ok. rewrite !Forall_forall. intros Hs Hn r Hr n He. destruct (decide (r = null_row i)) as [->|Hne]; [done|].
  assert (r ∈ edits i t) as Hed by (by apply list_elem_of_filter). rewrite (sh_edits _ _ _ Hs) in Hed.
  apply list_elem_of_filter in Hed as [_ Hin]. by apply (Hn r).
Qed.

Lemma set_flip_spec i o t : nums_ok i t -> is_Some (images t !! i) ->
  let t' := dt_image_set_flip i o t in
  history_of i t' = history_of i t ++ [flip_row i (next_num i t) o] /\ select_history_end i t' = next_num i t + 1.
Proof.
  intros Hn Hi. cbv zeta. unfold dt_image_set_flip. set (t1 := set_history _ t). set (t2 := update_history_end _ _ t1).
  destruct (hash_write_same i DT_HISTORY_HASH_CURRENT t2) as (Hh & _ & _ & Him).
  destruct (next_num_spec i t Hn) as (_ & _ & Hmax).
  assert (history_of i t1 = history_of i t ++ [flip_row i (next_num i t) o]) as Hrows.
  { unfold history_of, t1. cbn [history set_history]. rewrite filter_app. f_equal. by rewrite filter_cons_True. }
  split.
  - unfold history_of at 1. rewrite Hh. exact Hrows.
  - unfold select_history_end. rewrite Him. change (images t2) with (images (update_history_end i (Z.succ <$> MAX (h_num <$> history_of i t1)) t1)).
    pose proof (update_end_selects i (Z.succ <$> MAX (h_num <$> history_of i t1)) t1 Hi) as He. unfold select_history_end in He. rewrite He.
    rewrite Hrows, fmap_app. cbn [fmap list_fmap h_num flip_row]. rewrite Hmax. cbn. lia.
Qed.

Lemma set_flip_edits i o t : edits_only i t (dt_image_set_flip i o t).
Proof.
  unfold dt_image_set_flip. etransitivity; [|apply hash_write_edits]. etransitivity; [|apply update_end_edits].
  split; try done. intros j Hj. split; try done. unfold history_of. cbn [history set_history]. rewrite filter_app.
  rewrite (filter_none _ [_]), app_nil_r; [done|]. intros r ->%list_elem_of_singleton. cbn. congruence.
Qed.

(** The row that is read last is one of the highest number. *)
Lemma last_row_spec l r : last_row l = Some r -> r ∈ l /\ forall r', r' ∈ l -> num_cmp r' r <= 0.
Proof.
  unfold last_row. set (s := g_list_sort _ _). intros Hs.
  assert (s ≡ₚ l) as Hp by (unfold s; rewrite g_list_sort_Permutation; apply scan_Permutation).
  assert (Sorted (fun a b => num_cmp b a <= 0) s) as Hsorted.
  { apply (g_list_sort_adjacent (fun a b => num_cmp b a)). intros a b. unfold num_cmp. destruct (h_num a), (h_num b); lia. }
  destruct s as [|r0 s']; [done|]. injection Hs as ->. split; [rewrite <- Hp; by left|]. intros r' Hr'. rewrite <- Hp in Hr'.
  apply Sorted_StronglySorted in Hsorted.
  - apply StronglySorted_inv in Hsorted as [_ Hall]. apply elem_of_cons in Hr' as [->|Hr'].
    + unfold num_cmp. destruct (h_num r); lia.
    + rewrite Forall_forall in Hall. by apply Hall.
  - intros a b d. unfold num_cmp. destruct (h_num a), (h_num b), (h_num d); lia.
Qed.

Lemma last_row_some l : l <> [] -> is_Some (last_row l).
Proof.
  intros Hl. unfold last_row. assert (g_list_sort (fun a b => num_cmp b a) (scan l) ≡ₚ l) as Hp
    by (rewrite g_list_sort_Permutation; apply scan_Permutation).
  destruct (g_list_sort _ _) as [|r s]; [by apply Permutation_nil_l in Hp|by eexists].
Qed.

(** It is the row of the highest number, when that is one row. *)
Lemma last_row_eq l r : r ∈ l -> (forall r', r' ∈ l -> r' = r \/ num_cmp r' r < 0) -> last_row l = Some r.
Proof.
  intros Hr Hmax. destruct (last_row_some l) as [r0 Hr0]; [by intros ->; apply not_elem_of_nil in Hr|]. rewrite Hr0.
  apply last_row_spec in Hr0 as [Hin Hle]. specialize (Hle r Hr). destruct (Hmax r0 Hin) as [->|Hlt]; [done|].
  unfold num_cmp in *. destruct (h_num r), (h_num r0); lia.
Qed.

Lemma last_row_Permutation l l' : l ≡ₚ l' -> NoDup (h_num <$> l) -> last_row l = last_row l'.
Proof.
  intros Hp Hnd. destruct (last_row l') as [r|] eqn:E.
  - apply last_row_spec in E as [Hin Hle]. rewrite <- Hp in Hin. apply last_row_eq; [done|]. intros r' Hr'.
    pose proof Hr' as Hr2. rewrite Hp in Hr2. specialize (Hle r' Hr2).
    destruct (decide (h_num r' = h_num r)) as [He|Hne]; [left; by apply (NoDup_key h_num l)|right].
    unfold num_cmp in *. destruct (h_num r) as [n|], (h_num r') as [n'|]; try lia; try done.
    assert (n <> n') by congruence. lia.
  - destruct l' as [|r l']; [by apply Permutation_nil_r in Hp as ->|]. destruct (last_row_some (r :: l')) as [? He]; [done|]. congruence.
Qed.

(** The orientation of an image is part of its history. *)
Lemma orientation_same img i t t' : same_history i t' t -> NoDup (h_num <$> history_of i t) ->
  dt_image_get_orientation true img i t' = dt_image_get_orientation true img i t.
Proof.
  intros Hs Hnd. unfold dt_image_get_orientation.
  assert (forall t, filter (fun r => h_operation r = Some "flip") (history_of i t) = filter (fun r => h_operation r = Some "flip") (edits i t)) as He.
  { intros t0. unfold edits. symmetry. apply filter_keeps. by intros r _ Hr ->. }
  rewrite <- (last_row_Permutation (filter (fun r => h_operation r = Some "flip") (history_of i t))
    (filter (fun r => h_operation r = Some "flip") (history_of i t'))); [done| |].
  - rewrite !He. by rewrite (sh_edits _ _ _ Hs).
  - by apply NoDup_fmap_filter.
Qed.

(** Turning by the lighttable is turning by the module, with the directions exchanged. *)
Lemma flipped_rotates cw o img : cw = 0 \/ cw = 1 -> o <> ORIENTATION_NULL -> flipped cw o = do_rotate (1 - cw) o img.
Proof.
  intros Hcw Ho. unfold flipped, do_rotate. rewrite (proj2 (Z.eqb_neq _ _) Ho).
  by destruct Hcw as [-> | ->]; destruct (has ORIENTATION_SWAP_XY o).
Qed.

Lemma flipped_quarter cw o wd ht p : cw = 0 \/ cw = 1 -> is_orientation o ->
  (let (w, h) := turned_size o wd ht in
   turned (flipped cw o) wd ht p = (if cw =? 1 then quarter_ccw else quarter_cw) w h (turned o wd ht p)) /\
  is_orientation (flipped cw o).
Proof.
  intros Hcw Ho. assert (o <> ORIENTATION_NULL) as Hne by (unfold is_orientation, ORIENTATION_NULL in *; lia).
  rewrite (flipped_rotates cw o (dt_image_init [])) by done.
  pose proof (rotated_by_quarter (1 - cw) o (dt_image_init []) wd ht p ltac:(lia) ltac:(by right) ltac:(done)) as Hq.
  cbv zeta in Hq. rewrite (proj2 (Z.eqb_neq _ _) Hne) in Hq. destruct (turned_size o wd ht). destruct Hq as [Hq Hor].
  split; [|done]. rewrite Hq. by destruct Hcw as [-> | ->].
Qed.

Lemma orientation_rows img i t t' : history_of i t' = history_of i t ->
  dt_image_get_orientation true img i t' = dt_image_get_orientation true img i t.
Proof. intros Hr. unfold dt_image_get_orientation. by rewrite Hr. Qed.

(** The new row is the one that is read. *)
Lemma set_flip_orientation img i o t : nums_ok i t -> is_Some (images t !! i) -> is_orientation o \/ o = ORIENTATION_NULL ->
  dt_image_get_orientation true img i (dt_image_set_flip i o t) =
    Done (if o =? ORIENTATION_NULL then dt_image_orientation img else o).
Proof.
  intros Hn Hi Ho. destruct (set_flip_spec i o t Hn Hi) as [Hrows _]. destruct (next_num_spec i t Hn) as (_ & Hlt & _).
  unfold dt_image_get_orientation. rewrite Hrows.
  rewrite (last_row_eq _ (flip_row i (next_num i t) o)).
  - cbn [flip_row h_enabled h_op_params column_int default Z.eqb]. rewrite length_store_s32. cbn [Nat.ltb Nat.leb].
    rewrite take_ge by (by rewrite length_store_s32). rewrite load_store_s32; [done|].
    unfold is_orientation, ORIENTATION_NULL in Ho. lia.
  - apply list_elem_of_filter. split; [done|]. apply elem_of_app. right. by left.
  - intros r [_ Hr]%list_elem_of_filter. apply elem_of_app in Hr as [Hr| ->%list_elem_of_singleton]; [right|by left].
    unfold num_cmp. cbn. destruct (h_num r) as [n|] eqn:E; [|done]. specialize (Hlt r n Hr E). lia.
Qed.

(** C30: with the module flip loaded, turning an image from the lighttable turns the
    orientation that dt_image_get_orientation reads of it, that of the last row of flip
    (whether that edit is undone or not) or else that of the camera, by a quarter,
    counterclockwise for [cw = 1] and clockwise for 0; for 2 it is the camera's again. Undo
    gives back the history, unless its end is 0 while undone edits, masks or a module order
    are stored ([covered]: the snapshot keeps none of these), redo the turned one, and other
    images keep their histories. *)
Theorem flip_turns img clock i cw o u c filter (Hq : quiet i u c) (Hfilter : Z.land DT_UNDO_LT_HISTORY filter <> 0)
    (Hcw : cw = 0 \/ cw = 1 \/ cw = 2) (Hnums : nums_ok i (now c)) (Hnd : NoDup (h_num <$> history_of i (now c)))
    (Hread : dt_image_get_orientation true img i (now c) = Done o) (Ho : is_orientation o)
    (Hperiod : forall y, head (undo_list u) = Some y -> in_period filter clock y = false) :
  exists u1 c1 o1, dt_image_flip true false img clock i cw u c = Done (u1, c1) /\
    dt_image_get_orientation true img i (now c1) = Done o1 /\
    (if cw =? 2 then o1 = dt_image_orientation img
     else forall wd ht p, let (w, h) := turned_size o wd ht in
       turned o1 wd ht p = (if cw =? 1 then quarter_ccw else quarter_cw) w h (turned o wd ht p)) /\
    restores i filter u u1 c c1.
Proof.
  pose proof Hq as [_ Hi _ _ _ _ Hl Hd _].
  set (f := dt_image_set_flip i (flipped cw o)).
  set (u1 := fun hist => Undo (recorded_item dt_history_snapshot_undo_pop DT_UNDO_LT_HISTORY hist clock :: undo_list u) []
                                (group u) (group_indent u) false (disable_next u)).
  destruct (recorded_restores i f u c (redo_list u ≫= _free_undo_data) u1 filter Hq) as
    (n1 & c1 & n2 & c3 & Hcr & Hs1 & Hu1 & Hcr2 & Hs3 & Hu3 & _ & Hrest); [done|intros t; apply set_flip_edits|..].
  { intros t Hm. destruct (same_tables i _ _ Hm) as [Hs _]. assert (is_Some (images t !! i)) as Hit by (rewrite (proj1 Hm); apply Hq). apply nums_ok_same in Hs; [|done]. destruct (set_flip_spec i (flipped cw o) t Hs Hit) as [Hrows Hend].
    destruct (next_num_spec i t Hs) as (H0 & _). fold f in Hrows, Hend. split.
    - intros _. rewrite Hrows. by destruct (history_of i t).
    - intros E. lia. }
  cbv zeta in *. set (hist := Lt_history _ _ _ _ _) in *.
  assert (history_of i (now c1) = history_of i (now c)) as Hrows1 by apply (Hu1 i).
  assert (dt_image_get_orientation true img i (now c1) = Done o) as Hread1 by (by rewrite (orientation_rows _ _ _ _ Hrows1)).
  exists (u1 hist), (free_data (redo_list u ≫= _free_undo_data) c3),
    (if flipped cw o =? ORIENTATION_NULL then dt_image_orientation img else flipped cw o).
  split; [|split; [|split]].
  - unfold dt_image_flip. rewrite Hcr. cbv beta iota. rewrite Hread1. cbn [c_bind]. fold f. rewrite Hcr2. cbv beta iota. fold hist.
    destruct u as [ul rl g indent lk dn]. cbn in Hl, Hd. by subst.
  - rewrite (orientation_rows _ _ _ _ (un_rows _ _ _ (Hu3 i))). apply set_flip_orientation.
    + unfold nums_ok. by rewrite Hrows1.
    + by rewrite (un_columns _ _ _ (Hu1 i)).
    + destruct (Z.eq_dec cw 2) as [->|]; [by right|left].
      by destruct (flipped_quarter cw o 0 0 (0, 0) ltac:(lia) Ho).
  - destruct (Z.eqb_spec cw 2) as [->|Hne]; [done|]. intros wd ht p.
    destruct (flipped_quarter cw o wd ht p ltac:(lia) Ho) as [Hturn Hor].
    rewrite (proj2 (Z.eqb_neq (flipped cw o) ORIENTATION_NULL)) by (unfold is_orientation, ORIENTATION_NULL in *; lia). exact Hturn.
  - apply Hrest. intros w2 w3 imgs imgs' Hu Hr. eexists _, _. split; [|split; [|split]].
    + apply (undo_single (u1 hist) filter DT_ACTION_UNDO (recorded_item dt_history_snapshot_undo_pop DT_UNDO_LT_HISTORY hist clock)
        dt_history_snapshot_undo_pop (undo_list u) _ w2 imgs); [done..|exact Hperiod|exact Hu].
    + done.
    + apply (undo_single (Undo (undo_list u) [recorded_item dt_history_snapshot_undo_pop DT_UNDO_LT_HISTORY hist clock] (group u)
        (group_indent u) false (disable_next u)) filter DT_ACTION_REDO (recorded_item dt_history_snapshot_undo_pop DT_UNDO_LT_HISTORY hist clock)
        dt_history_snapshot_undo_pop [] w2 w3 imgs'); [done..|exact Hr].
    + done.
Qed.

(** C39: the undo of an edit in the lighttable leaves its transaction open when one of its
    statements runs, the restore of the rows, the masks or the end: when the program ends
    before another transaction is committed, the history is the one before the undo,
    although all of the connection sees the restored one. Only if every statement fails it
    commits, and then the history is deleted. *)
Theorem undo_lost_on_close ran hist action c disable imgs (Hb : begun c = None) :
  let snap_id := match action with DT_ACTION_UNDO => before hist | DT_ACTION_REDO => after hist end in
  let history_end := match action with DT_ACTION_UNDO => before_history_end hist | DT_ACTION_REDO => after_history_end hist end in
  let '(c', _, _) := dt_history_snapshot_undo_pop_run ran None DT_UNDO_LT_HISTORY (Some hist) action c disable imgs in
  ((exists s, (s < 3)%nat /\ ran s = true) -> begun c' = Some (now c) /\ close c' = now c) /\
  ((forall s, ran s = true) -> now c' = restore_rows (imgid hist) snap_id history_end (now c)) /\
  ((forall s, ran s = false) -> begun c' = None /\ close c' = delete_rows (imgid hist) (now c)).
Proof.
  cbv zeta.
  set (snap_id := match action with DT_ACTION_UNDO => _ | DT_ACTION_REDO => _ end).
  set (history_end := match action with DT_ACTION_UNDO => before_history_end _ | DT_ACTION_REDO => _ end).
  assert (dt_history_snapshot_undo_pop_run ran None DT_UNDO_LT_HISTORY (Some hist) action c disable imgs =
    (_history_snapshot_undo_restore ran (imgid hist) snap_id history_end c, disable, imgs ++ [imgid hist])) as -> by (by destruct action).
  split_and!.
  - intros Hs. destruct (restore_stays_open ran (imgid hist) snap_id history_end c Hs) as [Hbeg _].
    unfold close. rewrite Hbeg. unfold BEGIN. by rewrite Hb.
  - intros Hs. rewrite (restore_runs ran) by done. cbn [now on_tables]. unfold BEGIN. by rewrite Hb.
  - intros Hs. rewrite restore_fails by done. unfold BEGIN. by rewrite Hb.
Qed.

(** Undo to a history without edits leaves a row of NULLs in main.history. *)
Lemma empty_history_gets_row i n t0 t :
  is_Some (images t !! i) -> select_history_end i t0 = 0 -> has_snapshot i n t0 t ->
  null_row i ∈ history (restore_rows i n 0 t).
Proof.
  intros Hi He Hs. unfold has_snapshot in Hs. rewrite He in Hs. destruct Hs as [Hs _].
  unfold restore_rows. cbv zeta. rewrite insert_orders_eq.
  unfold insert_masks, insert_history. cbn [history set_orders update_history_end set_images set_masks_history set_history].
  apply elem_of_app. right.
  rewrite elem_of_scan. destruct (delete_rows_spec i t) as (Hed & _).
  destruct (snapshots_eq i n t (delete_rows i t)) as (-> & _); [apply Hed..|]. rewrite Hs. by left.
Qed.

End snapshots.

Module Example.

#[local] Instance rows_in_order : RowOrder := {| scan A l := l; scan_Permutation A l := reflexivity l |}.

Definition digest (b : blob) : blob := take 16 b.

Definition exposure (num : Z) (params : list nat) : history_row :=
  History_row 7 (Some num) (Some 5) (Some "exposure"%string) (Some (ascii_of_nat <$> params)) (Some 1) None (Some 8) (Some 0) (Some ""%string).

(** An image with two edits, the second of which is undone, and one without. *)
Definition stored : tables :=
  Tables {[ 7 := Image_columns (Some 1) (S754_zero false); 8 := Image_columns None (S754_zero false) ]}
    [exposure 0 [1; 2]%nat; exposure 1 [3]%nat] [] {[ 7 := IopOrder.Row 2 None ]} ∅ [] [] [].

Definition camera : dt_image_t := dt_image_init [].
Definition connected : connection := Connection stored None.
Definition no_undo : dt_undo_t connection unit dt_undo_lt_history_t := dt_undo_init.

Lemma connected_quiet i : i = 7 \/ i = 8 -> quiet i no_undo connected.
Proof.
  intros Hi. split; try done.
  - destruct Hi as [-> | ->]; by eexists.
  - split; intros r Hr; by apply not_elem_of_nil in Hr.
  - destruct Hi as [-> | ->]; intros He; [discriminate|by exfalso; apply He].
  - destruct Hi as [-> | ->]; intros He; [by vm_compute in He|by vm_compute].
  - intros h Hh. by apply not_elem_of_nil in Hh.
Qed.

Lemma deleting_undo_redo_witness :
  exists u1 c1, dt_history_delete_on_image digest (1, 2, 3) 7 no_undo connected = Done (u1, c1) /\
    history_of 7 (now c1) = [] /\ masks_of 7 (now c1) = [] /\ orders (now c1) !! 7 = None /\ select_history_end 7 (now c1) = 0 /\
    restores 7 DT_UNDO_LIGHTTABLE no_undo u1 connected c1.
Proof. apply (deleting_undo_redo digest (1, 2, 3) 7 no_undo connected DT_UNDO_LIGHTTABLE); [apply connected_quiet; by left|done]. Defined.

Lemma flip_turns_witness :
  exists u1 c1 o1, dt_image_flip digest true false camera 5 7 1 no_undo connected = Done (u1, c1) /\
    dt_image_get_orientation true camera 7 (now c1) = Done o1 /\
    (if 1 =? 2 then o1 = dt_image_orientation camera
     else forall wd ht p, let (w, h) := turned_size 0 wd ht in
       turned o1 wd ht p = (if 1 =? 1 then quarter_ccw else quarter_cw) w h (turned 0 wd ht p)) /\
    restores 7 DT_UNDO_LIGHTTABLE no_undo u1 connected c1.
Proof.
  apply (flip_turns digest camera 5 7 1 0 no_undo connected DT_UNDO_LIGHTTABLE); try done.
  - apply connected_quiet. by left.
  - by right; left.
  - repeat constructor; intros n [= <-]; lia.
  - apply (bool_decide_unpack _). vm_compute. done.
Defined.

(** The second statement fails. *)
Definition masks_fail : runs := fun s => negb (s =? 1)%nat.

Lemma undo_lost_on_close_witness :
  let '(c', _, _) := dt_history_snapshot_undo_pop_run digest masks_fail None DT_UNDO_LT_HISTORY (Some (Lt_history 7 1 1 2 0))
                       DT_ACTION_UNDO connected false [] in
  ((exists s, (s < 3)%nat /\ masks_fail s = true) -> begun c' = Some (now connected) /\ close c' = now connected) /\
  ((forall s, masks_fail s = true) -> now c' = restore_rows digest 7 1 1 (now connected)) /\
  ((forall s, masks_fail s = false) -> begun c' = None /\ close c' = delete_rows digest 7 (now connected)).
Proof. apply (undo_lost_on_close digest masks_fail (Lt_history 7 1 1 2 0) DT_ACTION_UNDO connected false []). reflexivity. Defined.

(** Turning an image brings its undone edits back. *)
Example flip_revives_undone :
  select_history_end 7 stored = 1 /\ select_history_end 7 (dt_image_set_flip digest 7 5 stored) = 3 /\
  (h_num <$> history_of 7 (dt_image_set_flip digest 7 5 stored)) = [Some 0; Some 1; Some 2].
Proof. vm_compute. done. Qed.

(** The first snapshot has the number 1, so that [before] is never 0 and no snapshot of the
    state before an edit is freed. *)
Example first_snapshot_number : (dt_history_snapshot_undo_create 7 connected).1.1 = 1.
Proof. reflexivity. Qed.

End Example.
