(* ===== verification/Compress.v ===== *)
(** Compressing, truncating and copying stored histories: the functions of
    common/history.c that work on the tables of [StoredHistory].

    The tag that marks images whose history could not be compressed, sidecar files and
    signals are left out, as in [Snapshots]. *)

From Stdlib Require Import Ascii String SpecFloat.
From S2P Require Import Prelude Undo IopOrder Library Attributes StoredHistory Snapshots.
Local Open Scope Z_scope.

Definition op_mask_manager : string := "mask_manager".

(** [x NOT IN (...)] is not true when a NULL makes it unknown. *)
Definition sql_not_in {A} `{EqDecision A} (x : option A) (l : list (option A)) : bool :=
  match l, x with
  | [], _ => true
  | _, None => false
  | _, Some _ => bool_decide (x ∉ l) && bool_decide (None ∉ l)
  end.

(** The columns of GROUP BY. *)
Definition key (r : history_row) : option string * option Z := (h_operation r, h_multi_priority r).

Definition below (n : Z) (num : option Z) : bool := num_is (fun k => k <? n) num.

Abbreviation undo_t := (dt_undo_t connection unit dt_undo_lt_history_t).

Section compress.
Context (md5 : blob -> blob) `{RowOrder}.

Definition dt_history_end_attop (imgid : Z) (t : tables) : Z :=
  let size := column_int (MAX (h_num <$> history_of imgid t)) in
  let history_end := select_history_end imgid t in
  if (size =? 0) && (history_end =? 0) then -1 else if history_end >? size then 1 else 0.

(** SELECT MAX(num) ... AND num < ?2 GROUP BY operation, multi_priority *)
Definition group_maxima (imgid history_end : Z) (t : tables) : list (option Z) :=
  let rows := filter (fun r => below history_end (h_num r) = true) (history_of imgid t) in
  (fun r => MAX (h_num <$> filter (fun r' => key r' = key r) rows)) <$> rows.

Definition delete_superseded (imgid history_end : Z) (t : tables) : tables :=
  let kept := group_maxima imgid history_end t in
  set_history (filter (fun r => ~ (h_imgid r = imgid /\ sql_not_in (h_num r) kept = true)) (history t)) t.

Definition delete_managers (imgid : Z) (t : tables) : tables :=
  set_history (filter (fun r => ~ (h_imgid r = imgid /\ h_operation r = Some op_mask_manager)) (history t)) t.

Definition delete_old_masks (imgid history_end : Z) (t : tables) : tables :=
  let last := MAX (m_num <$> filter (fun r => below history_end (m_num r) = true) (masks_of imgid t)) in
  set_masks_history (filter (fun r => ~ (m_imgid r = imgid /\ sql_not_in (m_num r) [last] = true)) (masks_history t)) t.

(** UPDATE main.history SET num = ... *)
Definition update_nums (imgid : Z) (f : option Z -> option Z) (t : tables) : tables :=
  set_history ((fun r => if decide (h_imgid r = imgid) then h_set_num (f (h_num r)) r else r) <$> history t) t.

Definition manager_row (imgid : Z) : history_row :=
  History_row imgid (Some 0) (Some 1) (Some op_mask_manager) None (Some 0) None (Some 0) (Some 0) (Some "").

Definition manager_at_0 (imgid : Z) (t : tables) : bool :=
  bool_decide (length (filter (fun r => h_operation r = Some op_mask_manager /\ h_num r = Some 0) (history_of imgid t)) = 1%nat).

Definition compress_rows (imgid history_end : Z) (t : tables) : tables :=
  let manager_position := manager_at_0 imgid t in
  let t := delete_superseded imgid history_end t in
  let t := delete_managers imgid t in
  let t := delete_old_masks imgid history_end t in
  match masks_of imgid t with
  | [] => t
  | _ =>
      let t := set_masks_history ((fun r => if decide (m_imgid r = imgid) then m_set_num (Some 0) r else r) <$> masks_history t) t in
      let t := if manager_position then t
               else
                 let t := update_nums imgid (fmap Z.succ) t in
                 update_history_end imgid (Z.succ <$> (images t !! imgid ≫= c_history_end)) t in
      set_history (history t ++ [manager_row imgid]) t
  end.

Definition dt_history_compress_on_image (clock : Z * Z * Z) (imgid : Z) (u : undo_t) (c : connection) : c_result (undo_t * connection) :=
  let my_history_end := select_history_end imgid (now c) in
  if my_history_end =? 0 then dt_history_delete_on_image md5 clock imgid u c
  else
    let c := on_tables (compress_rows imgid my_history_end) (BEGIN c) in
    Done (u, COMMIT (on_tables (dt_history_hash_write_from_history md5 imgid DT_HISTORY_HASH_CURRENT) c)).

Definition truncate_rows (imgid history_end : Z) (t : tables) : tables :=
  let t := set_history (filter (fun r => ~ (h_imgid r = imgid /\ num_is (fun n => n >=? history_end) (h_num r) = true)) (history t)) t in
  let t := set_masks_history (filter (fun r => ~ (m_imgid r = imgid /\ num_is (fun n => n >=? history_end) (m_num r) = true)) (masks_history t)) t in
  update_history_end imgid (Some history_end) t.

Definition dt_history_truncate_on_image (clock : Z * Z * Z) (imgid history_end : Z) (u : undo_t) (c : connection)
    : c_result (undo_t * connection) :=
  if history_end =? 0 then dt_history_delete_on_image md5 clock imgid u c
  else
    let c := on_tables (truncate_rows imgid history_end) (BEGIN c) in
    Done (u, COMMIT (on_tables (dt_history_hash_write_from_history md5 imgid DT_HISTORY_HASH_CURRENT) c)).

(** The loop over the numbers from [index] on. *)
Fixpoint renumber (n : nat) (imgid index done : Z) (t : tables) : Z * tables :=
  match n with
  | O => (done, t)
  | S n =>
      if bool_decide (Some index ∈ (h_num <$> history_of imgid t))
      then renumber n imgid (index + 1) (done + 1)
             (update_nums imgid (fun num => if decide (num = Some index) then Some done else num) t)
      else renumber n imgid (index + 1) done t
  end.

(** Renumbering and the new end. *)
Definition renumber_rows (imgid : Z) (t : tables) : tables :=
  let max := column_int (MAX (h_num <$> history_of imgid t)) in
  let size := Z.of_nat (length (history_of imgid t)) in
  let (done, t) := if (size >? 0) && (max >? 0) then renumber (Z.to_nat (max + 1)) imgid 0 0 t else (0, t) in
  update_history_end imgid (Some done) t.

Definition hash_current (imgid : Z) : connection -> connection :=
  on_tables (dt_history_hash_write_from_history md5 imgid DT_HISTORY_HASH_CURRENT).

(** With the number of images that could not be compressed. *)
Fixpoint dt_history_compress_on_list (clock : Z * Z * Z) (imgs : list Z) (u : undo_t) (c : connection) : c_result (Z * undo_t * connection) :=
  match imgs with
  | [] => Done (0, u, c)
  | imgid :: imgs =>
      let test := dt_history_end_attop imgid (now c) in
      let* (u, c) :=
        if test =? 1 then
          let* (u, c) := dt_history_compress_on_image clock imgid u c in
          Done (u, on_tables (renumber_rows imgid) c)
        else Done (u, c) in
      let* (uncompressed, u, c) := dt_history_compress_on_list clock imgs u (hash_current imgid c) in
      Done ((if test =? 0 then 1 else 0) + uncompressed, u, c)
  end.

Definition dt_history_check_module_exists (imgid : Z) (operation : string) (t : tables) : bool :=
  bool_decide (filter (fun r => h_operation r = Some operation) (history_of imgid t) <> []).

(** ** Copying *)

(** [skip]: the operations that are not to be copied. *)
Definition _history_copy_and_paste_on_image_overwrite (imgid dest_imgid : Z) (skip : list string) (t : tables) : tables :=
  let t := delete_history dest_imgid t in
  let t := delete_masks dest_imgid t in
  let t := set_images (alter (fun _ => Image_columns (Some 0) (S754_zero false)) dest_imgid (images t)) t in
  let skip := Some <$> match skip with [] => ["@"%string] | _ => skip end in
  let copied := by_num (scan (filter (fun r => sql_not_in (h_operation r) skip = true) (history_of imgid t))) in
  let t := set_history (history t ++ (h_set_imgid dest_imgid <$> copied)) t in
  let skipped := h_num <$> filter (fun r => h_operation r ∈ skip) (history_of imgid t) in
  let masks := scan (filter (fun r => sql_not_in (m_num r) skipped = true) (masks_of imgid t)) in
  let t := set_masks_history (masks_history t ++ (m_set_imgid dest_imgid <$> masks)) t in
  let t := update_history_end dest_imgid (Some (select_history_end imgid t)) t in
  let t := set_orders (match orders t !! imgid with Some r => <[dest_imgid := r]> (orders t) | None => orders t end) t in
  set_history_hash
    (let hashes := delete dest_imgid (history_hash t) in
     match hashes !! imgid with
     | Some r => <[dest_imgid := Hash_row (basic_hash r) (auto_hash r) (current_hash r) None]> hashes
     | None => hashes
     end) t.

(** dt_ioppr_write_iop_order_list of the list of the source; writing succeeds. *)
Definition copy_order (copy_iop_order : bool) (imgid dest_imgid : Z) (t : tables) : c_result tables :=
  if copy_iop_order then
    let* l := dt_ioppr_get_iop_order_list (orders t) imgid false in
    let* (_, o) := dt_ioppr_write_iop_order_list (fun _ => true) l dest_imgid (orders t) in
    Done (set_orders o t)
  else Done t.

(** Without [merge] and [ops]. *)
Definition dt_history_copy_and_paste_on_image (clock : Z * Z * Z) (imgid dest_imgid : Z) (copy_iop_order : bool) (skip : list string)
    (u : undo_t) (c : connection) : c_result (Z * undo_t * connection) :=
  if imgid =? dest_imgid then Done (1, u, c)
  else if imgid =? -1 then Done (1, u, c)
  else
    let '(t1, t2, t3) := clock in
    let '(before, before_end, c) := dt_history_snapshot_undo_create dest_imgid c in
    let* t := copy_order copy_iop_order imgid dest_imgid (now c) in
    let c := Connection (_history_copy_and_paste_on_image_overwrite imgid dest_imgid skip t) (begun c) in
    let '(after, after_end, c) := dt_history_snapshot_undo_create dest_imgid c in
    let (u, freed1) := dt_undo_start_group u DT_UNDO_LT_HISTORY t1 in
    let (u, freed2) := dt_undo_record u None DT_UNDO_LT_HISTORY (Some (Lt_history dest_imgid before before_end after after_end))
                         (Some (dt_history_snapshot_undo_pop md5)) true t2 in
    let* (u, freed3) := dt_undo_end_group u t3 in
    Done (0, u, free_data freed3 (free_data freed2 (free_data freed1 c))).

(** ** The history of an image as a list *)

Definition num_of (r : history_row) : Z := default 0 (h_num r).

(** The rows of an image, in their order. *)
Record is_history (i : Z) (t : tables) (l : list history_row) : Prop := Is_history {
  ih_rows : history_of i t ≡ₚ l;
  ih_nums : Forall (fun r => is_Some (h_num r) /\ 0 <= num_of r) l;
  ih_sorted : StronglySorted (fun a b => num_of a < num_of b) l;
}.

(** The edits that are on. *)
Definition upto (history_end : Z) (l : list history_row) : list history_row :=
  filter (fun r => below history_end (h_num r) = true) l.

(** The last edit of each module instance. *)
Fixpoint lasts (l : list history_row) : list history_row :=
  match l with
  | [] => []
  | r :: l => if decide (Exists (fun r' => key r' = key r) l) then lasts l else r :: lasts l
  end.

Definition last_edit (k : option string * option Z) (l : list history_row) : option history_row := last (filter (fun r => key r = k) l).

(** What the compression keeps of a history. *)
Definition kept_edits (history_end : Z) (l : list history_row) : list history_row :=
  filter (fun r => h_operation r <> Some op_mask_manager) (lasts (upto history_end l)).

Lemma num_of_eq r : is_Some (h_num r) -> h_num r = Some (num_of r).
Proof. by intros [n Hn]; unfold num_of; rewrite Hn. Qed.

Lemma lasts_elem l r : r ∈ lasts l -> r ∈ l.
Proof. induction l as [|x l IH]; [done|]. cbn [lasts]. case_decide; rewrite ?elem_of_cons; naive_solver. Qed.

Lemma lasts_keys l : NoDup (key <$> lasts l).
Proof.
  induction l as [|x l IH]; [constructor|]. cbn [lasts]. case_decide as Hx; [done|]. cbn. apply NoDup_cons. split; [|done].
  intros (r & Hk & Hr%lasts_elem)%list_elem_of_fmap. apply Hx, Exists_exists. by exists r.
Qed.

Lemma last_edit_cons k r l : last_edit k (r :: l) =
  match last_edit k l with Some r' => Some r' | None => if decide (key r = k) then Some r else None end.
Proof.
  unfold last_edit. rewrite filter_cons. case_decide as Hk; [|by destruct (last _)].
  rewrite last_cons. by destruct (last _).
Qed.

Lemma last_edit_None k l : last_edit k l = None <-> ~ Exists (fun r => key r = k) l.
Proof.
  unfold last_edit. rewrite last_None, Exists_exists. split.
  - intros He (r & Hr & Hk). assert (r ∈ filter (fun r => key r = k) l) as Hin by (by apply list_elem_of_filter).
    rewrite He in Hin. by apply not_elem_of_nil in Hin.
  - intros Hn. apply filter_none. intros r Hr Hk. apply Hn. by exists r.
Qed.

Lemma lasts_last_edit k l : last_edit k (lasts l) = last_edit k l.
Proof.
  induction l as [|r l IH]; [done|]. cbn [lasts]. rewrite last_edit_cons. case_decide as Hr.
  - rewrite IH. destruct (last_edit k l) eqn:E; [done|]. case_decide as Hk; [|done]. subst. by apply last_edit_None in E.
  - rewrite last_edit_cons, IH. done.
Qed.

Lemma last_edit_filter (P : history_row -> Prop) `{!forall r, Decision (P r)} k l :
  (forall r, key r = k -> P r) -> last_edit k (filter P l) = last_edit k l.
Proof. intros HP. unfold last_edit. by rewrite filter_keeps by auto. Qed.

Lemma kept_last_edit k e l : fst k <> Some op_mask_manager -> last_edit k (kept_edits e l) = last_edit k (upto e l).
Proof.
  intros Hk. unfold kept_edits. rewrite last_edit_filter; [apply lasts_last_edit|]. intros r <-. exact Hk.
Qed.

Lemma last_edit_fmap (f : history_row -> history_row) k l :
  (forall r, key (f r) = key r) -> last_edit k (f <$> l) = f <$> last_edit k l.
Proof.
  intros Hf. induction l as [|r l IH]; [done|]. rewrite fmap_cons, !last_edit_cons, IH, Hf. destruct (last_edit k l); [done|]. by case_decide.
Qed.

(** ** Compression *)

Lemma sorted_filter (P : history_row -> Prop) `{!forall r, Decision (P r)} l :
  StronglySorted (fun a b => num_of a < num_of b) l -> StronglySorted (fun a b => num_of a < num_of b) (filter P l).
Proof.
  induction 1 as [|r l Hl IH Hr]; [constructor|]. rewrite filter_cons. case_decide; [|done]. constructor; [done|].
  apply Forall_forall. intros r' [_ Hr']%list_elem_of_filter. rewrite Forall_forall in Hr. by apply Hr.
Qed.

Lemma sorted_num_inj l r r' : StronglySorted (fun a b => num_of a < num_of b) l -> r ∈ l -> r' ∈ l -> num_of r = num_of r' -> r = r'.
Proof.
  induction 1 as [|x l Hl IH Hx]; [by intros ?%not_elem_of_nil|]. rewrite !elem_of_cons; rewrite Forall_forall in Hx.
  intros [-> | Hr] [-> | Hr'] He; [done| | |by apply IH].
  - specialize (Hx _ Hr'). cbn in Hx. lia.
  - specialize (Hx _ Hr). cbn in Hx. lia.
Qed.

(** In a history, the last edit of an instance is the one of the highest number. *)
Lemma lasts_filter l : StronglySorted (fun a b => num_of a < num_of b) l ->
  lasts l = filter (fun r => Forall (fun r' => key r' = key r -> num_of r' <= num_of r) l) l.
Proof.
  induction 1 as [|x l Hl IH Hx]; [done|]. cbn [lasts]. rewrite Forall_forall in Hx.
  assert (filter (fun r => Forall (fun r' => key r' = key r -> num_of r' <= num_of r) (x :: l)) l = lasts l) as Htail.
  { rewrite IH. apply filter_elem_ext. intros r Hr. rewrite Forall_cons. split; [tauto|]. intros HF. split; [|done].
    intros _. specialize (Hx r Hr). cbn in Hx. lia. }
  rewrite filter_cons. destruct (decide (Exists (fun r' => key r' = key x) l)) as [He|He], (decide (Forall (fun r' => key r' = key x -> num_of r' <= num_of x) (x :: l))) as [HF|HF].
  - exfalso. apply Exists_exists in He as (r & Hr & Hk). rewrite Forall_cons, Forall_forall in HF. destruct HF as [_ HF].
    specialize (HF r Hr Hk). specialize (Hx r Hr). cbn in Hx. lia.
  - done.
  - by rewrite Htail.
  - exfalso. apply HF. apply Forall_cons. split; [lia|]. apply Forall_forall. intros r Hr Hk. exfalso. apply He, Exists_exists. by exists r.
Qed.

Lemma is_history_filter (P : history_row -> Prop) `{!forall r, Decision (P r)} i t t' l :
  is_history i t l -> history_of i t' = filter P (history_of i t) -> is_history i t' (filter P l).
Proof.
  intros [Hr Hn Hs] He. split.
  - by rewrite He, Hr.
  - apply Forall_forall. intros r [_ Hin]%list_elem_of_filter. rewrite Forall_forall in Hn. by apply Hn.
  - by apply sorted_filter.
Qed.

Lemma group_maxima_spec i e t l : is_history i t l -> forall r, r ∈ l ->
  h_num r ∈ group_maxima i e t <->
  r ∈ upto e l /\ Forall (fun r' => key r' = key r -> num_of r' <= num_of r) (upto e l).
Proof.
  intros [Hr Hn Hs] r Hrl. unfold group_maxima. set (rows := filter _ (history_of i t)).
  assert (rows ≡ₚ upto e l) as Hp by (unfold rows, upto; by rewrite Hr). rewrite Forall_forall in Hn.
  assert (forall x, x ∈ upto e l -> x ∈ l) as Hup by (by intros x [_ Hx]%list_elem_of_filter).
  rewrite list_elem_of_fmap. split.
  - intros (r0 & Hmax & Hr0). rewrite (num_of_eq r) in Hmax by (by apply Hn). symmetry in Hmax.
    apply MAX_elem in Hmax as Hin. apply list_elem_of_fmap in Hin as (r1 & Hr1 & [Hk1 Hin1]%list_elem_of_filter).
    rewrite Hp in Hin1. assert (r1 = r) as ->.
    { apply (sorted_num_inj l); [done|by apply Hup|done|]. destruct (Hn r1 (Hup _ Hin1)) as [Hs1 _]. rewrite (num_of_eq r1 Hs1) in Hr1. congruence. }
    split; [done|]. apply Forall_forall. intros r' Hr' Hk'. destruct (Hn r' (Hup _ Hr')) as [Hs' _].
    destruct (MAX_ge (h_num <$> filter (fun r' => key r' = key r0) rows) (num_of r')) as (m & Hm & Hle).
    + apply list_elem_of_fmap. exists r'. split; [symmetry; by apply num_of_eq|]. apply list_elem_of_filter. rewrite Hp. split; [congruence|done].
    + rewrite Hmax in Hm. by injection Hm as <-.
  - intros [Hin HF]. exists r. split; [|by rewrite Hp]. rewrite Forall_forall in HF.
    destruct (Hn r Hrl) as [Hsr _].
    destruct (MAX_ge (h_num <$> filter (fun r' => key r' = key r) rows) (num_of r)) as (m & Hm & Hle).
    { apply list_elem_of_fmap. exists r. split; [symmetry; by apply num_of_eq|]. apply list_elem_of_filter. by rewrite Hp. }
    rewrite Hm, (num_of_eq r Hsr). f_equal. apply MAX_elem, list_elem_of_fmap in Hm as (r' & Hr' & [Hk' Hin']%list_elem_of_filter).
    rewrite Hp in Hin'. specialize (HF r' Hin' Hk'). destruct (Hn r' (Hup _ Hin')) as [Hs' _]. rewrite (num_of_eq r' Hs') in Hr'. injection Hr' as ->. lia.
Qed.

Lemma superseded_spec i e t l : is_history i t l -> is_history i (delete_superseded i e t) (lasts (upto e l)).
Proof.
  intros Hh. pose proof Hh as [Hr Hn Hs]. rewrite Forall_forall in Hn.
  assert (lasts (upto e l) = filter (fun r => sql_not_in (h_num r) (group_maxima i e t) = false) l) as ->.
  { rewrite lasts_filter by (by apply sorted_filter). 
    etransitivity; [apply (list_filter_filter _ (fun r => below e (h_num r) = true))|].
    apply filter_elem_ext. intros r Hrl.
    transitivity (r ∈ upto e l /\ Forall (fun r' => key r' = key r -> num_of r' <= num_of r) (upto e l)).
    { assert (r ∈ upto e l <-> below e (h_num r) = true /\ r ∈ l) as ->
        by (unfold upto; by rewrite list_elem_of_filter). tauto. }
    rewrite <- (group_maxima_spec i e t l Hh r Hrl). destruct (Hn r Hrl) as [Hsr _]. rewrite (num_of_eq r Hsr).
    assert (None ∉ group_maxima i e t) as Hnone.
    { intros (r0 & Hmax & Hr0)%list_elem_of_fmap. pose proof Hr0 as [Hb Hin0]%list_elem_of_filter. rewrite Hr in Hin0.
      destruct (Hn r0 Hin0) as [[n Hnum] _].
      destruct (MAX_ge (h_num <$> filter (fun r' => key r' = key r0) (filter (fun r => below e (h_num r) = true) (history_of i t))) n)
        as (m & Hm & _); [|congruence]. apply list_elem_of_fmap. exists r0. split; [done|]. by apply list_elem_of_filter. }
    unfold sql_not_in. destruct (group_maxima i e t) as [|m ms]; [split; [by intros ?%not_elem_of_nil|done]|].
    rewrite (bool_decide_eq_true_2 _ Hnone), andb_true_r, bool_decide_eq_false. split; [tauto|]. apply dec_stable. }
  apply (is_history_filter _ i t); [done|]. unfold history_of, delete_superseded. cbn [history set_history].
  rewrite !list_filter_filter. apply filter_elem_ext. intros r _. destruct (sql_not_in _ _); naive_solver.
Qed.

Lemma managers_spec i t l : is_history i t l ->
  is_history i (delete_managers i t) (filter (fun r => h_operation r <> Some op_mask_manager) l).
Proof.
  intros Hh. apply (is_history_filter _ i t); [done|]. unfold history_of, delete_managers. cbn [history set_history].
  rewrite !list_filter_filter. apply filter_elem_ext. naive_solver.
Qed.

(** The masks that the compression keeps. *)
Definition newest_masks (history_end : Z) (l : list masks_row) : list masks_row :=
  filter (fun r => sql_not_in (m_num r) [MAX (m_num <$> filter (fun r => below history_end (m_num r) = true) l)] = false) l.

Lemma old_masks_eq i e t : masks_of i (delete_old_masks i e t) = newest_masks e (masks_of i t).
Proof.
  unfold delete_old_masks, newest_masks. set (sub := [MAX _]). unfold masks_of. cbn [masks_history set_masks_history].
  rewrite !list_filter_filter. apply filter_elem_ext. intros r _. destruct (sql_not_in _ _); naive_solver.
Qed.

(** Masks never vanish as a whole: those below the end keep the last, and without any
    the comparison with NULL keeps all. *)
Lemma old_masks_some i e t : masks_of i (delete_old_masks i e t) = [] <-> masks_of i t = [].
Proof.
  rewrite old_masks_eq. unfold newest_masks.
  split; [|by intros ->]. intros Hnone. destruct (masks_of i t) as [|r0 ms] eqn:Em; [done|]. exfalso. rewrite <- Em in *.
  destruct (MAX (m_num <$> filter (fun r => below e (m_num r) = true) (masks_of i t))) as [m|] eqn:E.
  - apply MAX_elem, list_elem_of_fmap in E as (r & Hr & [_ Hin]%list_elem_of_filter).
    assert (r ∈ filter (fun r => sql_not_in (m_num r) [Some m] = false) (masks_of i t)) as Hf.
    { apply list_elem_of_filter. split; [|done]. rewrite <- Hr. cbn. rewrite bool_decide_eq_false_2; [done|]. intros Hn. apply Hn. by left. }
    rewrite Hnone in Hf. by apply not_elem_of_nil in Hf.
  - assert (r0 ∈ filter (fun r => sql_not_in (m_num r) [None] = false) (masks_of i t)) as Hf.
    { apply list_elem_of_filter. split; [|rewrite Em; by left]. cbn. destruct (m_num r0); [|done].
      rewrite (bool_decide_eq_false_2 (None ∉ [None])), andb_false_r; [done|]. intros Hn. apply Hn. by left. }
    rewrite Hnone in Hf. by apply not_elem_of_nil in Hf.
Qed.

Definition shifted (r : history_row) : history_row := h_set_num (Z.succ <$> h_num r) r.

(** The history after the compression: the kept edits, behind a mask manager if the image
    has masks. *)
Definition compressed (i e : Z) (t : tables) (l : list history_row) : list history_row :=
  match masks_of i t with
  | [] => kept_edits e l
  | _ => manager_row i :: (if manager_at_0 i t then kept_edits e l else shifted <$> kept_edits e l)
  end.

Lemma update_nums_rows i f t : history_of i (update_nums i f t) = (fun r => h_set_num (f (h_num r)) r) <$> history_of i t.
Proof.
  unfold history_of, update_nums. cbn [history set_history]. induction (history t) as [|r l IH]; [done|]. rewrite fmap_cons.
  destruct (decide (h_imgid r = i)) as [E|E].
  - rewrite !filter_cons_True by done. by rewrite fmap_cons, IH.
  - by rewrite !filter_cons_False.
Qed.

Lemma insert_manager i t l : is_history i t l -> Forall (fun r => 0 < num_of r) l ->
  is_history i (set_history (history t ++ [manager_row i]) t) (manager_row i :: l).
Proof.
  intros [Hr Hn Hs] Hpos. split.
  - unfold history_of. cbn [history set_history]. rewrite filter_app, filter_cons_True, filter_nil by done.
    unfold history_of in Hr. rewrite Hr. symmetry. apply Permutation_cons_append.
  - constructor; [split; [by eexists|done]|done].
  - constructor; [done|]. by apply Forall_impl with (1 := Hpos).
Qed.

Lemma shifted_history i t l : is_history i t l -> is_history i (update_nums i (fmap Z.succ) t) (shifted <$> l).
Proof.
  intros [Hr Hn Hs]. rewrite Forall_forall in Hn. assert (forall r, r ∈ l -> num_of (shifted r) = num_of r + 1) as Hnum.
  { intros r Hrl. destruct (Hn r Hrl) as [[n E] _]. unfold shifted, num_of. cbn. by rewrite E. }
  split.
  - by rewrite update_nums_rows, Hr.
  - apply Forall_forall. intros r (r0 & -> & Hr0)%list_elem_of_fmap. rewrite Hnum by done. destruct (Hn r0 Hr0) as [[n E] ?].
    split; [|lia]. unfold shifted. cbn. rewrite E. by eexists.
  - clear Hr. induction Hs as [|r l Hl IH Hrl]; [constructor|]. rewrite fmap_cons. constructor.
    + apply IH; intros r' Hr'; [apply Hn|apply Hnum]; by right.
    + apply Forall_forall. intros r' (r0 & -> & Hr0)%list_elem_of_fmap. rewrite Forall_forall in Hrl. specialize (Hrl r0 Hr0).
      rewrite !Hnum; [cbn in Hrl; lia|by right|by left].
Qed.

Lemma kept_elem e l r : r ∈ kept_edits e l -> r ∈ l /\ h_operation r <> Some op_mask_manager.
Proof. intros [Ho Hr%lasts_elem]%list_elem_of_filter. split; [|done]. by apply list_elem_of_filter in Hr as [_ ?]. Qed.

Lemma compress_rows_spec i e t l : is_history i t l -> is_history i (compress_rows i e t) (compressed i e t l).
Proof.
  intros Hh. unfold compress_rows, compressed. cbv zeta.
  pose proof (superseded_spec i e t l Hh) as H1. set (t1 := delete_superseded i e t) in *.
  pose proof (managers_spec i t1 _ H1) as H2. set (t2 := delete_managers i t1) in *. fold (kept_edits e l) in H2.
  assert (is_history i (delete_old_masks i e t2) (kept_edits e l)) as H3 by (by destruct H2).
  assert (masks_of i (delete_old_masks i e t2) = [] <-> masks_of i t = []) as Hm by exact (old_masks_some i e t2).
  set (t3 := delete_old_masks i e t2) in *.
  destruct (masks_of i t3) as [|m ms] eqn:Em, (masks_of i t) as [|m' ms'] eqn:Em'; [done|by destruct Hm as [Hm _]; discriminate Hm|
    by destruct Hm as [_ Hm]; discriminate Hm|].
  set (t4 := set_masks_history _ t3). assert (is_history i t4 (kept_edits e l)) as H4 by (by destruct H3).
  destruct Hh as [Hr Hn Hs]. rewrite Forall_forall in Hn. destruct (manager_at_0 i t) eqn:Ema.
  - apply insert_manager; [done|]. apply Forall_forall. intros r [Hrl Ho]%kept_elem. destruct (Hn r Hrl) as [Hsr H0].
    destruct (decide (num_of r = 0)) as [E|]; [exfalso|lia]. apply bool_decide_eq_true in Ema.
    destruct (filter _ (history_of i t)) as [|r0 [|? ?]] eqn:Ef; [done| |done].
    assert (r0 ∈ filter (fun r => h_operation r = Some op_mask_manager /\ h_num r = Some 0) (history_of i t)) as Hin by (rewrite Ef; by left).
    apply list_elem_of_filter in Hin as [[Ho0 Hn0] Hin]. rewrite Hr in Hin.
    assert (r = r0) as ->; [|done]. apply (sorted_num_inj l); [done..|]. rewrite E. unfold num_of. by rewrite Hn0.
  - pose proof (shifted_history i t4 _ H4) as H5. apply insert_manager; [by destruct H5|]. apply Forall_forall. intros r (r0 & -> & Hr0)%list_elem_of_fmap.
    apply kept_elem in Hr0 as [Hr0 _]. destruct (Hn r0 Hr0) as [[n E] H0]. unfold shifted, num_of in *. cbn. rewrite E in *. cbn in *. lia.
Qed.

(** ** Renumbering *)

Definition numbered (k : nat) (r : history_row) : history_row := h_set_num (Some (Z.of_nat k)) r.

Lemma numbered_elem l r : r ∈ imap numbered l -> exists k, (k < length l)%nat /\ h_num r = Some (Z.of_nat k).
Proof.
  intros (k & Hk)%list_elem_of_lookup. rewrite list_lookup_imap in Hk. destruct (l !! k) eqn:E; [|done].
  injection Hk as <-. exists k. split; [by apply lookup_lt_Some in E|done].
Qed.

Lemma update_nums_edits i f t : edits_only i t (update_nums i f t).
Proof.
  split; [|done..]. intros j Hj. split; [|done..]. unfold history_of, update_nums. cbn [history set_history].
  induction (history t) as [|r l IH]; [done|]. rewrite fmap_cons, !filter_cons, IH.
  destruct (decide (h_imgid r = i)) as [E|E]; [|done]. cbn. rewrite E. by destruct (decide (i = j)).
Qed.

Lemma update_num_one i index done t l r l' :
  history_of i t ≡ₚ l ++ r :: l' -> h_num r = Some index -> Forall (fun r' => h_num r' <> Some index) (l ++ l') ->
  history_of i (update_nums i (fun num => if decide (num = Some index) then Some done else num) t) ≡ₚ l ++ h_set_num (Some done) r :: l'.
Proof.
  intros Hp Hr [Hl Hl']%Forall_app. rewrite update_nums_rows, Hp, fmap_app, fmap_cons. rewrite Hr, decide_True by done.
  assert (forall x, Forall (fun r' => h_num r' <> Some index) x ->
    (fun r => h_set_num (if decide (h_num r = Some index) then Some done else h_num r) r) <$> x = x) as Hid.
  { intros x Hx. induction Hx as [|r' x Hr' Hx IH]; [done|]. rewrite fmap_cons, IH, decide_False by done. by destruct r'. }
  by rewrite !Hid.
Qed.

Lemma renumber_spec n i index pre post t :
  history_of i t ≡ₚ imap numbered pre ++ post -> Z.of_nat (length pre) <= index ->
  Forall (fun r => is_Some (h_num r) /\ index <= num_of r < index + Z.of_nat n) post ->
  StronglySorted (fun a b => num_of a < num_of b) post ->
  exists t', renumber n i index (Z.of_nat (length pre)) t = (Z.of_nat (length (pre ++ post)), t') /\
    history_of i t' ≡ₚ imap numbered (pre ++ post) /\ edits_only i t t' /\ masks_history t' = masks_history t /\ images t' = images t.
Proof.
  revert index pre post t. induction n as [|n IH]; intros index pre post t Hp Hi Hn Hs; cbn [renumber].
  - destruct post as [|r post]; [|apply Forall_cons in Hn as [Hn _]; lia].
    exists t. rewrite app_nil_r in *. by split_and!.
  - assert (Forall (fun r => h_num r <> Some index) (imap numbered pre)) as Hpre.
    { apply Forall_forall. intros r (k & Hk & ->)%numbered_elem. intros [= E]. lia. }
    destruct post as [|r post].
    { rewrite bool_decide_eq_false_2.
      - apply IH; [done|lia|constructor|constructor].
      - rewrite Hp, app_nil_r. intros (r & Hr & Hin)%list_elem_of_fmap. rewrite Forall_forall in Hpre. by apply (Hpre r). }
    apply Forall_cons in Hn as [[Hsr Hr] Hn]. apply StronglySorted_inv in Hs as [Hs Hrs].
    assert (Forall (fun x => num_of r < num_of x) post) as Hrs' by exact Hrs. clear Hrs. rewrite Forall_forall in Hrs', Hn.
    assert (Forall (fun x => is_Some (h_num x) /\ index + 1 <= num_of x < index + 1 + Z.of_nat n) post) as Hpost.
    { apply Forall_forall. intros x Hx. destruct (Hn x Hx) as [? ?]. specialize (Hrs' x Hx). split; [done|lia]. }
    destruct (decide (num_of r = index)) as [E|E].
    + rewrite bool_decide_eq_true_2 by (rewrite Hp; apply list_elem_of_fmap; exists r; split; [by rewrite <- E, <- num_of_eq|
        apply elem_of_app; right; by left]).
      set (t1 := update_nums i _ t).
      destruct (IH (index + 1) (pre ++ [r]) post t1) as (t' & Ht' & Hp' & He & Hm & Him).
      * unfold t1. etransitivity; [apply (update_num_one i index _ t _ r post Hp); [by rewrite <- E, <- num_of_eq|]|].
        -- apply Forall_app. split; [done|]. apply Forall_forall. intros x Hx Hx'. specialize (Hrs' x Hx). unfold num_of in *. rewrite Hx' in Hrs'. cbn in Hrs'. lia.
        -- rewrite imap_app, <- app_assoc. cbn. unfold numbered. by rewrite Nat.add_0_r.
      * rewrite length_app. cbn [length]. lia.
      * done.
      * done.
      * exists t'. rewrite <- app_assoc in Ht', Hp'. rewrite length_app in Ht'. cbn [length] in Ht'.
        replace (Z.of_nat (length pre) + 1) with (Z.of_nat (length pre + 1)) by lia. split; [done|]. split; [done|].
        split; [|done]. etransitivity; [apply update_nums_edits|done].
    + rewrite bool_decide_eq_false_2.
      * apply IH; [done|lia| |by constructor; [|apply Forall_forall]]. apply Forall_cons. split; [|done]. split; [done|lia].
      * rewrite Hp. intros (x & Hx & Hin)%list_elem_of_fmap. rewrite elem_of_app, elem_of_cons in Hin. rewrite Forall_forall in Hpre.
        destruct Hin as [Hin|[-> | Hin]]; [by apply (Hpre x)| |].
        -- unfold num_of in E. by rewrite <- Hx in E.
        -- specialize (Hrs' x Hin). unfold num_of in *. rewrite <- Hx in Hrs'. cbn in Hrs'. lia.
Qed.

(** ** A list of images *)

Lemma delete_edits i (P : history_row -> Prop) `{!forall r, Decision (~ (h_imgid r = i /\ P r))} t :
  edits_only i t (set_history (filter (fun r => ~ (h_imgid r = i /\ P r)) (history t)) t).
Proof. split; [|done..]. intros j Hj. split; [|done..]. apply filter_keeps. naive_solver. Qed.

Lemma delete_masks_edits i (P : masks_row -> Prop) `{!forall r, Decision (~ (m_imgid r = i /\ P r))} t :
  edits_only i t (set_masks_history (filter (fun r => ~ (m_imgid r = i /\ P r)) (masks_history t)) t).
Proof. split; [|done..]. intros j Hj. split; [done| |done..]. apply filter_keeps. naive_solver. Qed.

Lemma renumber_masks i v t :
  masks_of i (set_masks_history ((fun r => if decide (m_imgid r = i) then m_set_num v r else r) <$> masks_history t) t) =
    m_set_num v <$> masks_of i t /\
  edits_only i t (set_masks_history ((fun r => if decide (m_imgid r = i) then m_set_num v r else r) <$> masks_history t) t).
Proof.
  split; [|split; [|done..]; intros j Hj; split; [done| |done..]]; unfold masks_of; cbn [masks_history set_masks_history];
    (induction (masks_history t) as [|r l IH]; [done|]); rewrite fmap_cons, !filter_cons, IH; destruct (decide (m_imgid r = i)) as [E|E]; try done.
  - by rewrite (decide_True (P := m_imgid (m_set_num v r) = i)).
  - by rewrite decide_False.
  - cbn. rewrite E. by destruct (decide (i = j)).
Qed.

Lemma insert_edits i r t : h_imgid r = i -> edits_only i t (set_history (history t ++ [r]) t).
Proof.
  intros <-. split; [|done..]. intros j Hj. split; [|done..]. unfold history_of. cbn [history set_history].
  by rewrite filter_app, filter_cons_False, filter_nil, app_nil_r by done.
Qed.

Lemma compress_rows_edits i e t : edits_only i t (compress_rows i e t).
Proof.
  unfold compress_rows. cbv zeta. set (t3 := delete_old_masks i e _).
  assert (edits_only i t t3) as H3.
  { etransitivity; [|apply delete_masks_edits]. etransitivity; [|apply delete_edits]. apply delete_edits. }
  destruct (masks_of i t3); [done|]. etransitivity; [exact H3|]. etransitivity; [apply (renumber_masks i (Some 0))|].
  etransitivity; [|by apply insert_edits]. destruct (manager_at_0 i t); [done|]. etransitivity; [apply update_nums_edits|apply update_end_edits].
Qed.

Lemma compress_rows_masks i e t : masks_of i (compress_rows i e t) = m_set_num (Some 0) <$> newest_masks e (masks_of i t).
Proof.
  unfold compress_rows. cbv zeta. set (t2 := delete_managers i _). assert (masks_of i t2 = masks_of i t) as <- by done.
  rewrite <- old_masks_eq. set (t3 := delete_old_masks i e t2). destruct (renumber_masks i (Some 0) t3) as [Hm _].
  set (t4 := set_masks_history _ t3) in *.
  destruct (masks_of i t3) as [|m ms] eqn:Em; [by rewrite Em|]. rewrite <- Hm. by destruct (manager_at_0 i t).
Qed.

(** All of a row but its number. *)
Definition content (r : history_row) : history_row := h_set_num None r.

Lemma content_numbered l : content <$> imap numbered l = content <$> l.
Proof.
  apply list_eq. intros k. rewrite !list_lookup_fmap, list_lookup_imap. by destruct (l !! k).
Qed.

Lemma last_edit_content (l l' : list history_row) k : content <$> l = content <$> l' -> content <$> last_edit k l = content <$> last_edit k l'.
Proof. intros He. rewrite <- !last_edit_fmap by done. by rewrite He. Qed.

Lemma keys_content (l l' : list history_row) : content <$> l = content <$> l' -> key <$> l = key <$> l'.
Proof.
  intros He. assert (forall x : list history_row, key <$> x = key <$> (content <$> x)) as Hk by (intros x; rewrite <- list_fmap_compose; by apply list_fmap_ext).
  by rewrite (Hk l), (Hk l'), He.
Qed.

Lemma compressed_content i e t l :
  content <$> compressed i e t l = (match masks_of i t with [] => [] | _ => [content (manager_row i)] end) ++ (content <$> kept_edits e l).
Proof.
  unfold compressed. destruct (masks_of i t); [done|]. rewrite fmap_cons. cbn. f_equal. destruct (manager_at_0 i t); [done|].
  rewrite <- list_fmap_compose. by apply list_fmap_ext.
Qed.

Lemma compressed_keys i e t l : NoDup (key <$> compressed i e t l).
Proof.
  assert (NoDup (key <$> kept_edits e l)) as Hk.
  { unfold kept_edits. eapply sublist_NoDup; [apply (lasts_keys (upto e l))|]. apply fmap_sublist, sublist_filter. }
  assert (forall m, content <$> compressed i e t l = content <$> (m ++ kept_edits e l) -> NoDup (key <$> (m ++ kept_edits e l)) ->
    NoDup (key <$> compressed i e t l)) as Hm by (intros m He Hn; by rewrite (keys_content _ _ He)).
  pose proof (compressed_content i e t l) as Hc. destruct (masks_of i t); [by apply (Hm [])|].
  apply (Hm [manager_row i]); [by rewrite fmap_app|]. cbn. apply NoDup_cons. split; [|done].
  intros (r & Hr & [_ Ho]%kept_elem)%list_elem_of_fmap. apply Ho. by injection Hr.
Qed.

Lemma compressed_last_edit i e t l k : fst k <> Some op_mask_manager ->
  content <$> last_edit k (compressed i e t l) = content <$> last_edit k (upto e l).
Proof.
  intros Hk. rewrite <- (kept_last_edit k e l Hk). pose proof (compressed_content i e t l) as Hc. destruct (masks_of i t).
  - by apply last_edit_content.
  - rewrite (last_edit_content _ (manager_row i :: kept_edits e l) k) by done. rewrite last_edit_cons.
    destruct (last_edit k (kept_edits e l)); [done|]. rewrite decide_False; [done|]. by intros <-.
Qed.

Lemma attop_end i t l : is_history i t l -> dt_history_end_attop i t = 1 ->
  0 < select_history_end i t /\ upto (select_history_end i t) l = l /\ is_Some (images t !! i).
Proof.
  intros [Hr Hn _]. unfold dt_history_end_attop.
  assert (MAX (h_num <$> history_of i t) = MAX (h_num <$> l)) as -> by (by rewrite Hr). destruct (_ && _); [done|]. case_match eqn:Hgt; [|done]. intros _.
  apply Z.gtb_lt in Hgt. rewrite Forall_forall in Hn.
  assert (forall r, r ∈ l -> num_of r <= column_int (MAX (h_num <$> l))) as Hmax.
  { intros r Hrl. destruct (Hn r Hrl) as [Hs _]. destruct (MAX_ge (h_num <$> l) (num_of r)) as (m & -> & ?); [|done].
    rewrite <- (num_of_eq r Hs). by apply list_elem_of_fmap_2. }
  assert (0 <= column_int (MAX (h_num <$> l))) as H0.
  { destruct (MAX (h_num <$> l)) as [m|] eqn:E; [|done]. apply MAX_elem, list_elem_of_fmap in E as (r & Hr' & Hrl).
    destruct (Hn r Hrl) as [_ H0]. unfold num_of in H0. rewrite <- Hr' in H0. done. }
  split; [lia|]. split.
  - apply filter_all. intros r Hrl. destruct (Hn r Hrl) as [Hs _]. rewrite (num_of_eq r Hs). cbn. apply Z.ltb_lt.
    specialize (Hmax r Hrl). lia.
  - unfold select_history_end in *. destruct (images t !! i); [by eexists|]. cbn in Hgt. lia.
Qed.

(** Images with the history end on top of the history are compressed. *)
Record compressed_from (i : Z) (t t' : tables) (l : list history_row) : Prop := Compressed_from {
  cf_history : is_history i t' (imap numbered (compressed i (select_history_end i t) t l));
  cf_masks : masks_of i t' = m_set_num (Some 0) <$> newest_masks (select_history_end i t) (masks_of i t);
  cf_end : select_history_end i t' =
    if decide (num_of <$> compressed i (select_history_end i t) t l = [0]) then 0
    else Z.of_nat (length (compressed i (select_history_end i t) t l));
}.

Lemma numbered_sorted l : Forall (fun r => is_Some (h_num r) /\ 0 <= num_of r) (imap numbered l) /\
  StronglySorted (fun a b => num_of a < num_of b) (imap numbered l).
Proof.
  split.
  - apply Forall_forall. intros r (k & _ & E)%numbered_elem. unfold num_of. rewrite E. split; [by eexists|cbn; lia].
  - assert (forall n, StronglySorted (fun a b => num_of a < num_of b) (imap (fun k => numbered (n + k)%nat) l)) as Hs; [|apply (Hs O)].
    induction l as [|r l IH]; intros n; [constructor|]. cbn [imap]. constructor.
    + specialize (IH (S n)). erewrite imap_ext; [exact IH|]. intros k x _. cbn. f_equal. lia.
    + apply Forall_forall. intros x (k & Hk)%list_elem_of_lookup. rewrite list_lookup_imap in Hk. destruct (l !! k); [|done].
      injection Hk as <-. unfold num_of. cbn. lia.
Qed.

Lemma numbered_id l : Forall (fun r => is_Some (h_num r)) l -> (exists n, num_of <$> l = seqZ 0 n) -> imap numbered l = l.
Proof.
  intros Hs [n Hn]. apply list_eq. intros k. rewrite list_lookup_imap. destruct (l !! k) as [r|] eqn:E; [|done]. cbn. f_equal.
  assert ((num_of <$> l) !! k = Some (num_of r)) as Hk by (by rewrite list_lookup_fmap, E). rewrite Hn in Hk.
  apply lookup_seqZ in Hk as [Hk _]. rewrite Forall_forall in Hs. specialize (Hs r (list_elem_of_lookup_2 _ _ _ E)).
  destruct r. unfold numbered, num_of, h_set_num in *. destruct Hs as [x Hx]. cbn in *. rewrite Hx in *. cbn in *. f_equal. f_equal. lia.
Qed.

Lemma renumber_rows_spec i t l : is_history i t l -> is_Some (images t !! i) ->
  let t' := renumber_rows i t in
  is_history i t' (imap numbered l) /\ masks_of i t' = masks_of i t /\ edits_only i t t' /\
  select_history_end i t' = if decide (num_of <$> l = [0]) then 0 else Z.of_nat (length l).
Proof.
  intros Hh Hi. cbv zeta. pose proof Hh as [Hr Hn Hs]. unfold renumber_rows.
  assert (MAX (h_num <$> history_of i t) = MAX (h_num <$> l)) as -> by (by rewrite Hr). rewrite (Permutation_length Hr).
  rewrite Forall_forall in Hn.
  assert (forall r, r ∈ l -> num_of r <= column_int (MAX (h_num <$> l))) as Hmax.
  { intros r Hrl. destruct (Hn r Hrl) as [Hsr _]. destruct (MAX_ge (h_num <$> l) (num_of r)) as (m & -> & ?); [|done].
    rewrite <- (num_of_eq r Hsr). by apply list_elem_of_fmap_2. }
  destruct (_ && _) eqn:Hc.
  - apply andb_true_iff in Hc as [_ Hpos]. apply Z.gtb_lt in Hpos. set (max := column_int _) in *.
    destruct (renumber_spec (Z.to_nat (max + 1)) i 0 [] l t) as (t' & Hren & Hp & He & Hm & Him); [done|done| |done|].
    { apply Forall_forall. intros r Hrl. destruct (Hn r Hrl) as [Hsr H0]. specialize (Hmax r Hrl). split; [done|lia]. }
    change (Z.of_nat (length [])) with 0 in Hren. cbn [app] in *. rewrite Hren. destruct (numbered_sorted l) as [Hns Hss]. split; [by split|]. split; [by unfold masks_of; cbn; rewrite Hm|].
    split; [etransitivity; [exact He|apply update_end_edits]|]. rewrite update_end_selects by (by apply He). cbn.
    rewrite decide_False; [done|]. intros H0. destruct l as [|r [|? ?]]; [done| |done]. injection H0 as H0.
    destruct (Hn r) as [Hsr _]; [by left|]. unfold max in Hpos. destruct Hsr as [n En]. unfold num_of in H0. cbn in Hpos. rewrite En in *. cbn in *. lia.
  - assert (forall r, r ∈ l -> num_of r = 0) as H0.
    { intros r Hrl. destruct (Hn r Hrl) as [Hsr H0]. specialize (Hmax r Hrl). destruct l as [|x l]; [by apply not_elem_of_nil in Hrl|].
      apply andb_false_iff in Hc as [Hc|Hc]; [discriminate Hc|]. rewrite Z.gtb_ltb in Hc. apply Z.ltb_ge in Hc. lia. }
    rewrite numbered_id; [|apply Forall_forall; intros r Hrl; by apply Hn|].
    + split; [by destruct Hh|]. split; [done|]. split; [apply update_end_edits|]. rewrite update_end_selects by done. cbn.
      destruct l as [|r [|r' l]]; [done| |].
      * rewrite decide_True; [done|]. cbn. by rewrite (H0 r) by left.
      * exfalso. apply StronglySorted_inv in Hs as [_ Hs]. apply Forall_cons in Hs as [Hs _].
        rewrite (H0 r), (H0 r') in Hs; [done|right; by left|by left].
    + destruct l as [|r [|r' l]]; [by exists 0| |].
      * exists 1. cbn. by rewrite (H0 r) by left.
      * exfalso. apply StronglySorted_inv in Hs as [_ Hs]. apply Forall_cons in Hs as [Hs _].
        rewrite (H0 r), (H0 r') in Hs; [done|right; by left|by left].
Qed.

Lemma compress_step clock i u c l :
  begun c = None -> is_history i (now c) l -> dt_history_end_attop i (now c) = 1 ->
  exists c', dt_history_compress_on_image clock i u c = Done (u, c') /\ begun c' = None /\
    let t' := hash_current i (on_tables (renumber_rows i) c') in
    begun t' = None /\ edits_only i (now c) (now t') /\ compressed_from i (now c) (now t') l.
Proof.
  intros Hb Hh Htop. destruct (attop_end i (now c) l Hh Htop) as (Hpos & _ & Hi). unfold dt_history_compress_on_image.
  destruct (Z.eqb_spec (select_history_end i (now c)) 0); [lia|]. set (e := select_history_end i (now c)) in *.
  unfold BEGIN. rewrite Hb. unfold on_tables, COMMIT, hash_current. cbn [now begun]. eexists. split; [done|]. split; [done|].
  cbv zeta. cbn [now begun]. split; [done|]. set (t := now c) in *.
  pose proof (compress_rows_spec i e t l Hh) as H1. pose proof (compress_rows_edits i e t) as He1. pose proof (compress_rows_masks i e t) as Hm1.
  set (t1 := compress_rows i e t) in *.
  destruct (hash_write_same md5 i DT_HISTORY_HASH_CURRENT t1) as (Hh2 & Hm2 & _ & Hi2).
  pose proof (hash_write_edits md5 i DT_HISTORY_HASH_CURRENT t1) as He2. set (t2 := dt_history_hash_write_from_history md5 i _ t1) in *.
  assert (is_history i t2 (compressed i e t l)) as H2 by (destruct H1; split; [unfold history_of; by rewrite Hh2|done|done]).
  destruct (renumber_rows_spec i t2 _ H2) as (H3 & Hm3 & He3 & Hend); [rewrite Hi2; by apply He1|]. set (t3 := renumber_rows i t2) in *.
  destruct (hash_write_same md5 i DT_HISTORY_HASH_CURRENT t3) as (Hh4 & Hm4 & _ & Hi4).
  pose proof (hash_write_edits md5 i DT_HISTORY_HASH_CURRENT t3) as He4. set (t4 := dt_history_hash_write_from_history md5 i _ t3) in *.
  change (now (on_tables _ _)) with t4. split; [do 3 (etransitivity; [eassumption|]); done|]. fold e. split; fold e.
  - destruct H3. split; [unfold history_of; by rewrite Hh4|done|done].
  - unfold masks_of at 1. rewrite Hm4. change (masks_of i t3 = m_set_num (Some 0) <$> newest_masks e (masks_of i t)). rewrite Hm3.
    unfold masks_of at 1. rewrite Hm2. done.
  - rewrite <- Hend. by apply selects_same.
Qed.

Lemma hash_current_spec i c :
  begun (hash_current i c) = begun c /\ edits_only i (now c) (now (hash_current i c)) /\ same_history i (now (hash_current i c)) (now c).
Proof.
  split; [done|]. split; [apply hash_write_edits|]. destruct (hash_write_same md5 i DT_HISTORY_HASH_CURRENT (now c)) as (Hh & Hm & Ho & Hi).
  cbn. split; [unfold edits, history_of; by rewrite Hh|unfold masks_of; by rewrite Hm|by rewrite Ho|by apply selects_same].
Qed.

Lemma untouched_history i t t' l : untouched i t t' -> is_history i t l <-> is_history i t' l.
Proof. intros [Hr _ _ _ _]. split; intros []; split; rewrite ?Hr in *; done. Qed.

Lemma untouched_end i t t' : untouched i t t' -> select_history_end i t' = select_history_end i t.
Proof. intros [_ _ _ Hc _]. unfold select_history_end. by rewrite Hc. Qed.

Lemma untouched_attop i t t' : untouched i t t' -> dt_history_end_attop i t' = dt_history_end_attop i t.
Proof. intros Hu. unfold dt_history_end_attop. rewrite (untouched_end _ _ _ Hu). by destruct Hu as [-> _ _ _ _]. Qed.

Lemma untouched_same i t t' : untouched i t t' -> same_history i t' t.
Proof.
  intros Hu. pose proof Hu as [Hr Hm Ho _ _]. split; [unfold edits; by rewrite Hr|by rewrite Hm|by rewrite Ho|by apply untouched_end].
Qed.

(** What is known of an image before is known of it after changes to others. *)
Lemma compressed_from_untouched i t t1 t2 t3 l :
  untouched i t t1 -> untouched i t2 t3 -> compressed_from i t1 t2 l -> compressed_from i t t3 l.
Proof.
  intros H1 H2 [Hh Hm He]. assert (forall e, compressed i e t1 l = compressed i e t l) as Hc.
  { intros e. unfold compressed, manager_at_0. by destruct H1 as [-> -> _ _ _]. }
  rewrite (untouched_end _ _ _ H1), ?Hc in *. split.
  - by apply (untouched_history _ _ _ _ H2).
  - destruct H1 as [_ Hm1 _ _ _], H2 as [_ -> _ _ _]. by rewrite <- Hm1.
  - by rewrite (untouched_end _ _ _ H2).
Qed.

Lemma compress_list_spec clock imgs ls u c :
  begun c = None -> NoDup imgs -> (forall i, i ∈ imgs -> is_history i (now c) (ls i)) ->
  exists c', dt_history_compress_on_list clock imgs u c =
      Done (Z.of_nat (length (filter (fun i => dt_history_end_attop i (now c) = 0) imgs)), u, c') /\ begun c' = None /\
    (forall j, j ∉ imgs -> untouched j (now c) (now c')) /\
    (forall i, i ∈ imgs -> if dt_history_end_attop i (now c) =? 1 then compressed_from i (now c) (now c') (ls i)
                           else same_history i (now c') (now c)).
Proof.
  revert c. induction imgs as [|i imgs IH]; intros c Hb Hnd Hls.
  { exists c. split; [done|]. split; [done|]. split; [done|]. by intros ? ?%not_elem_of_nil. }
  apply NoDup_cons in Hnd as [Hi Hnd]. cbn [dt_history_compress_on_list]. set (t := now c) in *.
  assert (exists c1, (if dt_history_end_attop i t =? 1 then
            let* (u0, c0) := dt_history_compress_on_image clock i u c in Done (u0, on_tables (renumber_rows i) c0) else Done (u, c)) = Done (u, c1) /\
    begun (hash_current i c1) = None /\ edits_only i t (now (hash_current i c1)) /\
    if dt_history_end_attop i t =? 1 then compressed_from i t (now (hash_current i c1)) (ls i) else same_history i (now (hash_current i c1)) t)
    as (c1 & -> & Hb1 & He1 & Hi1).
  { destruct (Z.eqb_spec (dt_history_end_attop i t) 1) as [Htop|_].
    - destruct (compress_step clock i u c (ls i) Hb) as (c1 & -> & _ & Hb' & He' & Hc'); [apply Hls; by left|done|]. by eexists.
    - exists c. split; [done|]. by destruct (hash_current_spec i c) as (-> & ? & ?). }
  cbn [c_bind]. assert (forall j, j ∈ imgs -> untouched j t (now (hash_current i c1))) as Hj by (intros j Hj; apply He1; by intros ->).
  destruct (IH (hash_current i c1) Hb1 Hnd) as (c' & -> & Hb' & Hothers & Heach).
  { intros j Hin. apply (untouched_history _ _ _ _ (Hj j Hin)). apply Hls. by right. }
  exists c'. cbn [c_bind]. split; [|split; [done|]]; [|split].
  - do 3 f_equal. rewrite filter_cons.
    assert (filter (fun j => dt_history_end_attop j (now (hash_current i c1)) = 0) imgs = filter (fun j => dt_history_end_attop j t = 0) imgs) as ->
      by (apply filter_elem_ext; intros j Hin; by rewrite (untouched_attop _ _ _ (Hj j Hin))).
    destruct (Z.eqb_spec (dt_history_end_attop i t) 0) as [E|E]; [rewrite decide_True by done; cbn; lia|by rewrite decide_False].
  - intros j [Hji Hj']%not_elem_of_cons. etransitivity; [by apply He1|by apply Hothers].
  - intros j [-> | Hin]%elem_of_cons.
    + specialize (Hothers i Hi). destruct (_ =? 1); [by eapply compressed_from_untouched; [done|exact Hothers|exact Hi1]|].
      etransitivity; [by apply untouched_same|done].
    + specialize (Heach j Hin). rewrite (untouched_attop _ _ _ (Hj j Hin)) in Heach. destruct (dt_history_end_attop j t =? 1).
      * eapply compressed_from_untouched; [by apply Hj| |exact Heach]. done.
      * etransitivity; [done|by apply untouched_same, Hj].
Qed.

Lemma numbered_nums l : num_of <$> imap numbered l = seqZ 0 (Z.of_nat (length l)).
Proof.
  apply list_eq. intros k. rewrite list_lookup_fmap, list_lookup_imap. destruct (l !! k) as [r|] eqn:E; cbn.
  - apply lookup_lt_Some in E. symmetry. apply lookup_seqZ. unfold num_of. cbn. lia.
  - apply lookup_ge_None in E. symmetry. apply lookup_seqZ_ge. lia.
Qed.

(** C35: compressing a list of images counts those whose history ends below its top and leaves
    their history, and all that is stored of other images, as it was. Every other image of
    the list with edits then has one edit per module instance, numbered from 0 without gaps,
    each with the parameters of the last edit of that instance; mask managers are replaced by
    one in front, present when the image has masks, and of the masks the newest are kept,
    with number 0. The history ends behind its last edit, except that a history left with
    the single edit 0 ends at 0: its edit is switched off. *)
Theorem compress_list clock imgs ls u c (Hb : begun c = None) (Hnd : NoDup imgs)
    (Hls : forall i, i ∈ imgs -> is_history i (now c) (ls i)) :
  exists c', dt_history_compress_on_list clock imgs u c =
      Done (Z.of_nat (length (filter (fun i => dt_history_end_attop i (now c) = 0) imgs)), u, c') /\ begun c' = None /\
    (forall j, j ∉ imgs -> untouched j (now c) (now c')) /\
    forall i, i ∈ imgs ->
      if dt_history_end_attop i (now c) =? 1 then
        exists l', is_history i (now c') l' /\ num_of <$> l' = seqZ 0 (Z.of_nat (length l')) /\ NoDup (key <$> l') /\
          (forall k, fst k <> Some op_mask_manager -> content <$> last_edit k l' = content <$> last_edit k (ls i)) /\
          (masks_of i (now c) <> [] <-> head (content <$> l') = Some (content (manager_row i))) /\
          masks_of i (now c') = m_set_num (Some 0) <$> newest_masks (select_history_end i (now c)) (masks_of i (now c)) /\
          select_history_end i (now c') =
            if decide (num_of <$> compressed i (select_history_end i (now c)) (now c) (ls i) = [0]) then 0 else Z.of_nat (length l')
      else same_history i (now c') (now c).
Proof.
  destruct (compress_list_spec clock imgs ls u c Hb Hnd Hls) as (c' & Hc & Hb' & Hothers & Heach).
  exists c'. split; [done|]. split; [done|]. split; [done|]. intros i Hi. specialize (Heach i Hi).
  destruct (Z.eqb_spec (dt_history_end_attop i (now c)) 1) as [Htop|_]; [|done]. destruct Heach as [Hh Hm He].
  destruct (attop_end i (now c) (ls i) (Hls i Hi) Htop) as (_ & Hup & _). set (e := select_history_end i (now c)) in *.
  exists (imap numbered (compressed i e (now c) (ls i))). rewrite length_imap. split; [done|]. split; [apply numbered_nums|].
  split; [|split; [|split; [|by split]]].
  - rewrite (keys_content _ _ (content_numbered _)). apply compressed_keys.
  - intros k Hk. rewrite (last_edit_content _ _ k (content_numbered _)), compressed_last_edit by done. by rewrite Hup.
  - rewrite content_numbered, compressed_content. destruct (masks_of i (now c)); [|done].
    split; [done|]. destruct (kept_edits e (ls i)) as [|r l] eqn:E; [done|]. intros [= Ho].
    assert (r ∈ kept_edits e (ls i)) as [_ Hk]%kept_elem by (rewrite E; by left). exfalso. apply Hk. congruence.
Qed.

(** ** Copying *)

Definition skipped_names (skip : list string) : list (option string) := Some <$> match skip with [] => ["@"%string] | _ => skip end.

(** The rows of the source that are copied. *)
Definition pasted (skip : list string) (l : list history_row) : list history_row :=
  filter (fun r => sql_not_in (h_operation r) (skipped_names skip) = true) l.

Definition pasted_masks (skip : list string) (l : list history_row) (ms : list masks_row) : list masks_row :=
  filter (fun r => sql_not_in (m_num r) (h_num <$> filter (fun r => h_operation r ∈ skipped_names skip) l) = true) ms.

Lemma overwrite_rows src dest skip t : src <> dest ->
  history_of dest (_history_copy_and_paste_on_image_overwrite src dest skip t) =
    h_set_imgid dest <$> by_num (scan (pasted skip (history_of src t))).
Proof.
  intros Hne. unfold _history_copy_and_paste_on_image_overwrite. cbv zeta.
  unfold history_of at 1. cbn [history set_history_hash set_orders update_history_end set_images set_masks_history set_history delete_masks delete_history].
  rewrite filter_app, filter_none, app_nil_l by (intros r [? _]%list_elem_of_filter; done).
  rewrite filter_all by (intros r (? & -> & _)%list_elem_of_fmap; done).
  do 2 f_equal. unfold pasted, skipped_names, history_of. f_equal. f_equal. cbn. apply filter_keeps. naive_solver.
Qed.

Lemma overwrite_masks src dest skip t : src <> dest ->
  masks_of dest (_history_copy_and_paste_on_image_overwrite src dest skip t) =
    m_set_imgid dest <$> scan (pasted_masks skip (history_of src t) (masks_of src t)).
Proof.
  intros Hne. unfold _history_copy_and_paste_on_image_overwrite. cbv zeta.
  set (t3 := set_images _ (delete_masks dest (delete_history dest t))). set (t4 := set_history _ t3).
  assert (history_of src t4 = history_of src t) as Hh.
  { unfold history_of, t4. cbn [history set_history]. rewrite filter_app, (filter_none _ (_ <$> _)), app_nil_r.
    - cbn. apply filter_keeps. naive_solver.
    - intros r (r0 & -> & _)%list_elem_of_fmap. cbn. done. }
  assert (masks_of src t4 = masks_of src t) as Hm by (unfold masks_of, t4; cbn; apply filter_keeps; naive_solver).
  rewrite Hh, Hm. unfold masks_of at 1. cbn [masks_history set_history_hash set_orders update_history_end set_images set_masks_history set_history delete_masks delete_history t4 t3].
  rewrite filter_app, filter_none, app_nil_l by (intros r [? _]%list_elem_of_filter; done).
  by rewrite filter_all by (intros r (? & -> & _)%list_elem_of_fmap; done).
Qed.

Lemma overwrite_columns src dest skip t : src <> dest ->
  let t' := _history_copy_and_paste_on_image_overwrite src dest skip t in
  orders t' !! dest = match orders t !! src with Some r => Some r | None => orders t !! dest end /\
  history_hash t' !! dest = (fun r => Hash_row (basic_hash r) (auto_hash r) (current_hash r) None) <$> history_hash t !! src /\
  (is_Some (images t !! dest) -> select_history_end dest t' = select_history_end src t).
Proof.
  intros Hne. cbv zeta. unfold _history_copy_and_paste_on_image_overwrite. cbv zeta.
  cbn [orders history_hash images set_history_hash set_orders update_history_end set_images set_masks_history set_history delete_masks delete_history].
  split; [|split].
  - destruct (orders t !! src); [by rewrite lookup_insert_eq|done].
  - rewrite lookup_delete_ne by done. destruct (history_hash t !! src); cbn; [by rewrite lookup_insert_eq|by rewrite lookup_delete_eq].
  - intros [x Hx]. unfold select_history_end. cbn. rewrite !lookup_alter_eq, Hx. cbn. by rewrite lookup_alter_ne.
Qed.

Lemma overwrite_edits src dest skip t : src <> dest -> edits_only dest t (_history_copy_and_paste_on_image_overwrite src dest skip t).
Proof.
  intros Hne. unfold _history_copy_and_paste_on_image_overwrite. cbv zeta. split; try done.
  - intros j Hj. split; cbn [orders history_hash images set_history_hash set_orders update_history_end set_images set_masks_history set_history delete_masks delete_history].
    + unfold history_of. cbn. rewrite filter_app, (filter_none _ (_ <$> _)), app_nil_r; [apply filter_keeps; naive_solver|].
      intros r (r0 & -> & _)%list_elem_of_fmap. cbn. congruence.
    + unfold masks_of. cbn. rewrite filter_app, (filter_none _ (_ <$> _)), app_nil_r; [apply filter_keeps; naive_solver|].
      intros r (r0 & -> & _)%list_elem_of_fmap. cbn. congruence.
    + destruct (orders t !! src); [by rewrite lookup_insert_ne|done].
    + by rewrite !lookup_alter_ne.
    + rewrite lookup_delete_ne by done. destruct (history_hash t !! src); [by rewrite lookup_insert_ne, lookup_delete_ne|by rewrite lookup_delete_ne].
  - intros [x Hx]. cbn. rewrite !lookup_alter_eq, Hx. by eexists.
Qed.

(** Rows of distinct numbers have one order. *)
Lemma by_num_sorted rows l : rows ≡ₚ l -> Forall (fun r => is_Some (h_num r)) l -> StronglySorted (fun a b => num_of a < num_of b) l -> by_num rows = l.
Proof.
  intros Hp Hn Hs. rewrite Forall_forall in Hn. unfold by_num.
  rewrite (g_list_sort_ext num_cmp (fun a b => num_of a - num_of b)).
  2: { intros x y Hx Hy. rewrite Hp in Hx, Hy. unfold num_cmp. by rewrite (num_of_eq x (Hn x Hx)), (num_of_eq y (Hn y Hy)). }
  assert (forall x y, num_of x - num_of y <= 0 <-> key_le num_of x y) as Hkey by (intros; unfold key_le; lia).
  apply (StronglySorted_unique_strong (key_le num_of)).
  - intros x y Hx Hy Hxy Hyx. change (x ∈ g_list_sort (fun a b => num_of a - num_of b) rows) in Hx.
    rewrite g_list_sort_Permutation, Hp in Hx. apply (sorted_num_inj l); [done..|]. unfold key_le in *. lia.
  - apply g_list_sort_Sorted; [apply _..|done].
  - clear Hp Hn. induction Hs as [|r l Hl IH Hr]; constructor; [done|]. eapply Forall_impl; [exact Hr|]. cbn. unfold key_le. lia.
  - by rewrite g_list_sort_Permutation.
Qed.

Lemma hashed_rows_history i t l : is_history i t l ->
  hashed_rows i t = filter (fun r => h_enabled r = Some 1 /\ num_is (fun n => n <=? select_history_end i t) (h_num r) = true) l.
Proof.
  intros Hh. pose proof Hh as [Hr Hn Hs]. apply by_num_sorted.
  - by rewrite scan_Permutation, Hr.
  - apply Forall_forall. intros r [_ Hin]%list_elem_of_filter. rewrite Forall_forall in Hn. by apply Hn.
  - by apply sorted_filter.
Qed.

Lemma is_history_pasted src dest skip t l : src <> dest -> is_history src t l ->
  is_history dest (_history_copy_and_paste_on_image_overwrite src dest skip t) (h_set_imgid dest <$> pasted skip l).
Proof.
  intros Hne Hh. assert (is_history src t l) as [Hr Hn Hs] by done.
  assert (Forall (fun r => is_Some (h_num r) /\ 0 <= num_of r) (pasted skip l)) as Hn'.
  { apply Forall_forall. intros r [_ Hin]%list_elem_of_filter. rewrite Forall_forall in Hn. by apply Hn. }
  split.
  - rewrite overwrite_rows by done. apply fmap_Permutation. unfold by_num. rewrite g_list_sort_Permutation, scan_Permutation.
    unfold pasted. by rewrite Hr.
  - by apply Forall_fmap.
  - assert (StronglySorted (fun a b => num_of a < num_of b) (pasted skip l)) as Hs' by (by apply sorted_filter).
    clear Hn'. induction Hs' as [|r x Hx IH Hrx]; constructor; [done|]. by apply Forall_fmap.
Qed.

(** A full copy has the hash of its source. *)
Lemma pasted_hash src dest skip t l : src <> dest -> src <> -1 -> dest <> -1 -> is_Some (images t !! dest) -> is_Some (orders t !! src) ->
  is_history src t l -> pasted skip l = l ->
  _history_hash_compute_from_db md5 dest (_history_copy_and_paste_on_image_overwrite src dest skip t) = _history_hash_compute_from_db md5 src t.
Proof.
  intros Hne Hs Hd Hi [o Ho] Hh Hall. unfold _history_hash_compute_from_db.
  destruct (Z.eqb_spec dest (-1)); [done|]. destruct (Z.eqb_spec src (-1)); [done|].
  destruct (overwrite_columns src dest skip t Hne) as (Hor & _ & He). specialize (He Hi).
  pose proof (is_history_pasted src dest skip t l Hne Hh) as Hh'. rewrite Hall in Hh'. set (t' := _history_copy_and_paste_on_image_overwrite src dest skip t) in *.
  rewrite (hashed_rows_history _ _ _ Hh), (hashed_rows_history _ _ _ Hh'), He, Hor, Ho. set (e := select_history_end src t).
  assert (filter (fun r => h_enabled r = Some 1 /\ num_is (fun n => n <=? e) (h_num r) = true) (h_set_imgid dest <$> l) =
    h_set_imgid dest <$> filter (fun r => h_enabled r = Some 1 /\ num_is (fun n => n <=? e) (h_num r) = true) l) as ->.
  { clear. induction l as [|r l IH]; [done|]. rewrite fmap_cons, !filter_cons, IH. cbn [h_enabled h_num h_set_imgid]. by case_decide. }
  destruct (filter _ l) as [|r x]; [done|]. cbn [fmap list_fmap]. do 4 f_equal. f_equal. rewrite <- list_fmap_compose. by apply list_fmap_ext.
Qed.

Lemma copy_order_same copy src dest t t' t0 : orders t' = orders t -> copy_order copy src dest t = Done t0 ->
  exists o, t0 = set_orders o t /\ copy_order copy src dest t' = Done (set_orders o t') /\ forall j, j <> dest -> o !! j = orders t !! j.
Proof.
  unfold copy_order. intros He. rewrite He. destruct copy.
  - destruct (dt_ioppr_get_iop_order_list (orders t) src false) as [l|]; [|done]. cbn.
    unfold dt_ioppr_write_iop_order_list. destruct (dt_ioppr_get_iop_order_list_kind l) as [kind|]; [|done]. cbn.
    intros [= <-]. eexists. split; [done|]. split; [done|]. intros j Hj. by rewrite !lookup_insert_ne.
  - intros [= <-]. exists (orders t). split; [by destruct t|]. split; [|done]. rewrite <- He. clear. by destruct t'.
Qed.

(** What pasting does to the tables. *)
Definition paste_tables (copy_iop_order : bool) (src dest : Z) (skip : list string) (t : tables) : tables :=
  match copy_order copy_iop_order src dest t with
  | Done t => _history_copy_and_paste_on_image_overwrite src dest skip t
  | Undefined => t
  end.

Lemma set_orders_edits dest o t : (forall j, j <> dest -> o !! j = orders t !! j) -> edits_only dest t (set_orders o t).
Proof. intros Ho. split; [|done..]. intros j Hj. split; try done. by apply Ho. Qed.

Lemma paste_tables_edits copy src dest skip t : src <> dest -> edits_only dest t (paste_tables copy src dest skip t).
Proof.
  intros Hne. unfold paste_tables. destruct (copy_order copy src dest t) as [t0|] eqn:E; [|done].
  destruct (copy_order_same copy src dest t t t0 eq_refl E) as (o & -> & _ & Ho).
  etransitivity; [by apply set_orders_edits|by apply overwrite_edits].
Qed.

Lemma paste_tables_spec copy src dest skip t t0 l :
  src <> dest -> src <> -1 -> is_Some (images t !! dest) -> is_history src t l -> copy_order copy src dest t = Done t0 ->
  let t' := paste_tables copy src dest skip t in
  is_history dest t' (h_set_imgid dest <$> pasted skip l) /\
  masks_of dest t' ≡ₚ m_set_imgid dest <$> pasted_masks skip (history_of src t) (masks_of src t) /\
  select_history_end dest t' = select_history_end src t /\
  orders t' !! dest = match orders t !! src with Some r => Some r | None => orders t0 !! dest end /\
  history_hash t' !! dest = (fun r => Hash_row (basic_hash r) (auto_hash r) (current_hash r) None) <$> history_hash t !! src /\
  (pasted skip l = l -> is_Some (orders t !! src) -> dest <> -1 ->
   _history_hash_compute_from_db md5 dest t' = _history_hash_compute_from_db md5 src t).
Proof.
  intros Hne Hsrc Hi Hl Hc. cbv zeta. unfold paste_tables. rewrite Hc.
  destruct (copy_order_same copy src dest t t t0 eq_refl Hc) as (o & -> & _ & Ho). specialize (Ho src Hne).
  assert (is_history src (set_orders o t) l) as Hl' by (by destruct Hl).
  destruct (overwrite_columns src dest skip (set_orders o t) Hne) as (Hor & Hx & He). cbn [orders history_hash images set_orders] in *.
  rewrite <- Ho. split; [by apply is_history_pasted|]. split; [rewrite overwrite_masks, scan_Permutation by done; done|].
  split; [by apply He|]. split; [done|]. split; [done|]. intros Hall Hos Hd.
  rewrite (pasted_hash src dest skip (set_orders o t) l) by done. unfold _history_hash_compute_from_db. cbn. by rewrite Ho.
Qed.

Lemma untouched_compute i t t' : untouched i t t' -> _history_hash_compute_from_db md5 i t' = _history_hash_compute_from_db md5 i t.
Proof.
  intros Hu. unfold _history_hash_compute_from_db, hashed_rows. rewrite (untouched_end _ _ _ Hu). by destruct Hu as [-> _ -> _ _].
Qed.

(** C34: pasting the whole history of an image on another in overwrite mode (without merging
    and without a choice of edits) replaces the edits of the destination by those of the
    source, less those of the modules to skip, in their order and with the end of the source, its masks by
    those of the edits that are copied, its module order by that of the source if the source
    has a row of its own (the order that is written before stays otherwise), and its hashes;
    with all edits copied and such a row the histories have the same hash. The hash of the
    thumbnails is not copied. The source has a history with an end above 0, and one of its
    edits is copied. Undo gives the replaced history back (unless its end was 0 while edits,
    masks or an order were stored), redo the pasted one, and no other image is touched. *)
Theorem paste_undo_redo clock src dest copy skip t0 l u c filter
    (Hq : quiet dest u c) (Hne : src <> dest) (Hsrc : src <> -1) (Hfilter : Z.land DT_UNDO_LT_HISTORY filter <> 0)
    (Hend : select_history_end src (now c) <> 0) (Hl : is_history src (now c) l) (Hp : pasted skip l <> [])
    (Hcopy : copy_order copy src dest (now c) = Done t0) :
  exists u1 c1, dt_history_copy_and_paste_on_image clock src dest copy skip u c = Done (0, u1, c1) /\
    is_history dest (now c1) (h_set_imgid dest <$> pasted skip l) /\
    masks_of dest (now c1) ≡ₚ m_set_imgid dest <$> pasted_masks skip (history_of src (now c)) (masks_of src (now c)) /\
    select_history_end dest (now c1) = select_history_end src (now c) /\
    orders (now c1) !! dest = match orders (now c) !! src with Some r => Some r | None => orders t0 !! dest end /\
    history_hash (now c1) !! dest = (fun r => Hash_row (basic_hash r) (auto_hash r) (current_hash r) None) <$> history_hash (now c) !! src /\
    (pasted skip l = l -> is_Some (orders (now c) !! src) -> dest <> -1 ->
     _history_hash_compute_from_db md5 dest (now c1) = _history_hash_compute_from_db md5 src (now c)) /\
    restores dest filter u u1 c c1.
Proof.
  destruct clock as [[t1 t2] t3]. pose proof Hq as [_ Hi _ _ _ Hg Hlk Hd _].
  set (u1 := fun hist => changed_lists (dt_history_snapshot_undo_pop md5) DT_UNDO_LT_HISTORY t1 t2 t3 hist u).
  destruct (recorded_restores md5 dest (paste_tables copy src dest skip) u c (redo_list u ≫= _free_undo_data) u1 filter Hq) as
    (n1 & c1 & n2 & c3 & Hcr & Hm1 & Hu1 & Hcr2 & Hs3 & Hu3 & _ & Hrest); [done|intros t; by apply paste_tables_edits|..].
  { intros t Hm. destruct (same_tables src _ _ Hm) as [_ Hun]. specialize (Hun src).
    assert (is_Some (images t !! dest)) as Hit by (by rewrite (proj1 Hm)).
    destruct (copy_order_same copy src dest (now c) t t0) as (o & _ & Hc & _); [apply Hm|done|].
    destruct (paste_tables_spec copy src dest skip t _ l Hne Hsrc Hit (proj1 (untouched_history _ _ _ l Hun) Hl) Hc) as ([Hr _ _] & _ & He & _).
    split; [|intros E; by rewrite He, (untouched_end _ _ _ Hun) in E].
    intros _ Hnil. rewrite Hnil in Hr. by apply Permutation_nil_l, eq_sym, fmap_nil_inv in Hr. }
  cbv zeta in *. set (hist := Lt_history _ _ _ _ _) in *. eexists (u1 hist), (free_data _ c3).
  destruct (copy_order_same copy src dest (now c) (now c1) t0) as (o & Ht0 & Hc & _); [apply Hm1|done|].
  assert (is_Some (images (now c1) !! dest)) as Hit by (by rewrite (proj1 Hm1)).
  assert (is_history src (now c1) l) as Hl1 by (by apply (untouched_history _ _ _ _ (Hu1 src))).
  destruct (paste_tables_spec copy src dest skip (now c1) _ l Hne Hsrc Hit Hl1 Hc) as (Hh & Hms & He & Ho & Hx & Hhash).
  pose proof (Hu3 dest) as Hud. pose proof Hud as [_ Hum Huo _ Hux]. destruct (Hu1 src) as [Hr1 Hm1' Ho1 _ Hx1].
  split; [|split; [|split; [|split; [|split; [|split; [|split]]]]]].
  - unfold dt_history_copy_and_paste_on_image. destruct (Z.eqb_spec src dest); [done|]. destruct (Z.eqb_spec src (-1)); [done|].
    rewrite Hcr. cbv beta iota. rewrite Hc. cbn [c_bind].
    assert (on_tables (paste_tables copy src dest skip) c1 =
      Connection (_history_copy_and_paste_on_image_overwrite src dest skip (set_orders o (now c1))) (begun c1)) as Hon
      by (unfold on_tables, paste_tables; by rewrite Hc).
    rewrite <- Hon, Hcr2. cbv beta iota.
    destruct (group_lists md5 hist t1 t2 t3 u Hg Hlk Hd) as (ua & ub & Hua & Hub & Hend').
    rewrite Hua. cbv beta iota. fold hist. rewrite Hub. cbv beta iota. rewrite Hend'. reflexivity.
  - by apply (untouched_history _ _ _ _ Hud).
  - rewrite Hum, Hms. by rewrite Hr1, Hm1'.
  - rewrite (untouched_end _ _ _ Hud), He. by apply untouched_end.
  - rewrite Huo, Ho, Ho1, Ht0. done.
  - by rewrite Hux, Hx, Hx1.
  - intros Hall Hos Hdest. rewrite (untouched_compute _ _ _ Hud), Hhash by (rewrite ?Ho1; done). by apply untouched_compute.
  - apply Hrest. intros w2 w3 imgs imgs' Hu Hr.
    destruct (undo_redo_recorded (dt_history_snapshot_undo_pop md5) u filter DT_UNDO_LT_HISTORY t1 t2 t3 _ _ w2 w3 imgs imgs' Hfilter Hu Hr)
      as (u2 & H1 & H2 & H3). by exists u2, (u1 hist).
Qed.

(** ** Truncation *)

(** Truncation at an end drops the edits and masks from it on and leaves the others, and
    other images, alone. *)
Lemma truncate_spec clock i history_end u c l :
  begun c = None -> history_end <> 0 -> is_Some (images (now c) !! i) -> is_history i (now c) l ->
  exists c', dt_history_truncate_on_image clock i history_end u c = Done (u, c') /\ begun c' = None /\
    is_history i (now c') (upto history_end l) /\
    masks_of i (now c') = filter (fun r => num_is (fun n => n >=? history_end) (m_num r) = false) (masks_of i (now c)) /\
    select_history_end i (now c') = history_end /\ (forall j, j <> i -> untouched j (now c) (now c')).
Proof.
  intros Hb He Hi Hl. unfold dt_history_truncate_on_image. destruct (Z.eqb_spec history_end 0); [done|].
  unfold BEGIN. rewrite Hb. unfold on_tables, COMMIT. cbn [now begun]. eexists. split; [done|]. split; [done|]. cbn [now].
  set (t := now c) in *. set (t1 := truncate_rows i history_end t).
  destruct (hash_write_same md5 i DT_HISTORY_HASH_CURRENT t1) as (Hh & Hm & _ & Him).
  pose proof (hash_write_edits md5 i DT_HISTORY_HASH_CURRENT t1) as Hed. set (t2 := dt_history_hash_write_from_history md5 i _ t1) in *.
  assert (edits_only i t t1) as Hed1.
  { unfold t1, truncate_rows. etransitivity; [|apply update_end_edits]. etransitivity; [|apply delete_masks_edits]. apply delete_edits. }
  split; [|split; [|split]].
  - apply (is_history_filter _ i t); [done|]. unfold history_of. rewrite Hh. unfold t1, truncate_rows. cbn.
    rewrite !list_filter_filter. apply filter_elem_ext. intros r Hr.
    destruct (decide (h_imgid r = i)) as [E|E]; [|tauto].
    assert (h_num r <> None) as Hn.
    { destruct Hl as [Hr' Hn _]. assert (r ∈ l) as Hrl by (rewrite <- Hr'; by apply list_elem_of_filter).
      rewrite Forall_forall in Hn. by destruct (Hn r Hrl) as [[n' ->] _]. }
    destruct (h_num r) as [k|]; [|done]. cbn. rewrite Z.geb_leb. destruct (Z.leb_spec history_end k), (Z.ltb_spec k history_end); naive_solver lia.
  - unfold masks_of at 1. rewrite Hm. unfold t1, truncate_rows, masks_of. cbn. rewrite !list_filter_filter. apply filter_elem_ext.
    intros r _. destruct (num_is _ _); naive_solver.
  - unfold select_history_end. rewrite Him. destruct Hi as [x Hx]. cbn. by rewrite lookup_alter_eq, Hx.
  - intros j Hj. etransitivity; [by apply Hed1|by apply Hed].
Qed.

End compress.

Module Example.

#[local] Instance rows_in_order : RowOrder := {| scan A l := l; scan_Permutation A l := reflexivity l |}.

Definition edit (num : Z) (operation : string) (priority : Z) (params : list nat) : history_row :=
  History_row 7 (Some num) (Some 5) (Some operation) (Some (ascii_of_nat <$> params)) (Some 1) None (Some 8) (Some priority) (Some ""%string).

Definition shape (num : Z) : masks_row := Masks_row 7 (Some num) (Some 1000) (Some 1) (Some "circle"%string) (Some 6) (Some []) (Some 1) None.

Definition edited : list history_row :=
  [edit 0 "exposure" 0 [1]%nat; edit 2 "mask_manager" 0 []; edit 3 "exposure" 1 [2]%nat; edit 4 "exposure" 0 [3]%nat].

(** Image 7 has edits with a gap and masks, image 8 one edit, image 9 undone edits. *)
Definition stored : tables :=
  Tables {[ 7 := Image_columns (Some 5) (S754_zero false); 8 := Image_columns (Some 1) (S754_zero false);
            9 := Image_columns (Some 0) (S754_zero false) ]}
    (edited ++ (h_set_imgid 8 <$> take 1 edited) ++ (h_set_imgid 9 <$> edited)) [shape 2] ∅ ∅ [] [] [].

Definition rows_of (i : Z) : list history_row :=
  if i =? 7 then edited else if i =? 8 then h_set_imgid 8 <$> take 1 edited else h_set_imgid 9 <$> edited.

Definition connected : connection := Connection stored None.

Lemma stored_history i : i = 7 \/ i = 8 \/ i = 9 -> is_history i stored (rows_of i).
Proof.
  intros Hi. destruct Hi as [-> | [-> | ->]]; (split; [vm_compute; done| |]); cbn;
    repeat (constructor; [first [split; [by eexists|done]|repeat constructor]|]); repeat constructor.
Qed.

Lemma compress_list_witness :
  exists c', dt_history_compress_on_list (fun b => b) (1, 2, 3) [7; 8; 9] (dt_undo_init : undo_t) connected =
      Done (Z.of_nat (length (filter (fun i => dt_history_end_attop i stored = 0) [7; 8; 9])), dt_undo_init, c') /\ begun c' = None /\
    (forall j, j ∉ [7; 8; 9] -> untouched j stored (now c')) /\
    forall i, i ∈ [7; 8; 9] ->
      if dt_history_end_attop i stored =? 1 then
        exists l', is_history i (now c') l' /\ num_of <$> l' = seqZ 0 (Z.of_nat (length l')) /\ NoDup (key <$> l') /\
          (forall k, fst k <> Some op_mask_manager -> content <$> last_edit k l' = content <$> last_edit k (rows_of i)) /\
          (masks_of i stored <> [] <-> head (content <$> l') = Some (content (manager_row i))) /\
          masks_of i (now c') = m_set_num (Some 0) <$> newest_masks (select_history_end i stored) (masks_of i stored) /\
          select_history_end i (now c') =
            if decide (num_of <$> compressed i (select_history_end i stored) stored (rows_of i) = [0]) then 0 else Z.of_nat (length l')
      else same_history i (now c') stored.
Proof.
  apply (compress_list (fun b => b) (1, 2, 3) [7; 8; 9] rows_of dt_undo_init connected).
  - reflexivity.
  - apply (bool_decide_unpack _). vm_compute. done.
  - intros i Hi. apply stored_history. revert Hi. rewrite !elem_of_cons, elem_of_nil. tauto.
Defined.

Definition compressed_state : tables :=
  match dt_history_compress_on_list (fun b => b) (1, 2, 3) [7; 8; 9] (dt_undo_init : undo_t) connected with
  | Done (_, _, c) => now c
  | Undefined => stored
  end.

(** The result: three edits of image 7; the edit of image 8 is switched off. *)
Example compressed_images :
  ((fun r => (h_num r, h_operation r, h_multi_priority r)) <$> history_of 7 compressed_state =
    [(Some 1, Some "exposure", Some 1); (Some 2, Some "exposure", Some 0); (Some 0, Some "mask_manager", Some 0)]%string) /\
  select_history_end 7 compressed_state = 3 /\
  length (history_of 8 compressed_state) = 1%nat /\ select_history_end 8 stored = 1 /\ select_history_end 8 compressed_state = 0.
Proof. vm_compute. done. Qed.

Lemma connection_quiet : quiet 8 (dt_undo_init : undo_t) connected.
Proof.
  split; try done.
  - split; intros r Hr; by apply not_elem_of_nil in Hr.
  - intros h Hh. by apply not_elem_of_nil in Hh.
Qed.

(** The module order of image 7 written for image 8. *)
Definition ordered : tables := match copy_order true 7 8 stored with Done t => t | Undefined => stored end.

Lemma paste_undo_redo_witness :
  exists u1 c1, dt_history_copy_and_paste_on_image (fun b => b) (1, 2, 3) 7 8 true ["exposure"%string] dt_undo_init connected = Done (0, u1, c1) /\
    is_history 8 (now c1) (h_set_imgid 8 <$> pasted ["exposure"%string] edited) /\
    masks_of 8 (now c1) ≡ₚ m_set_imgid 8 <$> pasted_masks ["exposure"%string] (history_of 7 stored) (masks_of 7 stored) /\
    select_history_end 8 (now c1) = select_history_end 7 stored /\
    orders (now c1) !! 8 = match orders stored !! 7 with Some r => Some r | None => orders ordered !! 8 end /\
    history_hash (now c1) !! 8 = (fun r => Hash_row (basic_hash r) (auto_hash r) (current_hash r) None) <$> history_hash stored !! 7 /\
    (pasted ["exposure"%string] edited = edited -> is_Some (orders stored !! 7) -> 8 <> -1 ->
     _history_hash_compute_from_db (fun b => b) 8 (now c1) = _history_hash_compute_from_db (fun b => b) 7 stored) /\
    restores 8 DT_UNDO_LIGHTTABLE dt_undo_init u1 connected c1.
Proof.
  apply (paste_undo_redo (fun b => b) (1, 2, 3) 7 8 true ["exposure"%string] ordered edited dt_undo_init connected DT_UNDO_LIGHTTABLE).
  - apply connection_quiet.
  - discriminate.
  - discriminate.
  - discriminate.
  - discriminate.
  - exact (stored_history 7 (or_introl eq_refl)).
  - discriminate.
  - vm_compute. reflexivity.
Defined.

End Example.
