(* ===== verification/Collection.v ===== *)
(** Collections of images: common/collection.c, which turns the rules, filters and sort
    orders of the user into the text of a query, keeps the images that it finds in the
    memory database, and stores rules as text.

    The queries are built as the code builds them, byte by byte. What SQLite makes of a
    query is the parameter [rows]: the first column of the rows it gives, with the numbers
    bound to it, on the part of the database that other components own. The tables
    main.selected_images and memory.collected_images are modelled; the rowid of the latter
    is the place in the list, from 1. The configuration is that of [Conf]. Parameters too
    are GRegex, strptime and strftime, gettext, the text functions of GLib, the look-up of
    camera names and dt_image_set_raw_aspect_ratio, which works on the image cache.

    Signals are not part of the state, and the text of the hint is not shown. *)

From Stdlib Require Import Ascii String DecimalString.
From S2P Require Import Prelude Utility IopOrder Calculator Conf Library Metadata.
Local Open Scope Z_scope.

(** ** Data *)

Definition COLLECTION_QUERY_USE_SORT : Z := 1.
Definition COLLECTION_QUERY_USE_LIMIT : Z := 2.
Definition COLLECTION_QUERY_USE_WHERE_EXT : Z := 4.
Definition COLLECTION_QUERY_USE_ONLY_WHERE_EXT : Z := 8.
Definition COLLECTION_QUERY_FULL : Z := Z.lor COLLECTION_QUERY_USE_SORT COLLECTION_QUERY_USE_LIMIT.

Definition COLLECTION_FILTER_FILM_ID : Z := 1.
Definition COLLECTION_FILTER_ATLEAST_RATING : Z := 2.
Definition COLLECTION_FILTER_EQUAL_RATING : Z := 4.
Definition COLLECTION_FILTER_ALTERED : Z := 8.
Definition COLLECTION_FILTER_UNALTERED : Z := 16.
Definition COLLECTION_FILTER_REJECTED : Z := 32.
Definition COLLECTION_FILTER_CUSTOM_COMPARE : Z := 64.

Definition DT_COLLECTION_FILTER_STAR_NO : Z := 1.
Definition DT_COLLECTION_FILTER_NOT_REJECT : Z := 8.

Definition DT_IMAGE_REJECTED : Z := 8.
Definition DT_IMAGE_REMOVE : Z := 256.
Definition DT_IMAGE_LOCAL_COPY : Z := 2048.

(** dt_collection_sort_t *)
Definition DT_COLLECTION_SORT_NONE : Z := -1.
Definition DT_COLLECTION_SORT_FILENAME : Z := 0.
Definition DT_COLLECTION_SORT_DATETIME : Z := 1.
Definition DT_COLLECTION_SORT_IMPORT_TIMESTAMP : Z := 2.
Definition DT_COLLECTION_SORT_CHANGE_TIMESTAMP : Z := 3.
Definition DT_COLLECTION_SORT_EXPORT_TIMESTAMP : Z := 4.
Definition DT_COLLECTION_SORT_PRINT_TIMESTAMP : Z := 5.
Definition DT_COLLECTION_SORT_RATING : Z := 6.
Definition DT_COLLECTION_SORT_ID : Z := 7.
Definition DT_COLLECTION_SORT_COLOR : Z := 8.
Definition DT_COLLECTION_SORT_GROUP : Z := 9.
Definition DT_COLLECTION_SORT_PATH : Z := 10.
Definition DT_COLLECTION_SORT_CUSTOM_ORDER : Z := 11.
Definition DT_COLLECTION_SORT_TITLE : Z := 12.
Definition DT_COLLECTION_SORT_DESCRIPTION : Z := 13.
Definition DT_COLLECTION_SORT_ASPECT_RATIO : Z := 14.
Definition DT_COLLECTION_SORT_SHUFFLE : Z := 15.

(** dt_collection_properties_t *)
Definition DT_COLLECTION_PROP_FOLDERS : Z := 0.
Definition DT_COLLECTION_PROP_FILENAME : Z := 1.
Definition DT_COLLECTION_PROP_FILMROLL : Z := 2.
Definition DT_COLLECTION_PROP_CAMERA : Z := 3.
Definition DT_COLLECTION_PROP_LENS : Z := 4.
Definition DT_COLLECTION_PROP_APERTURE : Z := 5.
Definition DT_COLLECTION_PROP_EXPOSURE : Z := 6.
Definition DT_COLLECTION_PROP_FOCAL_LENGTH : Z := 7.
Definition DT_COLLECTION_PROP_ISO : Z := 8.
Definition DT_COLLECTION_PROP_DAY : Z := 9.
Definition DT_COLLECTION_PROP_TIME : Z := 10.
Definition DT_COLLECTION_PROP_IMPORT_TIMESTAMP : Z := 11.
Definition DT_COLLECTION_PROP_CHANGE_TIMESTAMP : Z := 12.
Definition DT_COLLECTION_PROP_EXPORT_TIMESTAMP : Z := 13.
Definition DT_COLLECTION_PROP_PRINT_TIMESTAMP : Z := 14.
Definition DT_COLLECTION_PROP_GEOTAGGING : Z := 15.
Definition DT_COLLECTION_PROP_ASPECT_RATIO : Z := 16.
Definition DT_COLLECTION_PROP_TAG : Z := 17.
Definition DT_COLLECTION_PROP_COLORLABEL : Z := 18.
Definition DT_COLLECTION_PROP_METADATA : Z := 19.
Definition DT_COLLECTION_PROP_GROUPING : Z := DT_COLLECTION_PROP_METADATA + DT_METADATA_NUMBER.
Definition DT_COLLECTION_PROP_LOCAL_COPY : Z := DT_COLLECTION_PROP_GROUPING + 1.
Definition DT_COLLECTION_PROP_HISTORY : Z := DT_COLLECTION_PROP_GROUPING + 2.
Definition DT_COLLECTION_PROP_MODULE : Z := DT_COLLECTION_PROP_GROUPING + 3.
Definition DT_COLLECTION_PROP_ORDER : Z := DT_COLLECTION_PROP_GROUPING + 4.

Definition DT_COLLECTION_CHANGE_NEW_QUERY : Z := 1.
Definition DT_COLLECTION_CHANGE_RELOAD : Z := 3.

Record dt_collection_params_t := Params {
  query_flags : Z;
  filter_flags : Z;
  film_id : Z;
  rating : Z;
  comparator : Z;
  sort : Z;
  sort_second_order : Z;
  descending : bool;
}.

Record dt_collection_t := Collection {
  clone : bool;
  query : option string;
  query_no_group : option string;
  where_ext : list string;
  count : Z;
  count_no_group : Z;
  tagid : Z;
  params : dt_collection_params_t;
}.

(** [others]: what the other components own. *)
Record database (DB : Type) := Database {
  selected_images : list Z;
  collected_images : list Z;
  tmp_selection : list Z;
  others : DB;
}.
Arguments Database {DB}.
Arguments selected_images {DB}.
Arguments collected_images {DB}.
Arguments tmp_selection {DB}.
Arguments others {DB}.

(** [gui]: with the user interface, whether images are grouped, and the expanded group. *)
Record session (DB : Type) := Session {
  conf : dt_conf_t;
  db : database DB;
  gui : option (bool * Z);
}.
Arguments Session {DB}.
Arguments conf {DB}.
Arguments db {DB}.
Arguments gui {DB}.

Definition on_conf {DB} (c : dt_conf_t) (s : session DB) : session DB := Session c (db s) (gui s).
Definition on_db {DB} (d : database DB) (s : session DB) : session DB := Session (conf s) d (gui s).
Definition set_selected {DB} (l : list Z) (s : session DB) : session DB :=
  on_db (Database l (collected_images (db s)) (tmp_selection (db s)) (others (db s))) s.
Definition set_collected {DB} (l : list Z) (s : session DB) : session DB :=
  on_db (Database (selected_images (db s)) l (tmp_selection (db s)) (others (db s))) s.
Definition set_tmp {DB} (l : list Z) (s : session DB) : session DB :=
  on_db (Database (selected_images (db s)) (collected_images (db s)) l (others (db s))) s.
Definition set_others {DB} (d : DB) (s : session DB) : session DB :=
  on_db (Database (selected_images (db s)) (collected_images (db s)) (tmp_selection (db s)) d) s.

Definition set_params (p : dt_collection_params_t) (c : dt_collection_t) : dt_collection_t :=
  Collection (clone c) (query c) (query_no_group c) (where_ext c) (count c) (count_no_group c) (tagid c) p.

Definition has (flag flags : Z) : bool := negb (Z.land flags flag =? 0).

(** ** Accessors *)

Definition dt_collection_set_filter_flags (c : dt_collection_t) (flags : Z) : dt_collection_t :=
  let p := params c in
  set_params (Params (query_flags p) flags (film_id p) (rating p) (comparator p) (sort p) (sort_second_order p) (descending p)) c.
Definition dt_collection_get_filter_flags (c : dt_collection_t) : Z := filter_flags (params c).

Definition dt_collection_set_query_flags (c : dt_collection_t) (flags : Z) : dt_collection_t :=
  let p := params c in
  set_params (Params flags (filter_flags p) (film_id p) (rating p) (comparator p) (sort p) (sort_second_order p) (descending p)) c.
Definition dt_collection_get_query_flags (c : dt_collection_t) : Z := query_flags (params c).

Definition dt_collection_set_extended_where (c : dt_collection_t) (w : list string) : dt_collection_t :=
  Collection (clone c) (query c) (query_no_group c) w (count c) (count_no_group c) (tagid c) (params c).

Definition dt_collection_set_film_id (c : dt_collection_t) (id : Z) : dt_collection_t :=
  let p := params c in
  set_params (Params (query_flags p) (filter_flags p) (wrap_u32 id) (rating p) (comparator p) (sort p) (sort_second_order p) (descending p)) c.

Definition dt_collection_set_tag_id (c : dt_collection_t) (id : Z) : dt_collection_t :=
  Collection (clone c) (query c) (query_no_group c) (where_ext c) (count c) (count_no_group c) id (params c).

Definition dt_collection_set_rating (c : dt_collection_t) (r : Z) : dt_collection_t :=
  let p := params c in
  set_params (Params (query_flags p) (filter_flags p) (film_id p) r (comparator p) (sort p) (sort_second_order p) (descending p)) c.
Definition dt_collection_get_rating (c : dt_collection_t) : Z := rating (params c).

Definition dt_collection_set_rating_comparator (c : dt_collection_t) (r : Z) : dt_collection_t :=
  let p := params c in
  set_params (Params (query_flags p) (filter_flags p) (film_id p) (rating p) r (sort p) (sort_second_order p) (descending p)) c.
Definition dt_collection_get_rating_comparator (c : dt_collection_t) : Z := comparator (params c).

Definition dt_collection_get_sort_field (c : dt_collection_t) : Z := sort (params c).
Definition dt_collection_get_sort_descending (c : dt_collection_t) : bool := descending (params c).
Definition dt_collection_get_count (c : dt_collection_t) : Z := count c.
Definition dt_collection_get_count_no_group (c : dt_collection_t) : Z := count_no_group c.
Definition dt_collection_params (c : dt_collection_t) : dt_collection_params_t := params c.

Definition dt_collection_get_selected_count {DB} (s : session DB) : Z := Z.of_nat (length (selected_images (db s))).

(** ** Sorting *)

(** [DESC] in the one or the other direction. *)
Definition desc (b : bool) : string := if b then "DESC" else "".

Definition timestamp_column (order : Z) : string :=
  if order =? DT_COLLECTION_SORT_DATETIME then "datetime_taken"
  else if order =? DT_COLLECTION_SORT_IMPORT_TIMESTAMP then "import_timestamp"
  else if order =? DT_COLLECTION_SORT_CHANGE_TIMESTAMP then "change_timestamp"
  else if order =? DT_COLLECTION_SORT_EXPORT_TIMESTAMP then "export_timestamp"
  else if order =? DT_COLLECTION_SORT_PRINT_TIMESTAMP then "print_timestamp"
  else "".

Definition is_timestamp (order : Z) : bool := (DT_COLLECTION_SORT_DATETIME <=? order) && (order <=? DT_COLLECTION_SORT_PRINT_TIMESTAMP).

(** The criterion of the second order. *)
Definition second_order (p : dt_collection_params_t) : string :=
  let d := descending p in
  let o := sort_second_order p in
  if is_timestamp o then timestamp_column o +:+ " " +:+ desc d
  else if o =? DT_COLLECTION_SORT_RATING then "CASE WHEN flags & 8 = 8 THEN -1 ELSE flags & 7 END " +:+ desc (negb d)
  else if o =? DT_COLLECTION_SORT_FILENAME then "filename " +:+ desc d
  else if o =? DT_COLLECTION_SORT_ID then "mi.id " +:+ desc d
  else if o =? DT_COLLECTION_SORT_COLOR then "color " +:+ desc (negb d)
  else if o =? DT_COLLECTION_SORT_GROUP then "group_id " +:+ desc d +:+ ", mi.id-group_id != 0"
  else if o =? DT_COLLECTION_SORT_PATH then "folder " +:+ desc d +:+ ", filename " +:+ desc d
  else if o =? DT_COLLECTION_SORT_CUSTOM_ORDER then "position " +:+ desc d
  else if (o =? DT_COLLECTION_SORT_TITLE) || (o =? DT_COLLECTION_SORT_DESCRIPTION) then "m.value " +:+ desc d
  else if o =? DT_COLLECTION_SORT_ASPECT_RATIO then "aspect_ratio " +:+ desc d
  else "filename " +:+ desc d.

Definition dt_collection_get_sort_query (c : dt_collection_t) : string :=
  let p := params c in
  let o := sort p in
  let second := second_order p in
  if descending p then
    if is_timestamp o then "ORDER BY " +:+ timestamp_column o +:+ " DESC, " +:+ second +:+ ", filename DESC, version DESC"
    else if o =? DT_COLLECTION_SORT_RATING then
      "ORDER BY CASE WHEN flags & 8 = 8 THEN -1 ELSE flags & 7 END, " +:+ second +:+ ", filename DESC, version DESC"
    else if o =? DT_COLLECTION_SORT_FILENAME then "ORDER BY filename DESC, " +:+ second +:+ ", version DESC"
    else if o =? DT_COLLECTION_SORT_ID then "ORDER BY mi.id DESC"
    else if o =? DT_COLLECTION_SORT_COLOR then "ORDER BY color, " +:+ second +:+ ", filename DESC, version DESC"
    else if o =? DT_COLLECTION_SORT_GROUP then "ORDER BY group_id DESC, " +:+ second +:+ ", mi.id-group_id != 0, mi.id DESC"
    else if o =? DT_COLLECTION_SORT_PATH then "ORDER BY folder DESC, filename DESC, " +:+ second +:+ ", version DESC"
    else if o =? DT_COLLECTION_SORT_CUSTOM_ORDER then "ORDER BY position DESC, " +:+ second +:+ ", filename DESC, version DESC"
    else if (o =? DT_COLLECTION_SORT_TITLE) || (o =? DT_COLLECTION_SORT_DESCRIPTION) then "ORDER BY m.value DESC, filename DESC, version DESC"
    else if o =? DT_COLLECTION_SORT_ASPECT_RATIO then "ORDER BY aspect_ratio DESC, " +:+ second +:+ ", filename DESC, version DESC"
    else if o =? DT_COLLECTION_SORT_SHUFFLE then "ORDER BY RANDOM()"
    else "ORDER BY mi.id DESC"
  else
    if is_timestamp o then "ORDER BY " +:+ timestamp_column o +:+ ", " +:+ second +:+ ", filename, version"
    else if o =? DT_COLLECTION_SORT_RATING then
      "ORDER BY CASE WHEN flags & 8 = 8 THEN -1 ELSE flags & 7 END DESC, " +:+ second +:+ ", filename, version"
    else if o =? DT_COLLECTION_SORT_FILENAME then "ORDER BY filename, " +:+ second +:+ ", version"
    else if o =? DT_COLLECTION_SORT_ID then "ORDER BY mi.id"
    else if o =? DT_COLLECTION_SORT_COLOR then "ORDER BY color DESC, " +:+ second +:+ ", filename, version"
    else if o =? DT_COLLECTION_SORT_GROUP then "ORDER BY group_id, " +:+ second +:+ ", mi.id-group_id != 0, mi.id"
    else if o =? DT_COLLECTION_SORT_PATH then "ORDER BY folder, filename, " +:+ second +:+ ", version"
    else if o =? DT_COLLECTION_SORT_CUSTOM_ORDER then "ORDER BY position, " +:+ second +:+ ", filename, version"
    else if (o =? DT_COLLECTION_SORT_TITLE) || (o =? DT_COLLECTION_SORT_DESCRIPTION) then "ORDER BY m.value, filename, version"
    else if o =? DT_COLLECTION_SORT_ASPECT_RATIO then "ORDER BY aspect_ratio, " +:+ second +:+ ", filename, version"
    else if o =? DT_COLLECTION_SORT_SHUFFLE then "ORDER BY RANDOM()"
    else "ORDER BY mi.id".

(** ** The query *)

Definition SQL_REMOVED : string := "(flags & " +:+ c_show_int DT_IMAGE_REMOVE +:+ ") != " +:+ c_show_int DT_IMAGE_REMOVE.

Definition comparators : list string := ["<"; "<="; "="; ">="; ">"; "!="].

(** The columns of the query on main.images, with the positions in a tag. *)
Definition select_columns (tagid : Z) : string :=
  "SELECT DISTINCT mi.id FROM (SELECT" +:+
  "  id, group_id, film_id, filename, datetime_taken, " +:+
  "  flags, version, " +:+ (if tagid =? 0 then "" else "CASE WHEN ti.position IS NULL THEN 0 ELSE ti.position END AS") +:+
  " position, aspect_ratio," +:+
  "  maker, model, lens, aperture, exposure, focal_length," +:+
  "  iso, import_timestamp, change_timestamp," +:+
  "  export_timestamp, print_timestamp" +:+
  "  FROM main.images AS mi " +:+
  (if tagid =? 0 then "" else " LEFT JOIN main.tagged_images AS ti ON ti.imgid = mi.id AND ti.tagid = ") +:+
  (if tagid =? 0 then "" else c_show_int (wrap_s32 tagid)).

Definition _dt_collection_set_selq_pre_sort (c : dt_collection_t) : string := select_columns (tagid c) +:+ " WHERE ".

(** The rating part of the filter. *)
Definition rating_filter (p : dt_collection_params_t) : c_result string :=
  let rejected_check := "((flags & " +:+ c_show_int DT_IMAGE_REJECTED +:+ ") == " +:+ c_show_int DT_IMAGE_REJECTED +:+ ")" in
  let r := if rating p =? DT_COLLECTION_FILTER_NOT_REJECT then DT_COLLECTION_FILTER_STAR_NO else rating p in
  let stars op := "  AND  (flags & 7) " +:+ op +:+ " " +:+ c_show_int (wrap_s32 (r - 1)) +:+ " AND NOT " +:+ rejected_check in
  if has COLLECTION_FILTER_REJECTED (filter_flags p) then Done ("  AND  " +:+ rejected_check)
  else if has COLLECTION_FILTER_CUSTOM_COMPARE (filter_flags p) then
    match comparators !! Z.to_nat (comparator p) with
    | Some op => if comparator p <? 0 then Undefined else Done (stars op)
    | None => Undefined
    end
  else if has COLLECTION_FILTER_ATLEAST_RATING (filter_flags p) then Done (stars ">=")
  else if has COLLECTION_FILTER_EQUAL_RATING (filter_flags p) then Done (stars "==")
  else Done "".

Definition altered_filter (p : dt_collection_params_t) : string :=
  if has COLLECTION_FILTER_ALTERED (filter_flags p) then
    "  AND  id IN (SELECT imgid FROM main.images, main.history_hash " +:+
    "WHERE imgid=mi.id AND history_hash.imgid=id AND " +:+
    " (basic_hash IS NULL OR current_hash != basic_hash) AND " +:+
    " (auto_hash IS NULL OR current_hash != auto_hash))"
  else if has COLLECTION_FILTER_UNALTERED (filter_flags p) then
    "  AND  id IN (SELECT imgid FROM main.images, main.history_hash " +:+
    "WHERE imgid=mi.id AND history_hash.imgid=id AND " +:+
    " (current_hash == basic_hash OR current_hash == auto_hash))"
  else "".

(** The part behind WHERE, without the grouping. *)
Definition where_part (p : dt_collection_params_t) (where_ext : string) : c_result string :=
  if has COLLECTION_QUERY_USE_ONLY_WHERE_EXT (query_flags p) then Done where_ext
  else
    let* stars := rating_filter p in
    Done ((if has COLLECTION_FILTER_FILM_ID (filter_flags p)
           then " (film_id = " +:+ c_show_int (wrap_s32 (film_id p)) +:+ ")  AND  " else "  ") +:+
          SQL_REMOVED +:+ stars +:+ altered_filter p +:+
          (if has COLLECTION_QUERY_USE_WHERE_EXT (query_flags p) then "  AND  " +:+ where_ext else "")).

Definition group_part (gui : option (bool * Z)) (wq_no_group : string) : string :=
  match gui with
  | Some (true, expanded_group_id) =>
      wq_no_group +:+ " AND (group_id = " +:+ c_show_int expanded_group_id +:+ " OR " +:+
      "id IN (SELECT id FROM " +:+
      "(SELECT id, MIN(ABS(id-group_id)*2 + CASE WHEN (id-group_id) < 0 THEN 1 ELSE 0 END) " +:+
      "FROM main.images WHERE " +:+ wq_no_group +:+ " GROUP BY group_id)))" +:+
      " OR (id = " +:+ c_show_int expanded_group_id +:+ ")"
  | _ => wq_no_group
  end.

Definition DT_METADATA_XMP_DC_TITLE : Z := 2.
Definition DT_METADATA_XMP_DC_DESCRIPTION : Z := 3.

Definition color_join : string := ") AS mi LEFT OUTER JOIN main.color_labels AS b ON mi.id = b.imgid".
Definition path_join : string := "JOIN (SELECT id AS film_rolls_id, folder FROM main.film_rolls) ON film_id = film_rolls_id".
Definition title_join (key : Z) : string := " LEFT OUTER JOIN main.meta_data AS m ON mi.id = m.id AND m.key = " +:+ c_show_int key.

(** Both criteria, in any order. *)
Definition sorts_by (p : dt_collection_params_t) (a b : Z) : bool :=
  ((sort p =? a) && (sort_second_order p =? b)) || ((sort p =? b) && (sort_second_order p =? a)).

Definition sorts_one (p : dt_collection_params_t) (a : Z) : bool := (sort p =? a) || (sort_second_order p =? a).

(** The parts of the select before and behind the filter. *)
Definition select_parts (c : dt_collection_t) : string * string :=
  let p := params c in
  let pre := _dt_collection_set_selq_pre_sort c in
  let TITLE := DT_COLLECTION_SORT_TITLE in
  let DESCRIPTION := DT_COLLECTION_SORT_DESCRIPTION in
  let COLOR := DT_COLLECTION_SORT_COLOR in
  let PATH := DT_COLLECTION_SORT_PATH in
  let use_sort := has COLLECTION_QUERY_USE_SORT (query_flags p) in
  if sorts_by p COLOR PATH && use_sort then (pre, color_join +:+ " " +:+ path_join)
  else if sorts_by p COLOR TITLE && use_sort then (pre, color_join +:+ title_join DT_METADATA_XMP_DC_TITLE)
  else if sorts_by p COLOR DESCRIPTION && use_sort then (pre, color_join +:+ title_join DT_METADATA_XMP_DC_DESCRIPTION +:+ " ")
  else if sorts_by p TITLE PATH && use_sort then (pre, ") AS mi " +:+ path_join +:+ title_join DT_METADATA_XMP_DC_TITLE)
  else if sorts_by p DESCRIPTION PATH && use_sort then (pre, ") AS mi " +:+ path_join +:+ title_join DT_METADATA_XMP_DC_DESCRIPTION)
  else if sorts_by p DESCRIPTION TITLE && use_sort then
    (pre, ") AS mi LEFT OUTER JOIN main.meta_data AS m ON mi.id = m.id AND (m.key = " +:+ c_show_int DT_METADATA_XMP_DC_TITLE +:+
          " OR m.key = " +:+ c_show_int DT_METADATA_XMP_DC_DESCRIPTION +:+ ")")
  else if sorts_one p COLOR && use_sort then (pre, color_join)
  else if sorts_one p PATH && use_sort then (pre, ") AS mi " +:+ path_join)
  else if sorts_one p TITLE && use_sort then (pre, ") AS mi" +:+ title_join DT_METADATA_XMP_DC_TITLE +:+ " ")
  else if sorts_one p DESCRIPTION && use_sort then (pre, ") AS mi" +:+ title_join DT_METADATA_XMP_DC_DESCRIPTION +:+ " ")
  else if has COLLECTION_QUERY_USE_ONLY_WHERE_EXT (query_flags p) then (select_columns (tagid c) +:+ " ) AS mi ", "")
  else (select_columns (tagid c) +:+ " ) AS mi WHERE ", "").

Definition order_part (c : dt_collection_t) : string :=
  let f := query_flags (params c) in
  if negb (has COLLECTION_QUERY_USE_ONLY_WHERE_EXT f) && has COLLECTION_QUERY_USE_SORT f then dt_collection_get_sort_query c else "".

Definition limit_part (c : dt_collection_t) : string :=
  if has COLLECTION_QUERY_USE_LIMIT (query_flags (params c)) then " LIMIT ?1, ?2" else "".

(** With the rules joined. *)
Definition extended_where (rules : list string) : string := "(1=1" +:+ fold_right String.append "" rules +:+ ")".

(** The query, and the one with the images hidden in groups. *)
Definition build_query (gui : option (bool * Z)) (c : dt_collection_t) : c_result (string * string) :=
  let* wq_no_group := where_part (params c) (extended_where (where_ext c)) in
  let '(selq_pre, selq_post) := select_parts c in
  let whole wq := selq_pre +:+ wq +:+ selq_post +:+ " " +:+ order_part c +:+ limit_part c in
  Done (whole (group_part gui wq_no_group), whole wq_no_group).

(** ** Rules *)

(** [%q]: quotes are doubled. *)
Fixpoint escape (s : string) : string :=
  match s with
  | "" => ""
  | String c s => if (c =? "'")%char then String c (String c (escape s)) else String c (escape s)
  end.

Definition sqlite_q (s : option string) : string := match s with Some s => escape s | None => "(NULL)" end.

(** The fields of a [struct tm] that are used. *)
Record tm := Tm {
  tm_year : Z;
  tm_mon : Z;
  tm_mday : Z;
  tm_hour : Z;
  tm_min : Z;
  tm_sec : Z;
}.

(** ** Patterns *)

(** The double quote. *)
Definition quote_mark : string := String "034" "".

Definition NUMBER_RANGE : string := "^\s*\[\s*([0-9]+\.?[0-9]*)\s*;\s*([0-9]+\.?[0-9]*)\s*\]\s*$".
Definition NUMBER : string := "^\s*(=|<|>|<=|>=|<>)?\s*([0-9]+\.?[0-9]*)\s*$".
Definition DATETIME_RANGE : string := "^\s*\[\s*(\d{4}[:\d\s]*)\s*;\s*(\d{4}[:\d\s]*)\s*\]\s*$".
Definition DATETIME : string := "^\s*(=|<|>|<=|>=|<>)?\s*(\d{4}[:\d\s]*)?\s*%?\s*$".
Definition EXPOSURE_RANGE : string := "^\s*\[\s*(1/)?([0-9]+\.?[0-9]*)(" +:+ quote_mark +:+ ")?\s*;\s*(1/)?([0-9]+\.?[0-9]*)(" +:+ quote_mark +:+ ")?\s*\]\s*$".
Definition EXPOSURE : string := "^\s*(=|<|>|<=|>=|<>)?\s*(1/)?([0-9]+\.?[0-9]*)(" +:+ quote_mark +:+ ")?\s*$".

(** The operands of the rules are read by these. *)
Definition rule_patterns : list string := [NUMBER_RANGE; NUMBER; DATETIME_RANGE; DATETIME; EXPOSURE_RANGE; EXPOSURE].

Section texts.
Context (g_regex_match : string -> string -> list string).
Context (strptime : string -> string -> tm -> option tm).
Context (strftime : nat -> string -> tm -> string).
Context (gettext : string -> string).
Context (camera_rules : string -> list (option string * option string)).

(** number1, number2 and operator; a match has the text as its group 0. *)
Definition operands : Type := option string * option string * option string.

Definition dt_collection_split_operator_number (input : string) : operands :=
  match g_regex_match NUMBER_RANGE input with
  | [_; number1; number2] => (Some number1, Some number2, Some "[]")
  | _ =>
      match g_regex_match NUMBER input with
      | [_; operator; number1] => (Some number1, None, if String.eqb operator "" then None else Some operator)
      | _ => (None, None, None)
      end
  end%string.

Definition _dt_collection_compute_datetime (operator input : string) : option string :=
  let len := String.length input in
  if (len <? 4)%nat then None
  else
    let tm1 :=
      if String.eqb operator ">" || String.eqb operator "<=" then Tm 0 11 31 23 59 59
      else if String.eqb operator "<" || String.eqb operator ">=" then Tm 0 0 1 0 0 0
      else Tm 0 0 0 0 0 0 in
    let format :=
      if (len <? 7)%nat then "%Y"
      else if (len <? 10)%nat then "%Y:%m"
      else if (len <? 13)%nat then "%Y:%m:%d"
      else if (len <? 16)%nat then "%Y:%m:%d %H"
      else if (len <? 19)%nat then "%Y:%m:%d %H:%M"
      else "%Y:%m:%d %H:%M:%S" in
    strftime 20 "%Y:%m:%d %H:%M:%S" <$> strptime input format tm1.

(** The operator is never NULL. *)
Definition dt_collection_split_operator_datetime (input : string) : option string * option string * string :=
  match g_regex_match DATETIME_RANGE input with
  | [_; txt; txt2] => (_dt_collection_compute_datetime ">=" txt, _dt_collection_compute_datetime "<=" txt2, "[]")
  | _ =>
      match g_regex_match DATETIME input with
      | [_; operator; txt] =>
          (if String.eqb operator "" || String.eqb operator "=" || String.eqb operator "<>" then Some (txt +:+ "%")
           else _dt_collection_compute_datetime operator txt, None, operator)
      | _ => (None, None, "")
      end
  end%string.

(** A fraction, if its first part was found. *)
Definition fraction (part number : string) : string :=
  if strstr "1/" part is Some _ then "1.0/" +:+ number else number.

Definition dt_collection_split_operator_exposure (input : string) : operands :=
  match g_regex_match EXPOSURE_RANGE input with
  | _ :: f1 :: n1 :: _ :: f2 :: n2 :: ([] | [_]) => (Some (fraction f1 n1), Some (fraction f2 n2), Some "[]")
  | _ =>
      match g_regex_match EXPOSURE input with
      | _ :: operator :: f1 :: n1 :: ([] | [_]) => (Some (fraction f1 n1), None, if String.eqb operator "" then None else Some operator)
      | _ => (None, None, None)
      end
  end%string.

(** The rule of a number column: a range, a comparison, an equality or a text. *)
Definition number_rule (column : string) (equal : string -> string) (text : string) (o : operands) : option string :=
  let '(number1, number2, operator) := o in
  let like := ("(" +:+ column +:+ " LIKE '%" +:+ text +:+ "%')")%string in
  match operator with
  | Some op =>
      if String.eqb op "[]" then
        match number1, number2 with
        | Some n1, Some n2 => Some ("((" +:+ column +:+ " >= " +:+ n1 +:+ ") AND (" +:+ column +:+ " <= " +:+ n2 +:+ "))")
        | _, _ => None
        end
      else match number1 with Some n1 => Some ("(" +:+ column +:+ " " +:+ op +:+ " " +:+ n1 +:+ ")") | None => Some like end
  | None => match number1 with Some n1 => Some (equal n1) | None => Some like end
  end%string.

Definition exposure_rule (text : string) (o : operands) : option string :=
  let '(number1, number2, operator) := o in
  let like := ("(exposure LIKE '%" +:+ text +:+ "%')")%string in
  match operator with
  | Some op =>
      if String.eqb op "[]" then
        match number1, number2 with
        | Some n1, Some n2 => Some ("((exposure >= " +:+ n1 +:+ "  - 1.0/100000) AND (exposure <= " +:+ n2 +:+ "  + 1.0/100000))")
        | _, _ => None
        end
      else match number1 with Some n1 => Some ("(exposure " +:+ op +:+ " " +:+ n1 +:+ ")") | None => Some like end
  | None =>
      match number1 with
      | Some n1 =>
          Some ("(CASE WHEN exposure < 0.4 THEN ((exposure >= " +:+ n1 +:+ " - 1.0/100000) AND  (exposure <= " +:+ n1 +:+ " + 1.0/100000)) " +:+
                "ELSE (ROUND(exposure,2) >= " +:+ n1 +:+ " - 1.0/100000) AND (ROUND(exposure,2) <= " +:+ n1 +:+ " + 1.0/100000) END)")
      | None => Some like
      end
  end%string.

Definition datetime_rule (text : string) (o : option string * option string * string) : option string :=
  let '(number1, number2, operator) := o in
  if String.eqb operator "[]" then
    match number1, number2 with
    | Some n1, Some n2 => Some ("((datetime_taken >= '" +:+ n1 +:+ "') AND (datetime_taken <= '" +:+ n2 +:+ "'))")
    | _, _ => None
    end
  else
    match number1 with
    | Some n1 =>
        if String.eqb operator "=" || String.eqb operator "" then Some ("(datetime_taken LIKE '" +:+ n1 +:+ "')")
        else if String.eqb operator "<>" then Some ("(datetime_taken NOT LIKE '" +:+ n1 +:+ "')")
        else Some ("(datetime_taken " +:+ operator +:+ " '" +:+ n1 +:+ "')")
    | None => Some ("(datetime_taken LIKE '%" +:+ text +:+ "%')")
    end%string.

(** The date in the range has a colon behind the day, in the other forms a space. *)
Definition timestamp_rule (column text : string) (o : option string * option string * string) : option string :=
  let '(number1, number2, operator) := o in
  let time := "strftime('%Y:%m:%d %H:%M:%S', " +:+ column +:+ ", 'unixepoch', 'localtime')" in
  let range_time := "strftime('%Y:%m:%d:%H:%M:%S', " +:+ column +:+ ", 'unixepoch', 'localtime')" in
  if String.eqb operator "[]" then
    match number1, number2 with
    | Some n1, Some n2 => Some ("((" +:+ range_time +:+ " >= '" +:+ n1 +:+ "') AND (" +:+ range_time +:+ " <= '" +:+ n2 +:+ "'))")
    | _, _ => None
    end
  else
    match number1 with
    | Some n1 =>
        if String.eqb operator "=" || String.eqb operator "" then Some ("(" +:+ time +:+ " LIKE '" +:+ n1 +:+ "')")
        else if String.eqb operator "<>" then Some ("(" +:+ time +:+ " NOT LIKE '" +:+ n1 +:+ "')")
        else Some ("(" +:+ time +:+ " " +:+ operator +:+ " '" +:+ n1 +:+ "')")
    | None => Some ("(" +:+ time +:+ " LIKE '%" +:+ text +:+ "%')")
    end%string.

Definition property_column (property : Z) : string :=
  if property =? DT_COLLECTION_PROP_IMPORT_TIMESTAMP then "import_timestamp"
  else if property =? DT_COLLECTION_PROP_CHANGE_TIMESTAMP then "change_timestamp"
  else if property =? DT_COLLECTION_PROP_EXPORT_TIMESTAMP then "export_timestamp"
  else "print_timestamp".

Definition color_number (text : string) : Z :=
  if String.eqb text (gettext "red") then 0
  else if String.eqb text (gettext "yellow") then 1
  else if String.eqb text (gettext "green") then 2
  else if String.eqb text (gettext "blue") then 3
  else if String.eqb text (gettext "purple") then 4
  else 0.

Definition history_condition (text : string) : string :=
  if String.eqb text (gettext "basic") then "WHERE (basic_hash IS NULL OR current_hash != basic_hash) "
  else if String.eqb text (gettext "auto applied") then "WHERE current_hash == auto_hash "
  else if String.eqb text (gettext "altered") then
    "WHERE (basic_hash IS NULL OR current_hash != basic_hash) " +:+
    "AND (auto_hash IS NULL OR current_hash != auto_hash) "
  else "".

(** The kind of module order with this name. *)
Fixpoint find_order (n : nat) (i : Z) (text : string) : option Z :=
  match n with
  | O => None
  | S n => if String.eqb text (gettext (dt_iop_order_string i)) then Some i else find_order n (i + 1) text
  end.

(** NULL is [None], for which the caller takes (1=1). *)
Definition property_rule (property : Z) (text : string) : option string :=
  let escaped_text := escape text in
  if property =? DT_COLLECTION_PROP_FILMROLL then
    Some (if String.eqb escaped_text ""
          then "(film_id IN (SELECT id FROM main.film_rolls WHERE folder LIKE '" +:+ escaped_text +:+ "%'))"
          else "(film_id IN (SELECT id FROM main.film_rolls WHERE folder LIKE '" +:+ escaped_text +:+ "'))")
  else if property =? DT_COLLECTION_PROP_FOLDERS then
    Some ("(film_id IN (SELECT id FROM main.film_rolls WHERE folder LIKE '" +:+ escaped_text +:+ "' OR folder LIKE '" +:+
          escaped_text +:+ "/%'))")
  else if property =? DT_COLLECTION_PROP_COLORLABEL then
    Some (if String.eqb escaped_text "" || String.eqb escaped_text "%"
          then "(id IN (SELECT imgid FROM main.color_labels WHERE color IS NOT NULL))"
          else "(id IN (SELECT imgid FROM main.color_labels WHERE color=" +:+ c_show_int (color_number escaped_text) +:+ "))")
  else if property =? DT_COLLECTION_PROP_HISTORY then
    Some ("(id " +:+ (if String.eqb escaped_text (gettext "basic") then "not" else "") +:+
          " IN (SELECT imgid FROM main.history_hash " +:+ history_condition escaped_text +:+ ")) ")
  else if property =? DT_COLLECTION_PROP_LOCAL_COPY then
    Some ("(id " +:+ (if String.eqb escaped_text (gettext "not copied locally") then "not" else "") +:+
          " IN (SELECT id AS imgid FROM main.images WHERE (flags & " +:+ c_show_int DT_IMAGE_LOCAL_COPY +:+ "))) ")
  else if property =? DT_COLLECTION_PROP_ASPECT_RATIO then
    number_rule "aspect_ratio" (fun n => "(aspect_ratio = " +:+ n +:+ ")") escaped_text (dt_collection_split_operator_number escaped_text)
  else if property =? DT_COLLECTION_PROP_CAMERA then
    Some ("((1=0)" +:+
          fold_right (fun '(mk, md) s => " OR (maker = '" +:+ sqlite_q mk +:+ "' AND model = '" +:+ sqlite_q md +:+ "')" +:+ s) "" (camera_rules text) +:+
          ")")
  else if property =? DT_COLLECTION_PROP_TAG then
    Some ("(id IN (SELECT imgid FROM main.tagged_images AS a JOIN data.tags AS b ON a.tagid = b.id WHERE name LIKE '" +:+ escaped_text +:+ "'))")
  else if property =? DT_COLLECTION_PROP_LENS then Some ("(lens LIKE '%" +:+ escaped_text +:+ "%')")
  else if property =? DT_COLLECTION_PROP_FOCAL_LENGTH then
    number_rule "focal_length" (fun n => "(CAST(focal_length AS INTEGER) = CAST(" +:+ n +:+ " AS INTEGER))") escaped_text
      (dt_collection_split_operator_number escaped_text)
  else if property =? DT_COLLECTION_PROP_ISO then
    number_rule "iso" (fun n => "(iso = " +:+ n +:+ ")") escaped_text (dt_collection_split_operator_number escaped_text)
  else if property =? DT_COLLECTION_PROP_APERTURE then
    number_rule "ROUND(aperture,1)" (fun n => "(ROUND(aperture,1) = " +:+ n +:+ ")") escaped_text (dt_collection_split_operator_number escaped_text)
  else if property =? DT_COLLECTION_PROP_EXPOSURE then exposure_rule escaped_text (dt_collection_split_operator_exposure escaped_text)
  else if property =? DT_COLLECTION_PROP_FILENAME then
    Some ("(" +:+ default "(null)" (dt_util_glist_to_str " OR " ((fun name => "(filename LIKE '%" +:+ name +:+ "%')") <$>
                                      default [] (dt_util_str_to_glist "," (Some escaped_text)))) +:+ ")")
  else if (property =? DT_COLLECTION_PROP_DAY) || (property =? DT_COLLECTION_PROP_TIME) then
    datetime_rule escaped_text (dt_collection_split_operator_datetime escaped_text)
  else if (DT_COLLECTION_PROP_IMPORT_TIMESTAMP <=? property) && (property <=? DT_COLLECTION_PROP_PRINT_TIMESTAMP) then
    timestamp_rule (property_column property) escaped_text (dt_collection_split_operator_datetime escaped_text)
  else if property =? DT_COLLECTION_PROP_GROUPING then
    Some ("(id " +:+ (if String.eqb escaped_text (gettext "group leaders") then "=" else "!=") +:+ " group_id)")
  else if property =? DT_COLLECTION_PROP_MODULE then
    Some ("(id IN (SELECT imgid AS id FROM main.history AS h JOIN memory.darktable_iop_names AS m ON m.operation = h.operation " +:+
          "WHERE h.enabled = 1 AND m.name LIKE '" +:+ escaped_text +:+ "'))")
  else if property =? DT_COLLECTION_PROP_ORDER then
    match find_order (Z.to_nat DT_IOP_ORDER_LAST) 0 escaped_text with
    | Some i => Some ("(id IN (SELECT imgid FROM main.module_order WHERE version = " +:+ c_show_int i +:+ "))")
    | None => Some "(id NOT IN (SELECT imgid FROM main.module_order))"
    end
  else if (DT_COLLECTION_PROP_METADATA <=? property) && (property <? DT_COLLECTION_PROP_METADATA + DT_METADATA_NUMBER) then
    let keyid := dt_metadata_get_keyid_by_display_order (property - DT_COLLECTION_PROP_METADATA) in
    Some (if String.eqb escaped_text (gettext "not defined")
          then "(id NOT IN (SELECT id FROM main.meta_data WHERE key = " +:+ c_show_int keyid +:+ "))"
          else "(id IN (SELECT id FROM main.meta_data WHERE key = " +:+ c_show_int keyid +:+ " AND value LIKE '%" +:+ escaped_text +:+ "%'))")
  else None.

Definition get_query_string (property : Z) (text : string) : string := default "(1=1)"%string (property_rule property text).

End texts.

(** ** The collection *)

Section collection.
Context (g_ascii_strtod : string -> float * string) (fmodf powf : float -> float -> float).
Context (g_regex_match : string -> string -> list string) (strptime : string -> string -> tm -> option tm)
        (strftime : nat -> string -> tm -> string) (gettext : string -> string).
Context (lookup_makermodel : option string -> option string -> string * string * string) (g_utf8_strdown : string -> string).
Context {DB : Type} (rows : string -> list Z -> DB -> list Z).
(** The makers and models of main.images, grouped. *)
Context (makers : DB -> list (option string * option string)).
(** dt_image_set_raw_aspect_ratio, and whether the time is over after some images. *)
Context (set_raw_aspect_ratio : Z -> DB -> DB) (late : nat -> bool).
Context `{RowOrder}.

Abbreviation session_t := (session DB).

Definition get_int (name : string) (s : session_t) : c_result (Z * session_t) :=
  let* (z, c) := dt_conf_get_int g_ascii_strtod fmodf powf (conf s) name in
  Done (z, on_conf c s).

Definition get_string (name : string) (s : session_t) : string * session_t :=
  let '(v, c) := dt_conf_get_string (conf s) name in (v, on_conf c s).

(** The settings of a rule. *)
Definition rule_name (what : string) (k : Z) : string := "plugins/lighttable/collect/" +:+ what +:+ c_show_int k.

(** The numbers bound to a query; without a limit there are no parameters. *)
Definition bound (c : dt_collection_t) (numbers : list Z) : list Z :=
  if has COLLECTION_QUERY_USE_LIMIT (query_flags (params c)) then numbers else [].

(** ** Camera names *)

Definition dt_collection_get_makermodel (exif_maker exif_model : option string) : string :=
  let '(maker, model, _) := lookup_makermodel exif_maker exif_model in maker +:+ " " +:+ model.

(** The cameras whose name contains [filter] ([g_strrstr]). *)
Definition matching_makermodels (filter : option string) (d : DB) : list (string * (option string * option string)) :=
  let needle := match filter with Some "" | None => None | Some f => Some (g_utf8_strdown f) end in
  omap (fun '(exif_maker, exif_model) =>
    let makermodel := dt_collection_get_makermodel exif_maker exif_model in
    let keep := match needle with
                | None => true
                | Some needle => if strstr needle (g_utf8_strdown makermodel) is Some _ then true else false
                end in
    if keep then Some (makermodel, (exif_maker, exif_model)) else None) (makers d).

(** The list [sanitized]: the names, sorted. *)
Definition sanitized_makermodels (filter : option string) (d : DB) : list string :=
  g_list_sort g_strcmp0 (remove_dups (fst <$> matching_makermodels filter d)).

Definition exif_makermodels (filter : option string) (d : DB) : list (option string * option string) :=
  snd <$> matching_makermodels filter d.

Definition rule_text (property : Z) (text : string) (s : session_t) : string :=
  get_query_string g_regex_match strptime strftime gettext (fun text => exif_makermodels (Some text) (others (db s))) property text.

(** ** Counting and storing *)

Definition dt_collection_get_extended_where (c : dt_collection_t) (exclude : Z) (s : session_t) : c_result (string * session_t) :=
  if exclude >=? 0 then
    let* (mode, s) := get_int (rule_name "mode" exclude) s in
    Done (extended_where (if mode =? 1 then [] else omap (fun '(i, w) => if Z.of_nat i =? exclude then None else Some w) (imap pair (where_ext c))), s)
  else Done (extended_where (where_ext c), s).

(** The text of the query to count. *)
Definition count_query (c : dt_collection_t) (q : string) : string :=
  if has COLLECTION_QUERY_USE_ONLY_WHERE_EXT (query_flags (params c))
  then "SELECT COUNT(DISTINCT main.images.id) FROM main.images AS mi " +:+ extended_where (where_ext c)
  else "SELECT COUNT(DISTINCT mi.id) " +:+ match strstr "FROM" q with Some (_, found) => found | None => "(null)" end.

Definition _dt_collection_compute_count (c : dt_collection_t) (q : string) (s : session_t) : Z :=
  let f := query_flags (params c) in
  let numbers := if has COLLECTION_QUERY_USE_LIMIT f && negb (has COLLECTION_QUERY_USE_ONLY_WHERE_EXT f) then [0; -1] else [] in
  wrap_u32 (default 1 (head (rows (count_query c q) numbers (others (db s))))).

(** [is_main]: the collection is darktable.collection. *)
Definition _dt_collection_store (is_main : bool) (q q_no_group : string) (c : dt_collection_t) (s : session_t) : dt_collection_t * session_t :=
  let p := params c in
  let set_int name v k := dt_conf_set_int k ("plugins/collection/" +:+ name) (wrap_s32 v) in
  let k :=
    if is_main then
      dt_conf_set_bool
        (set_int "sort_second_order" (sort_second_order p) (set_int "sort" (sort p)
          (set_int "rating_comparator" (comparator p) (set_int "rating" (rating p) (set_int "film_id" (film_id p)
            (set_int "filter_flags" (filter_flags p) (set_int "query_flags" (query_flags p) (conf s))))))))
        "plugins/collection/descending" (if descending p then 1 else 0)
    else conf s in
  (Collection (clone c) (Some q) (Some q_no_group) (where_ext c) (count c) (count_no_group c) (tagid c) p, on_conf k s).

Fixpoint refresh_aspect_ratios (n : nat) (ids : list Z) (d : DB) : DB :=
  match ids with
  | [] => d
  | id :: ids =>
      let d := set_raw_aspect_ratio id d in
      if late n then d else refresh_aspect_ratios (S n) ids d
  end.

Definition _collection_update_aspect_ratio (c : dt_collection_t) (s : session_t) : session_t :=
  if sort (params c) =? DT_COLLECTION_SORT_ASPECT_RATIO then
    let q := "SELECT id FROM main.images WHERE " +:+ extended_where (where_ext c) +:+ " AND (aspect_ratio=0.0 OR aspect_ratio IS NULL)" in
    set_others (refresh_aspect_ratios 0 (rows q [] (others (db s))) (others (db s))) s
  else s.

Definition dt_collection_update (is_main : bool) (c : dt_collection_t) (s : session_t) : c_result (dt_collection_t * session_t) :=
  let* (q, q_no_group) := build_query (gui s) c in
  let (c, s) := _dt_collection_store is_main q q_no_group c s in
  let c := Collection (clone c) (query c) (query_no_group c) (where_ext c) (_dt_collection_compute_count c q s)
             (_dt_collection_compute_count c q_no_group s) (tagid c) (params c) in
  Done (c, _collection_update_aspect_ratio c s).

Definition dt_collection_get_query (is_main : bool) (c : dt_collection_t) (s : session_t) : c_result (string * dt_collection_t * session_t) :=
  match query c with
  | Some q => Done (q, c, s)
  | None => let* (c, s) := dt_collection_update is_main c s in Done (default "" (query c), c, s)
  end.

Definition dt_collection_get_query_no_group (is_main : bool) (c : dt_collection_t) (s : session_t) : c_result (string * dt_collection_t * session_t) :=
  match query_no_group c with
  | Some q => Done (q, c, s)
  | None => let* (c, s) := dt_collection_update is_main c s in Done (default "" (query_no_group c), c, s)
  end.

(** The new rows have the rowids from 1. *)
Definition dt_collection_memory_update (c : dt_collection_t) (s : session_t) : c_result (dt_collection_t * session_t) :=
  let* (q, c, s) := dt_collection_get_query true c s in
  Done (c, set_collected (rows q (bound c [0; -1]) (others (db s))) s).

(** LIMIT with an offset; a negative number of rows is no limit. *)
Definition limited {A} (offset number : Z) (l : list A) : list A :=
  let l := drop (Z.to_nat offset) l in if number <? 0 then l else take (Z.to_nat number) l.

Definition dt_collection_get (is_main : bool) (c : dt_collection_t) (limit : Z) (selected : bool) (s : session_t)
    : c_result (list Z * dt_collection_t * session_t) :=
  let* (q, c, s) := dt_collection_get_query_no_group is_main c s in
  Done (if selected then
          let found := rows q (bound c [-1; -1]) (others (db s)) in
          limited (-1) limit (scan (filter (fun id => id ∈ found) (selected_images (db s))))
        else rows q (bound c [-1; limit]) (others (db s)), c, s).

Definition dt_collection_get_all is_main c limit s := dt_collection_get is_main c limit false s.
Definition dt_collection_get_selected is_main c limit s := dt_collection_get is_main c limit true s.

Definition dt_collection_get_nth (is_main : bool) (c : dt_collection_t) (nth : Z) (s : session_t) : c_result (Z * dt_collection_t * session_t) :=
  if (nth <? 0) || (nth >=? count c) then Done (-1, c, s)
  else
    let* (q, c, s) := dt_collection_get_query is_main c s in
    Done (default (-1) (head (rows q (bound c [nth; 1]) (others (db s)))), c, s).

Fixpoint offset_of (imgid : Z) (l : list Z) : option Z :=
  match l with
  | [] => None
  | id :: l => if id =? imgid then Some 0 else Z.succ <$> offset_of imgid l
  end.

Definition dt_collection_image_offset_with_collection (is_main : bool) (c : dt_collection_t) (imgid : Z) (s : session_t)
    : c_result (Z * dt_collection_t * session_t) :=
  if imgid =? -1 then Done (0, c, s)
  else
    let* (q, c, s) := dt_collection_get_query is_main c s in
    Done (default 0 (offset_of imgid (rows q (bound c [0; -1]) (others (db s)))), c, s).

Definition dt_collection_set_sort (c : dt_collection_t) (new : Z) (reverse : Z) (s : session_t) : dt_collection_t * session_t :=
  let p := params c in
  let p := if new =? DT_COLLECTION_SORT_NONE then p
           else Params (query_flags p) (filter_flags p) (film_id p) (rating p) (comparator p) new
                  (if new =? sort p then sort_second_order p else sort p) (descending p) in
  let p := if reverse =? -1 then p
           else Params (query_flags p) (filter_flags p) (film_id p) (rating p) (comparator p) (sort p) (sort_second_order p) (negb (reverse =? 0)) in
  let c := set_params p c in
  (c, _collection_update_aspect_ratio c s).

(** ** Updating the query *)

(** The first image that is not in [imgs], behind its first image, or else before it. *)
Definition next_image (imgs collected : list Z) : Z :=
  match imgs with
  | [] => -1
  | id0 :: _ =>
      match offset_of id0 collected with
      | None => -1
      | Some p =>
          let next := default (-1) (head (filter (fun id => id ∉ imgs) (drop (S (Z.to_nat p)) collected))) in
          if next <? 0 then default (-1) (last (filter (fun id => id ∉ imgs) (take (Z.to_nat p) collected))) else next
      end
  end.

Definition conj (mode : Z) : c_result string :=
  if mode =? 0 then Done "AND" else if mode =? 1 then Done "OR" else if mode =? 2 then Done "AND NOT" else Undefined.

Fixpoint query_parts (n : nat) (i : Z) (s : session_t) : c_result (list string * session_t) :=
  match n with
  | O => Done ([], s)
  | S n =>
      let* (property, s) := get_int (rule_name "item" i) s in
      let '(text, s) := get_string (rule_name "string" i) s in
      let* (mode, s) := get_int (rule_name "mode" i) s in
      let* part :=
        if String.eqb text "" then Done (if mode =? 1 then " OR 1=1" else "")
        else let* op := conj mode in Done (" " +:+ op +:+ " " +:+ rule_text property text s) in
      let* (parts, s) := query_parts n (i + 1) s in
      Done (part :: parts, s)
  end.

Definition CLAMP (x lo hi : Z) : Z := if x >? hi then hi else if x <? lo then lo else x.

(** With the image that the view goes to; it is sent with the signal. *)
Definition dt_collection_update_query (is_main : bool) (c : dt_collection_t) (query_change : Z) (imgs : list Z) (s : session_t)
    : c_result (Z * dt_collection_t * session_t) :=
  let s := if negb (clone c) && (query_change =? DT_COLLECTION_CHANGE_NEW_QUERY)
           then Session (conf s) (db s) ((fun g => (fst g, -1)) <$> gui s) else s in
  let next := if clone c then -1 else next_image imgs (collected_images (db s)) in
  let* (_n_r, s) := get_int "plugins/lighttable/collect/num_rules" s in
  let* (parts, s) := query_parts (Z.to_nat (CLAMP _n_r 1 10)) 0 s in
  let c := dt_collection_set_extended_where c parts in
  let c := dt_collection_set_query_flags c (Z.lor (dt_collection_get_query_flags c) COLLECTION_QUERY_USE_WHERE_EXT) in
  let c := dt_collection_set_filter_flags c (Z.land (dt_collection_get_filter_flags c) (Z.lnot COLLECTION_FILTER_FILM_ID)) in
  let* (c, s) := dt_collection_update is_main c s in
  let* (cquery, c, s) := dt_collection_get_query_no_group is_main c s in
  let s := if String.eqb cquery "" then s
           else set_selected (filter (fun id => id ∈ rows cquery (bound c [0; -1]) (others (db s))) (selected_images (db s))) s in
  let* (c, s) := if clone c then Done (c, s)
                 else if is_main then dt_collection_memory_update c s else Done (c, s) in
  Done (next, c, s).

(** What is applied from the last session. [c]: the zeroed struct. *)
Definition dt_collection_reset (is_main : bool) (c : dt_collection_t) (s : session_t) : c_result (Z * dt_collection_t * session_t) :=
  let name n := ("plugins/collection/" +:+ n)%string in
  let* (film, s) := get_int (name "film_id") s in
  let* (r, s) := get_int (name "rating") s in
  let* (cmp, s) := get_int (name "rating_comparator") s in
  let* (filters, s) := get_int (name "filter_flags") s in
  let* (o, s) := get_int (name "sort") s in
  let* (o2, s) := get_int (name "sort_second_order") s in
  let '(d, k) := dt_conf_get_bool (conf s) (name "descending") in
  let c := set_params (Params COLLECTION_QUERY_FULL (wrap_u32 filters) (wrap_u32 film) (wrap_u32 r) cmp o o2 d) c in
  dt_collection_update_query is_main c DT_COLLECTION_CHANGE_NEW_QUERY [] (on_conf k s).

Definition no_collection : dt_collection_t := Collection false None None [] 0 0 0 (Params 0 0 0 0 0 0 0 false).

(** A clone, or the collection of the last session, which is not darktable.collection yet. *)
Definition dt_collection_new (from : option dt_collection_t) (s : session_t) : c_result (dt_collection_t * session_t) :=
  match from with
  | Some c => Done (Collection true (query c) (query_no_group c) (where_ext c) (count c) (count_no_group c) (tagid c) (params c), s)
  | None => let* (_, c, s) := dt_collection_reset false no_collection s in Done (c, s)
  end.

Definition recount (c : dt_collection_t) (q q_no_group : string) (s : session_t) : dt_collection_t :=
  Collection (clone c) (query c) (query_no_group c) (where_ext c) (_dt_collection_compute_count c q s)
    (_dt_collection_compute_count c q_no_group s) (tagid c) (params c).

(** _dt_collection_recount_callback_1 and _2. *)
Definition _dt_collection_recount_callback (is_main : bool) (c : dt_collection_t) (s : session_t) : c_result (dt_collection_t * session_t) :=
  let* (q, c, s) := dt_collection_get_query is_main c s in
  let* (q_no_group, c, s) := dt_collection_get_query_no_group is_main c s in
  Done (recount c q q_no_group s, s).

Definition _dt_collection_filmroll_imported_callback (is_main : bool) (c : dt_collection_t) (s : session_t) : c_result (dt_collection_t * session_t) :=
  let* (c, s) := _dt_collection_recount_callback is_main c s in
  if clone c then Done (c, s)
  else let* (_, c, s) := dt_collection_update_query is_main c DT_COLLECTION_CHANGE_NEW_QUERY [] s in Done (c, s).

(** ** Rules as text *)

(** snprintf into what is left of the buffer; a negative size is a huge one. *)
Definition put (text : string) (b : string * Z) : c_result (string * Z) :=
  let '(out, bufsize) := b in
  if bufsize <? 0 then Undefined
  else Done (out +:+ str_take (Z.to_nat (bufsize - 1)) text, bufsize - Z.of_nat (String.length text)).

Fixpoint serialize_rules (n : nat) (k : Z) (b : string * Z) (s : session_t) : c_result (string * Z * session_t) :=
  match n with
  | O => Done (b, s)
  | S n =>
      let* (mode, s) := get_int (rule_name "mode" k) s in
      let* b := put (c_show_int mode +:+ ":") b in
      let* (item, s) := get_int (rule_name "item" k) s in
      let* b := put (c_show_int item +:+ ":") b in
      let '(str, s) := get_string (rule_name "string" k) s in
      let* b := put (if String.eqb str "" then "%$" else str +:+ "$") b in
      serialize_rules n (k + 1) b s
  end.

Definition dt_collection_serialize (bufsize : Z) (s : session_t) : c_result (string * session_t) :=
  let* (num_rules, s) := get_int "plugins/lighttable/collect/num_rules" s in
  let* b := put (c_show_int num_rules +:+ ":") ("", bufsize) in
  let* (buf, _, s) := serialize_rules (Z.to_nat num_rules) 0 b s in
  Done (buf, s).

Definition set_rule (k mode item : Z) (str : string) (c : dt_conf_t) : dt_conf_t :=
  dt_conf_set_string (dt_conf_set_int (dt_conf_set_int c (rule_name "mode" k) mode) (rule_name "item" k) item) (rule_name "string" k) str.

(** The text up to a character, at most so many bytes. *)
Fixpoint take_until (n : nat) (stop : ascii) (s : string) : string :=
  match n, s with
  | S n, String c s => if (c =? stop)%char then "" else String c (take_until n stop s)
  | _, _ => ""
  end.

Fixpoint drop_until (stop : ascii) (s : string) : string :=
  match s with
  | String c s' => if (c =? stop)%char then s' else drop_until stop s'
  | "" => ""
  end.

(** [%d:%d:%399[^$]] *)
Definition scan_rule (buf : string) : c_result (option (Z * Z * string)) :=
  let* r := scan_int buf in
  match r with
  | Some (mode, String ":" buf) =>
      let* r := scan_int buf in
      match r with
      | Some (item, String ":" buf) =>
          let str := take_until 399 "$" buf in
          Done (if String.eqb str "" then None else Some (mode, item, str))
      | _ => Done None
      end
  | _ => Done None
  end.

Fixpoint deserialize_rules (n : nat) (k num_rules : Z) (buf : string) (c : dt_conf_t) : c_result dt_conf_t :=
  match n with
  | O => Done c
  | S n =>
      let* r := scan_rule buf in
      match r with
      | Some (mode, item, str) => deserialize_rules n (k + 1) num_rules (drop_until "$" buf) (set_rule k mode item str c)
      | None =>
          if num_rules =? 1 then Done (set_rule k 0 0 "%" c)
          else Done (dt_conf_set_int c "plugins/lighttable/collect/num_rules" k)
      end
  end.

Definition dt_collection_deserialize (is_main : bool) (buf : string) (c : dt_collection_t) (s : session_t) : c_result (dt_collection_t * session_t) :=
  let* scanned := sscanf_int buf in
  let num_rules := default 0 scanned in
  let* k :=
    if num_rules =? 0 then Done (set_rule 0 0 0 "%" (dt_conf_set_int (conf s) "plugins/lighttable/collect/num_rules" 1))
    else deserialize_rules (Z.to_nat num_rules) 0 num_rules (drop_until ":" buf)
           (dt_conf_set_int (conf s) "plugins/lighttable/collect/num_rules" num_rules) in
  let* (_, c, s) := dt_collection_update_query is_main c DT_COLLECTION_CHANGE_NEW_QUERY [] (on_conf k s) in
  Done (c, s).

(** ** Positions *)

(** id and position of main.images; imgid, tagid and position of main.tagged_images. *)
Record positions := Positions {
  image_positions : list (Z * Z);
  tagged_positions : list (Z * Z * Z);
}.

Definition dt_collection_get_image_position (image_id tagid : Z) (d : positions) : Z :=
  if image_id >=? 0 then
    default (-1) (head
      (if tagid =? 0 then omap (fun '(id, p) => if id =? image_id then Some p else None) (scan (image_positions d))
       else omap (fun '(id, tag, p) => if (id =? image_id) && (tag =? tagid) then Some p else None) (scan (tagged_positions d))))
  else -1.

(** The positions of one part are those with the same upper half. *)
Definition shifted (length image_position p : Z) : Z :=
  if (image_position <=? p) && (p <? Z.land image_position 0xFFFFFFFF00000000 + Z.shiftl 1 32) then p + wrap_s32 length else p.

Definition dt_collection_shift_image_positions (length image_position tagid : Z) (d : positions) : positions :=
  if tagid =? 0
  then Positions ((fun '(id, p) => (id, shifted length image_position p)) <$> image_positions d) (tagged_positions d)
  else Positions (image_positions d)
         ((fun '(id, tag, p) => (id, tag, if tag =? tagid then shifted length image_position p else p)) <$> tagged_positions d).

End collection.

(** ** Lemmas: the text of a query *)

(** Reading SQL: what stands outside of literals, with the nesting of parentheses there. The
    state tells whether the text is inside of a literal, and the depth. *)
Fixpoint sql_scan (s : string) (st : bool * nat) : option (string * (bool * nat)) :=
  match s with
  | "" => Some (""%string, st)
  | String c s =>
      let '(literal, depth) := st in
      if (c =? "'")%char then sql_scan s (negb literal, depth)
      else if literal then sql_scan s st
      else
        '(out, st) ← (if (c =? "(")%char then sql_scan s (false, S depth)
                      else if (c =? ")")%char then match depth with O => None | S d => sql_scan s (false, d) end
                      else sql_scan s st);
        Some (String c out, st)
  end.

Definition reads (s : string) (st : bool * nat) (out : string) (st' : bool * nat) : Prop := sql_scan s st = Some (out, st').

(** Literals and parentheses are closed; [out] stands outside of literals. *)
Definition closed (s out : string) : Prop := reads s (false, 0%nat) out (false, 0%nat).

Lemma reads_app a b st1 st2 st3 o1 o2 : reads a st1 o1 st2 -> reads b st2 o2 st3 -> reads (a +:+ b) st1 (o1 +:+ o2) st3.
Proof.
  unfold reads. revert st1 o1. induction a as [|c a IH]; intros [q d] o1 Ha Hb.
  - injection Ha as <- <-. done.
  - cbn [sql_scan String.append] in *. destruct (c =? "'")%char; [by apply IH|]. destruct q; [by apply IH|].
    destruct (c =? "(")%char; [|destruct (c =? ")")%char; [destruct d as [|d]; [done|]|]].
    all: match type of Ha with context [sql_scan ?x ?st] => destruct (sql_scan x st) as [[oa sa]|] eqn:E; [|done] end;
      injection Ha as <- ->; specialize (IH _ _ E Hb); cbn in IH |- *; by rewrite IH.
Qed.

Lemma reads_deeper k s q d o q' d' : reads s (q, d) o (q', d') -> reads s (q, (d + k)%nat) o (q', (d' + k)%nat).
Proof.
  unfold reads. revert q d o. induction s as [|c s IH]; intros q d o Hs.
  - by injection Hs as <- <- <-.
  - cbn [sql_scan] in *. destruct (c =? "'")%char; [by apply IH|]. destruct q; [by apply IH|].
    destruct (c =? "(")%char; [|destruct (c =? ")")%char; [destruct d as [|d]; [done|]|]].
    all: match type of Hs with context [sql_scan ?x ?st] => destruct (sql_scan x st) as [[oa sa]|] eqn:E; [|done] end;
      injection Hs as <- ->; apply IH in E; cbn in E |- *; by rewrite E.
Qed.

Lemma closed_reads s o d : closed s o -> reads s (false, d) o (false, d).
Proof. intros Hs. by apply (reads_deeper d) in Hs. Qed.

Lemma closed_app a b o1 o2 : closed a o1 -> closed b o2 -> closed (a +:+ b) (o1 +:+ o2).
Proof. apply reads_app. Qed.

Lemma reads_escape s d : reads (escape s) (true, d) "" (true, d).
Proof.
  unfold reads. induction s as [|c s IH]; [done|]. cbn [escape]. destruct (c =? "'")%char eqn:E; cbn [sql_scan]; rewrite E; cbn [negb]; done.
Qed.

Definition is_plain (c : ascii) : bool := negb ((c =? "'") || (c =? "(") || (c =? ")"))%char.

Lemma reads_plain s d : str_forall is_plain s = true -> reads s (false, d) s (false, d).
Proof.
  unfold reads. induction s as [|c s IH]; [done|]. cbn [str_forall sql_scan]. intros [Hc Hs]%andb_true_iff. unfold is_plain in Hc.
  destruct (c =? "'")%char, (c =? "(")%char, (c =? ")")%char; try done. by rewrite IH.
Qed.

Lemma reads_plain_literal s d : str_forall is_plain s = true -> reads s (true, d) "" (true, d).
Proof.
  unfold reads. induction s as [|c s IH]; [done|]. cbn [str_forall sql_scan]. intros [Hc Hs]%andb_true_iff. unfold is_plain in Hc.
  destruct (c =? "'")%char; [done|]. by rewrite IH.
Qed.

Lemma plain_int z : str_forall is_plain (c_show_int z) = true.
Proof.
  assert (forall u, str_forall is_plain (NilEmpty.string_of_uint u) = true) as Hu by (induction u; cbn; done).
  unfold c_show_int. destruct z as [|p|p]; cbn; [done| |]; unfold NilZero.string_of_uint; destruct (Pos.to_uint p); try done; apply (Hu (_ _)).
Qed.

(** Reads a text made of constants and parts that the hypotheses know. *)
Ltac read_sql :=
  lazymatch goal with
  | |- reads (_ +:+ _) _ _ _ => eapply reads_app; [read_sql|read_sql]
  | |- reads (escape _) _ _ _ => apply reads_escape
  | |- reads (c_show_int ?z) (true, _) _ _ => apply reads_plain_literal, plain_int
  | |- reads (c_show_int ?z) (false, _) _ _ => apply reads_plain, plain_int
  | H : str_forall is_plain ?x = true |- reads ?x (true, _) _ _ => apply (reads_plain_literal _ _ H)
  | H : str_forall is_plain ?x = true |- reads ?x (false, _) _ _ => apply (reads_plain _ _ H)
  | |- reads _ _ _ _ => unfold reads; cbv; reflexivity
  end.

Lemma reads_sqlite_q o d : reads (sqlite_q o) (true, d) "" (true, d).
Proof. destruct o; [apply reads_escape|reflexivity]. Qed.

Lemma reads_cameras l : exists out, reads (fold_right (fun '(mk, md) s =>
  " OR (maker = '" +:+ sqlite_q mk +:+ "' AND model = '" +:+ sqlite_q md +:+ "')" +:+ s)%string ""%string l) (false, 1%nat) out (false, 1%nat).
Proof.
  induction l as [|[mk md] l [out IH]]; [by eexists|]. cbn [fold_right]. eexists.
  eapply reads_app; [read_sql|]. eapply reads_app; [apply reads_sqlite_q|]. eapply reads_app; [read_sql|].
  eapply reads_app; [apply reads_sqlite_q|]. eapply reads_app; [read_sql|exact IH].
Qed.

(** A text is not cut between the two marks of a doubled quote. *)
Lemma escape_split t a b : escape t = a +:+ String "," b -> (exists ta, a = escape ta) /\ exists tb, b = escape tb.
Proof.
  revert a. induction t as [|c t IH]; intros a; cbn [escape]; [by destruct a|]. destruct (Ascii.eqb_spec c "'") as [->|Hc].
  - destruct a as [|c1 [|c2 a]]; [done|done|]. intros [= <- <- Ht]. destruct (IH a Ht) as [[ta ->] Hb]. split; [|done]. by exists (String "'" ta).
  - destruct a as [|c1 a]; [intros [= -> <-]; split; [by exists ""|by exists t]|]. intros [= <- Ht].
    destruct (IH a Ht) as [[ta ->] Hb]. split; [|done]. exists (String c ta). cbn. by destruct (Ascii.eqb_spec c "'").
Qed.

Lemma escape_items l t : String.concat "," l = escape t -> Forall (fun x => exists tx, x = escape tx) l.
Proof.
  revert t. induction l as [|x l IH]; intros t Ht; [constructor|]. destruct l as [|y l].
  - repeat constructor. by exists t.
  - change (x +:+ String "," (String.concat "," (y :: l)) = escape t) in Ht. symmetry in Ht.
    destruct (escape_split t _ _ Ht) as [Hx [tb Hb]]. constructor; [done|]. by apply (IH tb).
Qed.

Lemma reads_names l : Forall (fun x => exists tx, x = escape tx) l -> l <> [] ->
  exists out, reads (String.concat " OR " ((fun name => "(filename LIKE '%" +:+ name +:+ "%')")%string <$> l)) (false, 1%nat) out (false, 1%nat).
Proof.
  intros Hl Hne. induction Hl as [|x l [tx ->] Hl IH]; [done|]. destruct l as [|y l].
  - eexists. cbn [String.concat fmap list_fmap]. read_sql.
  - destruct IH as [out IH]; [done|]. eexists.
    set (f := fun name => ("(filename LIKE '%" +:+ name +:+ "%')")%string) in *.
    change (String.concat " OR " (f <$> escape tx :: y :: l)) with (f (escape tx) +:+ (" OR " +:+ String.concat " OR " (f <$> y :: l))).
    unfold f at 1.
    eapply reads_app; [read_sql|]. eapply reads_app; [read_sql|exact IH].
Qed.

Section closed_rules.
Context (g_regex_match : string -> string -> list string) (strptime : string -> string -> tm -> option tm)
        (strftime : nat -> string -> tm -> string) (gettext : string -> string)
        (camera_rules : string -> list (option string * option string)).
(** What the patterns find are numbers, dates and operators. *)
Context (regex_groups : forall pattern input, pattern ∈ rule_patterns ->
  Forall (fun g => str_forall is_plain g = true) (tail (g_regex_match pattern input))).
Context (strftime_plain : forall n t, str_forall is_plain (strftime n "%Y:%m:%d %H:%M:%S"%string t) = true).

Definition plain_option (o : option string) : Prop := forall s, o = Some s -> str_forall is_plain s = true.

Lemma plain_app a b : str_forall is_plain a = true -> str_forall is_plain b = true -> str_forall is_plain (a +:+ b) = true.
Proof. intros Ha Hb. by rewrite str_forall_app, Ha, Hb. Qed.

Lemma groups_plain pattern input l : pattern ∈ rule_patterns -> g_regex_match pattern input = l ->
  match l with [] => True | _ :: groups => Forall (fun g => str_forall is_plain g = true) groups end.
Proof. intros Hp <-. pose proof (regex_groups pattern input Hp) as Hg. by destruct (g_regex_match pattern input). Qed.

Ltac match_pattern pattern input :=
  let Hg := fresh "Hg" in let E := fresh "E" in let l := fresh "l" in
  remember (g_regex_match pattern input) as l eqn:E;
  pose proof (groups_plain pattern input l ltac:(unfold rule_patterns; rewrite !elem_of_cons; tauto) (eq_sym E)) as Hg; clear E;
  repeat match goal with
  | |- context [match ?g with [] => _ | _ :: _ => _ end] => is_var g; destruct g
  end;
  repeat match goal with H : Forall _ (_ :: _) |- _ => apply Forall_cons in H as [? H] end.

Ltac plain_operands := unfold plain_option; repeat split; intros ? ?; repeat case_match; simplify_eq; first [done|reflexivity].

Lemma number_plain input : let '(n1, n2, op) := dt_collection_split_operator_number g_regex_match input in
  plain_option n1 /\ plain_option n2 /\ plain_option op.
Proof.
  unfold dt_collection_split_operator_number. match_pattern NUMBER_RANGE input; try match_pattern NUMBER input; plain_operands.
Qed.

Lemma fraction_plain f n : str_forall is_plain n = true -> str_forall is_plain (fraction f n) = true.
Proof. intros Hn. unfold fraction. case_match; [by apply plain_app|done]. Qed.

Lemma exposure_plain input : let '(n1, n2, op) := dt_collection_split_operator_exposure g_regex_match input in
  plain_option n1 /\ plain_option n2 /\ plain_option op.
Proof.
  unfold dt_collection_split_operator_exposure. match_pattern EXPOSURE_RANGE input; try match_pattern EXPOSURE input;
    unfold plain_option; repeat split; intros ? ?; repeat case_match; simplify_eq; first [done|reflexivity|by apply fraction_plain].
Qed.

Lemma compute_datetime_plain op input : plain_option (_dt_collection_compute_datetime strptime strftime op input).
Proof.
  intros t. unfold _dt_collection_compute_datetime. destruct (_ <? 4)%nat; [done|]. destruct (strptime _ _ _); [|done]. intros [= <-]. apply strftime_plain.
Qed.

Lemma datetime_plain input : let '(n1, n2, op) := dt_collection_split_operator_datetime g_regex_match strptime strftime input in
  plain_option n1 /\ plain_option n2 /\ str_forall is_plain op = true.
Proof.
  unfold dt_collection_split_operator_datetime. match_pattern DATETIME_RANGE input; try match_pattern DATETIME input;
    (split; [|split]); try done; try apply compute_datetime_plain; try (by intros ? ?).
  all: case_match; [intros ? [= <-]; by apply plain_app|apply compute_datetime_plain].
Qed.

(** A closed text in the middle of a rule. *)
Ltac read_column Hcol :=
  lazymatch goal with
  | |- reads (_ +:+ _) _ _ _ => eapply reads_app; [read_column Hcol|read_column Hcol]
  | _ => first [apply Hcol|read_sql]
  end.

Lemma number_rule_closed column oc equal t o :
  closed column oc -> (forall n, str_forall is_plain n = true -> exists out, closed (equal n) out) ->
  (let '(n1, n2, op) := o in plain_option n1 /\ plain_option n2 /\ plain_option op) ->
  exists out, closed (default "(1=1)"%string (number_rule column equal (escape t) o)) out.
Proof.
  intros Hc He. destruct o as [[n1 n2] op]. intros (H1 & H2 & Hop).
  assert (forall d, reads column (false, d) oc (false, d)) as Hcol by (intros d; by apply closed_reads).
  unfold number_rule, plain_option in *. destruct op as [op|]; [specialize (Hop op eq_refl)|].
  - destruct (String.eqb op "[]"); destruct n1 as [n1|]; try specialize (H1 n1 eq_refl);
      try (destruct n2 as [n2|]; try specialize (H2 n2 eq_refl)); cbn [default from_option id]; eexists; unfold closed; read_column Hcol.
  - destruct n1 as [n1|]; cbn [default from_option id]; [by apply He, H1|]. eexists. unfold closed. read_column Hcol.
Qed.

Lemma exposure_rule_closed t o : (let '(n1, n2, op) := o in plain_option n1 /\ plain_option n2 /\ plain_option op) ->
  exists out, closed (default "(1=1)"%string (exposure_rule (escape t) o)) out.
Proof.
  destruct o as [[n1 n2] op]. intros (H1 & H2 & Hop). unfold exposure_rule, plain_option in *. destruct op as [op|]; [specialize (Hop op eq_refl)|].
  - destruct (String.eqb op "[]"); destruct n1 as [n1|]; try specialize (H1 n1 eq_refl);
      try (destruct n2 as [n2|]; try specialize (H2 n2 eq_refl)); cbn [default from_option id]; eexists; unfold closed; read_sql.
  - destruct n1 as [n1|]; cbn [default from_option id]; [specialize (H1 n1 eq_refl)|]; eexists; unfold closed; read_sql.
Qed.

Lemma datetime_rule_closed t o : (let '(n1, n2, op) := o in plain_option n1 /\ plain_option n2 /\ str_forall is_plain op = true) ->
  exists out, closed (default "(1=1)"%string (datetime_rule (escape t) o)) out.
Proof.
  destruct o as [[n1 n2] op]. intros (H1 & H2 & Hop). unfold datetime_rule, plain_option in *.
  destruct (String.eqb op "[]"); destruct n1 as [n1|]; try specialize (H1 n1 eq_refl);
    try (destruct n2 as [n2|]; try specialize (H2 n2 eq_refl)); repeat (destruct (String.eqb op _)); cbn [default from_option id orb]; eexists; unfold closed; read_sql.
Qed.

Lemma timestamp_rule_closed column t o : str_forall is_plain column = true ->
  (let '(n1, n2, op) := o in plain_option n1 /\ plain_option n2 /\ str_forall is_plain op = true) ->
  exists out, closed (default "(1=1)"%string (timestamp_rule column (escape t) o)) out.
Proof.
  intros Hc. destruct o as [[n1 n2] op]. intros (H1 & H2 & Hop). unfold timestamp_rule, plain_option in *.
  destruct (String.eqb op "[]"); destruct n1 as [n1|]; try specialize (H1 n1 eq_refl);
    try (destruct n2 as [n2|]; try specialize (H2 n2 eq_refl)); repeat (destruct (String.eqb op _)); cbn [default from_option id orb]; eexists; unfold closed; read_sql.
Qed.

Lemma escape_nonempty t : t <> ""%string -> escape t <> ""%string.
Proof. destruct t as [|c t]; [done|]. cbn. by destruct (c =? "'")%char. Qed.

Lemma names_closed t : exists out, closed ("(" +:+ default "(null)"%string (dt_util_glist_to_str " OR " ((fun name => "(filename LIKE '%" +:+ name +:+ "%')")%string <$>
  default [] (dt_util_str_to_glist "," (Some (escape t))))) +:+ ")") out.
Proof.
  destruct (decide (t = ""%string)) as [->|Ht]; [eexists; unfold closed; read_sql|].
  unfold dt_util_str_to_glist. destruct (str_to_glist_loop_concat "," (S (String.length (escape t))) (escape t)) as (l & -> & Hc & Hn); [done|lia|].
  cbn [default from_option id]. destruct (reads_names l) as [out Ho]; [by apply (escape_items l t)|intros E; by apply Hn, escape_nonempty in E|].
  destruct l as [|x l]; [by destruct (escape_nonempty t Ht); apply Hn|]. cbn [fmap list_fmap dt_util_glist_to_str default from_option id]. cbn [fmap list_fmap] in Ho.
  eexists. unfold closed. eapply reads_app; [read_sql|]. eapply reads_app; [exact Ho|]. read_sql.
Qed.

(** A rule whose text is closed; NULL is taken as (1=1). *)
Definition closed_rule (o : option string) : Prop := exists out, closed (default "(1=1)"%string o) out.

Lemma rule_cases (b : bool) x y : closed_rule x -> closed_rule y -> closed_rule (if b then x else y).
Proof. by destruct b. Qed.

Lemma closed_option (b : bool) x y : (exists out, closed x out) -> (exists out, closed y out) -> closed_rule (Some (if b then x else y)).
Proof. by destruct b. Qed.

Ltac read_rule := eexists; cbn [default from_option id]; unfold closed; read_sql.

Lemma property_rule_closed property t : closed_rule (property_rule g_regex_match strptime strftime gettext camera_rules property t).
Proof.
  unfold property_rule. cbv zeta.
  apply rule_cases; [apply closed_option; read_rule|].
  apply rule_cases; [read_rule|].
  apply rule_cases; [apply closed_option; read_rule|].
  apply rule_cases; [unfold history_condition; repeat (destruct (String.eqb (escape t) _)); read_rule|].
  apply rule_cases; [destruct (String.eqb (escape t) _); read_rule|].
  apply rule_cases; [apply number_rule_closed with (oc := "aspect_ratio"%string); [done|intros n Hn; read_rule|apply number_plain]|].
  apply rule_cases; [destruct (reads_cameras (camera_rules t)) as [out Hout]; eexists; cbn [default from_option id];
    eapply reads_app; [read_sql|]; eapply reads_app; [exact Hout|read_sql]|].
  apply rule_cases; [read_rule|].
  apply rule_cases; [read_rule|].
  apply rule_cases; [apply number_rule_closed with (oc := "focal_length"%string); [done|intros n Hn; read_rule|apply number_plain]|].
  apply rule_cases; [apply number_rule_closed with (oc := "iso"%string); [done|intros n Hn; read_rule|apply number_plain]|].
  apply rule_cases; [apply number_rule_closed with (oc := "ROUND(aperture,1)"%string); [done|intros n Hn; read_rule|apply number_plain]|].
  apply rule_cases; [apply exposure_rule_closed, exposure_plain|].
  apply rule_cases; [apply names_closed|].
  apply rule_cases; [apply datetime_rule_closed, datetime_plain|].
  apply rule_cases; [apply timestamp_rule_closed; [unfold property_column; by repeat case_match|apply datetime_plain]|].
  apply rule_cases; [destruct (String.eqb (escape t) _); read_rule|].
  apply rule_cases; [read_rule|].
  apply rule_cases; [destruct (find_order _ _ _); read_rule|].
  apply rule_cases; [apply closed_option; read_rule|].
  by eexists.
Qed.

End closed_rules.

(** ** Lemmas: the whole query *)

Definition closed_text (s : string) : Prop := exists out, closed s out.

Lemma closed_text_app a b : closed_text a -> closed_text b -> closed_text (a +:+ b).
Proof. intros [oa Ha] [ob Hb]. eexists. by eapply closed_app. Qed.

Ltac read_text := eexists; unfold closed; cbv beta zeta; read_sql.

Lemma closed_extended_where rules : Forall closed_text rules -> closed_text (extended_where rules).
Proof.
  intros Hr. assert (closed_text (fold_right String.append ""%string rules)) as [out Ho].
  { induction Hr as [|x l Hx Hl IH]; [by exists ""%string|]. by apply closed_text_app. }
  unfold extended_where. eexists. eapply reads_app; [read_sql|]. eapply reads_app; [by apply (closed_reads _ _ 1)|read_sql].
Qed.

Lemma closed_Done x r : closed_text x -> Done x = Done r -> closed_text r.
Proof. by intros Hx [= <-]. Qed.

Lemma rating_filter_closed p r : rating_filter p = Done r -> closed_text r.
Proof.
  unfold rating_filter. destruct (has _ _); [apply closed_Done; read_text|]. destruct (has _ _).
  - destruct (comparators !! _) as [op|] eqn:E; [|done]. destruct (_ <? 0); [done|]. apply closed_Done.
    apply list_elem_of_lookup_2 in E. unfold comparators in E.
    assert (str_forall is_plain op = true) as Hop by (repeat (apply elem_of_cons in E as [-> | E]; [done|]); by apply not_elem_of_nil in E).
    read_text.
  - destruct (has _ _); [apply closed_Done; read_text|]. destruct (has _ _); apply closed_Done; read_text.
Qed.

Lemma where_part_closed p w r : closed_text w -> where_part p w = Done r -> closed_text r.
Proof.
  intros Hw. unfold where_part. destruct (has _ _); [by intros [= <-]|].
  destruct (rating_filter p) as [stars|] eqn:E; [|done]. cbn [c_bind]. apply closed_Done.
  apply rating_filter_closed in E. apply closed_text_app; [destruct (has _ _); read_text|].
  apply closed_text_app; [read_text|]. apply closed_text_app; [done|]. apply closed_text_app.
  - unfold altered_filter. repeat destruct (has _ _); read_text.
  - destruct (has _ _); [apply closed_text_app; [read_text|done]|read_text].
Qed.

Lemma group_part_closed g w : closed_text w -> closed_text (group_part g w).
Proof.
  intros [o Hw]. unfold group_part. destruct g as [[[|] id]|]; try by exists o.
  eexists. repeat (eapply reads_app; [first [exact (closed_reads _ _ _ Hw)|read_sql]|]). read_sql.
Qed.

(** Behind the filter stands what closes the parentheses in front of it. *)
Lemma select_parts_closed c w : closed_text w -> closed_text (fst (select_parts c) +:+ w +:+ snd (select_parts c)).
Proof.
  intros [o Hw]. unfold select_parts, _dt_collection_set_selq_pre_sort, select_columns.
  repeat match goal with
  | |- context [fst (if ?b then _ else _)] => destruct b
  end; cbn [fst snd]; destruct (tagid c =? 0); eexists;
  repeat (eapply reads_app; [first [exact (closed_reads _ _ _ Hw)|read_sql]|]); first [exact (closed_reads _ _ _ Hw)|read_sql].
Qed.

Lemma second_order_plain p : str_forall is_plain (second_order p) = true.
Proof.
  unfold second_order, timestamp_column, desc.
  destruct (descending p); repeat case_match; vm_compute; reflexivity.
Qed.

Lemma sort_query_closed c : closed_text (dt_collection_get_sort_query c).
Proof.
  pose proof (second_order_plain (params c)) as Hp. unfold dt_collection_get_sort_query.
  assert (forall o, str_forall is_plain (timestamp_column o) = true) as Ht by (intros o; unfold timestamp_column; by repeat case_match).
  cbv zeta. set (o2 := second_order (params c)) in *. pose proof (Ht (sort (params c))) as Hc. set (col := timestamp_column (sort (params c))) in *.
  destruct (descending (params c)); repeat match goal with
  | |- closed_text (if ?b then _ else _) => destruct b; [read_text|]
  end; read_text.
Qed.

Lemma order_part_closed c : closed_text (order_part c).
Proof. unfold order_part. destruct (_ && _); [apply sort_query_closed|read_text]. Qed.

(** The queries that a collection builds from closed rules are closed. *)
Lemma build_query_closed g c q q2 : Forall closed_text (where_ext c) -> build_query g c = Done (q, q2) -> closed_text q /\ closed_text q2.
Proof.
  intros Hw. unfold build_query. destruct (where_part _ _) as [w|] eqn:E; [|done]. cbn [c_bind].
  apply where_part_closed in E; [|by apply closed_extended_where].
  assert (forall w, closed_text w -> closed_text (fst (select_parts c) +:+ w +:+ snd (select_parts c) +:+ " " +:+ order_part c +:+ limit_part c)) as Hq.
  { intros x Hx. replace (_ +:+ _) with ((fst (select_parts c) +:+ x +:+ snd (select_parts c)) +:+ (" " +:+ order_part c +:+ limit_part c))
      by (by rewrite !str_app_assoc).
    apply closed_text_app; [by apply select_parts_closed|]. apply closed_text_app; [read_text|]. apply closed_text_app; [apply order_part_closed|].
    unfold limit_part. destruct (has _ _); read_text. }
  destruct (select_parts c) as [pre post]. cbn [fst snd] in Hq. intros [= <- <-]. split; apply Hq; [by apply group_part_closed|done].
Qed.

Lemma offset_of_elem id l : id ∈ l -> exists p, offset_of id l = Some (Z.of_nat p) /\ l !! p = Some id.
Proof.
  induction l as [|x l IH]; [by intros ?%not_elem_of_nil|]. cbn [offset_of]. destruct (Z.eqb_spec x id) as [->|Hne]; [intros _; by exists 0%nat|].
  intros [-> | Hin]%elem_of_cons; [done|]. destruct (IH Hin) as (p & -> & Hp). exists (S p). cbn. split; [f_equal; lia|done].
Qed.

Lemma offset_of_other id l : id ∉ l -> offset_of id l = None.
Proof.
  induction l as [|x l IH]; [done|]. rewrite elem_of_cons. intros Hn. cbn [offset_of]. destruct (Z.eqb_spec x id) as [->|Hne]; [tauto|].
  rewrite IH; [done|tauto].
Qed.

(** No image leads the images that leave, or none that is collected. *)
Lemma next_image_none imgs l : (forall id, head imgs = Some id -> id ∉ l) -> next_image imgs l = -1.
Proof. intros Hh. destruct imgs as [|id imgs]; [done|]. unfold next_image. by rewrite offset_of_other by by apply Hh. Qed.

Lemma next_image_stays id0 imgs l : Forall (fun id => 0 <= id) l -> id0 ∈ l ->
  let next := next_image (id0 :: imgs) l in
  (next ∈ l /\ next ∉ id0 :: imgs) \/ (next = -1 /\ forall id, id ∈ l -> id ∈ id0 :: imgs).
Proof.
  intros Hpos Hin. destruct (offset_of_elem id0 l Hin) as (p & Hp & Hl). unfold next_image. rewrite Hp, Nat2Z.id. cbv zeta.
  rewrite Forall_forall in Hpos. pose proof (take_drop_middle l p id0 Hl) as Hm.
  destruct (filter (fun id => id ∉ id0 :: imgs) (drop (S p) l)) as [|x rest] eqn:E.
  - cbn [head default from_option]. change (-1 <? 0) with true. cbv iota.
    destruct (last (filter (fun id => id ∉ id0 :: imgs) (take p l))) as [y|] eqn:E2.
    + left. apply last_Some_elem_of in E2. apply list_elem_of_filter in E2 as [Hy E2]. split; [|done].
      rewrite <- Hm. apply elem_of_app. by left.
    + right. split; [done|]. intros id Hid. rewrite <- Hm in Hid. apply last_None in E2. destruct (decide (id ∈ id0 :: imgs)) as [|Hn]; [done|].
      apply elem_of_app in Hid as [Hid | [-> | Hid]%elem_of_cons]; [| |].
      * assert (id ∈ []) as ?%not_elem_of_nil by (rewrite <- E2; by apply list_elem_of_filter). done.
      * destruct Hn. apply elem_of_cons. by left.
      * assert (id ∈ []) as ?%not_elem_of_nil by (rewrite <- E; by apply list_elem_of_filter). done.
  - assert (x ∈ x :: rest) as Hx by (apply elem_of_cons; by left). rewrite <- E in Hx. apply list_elem_of_filter in Hx as [Hx Hx2].
    assert (x ∈ l) as Hxl by (rewrite <- Hm; apply elem_of_app; right; apply elem_of_cons; by right).
    cbn [head default from_option id]. specialize (Hpos x Hxl). destruct (Z.ltb_spec x 0); [lia|]. by left.
Qed.

Section queries.
Context (g_ascii_strtod : string -> float * string) (fmodf powf : float -> float -> float).
Context (g_regex_match : string -> string -> list string) (strptime : string -> string -> tm -> option tm)
        (strftime : nat -> string -> tm -> string) (gettext : string -> string).
Context (lookup_makermodel : option string -> option string -> string * string * string) (g_utf8_strdown : string -> string).
Context {DB : Type} (rows : string -> list Z -> DB -> list Z).
Context (makers : DB -> list (option string * option string)).
Context (set_raw_aspect_ratio : Z -> DB -> DB) (late : nat -> bool).
Context `{RowOrder}.

Local Abbreviation query_parts := (query_parts g_ascii_strtod fmodf powf g_regex_match strptime strftime gettext lookup_makermodel g_utf8_strdown makers).
Local Abbreviation update := (dt_collection_update rows set_raw_aspect_ratio late).
Local Abbreviation update_query := (dt_collection_update_query g_ascii_strtod fmodf powf g_regex_match strptime strftime gettext
  lookup_makermodel g_utf8_strdown rows makers set_raw_aspect_ratio late).

Local Abbreviation get_int := (get_int g_ascii_strtod fmodf powf).

(** The query depends on the rules, the parameters and the tag. *)
Lemma build_query_ext g c1 c2 : where_ext c1 = where_ext c2 -> params c1 = params c2 -> tagid c1 = tagid c2 ->
  build_query g c1 = build_query g c2.
Proof. destruct c1, c2. cbn. by intros -> -> ->. Qed.

(** What an update leaves: the queries of the parameters and rules. *)
Lemma update_spec m c s c' s' : update m c s = Done (c', s') -> exists q q2, build_query (gui s) c = Done (q, q2) /\
  query c' = Some q /\ query_no_group c' = Some q2 /\ where_ext c' = where_ext c /\ params c' = params c /\ tagid c' = tagid c /\ clone c' = clone c /\
  selected_images (db s') = selected_images (db s) /\ collected_images (db s') = collected_images (db s) /\
  tmp_selection (db s') = tmp_selection (db s) /\ gui s' = gui s /\
  (sort (params c) <> DT_COLLECTION_SORT_ASPECT_RATIO -> others (db s') = others (db s)).
Proof.
  unfold dt_collection_update. destruct (build_query _ _) as [[q q2]|] eqn:E; [|done]. cbn [c_bind]. intros Hd.
  exists q, q2. split; [done|]. injection Hd as <- <-. unfold _collection_update_aspect_ratio. cbn [params]. by destruct (Z.eqb_spec (sort (params c)) DT_COLLECTION_SORT_ASPECT_RATIO).
Qed.

Lemma get_int_frame name (s : session DB) z s' : get_int name s = Done (z, s') -> db s' = db s /\ gui s' = gui s.
Proof.
  unfold Collection.get_int. intros [[z' k] [_ Hk]]%c_bind_Done. by injection Hk as <- <-.
Qed.

Lemma get_string_frame name (s : session DB) : db (get_string name s).2 = db s /\ gui (get_string name s).2 = gui s.
Proof. unfold get_string. by destruct (dt_conf_get_string _ _). Qed.

Lemma query_parts_frame n i s parts s' : query_parts n i s = Done (parts, s') -> db s' = db s /\ gui s' = gui s.
Proof.
  revert i s parts. induction n as [|n IH]; intros i s parts; cbn [Collection.query_parts]; [by intros [= _ <-]|].
  intros [[p s1] [H1 H2]]%c_bind_Done. apply get_int_frame in H1 as [H1 G1].
  pose proof (get_string_frame (rule_name "string" i) s1) as [Hd Hg].
  destruct (get_string _ s1) as [text s2]. cbn [snd] in Hd, Hg. apply c_bind_Done in H2 as [[mode s3] [H3 H4]].
  apply get_int_frame in H3 as [H3 G3]. apply c_bind_Done in H4 as [part [_ H4]]. apply c_bind_Done in H4 as [[parts2 s4] [H4 H5]].
  injection H5 as _ <-. apply IH in H4 as [H4 G4]. split; congruence.
Qed.

Lemma queries_nonempty g c q q2 : build_query g c = Done (q, q2) -> q <> ""%string /\ q2 <> ""%string.
Proof.
  unfold build_query. destruct (where_part _ _) as [w|]; [|done]. cbn [c_bind].
  assert (forall w, fst (select_parts c) +:+ w <> ""%string) as Hne.
  { intros x E. apply str_app_nil in E as [E _]. unfold select_parts, _dt_collection_set_selq_pre_sort, select_columns in E.
    by repeat match type of E with context [fst (if ?b then _ else _)] => destruct b end. }
  destruct (select_parts c) as [pre post]. cbn [fst] in Hne. intros Hd. split; intros ->; injection Hd; intros; by eapply Hne.
Qed.

(** The steps of an update: rules, queries, selection and the collected images. *)
Lemma update_query_steps m c change imgs s next c' s' : update_query m c change imgs s = Done (next, c', s') ->
  exists q q2, query c' = Some q /\ query_no_group c' = Some q2 /\ clone c' = clone c /\
    (exists g, build_query g c' = Done (q, q2)) /\ (exists n i s1 s2, query_parts n i s1 = Done (where_ext c', s2)) /\
    next = (if clone c then -1 else next_image imgs (collected_images (db s))) /\
    selected_images (db s') = filter (fun id => id ∈ rows q2 (bound c' [0; -1]) (others (db s'))) (selected_images (db s)) /\
    collected_images (db s') = (if negb (clone c) && m then rows q (bound c' [0; -1]) (others (db s')) else collected_images (db s)).
Proof.
  unfold dt_collection_update_query. set (s0 := if _ && _ then _ else s).
  assert (db s0 = db s) as Hs0 by (unfold s0; by destruct (_ && _)). clearbody s0. cbv zeta.
  intros [[_n_r s1] [H1 Hd]]%c_bind_Done. apply get_int_frame in H1 as [H1 _].
  apply c_bind_Done in Hd as [[parts s2] [H2 Hd]]. pose proof H2 as Hparts. apply query_parts_frame in H2 as [H2 _].
  apply c_bind_Done in Hd as [[c3 s3] [H3 Hd]]. apply update_spec in H3 as (q & q2 & Hq & Hc1 & Hc2 & Hc3 & Hc4 & Hc6 & Hc5 & Hs3 & Hs4 & _).
  unfold dt_collection_get_query_no_group in Hd. rewrite Hc2 in Hd. cbn [c_bind] in Hd.
  destruct (queries_nonempty _ _ _ _ Hq) as [_ Hne]. destruct (String.eqb_spec q2 "") as [->|_]; [done|].
  unfold dt_collection_memory_update, dt_collection_get_query in Hd. rewrite Hc1 in Hd. cbn [c_bind] in Hd.
  assert (exists g, build_query g c3 = Done (q, q2)) as Hb by (eexists; rewrite <- Hq; by apply build_query_ext).
  assert (exists n i s1 s2, query_parts n i s1 = Done (where_ext c3, s2)) as Hw by (rewrite Hc3; eauto 10).
  assert (clone c3 = clone c) as Hc5' by done. clear Hc5 Hc4 Hc6 Hq.
  assert (selected_images (db s3) = selected_images (db s)) as Hsel by congruence.
  assert (collected_images (db s3) = collected_images (db s)) as Hcol by congruence.
  destruct (clone c3) eqn:Ecl; [|destruct m]; injection Hd as <- <- <-; exists q, q2; rewrite <- Hc5', ?Hs0, ?Hsel, ?Hcol.
  all: cbn [negb andb]; repeat (split; [first [done|congruence]|]); rewrite ?Hsel, ?Hcol; try done.
Qed.

(** The parts of the filter, one for each rule. *)
Context (regex_groups : forall pattern input, pattern ∈ rule_patterns ->
  Forall (fun g => str_forall is_plain g = true) (tail (g_regex_match pattern input))).
Context (strftime_plain : forall n t, str_forall is_plain (strftime n "%Y:%m:%d %H:%M:%S"%string t) = true).

Lemma rule_text_closed property text (s : session DB) :
  closed_text (rule_text g_regex_match strptime strftime gettext lookup_makermodel g_utf8_strdown makers property text s).
Proof. by apply property_rule_closed. Qed.

Lemma query_parts_closed n i s parts s' : query_parts n i s = Done (parts, s') -> Forall closed_text parts.
Proof.
  revert i s parts. induction n as [|n IH]; intros i s parts; cbn [Collection.query_parts]; [intros [= <- _]; constructor|].
  intros [[p s1] [H1 H2]]%c_bind_Done. destruct (get_string _ s1) as [text s2]. apply c_bind_Done in H2 as [[mode s3] [H3 H4]].
  apply c_bind_Done in H4 as [part [Hp H4]]. apply c_bind_Done in H4 as [[parts2 s4] [H4 H5]].
  injection H5 as <- ->. constructor; [|by eapply IH]. clear IH H4 H1 H3. destruct (String.eqb text "").
  - revert Hp. apply closed_Done. destruct (mode =? 1); read_text.
  - apply c_bind_Done in Hp as [op [Hop Hp]]. revert Hp. apply closed_Done.
    assert (str_forall is_plain op = true) as Ho by (revert Hop; unfold conj; repeat case_match; intros [= <-]; done).
    apply closed_text_app; [read_text|]. apply closed_text_app; [read_text|].
    apply closed_text_app; [read_text|]. apply rule_text_closed.
Qed.

End queries.

(** A shift makes room for so many images and keeps the order inside of a part. *)
Lemma shift_makes_room length p q : 0 <= length < 2 ^ 31 ->
  q < Z.land p 0xFFFFFFFF00000000 + 2 ^ 32 -> ~ (p <= shifted length p q < p + length) /\
  forall r, q < r -> r < Z.land p 0xFFFFFFFF00000000 + 2 ^ 32 -> shifted length p q < shifted length p r.
Proof.
  intros Hl Hq. unfold shifted. rewrite wrap_s32_id by lia. change (Z.shiftl 1 32) with (2 ^ 32).
  split; [|intros r Hr Hr2];
  repeat match goal with |- context [?a <=? ?b] => destruct (Z.leb_spec a b) | |- context [?a <? ?b] => destruct (Z.ltb_spec a b) end; cbn [andb]; lia.
Qed.

(** ** Lemmas: rules as text *)

Section rule_texts.
Context (g_ascii_strtod : string -> float * string) (fmodf powf : float -> float -> float).
Context {DB : Type}.

Definition rule : Type := Z * Z * string.

(** The settings hold these rules. *)
Definition holds_rule (k : dt_conf_t) (i : Z) (r : rule) : Prop :=
  conf_value k (rule_name "mode" i) = c_show_int r.1.1 /\ conf_value k (rule_name "item" i) = c_show_int r.1.2 /\
  conf_value k (rule_name "string" i) = r.2.

Definition num_rules_name : string := "plugins/lighttable/collect/num_rules".

Definition holds_rules (k : dt_conf_t) (l : list rule) : Prop :=
  conf_value k num_rules_name = c_show_int (Z.of_nat (length l)) /\
  forall i r, l !! i = Some r -> holds_rule k (Z.of_nat i) r.

(** Numbers that are read back, and a text without the mark that ends it. *)
Definition readable (n : Z) : Prop := 0 <= n < 2 ^ 24 /\ g_ascii_strtod (c_show_int n) = (double_of n, ""%string).
Definition valid_rule (r : rule) : Prop :=
  readable r.1.1 /\ readable r.1.2 /\ str_forall (not_char "$") r.2 = true /\ (String.length r.2 <= 399)%nat.

(** An empty text is written as the text that matches all. *)
Definition written (str : string) : string := if String.eqb str "" then "%" else str.
Definition written_rule (r : rule) : rule := (r.1, written r.2).

Definition rule_string (r : rule) : string :=
  c_show_int r.1.1 +:+ ":" +:+ c_show_int r.1.2 +:+ ":" +:+ written r.2 +:+ "$".
Definition rules_string (l : list rule) : string := fold_right (fun r s => rule_string r +:+ s) ""%string l.

Definition same_values (k k' : dt_conf_t) : Prop := forall name, conf_value k' name = conf_value k name.

Lemma get_int_reads name n (s : session DB) : readable n -> conf_value (conf s) name = c_show_int n ->
  exists s', get_int g_ascii_strtod fmodf powf name s = Done (n, s') /\ same_values (conf s) (conf s').
Proof.
  intros [Hn Hs] Hv. destruct (get_int_value g_ascii_strtod fmodf powf (conf s) name n) as [c' Hc]; [lia|by rewrite Z.abs_eq by lia|done|].
  unfold get_int. rewrite Hc. cbn [c_bind]. eexists. split; [done|]. cbn [conf on_conf].
  unfold dt_conf_get_int in Hc. intros other. rewrite <- (get_keeps_values (conf s) name other).
  destruct (dt_conf_get_var (conf s) name) as [str c2]. apply c_bind_Done in Hc as [v [_ Hc]].
  apply c_bind_Done in Hc as [z [_ Hc]]. by injection Hc as _ <-.
Qed.

Lemma get_string_reads name (s : session DB) : exists s', get_string name s = (conf_value (conf s) name, s') /\ same_values (conf s) (conf s').
Proof.
  unfold get_string, dt_conf_get_string. pose proof (get_value (conf s) name) as Hv.
  pose proof (get_keeps_values (conf s) name) as Hk. destruct (dt_conf_get_var (conf s) name) as [v k]. cbn in Hv, Hk. subst v. by eexists.
Qed.

Lemma put_fits text out size : Z.of_nat (String.length text) < size -> put text (out, size) = Done (out +:+ text, size - Z.of_nat (String.length text)).
Proof. intros Hf. unfold put. destruct (Z.ltb_spec size 0); [lia|]. by rewrite str_take_all by lia. Qed.

Lemma holds_rule_values k k' i r : same_values k k' -> holds_rule k i r -> holds_rule k' i r.
Proof. intros Hk. unfold holds_rule. by rewrite !Hk. Qed.

Lemma rules_string_cons r l : rules_string (r :: l) = rule_string r +:+ rules_string l.
Proof. done. Qed.

Lemma serialize_rules_spec l k out size (s : session DB) :
  Forall valid_rule l -> (forall i r, l !! i = Some r -> holds_rule (conf s) (k + Z.of_nat i) r) ->
  Z.of_nat (String.length (rules_string l)) < size ->
  exists b s', serialize_rules g_ascii_strtod fmodf powf (length l) k (out, size) s = Done (out +:+ rules_string l, b, s').
Proof.
  intros Hv. revert k out size s. induction Hv as [|[[mode item] str] l (Hm & Hi & _ & _) Hv IH]; intros k out size s Hh Hs.
  - cbn. rewrite str_app_nil_r. by eexists _, _.
  - rewrite rules_string_cons in *. unfold rule_string in *. cbn [fst snd] in *.
    rewrite !str_length_app in Hs. cbn [String.length] in Hs.
    destruct (Hh 0%nat _ eq_refl) as (H1 & H2 & H3). rewrite Z.add_0_r in *. cbn [fst snd] in *.
    cbn [length serialize_rules].
    destruct (get_int_reads (rule_name "mode" k) mode s Hm H1) as (s1 & -> & K1). cbn [c_bind].
    rewrite put_fits by (rewrite str_length_app; cbn [String.length]; lia). cbn [c_bind].
    destruct (get_int_reads (rule_name "item" k) item s1 Hi) as (s2 & -> & K2); [by rewrite K1|]. cbn [c_bind].
    rewrite str_length_app. cbn [String.length].
    rewrite put_fits by (rewrite str_length_app; cbn [String.length]; lia). cbn [c_bind].
    destruct (get_string_reads (rule_name "string" k) s2) as (s3 & -> & K3). rewrite K2, K1, H3.
    assert ((if String.eqb str "" then "%$" else str +:+ "$") = written str +:+ "$") as -> by (unfold written; by destruct (String.eqb str "")).
    rewrite !str_length_app in *. cbn [String.length] in *.
    rewrite put_fits by (rewrite str_length_app; cbn [String.length]; lia). cbn [c_bind].
    edestruct (IH (k + 1)) as (b & s4 & ->).
    + intros i r Hr. apply (holds_rule_values (conf s)); [intros n; by rewrite K3, K2, K1|].
      replace (k + 1 + Z.of_nat i) with (k + Z.of_nat (S i)) by lia. by apply Hh.
    + rewrite ?str_length_app; cbn [String.length]. lia.
    + eexists _, _. by rewrite !str_app_assoc.
Qed.

Lemma drop_until_stop c a b : str_forall (not_char c) a = true -> drop_until c (a +:+ String c b) = b.
Proof.
  induction a as [|d a IH]; cbn [str_forall drop_until String.append]; [by rewrite Ascii.eqb_refl|].
  intros [Hd Ha]%andb_true_iff. unfold not_char in Hd. destruct (d =? c)%char; [done|]. by apply IH.
Qed.

Lemma take_until_stop n c a b : str_forall (not_char c) a = true -> (String.length a <= n)%nat -> take_until n c (a +:+ String c b) = a.
Proof.
  revert n. induction a as [|d a IH]; intros n; cbn [str_forall String.append String.length].
  - intros _ _. destruct n; cbn [take_until]; [done|]. by rewrite Ascii.eqb_refl.
  - intros [Hd Ha]%andb_true_iff Hn. destruct n as [|n]; [lia|]. cbn [take_until]. unfold not_char in Hd.
    destruct (d =? c)%char; [done|]. f_equal. apply IH; [done|lia].
Qed.

Lemma number_without c z : 0 <= z -> is_digit c = false -> str_forall (not_char c) (c_show_int z) = true.
Proof.
  intros Hz Hc. destruct (show_nonneg z Hz) as (u & _ & -> & _).
  assert (forall d, is_digit d = true -> not_char c d = true) as Hd.
  { intros d Hd. unfold not_char. destruct (Ascii.eqb_spec d c) as [->|]; [congruence|done]. }
  induction u; cbn [NilEmpty.string_of_uint str_forall]; [done|..]; rewrite Hd by reflexivity; by rewrite IHu.
Qed.

Lemma written_valid r : valid_rule r -> str_forall (not_char "$") (written r.2) = true /\ (String.length (written r.2) <= 399)%nat /\ written r.2 <> ""%string.
Proof.
  intros (_ & _ & Hs & Hl). unfold written. destruct (String.eqb_spec r.2 "") as [E|E]; [|done]. split; [done|]. split; [cbn; lia|done].
Qed.

Lemma rule_string_app r rest : rule_string r +:+ rest =
  c_show_int r.1.1 +:+ String ":" (c_show_int r.1.2 +:+ String ":" (written r.2 +:+ String "$" rest)).
Proof. unfold rule_string. by rewrite !str_app_assoc. Qed.

Lemma scan_rule_string r rest : valid_rule r -> scan_rule (rule_string r +:+ rest) = Done (Some (written_rule r)).
Proof.
  intros Hr. pose proof (written_valid r Hr) as (Hw & Hl & Hne). destruct r as [[mode item] str]. destruct Hr as ([Hm _] & [Hi _] & _ & _).
  cbn [fst snd] in *. rewrite rule_string_app. unfold scan_rule, written_rule. cbn [fst snd].
  rewrite scan_int_show by (done || lia). cbn [c_bind]. rewrite scan_int_show by (done || lia). cbn [c_bind].
  rewrite take_until_stop by done. by destruct (String.eqb_spec (written str) "").
Qed.

Lemma drop_rule_string r rest : valid_rule r -> drop_until "$" (rule_string r +:+ rest) = rest.
Proof.
  intros Hr. pose proof (written_valid r Hr) as (Hw & _ & _). destruct r as [[mode item] str]. destruct Hr as ([Hm _] & [Hi _] & _ & _).
  cbn [fst snd] in *. rewrite rule_string_app. cbn [fst snd].
  replace (c_show_int mode +:+ String ":" (c_show_int item +:+ String ":" (written str +:+ String "$" rest)))
    with ((c_show_int mode +:+ ":" +:+ c_show_int item +:+ ":" +:+ written str) +:+ String "$" rest) by (by rewrite !str_app_assoc).
  apply drop_until_stop. rewrite !str_forall_app, Hw, !number_without by (done || lia). done.
Qed.

Lemma show_int_inj a b : 0 <= a -> 0 <= b -> c_show_int a = c_show_int b -> a = b.
Proof.
  intros Ha Hb E. pose proof (scan_number_show a "" Ha eq_refl) as Sa. pose proof (scan_number_show b "" Hb eq_refl) as Sb. rewrite E in Sa. congruence.
Qed.

(** The settings of the rules are not given on the command line. *)
Definition rules_free (k : dt_conf_t) : Prop := override_entries k !! num_rules_name = None /\
  forall i, override_entries k !! rule_name "mode" i = None /\ override_entries k !! rule_name "item" i = None /\
    override_entries k !! rule_name "string" i = None.

Definition is_rule_name (i : Z) (name : string) : Prop :=
  name = rule_name "mode" i \/ name = rule_name "item" i \/ name = rule_name "string" i.

Lemma set_rule_overrides i mode item str k : override_entries (set_rule i mode item str k) = override_entries k.
Proof. unfold set_rule, dt_conf_set_string, dt_conf_set_int. by rewrite !set_overrides. Qed.

Lemma set_rule_other i mode item str k name : ~ is_rule_name i name -> conf_value (set_rule i mode item str k) name = conf_value k name.
Proof.
  intros Hn. unfold is_rule_name in Hn. unfold set_rule, dt_conf_set_string, dt_conf_set_int. rewrite !set_values.
  repeat (destruct (decide _) as [->|]; [naive_solver|]). done.
Qed.

Lemma set_rule_holds i mode item str k : rules_free k -> holds_rule (set_rule i mode item str k) i (mode, item, str).
Proof.
  intros [_ Hf]. destruct (Hf i) as (F1 & F2 & F3). unfold holds_rule, set_rule, dt_conf_set_string, dt_conf_set_int. cbn [fst snd].
  rewrite !set_values, !set_overrides, F1, F2, F3. cbn [default from_option id].
  repeat split; repeat (destruct (decide _) as [E|]; [try done; by unfold rule_name in E|]); done.
Qed.

Lemma rule_names_distinct i j name : 0 <= i -> 0 <= j -> i <> j -> is_rule_name i name -> ~ is_rule_name j name.
Proof.
  intros Hi Hj Hne. unfold is_rule_name, rule_name. intros [-> | [-> | ->]] [E | [E | E]]; cbn in E; try discriminate E;
    injection E as E; apply show_int_inj in E; done.
Qed.

Lemma deserialize_rules_spec l k n rest conf : Forall valid_rule l -> 0 <= k -> rules_free conf ->
  exists conf', deserialize_rules (length l) k n (rules_string l +:+ rest) conf = Done conf' /\
    (forall i r, l !! i = Some r -> holds_rule conf' (k + Z.of_nat i) (written_rule r)) /\
    (forall name, (forall i, k <= i -> ~ is_rule_name i name) -> conf_value conf' name = conf_value conf name).
Proof.
  intros Hv. revert k conf. induction Hv as [|r l Hr Hv IH]; intros k conf Hk Hf; [by exists conf|].
  cbn [length deserialize_rules]. rewrite rules_string_cons, str_app_assoc, scan_rule_string by done. cbn [c_bind].
  rewrite drop_rule_string by done. destruct (written_rule r) as [[mode item] str] eqn:Er. cbn beta iota.
  set (conf1 := set_rule k mode item str conf).
  assert (rules_free conf1) as Hf1 by (unfold rules_free, conf1; by rewrite set_rule_overrides).
  destruct (IH (k + 1) conf1 ltac:(lia) Hf1) as (conf' & -> & Hl & Ho). exists conf'. split; [done|]. split.
  - intros [|i] r' Hi.
    + injection Hi as <-. rewrite Er, Z.add_0_r. destruct (set_rule_holds k mode item str conf Hf) as (H1 & H2 & H3). fold conf1 in H1, H2, H3.
      split; [|split]; (etransitivity; [apply Ho|eassumption]); intros j Hj;
        apply (rule_names_distinct k); try lia; unfold is_rule_name; auto.
    + replace (k + Z.of_nat (S i)) with (k + 1 + Z.of_nat i) by lia. by apply Hl.
  - intros name Hn. rewrite Ho by (intros i Hi; apply Hn; lia). apply set_rule_other, Hn. lia.
Qed.

End rule_texts.

(** ** Theorems *)

Section theorems.
Context (g_ascii_strtod : string -> float * string) (fmodf powf : float -> float -> float).
Context (g_regex_match : string -> string -> list string) (strptime : string -> string -> tm -> option tm)
        (strftime : nat -> string -> tm -> string) (gettext : string -> string).
Context (lookup_makermodel : option string -> option string -> string * string * string) (g_utf8_strdown : string -> string).
Context {DB : Type} (rows : string -> list Z -> DB -> list Z).
Context (makers : DB -> list (option string * option string)).
Context (set_raw_aspect_ratio : Z -> DB -> DB) (late : nat -> bool).
Context `{RowOrder}.

Local Abbreviation update_query := (dt_collection_update_query g_ascii_strtod fmodf powf g_regex_match strptime strftime gettext
  lookup_makermodel g_utf8_strdown rows makers set_raw_aspect_ratio late).
Local Abbreviation serialize := (dt_collection_serialize g_ascii_strtod fmodf powf).
Local Abbreviation deserialize := (dt_collection_deserialize g_ascii_strtod fmodf powf g_regex_match strptime strftime gettext
  lookup_makermodel g_utf8_strdown rows makers set_raw_aspect_ratio late).

(** C31: rules whose texts have at most 399 characters and no dollar sign, and whose modes and
    properties are numbers from 0 that are read back from their settings, are, written as
    text into a buffer that is large enough, read back as the
    same rules into any settings whose rules the command line does not fix: the number of rules,
    and the mode, the property and the text of each, an empty text as the one that matches
    everything. No other setting changes before the query is updated with them. *)
Theorem rules_round_trip l bufsize (s s2 : session DB)
    (Hl : l <> []) (Hn : readable g_ascii_strtod (Z.of_nat (length l))) (Hv : Forall (valid_rule g_ascii_strtod) l)
    (Hs : holds_rules (conf s) l) (Hf : rules_free (conf s2))
    (Hb : Z.of_nat (String.length (c_show_int (Z.of_nat (length l)) +:+ ":" +:+ rules_string l)) < bufsize) :
  exists text s', serialize bufsize s = Done (text, s') /\
    exists k, holds_rules k (written_rule <$> l) /\
      (forall name, name <> num_rules_name -> (forall i, 0 <= i -> ~ is_rule_name i name) -> conf_value k name = conf_value (conf s2) name) /\
      forall m c, deserialize m text c s2 =
        (let* (_, c, s) := update_query m c DT_COLLECTION_CHANGE_NEW_QUERY [] (on_conf k s2) in Done (c, s)).
Proof.
  set (n := Z.of_nat (length l)) in *. destruct Hs as [Hs1 Hs2]. exists (c_show_int n +:+ ":" +:+ rules_string l).
  unfold dt_collection_serialize. fold num_rules_name. destruct (get_int_reads g_ascii_strtod fmodf powf _ n s Hn Hs1) as (s1 & -> & K). cbn [c_bind].
  rewrite !str_length_app in Hb. cbn [String.length] in Hb.
  rewrite put_fits by (rewrite str_length_app; cbn [String.length]; lia). cbn [c_bind]. unfold n at 1. rewrite Nat2Z.id.
  match goal with |- context [serialize_rules _ _ _ _ 0 (?o, ?b) s1] =>
    destruct (serialize_rules_spec g_ascii_strtod fmodf powf l 0 o b s1) as (b' & s' & ->)
  end.
  { done. } { intros i r Hi. by apply (holds_rule_values (conf s)), Hs2. } { rewrite str_length_app. cbn [String.length]. lia. }
  cbn [c_bind]. exists s'. split; [by cbn [String.append]; rewrite str_app_assoc|].
  set (k1 := dt_conf_set_int (conf s2) num_rules_name n).
  assert (rules_free k1) as Hf1 by (unfold rules_free, k1, dt_conf_set_int; by rewrite set_overrides).
  destruct (deserialize_rules_spec g_ascii_strtod l 0 n "" k1 Hv ltac:(lia) Hf1) as (k & Hk & Hr & Ho). rewrite str_app_nil_r in Hk.
  exists k. split; [|split].
  - split.
    + rewrite length_fmap, Ho; [|intros i _ E; by destruct E as [E | [E | E]]; cbn in E]. unfold k1, dt_conf_set_int.
      rewrite set_values, decide_True by done. by rewrite (proj1 Hf).
    + intros i r Hi. rewrite list_lookup_fmap in Hi. destruct (l !! i) as [r0|] eqn:E; [|done]. injection Hi as <-. by apply Hr.
  - intros name Hname Hi. rewrite Ho by done. unfold k1, dt_conf_set_int. by rewrite set_values, decide_False.
  - intros m c. unfold dt_collection_deserialize. cbn [String.append].
    destruct Hn as [Hn _]. rewrite sscanf_show_app by (done || lia). cbn [c_bind default from_option id].
    destruct (Z.eqb_spec n 0) as [E|_]; [by destruct l|].
    rewrite drop_until_stop by (apply number_without; [lia|done]). fold num_rules_name k1. unfold n at 1. rewrite Nat2Z.id, Hk. done.
Qed.

(** C26: no text of a rule gets out of its literal: whatever the settings hold, both queries that an
    update leaves are closed, with every quote and every parenthesis outside of literals paired.
    The patterns' groups and the dates are taken to be without quotes and parentheses. *)
Theorem queries_closed m c change imgs (s : session DB) next c' s'
    (regex_groups : forall pattern input, pattern ∈ rule_patterns ->
      Forall (fun g => str_forall is_plain g = true) (tail (g_regex_match pattern input)))
    (strftime_plain : forall n t, str_forall is_plain (strftime n "%Y:%m:%d %H:%M:%S"%string t) = true)
    (Hd : update_query m c change imgs s = Done (next, c', s')) :
  exists q q2, query c' = Some q /\ query_no_group c' = Some q2 /\ closed_text q /\ closed_text q2.
Proof.
  eapply update_query_steps in Hd as (q & q2 & Hq & Hq2 & _ & [g Hb] & (n & i & s1 & s2 & Hw) & _).
  exists q, q2. split; [done|]. split; [done|]. apply (build_query_closed g c'); [|done]. by eapply query_parts_closed.
Qed.

(** For the rules of folders, film rolls, tags, lenses and modules the SQL outside of
    literals is the same for every text: the text is data only. *)
Theorem literal_rules property
    (Hp : property ∈ [DT_COLLECTION_PROP_FOLDERS; DT_COLLECTION_PROP_FILMROLL; DT_COLLECTION_PROP_TAG; DT_COLLECTION_PROP_LENS;
                     DT_COLLECTION_PROP_MODULE]) :
  exists shape, forall cameras text, closed (get_query_string g_regex_match strptime strftime gettext cameras property text) shape.
Proof.
  unfold get_query_string, property_rule. cbv zeta. repeat (apply elem_of_cons in Hp as [-> | Hp]); [..|by apply not_elem_of_nil in Hp].
  all: eexists; intros cameras text.
  all: repeat match goal with |- context [?a =? ?b] => let r := eval vm_compute in (a =? b) in change (a =? b) with r end.
  all: repeat match goal with |- context [?a <=? ?b] => let r := eval vm_compute in (a <=? b) in change (a <=? b) with r end; cbn [andb orb].
  all: cbn [default from_option id]; unfold closed; try (destruct (String.eqb (escape text) "")); read_sql.
Qed.

(** C27: an update of the query keeps of the selected images those that the new query finds, and
    selects no other; it stores what the query finds, in its order, as the collected images, only
    for the main collection. With images [imgs] that are about to leave, the first of them
    collected, the update of a collection that is no copy names an image that stays (the
    collected images have numbers from 0): one that was collected and is not among them, or -1 only if
    all the collected images leave. For a copy, without such images, or if the first of them is
    not collected it is -1, whatever stays. *)
Theorem update_query_spec m c change imgs (s : session DB) next c' s'
    (Hd : update_query m c change imgs s = Done (next, c', s')) :
  exists q q2, query c' = Some q /\ query_no_group c' = Some q2 /\
    let found q := rows q (bound c' [0; -1]) (others (db s')) in
    (forall id, id ∈ selected_images (db s') <-> id ∈ selected_images (db s) /\ id ∈ found q2) /\
    collected_images (db s') = (if negb (clone c) && m then found q else collected_images (db s)) /\
    (clone c = false -> Forall (fun id => 0 <= id) (collected_images (db s)) -> (exists id, head imgs = Some id /\ id ∈ collected_images (db s)) ->
     (next ∈ collected_images (db s) /\ next ∉ imgs) \/ (next = -1 /\ forall id, id ∈ collected_images (db s) -> id ∈ imgs)) /\
    (clone c = true \/ (forall id, head imgs = Some id -> id ∉ collected_images (db s)) -> next = -1).
Proof.
  eapply update_query_steps in Hd as (q & q2 & Hq & Hq2 & _ & _ & _ & Hn & Hsel & Hcol).
  exists q, q2. split; [done|]. split; [done|]. split; [|split; [done|split]].
  - intros id. rewrite Hsel, list_elem_of_filter. tauto.
  - intros Hc Hpos (id & Hid & Hin). rewrite Hc in Hn. destruct imgs as [|id0 imgs]; [done|]. injection Hid as ->. subst next. by apply next_image_stays.
  - intros [Hc|Hh]; [by rewrite Hc in Hn|]. rewrite Hn. destruct (clone c); [done|]. by apply next_image_none.
Qed.

End theorems.

(** In a range of times, a time of the last day, which has a colon behind the day, is behind
    its end, which has a space: the day is left out. *)
Lemma range_loses_last_day column text date last clock n1 :
  (exists rule, timestamp_rule column text (Some n1, Some (date +:+ " " +:+ last), "[]") = Some rule /\
    exists a b, rule = a +:+ "strftime('%Y:%m:%d:%H:%M:%S', " +:+ column +:+ ", 'unixepoch', 'localtime') <= '" +:+ (date +:+ " " +:+ last) +:+ b) /\
  String.compare (date +:+ ":" +:+ clock) (date +:+ " " +:+ last) = Gt.
Proof.
  split.
  - eexists. split; [reflexivity|].
    exists ("((strftime('%Y:%m:%d:%H:%M:%S', " +:+ column +:+ ", 'unixepoch', 'localtime') >= '" +:+ n1 +:+ "') AND (")%string, "'))"%string.
    by rewrite !str_app_assoc.
  - induction date as [|c date IH]; [done|]. cbn [String.append String.compare].
    assert (Ascii.compare c c = Eq) as ->; [|done]. unfold Ascii.compare. by rewrite N.compare_refl.
Qed.

(** ** Concrete runs *)

Module Example.

(** A tag with a quote, and the images with more than 400 ISO. *)
Definition rules : list rule := [(0, DT_COLLECTION_PROP_TAG, "it's") ; (1, DT_COLLECTION_PROP_ISO, ">400"); (2, DT_COLLECTION_PROP_FOLDERS, "")]%string.

Definition settings : dt_conf_t := Conf "darktablerc"
  (<[num_rules_name := "3"]>
   (<[rule_name "mode" 0 := "0"]> (<[rule_name "item" 0 := c_show_int DT_COLLECTION_PROP_TAG]> (<[rule_name "string" 0 := "it's"]>
   (<[rule_name "mode" 1 := "1"]> (<[rule_name "item" 1 := c_show_int DT_COLLECTION_PROP_ISO]> (<[rule_name "string" 1 := ">400"]>
   (<[rule_name "mode" 2 := "2"]> (<[rule_name "item" 2 := c_show_int DT_COLLECTION_PROP_FOLDERS]> (<[rule_name "string" 2 := ""]> ∅)))))))))) ∅ ∅.

#[local] Instance rows_in_order : RowOrder := {| scan A l := l; scan_Permutation A l := reflexivity l |}.

(** One text is known to the patterns. *)
Definition matches (pattern input : string) : list string :=
  if decide (pattern = NUMBER /\ input = ">400"%string) then [">400"; ">"; "400"]%string else [].

Definition no_time (input format : string) (t : tm) : option tm := None.
Definition the_time (n : nat) (format : string) (t : tm) : string := "2020:05:10 23:59:59".
Definition same (s : string) : string := s.
Definition camera (maker model : option string) : string * string * string := ("", "", "").
(** The images of the library, all of which a query finds. *)
Definition all_rows (q : string) (numbers : list Z) (d : list Z) : list Z := d.
Definition no_makers (d : list Z) : list (option string * option string) := [].
Definition no_ratio (id : Z) (d : list Z) : list Z := d.

Definition start : session (list Z) := Session settings (Database [7; 3; 9] [3; 4; 5] [] [4; 9; 3]) None.

Abbreviation update := (dt_collection_update_query example_strtod example_float example_float matches no_time the_time same camera same
  all_rows no_makers no_ratio (fun _ => false)).

(** The image behind the ones that leave. *)
Definition updated : Z * dt_collection_t * session (list Z) :=
  match update true no_collection DT_COLLECTION_CHANGE_NEW_QUERY [3; 4] start with
  | Done r => r
  | Undefined => (0, no_collection, start)
  end.

Lemma where_of_rules : where_ext (snd (fst updated)) =
  [" AND (id IN (SELECT imgid FROM main.tagged_images AS a JOIN data.tags AS b ON a.tagid = b.id WHERE name LIKE 'it''s'))";
   " OR (iso > 400)"; ""]%string.
Proof. vm_compute. reflexivity. Qed.

Lemma matches_plain pattern input : pattern ∈ rule_patterns -> Forall (fun g => str_forall is_plain g = true) (tail (matches pattern input)).
Proof. intros _. unfold matches. destruct (decide _); repeat constructor. Qed.

Lemma queries_closed_witness : exists q q2, query (snd (fst updated)) = Some q /\ query_no_group (snd (fst updated)) = Some q2 /\
  closed_text q /\ closed_text q2.
Proof.
  apply (queries_closed example_strtod example_float example_float matches no_time the_time same camera same all_rows no_makers no_ratio
    (fun _ => false) true no_collection DT_COLLECTION_CHANGE_NEW_QUERY [3; 4] start (fst (fst updated)) (snd (fst updated)) (snd updated)).
  - exact matches_plain.
  - reflexivity.
  - vm_compute. reflexivity.
Defined.

Lemma literal_rules_witness : exists shape, forall text,
  closed (get_query_string matches no_time the_time same (fun _ => []) DT_COLLECTION_PROP_LENS text) shape.
Proof.
  destruct (literal_rules matches no_time the_time same DT_COLLECTION_PROP_LENS) as [shape Hs]; [apply (bool_decide_unpack _); vm_compute; exact I|].
  exists shape. exact (Hs (fun _ => [])).
Defined.

Lemma update_query_spec_witness : fst (fst updated) = 5 /\ selected_images (db (snd updated)) = [3; 9] /\
  exists q q2, query (snd (fst updated)) = Some q /\ query_no_group (snd (fst updated)) = Some q2 /\
    collected_images (db (snd updated)) = all_rows q (bound (snd (fst updated)) [0; -1]) [4; 9; 3] /\ 5 ∉ [3; 4].
Proof.
  split; [vm_compute; reflexivity|]. split; [vm_compute; reflexivity|].
  destruct (update_query_spec example_strtod example_float example_float matches no_time the_time same camera same all_rows no_makers no_ratio
    (fun _ => false) true no_collection DT_COLLECTION_CHANGE_NEW_QUERY [3; 4] start 5 (snd (fst updated)) (snd updated)) as (q & q2 & Hq & Hq2 & Hs & Hc & Hn & _).
  - vm_compute. reflexivity.
  - exists q, q2. split; [exact Hq|]. split; [exact Hq2|]. split; [exact Hc|].
    destruct (Hn eq_refl) as [[_ Hne] | [Hne _]]; [repeat constructor; lia|exists 3; split; [reflexivity|apply elem_of_cons; by left]|exact Hne|lia].
Defined.

(** The settings that get the rules: one, and one of another component. *)
Definition other_settings : session (list Z) :=
  Session (Conf "darktablerc" (<[num_rules_name := "1"]> (<["plugins/lighttable/layout" := "2"]> ∅))%string ∅ ∅) (Database [] [] [] []) None.

Lemma rules_round_trip_witness : exists text s', dt_collection_serialize example_strtod example_float example_float 4096 start = Done (text, s') /\
  exists k, holds_rules k (written_rule <$> rules) /\ conf_value k "plugins/lighttable/layout" = "2"%string.
Proof.
  destruct (rules_round_trip example_strtod example_float example_float matches no_time the_time same camera same all_rows no_makers no_ratio
    (fun _ => false) rules 4096 start other_settings) as (text & s' & Ht & k & Hk & Ho & _).
  - discriminate.
  - split; [cbn; lia|vm_compute; reflexivity].
  - repeat first [apply Forall_nil; exact I | apply Forall_cons; split].
    all: split; [|split; [|split; [reflexivity|cbn; lia]]]; (split; [split; [vm_compute; discriminate|]|]; vm_compute; reflexivity).
  - split; [vm_compute; reflexivity|]. intros [|[|[|i]]] r; intros [= <-]; repeat split; vm_compute; reflexivity.
  - repeat split.
  - vm_compute. reflexivity.
  - exists text, s'. split; [exact Ht|]. exists k. split; [exact Hk|].
    rewrite Ho; [vm_compute; reflexivity|discriminate|]. intros i _ [E | [E | E]]; cbn in E; discriminate E.
Defined.

(** A text with a dollar sign is cut there, and the rule behind it is lost: the rest of the text
    is taken for it, and the number of rules is set to those before. *)
Definition dollar : session (list Z) := Session (Conf "darktablerc"
  (<[num_rules_name := "2"]>
   (<[rule_name "mode" 0 := "0"]> (<[rule_name "item" 0 := c_show_int DT_COLLECTION_PROP_TAG]> (<[rule_name "string" 0 := "10$ bill"]>
   (<[rule_name "mode" 1 := "1"]> (<[rule_name "item" 1 := c_show_int DT_COLLECTION_PROP_ISO]> (<[rule_name "string" 1 := ">400"]> ∅)))))))%string ∅ ∅)
  (Database [] [] [] []) None.

Example dollar_cuts_rules : exists s' k,
  dt_collection_serialize example_strtod example_float example_float 4096 dollar = Done ("2:0:17:10$ bill$1:8:>400$"%string, s') /\
  deserialize_rules 2 0 2 (drop_until ":" "2:0:17:10$ bill$1:8:>400$") (conf dollar) = Done k /\
  conf_value k num_rules_name = "1"%string /\ conf_value k (rule_name "string" 0) = "10"%string.
Proof. eexists _, _. split; [vm_compute; reflexivity|]. split; [vm_compute; reflexivity|]. split; vm_compute; reflexivity. Qed.

(** A buffer that is too small: the text of the tag ends it, and the size that is left for the next
    rule is negative. *)
Lemma small_buffer : dt_collection_serialize example_strtod example_float example_float 8 start = Undefined /\
  exists text s', dt_collection_serialize example_strtod example_float example_float 32 start = Done (text, s') /\ text = "3:0:17:it's$1:8:>400$2:0:%$"%string.
Proof. split; [vm_compute; reflexivity|]. eexists _, _. split; vm_compute; reflexivity. Qed.

End Example.
