(* ===== verification/Selection.v ===== *)
(** The selection of images: common/selection.c, over the collection of [Collection], the
    image cache through [ImageStore] and the table main.selected_images.

    A selection has a copy of the collection, without the limit, and the image that was
    clicked last. Each operation takes and gives the selection, the session and what the
    rest of the program is told: whether the list of the images to act on is still good,
    and how often the signal of a changed selection was raised. What SQLite makes of the
    query of the collection is the parameter [rows]; without numbers bound to it the list
    of numbers is empty. [films]: id and film_id of main.images. The text of the hint is
    not shown. *)

From Stdlib Require Import Ascii String.
From S2P Require Import Prelude Cache Images ImageCache ImageStore Library Tags Conf Collection Grouping.
Local Open Scope Z_scope.

(** ** Data *)

Record dt_selection_t := Selection {
  collection : option dt_collection_t;
  last_single_id : Z;
}.

Record state (S : Type) := State {
  selection : dt_selection_t;
  ses : session S;
  act_on_ok : bool;
  raised : Z;
}.
Arguments State {S}.
Arguments selection {S}.
Arguments ses {S}.
Arguments act_on_ok {S}.
Arguments raised {S}.

Definition set_collection {S} (c : dt_collection_t) (st : state S) : state S :=
  State (Selection (Some c) (last_single_id (selection st))) (ses st) (act_on_ok st) (raised st).
Definition set_last {S} (id : Z) (st : state S) : state S :=
  State (Selection (collection (selection st)) (wrap_u32 id)) (ses st) (act_on_ok st) (raised st).
Definition set_ses {S} (s : session S) (st : state S) : state S := State (selection st) s (act_on_ok st) (raised st).
Definition set_images {S} (l : list Z) (st : state S) : state S := set_ses (set_selected l (ses st)) st.
Definition selected {S} (st : state S) : list Z := selected_images (db (ses st)).
Definition others_of {S} (st : state S) : S := others (db (ses st)).

Definition dt_selection_get_collection {S} (st : state S) : option dt_collection_t := collection (selection st).

Definition _selection_raise_signal {S} (st : state S) : state S := State (selection st) (ses st) false (raised st + 1).

(** INSERT OR IGNORE into the table, whose key is imgid. *)
Definition insert_or_ignore (ids l : list Z) : list Z := foldl (fun l id => if decide (id ∈ l) then l else l ++ [id]) l ids.

Section selection.
Context {S : Type} `{!ImageStore S} `{RowOrder}.
Context (rows : string -> list Z -> S -> list Z).
Context (set_raw_aspect_ratio : Z -> S -> S) (late : nat -> bool).

Abbreviation state := (state S).
Abbreviation update := (dt_collection_update rows set_raw_aspect_ratio late false).
Abbreviation get_query := (dt_collection_get_query rows set_raw_aspect_ratio late false).
Abbreviation get_query_no_group := (dt_collection_get_query_no_group rows set_raw_aspect_ratio late false).

Definition insert_images (ids : list Z) (st : state) : state := set_images (insert_or_ignore ids (selected st)) st.
Definition delete_images (ids : list Z) (st : state) : state := set_images (filter (fun id => id ∉ ids) (selected st)) st.

(** ** The collection of the selection *)

Definition update_collection (c : dt_collection_t) (st : state) : c_result state :=
  let* (c, s) := update c (ses st) in Done (set_collection c (set_ses s st)).

(** The query of the copy with the groups, or without. *)
Definition query_of (no_group : bool) (c : dt_collection_t) (st : state) : c_result (string * state) :=
  let* (q, c, s) := (if no_group then get_query_no_group c (ses st) else get_query c (ses st)) in
  Done (q, set_collection c (set_ses s st)).

(** The copy of darktable.collection, which is [main]. *)
Definition _selection_update_collection (main : dt_collection_t) (st : state) : c_result state :=
  let c := Collection true (query main) (query_no_group main) (where_ext main) (count main) (count_no_group main) (tagid main) (params main) in
  let c := dt_collection_set_query_flags c (Z.land (dt_collection_get_query_flags c) (Z.lnot COLLECTION_QUERY_USE_LIMIT)) in
  update_collection c st.

Definition dt_selection_new (main : dt_collection_t) (s : session S) (ok : bool) (raised : Z) : c_result (dt_collection_t * state) :=
  let* st := _selection_update_collection main (State (Selection None 0) s ok raised) in
  let st := set_last (-1) st in
  if dt_collection_get_selected_count (ses st) >=? 1 then
    let* (l, main, s) := dt_collection_get_selected rows set_raw_aspect_ratio late true main 1 (ses st) in
    let st := set_ses s st in
    Done (main, match l with id :: _ => set_last id st | [] => st end)
  else Done (main, st).

(** ** Single images *)

Definition _selection_select (imgid : Z) (st : state) : blocking state :=
  if imgid =? -1 then Done (Return (_selection_raise_signal st))
  else
    wait* (image, d) := read_image imgid (others_of st) in
    let st := set_ses (set_others d (ses st)) st in
    match image with
    | None => Done (Return (_selection_raise_signal st))
    | Some image =>
        match (if collapsed (gui (ses st)) (group_id image) then collection (selection st) else None) with
        | None => Done (Return (_selection_raise_signal (insert_images [imgid] st)))
        | Some c =>
            let* (q, st) := query_of true c st in
            let found := rows q [] (others_of st) in
            let group := filter (fun id => id ∈ found) (select_group (group_id image) (others_of st)) in
            Done (Return (_selection_raise_signal (insert_images group st)))
        end
    end.

Definition dt_selection_clear (st : state) : state := _selection_raise_signal (set_images [] st).

Definition dt_selection_select (imgid : Z) (st : state) : blocking state :=
  if imgid <? 1 then Done (Return st)
  else wait* st := _selection_select imgid st in Done (Return (set_last imgid st)).

Definition dt_selection_deselect (imgid : Z) (st : state) : blocking state :=
  let st := set_last (-1) st in
  if imgid =? -1 then Done (Return (_selection_raise_signal st))
  else
    wait* (image, d) := read_image imgid (others_of st) in
    let st := set_ses (set_others d (ses st)) st in
    Done (Return (_selection_raise_signal
      match image with
      | None => st
      | Some image =>
          if collapsed (gui (ses st)) (group_id image) then delete_images (select_group (group_id image) (others_of st)) st
          else delete_images [imgid] st
      end)).

Definition dt_selection_select_single (imgid : Z) (st : state) : blocking state :=
  dt_selection_select imgid (set_images [] (set_last imgid st)).

Definition dt_selection_toggle (imgid : Z) (st : state) : blocking state :=
  if imgid =? -1 then Done (Return st)
  else
    wait* st := (if decide (imgid ∈ selected st) then dt_selection_deselect imgid st
                 else wait* st := dt_selection_select imgid st in Done (Return (set_last imgid st))) in
    Done (Return (_selection_raise_signal st)).

(** ** Many images *)

Definition dt_selection_invert (st : state) : c_result state :=
  match collection (selection st) with
  | None => Done st
  | Some c =>
      let* (q, st) := query_of false c st in
      let tmp := insert_unique (fun id : Z => id) (scan (selected st)) (tmp_selection (db (ses st))) in
      let st := insert_images (rows q [] (others_of st)) (set_images [] st) in
      let st := delete_images tmp st in
      Done (_selection_raise_signal (set_ses (set_tmp [] (ses st)) st))
  end.

Definition dt_selection_select_all (st : state) : c_result state :=
  match collection (selection st) with
  | None => Done st
  | Some c =>
      let* (q, st) := query_of true c st in
      let st := insert_images (rows q [] (others_of st)) (set_images [] st) in
      Done (_selection_raise_signal (set_last (-1) st))
  end.

(** The places of the image that was clicked last and of the one that is clicked now, -1 if
    it was not met. *)
Fixpoint find_range (last imgid rc sr er : Z) (l : list Z) : Z * Z :=
  match l with
  | [] => (sr, er)
  | id :: l =>
      let sr := if wrap_u32 id =? last then rc else sr in
      let er := if id =? imgid then rc else er in
      if negb (sr =? -1) && negb (er =? -1) then (sr, er) else find_range last imgid (rc + 1) sr er l
  end.

(** The last of the collected images that is selected, with its rowid. *)
Definition last_selected (st : state) : option (Z * Z) :=
  last (filter (fun '(_, id) => id ∈ selected st) (imap (fun i id => (Z.of_nat i + 1, id)) (collected_images (db (ses st))))).

Definition dt_selection_select_range (imgid : Z) (st : state) : blocking state :=
  match collection (selection st) with
  | None => Done (Return st)
  | Some c =>
      let* (q, st) := query_of true c st in
      let '(sr, er) := find_range (last_single_id (selection st)) imgid 0 (-1) (-1) (rows q [] (others_of st)) in
      if er <? 0 then Done (Return st)
      else
        let '(sr, srid) := if sr <? 0 then default (0, -1) (last_selected st) else (sr, wrap_s32 (last_single_id (selection st))) in
        match collection (selection st) with
        | None => Undefined
        | Some c =>
            let old_flags := dt_collection_get_query_flags c in
            let* st := update_collection (dt_collection_set_query_flags c (Z.lor old_flags COLLECTION_QUERY_USE_LIMIT)) st in
            match collection (selection st) with
            | None => Undefined
            | Some c =>
                let* (q, st) := query_of true c st in
                let st := insert_images (rows q [Z.min sr er; Z.max sr er - Z.min sr er + 1] (others_of st)) st in
                let* st := update_collection (dt_collection_set_query_flags c old_flags) st in
                wait* st := dt_selection_select srid st in
                dt_selection_select imgid st
            end
        end
  end.

Definition dt_selection_select_filmroll (films : S -> list (Z * Z)) (st : state) : c_result state :=
  let tmp := selected st in
  let rolls := omap (fun '(id, film_id) => if decide (id ∈ tmp) then Some film_id else None) (films (others_of st)) in
  let ids := omap (fun '(id, film_id) => if decide (film_id ∈ rolls) then Some id else None) (films (others_of st)) in
  let st := insert_images (scan ids) (set_images [] st) in
  let st := set_ses (set_tmp [] (ses st)) st in
  match collection (selection st) with
  | None => Undefined
  | Some c =>
      let* st := update_collection c st in
      Done (_selection_raise_signal (set_last (-1) st))
  end.

Definition dt_selection_select_unaltered (st : state) : c_result state :=
  match collection (selection st) with
  | None => Done st
  | Some c =>
      let old_filter_flags := dt_collection_get_filter_flags c in
      let* st := update_collection (dt_collection_set_filter_flags c (Z.lor old_filter_flags COLLECTION_FILTER_UNALTERED)) st in
      match collection (selection st) with
      | None => Undefined
      | Some c =>
          let* (q, st) := query_of false c st in
          let st := insert_images (rows q [] (others_of st)) (set_images [] st) in
          let* st := update_collection (dt_collection_set_filter_flags c old_filter_flags) st in
          Done (_selection_raise_signal (set_last (-1) st))
      end
  end.

(** A statement for each 400 images, which are inserted in the order of the list. *)
Fixpoint insert_statements (n : nat) (l : list Z) (st : state) : state :=
  match n, l with
  | Datatypes.S n, id :: l' =>
      let ids := id :: take 399 l' in
      insert_statements n (drop 399 l') (insert_images ids (set_last (default id (last ids)) st))
  | _, _ => st
  end.

Definition dt_selection_select_list (l : list Z) (st : state) : state :=
  match l with
  | [] => st
  | _ => _selection_raise_signal (insert_statements (length l) l st)
  end.

(** ** Lemmas *)

Lemma block_bind_Return {A B} (m : blocking A) (f : A -> blocking B) b :
  block_bind m f = Done (Return b) -> exists a, m = Done (Return a) /\ f a = Done (Return b).
Proof. intros ([|] & -> & Hf)%c_bind_Done; [by eexists|done]. Qed.

Lemma elem_of_insert ids l x : x ∈ insert_or_ignore ids l <-> x ∈ l \/ x ∈ ids.
Proof.
  revert l. induction ids as [|id ids IH]; intros l; [cbn; by rewrite elem_of_nil; tauto|].
  change (insert_or_ignore (id :: ids) l) with (insert_or_ignore ids (if decide (id ∈ l) then l else l ++ [id])). rewrite IH. destruct (decide (id ∈ l)) as [Hin|Hn]; rewrite elem_of_cons; [naive_solver|].
  rewrite elem_of_app, list_elem_of_singleton. tauto.
Qed.

Lemma NoDup_insert ids l : NoDup l -> NoDup (insert_or_ignore ids l).
Proof.
  revert l. induction ids as [|id ids IH]; intros l Hl; [done|]. cbn. apply IH. destruct (decide (id ∈ l)); [done|].
  apply NoDup_app. split; [done|]. split; [|apply NoDup_singleton]. by intros x Hx ->%list_elem_of_singleton.
Qed.

(** What the table of selected images and the copy of the collection always satisfy: each image is
    there once, the helper table is empty, and the queries of the copy are those of its
    parameters, without a limit. *)
Definition copy_of (st : state) (c : dt_collection_t) (q q2 : string) : Prop :=
  collection (selection st) = Some c /\ query c = Some q /\ query_no_group c = Some q2 /\
  (exists g, build_query g c = Done (q, q2)) /\ has COLLECTION_QUERY_USE_LIMIT (query_flags (params c)) = false.

Definition copy_ok (st : state) : Prop := exists c q q2, copy_of st c q q2.
Definition table_ok (st : state) : Prop := NoDup (selected st) /\ tmp_selection (db (ses st)) = [].
Definition selection_ok (st : state) : Prop := table_ok st /\ copy_ok st.

(** An update of the copy. *)
Lemma update_collection_spec c st st' : update_collection c st = Done st' -> exists c' q q2,
  collection (selection st') = Some c' /\ query c' = Some q /\ query_no_group c' = Some q2 /\
  build_query (gui (ses st)) c' = Done (q, q2) /\ where_ext c' = where_ext c /\ params c' = params c /\ tagid c' = tagid c /\
  selected st' = selected st /\ collected_images (db (ses st')) = collected_images (db (ses st)) /\
  tmp_selection (db (ses st')) = tmp_selection (db (ses st)) /\ gui (ses st') = gui (ses st) /\
  last_single_id (selection st') = last_single_id (selection st) /\
  (sort (params c) <> DT_COLLECTION_SORT_ASPECT_RATIO -> others_of st' = others_of st).
Proof.
  unfold update_collection. intros [[c' s'] [Hu Hd]]%c_bind_Done. injection Hd as <-.
  apply update_spec in Hu as (q & q2 & Hb & H1 & H2 & H3 & H4 & H5 & _ & H6 & H7 & H8 & H9 & H10).
  exists c', q, q2. repeat (split; [done || (rewrite <- Hb; by apply build_query_ext)|]). done.
Qed.

Lemma set_collection_same (st : state) c : collection (selection st) = Some c -> set_collection c (set_ses (ses st) st) = st.
Proof. destruct st as [[c0 l] s a r]. cbn. by intros ->. Qed.

Lemma query_of_copy b st c q q2 : copy_of st c q q2 -> query_of b c st = Done (if b then q2 else q, st).
Proof.
  intros (Hc & Hq & Hq2 & _). unfold query_of, dt_collection_get_query, dt_collection_get_query_no_group.
  rewrite Hq, Hq2. destruct b; cbn [c_bind]; by rewrite set_collection_same.
Qed.

Lemma ok_images l (st : state) : copy_ok st -> tmp_selection (db (ses st)) = [] -> NoDup l -> selection_ok (set_images l st).
Proof. done. Qed.

Lemma ok_insert ids (st : state) : selection_ok st -> selection_ok (insert_images ids st).
Proof. intros [[Hn Ht] Hc]. split; [split; [by apply NoDup_insert|done]|done]. Qed.

Lemma ok_delete ids (st : state) : selection_ok st -> selection_ok (delete_images ids st).
Proof. intros [[Hn Ht] Hc]. split; [split; [by apply NoDup_filter|done]|done]. Qed.

Lemma ok_raise (st : state) : selection_ok st -> selection_ok (_selection_raise_signal st).
Proof. done. Qed.

Lemma ok_last id (st : state) : selection_ok st -> selection_ok (set_last id st).
Proof. done. Qed.

Lemma ok_others d (st : state) : selection_ok st -> selection_ok (set_ses (set_others d (ses st)) st).
Proof. done. Qed.

(** An update gives a copy that is in order if the flags it starts from have no limit. *)
Lemma ok_update c (st st' : state) : table_ok st -> has COLLECTION_QUERY_USE_LIMIT (query_flags (params c)) = false ->
  update_collection c st = Done st' -> selection_ok st'.
Proof.
  intros [Hn Ht] Hf Hu. apply update_collection_spec in Hu as (c' & q & q2 & H1 & H2 & H3 & H4 & _ & H5 & _ & H6 & _ & H7 & _).
  split; [split; [by rewrite H6|by rewrite H7]|]. exists c', q, q2. split; [done|]. split; [done|]. split; [done|]. split; [by eexists|]. by rewrite H5.
Qed.

Lemma ok_select_one imgid (st st' : state) : selection_ok st -> _selection_select imgid st = Done (Return st') -> selection_ok st'.
Proof.
  intros Hok. unfold _selection_select. destruct (imgid =? -1); [by intros [= <-]|].
  intros ([image d] & Hr & Hd)%block_bind_Return. apply (ok_others d) in Hok. set (st1 := set_ses _ st) in *.
  destruct image as [image|]; [|by injection Hd as <-]. destruct Hok as [Ht (c & q & q2 & Hc)].
  destruct (collapsed _ _).
  - pose proof Hc as (E & _). rewrite E, (query_of_copy true _ _ _ _ Hc) in Hd. cbn [c_bind] in Hd. injection Hd as <-.
    apply ok_raise, ok_insert. split; [done|]. by exists c, q, q2.
  - injection Hd as <-. apply ok_raise, ok_insert. split; [done|]. by exists c, q, q2.
Qed.

Lemma ok_select imgid (st st' : state) : selection_ok st -> dt_selection_select imgid st = Done (Return st') -> selection_ok st'.
Proof.
  intros Hok. unfold dt_selection_select. destruct (imgid <? 1); [by intros [= <-]|].
  intros (st1 & Hs & Hd)%block_bind_Return. injection Hd as <-. by apply ok_last, (ok_select_one imgid st).
Qed.

Lemma ok_deselect imgid (st st' : state) : selection_ok st -> dt_selection_deselect imgid st = Done (Return st') -> selection_ok st'.
Proof.
  intros Hok. unfold dt_selection_deselect. destruct (imgid =? -1); [by intros [= <-]|].
  intros ([image d] & Hr & Hd)%block_bind_Return. injection Hd as <-. apply ok_raise.
  destruct image as [image|]; [|done]. destruct (collapsed _ _); by apply ok_delete.
Qed.

Lemma ok_range imgid (st st' : state) : selection_ok st -> dt_selection_select_range imgid st = Done (Return st') -> selection_ok st'.
Proof.
  intros Hok. pose proof Hok as [Ht (c & q & q2 & Hc)]. pose proof Hc as (E & _ & _ & _ & Hf). unfold dt_selection_select_range.
  rewrite E, (query_of_copy true _ _ _ _ Hc). cbn [c_bind]. destruct (find_range _ _ _ _ _ _) as [sr er].
  destruct (er <? 0); [by intros [= <-]|]. destruct (if sr <? 0 then _ else _) as [sr' srid]. rewrite E.
  destruct (update_collection _ st) as [st1|] eqn:Hu; [|done]. cbn [c_bind].
  apply update_collection_spec in Hu as (c1 & q1 & q3 & H1 & H2 & H3 & H4 & _ & H5 & _ & H6 & _ & H7 & _).
  rewrite H1. unfold query_of, dt_collection_get_query_no_group. rewrite H3. cbn [c_bind]. rewrite set_collection_same by done.
  set (st2 := insert_images _ st1). assert (table_ok st2) as Ht2.
  { destruct Ht as [Hn Ht]. split; [apply NoDup_insert; by rewrite H6|]. unfold st2. cbn. by rewrite H7. }
  destruct (update_collection _ st2) as [st3|] eqn:Hu; [|done]. cbn [c_bind]. apply ok_update in Hu; [|done|done].
  intros (st4 & Hs & Hd)%block_bind_Return. by eapply ok_select, Hd; eapply ok_select, Hs.
Qed.

Lemma ok_new_images l c q q2 (st : state) : selection_ok st -> copy_of st c q q2 -> selection_ok (insert_images l (set_images [] st)).
Proof. intros [[_ Ht] Hc] _. apply ok_insert. split; [split; [constructor|done]|done]. Qed.

Lemma ok_insert_statements n l (st : state) : selection_ok st -> selection_ok (insert_statements n l st).
Proof.
  revert l st. induction n as [|n IH]; intros [|id l] st Hok; [done..|]. cbn [insert_statements]. by apply IH, ok_insert, ok_last.
Qed.

Lemma without_limit f : has COLLECTION_QUERY_USE_LIMIT (Z.land f (Z.lnot COLLECTION_QUERY_USE_LIMIT)) = false.
Proof. unfold has. rewrite <- Z.land_assoc. change (Z.land (Z.lnot _) _) with 0. by rewrite Z.land_0_r. Qed.

(** ** Steps *)

(** An operation that returns, the signal of a changed collection, or what happens elsewhere. *)
Inductive step (films : S -> list (Z * Z)) : state -> state -> Prop :=
| step_collection main st st' : _selection_update_collection main st = Done st' -> step films st st'
| step_select imgid st st' : dt_selection_select imgid st = Done (Return st') -> step films st st'
| step_deselect imgid st st' : dt_selection_deselect imgid st = Done (Return st') -> step films st st'
| step_single imgid st st' : dt_selection_select_single imgid st = Done (Return st') -> step films st st'
| step_toggle imgid st st' : dt_selection_toggle imgid st = Done (Return st') -> step films st st'
| step_range imgid st st' : dt_selection_select_range imgid st = Done (Return st') -> step films st st'
| step_invert st st' : dt_selection_invert st = Done st' -> step films st st'
| step_all st st' : dt_selection_select_all st = Done st' -> step films st st'
| step_filmroll st st' : dt_selection_select_filmroll films st = Done st' -> step films st st'
| step_unaltered st st' : dt_selection_select_unaltered st = Done st' -> step films st st'
| step_clear st : step films st (dt_selection_clear st)
| step_list l st : step films st (dt_selection_select_list l st)
| step_elsewhere s st : NoDup (selected_images (db s)) -> tmp_selection (db s) = [] -> step films st (set_ses s st).

Lemma step_ok films st st' : step films st st' -> selection_ok st -> selection_ok st'.
Proof.
  intros Hstep Hok. pose proof Hok as [Ht (c & q & q2 & Hc)]. pose proof Hc as (E & _ & _ & _ & Hf). destruct Hstep as
    [main st st' Hs|i st st' Hs|i st st' Hs|i st st' Hs|i st st' Hs|i st st' Hs|st st' Hs|st st' Hs|st st' Hs|st st' Hs|st|l st|s st Hn Htmp].
  - revert Hs. apply ok_update; [done|apply without_limit].
  - by apply (ok_select i st).
  - by apply (ok_deselect i st).
  - revert Hs. apply ok_select. destruct Hok as [[_ Ht'] Hc']. by apply (ok_images [] (set_last i st)); [| |constructor].
  - unfold dt_selection_toggle in Hs. destruct (i =? -1); [by injection Hs as <-|].
    apply block_bind_Return in Hs as (st1 & Hs & Hd). injection Hd as <-. apply ok_raise.
    destruct (decide _); [by apply (ok_deselect i st)|]. apply block_bind_Return in Hs as (st2 & Hs & Hd). injection Hd as <-.
    by apply ok_last, (ok_select i st).
  - by apply (ok_range i st).
  - unfold dt_selection_invert in Hs. rewrite E, (query_of_copy false _ _ _ _ Hc) in Hs. cbn [c_bind] in Hs. injection Hs as <-.
    apply ok_raise. match goal with |- selection_ok (set_ses _ ?x) => assert (selection_ok x) as [[Hx _] Hy] end; [|done].
    by apply ok_delete, (ok_new_images _ c q q2).
  - unfold dt_selection_select_all in Hs. rewrite E, (query_of_copy true _ _ _ _ Hc) in Hs. cbn [c_bind] in Hs. injection Hs as <-.
    by apply ok_raise, ok_last, (ok_new_images _ c q q2).
  - unfold dt_selection_select_filmroll in Hs. destruct (collection (selection (set_ses _ _))) as [c'|] eqn:Ec; [|done].
    apply c_bind_Done in Hs as (st1 & Hu & Hd). injection Hd as <-. apply ok_raise, ok_last. revert Hu.
    assert (c' = c) as -> by (cbn in Ec; congruence). apply ok_update; [|done].
    split; [apply NoDup_insert; constructor|done].
  - unfold dt_selection_select_unaltered in Hs. rewrite E in Hs. apply c_bind_Done in Hs as (st1 & Hu & Hs).
    destruct Ht as [Hn Ht]. apply update_collection_spec in Hu as (c1 & q1 & q3 & H1 & H2 & H3 & H4 & _ & H5 & _ & H6 & _ & H7 & _).
    rewrite H1 in Hs. unfold query_of, dt_collection_get_query in Hs. rewrite H2 in Hs. cbn [c_bind] in Hs. rewrite set_collection_same in Hs by done.
    apply c_bind_Done in Hs as (st2 & Hu & Hd). injection Hd as <-. apply ok_raise, ok_last. revert Hu. apply ok_update.
    + split; [apply NoDup_insert; constructor|]. cbn. by rewrite H7.
    + cbn. by rewrite H5.
  - destruct Hok as [[_ Ht'] Hc']. by apply ok_raise, ok_images; [| |constructor].
  - unfold dt_selection_select_list. destruct l as [|id l]; [done|]. by apply ok_raise, ok_insert_statements.
  - split; [by split|]. by exists c, q, q2.
Qed.

Lemma new_ok main s ok r main' st : NoDup (selected_images (db s)) -> tmp_selection (db s) = [] ->
  dt_selection_new main s ok r = Done (main', st) -> selection_ok st.
Proof.
  intros Hn Ht. unfold dt_selection_new. intros (st1 & Hs & Hd)%c_bind_Done. cbv zeta in Hd.
  apply ok_update in Hs; [|done|apply without_limit]. destruct (_ >=? 1); [|by injection Hd as _ <-].
  apply c_bind_Done in Hd as ([[l main2] s2] & Hg & Hd). injection Hd as _ <-.
  enough (selection_ok (set_ses s2 (set_last (-1) st1))) by (by destruct l).
  unfold dt_collection_get_selected, dt_collection_get in Hg. apply c_bind_Done in Hg as ([[q c] s3] & Hq & Hg). injection Hg as _ _ <-.
  destruct Hs as [[H1 H2] H3]. split; [|done]. unfold dt_collection_get_query_no_group in Hq. destruct (query_no_group main) as [q0|].
  - by injection Hq as _ _ <-.
  - apply c_bind_Done in Hq as ([c' s'] & Hu & Hq). injection Hq as _ _ <-.
    apply update_spec in Hu as (q1 & q2 & _ & _ & _ & _ & _ & _ & _ & H4 & _ & H5 & _). split; cbn; unfold selected; cbn; [by rewrite H4|by rewrite H5].
Qed.

Lemma invert_spec st c q q2 : selection_ok st -> copy_of st c q q2 -> exists st', dt_selection_invert st = Done st' /\
  selection_ok st' /\ copy_of st' c q q2 /\ others_of st' = others_of st /\
  forall id, id ∈ selected st' <-> id ∈ rows q [] (others_of st) /\ id ∉ selected st.
Proof.
  intros Hok Hc. pose proof Hc as (E & _). pose proof Hok as [[Hn Ht] _].
  unfold dt_selection_invert. rewrite E, (query_of_copy false _ _ _ _ Hc). cbn [c_bind]. rewrite Ht.
  rewrite insert_unique_fresh by (rewrite app_nil_l, list_fmap_id; by rewrite scan_Permutation). rewrite app_nil_l.
  eexists. split; [reflexivity|]. split.
  { apply ok_raise. match goal with |- selection_ok (set_ses _ ?x) => assert (selection_ok x) as [[Hx _] Hy] end; [|done].
    by apply ok_delete, (ok_new_images _ c q q2). }
  split; [done|]. split; [done|]. intros id. unfold selected. cbn. rewrite list_elem_of_filter, elem_of_insert, elem_of_nil, elem_of_scan. tauto.
Qed.

(** The query with a limit is the one without it and the limit. *)
Lemma has_lor_limit f x : Z.land COLLECTION_QUERY_USE_LIMIT x = 0 -> has x (Z.lor f COLLECTION_QUERY_USE_LIMIT) = has x f.
Proof. intros Hx. unfold has. by rewrite Z.land_lor_distr_l, Hx, Z.lor_0_r. Qed.

Lemma has_limit f : has COLLECTION_QUERY_USE_LIMIT (Z.lor f COLLECTION_QUERY_USE_LIMIT) = true.
Proof.
  unfold has. rewrite Z.land_lor_distr_l. destruct (Z.eqb_spec (Z.lor (Z.land f COLLECTION_QUERY_USE_LIMIT) (Z.land COLLECTION_QUERY_USE_LIMIT COLLECTION_QUERY_USE_LIMIT)) 0) as [E|]; [|done].
  by apply Z.lor_eq_0_iff in E as [_ E].
Qed.

Lemma limited_query g g' c c' q q2 :
  has COLLECTION_QUERY_USE_LIMIT (query_flags (params c)) = false ->
  build_query g c = Done (q, q2) ->
  where_ext c' = where_ext c -> tagid c' = tagid c ->
  params c' = params (dt_collection_set_query_flags c (Z.lor (query_flags (params c)) COLLECTION_QUERY_USE_LIMIT)) ->
  exists q', build_query g' c' = Done (q', q2 +:+ " LIMIT ?1, ?2").
Proof.
  intros Hf Hb Hw Ht Hp.
  rewrite (build_query_ext g' c' (dt_collection_set_query_flags c (Z.lor (query_flags (params c)) COLLECTION_QUERY_USE_LIMIT))) by done.
  clear Hw Ht Hp. set (f' := Z.lor (query_flags (params c)) COLLECTION_QUERY_USE_LIMIT) in *.
  assert (has COLLECTION_QUERY_USE_SORT f' = has COLLECTION_QUERY_USE_SORT (query_flags (params c))) as E1 by (by apply has_lor_limit).
  assert (has COLLECTION_QUERY_USE_WHERE_EXT f' = has COLLECTION_QUERY_USE_WHERE_EXT (query_flags (params c))) as E2 by (by apply has_lor_limit).
  assert (has COLLECTION_QUERY_USE_ONLY_WHERE_EXT f' = has COLLECTION_QUERY_USE_ONLY_WHERE_EXT (query_flags (params c))) as E3 by (by apply has_lor_limit).
  assert (has COLLECTION_QUERY_USE_LIMIT f' = true) as E4 by apply has_limit. clearbody f'.
  set (cl := dt_collection_set_query_flags c f') in *.
  assert (where_part (params cl) (extended_where (where_ext cl)) = where_part (params c) (extended_where (where_ext c))) as Ew.
  { unfold where_part. change (query_flags (params cl)) with f'. by rewrite E2, E3. }
  assert (select_parts cl = select_parts c) as Es.
  { unfold select_parts. change (query_flags (params cl)) with f'. by rewrite E1, E3. }
  assert (order_part cl = order_part c) as Eo.
  { unfold order_part. change (query_flags (params cl)) with f'. by rewrite E1, E3. }
  assert (limit_part cl = " LIMIT ?1, ?2") as El by (unfold limit_part; change (query_flags (params cl)) with f'; by rewrite E4).
  assert (limit_part c = "") as El0 by (unfold limit_part; by rewrite Hf).
  unfold build_query in *. rewrite Ew, Es, Eo, El. rewrite El0 in Hb. destruct (where_part _ _) as [w|]; [|done]. cbn [c_bind] in *.
  destruct (select_parts c) as [pre post].
  assert (q2 = pre +:+ w +:+ post +:+ " " +:+ order_part c +:+ "") as -> by congruence.
  eexists. by rewrite !str_app_assoc.
Qed.

(** The loop over the rows, from the first on, with one of the places known, or none. *)
Lemma find_range_er a b l j rc sr : 0 <= sr -> 0 < a < 2 ^ 31 -> a ∉ l -> Forall (fun id => 0 < id < 2 ^ 31) l -> l !! j = Some b -> NoDup l -> 0 <= rc ->
  find_range (wrap_u32 a) b rc sr (-1) l = (sr, rc + Z.of_nat j).
Proof.
  intros Hsr Ha. revert j rc. induction l as [|x l IH]; intros j rc Hn Hp Hj Hd Hrc; [done|]. cbn [find_range].
  apply not_elem_of_cons in Hn as [Hne Hn]. apply Forall_cons in Hp as [Hx Hp]. apply NoDup_cons in Hd as [Hxl Hd].
  rewrite !wrap_u32_id by lia. destruct (Z.eqb_spec x a); [by subst|]. destruct j as [|j].
  - injection Hj as ->. rewrite Z.eqb_refl. destruct (Z.eqb_spec sr (-1)); [lia|]. destruct (Z.eqb_spec rc (-1)); [lia|]. cbn. f_equal. lia.
  - destruct (Z.eqb_spec x b) as [->|_]; [destruct Hxl; by eapply list_elem_of_lookup_2|]. change (-1 =? -1) with true. rewrite andb_false_r.
    rewrite <- (wrap_u32_id a) at 1 by lia. rewrite (IH j) by (done || lia). f_equal. lia.
Qed.

Lemma find_range_sr a b l i rc er : 0 <= er -> 0 < a < 2 ^ 31 -> b ∉ l -> Forall (fun id => 0 < id < 2 ^ 31) l -> l !! i = Some a -> NoDup l -> 0 <= rc ->
  find_range (wrap_u32 a) b rc (-1) er l = (rc + Z.of_nat i, er).
Proof.
  intros Her Ha. revert i rc. induction l as [|x l IH]; intros i rc Hn Hp Hi Hd Hrc; [done|]. cbn [find_range].
  apply not_elem_of_cons in Hn as [Hne Hn]. apply Forall_cons in Hp as [Hx Hp]. apply NoDup_cons in Hd as [Hxl Hd].
  rewrite !wrap_u32_id by lia. destruct (Z.eqb_spec x b); [by subst|]. destruct i as [|i].
  - injection Hi as ->. rewrite Z.eqb_refl. destruct (Z.eqb_spec rc (-1)); [lia|]. destruct (Z.eqb_spec er (-1)); [lia|]. cbn. f_equal. lia.
  - destruct (Z.eqb_spec x a) as [->|_]; [destruct Hxl; by eapply list_elem_of_lookup_2|]. change (-1 =? -1) with true. cbn [negb andb].
    rewrite <- (wrap_u32_id a) at 1 by lia. rewrite (IH i) by (done || lia). f_equal. lia.
Qed.

Lemma find_range_spec a b l i j rc : 0 < a < 2 ^ 31 -> Forall (fun id => 0 < id < 2 ^ 31) l -> l !! i = Some a -> l !! j = Some b -> NoDup l -> 0 <= rc ->
  find_range (wrap_u32 a) b rc (-1) (-1) l = (rc + Z.of_nat i, rc + Z.of_nat j).
Proof.
  intros Ha. revert i j rc. induction l as [|x l IH]; intros i j rc Hp Hi Hj Hd Hrc; [done|]. cbn [find_range].
  apply Forall_cons in Hp as [Hx Hp]. apply NoDup_cons in Hd as [Hxl Hd].
  rewrite !wrap_u32_id by lia. destruct i as [|i], j as [|j].
  - injection Hi as ->. injection Hj as ->. rewrite Z.eqb_refl. destruct (Z.eqb_spec rc (-1)); [lia|]. cbn. f_equal; lia.
  - injection Hi as ->. rewrite Z.eqb_refl. destruct (Z.eqb_spec a b) as [->|_]; [destruct Hxl; by eapply list_elem_of_lookup_2|].
    change (-1 =? -1) with true. rewrite andb_false_r. rewrite <- (wrap_u32_id a) at 1 by lia. rewrite (find_range_er a b l j) by (done || lia). f_equal; lia.
  - injection Hj as ->. rewrite Z.eqb_refl. destruct (Z.eqb_spec b a) as [->|_]; [destruct Hxl; by eapply list_elem_of_lookup_2|].
    change (-1 =? -1) with true. cbn [negb andb]. rewrite <- (wrap_u32_id a) at 1 by lia. rewrite (find_range_sr a b l i) by (done || lia). f_equal; lia.
  - destruct (Z.eqb_spec x a) as [->|_]; [destruct Hxl; by eapply list_elem_of_lookup_2|].
    destruct (Z.eqb_spec x b) as [->|_]; [destruct Hxl; by eapply list_elem_of_lookup_2|].
    change (-1 =? -1) with true. cbn [negb andb]. rewrite <- (wrap_u32_id a) at 1 by lia. rewrite (IH i j) by (done || lia). f_equal; lia.
Qed.

Lemma elem_of_limited {A} (l : list A) x (a n : nat) :
  x ∈ limited (Z.of_nat a) (Z.of_nat n) l <-> exists k, l !! k = Some x /\ (a <= k < a + n)%nat.
Proof.
  unfold limited. destruct (Z.ltb_spec (Z.of_nat n) 0); [lia|]. rewrite !Nat2Z.id, list_elem_of_lookup. split.
  - intros [k Hk]. apply lookup_take_Some in Hk as [Hk Hlt]. rewrite lookup_drop in Hk. exists (a + k)%nat. split; [done|lia].
  - intros (k & Hk & Hle). exists (k - a)%nat. apply lookup_take_Some. rewrite lookup_drop. split; [|lia]. by replace (a + (k - a))%nat with k by lia.
Qed.

(** ** With the images that are stored *)

Context {ok : S -> Prop} {view : S -> Z -> option dt_image_t} `{!ImageStoreSpec S ok view}.

(** The images that a click on [imgid] is about, and those of them that it selects. *)
Definition touched (st : state) (imgid id : Z) : Prop :=
  if collapsed (gui (ses st)) (default 0 (group_of (view := view) (others_of st) imgid))
  then group_of (view := view) (others_of st) id = group_of (view := view) (others_of st) imgid
  else id = imgid.
Definition is_collapsed (st : state) (imgid : Z) : bool := collapsed (gui (ses st)) (default 0 (group_of (view := view) (others_of st) imgid)).

(** What a read leaves: the same images. *)
Definition same_view (d d' : S) : Prop := ok d' /\ forall j, view d' j = view d j.

Lemma select_one_spec imgid p st c q q2 : ok (others_of st) -> view (others_of st) imgid = Some p -> copy_of st c q q2 ->
  exists st', dt_selection_select imgid st = Done (Return st') /\ same_view (others_of st) (others_of st') /\ copy_of st' c q q2 /\
    gui (ses st') = gui (ses st) /\ last_single_id (selection st') = wrap_u32 imgid /\
    forall id, id ∈ selected st' <-> id ∈ selected st \/
      (touched st imgid id /\ (is_collapsed st imgid = true -> id ∈ rows q2 [] (others_of st'))).
Proof.
  intros Hok Hp Hc. destruct (view_id _ _ _ Hok Hp) as (_ & Hid & _).
  destruct (read_spec _ _ _ Hok Hp) as (image & d & Hr & Hok' & Hi & Hv).
  assert (group_id image = group_id p) as Hg by exact (f_equal group_id Hi).
  unfold dt_selection_select. destruct (Z.ltb_spec imgid 1); [lia|]. unfold _selection_select. destruct (Z.eqb_spec imgid (-1)); [lia|].
  rewrite Hr. unfold block_bind at 2. cbn [c_bind]. set (st1 := set_ses (set_others d (ses st)) st).
  assert (copy_of st1 c q q2) as Hc1 by done. pose proof Hc1 as (E & _).
  assert (group_of (view := view) (others_of st) imgid = Some (group_id p)) as Eg0 by (unfold group_of; by rewrite Hp).
  unfold touched, is_collapsed. rewrite Eg0. cbn [default from_option id]. rewrite Hg. change (gui (ses st1)) with (gui (ses st)). destruct (collapsed _ _) eqn:Eg.
  - rewrite E, (query_of_copy true _ _ _ _ Hc1). unfold block_bind. cbn [c_bind].
    eexists. split; [reflexivity|]. split; [split; [exact Hok'|exact Hv]|]. split; [exact Hc1|]. split; [done|]. split; [done|]. intros id.
    change (selected (set_last imgid (_selection_raise_signal ?x))) with (selected x).
    unfold insert_images. cbn [selected set_images set_ses ses set_selected db on_db selected_images].
    rewrite elem_of_insert, list_elem_of_filter. destruct (select_spec (group_id p) d Hok') as [_ Hsel].
    change (others_of (insert_images _ st1)) with d. change (others_of st1) with d. rewrite Hsel.
    unfold group_of. setoid_rewrite Hv. cbn. split.
    + intros [Hin|[Hf (p' & -> & Hg')]]; [by left|]. right. split; [cbn; by rewrite Hg'|done].
    + intros [Hin|[Ht Hf]]; [by left|]. right. split; [by apply Hf|]. destruct (view (others_of st) id) as [p'|]; [|done]. exists p'. by injection Ht.
  - unfold block_bind. cbn [c_bind]. eexists. split; [reflexivity|]. split; [split; [exact Hok'|exact Hv]|]. split; [exact Hc1|]. split; [done|]. split; [done|]. intros id.
    change (id ∈ insert_or_ignore [imgid] (selected st) <-> id ∈ selected st \/ id = imgid /\ (false = true -> id ∈ rows q2 [] d)).
    rewrite elem_of_insert, list_elem_of_singleton. naive_solver.
Qed.

(** Whether and which query is built without groups does not depend on the groups. *)
Lemma build_query_gui g g' c q q2 : build_query g c = Done (q, q2) -> exists q', build_query g' c = Done (q', q2).
Proof.
  unfold build_query. destruct (where_part _ _) as [w|]; [|done]. cbn [c_bind]. destruct (select_parts c) as [pre post].
  intros Hd. injection Hd as _ <-. by eexists.
Qed.

Lemma update_total c (st : state) q q2 : build_query (gui (ses st)) c = Done (q, q2) -> exists st', update_collection c st = Done st'.
Proof. intros Hb. unfold update_collection, dt_collection_update. rewrite Hb. by eexists. Qed.

(** The limited query adds the rows of the range. *)
Lemma range_inserted c q q2 (st : state) n m
    (limit_rows : forall q a n d, rows (q +:+ " LIMIT ?1, ?2") [a; n] d = limited a n (rows q [] d)) :
  copy_of st c q q2 -> sort (params c) <> DT_COLLECTION_SORT_ASPECT_RATIO ->
  let old := query_flags (params c) in
  exists st1 c1 q1, update_collection (dt_collection_set_query_flags c (Z.lor old COLLECTION_QUERY_USE_LIMIT)) st = Done st1 /\
    collection (selection st1) = Some c1 /\ query_no_group c1 = Some q1 /\
    rows q1 [n; m] (others_of st1) = limited n m (rows q2 [] (others_of st)) /\ selected st1 = selected st /\
    forall ids, exists st3 c3 q3, update_collection (dt_collection_set_query_flags c1 old) (insert_images ids st1) = Done st3 /\
      copy_of st3 c3 q3 q2 /\ selected st3 = insert_or_ignore ids (selected st) /\ others_of st3 = others_of st /\ gui (ses st3) = gui (ses st).
Proof.
  intros (E & Hq & Hq2 & [g Hb] & Hf) Hsort old. set (cl := dt_collection_set_query_flags c (Z.lor old COLLECTION_QUERY_USE_LIMIT)).
  destruct (limited_query g (gui (ses st)) c cl q q2 Hf Hb) as [ql Hl]; [done..|].
  destruct (update_total cl st _ _ Hl) as [st1 Hu]. pose proof Hu as Hu'.
  apply update_collection_spec in Hu as (c1 & q1 & q1' & H1 & H2 & H3 & H4 & H5 & H6 & H7 & H8 & H9 & H10 & H11 & H12 & H13).
  assert (q1' = q2 +:+ " LIMIT ?1, ?2") as -> by (rewrite (build_query_ext _ c1 cl) in H4 by done; congruence).
  exists st1, c1, (q2 +:+ " LIMIT ?1, ?2"). split; [done|]. split; [done|]. split; [done|]. split; [by rewrite limit_rows, H13|]. split; [done|].
  intros ids. set (c2 := dt_collection_set_query_flags c1 old).
  assert (params c2 = params c) as Hp by (unfold c2, cl in *; destruct c1, c as [? ? ? ? ? ? ? []]; cbn in *; by rewrite H6).
  destruct (build_query_gui g (gui (ses (insert_images ids st1))) c q q2 Hb) as [q' Hb'].
  rewrite <- (build_query_ext _ c2 c) in Hb' by done.
  destruct (update_total c2 (insert_images ids st1) _ _ Hb') as [st3 Hu3]. pose proof Hu3 as Hu3'.
  apply update_collection_spec in Hu3 as (c3 & q3 & q3' & G1 & G2 & G3 & G4 & G5 & G6 & G7 & G8 & G9 & G10 & G11 & G12 & G13).
  assert (q3' = q2) as -> by (rewrite (build_query_ext _ c3 c2) in G4 by done; congruence).
  exists st3, c3, q3. split; [done|]. split.
  { split; [done|]. split; [done|]. split; [done|]. split; [by eexists|]. by rewrite G6, Hp. }
  split; [rewrite G8, <- H8; reflexivity|]. split; [|by rewrite G11]. rewrite G13 by (by rewrite Hp). by apply H13.
Qed.

Lemma in_group d id g : (exists p, view d id = Some p /\ group_id p = g) <-> group_of (view := view) d id = Some g.
Proof.
  unfold group_of. rewrite fmap_Some. split; intros (p & Hp & Hg); by exists p.
Qed.

Lemma deselect_spec imgid p st : ok (others_of st) -> view (others_of st) imgid = Some p ->
  exists st', dt_selection_deselect imgid st = Done (Return st') /\ same_view (others_of st) (others_of st') /\
    last_single_id (selection st') = wrap_u32 (-1) /\
    forall id, id ∈ selected st' <-> id ∈ selected st /\ ~ touched st imgid id.
Proof.
  intros Hok Hp. destruct (view_id _ _ _ Hok Hp) as (_ & Hid & _).
  destruct (read_spec _ _ _ Hok Hp) as (image & d & Hr & Hok' & Hi & Hv).
  assert (group_id image = group_id p) as Hg by exact (f_equal group_id Hi).
  unfold dt_selection_deselect. destruct (Z.eqb_spec imgid (-1)); [lia|].
  change (others_of (set_last (-1) st)) with (others_of st). rewrite Hr. unfold block_bind. cbn [c_bind].
  assert (group_of (view := view) (others_of st) imgid = Some (group_id p)) as Eg0 by (unfold group_of; by rewrite Hp).
  unfold touched. rewrite Eg0. cbn [default from_option id]. rewrite Hg.
  change (gui (ses (set_ses _ _))) with (gui (ses st)). destruct (collapsed _ _) eqn:Eg.
  - eexists. split; [reflexivity|]. split; [split; [exact Hok'|exact Hv]|]. split; [reflexivity|]. intros id.
    change (id ∈ filter (fun id => id ∉ select_group (group_id p) d) (selected st) <->
      id ∈ selected st /\ ~ group_of (view := view) (others_of st) id = Some (group_id p)).
    rewrite list_elem_of_filter. destruct (select_spec (group_id p) d Hok') as [_ Hsel]. rewrite Hsel.
    setoid_rewrite Hv. rewrite in_group. tauto.
  - eexists. split; [reflexivity|]. split; [split; [exact Hok'|exact Hv]|]. split; [reflexivity|]. intros id.
    change (id ∈ filter (fun id => id ∉ [imgid]) (selected st) <-> id ∈ selected st /\ ~ id = imgid).
    rewrite list_elem_of_filter, list_elem_of_singleton. tauto.
Qed.

(** C32: a toggle of a stored image returns. An image that was selected is taken out, and with
    grouping on, in a closed group, with it all of its group; one that was not is selected, and
    with it those images of its closed group that the collection shows, and only these. No other
    image's selection and no image changes. *)
Theorem toggle_spec imgid p st c q q2
    (Hok : ok (others_of st)) (Hp : view (others_of st) imgid = Some p) (Hc : copy_of st c q q2) :
  exists st', dt_selection_toggle imgid st = Done (Return st') /\ same_view (others_of st) (others_of st') /\ act_on_ok st' = false /\
    last_single_id (selection st') = wrap_u32 (if decide (imgid ∈ selected st) then -1 else imgid) /\
    forall id, id ∈ selected st' <->
      if decide (imgid ∈ selected st) then id ∈ selected st /\ ~ touched st imgid id
      else id ∈ selected st \/ (touched st imgid id /\ (is_collapsed st imgid = true -> id ∈ rows q2 [] (others_of st'))).
Proof.
  destruct (view_id _ _ _ Hok Hp) as (_ & Hid & _). unfold dt_selection_toggle. destruct (Z.eqb_spec imgid (-1)); [lia|].
  destruct (decide (imgid ∈ selected st)).
  - destruct (deselect_spec imgid p st Hok Hp) as (st' & -> & Hv & Hl & Hs). unfold block_bind. cbn [c_bind].
    eexists. split; [reflexivity|]. split; [exact Hv|]. split; [reflexivity|]. split; [exact Hl|]. exact Hs.
  - destruct (select_one_spec imgid p st c q q2 Hok Hp Hc) as (st' & -> & Hv & _ & _ & Hl & Hs). unfold block_bind. cbn [c_bind].
    eexists. split; [reflexivity|]. split; [exact Hv|]. split; [reflexivity|]. split; [reflexivity|]. exact Hs.
Qed.

(** Inverting the selection selects exactly the images of the collection that were not
    selected; inverting it again gives back the images that were, if the collection shows
    them. *)
Theorem invert_twice st c q q2 (Hok : selection_ok st) (Hc : copy_of st c q q2) :
  exists st1 st2, dt_selection_invert st = Done st1 /\ dt_selection_invert st1 = Done st2 /\
    (forall id, id ∈ selected st1 <-> id ∈ rows q [] (others_of st) /\ id ∉ selected st) /\
    (forall id, id ∈ selected st2 <-> id ∈ rows q [] (others_of st) /\ id ∈ selected st).
Proof.
  destruct (invert_spec st c q q2 Hok Hc) as (st1 & H1 & Hok1 & Hc1 & Ho1 & Hs1).
  destruct (invert_spec st1 c q q2 Hok1 Hc1) as (st2 & H2 & _ & _ & _ & Hs2). rewrite Ho1 in Hs2.
  exists st1, st2. split; [done|]. split; [done|]. split; [done|]. intros id. rewrite Hs2, Hs1.
  destruct (decide (id ∈ selected st)); tauto.
Qed.

(** C29: from the start of the program on, whatever operations on the selection return and whatever
    else happens to the session, each image is selected once, the helper table is empty, and the
    copy of the collection has the queries of its own parameters, without a limit. *)
Theorem selection_stays_ok films main s ok0 r main' st st'
    (Hn : NoDup (selected_images (db s))) (Ht : tmp_selection (db s) = [])
    (Hnew : dt_selection_new main s ok0 r = Done (main', st)) (Hsteps : rtc (step films) st st') :
  selection_ok st'.
Proof.
  apply new_ok in Hnew; [|done|done]. induction Hsteps as [|? ? ? Hs _ IH]; [done|]. by apply IH, (step_ok films x).
Qed.

(** C28: selecting a range, with grouping off and a collection that is not sorted by aspect
    ratio, adds the images that the collection shows from the
    one that was clicked last to the one that is clicked, both included, whichever comes first,
    and takes none out. Both images are stored, and the collection shows them, each image once. A limit gives
    the rows of the query between its bounds. *)
Theorem range_spec a b i j pa pb st c q q2
    (limit_rows : forall q a n d, rows (q +:+ " LIMIT ?1, ?2") [a; n] d = limited a n (rows q [] d))
    (Hok : ok (others_of st)) (Hsel : selection_ok st) (Hc : copy_of st c q q2)
    (Hsort : sort (params c) <> DT_COLLECTION_SORT_ASPECT_RATIO) (Hgui : forall g, collapsed (gui (ses st)) g = false)
    (Hlast : last_single_id (selection st) = wrap_u32 a)
    (Hi : rows q2 [] (others_of st) !! i = Some a) (Hj : rows q2 [] (others_of st) !! j = Some b)
    (Hnd : NoDup (rows q2 [] (others_of st))) (Hids : Forall (fun id => 0 < id < 2 ^ 31) (rows q2 [] (others_of st)))
    (Ha : view (others_of st) a = Some pa) (Hb : view (others_of st) b = Some pb) :
  exists st', dt_selection_select_range b st = Done (Return st') /\ last_single_id (selection st') = b /\
    forall id, id ∈ selected st' <-> id ∈ selected st \/
      exists k, rows q2 [] (others_of st) !! k = Some id /\ (i `min` j <= k <= i `max` j)%nat.
Proof.
  pose proof Hc as (E & _). rewrite Forall_lookup in Hids. pose proof (Hids i a Hi) as Hap. pose proof (Hids j b Hj) as Hbp. cbn beta in Hap, Hbp.
  unfold dt_selection_select_range. rewrite E, (query_of_copy true _ _ _ _ Hc). cbn [c_bind]. rewrite Hlast.
  rewrite (find_range_spec a b _ i j) by (done || lia || by apply Forall_lookup).
  destruct (Z.ltb_spec (0 + Z.of_nat j) 0), (Z.ltb_spec (0 + Z.of_nat i) 0); try lia. rewrite E, wrap_u32_id, wrap_s32_id by lia.
  edestruct (range_inserted c q q2 st) as (st1 & c1 & q1 & Hu & R1 & R2 & R3 & R4 & R5); [done..|].
  unfold dt_collection_get_query_flags. rewrite Hu. cbn [c_bind]. rewrite R1. unfold query_of, dt_collection_get_query_no_group. rewrite R2. cbn [c_bind].
  rewrite set_collection_same by done. rewrite R3. destruct (R5 (limited (Z.min (0 + Z.of_nat i) (0 + Z.of_nat j))
    (Z.max (0 + Z.of_nat i) (0 + Z.of_nat j) - Z.min (0 + Z.of_nat i) (0 + Z.of_nat j) + 1) (rows q2 [] (others_of st)))) as (st3 & c3 & q3 & Hu3 & Hc3 & Hs3 & Ho3 & Hg3).
  rewrite Hu3. cbn [c_bind].
  destruct (select_one_spec a pa st3 c3 q3 q2) as (st4 & -> & [Hok4 Hv4] & Hc4 & Hg4 & _ & Hs4); [by rewrite Ho3|by rewrite Ho3|done|].
  unfold block_bind. cbn [c_bind].
  destruct (select_one_spec b pb st4 c3 q3 q2) as (st5 & -> & _ & _ & _ & Hl5 & Hs5); [done|by rewrite Hv4, Ho3|done|].
  exists st5. split; [done|]. split; [rewrite Hl5; apply wrap_u32_id; lia|]. intros id.
  rewrite Hs5, Hs4, Hs3. unfold touched, is_collapsed. rewrite Hg4, Hg3, !Hgui, elem_of_insert.
  replace (Z.min (0 + Z.of_nat i) (0 + Z.of_nat j)) with (Z.of_nat (i `min` j)) by lia.
  replace (Z.max (0 + Z.of_nat i) (0 + Z.of_nat j) - Z.of_nat (i `min` j) + 1) with (Z.of_nat (i `max` j - i `min` j + 1)) by lia.
  rewrite elem_of_limited. split.
  - intros [[[Hin|(k & Hk & Hle)]|[-> _]]|[-> _]]; [by left|..]; right; [exists k|exists i|exists j]; (split; [done|lia]).
  - intros [Hin|(k & Hk & Hle)]; [by do 3 left|]. left. left. right. exists k. split; [done|lia].
Qed.

End selection.

(** ** Concrete runs *)

Module Example.

Import Tags.Example Images.Example ImageCache.Example Grouping.Example.

#[local] Instance images_of_cache : ImageStore image_cache := image_cache_store round1 size.

(** Three images, of which 7 and 8 are a group; every query shows 9, 8 and 7. *)
Definition shown (q : string) (numbers : list Z) (d : image_cache) : list Z :=
  match numbers with [a; n] => limited a n [9; 8; 7] | _ => [9; 8; 7] end.
Definition same_images (id : Z) (d : image_cache) : image_cache := d.
Definition never (n : nat) : bool := false.

(** Nothing is selected, and groups are closed, or there are none. *)
Definition begin (grouping : bool) : state image_cache :=
  match dt_selection_new shown same_images never no_collection
    (Session (Conf "darktablerc" ∅ ∅ ∅) (Database [] [9; 8; 7] [] grouped) (Some (grouping, -1))) true 0 with
  | Done (_, st) => st
  | Undefined => State (Selection None 0) (Session (Conf "" ∅ ∅ ∅) (Database [] [] [] grouped) None) false 0
  end.

Definition after (r : blocking (state image_cache)) : state image_cache := match r with Done (Return st) => st | _ => begin false end.

Abbreviation toggle := (dt_selection_toggle shown same_images never).
Abbreviation range := (dt_selection_select_range shown same_images never).

Lemma runs : selected (after (toggle 8 (begin true))) = [7; 8] /\ selected (after (toggle 8 (begin false))) = [8] /\
  selected (after (range 7 (after (toggle 8 (begin false))))) = [8; 7].
Proof. vm_compute. split; [|split]; reflexivity. Qed.

(** Without an image that was clicked last, the last selected image is taken, by its rowid, which
    counts from 1: a range back from it takes the image behind it too. *)
Lemma range_one_too_many :
  let st := after (dt_selection_deselect 7 (after (toggle 8 (begin false)))) in
  selected st = [8] /\ last_single_id (selection st) = wrap_u32 (-1) /\ collected_images (db (ses st)) = [9; 8; 7] /\
  selected (after (range 9 st)) = [8; 9; 7].
Proof. vm_compute. split; [|split; [|split]]; reflexivity. Qed.

Definition copy (b : bool) : dt_collection_t := default no_collection (collection (selection (begin b))).

Lemma begin_copy b : copy_of (begin b) (copy b) (default ""%string (query (copy b))) (default ""%string (query_no_group (copy b))).
Proof.
  destruct b.
  - split; [vm_compute; reflexivity|]. split; [vm_compute; reflexivity|]. split; [vm_compute; reflexivity|].
    split; [exists (Some (true, -1)); vm_compute; reflexivity|vm_compute; reflexivity].
  - split; [vm_compute; reflexivity|]. split; [vm_compute; reflexivity|]. split; [vm_compute; reflexivity|].
    split; [exists (Some (false, -1)); vm_compute; reflexivity|vm_compute; reflexivity].
Defined.

Lemma begin_ok b : selection_ok (begin b).
Proof. split; [destruct b; split; [constructor|vm_compute; reflexivity| constructor|vm_compute; reflexivity]|]. eexists _, _, _. apply begin_copy. Defined.

(** In the closed group of 7 both images are shown. *)
Lemma toggle_spec_witness : exists st', toggle 8 (begin true) = Done (Return st') /\ act_on_ok st' = false /\ 7 ∈ selected st'.
Proof.
  destruct (toggle_spec shown same_images never (ok := quiet round1) (view := stored) 8
    (default photo (stored grouped 8)) (begin true) (copy true) (default "" (query (copy true)))%string
    (default "" (query_no_group (copy true)))%string) as (st' & Hst & _ & Ha & _ & Hs).
  - exact grouped_quiet.
  - vm_compute. reflexivity.
  - apply begin_copy.
  - exists st'. split; [exact Hst|]. split; [exact Ha|]. apply Hs. vm_compute. right. split; [reflexivity|]. intros _. right. right. left.
Defined.

Lemma invert_twice_witness : exists st1 st2, dt_selection_invert shown same_images never (after (toggle 8 (begin false))) = Done st1 /\
  dt_selection_invert shown same_images never st1 = Done st2 /\ 8 ∉ selected st1 /\ 8 ∈ selected st2.
Proof.
  destruct (invert_twice shown same_images never (after (toggle 8 (begin false))) (copy false) (default "" (query (copy false)))%string
    (default "" (query_no_group (copy false)))%string) as (st1 & st2 & H1 & H2 & H3 & H4).
  - split; [split; [vm_compute; apply NoDup_singleton|vm_compute; reflexivity]|]. eexists _, _, _. exact (begin_copy false).
  - exact (begin_copy false).
  - exists st1, st2. split; [exact H1|]. split; [exact H2|].
    assert (8 ∈ selected (after (toggle 8 (begin false)))) as Hin by (vm_compute; left). split.
    + intros [_ Hn]%H3. exact (Hn Hin).
    + apply H4. split; [vm_compute; right; left|exact Hin].
Defined.

Lemma selection_stays_ok_witness : selection_ok (after (range 7 (after (toggle 8 (begin false))))).
Proof.
  apply (selection_stays_ok shown same_images never (fun _ => []) no_collection
    (Session (Conf "darktablerc" ∅ ∅ ∅) (Database [] [9; 8; 7] [] grouped) (Some (false, -1))) true 0 no_collection (begin false)).
  - constructor.
  - reflexivity.
  - vm_compute. reflexivity.
  - eapply rtc_l; [|eapply rtc_once].
    + eapply (step_toggle _ _ _ _ 8). vm_compute. reflexivity.
    + eapply (step_range _ _ _ _ 7). vm_compute. reflexivity.
Defined.

Lemma range_spec_witness : exists st', range 7 (set_last 8 (begin false)) = Done (Return st') /\ 7 ∈ selected st' /\ 9 ∉ selected st'.
Proof.
  destruct (range_spec shown same_images never (ok := quiet round1) (view := stored) 8 7 1 2
    (default photo (stored grouped 8)) (default photo (stored grouped 7)) (set_last 8 (begin false)) (copy false)
    (default "" (query (copy false)))%string (default "" (query_no_group (copy false)))%string) as (st' & Hst & _ & Hs).
  - reflexivity.
  - exact grouped_quiet.
  - exact (begin_ok false).
  - exact (begin_copy false).
  - vm_compute. discriminate.
  - reflexivity.
  - vm_compute. reflexivity.
  - reflexivity.
  - reflexivity.
  - apply (bool_decide_unpack _). vm_compute. exact I.
  - repeat constructor; lia.
  - vm_compute. reflexivity.
  - vm_compute. reflexivity.
  - exists st'. split; [exact Hst|]. split.
    + apply Hs. right. exists 2%nat. split; [reflexivity|]. lia.
    + intros [Hin|(k & Hk & Hle)]%Hs; [revert Hin; vm_compute; intros Hin; inversion Hin|].
      destruct k as [|[|[|k]]]; [lia|discriminate Hk|discriminate Hk|discriminate Hk].
Defined.

End Example.
